(* ===== verification/_CoqProject ===== *)
-Q . S2P
Prelude.v
CInt.v
CStr.v
Bridge.v
FdTable.v
SockCalls.v
Transfer.v
SockOpts.v
FdSet.v
Select.v
Signalling.v
Inet.v
Netdb.v
AddrInfo.v
TableInv.v
SockSpec.v
TransferSpec.v
SignalSpec.v
Api.v
Lwip.v
NetGlue.v
Hairpin.v
NetGlueSpec.v
DwarfPe.v
Personality.v
PersonalitySpec.v
Font.v
RtGlue.v
Gloss.v
GlossLaws.v
Posix.v
FileAttr.v
FileAttrSpec.v
Paths.v
PathsSpec.v
Calendar.v
OsLib.v
GlossSpec.v
GlossEnv.v
OsLibSpec.v
GlossFd.v
GlossIo.v
ProcSpec.v
Prog.v
Ring.v
RingInv.v
RingSpec.v
RingConc.v
RingSafe.v
SockBridge.v
SockBridgeSpec.v
BridgeInst.v
BridgeTime.v
BridgeApi.v
AdaInet.v
Engine.v
EngineLogic.v
EngineInv.v
EngineKeep.v
EngineLedger.v
EngineOps.v
EngineTable.v
EngineRound.v
EngineSpec.v
KPmm.v
KPmmSpec.v
KCap.v
KCapSpec.v
KSched.v
KSchedSpec.v
KSchedOps.v
KTrap.v
KTrapSpec.v
KTrapOps.v
KTrapInv.v
KTrapClaims.v
KZombie.v
KIpc.v
KIpcLog.v
KIpcClaims.v
