(* ===== verification/Prelude.v ===== *)
(** * Aegir: the C layer of the userspace runtime, the network path and the kernel's core

    Aegir is an operating system written in Ada.  The C code of its userspace
    is the layer on which the Ada run time and the network server stand.  This
    development models and verifies that layer, the Ada code it meets on the
    way of a socket call to the network, and the parts of the kernel on which
    all of it rests:

    - [userspace/gnat-rts/gnat_user/aegir_gsocket.c], the BSD socket layer
      below [GNAT.Sockets]: a table of 256 descriptors in front of the socket
      bridge [Aegir_User.Sockets], with blocking calls that poll in 5 ms
      slices;
    - [userspace/lwip/port/aknet_glue.c], the glue between netserv and lwIP:
      the network interface, the hairpin queue for packets to the own address,
      the raw-API callbacks and the listen table;
    - [userspace/freetype/port/ftaegir.c], the shim between the font package
      and FreeType;
    - [userspace/gnat-rts/gnat/unwind-pe.h] and [raise-gcc.c], the exception
      tables and the Ada personality routine, as they are built here (DWARF
      tables, C++ interoperability on, traces off);
    - [userspace/gnat-rts/gnat_full/adaint.c], [cstreams.c], [mkdir.c],
      [sysdep.c], [errno.c] and [cal.c], the C files of GNAT below
      Ada.Directories, Ada.Calendar and GNAT.OS_Lib, in the branches this
      configuration compiles (newlib, [AKERNEL_NO_DIRENT],
      [AKERNEL_NO_UTIME]), composed with the layer they stand on, the Ada
      package [Aegir_User.Gloss] ([userspace/rts/aegir/
      aegir_user-gloss.adb]), which gives newlib its system calls;
    - the small glue: [aegir_nanosleep.c], [aegir_glue.c], [lwip/port/
      sys_arch.c], [gnat_full/env.c] with variables as files, [argv.c];
    - [userspace/rts/aegir/aegir_user-sockets.adb], the socket bridge: it
      gives [aegir_gsocket.c] its [aknet_sock_*] calls, sets up the pair of
      ring pages of every socket and moves data through them;
    - [userspace/netserv/netserv_engine.adb], the server on the other side of
      the rings: the socket table, the operations on the service endpoint,
      the callbacks that [aknet_glue.c] makes, and the service loop;
    - of the kernel ([src/kernel]), [kernel-physical_memory.adb], the frame
      allocator; [kernel-capabilities.adb], the capability table of a process;
      [kernel-scheduler.adb], the ready and sleep queues; what the traps
      ([src/arch/riscv64/arch-traps.adb]) and the ends of threads
      ([kernel-processes.adb]) do to the scheduler; and [kernel-ipc.adb] and
      [kernel-notifications.adb], message passing, with its system calls.

    A socket call goes down through [aegir_gsocket.c] to the bridge, which
    talks to netserv by IPC and through two shared pages; netserv drives lwIP
    through [aknet_glue.c], which calls it back.

    ** Conventions

    C integers are [Z] with the truncation of every store written out ([u32],
    [i32], ..., CInt.v); the target is riscv64 (LP64).  A stateful function is
    a computation of the monad [M S]; it returns ([Done]), or it does not
    ([Blocked]): it is still running when the fuel of one of its unbounded
    loops ends, or it accesses memory outside a buffer.  So termination,
    non-termination and staying in bounds are statements about it.  Table
    readers use the monad [res] of DwarfPe.v, where a read of unmapped memory,
    an undefined shift and a call of [abort] are results of their own.  Code
    outside the C layer (the Ada bridge, netserv, lwIP, FreeType, libgcc, the
    Ada run time, the system calls) is a type class over an abstract world
    [W]; what a theorem needs of it is a second class of laws, and every such
    class has an instance on which the witnesses run.

    The Ada code that shares memory or talks to the kernel is written as trees
    of its visible actions ([prog] and [ev], Prog.v): one definition runs alone
    against a machine ([exec]), interleaved with another on one page
    ([cstep]), or against all answers at once ([steps], EngineLogic.v).
    Failed index checks are [Raise], used-up loop bounds [Spin].

    ** Files

    Sockets, [aegir_gsocket.c]:
    - Bridge.v: its constants, the [aknet_sock_*] externs as class [Bridge],
      [malloc] and [fopen] as class [Libc], laws [BridgeLaws] (which handles
      are open) and [ClockLaws], the instance [script].
    - FdTable.v: [struct ak_sock], the static state as record [gs], lookup and
      allocation, byte order, errno.  SockCalls.v: [socket] to [shutdown].
      Transfer.v: the receive and send workers.  SockOpts.v: options and
      ioctl.  Signalling.v: signalling pairs.  FdSet.v: descriptor sets.
      Select.v: readiness, [select], [poll].  Inet.v: address text.  Netdb.v:
      hosts and services.  AddrInfo.v: [getaddrinfo] over a heap that may
      fail.
    - TableInv.v, SockSpec.v, TransferSpec.v, SignalSpec.v: the invariant of
      the table and the theorems on the calls.  Api.v: every export as a step
      of a client, and the accounting of handles over all of them.

    The bridge, [aegir_user-sockets.adb]:
    - Prog.v: programs, their runs, interleaving, and a rely-guarantee logic.
      Ring.v: the ring of four slots, from both sides: the server's
      [Enqueue_Rx], [Store_Tcp_Rx], [Enqueue_Eof], the client's loops of
      [Send_To] and [Recv_From].  RingInv.v, RingSpec.v: the invariant of a
      ring and what putters and takers do to it; RingConc.v: a server and a
      client on one page; RingSafe.v: a client that keeps no protocol.
    - SockBridge.v: every subprogram of the package.  SockBridgeSpec.v: the
      kernel's capabilities as class [Kernel], and who owns which.
      BridgeInst.v: the instance of [Bridge] that the C layer runs on, with its
      laws discharged.  BridgeTime.v: class [Clock] and the ends of the waits.
      BridgeApi.v: the C layer, the bridge and the kernel together.
      AdaInet.v: address text in Ada against the C parser.

    The server, [netserv_engine.adb]:
    - Engine.v: its state as record [eng], its subprograms as functions in the
      state monad [EM] over programs, [service_round] for a round of the loop
      in [Run].  EngineLogic.v: traces, and a weakest precondition over all
      answers with a ledger.  EngineInv.v: the invariant [good] and the frame
      [kept].  EngineKeep.v: callbacks, drains and ticks.  EngineLedger.v: the
      books of reply handles and capabilities.  EngineOps.v, EngineTable.v,
      EngineRound.v: operations, completions, the round.  EngineSpec.v: the
      theorems over all histories.

    Network glue, [aknet_glue.c]:
    - Lwip.v: the static state as record [glue], lwIP and netserv as classes
      [Lwip] and [Netserv].  NetGlue.v: every function of the file.
      Hairpin.v: the books of pbufs ([GlueLaws], [books]), the queue and its
      drain.  NetGlueSpec.v: output, callbacks, listen table, TCP close.

    Exceptions, [unwind-pe.h] and [raise-gcc.c]:
    - DwarfPe.v: LEB128 and encoded pointers.  Personality.v: the routine,
      with libgcc as class [Unwinder] and the Ada run time as [AdaRts].
      PersonalitySpec.v: frames, their layout in memory, their meaning.

    The kernel:
    - KPmm.v: the frame allocator as record [pmm], with the free list threaded
      through the frames.  KPmmSpec.v: its invariant [pmm_ok], who owns which
      frame.
    - KCap.v: rights, entries and the paged table [Cap_Table] over the
      allocator.  KCapSpec.v: [table_ok], the finite map a table represents,
      and its operations.
    - KSched.v: the variables of the scheduler as record [sched], threads with
      their links as [tcb], one computation per subprogram.  KSchedSpec.v:
      the scheduler without links ([asched]), the relation [rep] between
      them, the ready queue; KSchedOps.v: the sleep queue and the operations.
    - KTrap.v: interrupts, system calls and idle rounds as steps of a machine
      of harts ([machine], [trap]).  KTrapSpec.v: the invariant [ok] and its
      form in the middle of a trap; KTrapOps.v, KTrapInv.v: every trap keeps
      it, also when a process exits while another hart runs one of its
      threads; KTrapClaims.v: the theorems over all histories; KZombie.v: what
      such an exit leaves behind.
    - KIpc.v: endpoints, notifications, their slabs and queues, and the whole
      kernel as record [kern] over the machine, the objects, the capability
      tables and the frames; the rendezvous, the transfer of messages and
      capabilities, and the system calls.  KIpcLog.v: a logic on views of the
      kernel ([seen], [kwp]), with a rule for each part of it from the
      theorems on that part; KIpcClaims.v: the caller queue is a list
      ([shows]), the theorem on any series of operations, and three histories
      that go wrong.

    Ports: Font.v (the FreeType shim), RtGlue.v (time, exit, environment,
    arguments).

    Files and the system-call layer:
    - CStr.v: C strings.  Gloss.v: [Aegir_User.Gloss] over the file service
      as class [FileServ]: tables of descriptors and of directory walks,
      working directory, variables, [stat], the calls it refuses; with
      [Set_Env] of [Aegir_User.CLI].  GlossLaws.v: what the file service
      promises ([FileLaws], [WholeWrites]) and a service that keeps it.
    - Posix.v: the system interface of the GNAT files as class [Posix], with
      the instance [gloss_posix].  FileAttr.v: the attribute cache of
      adaint.c, permissions, time stamps.  Paths.v: absolute names, search
      paths, full names.  Calendar.v: broken-down time.  OsLib.v: opening,
      directories, locks, processes, streams.
    - FileAttrSpec.v, PathsSpec.v: theorems on those files over any [Posix]
      with the laws they need ([StatLaws], which [gloss_stat_laws]
      discharges).  GlossSpec.v (working directory), GlossEnv.v (variables:
      [gloss_env_laws] discharges the interface [EnvLaws] of env.c),
      OsLibSpec.v (directory walks), GlossFd.v (opening), GlossIo.v (reading
      and writing), ProcSpec.v (locks, processes): theorems on the
      composition of the C files, the layer and the file service.

    ** What the theorems show

    - Sockets: in every reachable state, and while a call waits, the table is
      well formed and its open entries hold exactly the bridge's open handles
      ([Api.handles_accounted]); what [socket] and close do on every branch;
      [bind] against [getsockname]; the option store as a map of eight keys;
      a stream send as the transmission of a prefix in order, its completion,
      a datagram as all or nothing, the answers of [recvfrom]; signalling
      pairs as counters.
    - The bridge: under every interleaving of server and client the datagrams
      received are those stored, in order and whole, each at most once
      ([RingConc.udp_ring_fifo]), and the stream received is the stream stored
      ([RingConc.tcp_ring_fifo]); a server stays in its page beside any client
      ([RingSafe.server_confined]).  After any series of C socket calls the
      process owns exactly three kernel capabilities per open socket
      ([BridgeApi.kernel_caps_accounted]); the bridge's waits end
      ([BridgeApi.bridge_waits_end]); both address parsers agree
      ([AdaInet.ip_text_agrees]).
    - The server, over any requests, answers, callbacks and ring contents:
      every request is answered once or parked with an operation under way
      ([EngineSpec.requests_answered]); every capability that came with a
      request is deleted, held by a socket or a lookup, or one of those that
      no handler takes, which the server keeps for good, and exactly the
      windows of claimed sockets are mapped ([EngineSpec.server_caps_accounted]);
      an access outside a window or a failed check has one of three causes, an
      operation of the Net: volume, the badge of a connection nobody accepted
      yet, and an empty datagram or data reported as sent for a socket without
      rings ([EngineSpec.server_faults_only]); connects time out
      ([EngineSpec.connects_time_out]); ephemeral ports are free ones
      ([EngineSpec.ephemeral_ports]).
    - The kernel: a frame has one owner and an allocation delivers one that
      nobody owns ([KPmmSpec.frames_exclusive]); a capability table is a
      finite map, copies carry no right the source has not, every frame that is
      not needed goes back and no other table changes
      ([KCapSpec.cap_table_refines]); rights and masks
      ([KCapSpec.rights_masks]).  After any history of traps on any harts every
      thread is where its state says and a hart returns into its current
      thread, if it has one; a hart that has none is in the idle loop, unless a
      process exited on another hart while it ran one of its threads
      ([KTrapClaims.threads_accounted]); the
      threads of the highest priority take turns ([KTrapClaims.round_robin]);
      sleepers are woken in time ([KTrapClaims.sleepers_woken]).  The callers
      of an endpoint are a list, served in order, and a failing endpoint wakes
      them all ([KIpcClaims.caller_queues]).
    - Waiting: what [select] and [poll] report, that a [poll] wakes, that a
      timed [poll] ends and not before its deadline, and that a [select] which
      has gone idle once does not wake ([Select.select_forgets]).
    - Names: the dotted-decimal parser accepts exactly the dotted addresses;
      text round trips; host lookups; [getaddrinfo] under any pattern of
      allocation failures: which host and port its nodes hold, byte for byte,
      the cause of each error ([AddrInfo.getaddrinfo_result]), and that freeing
      its result frees exactly what it allocated.
    - Glue: no pbuf leaks on any path and none is freed that is not held
      ([Hairpin.glue_no_leak]); the hairpin queue is a bounded FIFO
      drained in order, also when deliveries queue more, and the drain ends
      when the deliveries settle; callbacks free a packet exactly when they
      tell lwIP so; the listen table is a map; a closed connection calls back
      no more.
    - Exceptions: LEB128 and encoded pointers round trip; on tables laid out
      by a compiler the personality routine takes the decision of the abstract
      frame; its two phases agree and a forced unwind enters cleanups only,
      for arbitrary tables.
    - Ports: opening and closing a font leaks neither face nor block on any
      error path; [nanosleep] sleeps its time and returns; environment
      variables round trip.
    - Files: what is written through a descriptor is read back
      ([GlossIo.write_read_back]); each way of opening a file creates,
      empties, excludes and positions as it says, and errno gives the reason
      of a refusal ([GlossFd.open_kinds]); a directory walk lists the first 24
      characters of every name ([OsLibSpec.dir_walk_lists]); [chdir] and
      [getcwd] agree.  A failure is tied to the refusal of the file service or
      of the arena that caused it.  The attribute cache is well
      typed and answers every sequence of queries as separate calls would,
      with one [stat]; permission changes alter exactly their bits; time
      stamps are exact or the overflow mark.
    - Paths: the search along a path is the first match of the list of its
      candidates, and exactly when it stays in its buffers; absolute names;
      the calendar conversions are inverse for the years that [mktime] takes.

    Theorems that show the code doing other than it means to: the lost
    wake-up of [select], a signalling write to a reused descriptor
    ([SignalSpec.stale_partner_write]), a lookup that fails with the error of
    an earlier one ([Netdb.gethostbyname_stale_error]), kerning by code
    point instead of glyph index ([Font.kerning_takes_code_points]), a search
    with an empty path that writes behind its buffer
    ([PathsSpec.exec_on_path_overflows]), search paths that lose their volumes
    ([PathsSpec.path_volumes_lost]), full names that name another file
    ([PathsSpec.full_name_vs_open]), a first relative name that ignores the
    working directory ([GlossSpec.first_name_ignores_cwd]), variables that
    cannot be set empty ([GlossEnv.setenv_empty_lost]), locks that are never
    obtained ([ProcSpec.try_lock_never]), a page size for a number of
    processors ([ProcSpec.processes_refused]), a time string without its
    terminator ([Calendar.current_time_string_layout]), an empty datagram that
    stops netserv ([RingSafe.enqueue_rx_empty]), a badge that does the same
    ([EngineSpec.forged_poll_faults]), capabilities of rejected requests that
    netserv keeps ([EngineSpec.server_caps_accounted]) and capabilities lost
    when a ring cannot be mapped ([BridgeApi.socket_map_failure_leaks]), a dead
    thread that keeps
    its hart ([KZombie.zombie_keeps_hart]), woken threads that run in the
    reverse order ([KTrapClaims.woken_last_runs_first]), calls that wake a
    thread of a higher priority and go on
    ([KTrapClaims.early_call_keeps_running]), a signal that cuts callers off
    the queue of an endpoint ([KIpcClaims.signal_loses_caller]), one that
    another process takes ([KIpcClaims.dead_binding_steals]) and one that is
    delivered with a reply handle that is none ([KIpcClaims.signal_keeps_a1]).

    ** Bounds and fuel

    Fuel bounds only C loops that have no bound of their own.  A theorem that
    a call returns gives the rounds that are enough: one per slice of the
    timeout and two for timed waits, one per 996 bytes for a send that is
    never refused, one per byte for a file write and one per entry for a
    directory walk, and one more, one per queued packet plus a measure of what
    deliveries queue for the drain, [frame_fuel] for the table searches, one per tick for
    [nanosleep].  A LEB128 value has at most ten bytes: an eleventh would be
    an undefined shift.  A send of the bridge waits at most 102 rounds, a
    receive one per 5 ms and two more.  In the engine, fuel bounds the slots of
    a ring that are drained in one go and the callbacks of one glue call; both
    have no bound in the code, and the theorems hold for every fuel and say
    nothing of a round that uses it up.  In the kernel, a walk along the free
    list may take a round per frame, a walk along a queue a round per thread,
    and one more; the invariants show that this is enough.

    ** Assumptions and limits

    The descriptor sets of a [select] are distinct buffers and the descriptors
    given to the set helpers are 0 to 255, as [GNAT.Sockets] guarantees.
    [__gnat_close_signalling_fd] is not called on a socket.  Handles given to
    the font shim are null or live.  Pointers into the exception tables are
    not wrapped at 2^64, the [_Unwind_Ptr] arithmetic is.  [alloca] and
    [xstrdup] do not fail; memory behind an [alloca] is arbitrary.  The laws
    of the file service hold for files on ordinary volumes with one name each
    ([regular_path]), used by one process at a time; files, offsets and tables
    are below 2^31 where an [int] counts them.  Conversions of the Ada layer
    to [C_Int] wrap.  The file service packs a name into three words of its
    reply as its protocol says.  The C library's calendar is the Gregorian one
    in UTC, with newlib's limit on the years of [mktime].  The frames of
    PersonalitySpec.v have type tables that are not read through an indirection
    ([DW_EH_PE_indirect], which GCC uses for position-independent code); the
    reader of encoded pointers (DwarfPe.v) has that case.
    Two programs on a page are interleaved action by action, sequentially
    consistent; the code fences before it publishes a slot, and has no fence
    between the reads of a slot and the store that frees it.  The classes
    [Kernel] and [Clock] say that capabilities are created fresh and that
    sleeps reach their deadline; class [Faults] records whether a system call
    failed, and only then may capabilities of the bridge be lost.  The engine's
    theorems assume that lwIP passes on no empty datagram and reports data as
    sent only for a socket that could send, that clients do not use a badge
    they were not given, and that a notification carries no reply handle
    ([allowed], [honest]); [EngineSpec.server_faults_only] assumes this of the
    rounds before and nothing of the round it is about.  The driver's receive ring has the slots that the driver counts
    for the ring netserv offers it ([Ring_Slot_Count]).  A trap of the kernel
    is one step, as it runs under the kernel lock; what [legal] asks of it is
    that the threads it names exist and that a new thread takes a control block
    not in use.  The frames an owner asked for
    are below 2^64 and not given back twice while somebody else owns them.  A
    caller is put on the queue of an endpoint only while it is on none
    ([enabled]; [KIpcClaims.signal_loses_caller] is a history in which it is
    not).  That a notification carries no reply handle is what the kernel
    means to do; a thread that was blocked when the signal came gets one.
    Kernel objects of the kinds that are not modelled keep to their own frames
    ([OthersLaws]).

    Not modelled: the branches of the GNAT C files for other systems
    (Windows, VxWorks, Linux, Darwin, Solaris), which are compiled out, their
    empty functions and constants, and the terminal code of [sysdep.c]; the
    allocator, clock and argument hooks of [Aegir_User.Gloss] and its
    diagnostic lines; the headers that configure lwIP; of netserv the text
    files of the Net: volume (a parameter of [dispatch], and their requests
    are outside the theorems on rounds), the start-up, the ticker thread, the
    frame transmission to the driver and the console; of the kernel the
    memory objects, address spaces, processes and devices (in KTrap.v a system
    call is the list of threads it wakes, and an interrupt likewise; KIpc.v has
    the eleven calls of message passing and capabilities in full); the other Ada code (servers, drivers, commands), which the
    classes above stand for where the modelled code meets it; lwIP, FreeType, newlib and libgcc
    themselves. *)

From stdpp Require Export base numbers option list gmap strings.

(** ** Scopes and hint databases *)

Declare Scope aegir_scope.
Delimit Scope aegir_scope with aegir.
Global Open Scope aegir_scope.
Global Open Scope Z_scope.

Create HintDb aegir discriminated.
Create HintDb aegir_rw.

(** ** Outcomes of a C call

    [Done a s]: the call returned [a] in state [s].  [Blocked s]: the fuel of
    an unbounded C loop was used up in state [s], so the call is still
    running, or its run has no defined result (an access outside a buffer, a
    read of an object nothing has filled).  Carrying the state lets a theorem
    say that a call never returns: it is [Blocked] for every amount of fuel. *)

Inductive outcome (S A : Type) : Type :=
| Done (a : A) (s : S)
| Blocked (s : S).
Arguments Done {S A} _ _.
Arguments Blocked {S A} _.

Definition out_state {S A} (o : outcome S A) : S :=
  match o with Done _ s => s | Blocked s => s end.

Definition M (S A : Type) : Type := S -> outcome S A.

Definition retM {S A} (a : A) : M S A := fun s => Done a s.

Definition bindM {S A B} (c : M S A) (k : A -> M S B) : M S B :=
  fun s => match c s with
           | Done a s' => k a s'
           | Blocked s' => Blocked s'
           end.

Definition getsM {S A} (f : S -> A) : M S A := fun s => Done (f s) s.

Definition modifyM {S} (f : S -> S) : M S unit := fun s => Done tt (f s).

(** A state-passing primitive that always returns. *)
Definition liftM {S A} (f : S -> A * S) : M S A :=
  fun s => let '(a, s') := f s in Done a s'.

Notation "'let*' x := c 'in' k" := (bindM c (fun x => k))
  (at level 10, x name, c at level 100, k at level 200,
   format "'[v' 'let*'  x  :=  c  'in' '/' k ']'") : aegir_scope.
Notation "'let*' ' p := c 'in' k" := (bindM c (fun x => match x with p => k end))
  (at level 10, p pattern, c at level 100, k at level 200, only parsing)
  : aegir_scope.
Notation "c1 ;; c2" := (bindM c1 (fun _ => c2)) : aegir_scope.

(** ** Unbounded loops

    [iterM fuel body acc]: the C loop [for (;;) body].  The body continues
    with a new accumulator ([inl]) or leaves the loop with a value ([inr]). *)
Fixpoint iterM {S X A} (fuel : nat) (body : X -> M S (X + A)) (x : X) : M S A :=
  match fuel with
  | O => fun s => Blocked s
  | Datatypes.S n =>
      bindM (body x) (fun r => match r with
                               | inl x' => iterM n body x'
                               | inr a => retM a
                               end)
  end.

(** ** A small program logic

    [wp c Q s]: the call returns from [s] and [Q] holds of the result.
    [wlp c Q B s]: if it returns, [Q] holds; while it is running, [B]. *)

Definition wp {S A} (c : M S A) (Q : A -> S -> Prop) (s : S) : Prop :=
  match c s with Done a s' => Q a s' | Blocked _ => False end.

Definition wlp {S A} (c : M S A) (Q : A -> S -> Prop) (B : S -> Prop) (s : S)
  : Prop :=
  match c s with Done a s' => Q a s' | Blocked s' => B s' end.

(** A call preserves [I]: at its return, and at every point where the fuel
    of one of its loops ends. *)
Definition preserves {S A} (I : S -> Prop) (c : M S A) : Prop :=
  forall s, I s -> wlp c (fun _ => I) I s.

(** [hoare P c Q B]: from a state in [P], the call returns in [Q] or is
    still running in [B]. *)
Definition hoare {S A} (P : S -> Prop) (c : M S A) (Q : A -> S -> Prop)
    (B : S -> Prop) : Prop :=
  forall s, P s -> wlp c Q B s.

(** ** Tactics *)

(** Case analysis on the [if]s and [match]es of a goal, keeping equations. *)
Ltac split_if :=
  match goal with
  | |- context [if ?b then _ else _] => destruct b eqn:?
  | |- context [match ?x with _ => _ end] => destruct x eqn:?
  end.

(** Booleans of the C conditions to propositions. *)
Ltac bool_to_prop :=
  repeat match goal with
  | H : _ && _ = true |- _ => apply andb_true_iff in H; destruct H
  | H : _ || _ = false |- _ => apply orb_false_iff in H; destruct H
  | H : negb _ = true |- _ => apply negb_true_iff in H
  | H : negb _ = false |- _ => apply negb_false_iff in H
  | H : (_ =? _) = true |- _ => apply Z.eqb_eq in H
  | H : (_ =? _) = false |- _ => apply Z.eqb_neq in H
  | H : (_ <? _) = true |- _ => apply Z.ltb_lt in H
  | H : (_ <? _) = false |- _ => apply Z.ltb_ge in H
  | H : (_ <=? _) = true |- _ => apply Z.leb_le in H
  | H : (_ <=? _) = false |- _ => apply Z.leb_gt in H
  end.

(** [lia] with division and remainder by constants. *)
Ltac zlia := Z.div_mod_to_equations; lia.

Ltac unfold_m := unfold bindM, retM, getsM, modifyM, liftM in *.

(** ** Laws of the logic *)

Lemma bindM_assoc {S A B C} (c : M S A) (f : A -> M S B) (g : B -> M S C) s :
  bindM (bindM c f) g s = bindM c (fun a => bindM (f a) g) s.
Proof. unfold bindM. by destruct (c s). Qed.

(** Run past a call whose result is known. *)
Lemma bindM_done {S A B} (c : M S A) (k : A -> M S B) s a s' :
  c s = Done a s' -> bindM c k s = k a s'.
Proof. intros H. unfold bindM. by rewrite H. Qed.

Lemma wp_bind {S A B} (c : M S A) (k : A -> M S B) Q s :
  wp (bindM c k) Q s <-> wp c (fun a s' => wp (k a) Q s') s.
Proof. unfold wp, bindM. by destruct (c s). Qed.

Lemma wp_mono {S A} (c : M S A) (Q Q' : A -> S -> Prop) s :
  (forall a s', Q a s' -> Q' a s') -> wp c Q s -> wp c Q' s.
Proof. unfold wp. destruct (c s); naive_solver. Qed.

Lemma hoare_bind {S A B} (P : S -> Prop) (c : M S A) (R : A -> S -> Prop)
    (k : A -> M S B) (Q : B -> S -> Prop) (I : S -> Prop) :
  hoare P c R I -> (forall a, hoare (R a) (k a) Q I) -> hoare P (bindM c k) Q I.
Proof.
  intros Hc Hk s Hs. specialize (Hc s Hs). unfold wlp, bindM in *.
  destruct (c s); [by apply Hk | done].
Qed.

Lemma hoare_conseq {S A} (P P' : S -> Prop) (c : M S A) (Q Q' : A -> S -> Prop)
    (I I' : S -> Prop) :
  hoare P' c Q' I' -> (forall s, P s -> P' s) -> (forall a s, Q' a s -> Q a s) ->
  (forall s, I' s -> I s) -> hoare P c Q I.
Proof.
  intros Hc HP HQ HI s Hs. specialize (Hc s (HP s Hs)). unfold wlp in *.
  destruct (c s); auto.
Qed.

Lemma hoare_ret {S A} (P : S -> Prop) (a : A) (Q : A -> S -> Prop) (I : S -> Prop) :
  (forall s, P s -> Q a s) -> hoare P (retM a) Q I.
Proof. intros H s. apply H. Qed.

Lemma preserves_ret {S A} (I : S -> Prop) (a : A) : preserves I (retM a).
Proof. by intros s. Qed.

Lemma preserves_gets {S A} (I : S -> Prop) (f : S -> A) : preserves I (getsM f).
Proof. by intros s. Qed.

Lemma preserves_bind {S A B} (I : S -> Prop) (c : M S A) (k : A -> M S B) :
  preserves I c -> (forall a, preserves I (k a)) -> preserves I (bindM c k).
Proof.
  intros Hc Hk s Hs. specialize (Hc s Hs). unfold wlp, bindM in *.
  destruct (c s); [by apply Hk | done].
Qed.

Lemma preserves_if {S A} (I : S -> Prop) (b : bool) (c1 c2 : M S A) :
  preserves I c1 -> preserves I c2 -> preserves I (if b then c1 else c2).
Proof. by destruct b. Qed.

Lemma preserves_iter {S X A} (I : S -> Prop) (body : X -> M S (X + A)) fuel x :
  (forall x, preserves I (body x)) -> preserves I (iterM fuel body x).
Proof.
  intros Hb. revert x. induction fuel as [|n IH]; intros x; [by intros s|].
  cbn [iterM]. apply preserves_bind; [apply Hb|].
  intros [x'|a]; [apply IH | apply preserves_ret].
Qed.

Lemma preserves_modify {S} (I : S -> Prop) (f : S -> S) :
  (forall s, I s -> I (f s)) -> preserves I (modifyM f).
Proof. intros H s. apply H. Qed.

Lemma preserves_lift {S A} (I : S -> Prop) (f : S -> A * S) :
  (forall s, I s -> I (f s).2) -> preserves I (liftM f).
Proof. intros H s Hs. specialize (H s Hs). unfold wlp, liftM. by destruct (f s). Qed.

#[export] Hint Resolve preserves_ret preserves_gets : aegir.

(** Structural decomposition of a preservation goal; leaves the primitives. *)
Ltac preserves_step :=
  match goal with
  | |- preserves _ (bindM _ _) => apply preserves_bind
  | |- preserves _ (retM _) => apply preserves_ret
  | |- preserves _ (getsM _) => apply preserves_gets
  | |- preserves _ (iterM _ _ _) => apply preserves_iter; intros ?
  | |- preserves _ (if ?b then _ else _) => destruct b eqn:?
  | |- preserves _ (match ?x with _ => _ end) => destruct x eqn:?
  | |- forall _, preserves _ _ => intros ?
  | |- preserves _ (let _ := _ in _) => cbv zeta
  end.

Lemma iter_fuel_mono {S X A} (body : X -> M S (X + A)) n m x s a s' :
  (n <= m)%nat -> iterM n body x s = Done a s' -> iterM m body x s = Done a s'.
Proof.
  revert m x s. induction n as [|n IH]; intros m x s Hle; [done|].
  destruct m as [|m]; [lia|]. cbn [iterM]. unfold bindM.
  destruct (body x s) as [[x'|b] s1|s1]; [|done|done].
  apply IH. lia.
Qed.

(** Termination of a loop: a measure on accumulator and state that drops at
    every iteration which continues, under an invariant of the loop. *)
Lemma iter_terminates {S X A} (body : X -> M S (X + A)) (I : X -> S -> Prop)
    (Q : A -> S -> Prop) (mu : X -> S -> nat) :
  (forall x s, I x s ->
     wp (body x) (fun r s' => match r with
                              | inl x' => I x' s' /\ (mu x' s' < mu x s)%nat
                              | inr a => Q a s'
                              end) s) ->
  forall fuel x s, I x s -> (mu x s < fuel)%nat -> wp (iterM fuel body x) Q s.
Proof.
  intros Hb. induction fuel as [|n IH]; intros x s HI Hmu; [lia|].
  cbn [iterM]. apply wp_bind. eapply wp_mono; [|apply (Hb x s HI)].
  intros [x'|a] s'; [intros [HI' Hd]; apply IH; [done|lia] | done].
Qed.

(** The invariant rule: it holds when the loop is left and while it runs. *)
Lemma iter_wlp {S X A} (body : X -> M S (X + A)) (I : X -> S -> Prop)
    (Q : A -> S -> Prop) (B : S -> Prop) :
  (forall x s, I x s -> B s) ->
  (forall x s, I x s ->
     wlp (body x) (fun r s' => match r with inl x' => I x' s' | inr a => Q a s' end) B s) ->
  forall fuel x s, I x s -> wlp (iterM fuel body x) Q B s.
Proof.
  intros HB Hb. induction fuel as [|n IH]; intros x s HI; [by eapply HB|].
  cbn [iterM]. specialize (Hb x s HI). unfold wlp, bindM in *.
  destruct (body x s) as [[x'|a] s1|s1]; [by apply IH|done|done].
Qed.

Lemma wlp_bind {S A B} (c : M S A) (k : A -> M S B) Q P s :
  wlp (bindM c k) Q P s <-> wlp c (fun a s' => wlp (k a) Q P s') P s.
Proof. unfold wlp, bindM. by destruct (c s). Qed.

(** A loop whose body always continues never returns. *)
Lemma iter_diverges {S X A} (body : X -> M S (X + A)) (I : X -> S -> Prop) :
  (forall x s, I x s -> wp (body x) (fun r s' => exists x', r = inl x' /\ I x' s') s) ->
  forall fuel x s, I x s -> exists s', iterM fuel body x s = Blocked s'.
Proof.
  intros Hb. induction fuel as [|n IH]; intros x s HI; [by eexists|].
  cbn [iterM]. unfold bindM. specialize (Hb x s HI). unfold wp in Hb.
  destruct (body x s) as [r s1|]; [|done].
  destruct Hb as (x' & -> & HI'). by apply IH.
Qed.

(** ** Lists used as C arrays *)

Lemma list_lookup_alter_decide {A} (f : A -> A) (l : list A) (i j : nat) :
  alter f i l !! j = if decide (i = j) then f <$> l !! j else l !! j.
Proof.
  case_decide as H; [subst; apply list_lookup_alter_eq | by apply list_lookup_alter_ne].
Qed.

Lemma Forall_alter_lookup {A} (P : A -> Prop) (f : A -> A) (l : list A) i :
  Forall P l -> (forall x, l !! i = Some x -> P x -> P (f x)) -> Forall P (alter f i l).
Proof.
  intros Hl Hf. apply Forall_lookup. intros j x.
  rewrite list_lookup_alter_decide. rewrite Forall_lookup in Hl.
  case_decide; [subst|by apply Hl].
  destruct (l !! j) eqn:E; [|done]. cbn. intros [= <-]. eauto.
Qed.

Lemma alter_as_insert {A} (f : A -> A) (l : list A) i x :
  l !! i = Some x -> alter f i l = <[i := f x]> l.
Proof.
  intros Hx. apply list_eq. intros j. rewrite list_lookup_alter_decide.
  destruct (decide (i = j)) as [<-|].
  - rewrite Hx, list_lookup_insert_eq; [done|]. by eapply lookup_lt_Some.
  - by rewrite list_lookup_insert_ne.
Qed.
