(* ===== verification/CInt.v ===== *)
(** * Machine integers and byte order *)
From S2P Require Import Prelude.

(** Truncations and sign conversions of C on riscv64 (LP64: [int] 32 bits,
    [long] and pointers 64 bits; [char] unsigned). *)
Definition u8 (x : Z) : Z := x mod 2 ^ 8.
Definition u16 (x : Z) : Z := x mod 2 ^ 16.
Definition u32 (x : Z) : Z := x mod 2 ^ 32.
Definition u64 (x : Z) : Z := x mod 2 ^ 64.
Definition i32 (x : Z) : Z := (x + 2 ^ 31) mod 2 ^ 32 - 2 ^ 31.
Definition i64 (x : Z) : Z := (x + 2 ^ 63) mod 2 ^ 64 - 2 ^ 63.

Definition in_u8 (x : Z) : Prop := 0 <= x < 256.
Definition in_u16 (x : Z) : Prop := 0 <= x < 65536.
Definition in_u32 (x : Z) : Prop := 0 <= x < 4294967296.
Definition in_u64 (x : Z) : Prop := 0 <= x < 18446744073709551616.
Definition in_i32 (x : Z) : Prop := -2147483648 <= x < 2147483648.
Definition in_i64 (x : Z) : Prop := -9223372036854775808 <= x < 9223372036854775808.

Ltac unfold_int :=
  unfold u8, u16, u32, u64, i32, i64, in_u8, in_u16, in_u32, in_u64, in_i32, in_i64 in *;
  change (2 ^ 8) with 256 in *; change (2 ^ 16) with 65536 in *;
  change (2 ^ 24) with 16777216 in *;
  change (2 ^ 31) with 2147483648 in *; change (2 ^ 32) with 4294967296 in *;
  change (2 ^ 63) with 9223372036854775808 in *;
  change (2 ^ 64) with 18446744073709551616 in *.

Ltac int_lia := unfold_int; zlia.

Lemma u8_range x : in_u8 (u8 x). Proof. int_lia. Qed.
Lemma u16_range x : in_u16 (u16 x). Proof. int_lia. Qed.
Lemma u32_range x : in_u32 (u32 x). Proof. int_lia. Qed.
Lemma u64_range x : in_u64 (u64 x). Proof. int_lia. Qed.
Lemma i32_range x : in_i32 (i32 x). Proof. int_lia. Qed.
Lemma u8_id x : in_u8 x -> u8 x = x. Proof. int_lia. Qed.
Lemma u16_id x : in_u16 x -> u16 x = x. Proof. int_lia. Qed.
Lemma u32_id x : in_u32 x -> u32 x = x. Proof. int_lia. Qed.
Lemma u64_id x : in_u64 x -> u64 x = x. Proof. int_lia. Qed.
Lemma i32_id x : in_i32 x -> i32 x = x. Proof. int_lia. Qed.
Lemma i64_id x : in_i64 x -> i64 x = x. Proof. int_lia. Qed.

#[export] Hint Resolve u8_range u16_range u32_range u64_range i32_range : aegir.

(** Bitwise or of disjoint fields is addition. *)
Lemma land_shiftl_disjoint a b n :
  0 <= n -> 0 <= a < 2 ^ n -> Z.land a (Z.shiftl b n) = 0.
Proof.
  intros Hn Ha. apply Z.bits_inj'. intros i Hi. rewrite Z.land_spec, Z.bits_0.
  destruct (decide (i < n)).
  - by rewrite (Z.shiftl_spec_low b n i), andb_false_r by lia.
  - rewrite <- (Z.mod_small a (2 ^ n)) by done. by rewrite Z.mod_pow2_bits_high by lia.
Qed.

Lemma lor_shiftl_add a b n :
  0 <= n -> 0 <= a < 2 ^ n -> Z.lor a (Z.shiftl b n) = a + b * 2 ^ n.
Proof.
  intros Hn Ha. pose proof (land_shiftl_disjoint a b n Hn Ha) as H.
  rewrite <- Z.shiftl_mul_pow2, Z.add_nocarry_lxor by done. by rewrite Z.lxor_lor.
Qed.
