(* ===== verification/CStr.v ===== *)
(** * C strings

    A string is the list of its bytes without the terminator; a buffer is a
    list of bytes that holds one up to its first NUL. *)
From S2P Require Import Prelude.

(** The characters of an ASCII literal. *)
Definition bytes (s : string) : list Z :=
  (fun c => Z.of_nat (Ascii.nat_of_ascii c)) <$> String.list_ascii_of_string s.

(** The bytes before the first NUL. *)
Fixpoint cstr (l : list Z) : list Z :=
  match l with
  | [] => []
  | c :: l' => if c =? 0 then [] else c :: cstr l'
  end.

(** The characters the path code looks for. *)
Definition ch_colon : Z := 58.
Definition ch_slash : Z := 47.
Definition ch_quote : Z := 34.
Definition ch_dot : Z := 46.

(** A string holds no NUL. *)
Definition no_nul (l : list Z) : Prop := Forall (fun c => c <> 0) l.

#[export] Instance no_nul_dec l : Decision (no_nul l).
Proof. unfold no_nul. apply _. Defined.

Lemma cstr_app_nul n l : (forall c, c ∈ n -> c <> 0) -> cstr (n ++ 0 :: l) = n.
Proof.
  induction n as [|c n IH]; intros H; [done|]. cbn [app cstr].
  replace (c =? 0) with false by (symmetry; apply Z.eqb_neq, H; by left).
  rewrite IH; [done|]. intros x Hx. apply H. by right.
Qed.

Lemma cstr_no_nul l c : c ∈ cstr l -> c <> 0.
Proof.
  induction l as [|x l IH]; cbn [cstr]; [by intros ?%elem_of_nil|].
  destruct (x =? 0) eqn:E; [by intros ?%elem_of_nil|]. bool_to_prop.
  intros [->|H]%elem_of_cons; auto.
Qed.

Lemma cstr_id l : no_nul l -> cstr l = l.
Proof.
  induction 1 as [|c l Hc Hl IH]; [done|]. cbn [cstr].
  apply Z.eqb_neq in Hc. by rewrite Hc, IH.
Qed.
