(* ===== verification/Bridge.v ===== *)
(** * The interfaces the socket layer calls

    [Bridge]: the [aknet_sock_*] exports of [Aegir_User.Sockets], the raw
    [sleep_until] system call and the tick clock, as the [extern]
    declarations of [aegir_gsocket.c] state them.  A world [W] is everything
    behind these calls: netserv, the rings, the kernel, the clock.  Every
    call always stores through its out-pointers, so out-parameters are
    results.

    [Libc]: what the file uses of newlib beyond pure functions: whether
    [malloc] succeeds and what [fopen]/[fread] deliver.

    [BridgeLaws]: what the theorems about whole executions rely on: which
    handles the bridge holds open, and that the clock never runs backwards.

    Every interface has an instance, [script], a bridge that answers from a
    list of prepared replies; the witnesses run on it. *)
From S2P Require Import Prelude CInt.

(** ** Constants of aegir_gsocket.c *)

Definition AK_AF_INET : Z := 2.
Definition AK_SOCK_STREAM : Z := 1.
Definition AK_SOCK_DGRAM : Z := 2.
Definition AK_IPPROTO_ICMP : Z := 1.
Definition AK_IPPROTO_TCP : Z := 6.
Definition AK_IPPROTO_UDP : Z := 17.
Definition AK_SOL_SOCKET : Z := 1.
Definition AK_SO_ERROR : Z := 4.
Definition AK_MSG_PEEK : Z := 2.
Definition AK_FIONBIO : Z := 0x5421.
Definition AK_FIONREAD : Z := 0x541B.
Definition AK_POLLIN : Z := 1.
Definition AK_POLLOUT : Z := 4.
Definition AK_POLLERR : Z := 8.
Definition AK_POLLHUP : Z := 16.
Definition AK_POLLNVAL : Z := 32.
Definition AK_ST_OK : Z := 0.
Definition AK_ST_TIMEOUT : Z := 1.
Definition AK_ST_NOT_READY : Z := 2.
Definition AK_ST_BAD_ARGS : Z := 3.
Definition AK_ERR_HAIRPIN : Z := 1.
Definition AK_ERR_ARP : Z := 2.
Definition AK_ERR_USAGE : Z := 3.
Definition AK_ERR_REFUSED : Z := 4.
Definition AK_ERR_CXTIME : Z := 5.
Definition AK_ERR_RESET : Z := 6.
Definition AK_TICK_HZ : Z := 10000000.
Definition AK_SLICE : Z := 50000.
Definition AK_FD_FIRST : Z := 3.
Definition AK_FD_MAX : Z := 256.
Definition AK_FDSET_BYTES : Z := 32.
Definition AK_MAX_PAYLOAD : Z := 996.
Definition AK_HOST_NOT_FOUND : Z := 1.
Definition AK_TRY_AGAIN : Z := 2.
Definition AK_NO_RECOVERY : Z := 3.
Definition AK_NO_DATA : Z := 4.
Definition AK_EAI_NONAME : Z := -2.
Definition AK_EAI_AGAIN : Z := -3.
Definition AK_EAI_FAIL : Z := -4.
Definition AK_EAI_FAMILY : Z := -6.
Definition AK_EAI_SOCKTYPE : Z := -7.
Definition AK_EAI_SERVICE : Z := -8.
Definition AK_EAI_MEMORY : Z := -10.
Definition AK_EAI_SYSTEM : Z := -11.
Definition AK_KIND_SOCK : Z := 1.
Definition AK_KIND_SIGR : Z := 2.
Definition AK_KIND_SIGW : Z := 3.
Definition AK_NOPT : Z := 8.

(** The errno values of newlib (mirrored by gnat_user/s-oscons.ads). *)
Definition EIO : Z := 5.
Definition EBADF : Z := 9.
Definition EWOULDBLOCK : Z := 11.
Definition EINVAL : Z := 22.
Definition EMFILE : Z := 24.
Definition ENOSPC : Z := 28.
Definition EPIPE : Z := 32.
Definition ENOSYS : Z := 88.
Definition EOPNOTSUPP : Z := 95.
Definition ECONNRESET : Z := 104.
Definition ENOBUFS : Z := 105.
Definition EAFNOSUPPORT : Z := 106.
Definition ECONNREFUSED : Z := 111.
Definition EADDRINUSE : Z := 112.
Definition ENETDOWN : Z := 115.
Definition ETIMEDOUT : Z := 116.
Definition EHOSTUNREACH : Z := 118.
Definition EDESTADDRREQ : Z := 121.
Definition EMSGSIZE : Z := 122.
Definition EADDRNOTAVAIL : Z := 125.
Definition ENOTCONN : Z := 128.

(** ** The bridge *)

(** What [aknet_sock_recvfrom] stores: its status, the bytes it wrote at the
    buffer, the source address and port, the count. *)
Record recv_reply := RecvReply {
  rr_status : Z; rr_data : list Z; rr_ip : Z; rr_port : Z; rr_count : Z }.

(** What [aknet_sock_poll] stores. *)
Record poll_reply := PollReply {
  pr_status : Z; pr_rx : Z; pr_tx : Z; pr_err : Z }.

(** What [aknet_sock_accept] stores. *)
Record accept_reply := AcceptReply {
  ar_status : Z; ar_handle : Z; ar_ip : Z; ar_port : Z }.

Class Bridge (W : Type) := {
  aknet_sock_attach : Z -> W -> W;
  aknet_sock_endpoint : W -> Z;
  aknet_sock_socket : Z -> W -> (Z * Z) * W;
  aknet_sock_bind : Z -> Z -> W -> (Z * Z) * W;
  aknet_sock_connect : Z -> Z -> Z -> W -> Z * W;
  aknet_sock_listen : Z -> Z -> W -> Z * W;
  aknet_sock_accept : Z -> W -> accept_reply * W;
  aknet_sock_sendto : Z -> list Z -> Z -> Z -> Z -> W -> Z * W;
  aknet_sock_recvfrom : Z -> Z -> Z -> W -> recv_reply * W;
  aknet_sock_poll : Z -> W -> poll_reply * W;
  aknet_sock_close : Z -> W -> Z * W;
  aknet_sock_resolve : list Z -> Z -> W -> (Z * Z) * W;
  aegir_sys_sleep_until : Z -> W -> Z * W;
  aegir_rdtime : W -> Z * W
}.

Class Libc (W : Type) := {
  malloc_ok : Z -> W -> bool * W;
  read_file : list Z -> Z -> W -> option (list Z) * W
}.

(** ** The laws of the bridge used by the theorems on executions

    [live w] is the set of socket handles the bridge holds open in [w]. *)
Class BridgeLaws (W : Type) `{Bridge W} (live : W -> gset Z) : Prop := {
  live_attach c w : live (aknet_sock_attach c w) = live w;
  live_socket p w st h w' :
    aknet_sock_socket p w = ((st, h), w') ->
    if (st =? AK_ST_OK) then (h ∉ live w) /\ (live w' = {[h]} ∪ live w)
    else live w' = live w;
  live_accept h w r w' :
    aknet_sock_accept h w = (r, w') ->
    if (ar_status r =? AK_ST_OK)
    then (ar_handle r ∉ live w) /\ (live w' = {[ar_handle r]} ∪ live w)
    else live w' = live w;
  live_close h w : live (aknet_sock_close h w).2 = live w ∖ {[h]};
  live_bind h p w : live (aknet_sock_bind h p w).2 = live w;
  live_connect h i p w : live (aknet_sock_connect h i p w).2 = live w;
  live_listen h b w : live (aknet_sock_listen h b w).2 = live w;
  live_sendto h d l i p w : live (aknet_sock_sendto h d l i p w).2 = live w;
  live_recvfrom h m t w : live (aknet_sock_recvfrom h m t w).2 = live w;
  live_poll h w : live (aknet_sock_poll h w).2 = live w;
  live_resolve n l w : live (aknet_sock_resolve n l w).2 = live w;
  live_sleep d w : live (aegir_sys_sleep_until d w).2 = live w;
  live_rdtime w : live (aegir_rdtime w).2 = live w
}.

(** The clock: [clock w] is the tick count a read of the [time] CSR would
    return; no call sets it back, and a sleep does not return before its
    deadline. *)
Class ClockLaws (W : Type) `{Bridge W} (clock : W -> Z) : Prop := {
  clock_u64 w : in_u64 (clock w);
  rdtime_clock w : (aegir_rdtime w).1 = clock w;
  rdtime_world w : clock w <= clock (aegir_rdtime w).2;
  poll_clock h w : clock w <= clock (aknet_sock_poll h w).2;
  sleep_clock d w : in_u64 d -> Z.max (clock w) d <= clock (aegir_sys_sleep_until d w).2
}.

(** ** A scripted bridge

    Polls, receives, sends and accepts answer from prepared lists (the last
    answer repeats); a negative endpoint stands for a network that cannot be
    attached; [socket] and [accept] hand out fresh handles; the clock
    advances by one tick per read and to the deadline on a sleep. *)
Record script := Script {
  sc_endpoint : Z;
  sc_next : Z;
  sc_live : gset Z;
  sc_clock : Z;
  sc_polls : list poll_reply;
  sc_recvs : list recv_reply;
  sc_sends : list Z;
  sc_accepts : list (Z * Z * Z);
  sc_bind : Z * Z;
  sc_connect : Z;
  sc_resolve : Z * Z;
  sc_mallocs : list bool;
  sc_file : option (list Z);
  sc_log : list (list Z)
}.

(** The first of the prepared answers; a list with one answer keeps it. *)
Definition next_of {A} (d : A) (l : list A) : A * list A :=
  match l with
  | [] => (d, [])
  | [x] => (x, [x])
  | x :: l' => (x, l')
  end.

Definition script_tick (t : Z) (w : script) : script :=
  Script (sc_endpoint w) (sc_next w) (sc_live w) t (sc_polls w) (sc_recvs w)
    (sc_sends w) (sc_accepts w) (sc_bind w) (sc_connect w) (sc_resolve w)
    (sc_mallocs w) (sc_file w) (sc_log w).

Definition script_lists pl rl sl al (log : list (list Z)) (w : script) : script :=
  Script (sc_endpoint w) (sc_next w) (sc_live w) (sc_clock w) pl rl sl al
    (sc_bind w) (sc_connect w) (sc_resolve w) (sc_mallocs w) (sc_file w) log.

Definition script_handles (n : Z) (l : gset Z) (w : script) : script :=
  Script (sc_endpoint w) n l (sc_clock w) (sc_polls w) (sc_recvs w)
    (sc_sends w) (sc_accepts w) (sc_bind w) (sc_connect w) (sc_resolve w)
    (sc_mallocs w) (sc_file w) (sc_log w).

Definition script_mallocs (m : list bool) (w : script) : script :=
  Script (sc_endpoint w) (sc_next w) (sc_live w) (sc_clock w) (sc_polls w)
    (sc_recvs w) (sc_sends w) (sc_accepts w) (sc_bind w) (sc_connect w)
    (sc_resolve w) m (sc_file w) (sc_log w).

(** The 64-bit tick count (it saturates: the counter does not wrap). *)
Definition script_clock (w : script) : Z :=
  Z.max 0 (Z.min (2 ^ 64 - 1) (sc_clock w)).

(** A handle above every open one. *)
Definition script_fresh (w : script) : Z :=
  Z.max (sc_next w) (1 + set_fold Z.max 0 (sc_live w)).

Definition script_open (w : script) : Z * script :=
  let h := script_fresh w in (h, script_handles (h + 1) ({[h]} ∪ sc_live w) w).

#[export] Instance script_bridge : Bridge script := {|
  aknet_sock_attach c w :=
    Script (if sc_endpoint w <? 0 then sc_endpoint w else c) (sc_next w) (sc_live w) (sc_clock w) (sc_polls w) (sc_recvs w)
      (sc_sends w) (sc_accepts w) (sc_bind w) (sc_connect w) (sc_resolve w)
      (sc_mallocs w) (sc_file w) (sc_log w);
  aknet_sock_endpoint w := Z.max 0 (sc_endpoint w);
  aknet_sock_socket p w := let '(h, w') := script_open w in (AK_ST_OK, h, w');
  aknet_sock_bind h p w := (sc_bind w, w);
  aknet_sock_connect h i p w := (sc_connect w, w);
  aknet_sock_listen h b w := (AK_ST_OK, w);
  aknet_sock_accept h w :=
    let '(st, ip, port, l) := next_of (AK_ST_NOT_READY, 0, 0) (sc_accepts w) in
    let w1 := script_lists (sc_polls w) (sc_recvs w) (sc_sends w) l (sc_log w) w in
    if st =? AK_ST_OK
    then let '(nh, w2) := script_open w1 in (AcceptReply st nh ip port, w2)
    else (AcceptReply st 0 0 0, w1);
  aknet_sock_sendto h d len ip port w :=
    let '(st, l) := next_of AK_ST_OK (sc_sends w) in
    (st, script_lists (sc_polls w) (sc_recvs w) l (sc_accepts w)
           (if st =? AK_ST_OK then sc_log w ++ [take (Z.to_nat len) d] else sc_log w) w);
  aknet_sock_recvfrom h max tmo w :=
    let '(r, l) := next_of (RecvReply AK_ST_TIMEOUT [] 0 0 0) (sc_recvs w) in
    (r, script_lists (sc_polls w) l (sc_sends w) (sc_accepts w) (sc_log w) w);
  aknet_sock_poll h w :=
    let '(r, l) := next_of (PollReply AK_ST_OK 0 0 0) (sc_polls w) in
    (r, script_lists l (sc_recvs w) (sc_sends w) (sc_accepts w) (sc_log w) w);
  aknet_sock_close h w := (AK_ST_OK, script_handles (sc_next w) (sc_live w ∖ {[h]}) w);
  aknet_sock_resolve n len w := (sc_resolve w, w);
  aegir_sys_sleep_until d w := (0, script_tick (Z.max (sc_clock w) d) w);
  aegir_rdtime w := (script_clock w, script_tick (sc_clock w + 1) w)
|}.

#[export] Instance script_libc : Libc script := {|
  malloc_ok sz w :=
    let '(b, l) := next_of true (sc_mallocs w) in (b, script_mallocs l w);
  read_file name max w := (take (Z.to_nat max) <$> sc_file w, w)
|}.

(** ** The scripted bridge satisfies the handle laws *)

Lemma max_fold_ub (s : gset Z) x : x ∈ s -> x <= set_fold Z.max 0 s.
Proof.
  revert x. apply (set_fold_ind_L (fun r X => forall x, x ∈ X -> x <= r)).
  - set_solver.
  - intros y X r Hy IH x Hx. apply elem_of_union in Hx as [Hx|Hx].
    + apply elem_of_singleton in Hx. lia.
    + specialize (IH x Hx). lia.
Qed.

Lemma script_fresh_not_live w : script_fresh w ∉ sc_live w.
Proof. intros H%max_fold_ub. unfold script_fresh in H. lia. Qed.

#[export] Instance script_laws : BridgeLaws script sc_live.
Proof.
  split; try done.
  - intros p w st h w'. cbn. intros [= <- <- <-]. cbn.
    split; [apply script_fresh_not_live | done].
  - intros h w r w'. cbn. destruct (next_of _ _) as [[[st ip] port] l].
    destruct (st =? AK_ST_OK) eqn:E; intros [= <- <-]; cbn; rewrite E; [|done].
    split; [apply (script_fresh_not_live (script_lists _ _ _ _ _ w)) | done].
  - intros. cbn. by destruct (next_of _ _).
  - intros. cbn. by destruct (next_of _ _).
  - intros. cbn. by destruct (next_of _ _).
Qed.

#[export] Instance script_clock_laws : ClockLaws script script_clock.
Proof.
  split; try done; intros; unfold script_clock; cbn.
  - int_lia.
  - lia.
  - by destruct (next_of _ _).
  - int_lia.
Qed.

Lemma script_live_malloc n (w : script) : sc_live (malloc_ok n w).2 = sc_live w.
Proof. cbn. by destruct (next_of true (sc_mallocs w)). Qed.

(** A bridge that is attached, at tick 1000, with prepared polls, receives
    and sends; binds assign port 50000, connects succeed, names resolve to
    192.0.2.1. *)
Definition demo_script polls recvs sends accepts : script :=
  Script 6 1 ∅ 1000 polls recvs sends accepts (AK_ST_OK, 50000) AK_ST_OK
    (AK_ST_OK, 0xC0000201) [] None [].
