(* ===== verification/FdTable.v ===== *)
(** * The descriptor table of aegir_gsocket.c

    The state of the socket layer ([gs]): the static table [ak_fds], [errno],
    [ak_h_errno], the static netdb buffers, and the world behind the bridge;
    the primitives every call is built from ([ak_get], [ak_alloc], byte-order
    helpers, [ak_sleep_slice], [ak_ensure_net], [ak_sticky_errno]); and the
    table's invariant [fds_wf] with the lemmas that maintain it. *)
From S2P Require Import Prelude CInt Bridge.

(** ** Socket addresses *)

(** [unsigned char sin_addr[4]], network order. *)
Record addr4 := A4 { b0 : Z; b1 : Z; b2 : Z; b3 : Z }.

Record ak_sockaddr_in := SockaddrIn {
  sin_family : Z;
  sin_port : Z;
  sin_addr : addr4;
  sin_zero : list Z
}.

Definition sizeof_sockaddr_in : Z := 16.

Definition ak_sw16 (v : Z) : Z := u16 (Z.lor (Z.shiftr v 8) (Z.shiftl v 8)).

Definition ak_addr_to_u32 (b : addr4) : Z :=
  Z.lor (Z.lor (Z.lor (u32 (Z.shiftl (b0 b) 24)) (Z.shiftl (b1 b) 16))
           (Z.shiftl (b2 b) 8)) (b3 b).

Definition ak_u32_to_addr (ip : Z) : addr4 :=
  A4 (u8 (Z.shiftr ip 24)) (u8 (Z.shiftr ip 16)) (u8 (Z.shiftr ip 8)) (u8 ip).

(** The sockaddr every call that reports an address builds: [memset] to 0,
    family, swapped port, address bytes. *)
Definition mk_sockaddr (ip port : Z) : ak_sockaddr_in :=
  SockaddrIn AK_AF_INET (ak_sw16 port) (ak_u32_to_addr ip) (replicate 8 0).

(** ** Table entries *)

Record ak_opt := Opt { o_level : Z; o_name : Z; o_val : Z }.

Record ak_sock := AkSock {
  used : bool;
  kind : Z;
  proto : Z;
  nonblock : bool;
  listening : bool;
  connected : bool;
  handle : Z;
  local_ip : Z;
  local_port : Z;
  peer_ip : Z;
  peer_port : Z;
  last_so_err : Z;
  partner : Z;
  sig_count : Z;
  opts : list ak_opt;
  nopts : Z
}.

(** [memset (&ak_fds[fd], 0, sizeof ak_fds[fd])] *)
Definition zero_sock : ak_sock :=
  AkSock false 0 0 false false false 0 0 0 0 0 0 0 0
    (replicate (Z.to_nat AK_NOPT) (Opt 0 0 0)) 0.

(** Field assignments [s->f = v]. *)
Definition set_used v (e : ak_sock) : ak_sock :=
  AkSock v (kind e) (proto e) (nonblock e) (listening e) (connected e) (handle e)
    (local_ip e) (local_port e) (peer_ip e) (peer_port e) (last_so_err e)
    (partner e) (sig_count e) (opts e) (nopts e).
Definition set_kind v (e : ak_sock) : ak_sock :=
  AkSock (used e) v (proto e) (nonblock e) (listening e) (connected e) (handle e)
    (local_ip e) (local_port e) (peer_ip e) (peer_port e) (last_so_err e)
    (partner e) (sig_count e) (opts e) (nopts e).
Definition set_proto v (e : ak_sock) : ak_sock :=
  AkSock (used e) (kind e) v (nonblock e) (listening e) (connected e) (handle e)
    (local_ip e) (local_port e) (peer_ip e) (peer_port e) (last_so_err e)
    (partner e) (sig_count e) (opts e) (nopts e).
Definition set_nonblock v (e : ak_sock) : ak_sock :=
  AkSock (used e) (kind e) (proto e) v (listening e) (connected e) (handle e)
    (local_ip e) (local_port e) (peer_ip e) (peer_port e) (last_so_err e)
    (partner e) (sig_count e) (opts e) (nopts e).
Definition set_listening v (e : ak_sock) : ak_sock :=
  AkSock (used e) (kind e) (proto e) (nonblock e) v (connected e) (handle e)
    (local_ip e) (local_port e) (peer_ip e) (peer_port e) (last_so_err e)
    (partner e) (sig_count e) (opts e) (nopts e).
Definition set_handle v (e : ak_sock) : ak_sock :=
  AkSock (used e) (kind e) (proto e) (nonblock e) (listening e) (connected e) v
    (local_ip e) (local_port e) (peer_ip e) (peer_port e) (last_so_err e)
    (partner e) (sig_count e) (opts e) (nopts e).
Definition set_local_ip v (e : ak_sock) : ak_sock :=
  AkSock (used e) (kind e) (proto e) (nonblock e) (listening e) (connected e)
    (handle e) v (local_port e) (peer_ip e) (peer_port e) (last_so_err e)
    (partner e) (sig_count e) (opts e) (nopts e).
Definition set_local_port v (e : ak_sock) : ak_sock :=
  AkSock (used e) (kind e) (proto e) (nonblock e) (listening e) (connected e)
    (handle e) (local_ip e) v (peer_ip e) (peer_port e) (last_so_err e)
    (partner e) (sig_count e) (opts e) (nopts e).
Definition set_peer (ip port : Z) (e : ak_sock) : ak_sock :=
  AkSock (used e) (kind e) (proto e) (nonblock e) (listening e) true
    (handle e) (local_ip e) (local_port e) ip port (last_so_err e)
    (partner e) (sig_count e) (opts e) (nopts e).
Definition set_last_so_err v (e : ak_sock) : ak_sock :=
  AkSock (used e) (kind e) (proto e) (nonblock e) (listening e) (connected e)
    (handle e) (local_ip e) (local_port e) (peer_ip e) (peer_port e) v
    (partner e) (sig_count e) (opts e) (nopts e).
Definition set_partner v (e : ak_sock) : ak_sock :=
  AkSock (used e) (kind e) (proto e) (nonblock e) (listening e) (connected e)
    (handle e) (local_ip e) (local_port e) (peer_ip e) (peer_port e)
    (last_so_err e) v (sig_count e) (opts e) (nopts e).
Definition set_sig_count v (e : ak_sock) : ak_sock :=
  AkSock (used e) (kind e) (proto e) (nonblock e) (listening e) (connected e)
    (handle e) (local_ip e) (local_port e) (peer_ip e) (peer_port e)
    (last_so_err e) (partner e) v (opts e) (nopts e).
Definition set_opts (o : list ak_opt) (n : Z) (e : ak_sock) : ak_sock :=
  AkSock (used e) (kind e) (proto e) (nonblock e) (listening e) (connected e)
    (handle e) (local_ip e) (local_port e) (peer_ip e) (peer_port e)
    (last_so_err e) (partner e) (sig_count e) o n.

(** ** The heap

    [getaddrinfo] is the only part of the file that allocates.  A pointer is
    a block number, 0 is null. *)
Record ak_addrinfo := AddrInfo {
  ai_flags : Z;
  ai_family : Z;
  ai_socktype : Z;
  ai_protocol : Z;
  ai_addrlen : Z;
  ai_addr : Z;
  ai_canonname : Z;
  ai_next : Z
}.

(** A block as [malloc] returns it, a node, or a socket address. *)
Inductive hblock :=
| HRaw
| HNode (a : ak_addrinfo)
| HAddr (a : ak_sockaddr_in).

(** [heap_bad] records a [free] of a pointer that is not an allocated block. *)
Record heap_st := HeapSt { blocks : gmap Z hblock; brk : Z; heap_bad : bool }.

(** ** The state of the layer *)

Record gs (W : Type) := Gs {
  ak_fds : list ak_sock;
  errno : Z;
  ak_h_errno : Z;
  ak_he_name : list Z;
  ak_he_addr : addr4;
  heap : heap_st;
  world : W
}.
Arguments Gs {W} _ _ _ _ _ _ _.
Arguments heap {W} _.
Arguments ak_fds {W} _.
Arguments errno {W} _.
Arguments ak_h_errno {W} _.
Arguments ak_he_name {W} _.
Arguments ak_he_addr {W} _.
Arguments world {W} _.

(** Static storage starts zeroed. *)
Definition gs_init {W} (w : W) : gs W :=
  Gs (replicate (Z.to_nat AK_FD_MAX) zero_sock) 0 0 (replicate 256 0) (A4 0 0 0 0)
    (HeapSt ∅ 1 false) w.

Definition with_fds {W} (t : list ak_sock) (s : gs W) : gs W :=
  Gs t (errno s) (ak_h_errno s) (ak_he_name s) (ak_he_addr s) (heap s) (world s).
Definition with_errno {W} (e : Z) (s : gs W) : gs W :=
  Gs (ak_fds s) e (ak_h_errno s) (ak_he_name s) (ak_he_addr s) (heap s) (world s).
Definition with_h_errno {W} (e : Z) (s : gs W) : gs W :=
  Gs (ak_fds s) (errno s) e (ak_he_name s) (ak_he_addr s) (heap s) (world s).
Definition with_he {W} (n : list Z) (a : addr4) (s : gs W) : gs W :=
  Gs (ak_fds s) (errno s) (ak_h_errno s) n a (heap s) (world s).
Definition with_heap {W} (h : heap_st) (s : gs W) : gs W :=
  Gs (ak_fds s) (errno s) (ak_h_errno s) (ak_he_name s) (ak_he_addr s) h (world s).
Definition with_world {W} (w : W) (s : gs W) : gs W :=
  Gs (ak_fds s) (errno s) (ak_h_errno s) (ak_he_name s) (ak_he_addr s) (heap s) w.

(** ** Primitives *)

Section Primitives.
Context {W : Type} `{!Bridge W}.

Definition set_errno (e : Z) : M (gs W) unit := modifyM (with_errno e).
Definition set_h_errno (e : Z) : M (gs W) unit := modifyM (with_h_errno e).

(** [errno = e; return -1;] *)
Definition fail (e : Z) : M (gs W) Z := set_errno e ;; retM (-1).

(** A call of the bridge. *)
Definition call {A} (f : W -> A * W) : M (gs W) A :=
  fun s => let '(a, w) := f (world s) in Done a (with_world w s).

(** The entry [ak_fds[fd]] and assignments through a pointer to it. *)
Definition sock_at (fd : Z) (s : gs W) : option ak_sock := ak_fds s !! Z.to_nat fd.
Definition upd_fd (fd : Z) (f : ak_sock -> ak_sock) : M (gs W) unit :=
  modifyM (fun s => with_fds (alter f (Z.to_nat fd) (ak_fds s)) s).

Definition ak_now : M (gs W) Z := call aegir_rdtime.

Definition ak_sleep_slice : M (gs W) unit :=
  let* t := ak_now in
  let* r := call (aegir_sys_sleep_until (u64 (t + AK_SLICE))) in
  retM tt.

Definition ak_ensure_net : M (gs W) Z :=
  let* ep := getsM (fun s => aknet_sock_endpoint (world s)) in
  (if ep =? 0 then call (fun w => (tt, aknet_sock_attach 6 w)) else retM tt) ;;
  let* ep' := getsM (fun s => aknet_sock_endpoint (world s)) in
  retM (if negb (ep' =? 0) then 0 else -1).

Definition ak_get (fd : Z) (s : gs W) : option ak_sock :=
  if (fd <? AK_FD_FIRST) || (AK_FD_MAX <=? fd) then None
  else match sock_at fd s with
       | Some e => if used e then Some e else None
       | None => None
       end.

(** The scan of [ak_alloc]: [n] is the number of entries left. *)
Fixpoint ak_alloc_scan (n : nat) (fd : Z) (t : list ak_sock) : option Z :=
  match n with
  | O => None
  | S n' => match t !! Z.to_nat fd with
            | Some e => if used e then ak_alloc_scan n' (fd + 1) t else Some fd
            | None => None
            end
  end.

(** The entry [ak_alloc] leaves: zeroed, used, no partner. *)
Definition fresh_sock : ak_sock := set_partner (-1) (set_used true zero_sock).

Definition ak_alloc : M (gs W) Z :=
  let* t := getsM ak_fds in
  match ak_alloc_scan (Z.to_nat (AK_FD_MAX - AK_FD_FIRST)) AK_FD_FIRST t with
  | Some fd => upd_fd fd (fun _ => fresh_sock) ;; retM fd
  | None => fail EMFILE
  end.

End Primitives.

(** Map a bridge sticky error word to errno. *)
Definition ak_sticky_errno (err : Z) : Z :=
  if err =? 0 then 0
  else if err =? AK_ERR_HAIRPIN then ECONNREFUSED
  else if err =? AK_ERR_ARP then EHOSTUNREACH
  else if err =? AK_ERR_REFUSED then ECONNREFUSED
  else if err =? AK_ERR_CXTIME then ETIMEDOUT
  else if err =? AK_ERR_RESET then ECONNRESET
  else EIO.

(** ** The invariant of the table

    An entry is well formed when its fields are in their C types' ranges,
    the option array has its eight cells, the live options are a prefix of
    distinct keys, and an entry in use has one of the three kinds. *)
Definition addr4_wf (a : addr4) : Prop :=
  in_u8 (b0 a) /\ in_u8 (b1 a) /\ in_u8 (b2 a) /\ in_u8 (b3 a).

Definition opt_key (o : ak_opt) : Z * Z := (o_level o, o_name o).

Definition live_opts (e : ak_sock) : list ak_opt := take (Z.to_nat (nopts e)) (opts e).

Record sock_wf (e : ak_sock) : Prop := {
  wf_local_port : in_u16 (local_port e);
  wf_peer_port : in_u16 (peer_port e);
  wf_sig_count : in_u32 (sig_count e);
  wf_nopts : 0 <= nopts e <= AK_NOPT;
  wf_opts : length (opts e) = Z.to_nat AK_NOPT;
  wf_keys : NoDup (opt_key <$> live_opts e);
  wf_kind : kind e = 0 \/ kind e = AK_KIND_SOCK \/ kind e = AK_KIND_SIGR \/ kind e = AK_KIND_SIGW;
  wf_listening : listening e = true -> proto e = AK_IPPROTO_TCP
}.

(** The table: 256 well-formed entries, and the console's descriptors 0..2
    never in use. *)
Record fds_wf (t : list ak_sock) : Prop := {
  wf_len : length t = Z.to_nat AK_FD_MAX;
  wf_entries : Forall sock_wf t;
  wf_console : forall i e, (i < Z.to_nat AK_FD_FIRST)%nat -> t !! i = Some e -> used e = false;
  wf_used_kind : Forall (fun e => used e = true -> kind e <> 0) t
}.

(** ** Byte order *)

Lemma ak_sw16_spec v : in_u16 v -> ak_sw16 v = v mod 256 * 256 + v / 256.
Proof.
  intros Hv. unfold ak_sw16.
  rewrite lor_shiftl_add, Z.shiftr_div_pow2 by (rewrite ?Z.shiftr_div_pow2; int_lia).
  int_lia.
Qed.

Lemma ak_sw16_range v : in_u16 (ak_sw16 v).
Proof. apply u16_range. Qed.

Lemma ak_sw16_invol v : in_u16 v -> ak_sw16 (ak_sw16 v) = v.
Proof.
  intros Hv. rewrite ak_sw16_spec by apply ak_sw16_range.
  rewrite ak_sw16_spec by done. int_lia.
Qed.

Lemma lor_comm_shiftl a b n :
  0 <= n -> 0 <= a < 2 ^ n -> Z.lor (Z.shiftl b n) a = b * 2 ^ n + a.
Proof. intros. rewrite Z.lor_comm, lor_shiftl_add by done. lia. Qed.

Lemma ak_addr_to_u32_spec b :
  addr4_wf b -> ak_addr_to_u32 b = b0 b * 16777216 + b1 b * 65536 + b2 b * 256 + b3 b.
Proof.
  intros (H0 & H1 & H2 & H3). unfold ak_addr_to_u32.
  rewrite u32_id by (rewrite Z.shiftl_mul_pow2; int_lia).
  replace (Z.shiftl (b1 b) 16) with (Z.shiftl (Z.shiftl (b1 b) 8) 8)
    by (by rewrite Z.shiftl_shiftl by lia).
  replace (Z.shiftl (b0 b) 24) with (Z.shiftl (Z.shiftl (Z.shiftl (b0 b) 8) 8) 8)
    by (by rewrite !Z.shiftl_shiftl by lia).
  rewrite <- !Z.shiftl_lor.
  rewrite (lor_comm_shiftl (b1 b) (b0 b)) by int_lia.
  rewrite lor_comm_shiftl by int_lia.
  rewrite lor_comm_shiftl by int_lia. int_lia.
Qed.

Lemma ak_u32_to_addr_spec ip :
  ak_u32_to_addr ip = A4 (ip / 16777216 mod 256) (ip / 65536 mod 256) (ip / 256 mod 256) (ip mod 256).
Proof. unfold ak_u32_to_addr. rewrite !Z.shiftr_div_pow2 by lia. by f_equal; unfold_int. Qed.

Lemma ak_u32_to_addr_wf ip : addr4_wf (ak_u32_to_addr ip).
Proof. unfold addr4_wf, ak_u32_to_addr; cbn. split_and!; apply u8_range. Qed.

Lemma addr_u32_roundtrip ip : in_u32 ip -> ak_addr_to_u32 (ak_u32_to_addr ip) = ip.
Proof.
  intros H. rewrite ak_addr_to_u32_spec by apply ak_u32_to_addr_wf.
  rewrite ak_u32_to_addr_spec. cbn. int_lia.
Qed.

Lemma u32_addr_roundtrip b : addr4_wf b -> ak_u32_to_addr (ak_addr_to_u32 b) = b.
Proof.
  intros H. rewrite ak_addr_to_u32_spec, ak_u32_to_addr_spec by done.
  destruct b, H as (H0 & H1 & H2 & H3); cbn in *. f_equal; int_lia.
Qed.

Lemma ak_addr_to_u32_range b : addr4_wf b -> in_u32 (ak_addr_to_u32 b).
Proof. intros H. rewrite ak_addr_to_u32_spec by done. destruct H as (?&?&?&?). int_lia. Qed.

(** The 32-bit byte swap, by way of the address bytes. *)
Definition swap32 (x : Z) : Z :=
  let a := ak_u32_to_addr x in ak_addr_to_u32 (A4 (b3 a) (b2 a) (b1 a) (b0 a)).

Lemma swap32_invol x : in_u32 x -> swap32 (swap32 x) = x.
Proof.
  intros Hx. unfold swap32. pose proof (ak_u32_to_addr_wf x) as (H0 & H1 & H2 & H3).
  rewrite u32_addr_roundtrip by (by split_and!). cbn [b0 b1 b2 b3].
  transitivity (ak_addr_to_u32 (ak_u32_to_addr x)); [|by apply addr_u32_roundtrip].
  by destruct (ak_u32_to_addr x).
Qed.
