(* ===== verification/SockCalls.v ===== *)
(** * Socket creation, naming and connection calls of aegir_gsocket.c

    [socket], [__gnat_socket_close], [bind], [ak_auto_bind], [connect],
    [listen], [accept], [getsockname], [getpeername], [shutdown],
    [socketpair], [gethostname], [recvmsg], [sendmsg].

    A call that returns only an [int] is an [M (gs W) Z]; out-parameters are
    returned beside it.  [fuel] bounds the polls of a blocking loop. *)
From S2P Require Import Prelude CInt Bridge FdTable.

Section Calls.
Context {W : Type} `{!Bridge W}.

(** [s = ak_get (fd); if (s == NULL || s->kind != AK_KIND_SOCK) ...]: the
    guard that opens most calls, with the rest of the call as a
    continuation. *)
Definition with_sock {A} (fd : Z) (bad : M (gs W) A) (k : ak_sock -> M (gs W) A)
  : M (gs W) A :=
  let* s := getsM (ak_get fd) in
  match s with
  | Some e => if kind e =? AK_KIND_SOCK then k e else bad
  | None => bad
  end.

(** The end of [socket], from the call of [aknet_sock_socket] on. *)
Definition socket_create (p : Z) : M (gs W) Z :=
  let* '(st, h) := call (aknet_sock_socket p) in
  if negb (st =? AK_ST_OK) then fail ENOBUFS
  else
    let* fd := ak_alloc in
    if fd <? 0 then
      let* r := call (aknet_sock_close h) in retM (-1)
    else
      upd_fd fd (set_kind AK_KIND_SOCK) ;;
      upd_fd fd (set_proto (u8 p)) ;;
      upd_fd fd (set_handle h) ;;
      retM fd.

Definition socket (domain type protocol : Z) : M (gs W) Z :=
  let* up := ak_ensure_net in
  if negb (up =? 0) then fail ENETDOWN
  else if negb (domain =? AK_AF_INET) then fail EAFNOSUPPORT
  else if type =? AK_SOCK_STREAM then socket_create AK_IPPROTO_TCP
  else if type =? AK_SOCK_DGRAM then
    socket_create (if protocol =? AK_IPPROTO_ICMP then AK_IPPROTO_ICMP else AK_IPPROTO_UDP)
  else fail EOPNOTSUPP.

Definition gnat_socket_close (fd : Z) : M (gs W) Z :=
  with_sock fd (fail EBADF) (fun s =>
    let* r := call (aknet_sock_close (handle s)) in
    upd_fd fd (set_used false) ;;
    retM 0).

Definition bind (fd : Z) (sin : ak_sockaddr_in) : M (gs W) Z :=
  with_sock fd (fail EBADF) (fun s =>
    if negb (sin_family sin =? AK_AF_INET) then fail EAFNOSUPPORT
    else
      let* '(st, assigned) := call (aknet_sock_bind (handle s) (ak_sw16 (sin_port sin))) in
      if negb (st =? AK_ST_OK) then
        fail (if st =? AK_ST_BAD_ARGS then EINVAL else EADDRINUSE)
      else
        upd_fd fd (set_local_port (u16 assigned)) ;;
        upd_fd fd (set_local_ip (ak_addr_to_u32 (sin_addr sin))) ;;
        retM 0).

(** [s] points at entry [fd]. *)
Definition ak_auto_bind (fd : Z) (s : ak_sock) : M (gs W) Z :=
  if negb (local_port s =? 0) then retM 0
  else
    let* '(st, assigned) := call (aknet_sock_bind (handle s) 0) in
    if negb (st =? AK_ST_OK) then fail EADDRNOTAVAIL
    else upd_fd fd (set_local_port (u16 assigned)) ;; retM 0.

Definition connect (fd : Z) (sin : ak_sockaddr_in) : M (gs W) Z :=
  with_sock fd (fail EBADF) (fun s =>
    if negb (sin_family sin =? AK_AF_INET) then fail EAFNOSUPPORT
    else
      let* ab := ak_auto_bind fd s in
      if negb (ab =? 0) then retM (-1)
      else
        let* st := call (aknet_sock_connect (handle s) (ak_addr_to_u32 (sin_addr sin))
                           (ak_sw16 (sin_port sin))) in
        if negb (st =? AK_ST_OK) then
          fail (if st =? 4 then ECONNREFUSED else if st =? 5 then ETIMEDOUT else EIO)
        else
          upd_fd fd (set_peer (ak_addr_to_u32 (sin_addr sin)) (ak_sw16 (sin_port sin))) ;;
          retM 0).

Definition listen (fd backlog : Z) : M (gs W) Z :=
  with_sock fd (fail EOPNOTSUPP) (fun s =>
    if negb (proto s =? AK_IPPROTO_TCP) then fail EOPNOTSUPP
    else
      let* st := call (aknet_sock_listen (handle s) (u64 backlog)) in
      if negb (st =? AK_ST_OK) then fail EIO
      else upd_fd fd (set_listening true) ;; retM 0).

(** The polling loop of [accept]: leaves with the bridge's reply or with the
    errno of the failure. *)
Definition accept_loop (fuel : nat) (s : ak_sock) : M (gs W) (Z + accept_reply) :=
  iterM fuel (fun _ : unit =>
    let* r := call (aknet_sock_accept (handle s)) in
    if ar_status r =? AK_ST_OK then retM (inr (inr r))
    else if negb (ar_status r =? AK_ST_NOT_READY) then retM (inr (inl EIO))
    else if nonblock s then retM (inr (inl EWOULDBLOCK))
    else ak_sleep_slice ;; retM (inl tt)) tt.

(** [want_addr]: the caller passed both [addr] and [addrlen].  The sockaddr
    and its length are the stores through them. *)
Definition accept (fuel : nat) (fd : Z) (want_addr : bool)
  : M (gs W) (Z * option (ak_sockaddr_in * Z)) :=
  with_sock fd (set_errno EINVAL ;; retM (-1, None)) (fun s =>
    if negb (listening s) then set_errno EINVAL ;; retM (-1, None)
    else
      let* got := accept_loop fuel s in
      match got with
      | inl e => set_errno e ;; retM (-1, None)
      | inr r =>
          let* nfd := ak_alloc in
          if nfd <? 0 then
            let* c := call (aknet_sock_close (ar_handle r)) in retM (-1, None)
          else
            upd_fd nfd (set_kind AK_KIND_SOCK) ;;
            upd_fd nfd (set_proto AK_IPPROTO_TCP) ;;
            upd_fd nfd (set_handle (ar_handle r)) ;;
            upd_fd nfd (set_peer (ar_ip r) (u16 (ar_port r))) ;;
            upd_fd nfd (set_local_ip (local_ip s)) ;;
            upd_fd nfd (set_local_port (local_port s)) ;;
            retM (nfd, if want_addr
                       then Some (mk_sockaddr (ar_ip r) (u16 (ar_port r)), sizeof_sockaddr_in)
                       else None)
      end).

Definition getsockname (fd : Z) : M (gs W) (Z * option (ak_sockaddr_in * Z)) :=
  with_sock fd (set_errno EBADF ;; retM (-1, None)) (fun s =>
    retM (0, Some (mk_sockaddr (local_ip s) (local_port s), sizeof_sockaddr_in))).

Definition getpeername (fd : Z) : M (gs W) (Z * option (ak_sockaddr_in * Z)) :=
  with_sock fd (set_errno EBADF ;; retM (-1, None)) (fun s =>
    if negb (connected s) then set_errno ENOTCONN ;; retM (-1, None)
    else retM (0, Some (mk_sockaddr (peer_ip s) (peer_port s), sizeof_sockaddr_in))).

Definition shutdown (fd how : Z) : M (gs W) Z :=
  let* s := getsM (ak_get fd) in
  retM (match s with Some _ => 0 | None => -1 end).

Definition socketpair (domain type protocol : Z) : M (gs W) Z := fail EOPNOTSUPP.

(** ["aegir"] with its NUL. *)
Definition hostname_me : list Z := [97; 101; 103; 105; 114; 0].

Definition gethostname (namelen : Z) : M (gs W) (Z * option (list Z)) :=
  if namelen <? Z.of_nat (length hostname_me)
  then set_errno EINVAL ;; retM (-1, None)
  else retM (0, Some hostname_me).

Definition recvmsg (fd flags : Z) : M (gs W) Z := fail ENOSYS.
Definition sendmsg (fd flags : Z) : M (gs W) Z := fail ENOSYS.

End Calls.

(** The state after a first [socket] call of type [type] on a bridge with the
    given answers: descriptor 3 is open with handle 1. *)
Definition demo_open (type : Z) polls recvs sends accepts : gs script :=
  out_state (socket AK_AF_INET type 0 (gs_init (demo_script polls recvs sends accepts))).
