(* ===== verification/Transfer.v ===== *)
(** * Data transfer of aegir_gsocket.c

    [ak_recv], [recv], [recvfrom], [ak_send], [sendto]. *)
From S2P Require Import Prelude CInt Bridge FdTable SockCalls.

Section Transfer.
Context {W : Type} `{!Bridge W}.

(** What a receive leaves in the caller's memory: the last reply the bridge
    stored through the out-pointers, if it was called at all. *)
Definition recv_out : Type := option recv_reply.

(** One round of the loop of [ak_recv]. *)
Definition ak_recv_body (s : ak_sock) (len : Z) (_ : unit)
  : M (gs W) (unit + (Z * recv_out)) :=
  let* r := call (aknet_sock_recvfrom (handle s) (u64 len) 0) in
  let st := rr_status r in
  if st =? AK_ST_OK then
    if 0 <? rr_count r then retM (inr (i32 (rr_count r), Some r))
    else if proto s =? AK_IPPROTO_TCP then
      let* p := call (aknet_sock_poll (handle s)) in
      if (pr_status p =? AK_ST_OK) && negb (pr_err p =? 0) then
        set_errno (ak_sticky_errno (pr_err p)) ;; retM (inr (-1, Some r))
      else retM (inr (0, Some r))
    else retM (inl tt)
  else if (st =? AK_ST_TIMEOUT) || (st =? AK_ST_NOT_READY) then
    if nonblock s then set_errno EWOULDBLOCK ;; retM (inr (-1, Some r))
    else ak_sleep_slice ;; retM (inl tt)
  else
    set_errno (if st =? AK_ST_BAD_ARGS then EBADF else EIO) ;;
    retM (inr (-1, Some r)).

Definition ak_recv (fuel : nat) (s : ak_sock) (len flags : Z)
  : M (gs W) (Z * recv_out) :=
  if negb (Z.land flags AK_MSG_PEEK =? 0) then
    set_errno EOPNOTSUPP ;; retM (-1, None)
  else iterM fuel (ak_recv_body s len) tt.

Definition recv (fuel : nat) (fd len flags : Z) : M (gs W) (Z * recv_out) :=
  with_sock fd (set_errno EBADF ;; retM (-1, None)) (fun s =>
    ak_recv fuel s len flags).

(** [want_from]: the caller passed both [from] and [fromlen]. *)
Definition recvfrom (fuel : nat) (fd len flags : Z) (want_from : bool)
  : M (gs W) (Z * recv_out * option (ak_sockaddr_in * Z)) :=
  with_sock fd (set_errno EBADF ;; retM (-1, None, None)) (fun s =>
    let* '(n, out) := ak_recv fuel s len flags in
    let sip := match out with Some r => rr_ip r | None => 0 end in
    let sport := match out with Some r => rr_port r | None => 0 end in
    retM (n, out,
          if (0 <? n) && want_from
          then Some (mk_sockaddr sip (u16 sport), sizeof_sockaddr_in)
          else None)).

(** The datagram loop of [ak_send]. *)
Definition ak_send_dgram (s : ak_sock) (buf : list Z) (len ip port : Z) (_ : unit)
  : M (gs W) (unit + Z) :=
  let* st := call (aknet_sock_sendto (handle s) buf (u64 len) ip port) in
  if st =? AK_ST_OK then retM (inr len)
  else if (st =? AK_ST_NOT_READY) || (st =? AK_ST_TIMEOUT) then
    if nonblock s then set_errno EWOULDBLOCK ;; retM (inr (-1))
    else ak_sleep_slice ;; retM (inl tt)
  else
    set_errno (if (len =? 0) || (st =? AK_ST_BAD_ARGS) then EINVAL else EIO) ;;
    retM (inr (-1)).

(** One round of the stream loop of [ak_send]; [sent] bytes are out. *)
Definition ak_send_stream (s : ak_sock) (buf : list Z) (len sent : Z)
  : M (gs W) (Z + Z) :=
  if sent <? len then
    let chunk := if AK_MAX_PAYLOAD <? len - sent then AK_MAX_PAYLOAD else len - sent in
    let* p := call (aknet_sock_poll (handle s)) in
    if (pr_status p =? AK_ST_OK) && negb (pr_err p =? 0) then
      set_errno (ak_sticky_errno (pr_err p)) ;; retM (inr (-1))
    else
      let* st := call (aknet_sock_sendto (handle s) (drop (Z.to_nat sent) buf) (u64 chunk) 0 0) in
      if st =? AK_ST_OK then retM (inl (sent + chunk))
      else if (st =? AK_ST_NOT_READY) || (st =? AK_ST_TIMEOUT) then
        if nonblock s then
          set_errno EWOULDBLOCK ;; retM (inr (if 0 <? sent then sent else -1))
        else ak_sleep_slice ;; retM (inl sent)
      else set_errno EIO ;; retM (inr (-1))
  else retM (inr sent).

Definition ak_send (fuel : nat) (s : ak_sock) (buf : list Z) (len ip port : Z)
  : M (gs W) Z :=
  if negb (proto s =? AK_IPPROTO_TCP) then
    if AK_MAX_PAYLOAD <? len then fail EMSGSIZE
    else iterM fuel (ak_send_dgram s buf len ip port) tt
  else iterM fuel (ak_send_stream s buf len) 0.

(** [to]: the destination the caller passed ([None] for a null pointer). *)
Definition sendto (fuel : nat) (fd : Z) (msg : list Z) (len flags : Z)
    (to : option ak_sockaddr_in) (tolen : Z) : M (gs W) Z :=
  with_sock fd (fail EBADF) (fun s =>
    let send (ip port : Z) : M (gs W) Z :=
      let* ab := (if negb (connected s) then ak_auto_bind fd s else retM 0) in
      if negb (ab =? 0) then retM (-1) else ak_send fuel s msg len ip port in
    match to with
    | Some sin =>
        if 0 <? tolen then
          if negb (sin_family sin =? AK_AF_INET) then fail EAFNOSUPPORT
          else send (ak_addr_to_u32 (sin_addr sin)) (ak_sw16 (sin_port sin))
        else if negb (connected s) then fail EDESTADDRREQ else send 0 0
    | None => if negb (connected s) then fail EDESTADDRREQ else send 0 0
    end).

End Transfer.
