(* ===== verification/SockOpts.v ===== *)
(** * Socket options and descriptor control of aegir_gsocket.c

    [getsockopt], [setsockopt] on the eight-cell option array of an entry,
    the once-only report of [SO_ERROR], and [__gnat_socket_ioctl]. *)
From S2P Require Import Prelude CInt Bridge FdTable SockCalls.

(** The search [for (i = 0; i < s->nopts; i++) if (...)]: the index of the
    first of the [n] cells from [i] on that holds the key. *)
Fixpoint opt_scan (n i : nat) (o : list ak_opt) (level name : Z) : option nat :=
  match n with
  | O => None
  | S n' =>
      match o !! i with
      | Some c => if (o_level c =? level) && (o_name c =? name) then Some i
                  else opt_scan n' (S i) o level name
      | None => None
      end
  end.

Definition opt_find (s : ak_sock) (level name : Z) : option nat :=
  opt_scan (Z.to_nat (nopts s)) 0 (opts s) level name.

Definition set_val (v : Z) (c : ak_opt) : ak_opt := Opt (o_level c) (o_name c) v.

Section Opts.
Context {W : Type} `{!Bridge W}.

(** The value stored through [optval]; [*optlen] is [sizeof (int)]. *)
Definition getsockopt (fd level optname : Z) : M (gs W) (Z * option (Z * Z)) :=
  with_sock fd (set_errno EBADF ;; retM (-1, None)) (fun s =>
    if (level =? AK_SOL_SOCKET) && (optname =? AK_SO_ERROR) then
      let* p := call (aknet_sock_poll (handle s)) in
      let val := if (pr_status p =? AK_ST_OK) && negb (pr_err p =? 0)
                    && negb (pr_err p =? last_so_err s)
                 then ak_sticky_errno (pr_err p) else 0 in
      upd_fd fd (set_last_so_err (pr_err p)) ;;
      retM (0, Some (val, 4))
    else
      match opt_find s level optname with
      | Some i => match opts s !! i with
                  | Some c => retM (0, Some (o_val c, 4))
                  | None => retM (0, Some (0, 4))
                  end
      | None => retM (0, Some (0, 4))
      end).

Definition setsockopt (fd level optname val : Z) : M (gs W) Z :=
  with_sock fd (fail EBADF) (fun s =>
    if (level =? AK_SOL_SOCKET) && (optname =? AK_SO_ERROR) then fail EINVAL
    else
      match opt_find s level optname with
      | Some i =>
          upd_fd fd (set_opts (alter (set_val val) i (opts s)) (nopts s)) ;; retM 0
      | None =>
          if nopts s =? AK_NOPT then fail ENOBUFS
          else
            upd_fd fd (set_opts (<[Z.to_nat (nopts s) := Opt level optname val]> (opts s))
                         (nopts s + 1)) ;;
            retM 0
      end).

(** [*arg] before and after. *)
Definition gnat_socket_ioctl (fd req arg : Z) : M (gs W) (Z * Z) :=
  with_sock fd (set_errno EBADF ;; retM (-1, arg)) (fun s =>
    if req =? AK_FIONBIO then
      upd_fd fd (set_nonblock (negb (arg =? 0))) ;; retM (0, arg)
    else if req =? AK_FIONREAD then
      let* p := call (aknet_sock_poll (handle s)) in
      if negb (pr_status p =? AK_ST_OK) then set_errno EIO ;; retM (-1, arg)
      else retM (0, i32 (u64 (pr_rx p * AK_MAX_PAYLOAD)))
    else set_errno EINVAL ;; retM (-1, arg)).

End Opts.

(** ** The option array as a finite map *)

Lemma opt_scan_Some n i o level name r :
  opt_scan n i o level name = Some r ->
  (i <= r < i + n)%nat /\ exists c, o !! r = Some c /\ opt_key c = (level, name).
Proof.
  revert i. induction n as [|n IH]; intros i; [done|]. cbn [opt_scan].
  destruct (o !! i) as [c|] eqn:E; [|done]. destruct (_ && _) eqn:K.
  - intros [= <-]. bool_to_prop. split; [lia|]. exists c. unfold opt_key. by subst.
  - intros (? & ?)%IH. split; [lia|done].
Qed.

Lemma opt_scan_None n i o level name :
  (i + n <= length o)%nat -> opt_scan n i o level name = None ->
  forall j c, (i <= j < i + n)%nat -> o !! j = Some c -> opt_key c <> (level, name).
Proof.
  revert i. induction n as [|n IH]; intros i Hl; [lia|]. cbn [opt_scan].
  destruct (lookup_lt_is_Some_2 o i) as [c Hc]; [lia|]. rewrite Hc.
  destruct (_ && _) eqn:K; [done|]. intros Hn j cj Hj Hcj.
  destruct (decide (j = i)) as [->|].
  - assert (cj = c) as -> by congruence. intros [= <- <-].
    by rewrite !Z.eqb_refl in K.
  - apply (IH (S i) ltac:(lia) Hn j cj); [lia|done].
Qed.

(** The live options as a map from (level, name) to the value. *)
Definition opt_map (e : ak_sock) : gmap (Z * Z) Z :=
  list_to_map ((fun c => (opt_key c, o_val c)) <$> live_opts e).

Lemma live_opts_lookup e i c :
  live_opts e !! i = Some c <-> opts e !! i = Some c /\ (i < Z.to_nat (nopts e))%nat.
Proof.
  unfold live_opts. rewrite lookup_take. case_decide; naive_solver lia.
Qed.

Lemma opt_map_fst e : ((fun c => (opt_key c, o_val c)) <$> live_opts e).*1 = opt_key <$> live_opts e.
Proof. by rewrite <- list_fmap_compose. Qed.

Lemma opt_map_Some e k v :
  sock_wf e ->
  opt_map e !! k = Some v <->
  exists i c, opts e !! i = Some c /\ (i < Z.to_nat (nopts e))%nat /\ opt_key c = k /\ o_val c = v.
Proof.
  intros Hwf. unfold opt_map. split.
  - intros H%elem_of_list_to_map_2. apply list_elem_of_fmap in H as (c & [= -> ->] & Hc).
    apply list_elem_of_lookup in Hc as [i [Hi Hlt]%live_opts_lookup]. eauto 10.
  - intros (i & c & Hi & Hlt & <- & <-). apply elem_of_list_to_map_1.
    + rewrite opt_map_fst. apply (wf_keys _ Hwf).
    + apply list_elem_of_fmap. exists c. split; [done|].
      apply list_elem_of_lookup. exists i. by apply live_opts_lookup.
Qed.

Lemma opt_find_Some e level name i :
  sock_wf e -> opt_find e level name = Some i ->
  (i < Z.to_nat (nopts e))%nat /\
  exists c, opts e !! i = Some c /\ opt_key c = (level, name) /\ opt_map e !! (level, name) = Some (o_val c).
Proof.
  intros Hwf ((Hi & Hlt) & c & Hc & Hk)%opt_scan_Some. split; [lia|].
  exists c. split_and!; [done..|]. apply opt_map_Some; [done|]. exists i, c. naive_solver lia.
Qed.

Lemma opt_find_None e level name :
  sock_wf e -> opt_find e level name = None <-> opt_map e !! (level, name) = None.
Proof.
  intros Hwf. pose proof (wf_nopts _ Hwf). pose proof (wf_opts _ Hwf) as Hl.
  split; intros Hn.
  - apply eq_None_not_Some. intros [v (i & c & Hc & Hi & Hk & _)%opt_map_Some]; [|done].
    revert Hk. eapply opt_scan_None; [|exact Hn| |exact Hc]; unfold AK_NOPT in *; lia.
  - apply eq_None_not_Some. intros [i (Hi & c & Hc & Hk & Hv)%opt_find_Some]; [|done]. congruence.
Qed.

Lemma set_val_key v c : opt_key (set_val v c) = opt_key c.
Proof. done. Qed.

Lemma sock_wf_set_val e i v :
  sock_wf e -> sock_wf (set_opts (alter (set_val v) i (opts e)) (nopts e) e).
Proof.
  intros [H1 H2 H3 H4 H5 H6 H7 H8]. split; cbn; try done.
  - by rewrite length_alter.
  - replace (opt_key <$> live_opts _) with (opt_key <$> live_opts e); [done|].
    apply list_eq. intros j. rewrite !list_lookup_fmap. unfold live_opts; cbn.
    rewrite !lookup_take. case_decide; [|done].
    rewrite list_lookup_alter_decide. case_decide; [|done]. by destruct (opts e !! j).
Qed.

Lemma live_opts_push e o :
  sock_wf e -> nopts e <> AK_NOPT ->
  live_opts (set_opts (<[Z.to_nat (nopts e) := o]> (opts e)) (nopts e + 1) e)
  = live_opts e ++ [o].
Proof.
  intros Hwf Hne. pose proof (wf_nopts _ Hwf). pose proof (wf_opts _ Hwf) as Hl.
  unfold live_opts; cbn. unfold AK_NOPT in *.
  replace (Z.to_nat (nopts e + 1)) with (S (Z.to_nat (nopts e))) by lia.
  rewrite (take_S_r _ _ o).
  - rewrite take_insert_ge; [done|lia].
  - apply list_lookup_insert_eq. lia.
Qed.

Lemma sock_wf_push e level name v :
  sock_wf e -> nopts e <> AK_NOPT -> opt_find e level name = None ->
  sock_wf (set_opts (<[Z.to_nat (nopts e) := Opt level name v]> (opts e)) (nopts e + 1) e).
Proof.
  intros Hwf Hne Hf. pose proof (wf_nopts _ Hwf). destruct Hwf as [H1 H2 H3 H4 H5 H6 H7 H8].
  split; cbn; try done.
  - unfold AK_NOPT in *. lia.
  - by rewrite length_insert.
  - rewrite live_opts_push by done. rewrite fmap_app. apply NoDup_app. split_and!.
    + done.
    + intros k Hk Hin. apply list_elem_of_fmap in Hk as (c & -> & Hc).
      apply list_elem_of_singleton in Hin.
      apply list_elem_of_lookup in Hc as [i [Hi Hlt]%live_opts_lookup].
      revert Hin. eapply opt_scan_None; [|exact Hf| |exact Hi]; unfold AK_NOPT in *; lia.
    + apply NoDup_singleton.
Qed.
