(* ===== verification/FdSet.v ===== *)
(** * Descriptor sets of aegir_gsocket.c

    An [fd_set] is 32 bytes, one bit per descriptor 0..255; the GNAT.Sockets
    helpers walk it from the highest descriptor down. *)
From stdpp Require Import sorting.
From S2P Require Import Prelude CInt Bridge.

Definition fdset_byte (set : list Z) (fd : Z) : Z :=
  default 0 (set !! Z.to_nat (Z.shiftr fd 3)).

Definition ak_isset (set : list Z) (fd : Z) : bool :=
  negb (Z.land (Z.shiftr (fdset_byte set fd) (Z.land fd 7)) 1 =? 0).

Definition ak_setbit (set : list Z) (fd : Z) : list Z :=
  alter (fun b => u8 (Z.lor b (u8 (Z.shiftl 1 (Z.land fd 7))))) (Z.to_nat (Z.shiftr fd 3)) set.

Definition ak_clrbit (set : list Z) (fd : Z) : list Z :=
  alter (fun b => u8 (Z.land b (u8 (Z.lnot (Z.shiftl 1 (Z.land fd 7))))))
    (Z.to_nat (Z.shiftr fd 3)) set.

(** The downward scan from descriptor [n - 1]. *)
Fixpoint last_scan (n : nat) (set : list Z) : Z :=
  match n with
  | O => -1
  | S n' => if ak_isset set (Z.of_nat n') then Z.of_nat n' else last_scan n' set
  end.

(** [*last] before and after. *)
Definition gnat_last_socket_in_set (set : list Z) (last : Z) : Z :=
  last_scan (Z.to_nat (last + 1)) set.

(** The set, [*last] and [*sk] after the call. *)
Definition gnat_get_socket_from_set (set : list Z) (last : Z) : list Z * Z * Z :=
  let sk := last in
  let set' := ak_clrbit set sk in
  (set', gnat_last_socket_in_set set' last, sk).

Definition gnat_insert_socket_in_set (set : list Z) (sk : Z) : list Z := ak_setbit set sk.
Definition gnat_is_socket_in_set (set : list Z) (sk : Z) : Z :=
  Z.land (Z.shiftr (fdset_byte set sk) (Z.land sk 7)) 1.
Definition gnat_remove_socket_from_set (set : list Z) (sk : Z) : list Z := ak_clrbit set sk.
Definition gnat_reset_socket_set (set : list Z) : list Z :=
  replicate (Z.to_nat AK_FDSET_BYTES) 0 ++ drop (Z.to_nat AK_FDSET_BYTES) set.

(** ** A descriptor set as a set of descriptors

    Descriptors are 0..255; outside that range the C indexing leaves the
    32 bytes, so every statement is about descriptors in range. *)

Definition fdset_wf (set : list Z) : Prop :=
  length set = Z.to_nat AK_FDSET_BYTES /\ Forall in_u8 set.

Definition fd_ok (fd : Z) : Prop := 0 <= fd < AK_FD_MAX.

Definition members (set : list Z) : gset Z :=
  list_to_set (filter (fun fd => ak_isset set fd = true) (seqZ 0 AK_FD_MAX)).

Lemma elem_of_members set fd : fd ∈ members set <-> fd_ok fd /\ ak_isset set fd = true.
Proof.
  unfold members, fd_ok. rewrite elem_of_list_to_set, list_elem_of_filter, elem_of_seqZ.
  naive_solver lia.
Qed.

Lemma fd_byte_index fd : fd_ok fd -> Z.to_nat (Z.shiftr fd 3) = Z.to_nat (fd / 8).
Proof. intros _. by rewrite Z.shiftr_div_pow2 by lia. Qed.

Lemma fd_bit_index fd : Z.land fd 7 = fd mod 8.
Proof. change 7 with (Z.ones 3). by rewrite Z.land_ones by lia. Qed.

Lemma isset_testbit set fd :
  ak_isset set fd = Z.testbit (fdset_byte set fd) (fd mod 8).
Proof.
  unfold ak_isset. rewrite fd_bit_index.
  change 1 with (Z.ones 1) at 1. rewrite Z.land_ones by lia.
  rewrite Z.shiftr_div_pow2 by zlia. change (2 ^ 1) with 2.
  rewrite <- Z.testbit_spec' by zlia. by destruct (Z.testbit _ _).
Qed.

Lemma is_socket_bit set fd :
  gnat_is_socket_in_set set fd = if ak_isset set fd then 1 else 0.
Proof.
  unfold gnat_is_socket_in_set, ak_isset.
  change 1 with (Z.ones 1) at 1 2. rewrite Z.land_ones by lia.
  destruct (_ =? 0) eqn:E; bool_to_prop; cbn; zlia.
Qed.

Lemma in_u8_testbit b n : in_u8 b -> 8 <= n -> Z.testbit b n = false.
Proof.
  intros Hb Hn. rewrite <- (u8_id b Hb). unfold u8. apply Z.mod_pow2_bits_high. lia.
Qed.

Lemma u8_testbit b n : 0 <= n < 8 -> Z.testbit (u8 b) n = Z.testbit b n.
Proof. intros Hn. unfold u8. apply Z.mod_pow2_bits_low. lia. Qed.

(** The bytes of a set after [f] is applied to the byte of [sk]. *)
Lemma fdset_byte_alter f set sk fd :
  fdset_wf set -> fd_ok sk -> fd_ok fd ->
  fdset_byte (alter f (Z.to_nat (Z.shiftr sk 3)) set) fd
  = if decide (sk / 8 = fd / 8) then f (fdset_byte set fd) else fdset_byte set fd.
Proof.
  intros [Hl _] Hs Hf. unfold fdset_byte, fd_ok, AK_FD_MAX, AK_FDSET_BYTES in *.
  rewrite !fd_byte_index by done.
  destruct (lookup_lt_is_Some_2 set (Z.to_nat (fd / 8))) as [b Hb]; [zlia|].
  rewrite list_lookup_alter_decide, Hb.
  repeat case_decide; cbn; try done; exfalso; zlia.
Qed.

Lemma fdset_wf_alter f set i :
  (forall b, in_u8 (f b)) -> fdset_wf set -> fdset_wf (alter f i set).
Proof.
  intros Hf [Hl Hb]. split; [by rewrite length_alter|].
  apply Forall_alter_lookup; auto.
Qed.

Lemma ak_setbit_wf set fd : fdset_wf set -> fdset_wf (ak_setbit set fd).
Proof. apply fdset_wf_alter. auto with aegir. Qed.

Lemma ak_clrbit_wf set fd : fdset_wf set -> fdset_wf (ak_clrbit set fd).
Proof. apply fdset_wf_alter. auto with aegir. Qed.

Lemma bit_eqb k n : 0 <= k -> 0 <= n -> Z.testbit (Z.shiftl 1 k) n = (n =? k).
Proof. intros. rewrite Z.shiftl_1_l, Z.pow2_bits_eqb by done. apply Z.eqb_sym. Qed.

Lemma isset_setbit set sk fd :
  fdset_wf set -> fd_ok sk -> fd_ok fd ->
  ak_isset (ak_setbit set sk) fd = (fd =? sk) || ak_isset set fd.
Proof.
  intros Hwf Hs Hf. rewrite !isset_testbit. unfold ak_setbit.
  rewrite fdset_byte_alter by done. unfold fd_ok in *.
  case_decide as D.
  - rewrite u8_testbit, Z.lor_spec, u8_testbit, fd_bit_index, bit_eqb by zlia.
    rewrite orb_comm. f_equal. apply eq_bool_prop_intro. rewrite !Is_true_true, !Z.eqb_eq. zlia.
  - by replace (fd =? sk) with false by (symmetry; apply Z.eqb_neq; intros ->; done).
Qed.

Lemma isset_clrbit set sk fd :
  fdset_wf set -> fd_ok sk -> fd_ok fd ->
  ak_isset (ak_clrbit set sk) fd = negb (fd =? sk) && ak_isset set fd.
Proof.
  intros Hwf Hs Hf. rewrite !isset_testbit. unfold ak_clrbit.
  rewrite fdset_byte_alter by done. unfold fd_ok in *.
  case_decide as D.
  - rewrite u8_testbit, Z.land_spec, u8_testbit, Z.lnot_spec, fd_bit_index, bit_eqb by zlia.
    rewrite andb_comm. f_equal. f_equal.
    apply eq_bool_prop_intro. rewrite !Is_true_true, !Z.eqb_eq. zlia.
  - by replace (fd =? sk) with false by (symmetry; apply Z.eqb_neq; intros ->; done).
Qed.

Lemma members_setbit set fd :
  fdset_wf set -> fd_ok fd -> members (ak_setbit set fd) = {[fd]} ∪ members set.
Proof.
  intros Hwf Hf. apply set_eq. intros x.
  rewrite elem_of_union, elem_of_singleton, !elem_of_members. split.
  - intros [Hx Hb]. rewrite isset_setbit in Hb by done.
    apply orb_true_iff in Hb as [Hb|Hb]; [left; by apply Z.eqb_eq | by right].
  - intros [->|[Hx Hb]]; (split; [done|]); rewrite isset_setbit by done; [by rewrite Z.eqb_refl|].
    by rewrite Hb, orb_true_r.
Qed.

Lemma members_clrbit set fd :
  fdset_wf set -> fd_ok fd -> members (ak_clrbit set fd) = members set ∖ {[fd]}.
Proof.
  intros Hwf Hf. apply set_eq. intros x.
  rewrite elem_of_difference, elem_of_singleton, !elem_of_members. split.
  - intros [Hx Hb]. rewrite isset_clrbit in Hb by done. bool_to_prop. by split_and!.
  - intros [[Hx Hb] Hne]. split; [done|]. rewrite isset_clrbit, Hb by done.
    by apply Z.eqb_neq in Hne as ->.
Qed.

Lemma fdset_zero_byte n fd : fdset_byte (replicate n 0) fd = 0.
Proof.
  unfold fdset_byte. destruct (replicate n 0 !! _) eqn:E; [|done].
  apply lookup_replicate in E as [-> _]. done.
Qed.

Lemma reset_zero set : fdset_wf set -> gnat_reset_socket_set set = replicate 32 0.
Proof.
  intros [Hl _]. unfold gnat_reset_socket_set.
  rewrite drop_ge by (by rewrite Hl). apply app_nil_r.
Qed.

Lemma members_zero n : members (replicate n 0) = ∅.
Proof.
  apply set_eq. intros x. rewrite elem_of_members, isset_testbit, fdset_zero_byte, Z.bits_0.
  set_solver.
Qed.

(** ** The scan and the iteration *)

Lemma last_scan_spec n set :
  last_scan n set = -1 /\ (forall x, 0 <= x < Z.of_nat n -> ak_isset set x = false)
  \/ 0 <= last_scan n set < Z.of_nat n /\ ak_isset set (last_scan n set) = true
     /\ forall x, last_scan n set < x < Z.of_nat n -> ak_isset set x = false.
Proof.
  induction n as [|n IH]; [left; split; [done|lia]|]. cbn [last_scan].
  destruct (ak_isset set (Z.of_nat n)) eqn:E; [right; split_and!; [lia|lia|done|lia]|].
  destruct IH as [[-> H]|(Hr & Hi & H)]; [left; split; [done|]|right; split_and!; [lia|lia|done|]];
    intros x Hx; destruct (decide (x = Z.of_nat n)) as [->|]; try done; apply H; lia.
Qed.

(** [is_last set last m]: [m] is the greatest member not above [last], or -1. *)
Definition is_last (set : list Z) (last m : Z) : Prop :=
  m = -1 /\ (forall x, x ∈ members set -> last < x)
  \/ m ∈ members set /\ m <= last /\ forall x, x ∈ members set -> x <= last -> x <= m.

Lemma last_socket_is_last set last :
  -1 <= last < AK_FD_MAX -> is_last set last (gnat_last_socket_in_set set last).
Proof.
  intros Hl. unfold gnat_last_socket_in_set, is_last. unfold AK_FD_MAX in *.
  destruct (last_scan_spec (Z.to_nat (last + 1)) set) as [[-> H]|(Hr & Hi & H)].
  - left. split; [done|]. intros x [Hx Hb]%elem_of_members. unfold fd_ok in *.
    destruct (decide (last < x)); [done|]. rewrite H in Hb by lia. done.
  - right. split_and!; [|lia|].
    + apply elem_of_members. split; [unfold fd_ok, AK_FD_MAX; lia|done].
    + intros x [Hx Hb]%elem_of_members Hle. unfold fd_ok in *.
      destruct (decide (x <= last_scan (Z.to_nat (last + 1)) set)); [done|].
      rewrite H in Hb by lia. done.
Qed.

(** The iteration of the GNAT.Sockets binding: take descriptors with
    [__gnat_get_socket_from_set] until [*last] is -1. *)
Fixpoint drain (fuel : nat) (set : list Z) (last : Z) : option (list Z) :=
  if last =? -1 then Some []
  else match fuel with
       | O => None
       | S n => let '(set', last', sk) := gnat_get_socket_from_set set last in
                cons sk <$> drain n set' last'
       end.

Lemma drain_members fuel set last :
  fdset_wf set -> (last = -1 /\ members set = ∅ \/ last ∈ members set) ->
  (forall x, x ∈ members set -> x <= last) ->
  last < Z.of_nat fuel ->
  exists l, drain fuel set last = Some l /\ StronglySorted (fun a b => b < a) l
            /\ forall x, x ∈ l <-> x ∈ members set.
Proof.
  revert set last. induction fuel as [|n IH]; intros set last Hwf Hin Hub Hf.
  - destruct Hin as [[-> Hm]|[Hx _]%elem_of_members]; [|unfold fd_ok in *; lia].
    exists []. split_and!; [done|constructor|]. rewrite Hm. set_solver.
  - cbn [drain]. destruct Hin as [[-> Hm]|Hin].
    { exists []. split_and!; [done|constructor|]. rewrite Hm. set_solver. }
    pose proof Hin as [Hok Hb]%elem_of_members.
    replace (last =? -1) with false by (symmetry; apply Z.eqb_neq; unfold fd_ok in *; lia).
    unfold gnat_get_socket_from_set. cbv zeta.
    pose proof (members_clrbit set last Hwf Hok) as Hc.
    pose proof (last_socket_is_last (ak_clrbit set last) last) as Hlast.
    unfold fd_ok in Hok. specialize (Hlast ltac:(lia)).
    set (last' := gnat_last_socket_in_set _ _) in *.
    destruct (IH (ak_clrbit set last) last') as (l & Hl & Hs & Hmem).
    + by apply ak_clrbit_wf.
    + destruct Hlast as [[-> H]|(H & _)]; [left|by right]. split; [done|].
      apply set_eq. intros x. split; [|set_solver]. intros Hx.
      specialize (H x Hx). rewrite Hc in Hx. specialize (Hub x). set_solver by lia.
    + intros x Hx. rewrite Hc in Hx. destruct Hlast as [[-> H]|(_ & _ & H)].
      * rewrite <- Hc in Hx. specialize (H x Hx). rewrite Hc in Hx. specialize (Hub x). set_solver by lia.
      * apply H; [by rewrite Hc|]. apply Hub. set_solver.
    + destruct Hlast as [[-> _]|(H & Hle & _)]; [lia|]. rewrite Hc in H.
      assert (last' <> last) by set_solver. lia.
    + exists (last :: l). rewrite Hl. split_and!; [done| |].
      * constructor; [done|]. apply Forall_forall. intros x Hx%Hmem. rewrite Hc in Hx.
        assert (x <> last) by set_solver. specialize (Hub x). set_solver by lia.
      * intros x. rewrite elem_of_cons, Hmem, Hc, elem_of_difference, elem_of_singleton.
        destruct (decide (x = last)); naive_solver.
Qed.

(** ** Properties *)

(** The descriptor-set helpers implement finite sets: on a well-formed
    32-byte set and a descriptor in 0..255, insertion adds exactly that
    descriptor, removal deletes exactly that one, reset leaves the empty set,
    the membership test answers 1 or 0 accordingly, and the bytes stay
    well formed. *)
Theorem fdset_refines_set set sk :
  fdset_wf set -> fd_ok sk ->
  members (gnat_insert_socket_in_set set sk) = {[sk]} ∪ members set
  /\ members (gnat_remove_socket_from_set set sk) = members set ∖ {[sk]}
  /\ members (gnat_reset_socket_set set) = ∅
  /\ gnat_is_socket_in_set set sk = (if decide (sk ∈ members set) then 1 else 0)
  /\ fdset_wf (gnat_insert_socket_in_set set sk)
  /\ fdset_wf (gnat_remove_socket_from_set set sk).
Proof.
  intros Hwf Hok. split_and!.
  - by apply members_setbit.
  - by apply members_clrbit.
  - rewrite reset_zero by done. apply members_zero.
  - pose proof (is_socket_bit set sk) as Hb. case_decide as D.
    + apply elem_of_members in D as [_ D]. by rewrite D in Hb.
    + destruct (ak_isset set sk) eqn:E; [|done]. exfalso. by apply D, elem_of_members.
  - by apply ak_setbit_wf.
  - by apply ak_clrbit_wf.
Qed.

Definition demo_set : list Z := ak_setbit (ak_setbit (replicate 32 0) 3) 255.

Lemma demo_set_wf : fdset_wf demo_set.
Proof. unfold demo_set. do 2 apply ak_setbit_wf. split; [done|]. by repeat constructor. Qed.

Lemma fdset_refines_set_witness :
  members (gnat_insert_socket_in_set demo_set 8) = {[8]} ∪ members demo_set
  /\ gnat_is_socket_in_set demo_set 255 = 1.
Proof.
  split; [refine (proj1 (fdset_refines_set demo_set 8 demo_set_wf _));
    unfold fd_ok, AK_FD_MAX; lia|].
  vm_compute. reflexivity.
Defined.

(** Iterating a set with [__gnat_get_socket_from_set] from the last
    member [__gnat_last_socket_in_set] finds terminates after at most 256
    takes and yields every member exactly once, from the highest descriptor
    down. *)
Theorem fdset_drain set :
  fdset_wf set ->
  exists l, drain 256 set (gnat_last_socket_in_set set 255) = Some l
            /\ StronglySorted (fun a b => b < a) l
            /\ forall x, x ∈ l <-> x ∈ members set.
Proof.
  intros Hwf. pose proof (last_socket_is_last set 255) as Hl.
  specialize (Hl ltac:(unfold AK_FD_MAX; lia)).
  assert (forall x, x ∈ members set -> 0 <= x < 256) as Hr.
  { intros x [Hx _]%elem_of_members. done. }
  apply drain_members; [done| | |].
  - destruct Hl as [[-> H]|(H & _)]; [left|by right]. split; [done|].
    apply set_eq. intros x. split; [|set_solver]. intros Hx.
    specialize (H x Hx). specialize (Hr x Hx). lia.
  - intros x Hx. specialize (Hr x Hx).
    destruct Hl as [[_ H]|(_ & _ & H)]; [specialize (H x Hx); lia|apply H; [done|lia]].
  - destruct Hl as [[-> H]|(H & Hle & _)]; lia.
Qed.

Lemma fdset_drain_witness :
  drain 256 demo_set (gnat_last_socket_in_set demo_set 255) = Some [255; 3]
  /\ exists l, drain 256 demo_set (gnat_last_socket_in_set demo_set 255) = Some l
              /\ StronglySorted (fun a b => b < a) l
              /\ forall x, x ∈ l <-> x ∈ members demo_set.
Proof. split; [vm_compute; reflexivity | exact (fdset_drain demo_set demo_set_wf)].
Defined.
