(* ===== verification/Select.v ===== *)
(** * Readiness, select and poll of aegir_gsocket.c *)
From S2P Require Import Prelude CInt Bridge FdTable SockCalls FdSet.

(** [struct ak_pollfd] *)
Record ak_pollfd := PollFd { p_fd : Z; p_events : Z; p_revents : Z }.

(** The three sets [select] is given; [None] is a null pointer. *)
Record fdsets := FdSets { fs_read : option (list Z); fs_write : option (list Z);
                          fs_except : option (list Z) }.

Definition isset_in (o : option (list Z)) (fd : Z) : bool :=
  match o with Some set => ak_isset set fd | None => false end.

(** The treatment of one set for one descriptor: count it when ready, else
    clear its bit. *)
Definition settle (bit m fd : Z) (o : option (list Z)) (nready : Z)
  : option (list Z) * Z :=
  match o with
  | Some set =>
      if ak_isset set fd then
        if negb (Z.land m bit =? 0) then (Some set, nready + 1)
        else (Some (ak_clrbit set fd), nready)
      else (Some set, nready)
  | None => (None, nready)
  end.

(** The three sets in turn. *)
Definition settle_all (m fd : Z) (f : fdsets) (nready : Z) : fdsets * Z :=
  let '(r, n1) := settle 1 m fd (fs_read f) nready in
  let '(w, n2) := settle 2 m fd (fs_write f) n1 in
  let '(e, n3) := settle 4 m fd (fs_except f) n2 in
  (FdSets r w e, n3).

Section Select.
Context {W : Type} `{!Bridge W}.

(** 1 readable, 2 writable, 4 except. *)
Definition ak_ready (fd : Z) : M (gs W) Z :=
  let* os := getsM (ak_get fd) in
  match os with
  | None => retM 0
  | Some s =>
      if kind s =? AK_KIND_SIGR then retM (if 0 <? sig_count s then 1 else 0)
      else if kind s =? AK_KIND_SIGW then retM 2
      else if negb (kind s =? AK_KIND_SOCK) then retM 0
      else
        let* p := call (aknet_sock_poll (handle s)) in
        if negb (pr_status p =? AK_ST_OK) then retM 4
        else if negb (pr_err p =? 0) then retM (Z.lor (Z.lor 1 2) 4)
        else
          let m := if 0 <? pr_rx p then Z.lor 0 1 else 0 in
          retM (if (0 <? pr_tx p) && negb (listening s) then Z.lor m 2 else m)
  end.

(** The body of select's inner loop for one descriptor. *)
Definition select_fd (fd : Z) (st : fdsets * Z) : M (gs W) (fdsets * Z) :=
  let '(f, nready) := st in
  let* m := (if isset_in (fs_read f) fd || isset_in (fs_write f) fd
                || isset_in (fs_except f) fd
             then ak_ready fd else retM 0) in
  retM (settle_all m fd f nready).

(** [for (fd = fd; fd < nfds; fd++)] with [n] descriptors left. *)
Fixpoint select_scan (n : nat) (fd : Z) (st : fdsets * Z) : M (gs W) (fdsets * Z) :=
  match n with
  | O => retM st
  | S n' => let* st' := select_fd fd st in select_scan n' (fd + 1) st'
  end.

(** One round of select's outer loop, from the sets the last round left. *)
Definition select_round (nfds : Z) (deadline : option Z) (f : fdsets)
  : M (gs W) (fdsets + (Z * fdsets)) :=
  let* '(f', nready) := select_scan (Z.to_nat nfds) 0 (f, 0) in
  if 0 <? nready then retM (inr (nready, f'))
  else
    match deadline with
    | Some d =>
        let* now := ak_now in
        if d <=? now then retM (inr (0, f'))
        else ak_sleep_slice ;; retM (inl f')
    | None => ak_sleep_slice ;; retM (inl f')
    end.

(** [timeout]: the [timeval] seconds and microseconds, [None] for null. *)
Definition select (fuel : nat) (nfds : Z) (f : fdsets) (timeout : option (Z * Z))
  : M (gs W) (Z * fdsets) :=
  let* deadline :=
    (match timeout with
     | Some (sec, usec) =>
         let* now := ak_now in
         retM (Some (u64 (now + u64 sec * AK_TICK_HZ + u64 usec * (AK_TICK_HZ / 1000000))))
     | None => retM None
     end) in
  let nfds := if AK_FD_MAX <? nfds then AK_FD_MAX else nfds in
  iterM fuel (select_round nfds deadline) f.

(** The body of poll's inner loop: the entry with its [revents], and whether
    it counts as ready. *)
Definition poll_fd (p : ak_pollfd) : M (gs W) (ak_pollfd * bool) :=
  let* m := ak_ready (p_fd p) in
  let* s := getsM (ak_get (p_fd p)) in
  match s with
  | None => retM (PollFd (p_fd p) (p_events p) AK_POLLNVAL, true)
  | Some _ =>
      let r0 := 0 in
      let r1 := if negb (Z.land (p_events p) AK_POLLIN =? 0) && negb (Z.land m 1 =? 0)
                then Z.lor r0 AK_POLLIN else r0 in
      let r2 := if negb (Z.land (p_events p) AK_POLLOUT =? 0) && negb (Z.land m 2 =? 0)
                then Z.lor r1 AK_POLLOUT else r1 in
      let r3 := if negb (Z.land m 4 =? 0) then Z.lor r2 AK_POLLERR else r2 in
      retM (PollFd (p_fd p) (p_events p) r3, negb (r3 =? 0))
  end.

Fixpoint poll_scan (l : list ak_pollfd) : M (gs W) (list ak_pollfd * Z) :=
  match l with
  | [] => retM ([], 0)
  | p :: l' =>
      let* '(p', b) := poll_fd p in
      let* '(l'', n) := poll_scan l' in
      retM (p' :: l'', if b then n + 1 else n)
  end.

Definition poll_round (infinite : bool) (deadline : Z) (l : list ak_pollfd)
  : M (gs W) (list ak_pollfd + (Z * list ak_pollfd)) :=
  let* '(l', nready) := poll_scan l in
  if 0 <? nready then retM (inr (nready, l'))
  else if infinite then ak_sleep_slice ;; retM (inl l')
  else
    let* now := ak_now in
    if deadline <=? now then retM (inr (0, l'))
    else ak_sleep_slice ;; retM (inl l').

Definition poll (fuel : nat) (l : list ak_pollfd) (timeout_ms : Z)
  : M (gs W) (Z * list ak_pollfd) :=
  let* now := ak_now in
  let deadline := u64 (now + u64 timeout_ms * (AK_TICK_HZ / 1000)) in
  iterM fuel (poll_round (timeout_ms <? 0) deadline) l.

End Select.

(** ** Calls that touch only the world *)

Section Quiet.
Context {W : Type} `{!Bridge W}.

(** [quiet T c]: [c] returns, changes nothing but the world, and moves the
    world along [T]. *)
Definition quiet (T : W -> W -> Prop) {A} (c : M (gs W) A) : Prop :=
  forall s, exists a w, c s = Done a (with_world w s) /\ T (world s) w.

Context (T : W -> W -> Prop) `{!PreOrder T}.

Lemma with_world_id (s : gs W) : with_world (world s) s = s.
Proof. by destruct s. Qed.

Lemma quiet_ret {A} (a : A) : quiet T (retM a).
Proof. intros s. exists a, (world s). by rewrite with_world_id. Qed.

Lemma quiet_gets {A} (f : gs W -> A) : quiet T (getsM f).
Proof. intros s. exists (f s), (world s). by rewrite with_world_id. Qed.

Lemma quiet_bind {A B} (c : M (gs W) A) (k : A -> M (gs W) B) :
  quiet T c -> (forall a, quiet T (k a)) -> quiet T (bindM c k).
Proof.
  intros Hc Hk s. destruct (Hc s) as (a & w & E & Tw). unfold bindM. rewrite E.
  destruct (Hk a (with_world w s)) as (b & w' & E' & Tw'). exists b, w'.
  rewrite E'. split; [done|]. by etrans.
Qed.

Lemma quiet_call {A} (f : W -> A * W) : (forall w, T w (f w).2) -> quiet T (call f).
Proof.
  intros H s. unfold call. specialize (H (world s)). destruct (f (world s)) as [a w]. eauto.
Qed.

Hypothesis T_poll : forall h w, T w (aknet_sock_poll h w).2.

Lemma quiet_ready fd : quiet T (ak_ready fd).
Proof.
  unfold ak_ready.
  repeat first [ apply quiet_ret | apply quiet_gets | apply quiet_call; by auto
               | apply quiet_bind; [|intros ?] | split_if ].
Qed.

Lemma quiet_select_fd fd st : quiet T (select_fd fd st).
Proof.
  unfold select_fd. destruct st as [f n].
  apply quiet_bind; [split_if; [apply quiet_ready|apply quiet_ret]|intros m].
  apply quiet_ret.
Qed.

Lemma quiet_select_scan n fd st : quiet T (select_scan n fd st).
Proof.
  revert fd st. induction n as [|n IH]; intros fd st; [apply quiet_ret|].
  cbn [select_scan]. apply quiet_bind; [apply quiet_select_fd|auto].
Qed.

Lemma quiet_poll_fd p : quiet T (poll_fd p).
Proof.
  unfold poll_fd. apply quiet_bind; [apply quiet_ready|intros m].
  apply quiet_bind; [apply quiet_gets|intros [e|]]; apply quiet_ret.
Qed.

Lemma quiet_poll_scan l : quiet T (poll_scan l).
Proof.
  induction l as [|p l IH]; [apply quiet_ret|]. cbn [poll_scan].
  apply quiet_bind; [apply quiet_poll_fd|intros [p' b]].
  apply quiet_bind; [done|intros [l' n]]. apply quiet_ret.
Qed.

End Quiet.

(** Every relation the polls respect; the trivial one by default. *)
Definition any_world {W} (w w' : W) : Prop := True.
#[export] Instance any_world_preorder {W} : PreOrder (@any_world W).
Proof. by split. Qed.

(** ** One pass of select *)

Definition oset_wf (o : option (list Z)) : Prop :=
  match o with Some set => fdset_wf set | None => True end.

Definition fdsets_wf (f : fdsets) : Prop :=
  oset_wf (fs_read f) /\ oset_wf (fs_write f) /\ oset_wf (fs_except f).

(** The number of the [n] descriptors from [fd] on that are in the set. *)
Fixpoint count_in (n : nat) (fd : Z) (o : option (list Z)) : Z :=
  match n with
  | O => 0
  | S n' => (if isset_in o fd then 1 else 0) + count_in n' (fd + 1) o
  end.

Definition count_all (n : nat) (fd : Z) (f : fdsets) : Z :=
  count_in n fd (fs_read f) + count_in n fd (fs_write f) + count_in n fd (fs_except f).

Definition asked (f : fdsets) (fd : Z) : bool :=
  isset_in (fs_read f) fd || isset_in (fs_write f) fd || isset_in (fs_except f) fd.

(** [o'] is [o] without the descriptors of the range whose mask lacks [bit]. *)
Definition filtered (bit : Z) (obs : Z -> Z) (lo hi : Z) (o o' : option (list Z)) : Prop :=
  oset_wf o' /\ (o' = None <-> o = None) /\
  forall x, fd_ok x ->
    isset_in o' x = isset_in o x && (negb ((lo <=? x) && (x <? hi)) || negb (Z.land (obs x) bit =? 0)).

(** A pass over [lo..hi-1] that saw the masks [obs]. *)
Record pass (obs : Z -> Z) (lo hi : Z) (f f' : fdsets) : Prop := {
  pass_read : filtered 1 obs lo hi (fs_read f) (fs_read f');
  pass_write : filtered 2 obs lo hi (fs_write f) (fs_write f');
  pass_except : filtered 4 obs lo hi (fs_except f) (fs_except f')
}.

Lemma settle_filtered bit obs fd o n :
  oset_wf o -> fd_ok fd ->
  filtered bit obs fd (fd + 1) o (settle bit (obs fd) fd o n).1
  /\ (settle bit (obs fd) fd o n).2
     = n + (if isset_in (settle bit (obs fd) fd o n).1 fd then 1 else 0).
Proof.
  intros Hwf Hfd. unfold settle. destruct o as [set|]; [|by split; [split_and!|cbn; lia]].
  cbn in Hwf.
  assert (forall x, (fd <=? x) && (x <? fd + 1) = (x =? fd)) as Hr.
  { intros x. apply eq_bool_prop_intro. rewrite !Is_true_true, andb_true_iff, Z.leb_le, Z.ltb_lt, Z.eqb_eq. lia. }
  destruct (ak_isset set fd) eqn:E; [destruct (Z.land (obs fd) bit =? 0) eqn:Hm|]; cbn; rewrite ?E.
  - split; [|rewrite isset_clrbit, Z.eqb_refl by done; cbn; lia].
    split_and!; [by apply ak_clrbit_wf|done|]. intros x Hx. cbn. rewrite Hr, isset_clrbit by done.
    destruct (x =? fd) eqn:Ex; cbn; [|by rewrite andb_true_r].
    apply Z.eqb_eq in Ex as ->. by rewrite Hm, andb_false_r.
  - split; [|done]. split_and!; [done..|]. intros x Hx. cbn. rewrite Hr.
    destruct (x =? fd) eqn:Ex; cbn; [|by rewrite andb_true_r].
    apply Z.eqb_eq in Ex as ->. by rewrite Hm, andb_true_r.
  - split; [|lia]. split_and!; [done..|]. intros x Hx. cbn. rewrite Hr.
    destruct (x =? fd) eqn:Ex; cbn; [|by rewrite andb_true_r].
    apply Z.eqb_eq in Ex as ->. by rewrite E.
Qed.

Lemma filtered_trans bit obs lo mid hi o1 o2 o3 :
  lo <= mid <= hi -> filtered bit obs lo mid o1 o2 -> filtered bit obs mid hi o2 o3 ->
  filtered bit obs lo hi o1 o3.
Proof.
  intros Hr (_ & N1 & H1) (W2 & N2 & H2). split_and!; [done|tauto..|].
  intros x Hx. rewrite H2, H1 by done.
  destruct (isset_in o1 x); [|done]. cbn.
  destruct (Z.land (obs x) bit =? 0); cbn; rewrite ?orb_true_r, ?orb_false_r; [|done].
  apply eq_bool_prop_intro.
  rewrite !Is_true_true, andb_true_iff, !negb_true_iff, !andb_false_iff, !Z.leb_gt, !Z.ltb_ge. lia.
Qed.

Lemma filtered_ext bit obs obs' lo hi o o' :
  (forall x, lo <= x < hi -> obs x = obs' x) ->
  filtered bit obs lo hi o o' -> filtered bit obs' lo hi o o'.
Proof.
  intros He (Hw & Hn & H). split_and!; [done..|]. intros x Hx. rewrite H by done.
  destruct ((lo <=? x) && (x <? hi)) eqn:E; [|done]. bool_to_prop. by rewrite (He x) by lia.
Qed.

Lemma pass_ext obs obs' lo hi f f' :
  (forall x, lo <= x < hi -> obs x = obs' x) -> pass obs lo hi f f' -> pass obs' lo hi f f'.
Proof. intros He [H1 H2 H3]. split; by eapply filtered_ext. Qed.

Lemma pass_trans obs lo mid hi f1 f2 f3 :
  lo <= mid <= hi -> pass obs lo mid f1 f2 -> pass obs mid hi f2 f3 -> pass obs lo hi f1 f3.
Proof. intros Hr [H1 H2 H3] [K1 K2 K3]. split; by eapply filtered_trans. Qed.

Lemma filtered_refl bit obs lo o : oset_wf o -> filtered bit obs lo lo o o.
Proof.
  intros Hw. split_and!; [done..|]. intros x _.
  replace ((lo <=? x) && (x <? lo)) with false; [by rewrite andb_true_r|].
  symmetry. apply andb_false_iff. rewrite Z.leb_gt, Z.ltb_ge. lia.
Qed.

(** A pass leaves the descriptors outside its range alone. *)
Lemma filtered_outside bit obs lo hi o o' x :
  filtered bit obs lo hi o o' -> fd_ok x -> ~ lo <= x < hi -> isset_in o' x = isset_in o x.
Proof.
  intros (_ & _ & H) Hx Hl. rewrite H by done.
  replace ((lo <=? x) && (x <? hi)) with false; [by rewrite andb_true_r|].
  symmetry. apply andb_false_iff. rewrite Z.leb_gt, Z.ltb_ge. lia.
Qed.

Lemma pass_asked obs lo hi f f' x :
  pass obs lo hi f f' -> fd_ok x -> ~ lo <= x < hi -> asked f' x = asked f x.
Proof.
  intros [H1 H2 H3] Hx Hl. unfold asked.
  by rewrite (filtered_outside _ _ _ _ _ _ _ H1 Hx Hl), (filtered_outside _ _ _ _ _ _ _ H2 Hx Hl),
    (filtered_outside _ _ _ _ _ _ _ H3 Hx Hl).
Qed.

Lemma pass_wf obs lo hi f f' : pass obs lo hi f f' -> fdsets_wf f'.
Proof. intros [H1 H2 H3]. split_and!; [apply H1|apply H2|apply H3]. Qed.

Lemma pass_refl obs lo f : fdsets_wf f -> pass obs lo lo f f.
Proof. intros (H1 & H2 & H3). split; by apply filtered_refl. Qed.

Lemma count_in_eq n fd o o' :
  (forall x, fd <= x < fd + Z.of_nat n -> isset_in o' x = isset_in o x) ->
  count_in n fd o' = count_in n fd o.
Proof.
  revert fd. induction n as [|n IH]; intros fd H; [done|]. cbn [count_in].
  rewrite H, IH by (intros; try apply H; lia). done.
Qed.

Lemma count_all_S n fd f :
  count_all (S n) fd f = count_all 1 fd f + count_all n (fd + 1) f.
Proof. unfold count_all. cbn [count_in]. lia. Qed.

Lemma count_all_pass obs lo hi f f' n fd :
  pass obs lo hi f f' -> 0 <= fd -> fd + Z.of_nat n <= AK_FD_MAX -> fd + Z.of_nat n <= lo ->
  count_all n fd f' = count_all n fd f.
Proof.
  intros [H1 H2 H3] H0 Hm Hl. unfold count_all. f_equal; [f_equal|];
    apply count_in_eq; intros x Hx; (eapply filtered_outside; [done|unfold fd_ok; lia|lia]).
Qed.

Lemma count_in_nonneg n fd o : 0 <= count_in n fd o.
Proof. revert fd. induction n as [|n IH]; intros fd; cbn; [lia|]. specialize (IH (fd + 1)). split_if; lia. Qed.

Lemma count_all_nonneg n fd f : 0 <= count_all n fd f.
Proof.
  unfold count_all. pose proof (count_in_nonneg n fd (fs_read f)).
  pose proof (count_in_nonneg n fd (fs_write f)). pose proof (count_in_nonneg n fd (fs_except f)). lia.
Qed.

Lemma count_in_zero n fd o x :
  count_in n fd o = 0 -> fd <= x < fd + Z.of_nat n -> isset_in o x = false.
Proof.
  revert fd. induction n as [|n IH]; intros fd; [lia|]. cbn [count_in]. intros Hc Hx.
  pose proof (count_in_nonneg n (fd + 1) o). destruct (isset_in o fd) eqn:E; [lia|].
  destruct (decide (x = fd)) as [->|]; [done|]. apply (IH (fd + 1)); lia.
Qed.

Lemma count_all_zero n fd f x :
  count_all n fd f = 0 -> fd <= x < fd + Z.of_nat n -> asked f x = false.
Proof.
  unfold count_all, asked. intros Hc Hx.
  pose proof (count_in_nonneg n fd (fs_read f)).
  pose proof (count_in_nonneg n fd (fs_write f)). pose proof (count_in_nonneg n fd (fs_except f)).
  by rewrite !(count_in_zero n fd _ x) by lia.
Qed.

Section Pass.
Context {W : Type} `{!Bridge W}.

Lemma ready_fds fd (s : gs W) m s' : ak_ready fd s = Done m s' -> ak_fds s' = ak_fds s.
Proof.
  destruct (quiet_ready any_world (fun _ _ => I) fd s) as (a & w & E & _).
  rewrite E. by intros [= _ <-].
Qed.

Lemma settle_all_pass m fd f n :
  fdsets_wf f -> fd_ok fd ->
  pass (fun _ => m) fd (fd + 1) f (settle_all m fd f n).1
  /\ (settle_all m fd f n).2 = n + count_all 1 fd (settle_all m fd f n).1.
Proof.
  intros (Hr & Hw & He) Hfd. unfold settle_all.
  pose proof (settle_filtered 1 (fun _ => m) fd (fs_read f) n Hr Hfd) as [R1 R2].
  destruct (settle 1 m fd (fs_read f) n) as [r n1].
  pose proof (settle_filtered 2 (fun _ => m) fd (fs_write f) n1 Hw Hfd) as [W1 W2].
  destruct (settle 2 m fd (fs_write f) n1) as [w n2].
  pose proof (settle_filtered 4 (fun _ => m) fd (fs_except f) n2 He Hfd) as [E1 E2].
  destruct (settle 4 m fd (fs_except f) n2) as [e n3]. cbn in *.
  split; [by split|unfold count_all; cbn; lia].
Qed.

Lemma select_fd_spec fd f n (s : gs W) f' n' s' :
  fdsets_wf f -> fd_ok fd -> select_fd fd (f, n) s = Done (f', n') s' ->
  exists m, pass (fun _ => m) fd (fd + 1) f f' /\ n' = n + count_all 1 fd f'
    /\ ak_fds s' = ak_fds s
    /\ (asked f fd = true -> exists s2, ak_ready fd s = Done m s2).
Proof.
  intros Hf Hfd. unfold select_fd, asked, bindM, retM.
  assert (forall m, (f', n') = settle_all m fd f n ->
    pass (fun _ => m) fd (fd + 1) f f' /\ n' = n + count_all 1 fd f') as Hk.
  { intros m Hm. pose proof (settle_all_pass m fd f n Hf Hfd) as Hp. by rewrite <- Hm in Hp. }
  destruct (_ || _) eqn:Ha.
  - destruct (ak_ready fd s) as [m s1|] eqn:E; [|done]. intros [= Hm <-].
    exists m. destruct (Hk m (eq_sym Hm)). eauto 10 using ready_fds.
  - intros [= Hm <-]. exists 0. destruct (Hk 0 (eq_sym Hm)). by split_and!.
Qed.

Lemma select_scan_spec n fd f k (s : gs W) f' k' s' :
  fdsets_wf f -> 0 <= fd -> fd + Z.of_nat n <= AK_FD_MAX ->
  select_scan n fd (f, k) s = Done (f', k') s' ->
  exists obs, pass obs fd (fd + Z.of_nat n) f f' /\ k' = k + count_all n fd f'
    /\ forall x, fd <= x < fd + Z.of_nat n -> asked f x = true ->
         exists s1 s2, ak_fds s1 = ak_fds s /\ ak_ready x s1 = Done (obs x) s2.
Proof.
  revert fd f k s. induction n as [|n IH]; intros fd f k s Hwf H0 Hm.
  - cbn. intros [= <- <- <-]. exists (fun _ => 0). rewrite Z.add_0_r.
    split_and!; [by apply pass_refl|unfold count_all; cbn; lia|lia].
  - cbn [select_scan]. unfold bindM.
    assert (fd_ok fd) as Hfd by (unfold fd_ok; lia).
    destruct (select_fd fd (f, k) s) as [[f1 k1] s1|] eqn:E; [|done]. intros Hs.
    apply select_fd_spec in E as (m & Hp & Hk & Hf & Ha); [|done..].
    apply IH in Hs as (obs & Hp' & Hk' & Ha'); [|by eapply pass_wf|lia..].
    exists (fun x => if decide (x = fd) then m else obs x). split_and!.
    + eapply (pass_trans _ _ (fd + 1)); [lia| |].
      * eapply pass_ext; [|exact Hp]. intros x Hx. cbn. by rewrite decide_True by lia.
      * replace (fd + Z.of_nat (S n)) with (fd + 1 + Z.of_nat n) by lia.
        eapply pass_ext; [|exact Hp']. intros x Hx. cbn. by rewrite decide_False by lia.
    + rewrite count_all_S, (count_all_pass _ _ _ _ _ _ _ Hp') by (cbn; lia). lia.
    + intros x Hx Hax. case_decide as D; [subst; destruct (Ha Hax) as [s2 E]; eauto|].
      destruct (Ha' x) as (t1 & t2 & Ht & Hr); [lia| |exists t1, t2; by rewrite Ht].
      rewrite (pass_asked _ _ _ _ _ _ Hp) by (unfold fd_ok; lia). done.
Qed.

(** A pass over empty ranges asks nobody and changes nothing. *)
Lemma select_scan_idle n fd f k (s : gs W) :
  (forall x, fd <= x < fd + Z.of_nat n -> asked f x = false) ->
  select_scan n fd (f, k) s = Done (f, k) s.
Proof.
  revert fd. induction n as [|n IH]; intros fd H; [done|].
  cbn [select_scan]. unfold bindM.
  assert (select_fd fd (f, k) s = Done (f, k) s) as ->; [|apply IH; intros; apply H; lia].
  specialize (H fd ltac:(lia)). unfold select_fd, bindM, asked in *. rewrite H.
  unfold retM, settle_all, settle, isset_in in *. destruct f as [[r|] [w|] [e|]]; cbn in *;
    repeat (apply orb_false_iff in H as [H ?]); cbn;
    repeat match goal with E : ak_isset _ _ = false |- _ => rewrite E end; done.
Qed.

End Pass.

(** ** The clock between two rounds *)

Section Clock.
Context {W : Type} `{!Bridge W} (clock : W -> Z) `{!ClockLaws W clock}.

Definition later (w w' : W) : Prop := clock w <= clock w'.

#[export] Instance later_preorder : PreOrder later.
Proof. split; unfold later; [intros w; lia | intros w1 w2 w3; lia]. Qed.

Lemma later_poll h w : later w (aknet_sock_poll h w).2.
Proof. apply poll_clock. Qed.

Lemma ak_now_clock (s : gs W) :
  exists w, ak_now s = Done (clock (world s)) (with_world w s) /\ later (world s) w.
Proof.
  unfold ak_now, call, later. pose proof (rdtime_clock (world s)) as H1.
  pose proof (rdtime_world (world s)) as H2. destruct (aegir_rdtime _) as [t w].
  cbn in *. subst. eauto.
Qed.

(** A slice advances the clock by its length, or at least to any deadline
    that is not within a slice of the counter's end. *)
Lemma ak_sleep_slice_clock (s : gs W) :
  exists w, ak_sleep_slice s = Done tt (with_world w s) /\ later (world s) w
    /\ forall d, d + AK_SLICE < 2 ^ 64 -> Z.min d (clock (world s) + AK_SLICE) <= clock w.
Proof.
  unfold ak_sleep_slice, bindM. destruct (ak_now_clock s) as (w1 & -> & H1).
  unfold call. cbn. pose proof (sleep_clock (u64 (clock (world s) + AK_SLICE)) w1 (u64_range _)) as H2.
  destruct (aegir_sys_sleep_until _ w1) as [r w2]. cbn in *. exists w2.
  unfold later in *. split_and!; [done|lia|]. intros d Hd.
  pose proof (clock_u64 (world s)) as H3. unfold AK_SLICE in *. int_lia.
Qed.

(** The rounds of a timed wait that are still possible. *)
Definition rounds_left (deadline : Z) (s : gs W) : nat :=
  Z.to_nat ((deadline - clock (world s) + AK_SLICE - 1) / AK_SLICE).

(** The end of a round of a timed wait: leave at the deadline, else sleep one
    slice and go on. *)
Lemma timed_tail {X A} (d : Z) (done : A) (next : X) (s : gs W) (c0 : Z) :
  d + AK_SLICE < 2 ^ 64 -> c0 <= clock (world s) -> c0 <= d ->
  wp (let* now := ak_now in
      if d <=? now then retM (inr done) else ak_sleep_slice ;; retM (inl next))
    (fun r s' => ak_fds s' = ak_fds s /\ later (world s) (world s') /\
       match r with
       | inl x => x = next
           /\ (rounds_left d s' < Z.to_nat ((d - c0 + AK_SLICE - 1) / AK_SLICE))%nat
       | inr a => a = done /\ d <= clock (world s')
       end) s.
Proof.
  intros Hd Hc0 Hle. apply wp_bind. unfold wp.
  destruct (ak_now_clock s) as (w1 & -> & H1). unfold later in *.
  destruct (d <=? clock (world s)) eqn:E; bool_to_prop.
  - cbn. repeat split; cbn; [lia..].
  - unfold bindM. destruct (ak_sleep_slice_clock (with_world w1 s)) as (w2 & -> & H2 & H3).
    unfold later in *. cbn in *. specialize (H3 d Hd). repeat split; [lia|].
    unfold rounds_left. cbn. unfold AK_SLICE in *. zlia.
Qed.

End Clock.

(** ** Properties of select *)

Definition clamp_nfds (nfds : Z) : nat := Z.to_nat (if AK_FD_MAX <? nfds then AK_FD_MAX else nfds).

Lemma clamp_nfds_le nfds : Z.of_nat (clamp_nfds nfds) <= AK_FD_MAX.
Proof. unfold clamp_nfds, AK_FD_MAX. split_if; bool_to_prop; lia. Qed.

Section SelectSpec.
Context {W : Type} `{!Bridge W}.

(** A round whose pass finds nothing leaves no descriptor to ask about. *)
Lemma idle_pass_empties n f (s : gs W) f1 s1 :
  fdsets_wf f -> Z.of_nat n <= AK_FD_MAX -> select_scan n 0 (f, 0) s = Done (f1, 0) s1 ->
  fdsets_wf f1 /\ forall x, 0 <= x < Z.of_nat n -> asked f1 x = false.
Proof.
  intros Hwf Hn H. apply select_scan_spec in H as (obs & Hp & Hk & _); [|done|lia..].
  split; [by eapply pass_wf|]. intros x Hx. apply (count_all_zero n 0); lia.
Qed.

Lemma sleep_slice_done (s : gs W) : exists w, ak_sleep_slice s = Done tt (with_world w s).
Proof.
  unfold ak_sleep_slice, ak_now, bindM, call. destruct (aegir_rdtime _) as [t w].
  cbn. destruct (aegir_sys_sleep_until _ w) as [r w']. by exists w'.
Qed.

Lemma select_scan_done n fd st (s : gs W) :
  exists st' w, select_scan n fd st s = Done st' (with_world w s).
Proof.
  destruct (quiet_select_scan any_world (fun _ _ => I) n fd st s) as (a & w & E & _). eauto.
Qed.

(** Once the sets are empty no later round reports anything. *)
Lemma select_round_idle nfds dl f (s : gs W) r s' :
  (forall x, 0 <= x < Z.of_nat (Z.to_nat nfds) -> asked f x = false) ->
  select_round nfds dl f s = Done r s' -> r = inl f \/ r = inr (0, f).
Proof.
  intros Hf. unfold select_round, bindM. rewrite select_scan_idle by (intros; apply Hf; lia). cbn.
  destruct dl as [d|]; [destruct (ak_now s) as [t s1|]; [|done]; destruct (d <=? t)|];
    try (by intros [= <- _]; auto); destruct (ak_sleep_slice _); try done; intros [= <- _]; auto.
Qed.

Lemma select_iter_idle fuel nfds dl f (s : gs W) n f' s' :
  (forall x, 0 <= x < Z.of_nat (Z.to_nat nfds) -> asked f x = false) ->
  iterM fuel (select_round nfds dl) f s = Done (n, f') s' -> n = 0 /\ f' = f.
Proof.
  intros Hf. revert s. induction fuel as [|k IH]; intros s; [done|].
  cbn [iterM]. unfold bindM. destruct (select_round nfds dl f s) as [r s1|] eqn:E; [|done].
  destruct (select_round_idle _ _ _ _ _ _ Hf E) as [->| ->]; [apply IH|by intros [= <- <- _]].
Qed.

End SelectSpec.

Section SelectTheorems.
Context {W : Type} `{!Bridge W}.

(** The two ways a [select] that returns can have run: its first pass found
    something, or it reports nothing. *)
Lemma select_first_pass fuel nfds f tmo (s : gs W) n f' s' :
  fdsets_wf f -> select fuel nfds f tmo s = Done (n, f') s' -> 0 < n ->
  exists s0 s1, ak_fds s0 = ak_fds s /\ select_scan (clamp_nfds nfds) 0 (f, 0) s0 = Done (f', n) s1.
Proof.
  intros Hwf. unfold select. unfold bindM at 1.
  set (dl := match tmo with Some _ => _ | None => _ end).
  assert (exists d w, dl s = Done d (with_world w s)) as (d & w & ->).
  { unfold dl. destruct tmo as [[sec usec]|].
    - unfold bindM, ak_now, call. destruct (aegir_rdtime _). eauto.
    - exists None, (world s). by rewrite with_world_id. }
  change (Z.to_nat _) with (clamp_nfds nfds). intros H Hn.
  destruct fuel as [|k]; [done|]. cbn [iterM] in H. unfold bindM at 1 in H.
  unfold select_round at 1 in H. unfold bindM at 1 in H. fold (clamp_nfds nfds) in H.
  destruct (select_scan _ _ _ _) as [[f1 n1] s1|] eqn:E; [|done].
  destruct (0 <? n1) eqn:E1.
  - unfold retM in H. injection H as -> -> ->. eexists _, _. split; [|exact E]. done.
  - exfalso. assert (n1 = 0) as ->.
    { pose proof E as E'. apply select_scan_spec in E' as (obs & _ & Hk & _); [|done|lia|apply clamp_nfds_le].
      pose proof (count_all_nonneg (clamp_nfds nfds) 0 f1). bool_to_prop. lia. }
    destruct (idle_pass_empties _ _ _ _ _ Hwf (clamp_nfds_le nfds) E) as [_ Hidle].
    fold (@select_round W _) in H.
    match type of H with (match ?c with _ => _ end = _) => destruct c as [r s2|] eqn:Er; [|done] end.
    assert (r = inl f1 \/ r = inr (0, f1)) as [-> | ->].
    { clear H. destruct d as [d|]; cbn in Er; unfold bindM in Er;
        [destruct (ak_now s1) as [t s3|]; [|done]; destruct (d <=? t)|];
        try (injection Er as <- _; by auto); destruct (ak_sleep_slice _); try done;
        injection Er as <- _; by auto. }
    + apply (select_iter_idle k _ _ f1) in H; [lia|done].
    + injection H as <- _ _. lia.
Qed.

(** C21. What a positive [select] reports: there is one pass over the
    descriptors below [nfds] in which every descriptor asked about was
    examined by [ak_ready] on the table as it stands, with the mask [obs];
    a bit of the read, write or except set below [nfds] stays set exactly
    when its mask has bit 1, 2 or 4, all other bits are untouched, and the
    value returned is the number of bits left below [nfds]. *)
Theorem select_reports fuel nfds f tmo (s : gs W) n f' s' :
  fdsets_wf f -> select fuel nfds f tmo s = Done (n, f') s' -> 0 < n ->
  exists obs, pass obs 0 (Z.of_nat (clamp_nfds nfds)) f f'
    /\ n = count_all (clamp_nfds nfds) 0 f'
    /\ forall x, 0 <= x < Z.of_nat (clamp_nfds nfds) -> asked f x = true ->
         exists s1 s2, ak_fds s1 = ak_fds s /\ ak_ready x s1 = Done (obs x) s2.
Proof.
  intros Hwf H Hn. destruct (select_first_pass _ _ _ _ _ _ _ _ Hwf H Hn) as (s0 & s1 & Hs0 & E).
  apply select_scan_spec in E as (obs & Hp & Hk & Ha); [|done|lia|apply clamp_nfds_le].
  exists obs. split_and!; [done|lia|]. intros x Hx Hax.
  destruct (Ha x Hx Hax) as (t1 & t2 & Ht & Hr). exists t1, t2. by rewrite Ht, Hs0.
Qed.

(** C33. A wait without a timeout whose first pass finds nothing ready never
    returns, whatever becomes ready later: the pass has cleared every bit it
    would have to look at again. *)
Theorem select_forgets nfds f (s s1 : gs W) f1 :
  fdsets_wf f -> select_scan (clamp_nfds nfds) 0 (f, 0) s = Done (f1, 0) s1 ->
  forall fuel, exists s', select fuel nfds f None s = Blocked s'.
Proof.
  intros Hwf H [|fuel]; [by eexists|].
  destruct (idle_pass_empties _ _ _ _ _ Hwf (clamp_nfds_le nfds) H) as [_ Hidle].
  unfold select, bindM at 1, retM at 1. cbn [iterM]. unfold bindM at 1.
  unfold select_round at 1, bindM at 1. fold (clamp_nfds nfds). rewrite H. cbn [Z.ltb Z.compare].
  destruct (sleep_slice_done s1) as [w E]. unfold bindM at 1. rewrite E. cbn [retM].
  apply (iter_diverges _ (fun f _ => f = f1)); [|done].
  intros f2 s2 ->. unfold wp, select_round, bindM. fold (clamp_nfds nfds).
  rewrite select_scan_idle by done. cbn.
  destruct (sleep_slice_done s2) as [w2 ->]. cbn. eauto.
Qed.

End SelectTheorems.

Section SelectTimed.
Context {W : Type} `{!Bridge W} (clock : W -> Z) `{!ClockLaws W clock}.

Lemma select_round_timed nfds d f (s : gs W) :
  let N := clamp_nfds nfds in
  fdsets_wf f -> d + AK_SLICE < 2 ^ 64 ->
  wp (select_round (if AK_FD_MAX <? nfds then AK_FD_MAX else nfds) (Some d) f)
    (fun r s' => match r with
       | inl f' => fdsets_wf f' /\ (rounds_left clock d s' < rounds_left clock d s)%nat
       | inr (n, f') => n = count_all N 0 f' /\ (n = 0 -> d <= clock (world s'))
       end) s.
Proof.
  intros N Hwf Hd. unfold select_round. apply wp_bind. fold (clamp_nfds nfds). fold N.
  destruct (quiet_select_scan (later clock) (later_poll clock) N 0 (f, 0) s)
    as ([f1 k] & w & E & Hl).
  unfold wp at 1. rewrite E.
  apply select_scan_spec in E as (obs & Hp & Hk & _); [|done|lia|apply clamp_nfds_le].
  destruct (0 <? k) eqn:Ek; bool_to_prop; [cbn; split; lia|].
  destruct (decide (clock (world s) <= d)) as [Hcd|Hcd].
  - eapply wp_mono; [|apply (timed_tail clock d (0, f1) f1 (with_world w s) (clock (world s)));
      [done|exact Hl|done]].
    assert (k = 0) as -> by (pose proof (count_all_nonneg N 0 f1); lia).
    intros [f'|[n f']] s'; cbn; intros (_ & Hl' & H).
    + destruct H as [-> H]. split; [by eapply pass_wf|exact H].
    + destruct H as [[= -> ->] H]. split; [lia|done].
  - apply wp_bind. unfold wp at 1. destruct (ak_now_clock clock (with_world w s)) as (w1 & -> & Hl1).
    unfold later in *. cbn in *. replace (d <=? clock w) with true by (symmetry; apply Z.leb_le; lia).
    cbn. pose proof (count_all_nonneg N 0 f1). split; [lia|]. intros _. lia.
Qed.

(** A [select] with a timeout always returns, within one round per 5 ms
    slice of the timeout and two more; the value it returns is the number of
    bits left below [nfds], and when that is 0 the deadline has passed. *)
Theorem select_timed_returns fuel nfds f sec usec (s : gs W) :
  fdsets_wf f -> 0 <= sec -> 0 <= usec ->
  clock (world s) + sec * AK_TICK_HZ + usec * 10 + AK_SLICE < 2 ^ 64 ->
  (sec * AK_TICK_HZ + usec * 10) / AK_SLICE + 2 <= Z.of_nat fuel ->
  wp (select fuel nfds f (Some (sec, usec)))
    (fun '(n, f') s' =>
       n = count_all (clamp_nfds nfds) 0 f'
       /\ (n = 0 -> clock (world s) + sec * AK_TICK_HZ + usec * 10 <= clock (world s'))) s.
Proof.
  intros Hwf Hs Hu Hw Hf. unfold select. apply wp_bind, wp_bind. unfold wp at 1.
  destruct (ak_now_clock clock s) as (w & -> & Hl). unfold wp at 1, retM.
  set (d := u64 _).
  assert (d = clock (world s) + sec * AK_TICK_HZ + usec * 10) as Hd.
  { unfold d. change (AK_TICK_HZ / 1000000) with 10. pose proof (clock_u64 (world s)).
    unfold AK_TICK_HZ, AK_SLICE in *. rewrite !(u64_id sec), !(u64_id usec) by int_lia.
    apply u64_id. int_lia. }
  eapply (iter_terminates _ (fun f _ => fdsets_wf f) _ (fun _ => rounds_left clock d)); [| |].
  - intros f2 s2 Hwf2. eapply wp_mono; [|apply select_round_timed; [done|rewrite Hd; lia]].
    intros [f'|[n f']] s' H; [exact H|]. cbn in H. destruct H as [-> H]. rewrite <- Hd. auto.
  - done.
  - clearbody d. unfold rounds_left, later in *. cbn. unfold AK_SLICE, AK_TICK_HZ in *. zlia.
Qed.

End SelectTimed.

(** ** Properties of poll *)

(** The same descriptors and requested events. *)
Definition same_request (p p' : ak_pollfd) : Prop := p_fd p = p_fd p' /\ p_events p = p_events p'.

#[export] Instance same_request_equiv : Equivalence same_request.
Proof. split; unfold same_request; [done|by intros p q [-> ->]|by intros p q r [-> ->] [-> ->]]. Qed.

(** [revents] for an open descriptor seen with mask [m]. *)
Definition revents_spec (events m : Z) : Z :=
  (if Z.testbit events 0 && Z.testbit m 0 then AK_POLLIN else 0)
  + (if Z.testbit events 2 && Z.testbit m 1 then AK_POLLOUT else 0)
  + (if Z.testbit m 2 then AK_POLLERR else 0).

Definition raised (l : list ak_pollfd) : Z :=
  Z.of_nat (length (filter (fun p => p_revents p <> 0) l)).

Lemma land_pow2_testbit a k : 0 <= k -> negb (Z.land a (2 ^ k) =? 0) = Z.testbit a k.
Proof.
  intros Hk. destruct (Z.testbit a k) eqn:E.
  - apply negb_true_iff, Z.eqb_neq. intros H. apply (f_equal (fun x => Z.testbit x k)) in H.
    by rewrite Z.land_spec, Z.pow2_bits_true, E, Z.bits_0 in H by lia.
  - apply negb_false_iff, Z.eqb_eq, Z.bits_inj'. intros n Hn.
    rewrite Z.land_spec, Z.pow2_bits_eqb, Z.bits_0 by lia.
    destruct (k =? n) eqn:Ek; [|apply andb_false_r]. apply Z.eqb_eq in Ek as <-. by rewrite E.
Qed.

Lemma same_request_refl_list l : Forall2 same_request l l.
Proof. induction l; by constructor. Qed.

Section PollSpec.
Context {W : Type} `{!Bridge W}.

(** What one pass of poll leaves of an entry. *)
Definition polled (s : gs W) (p p' : ak_pollfd) : Prop :=
  same_request p p' /\
  exists m s1 s2, ak_fds s1 = ak_fds s /\ ak_ready (p_fd p) s1 = Done m s2
    /\ p_revents p' = match ak_get (p_fd p) s with
                      | None => AK_POLLNVAL
                      | Some _ => revents_spec (p_events p) m
                      end.

Lemma ak_get_fds fd (s s' : gs W) : ak_fds s' = ak_fds s -> ak_get fd s' = ak_get fd s.
Proof. intros H. unfold ak_get, sock_at. by rewrite H. Qed.

Lemma poll_fd_spec p (s : gs W) p' b s' :
  poll_fd p s = Done (p', b) s' ->
  polled s p p' /\ b = negb (p_revents p' =? 0) /\ ak_fds s' = ak_fds s.
Proof.
  unfold poll_fd, bindM. destruct (ak_ready (p_fd p) s) as [m s1|] eqn:E; [|done].
  pose proof (ready_fds _ _ _ _ E) as Hf. unfold getsM.
  rewrite (ak_get_fds _ _ _ Hf). unfold polled.
  assert (forall r, match ak_get (p_fd p) s with
                    | None => r = AK_POLLNVAL | Some _ => r = revents_spec (p_events p) m end ->
    exists m s1 s2, ak_fds s1 = ak_fds s /\ ak_ready (p_fd p) s1 = Done m s2
      /\ r = match ak_get (p_fd p) s with
             | None => AK_POLLNVAL | Some _ => revents_spec (p_events p) m end) as Hex.
  { intros r Hr. exists m, s, s1. split_and!; [done..|]. by destruct (ak_get _ _). }
  destruct (ak_get (p_fd p) s) as [e|].
  - intros [= <- <- <-]. split; [split; [done|]|by split]. apply Hex. cbn.
    pose proof (land_pow2_testbit (p_events p) 0 ltac:(lia)) as E0.
    pose proof (land_pow2_testbit (p_events p) 2 ltac:(lia)) as E2.
    pose proof (land_pow2_testbit m 0 ltac:(lia)) as M0.
    pose proof (land_pow2_testbit m 1 ltac:(lia)) as M1.
    pose proof (land_pow2_testbit m 2 ltac:(lia)) as M2.
    change (2 ^ 0) with 1 in *. change (2 ^ 1) with 2 in *. change (2 ^ 2) with 4 in *.
    unfold AK_POLLIN, AK_POLLOUT. rewrite E0, E2, M0, M1, M2. unfold revents_spec.
    by repeat (destruct (Z.testbit _ _)).
  - intros [= <- <- <-]. split; [split; [done|]|by split]. by apply Hex.
Qed.

Lemma raised_cons p l : raised (p :: l) = (if negb (p_revents p =? 0) then 1 else 0) + raised l.
Proof.
  unfold raised. rewrite filter_cons.
  destruct (p_revents p =? 0) eqn:E; bool_to_prop; case_decide; try done; cbn; lia.
Qed.

Lemma polled_fds (s s' : gs W) p p' : ak_fds s' = ak_fds s -> polled s' p p' -> polled s p p'.
Proof.
  intros H [Hr (m & s1 & s2 & Hf & Hm & He)]. split; [done|]. exists m, s1, s2.
  rewrite <- (ak_get_fds _ _ _ H). by rewrite Hf.
Qed.

Lemma poll_scan_spec l (s : gs W) l' n s' :
  poll_scan l s = Done (l', n) s' ->
  Forall2 (polled s) l l' /\ n = raised l' /\ ak_fds s' = ak_fds s.
Proof.
  revert s l' n s'. induction l as [|p l IH]; intros s l' n s'.
  { intros [= <- <- <-]. by split_and!. }
  cbn [poll_scan]. unfold bindM. destruct (poll_fd p s) as [[p1 b] s1|] eqn:E; [|done].
  apply poll_fd_spec in E as (Hp & -> & Hs1).
  destruct (poll_scan l s1) as [[l1 k] s2|] eqn:E; [|done].
  apply IH in E as (Hl & -> & Hs2). intros [= <- <- <-]. split_and!.
  - constructor; [done|]. eapply Forall2_impl; [exact Hl|]. intros. by eapply polled_fds.
  - rewrite raised_cons. split_if; lia.
  - congruence.
Qed.

(** A pass does not depend on the [revents] of the pass before. *)
Lemma poll_scan_request l l1 :
  Forall2 same_request l l1 -> forall s : gs W, poll_scan l1 s = poll_scan l s.
Proof.
  induction 1 as [|[fd ev r] [fd1 ev1 r1] l l1 [Hf He] Hl IH]; intros s; [done|].
  cbn in Hf, He. subst fd1 ev1. cbn [poll_scan]. unfold bindM.
  change (poll_fd (PollFd fd ev r1) s) with (poll_fd (PollFd fd ev r) s).
  destruct (poll_fd _ s) as [[p' b] s1|]; [|done]. by rewrite IH.
Qed.

Lemma polled_request s l l' : Forall2 (polled s) l l' -> Forall2 same_request l l'.
Proof. intros H. eapply Forall2_impl; [exact H|]. by intros p p' [? _]. Qed.

(** [idle_rounds l k s s']: [k] rounds of a wait on [l] found nothing and
    lead from [s] to [s']. *)
Inductive idle_rounds (l : list ak_pollfd) : nat -> gs W -> gs W -> Prop :=
| idle_none s : idle_rounds l 0 s s
| idle_round k s l1 s1 s2 s3 :
    poll_scan l s = Done (l1, 0) s1 -> ak_sleep_slice s1 = Done tt s2 ->
    idle_rounds l k s2 s3 -> idle_rounds l (S k) s s3.

Lemma poll_iter_wakes l k (s s1 s2 : gs W) l0 l' n d :
  idle_rounds l k s s1 -> poll_scan l s1 = Done (l', n) s2 -> 0 < n ->
  Forall2 same_request l l0 ->
  iterM (S k) (poll_round true d) l0 s = Done (n, l') s2.
Proof.
  intros Hi. revert l0. induction Hi as [s|k s l1 sa sb sc Hscan Hsl Hi IH]; intros l0 Hs Hn Hl.
  - cbn [iterM]. unfold bindM, poll_round. unfold bindM.
    rewrite (poll_scan_request l) by done. rewrite Hs.
    by replace (0 <? n) with true by (symmetry; by apply Z.ltb_lt).
  - remember (S k) as k'. cbn [iterM]. unfold bindM at 1, poll_round at 1. unfold bindM at 1.
    rewrite (poll_scan_request l), Hscan by done. cbn [Z.ltb Z.compare]. unfold bindM.
    rewrite Hsl. cbn. subst k'. apply IH; [done..|].
    apply poll_scan_spec in Hscan as (Hp & _). by eapply polled_request.
Qed.

Lemma poll_iter_reports fuel inf d l l0 (s s0 : gs W) n l' s' :
  Forall2 same_request l l0 -> ak_fds s = ak_fds s0 ->
  iterM fuel (poll_round inf d) l0 s = Done (n, l') s' ->
  Forall2 (polled s0) l l' /\ n = raised l'.
Proof.
  revert l0 s. induction fuel as [|k IH]; intros l0 s Hl Hs; [done|].
  cbn [iterM]. unfold bindM at 1, poll_round at 1. unfold bindM at 1.
  rewrite (poll_scan_request l l0) by done.
  destruct (poll_scan l s) as [[l1 k1] s1|] eqn:E; [|done].
  apply poll_scan_spec in E as (Hp & -> & Hs1).
  assert (Forall2 (polled s0) l l1) as Hp0.
  { eapply Forall2_impl; [exact Hp|]. intros. by eapply polled_fds. }
  destruct (0 <? raised l1) eqn:Ek; [by intros [= <- <- _]|]. bool_to_prop.
  assert (raised l1 = 0) as H0 by (unfold raised in *; lia).
  assert (forall s2 w, ak_fds s2 = ak_fds s1 ->
    iterM k (poll_round inf d) l1 (with_world w s2) = Done (n, l') s' ->
    Forall2 (polled s0) l l' /\ n = raised l') as Hgo.
  { intros s2 w Hs2. apply IH; [by eapply polled_request|cbn; congruence]. }
  destruct inf.
  - unfold bindM. destruct (sleep_slice_done s1) as [w ->]. cbn. by apply Hgo.
  - unfold bindM. unfold ak_now, call. destruct (aegir_rdtime _) as [t w].
    destruct (d <=? t); [intros [= <- <- _]; by rewrite H0|].
    destruct (sleep_slice_done (with_world w s1)) as [w2 ->]. cbn. by apply (Hgo (with_world w s1) w2).
Qed.

(** C8. What [poll] reports: each entry keeps its descriptor and requested
    events; its [revents] is POLLNVAL for a descriptor not in the table, and
    otherwise POLLIN and POLLOUT where requested and seen by [ak_ready], with
    POLLERR whenever [ak_ready] saw an error; the value returned is the
    number of entries with some event. *)
Theorem poll_reports fuel l tmo (s : gs W) n l' s' :
  poll fuel l tmo s = Done (n, l') s' -> Forall2 (polled s) l l' /\ n = raised l'.
Proof.
  unfold poll, bindM, ak_now, call. destruct (aegir_rdtime _) as [t w]. cbn.
  apply poll_iter_reports; [|done]. apply same_request_refl_list.
Qed.

(** C32. [poll] does not lose a wake-up: when a wait without a timeout has
    seen any number of idle rounds and the next pass finds something, it
    returns what that pass found. *)
Theorem poll_wakes l k tmo (s s0 s1 s2 : gs W) t l' n :
  tmo < 0 -> ak_now s = Done t s0 -> idle_rounds l k s0 s1 ->
  poll_scan l s1 = Done (l', n) s2 -> 0 < n ->
  poll (S k) l tmo s = Done (n, l') s2.
Proof.
  intros Ht Hnow Hi Hs Hn. unfold poll. unfold bindM at 1. rewrite Hnow.
  replace (tmo <? 0) with true by (symmetry; by apply Z.ltb_lt).
  eapply poll_iter_wakes; [done..|]. apply same_request_refl_list.
Qed.

End PollSpec.

Section PollTimed.
Context {W : Type} `{!Bridge W} (clock : W -> Z) `{!ClockLaws W clock}.

Lemma poll_round_timed d l (s : gs W) :
  d + AK_SLICE < 2 ^ 64 ->
  wp (poll_round false d l)
    (fun r s' => match r with
       | inl _ => (rounds_left clock d s' < rounds_left clock d s)%nat
       | inr (n, l') => n = raised l' /\ (n = 0 -> d <= clock (world s'))
       end) s.
Proof.
  intros Hd. unfold poll_round. apply wp_bind.
  destruct (quiet_poll_scan (later clock) (later_poll clock) l s) as ([l1 k] & w & E & Hl).
  unfold wp at 1. rewrite E. apply poll_scan_spec in E as (_ & -> & _).
  destruct (0 <? raised l1) eqn:Ek; bool_to_prop; [cbn; split; lia|].
  assert (raised l1 = 0) as H0 by (unfold raised in *; lia).
  destruct (decide (clock (world s) <= d)) as [Hcd|Hcd].
  - eapply wp_mono; [|apply (timed_tail clock d (0, l1) l1 (with_world w s) (clock (world s)));
      [done|exact Hl|done]].
    intros [f'|[n f']] s'; cbn; intros (_ & Hl' & H); [by destruct H as [-> H]|].
    destruct H as [[= -> ->] H]. by rewrite H0.
  - apply wp_bind. unfold wp at 1. destruct (ak_now_clock clock (with_world w s)) as (w1 & -> & Hl1).
    unfold later in *. cbn in *. replace (d <=? clock w) with true by (symmetry; apply Z.leb_le; lia).
    cbn. split; [done|]. intros _. lia.
Qed.

(** A [poll] with a timeout always returns, within one round per 5 ms
    slice of the timeout and two more, and returns 0 only after the
    deadline. *)
Theorem poll_timed_returns fuel l tmo (s : gs W) :
  0 <= tmo < 2 ^ 31 -> clock (world s) + tmo * 10000 + AK_SLICE < 2 ^ 64 ->
  tmo * 10000 / AK_SLICE + 2 <= Z.of_nat fuel ->
  wp (poll fuel l tmo)
    (fun '(n, l') s' => n = raised l' /\ (n = 0 -> clock (world s) + tmo * 10000 <= clock (world s'))) s.
Proof.
  intros Ht Hw Hf. unfold poll. apply wp_bind. unfold wp at 1.
  destruct (ak_now_clock clock s) as (w & -> & Hl).
  replace (tmo <? 0) with false by (symmetry; apply Z.ltb_ge; lia). cbv zeta.
  set (d := u64 _).
  assert (d = clock (world s) + tmo * 10000) as Hd.
  { unfold d. change (AK_TICK_HZ / 1000) with 10000. pose proof (clock_u64 (world s)).
    unfold AK_SLICE in *. rewrite !(u64_id tmo) by int_lia. apply u64_id. int_lia. }
  clearbody d. eapply (iter_terminates _ (fun _ _ => True) _ (fun _ => rounds_left clock d)); [|done|].
  - intros f2 s2 _. eapply wp_mono; [|apply poll_round_timed; rewrite Hd; lia].
    intros [f'|[n f']] s' H; [by split|]. rewrite <- Hd. exact H.
  - unfold rounds_left, later in *. cbn. unfold AK_SLICE in *. zlia.
Qed.

End PollTimed.

(** ** Examples *)

Definition demo_fs : fdsets := FdSets (Some (ak_setbit (replicate 32 0) 3)) None None.

Lemma demo_fs_wf : fdsets_wf demo_fs.
Proof.
  split_and!; cbn; [|done|done]. apply ak_setbit_wf. split; [done|]. by repeat constructor.
Qed.

(** A stream socket with data waiting; one that becomes readable after the
    first poll; one that never does. *)
Definition demo_ready : gs script := demo_open AK_SOCK_STREAM [PollReply AK_ST_OK 1 4 0] [] [] [].
Definition demo_late : gs script :=
  demo_open AK_SOCK_STREAM [PollReply AK_ST_OK 0 4 0; PollReply AK_ST_OK 1 4 0] [] [] [].
Definition demo_pfd : list ak_pollfd := [PollFd 3 AK_POLLIN 0; PollFd 7 AK_POLLIN 0].
Definition demo_pfd1 : list ak_pollfd := [PollFd 3 AK_POLLIN 0].

Lemma select_reports_witness :
  exists obs, pass obs 0 4 demo_fs demo_fs /\ 1 = count_all 4 0 demo_fs
    /\ forall x, 0 <= x < 4 -> asked demo_fs x = true ->
         exists s1 s2, ak_fds s1 = ak_fds demo_ready /\ ak_ready x s1 = Done (obs x) s2.
Proof.
  apply (select_reports 1 4 demo_fs None demo_ready 1 demo_fs
           (out_state (select 1 4 demo_fs None demo_ready)) demo_fs_wf);
    [vm_compute; reflexivity | lia].
Defined.

Lemma select_forgets_witness :
  fdsets_wf demo_fs /\
  forall fuel, exists s', select fuel 4 demo_fs None demo_late = Blocked s'.
Proof.
  split; [exact demo_fs_wf|].
  apply (select_forgets 4 demo_fs demo_late
           (out_state (select_scan 4 0 (demo_fs, 0) demo_late))
           (FdSets (Some (replicate 32 0)) None None) demo_fs_wf).
  vm_compute. reflexivity.
Defined.

Lemma select_timed_returns_witness :
  wp (select 4 4 demo_fs (Some (0, 10000)))
    (fun '(n, f') s' => n = count_all (clamp_nfds 4) 0 f'
       /\ (n = 0 -> script_clock (world demo_late) + 0 * AK_TICK_HZ + 10000 * 10
                     <= script_clock (world s'))) demo_late.
Proof.
  apply (select_timed_returns script_clock 4 4 demo_fs 0 10000 demo_late demo_fs_wf);
    [lia | lia | vm_compute; reflexivity | vm_compute; discriminate].
Defined.

Lemma poll_reports_witness :
  Forall2 (polled demo_ready) demo_pfd [PollFd 3 AK_POLLIN AK_POLLIN; PollFd 7 AK_POLLIN AK_POLLNVAL]
  /\ 2 = raised [PollFd 3 AK_POLLIN AK_POLLIN; PollFd 7 AK_POLLIN AK_POLLNVAL].
Proof.
  apply (poll_reports 1 demo_pfd 0 demo_ready 2 _ (out_state (poll 1 demo_pfd 0 demo_ready))).
  vm_compute. reflexivity.
Defined.

Lemma poll_wakes_witness :
  poll 2 demo_pfd1 (-1) demo_late
  = Done (1, [PollFd 3 AK_POLLIN AK_POLLIN]) (out_state (poll 2 demo_pfd1 (-1) demo_late)).
Proof.
  apply (poll_wakes demo_pfd1 1 (-1) demo_late
    (out_state (ak_now demo_late))
    (out_state (ak_sleep_slice (out_state (poll_scan demo_pfd1 (out_state (ak_now demo_late))))))
    _ (script_clock (world demo_late)) [PollFd 3 AK_POLLIN AK_POLLIN] 1).
  - lia.
  - vm_compute. reflexivity.
  - eapply (idle_round demo_pfd1 0 _ demo_pfd1
      (out_state (poll_scan demo_pfd1 (out_state (ak_now demo_late)))));
      [vm_compute; reflexivity | vm_compute; reflexivity | apply idle_none].
  - vm_compute. reflexivity.
  - lia.
Defined.

Lemma poll_timed_returns_witness :
  wp (poll 4 demo_pfd1 10)
    (fun '(n, l') s' => n = raised l'
       /\ (n = 0 -> script_clock (world demo_late) + 10 * 10000 <= script_clock (world s'))) demo_late.
Proof.
  apply (poll_timed_returns script_clock 4 demo_pfd1 10 demo_late);
    [lia | vm_compute; reflexivity | vm_compute; discriminate].
Defined.
