(* ===== verification/Signalling.v ===== *)
(** * Selector abort pairs of aegir_gsocket.c

    In-process flag pairs that live in the descriptor table: a read end with
    a count of unread bytes and a write end that names it as its partner. *)
From S2P Require Import Prelude CInt Bridge FdTable SockCalls.

Section Signalling.
Context {W : Type} `{!Bridge W}.

(** The pair stored at [fds[0]], [fds[1]]. *)
Definition gnat_create_signalling_fds : M (gs W) (Z * option (Z * Z)) :=
  let* r := ak_alloc in
  if r <? 0 then retM (-1, None)
  else
    let* w := ak_alloc in
    if w <? 0 then upd_fd r (set_used false) ;; retM (-1, None)
    else
      upd_fd r (set_kind AK_KIND_SIGR) ;;
      upd_fd w (set_kind AK_KIND_SIGW) ;;
      upd_fd r (set_partner w) ;;
      upd_fd w (set_partner r) ;;
      retM (0, Some (r, w)).

Definition gnat_read_signalling_fd (rsig : Z) : M (gs W) Z :=
  let* s := getsM (ak_get rsig) in
  match s with
  | Some e =>
      if negb (kind e =? AK_KIND_SIGR) then fail EBADF
      else if sig_count e =? 0 then fail EWOULDBLOCK
      else upd_fd rsig (set_sig_count (u32 (sig_count e - 1))) ;; retM 1
  | None => fail EBADF
  end.

Definition gnat_write_signalling_fd (wsig : Z) : M (gs W) Z :=
  let* s := getsM (ak_get wsig) in
  match s with
  | Some e =>
      if negb (kind e =? AK_KIND_SIGW) then fail EBADF
      else
        let* r := getsM (ak_get (partner e)) in
        match r with
        | None => fail EPIPE
        | Some re => upd_fd (partner e) (set_sig_count (u32 (sig_count re + 1))) ;; retM 1
        end
  | None => fail EBADF
  end.

Definition gnat_close_signalling_fd (sig : Z) : M (gs W) unit :=
  let* s := getsM (ak_get sig) in
  match s with
  | Some _ => upd_fd sig (set_used false)
  | None => retM tt
  end.

Definition gnat_disable_sigpipe (fd : Z) : M (gs W) unit := retM tt.
Definition gnat_disable_all_sigpipes : M (gs W) unit := retM tt.

Definition aknet_get_errno : M (gs W) Z := getsM errno.
Definition gnat_get_h_errno : M (gs W) Z := getsM ak_h_errno.

End Signalling.
