(* ===== verification/Inet.v ===== *)
(** * Dotted-decimal addresses of aegir_gsocket.c

    [ak_parse_dotted], [__gnat_inet_pton], [__gnat_inet_ntop].  A C string is
    the list of its bytes before the NUL; reading past the list reads the
    NUL. *)
From S2P Require Import Prelude CInt Bridge FdTable.

Definition is_digit (c : Z) : bool := (48 <=? c) && (c <=? 57).

(** ['.'], NUL, space, newline, carriage return, tab *)
Definition is_sep (c : Z) : bool :=
  (c =? 46) || (c =? 0) || (c =? 32) || (c =? 10) || (c =? 13) || (c =? 9).

(** The parser's scan: [dst] holds the [part] bytes stored so far.  The
    result is the stored bytes and the value returned. *)
Fixpoint ak_parse_scan (src : list Z) (dst : list Z) (part val digits : Z)
  : list Z * Z :=
  let sep (c : Z) (k : list Z * Z) : list Z * Z :=
    if is_sep c && (0 <? digits) then k else (dst, 0) in
  match src with
  | c :: src' =>
      if is_digit c then
        let val' := val * 10 + (c - 48) in
        if 255 <? val' then (dst, 0)
        else ak_parse_scan src' dst part val' (digits + 1)
      else
        sep c (let dst' := dst ++ [u8 val] in
               if negb (c =? 46) then (dst', if part + 1 =? 4 then 1 else 0)
               else if part + 1 =? 4 then (dst', 0)
               else ak_parse_scan src' dst' (part + 1) 0 0)
  | [] => sep 0 (dst ++ [u8 val], if part + 1 =? 4 then 1 else 0)
  end.

Definition ak_parse_dotted (src : list Z) : list Z * Z := ak_parse_scan src [] 0 0 0.

(** The four bytes a successful parse stored. *)
Definition addr4_of (l : list Z) : addr4 := A4 (l !!! 0%nat) (l !!! 1%nat) (l !!! 2%nat) (l !!! 3%nat).
Definition addr4_bytes (a : addr4) : list Z := [b0 a; b1 a; b2 a; b3 a].

(** ** printf("%u") *)

(** Decimal digits of [n], least significant first, with [fuel] digits at
    most; ten are enough for an [unsigned]. *)
Fixpoint dec_digits (fuel : nat) (n : Z) : list Z :=
  match fuel with
  | O => []
  | S k => (48 + n mod 10) :: (if n <? 10 then [] else dec_digits k (n / 10))
  end.

Definition fmt_u (n : Z) : list Z := rev (dec_digits 10 n).

(** What [snprintf] leaves in a buffer of [size] bytes: the text cut to
    [size - 1] bytes (the NUL follows). *)
Definition snprintf_buf (size : Z) (text : list Z) : list Z :=
  take (Z.to_nat (size - 1)) text.

Definition fmt_dotted (a : addr4) : list Z :=
  fmt_u (b0 a) ++ [46] ++ fmt_u (b1 a) ++ [46] ++ fmt_u (b2 a) ++ [46] ++ fmt_u (b3 a).

Section Inet.
Context {W : Type} `{!Bridge W}.

Definition gnat_inet_pton (af : Z) (src : list Z) : M (gs W) (Z * list Z) :=
  if negb (af =? AK_AF_INET) then set_errno EAFNOSUPPORT ;; retM (-1, [])
  else let '(dst, r) := ak_parse_dotted src in retM (r, dst).

(** Whether a pointer to [dst] is returned (else null), and the text left in
    [dst]. *)
Definition gnat_inet_ntop (af : Z) (src : addr4) (size : Z) : M (gs W) (bool * list Z) :=
  if negb (af =? AK_AF_INET) then set_errno EAFNOSUPPORT ;; retM (false, [])
  else
    let text := fmt_dotted src in
    if i32 size <=? Z.of_nat (length text) then
      set_errno ENOSPC ;; retM (false, snprintf_buf size text)
    else retM (true, snprintf_buf size text).

End Inet.

(** ** The grammar of dotted addresses *)

Definition dec_value (val : Z) (ds : list Z) : Z := fold_left (fun v c => v * 10 + (c - 48)) ds val.

(** A nonempty run of digits with value [v], at most 255. *)
Definition octet (ds : list Z) (v : Z) : Prop :=
  ds <> [] /\ Forall (fun c => is_digit c = true) ds /\ dec_value 0 ds = v /\ v <= 255.

(** The end of the text, a NUL or white space. *)
Definition terminator (rest : list Z) : Prop :=
  match rest with [] => True | c :: _ => is_sep c = true /\ c <> 46 end.

(** [n] octets separated by dots, then a terminator. *)
Inductive dotted : nat -> list Z -> list Z -> Prop :=
| dotted_last ds rest v : octet ds v -> terminator rest -> dotted 1 (ds ++ rest) [v]
| dotted_more n ds rest v vs :
    octet ds v -> dotted n rest vs -> dotted (S n) (ds ++ 46 :: rest) (v :: vs).

Lemma dec_value_ge val ds :
  0 <= val -> Forall (fun c => is_digit c = true) ds -> val <= dec_value val ds.
Proof.
  intros Hv Hd. revert val Hv. induction Hd as [|c ds Hc Hd IH]; intros val Hv; [unfold dec_value; cbn; lia|].
  unfold is_digit in Hc. bool_to_prop. change (val <= dec_value (val * 10 + (c - 48)) ds).
  etrans; [|apply IH]; lia.
Qed.

Lemma scan_digits ds : forall val dst part k rest,
  0 <= val -> Forall (fun c => is_digit c = true) ds -> dec_value val ds <= 255 ->
  ak_parse_scan (ds ++ rest) dst part val k
  = ak_parse_scan rest dst part (dec_value val ds) (k + Z.of_nat (length ds)).
Proof.
  induction ds as [|c ds IH]; intros val dst part k rest Hv Hd Hle.
  { cbn [app length Z.of_nat]. by rewrite Z.add_0_r. }
  apply Forall_cons in Hd as [Hc Hd]. cbn [app ak_parse_scan]. rewrite Hc.
  change (dec_value val (c :: ds)) with (dec_value (val * 10 + (c - 48)) ds) in *.
  assert (0 <= val * 10 + (c - 48)) as Hv' by (unfold is_digit in Hc; bool_to_prop; lia).
  pose proof (dec_value_ge _ _ Hv' Hd) as Hge.
  replace (255 <? val * 10 + (c - 48)) with false by (symmetry; apply Z.ltb_ge; lia).
  rewrite IH by done. f_equal. cbn [length]. lia.
Qed.

(** A successful scan has read one run of digits and then a dot, after which
    it goes on, or a terminator behind the fourth octet. *)
Lemma scan_sound src : forall dst part val k out,
  0 <= val <= 255 -> 0 <= k -> ak_parse_scan src dst part val k = (out, 1) ->
  exists ds rest, src = ds ++ rest /\ Forall (fun c => is_digit c = true) ds
    /\ dec_value val ds <= 255 /\ 0 < k + Z.of_nat (length ds)
    /\ ((exists rest', rest = 46 :: rest' /\ part + 1 <> 4
           /\ ak_parse_scan rest' (dst ++ [dec_value val ds]) (part + 1) 0 0 = (out, 1))
        \/ (terminator rest /\ part + 1 = 4 /\ out = dst ++ [dec_value val ds])).
Proof.
  induction src as [|c src IH]; intros dst part val k out Hv Hk; cbn [ak_parse_scan].
  - destruct (is_sep 0 && (0 <? k)) eqn:E; [|done]. bool_to_prop.
    destruct (part + 1 =? 4) eqn:Ep; [|done]. intros [= <-]. bool_to_prop. rewrite u8_id by int_lia.
    exists [], []. split_and!; [done..|unfold dec_value; cbn; lia|cbn; lia|by right].
  - destruct (is_digit c) eqn:Ed.
    + destruct (255 <? _) eqn:E; [done|]. bool_to_prop. intros H. apply IH in H; [| |lia].
      2: { unfold is_digit in Ed. bool_to_prop. lia. }
      destruct H as (ds & rest & -> & Hd & Hle & Hl & Hr). exists (c :: ds), rest.
      split_and!; [done|by constructor|done|cbn [length]; lia|exact Hr].
    + destruct (is_sep c && (0 <? k)) eqn:E; [|done]. intros H. bool_to_prop. rewrite u8_id in H by int_lia.
      exists [], (c :: src). split_and!; [done|done|unfold dec_value; cbn; lia|cbn; lia|].
      destruct (c =? 46) eqn:Ec; cbn [negb] in H; bool_to_prop.
      * left. exists src. destruct (part + 1 =? 4) eqn:Ep; [done|]. bool_to_prop. by subst c.
      * right. destruct (part + 1 =? 4) eqn:Ep; [|done]. bool_to_prop. injection H as <-. by split_and!.
Qed.

Lemma octet_intro ds :
  Forall (fun c => is_digit c = true) ds -> 0 < 0 + Z.of_nat (length ds) ->
  dec_value 0 ds <= 255 -> octet ds (dec_value 0 ds).
Proof. intros Hd Hl Hle. split_and!; [|done..]. intros ->. cbn in Hl. lia. Qed.

(** From octet [part] on. *)
Lemma scan_dotted n : forall part src dst out,
  part + Z.of_nat n = 3 -> ak_parse_scan src dst part 0 0 = (out, 1) ->
  exists vs, out = dst ++ vs /\ dotted (S n) src vs.
Proof.
  induction n as [|n IH]; intros part src dst out Hn H;
    apply scan_sound in H as (ds & rest & -> & Hd & Hle & Hl & [(rest' & -> & Hp & H)|(Ht & Hp & ->)]);
    try lia; pose proof (octet_intro ds Hd Hl Hle) as Ho.
  - exists [dec_value 0 ds]. split; [done|]. by constructor.
  - apply IH in H as (vs & -> & Hv); [|lia]. exists (dec_value 0 ds :: vs).
    rewrite <- app_assoc. split; [done|]. by constructor.
Qed.

Lemma dotted_scan n src vs :
  dotted n src vs -> forall part dst, part + Z.of_nat n = 4 ->
  ak_parse_scan src dst part 0 0 = (dst ++ vs, 1).
Proof.
  induction 1 as [ds rest v (Hne & Hd & <- & Hle) Ht|n ds rest v vs (Hne & Hd & <- & Hle) Hdot IH];
    intros part dst Hp; pose proof (dec_value_ge 0 ds ltac:(lia) Hd) as Hge;
    assert (0 <? 0 + Z.of_nat (length ds) = true) as Hl
      by (apply Z.ltb_lt; destruct ds; [done|cbn [length]; lia]);
    rewrite scan_digits by (try done; lia).
  - replace (part + 1) with 4 in * by lia. destruct rest as [|c rest]; cbn [ak_parse_scan].
    + rewrite Hl, u8_id by int_lia. cbn. by replace (part + 1 =? 4) with true by (symmetry; apply Z.eqb_eq; lia).
    + destruct Ht as [Hs Hc]. replace (is_digit c) with false.
      * rewrite Hs, Hl. cbn [andb]. apply Z.eqb_neq in Hc as ->. cbn [negb]. rewrite u8_id by int_lia.
        by replace (part + 1 =? 4) with true by (symmetry; apply Z.eqb_eq; lia).
      * unfold is_sep, is_digit in *. symmetry. apply andb_false_iff. rewrite !Z.leb_gt.
        repeat (apply orb_true_iff in Hs as [Hs|Hs]; [|apply Z.eqb_eq in Hs; lia]). apply Z.eqb_eq in Hs. lia.
  - cbn [ak_parse_scan]. change (is_digit 46) with false. change (is_sep 46) with true. cbn iota.
    rewrite Hl, u8_id by int_lia. cbn [andb Z.eqb Pos.eqb negb].
    assert (0 < Z.of_nat n) by (inversion Hdot; lia).
    replace (part + 1 =? 4) with false by (symmetry; apply Z.eqb_neq; lia).
    rewrite IH by lia. by rewrite <- app_assoc.
Qed.

(** The scan stores at most four bytes in all. *)
Lemma scan_bounded src : forall dst part val k out v,
  0 <= part -> part + 1 <= 4 -> Z.of_nat (length dst) = part -> Forall in_u8 dst ->
  ak_parse_scan src dst part val k = (out, v) ->
  Z.of_nat (length out) <= 4 /\ Forall in_u8 out /\ (v = 0 \/ v = 1).
Proof.
  assert (forall (dst : list Z) x part, Z.of_nat (length dst) = part -> part + 1 <= 4 -> Forall in_u8 dst ->
    Z.of_nat (length (dst ++ [u8 x])) = part + 1 /\ Forall in_u8 (dst ++ [u8 x])) as Hpush.
  { intros dst x part Hl Hp Hf. split; [rewrite length_app; cbn; lia|].
    apply Forall_app. split; [done|]. constructor; [apply u8_range|done]. }
  induction src as [|c src IH]; intros dst part val k out v H0 Hp Hl Hf; cbn [ak_parse_scan];
    destruct (Hpush dst val part Hl Hp Hf) as [Hl' Hf'].
  - destruct (_ && _); intros [= <- <-]; split_and!; try done; [lia| |lia|by left].
    destruct (_ =? _); auto.
  - destruct (is_digit c); [destruct (255 <? _); [intros [= <- <-]; split_and!; [lia|done|by left]|by apply IH]|].
    destruct (_ && _); [|intros [= <- <-]; split_and!; [lia|done|by left]].
    destruct (negb (c =? 46)).
    + intros [= <- <-]. split_and!; [lia|done|destruct (_ =? _); auto].
    + destruct (part + 1 =? 4) eqn:E; [intros [= <- <-]; split_and!; [lia|done|by left]|].
      bool_to_prop. apply IH; [lia..|done].
Qed.

(** The dotted-decimal parser accepts exactly the texts of four decimal
    octets of at most 255 separated by dots and ended by NUL, white space or
    the end of the string, and then stores their values; on any text it
    stores at most four bytes and returns 0 or 1. *)
Theorem parse_dotted_iff src :
  (forall dst, ak_parse_dotted src = (dst, 1) <-> dotted 4 src dst)
  /\ Z.of_nat (length (ak_parse_dotted src).1) <= 4
  /\ Forall in_u8 (ak_parse_dotted src).1
  /\ ((ak_parse_dotted src).2 = 0 \/ (ak_parse_dotted src).2 = 1).
Proof.
  split.
  - intros dst. split.
    + intros H. apply (scan_dotted 3) in H as (vs & -> & H); [done|lia].
    + intros H. by apply (dotted_scan 4 src dst H 0 []).
  - destruct (ak_parse_dotted src) as [out v] eqn:E.
    apply (scan_bounded src [] 0 0 0 out v) in E; [done|lia|lia|done|constructor].
Qed.

Lemma fmt_u_octet n :
  in_u8 n -> octet (fmt_u n) n /\ (length (fmt_u n) <= 3)%nat.
Proof.
  assert (forallb (fun n => forallb is_digit (fmt_u n) && (dec_value 0 (fmt_u n) =? n)
            && (length (fmt_u n) <=? 3)%nat && negb (bool_decide (fmt_u n = []))) (seqZ 0 256) = true)
    as Hall by (vm_compute; reflexivity).
  intros Hn. rewrite forallb_forall in Hall. specialize (Hall n).
  rewrite <- list_elem_of_In, elem_of_seqZ in Hall. specialize (Hall ltac:(int_lia)).
  rewrite !andb_true_iff, negb_true_iff, bool_decide_eq_false, Nat.leb_le, Z.eqb_eq in Hall.
  destruct Hall as [[[Hd Hv] Hl] Hne]. split; [|done]. split_and!; [done| |done|int_lia].
  apply Forall_forall. intros c Hc%list_elem_of_In. by eapply forallb_forall in Hd.
Qed.

Lemma fmt_dotted_spec a :
  addr4_wf a -> dotted 4 (fmt_dotted a) (addr4_bytes a) /\ (length (fmt_dotted a) <= 15)%nat.
Proof.
  intros (H0 & H1 & H2 & H3). unfold fmt_dotted, addr4_bytes.
  destruct (fmt_u_octet _ H0) as [O0 L0], (fmt_u_octet _ H1) as [O1 L1],
    (fmt_u_octet _ H2) as [O2 L2], (fmt_u_octet _ H3) as [O3 L3]. split.
  - apply dotted_more; [done|]. apply dotted_more; [done|]. apply dotted_more; [done|].
    rewrite <- (app_nil_r (fmt_u (b3 a))). by apply dotted_last.
  - rewrite !length_app. change (length [46]) with 1%nat. lia.
Qed.

Section InetSpec.
Context {W : Type} `{!Bridge W}.

Lemma ntop_fits a size (s : gs W) :
  addr4_wf a -> 16 <= size < 2 ^ 31 ->
  gnat_inet_ntop AK_AF_INET a size s = Done (true, fmt_dotted a) s.
Proof.
  intros Ha Hs. destruct (fmt_dotted_spec a Ha) as [_ Hl]. unfold gnat_inet_ntop. cbn [Z.eqb negb AK_AF_INET Pos.eqb].
  rewrite i32_id by int_lia.
  replace (size <=? _) with false by (symmetry; apply Z.leb_gt; lia).
  unfold snprintf_buf, retM. by rewrite take_ge by lia.
Qed.

(** Formatting an address and parsing the text gives the address back,
    through the exported calls: with room for 16 bytes [__gnat_inet_ntop]
    succeeds on every address, and [__gnat_inet_pton] of its text returns 1
    and the four bytes. *)
Theorem inet_roundtrip a size (s : gs W) :
  addr4_wf a -> 16 <= size < 2 ^ 31 ->
  wp (let* '(ok, text) := gnat_inet_ntop AK_AF_INET a size in
      let* '(r, dst) := gnat_inet_pton AK_AF_INET text in retM (ok, r, dst))
    (fun '(ok, r, dst) s' => ok = true /\ r = 1 /\ dst = addr4_bytes a /\ s' = s) s.
Proof.
  intros Ha Hs. unfold wp, bindM. rewrite (ntop_fits a size s Ha Hs).
  destruct (fmt_dotted_spec a Ha) as [Hd _]. unfold gnat_inet_pton. cbn [Z.eqb negb AK_AF_INET Pos.eqb].
  unfold ak_parse_dotted. rewrite (dotted_scan 4 _ _ Hd 0 []) by lia. by cbn.
Qed.

End InetSpec.

Lemma inet_roundtrip_witness :
  wp (let* '(ok, text) := gnat_inet_ntop AK_AF_INET (A4 192 168 0 255) 16 in
      let* '(r, dst) := gnat_inet_pton AK_AF_INET text in retM (ok, r, dst))
    (fun '(ok, r, dst) s' => ok = true /\ r = 1 /\ dst = [192; 168; 0; 255]
       /\ s' = gs_init (demo_script [] [] [] [])) (gs_init (demo_script [] [] [] [])).
Proof.
  apply (inet_roundtrip (A4 192 168 0 255) 16 (gs_init (demo_script [] [] [] [])));
    [vm_compute; repeat split; discriminate | lia].
Defined.
