(* ===== verification/Netdb.v ===== *)
(** * Host and service lookups of aegir_gsocket.c *)
From S2P Require Import Prelude CInt CStr Bridge FdTable Inet.

(** Pointers into the file's static netdb storage. *)
Inductive he_ptr := He_null | He_name | He_aliases | He_addr | He_addr_list.

(** [struct ak_hostent] *)
Record ak_hostent := HostEnt {
  h_name : he_ptr;
  h_aliases : he_ptr;
  h_addrtype : Z;
  h_length : Z;
  h_addr_list : he_ptr
}.

(** The static [ak_he] as [ak_fill_hostent] leaves it. *)
Definition ak_he : ak_hostent := HostEnt He_name He_aliases AK_AF_INET 4 He_addr_list.

(** [h->h_aliases[index]] and [h->h_addr_list[index]] of the static arrays
    [ak_he_aliases] (one null) and [ak_he_addr_list] (the address, a null). *)
Definition he_index (p : he_ptr) (index : Z) : option he_ptr :=
  match p with
  | He_aliases => if index =? 0 then Some He_null else None
  | He_addr_list => if index =? 0 then Some He_addr
                    else if index =? 1 then Some He_null else None
  | _ => None
  end.

Definition gnat_hostent_h_name (h : ak_hostent) : he_ptr := h_name h.
Definition gnat_hostent_h_alias (h : ak_hostent) (index : Z) : option he_ptr :=
  he_index (h_aliases h) index.
Definition gnat_hostent_h_addrtype (h : ak_hostent) : Z := h_addrtype h.
Definition gnat_hostent_h_length (h : ak_hostent) : Z := h_length h.
Definition gnat_hostent_h_addr (h : ak_hostent) (index : Z) : option he_ptr :=
  he_index (h_addr_list h) index.

(** [struct ak_servent]; the name is one of the table's literals and the
    protocol the caller's string, so both are kept by value. *)
Record ak_servent := ServEnt { s_name : list Z; s_port : Z; s_proto : list Z }.

Definition gnat_servent_s_name (s : ak_servent) : list Z := s_name s.
Definition gnat_servent_s_alias (s : ak_servent) (index : Z) : option he_ptr :=
  if index =? 0 then Some He_null else None.
Definition gnat_servent_s_port (s : ak_servent) : Z := u16 (s_port s).
Definition gnat_servent_s_proto (s : ak_servent) : list Z := s_proto s.

Definition ak_services : list (list Z * Z) :=
  [ (bytes "echo", 7); (bytes "discard", 9); (bytes "daytime", 13);
    (bytes "ftp", 21); (bytes "ssh", 22); (bytes "telnet", 23);
    (bytes "domain", 53); (bytes "http", 80); (bytes "ntp", 123) ].

Definition ak_fill_servent (name : list Z) (port : Z) (pr : list Z) : ak_servent :=
  ServEnt name (ak_sw16 port) pr.

(** The first service satisfying the loop's test. *)
Fixpoint find_service (test : list Z * Z -> bool) (l : list (list Z * Z))
  : option (list Z * Z) :=
  match l with
  | [] => None
  | e :: l' => if test e then Some e else find_service test l'
  end.

Definition gnat_getservbyname (name pr : list Z) : Z * option ak_servent :=
  match find_service (fun e => bool_decide (cstr name = e.1)) ak_services with
  | Some e => (0, Some (ak_fill_servent e.1 e.2 pr))
  | None => (-1, None)
  end.

Definition gnat_getservbyport (port : Z) (pr : list Z) : Z * option ak_servent :=
  match find_service (fun e => (e.2 =? ak_sw16 (u16 port)) || (e.2 =? port)) ak_services with
  | Some e => (0, Some (ak_fill_servent e.1 e.2 pr))
  | None => (-1, None)
  end.

Section Netdb.
Context {W : Type} `{!Bridge W}.

(** The name cut to 255 bytes with its NUL, over the buffer's old tail, and
    the address. *)
Definition ak_fill_hostent (name : list Z) (ip : addr4) : M (gs W) unit :=
  let n := cstr name in
  let n' := if 256 <=? Z.of_nat (length n) then take 255 n else n in
  modifyM (fun s =>
    with_he (n' ++ [0] ++ drop (length n' + 1) (ak_he_name s)) ip s).

Definition ak_dns_query (name : list Z) : M (gs W) (bool * addr4) :=
  let* up := ak_ensure_net in
  if negb (up =? 0) then retM (false, A4 0 0 0 0)
  else
    let* '(st, ip) := call (aknet_sock_resolve (cstr name) (Z.of_nat (length (cstr name)))) in
    if st =? AK_ST_OK then retM (true, ak_u32_to_addr ip)
    else
      set_h_errno (if st =? AK_ST_NOT_READY then AK_TRY_AGAIN else AK_HOST_NOT_FOUND) ;;
      retM (false, A4 0 0 0 0).

(** The return value, [*ret] and [*h_errnop]. *)
Definition gnat_gethostbyname (name : list Z) : M (gs W) (Z * option ak_hostent * Z) :=
  let '(dst, ok) := ak_parse_dotted name in
  if negb (ok =? 0) then
    ak_fill_hostent name (addr4_of dst) ;; retM (0, Some ak_he, 0)
  else
    let* '(found, ip) := ak_dns_query name in
    if found then ak_fill_hostent name ip ;; retM (0, Some ak_he, 0)
    else
      let* h := getsM ak_h_errno in
      retM (-1, None, if negb (h =? 0) then h else AK_HOST_NOT_FOUND).

(** [char dotted[16]] *)
Definition dotted_size : Z := 16.

Definition gnat_gethostbyaddr (addr : addr4) (type : Z)
  : M (gs W) (Z * option ak_hostent * Z) :=
  if negb (type =? AK_AF_INET) then retM (-1, None, AK_NO_DATA)
  else
    let* '(_, dotted) := gnat_inet_ntop AK_AF_INET addr dotted_size in
    ak_fill_hostent dotted addr ;;
    retM (0, Some ak_he, 0).

Definition gethostbyaddr (addr : addr4) (type : Z) : M (gs W) (option ak_hostent) :=
  if negb (type =? AK_AF_INET) then set_h_errno AK_NO_DATA ;; retM None
  else
    let* '(_, dotted) := gnat_inet_ntop AK_AF_INET addr dotted_size in
    ak_fill_hostent dotted addr ;;
    retM (Some ak_he).

End Netdb.

(** ** Host lookups *)

Section HostSpec.
Context {W : Type} `{!Bridge W}.

(** The static host entry holds [name], cut to 255 bytes, and [ip]. *)
Definition host_is (name : list Z) (ip : addr4) (s : gs W) : Prop :=
  cstr (ak_he_name s) = take 255 (cstr name) /\ ak_he_addr s = ip.

Lemma fill_hostent_spec name ip (s : gs W) :
  wp (ak_fill_hostent name ip)
    (fun _ s' => host_is name ip s' /\ world s' = world s /\ ak_fds s' = ak_fds s) s.
Proof.
  unfold wp, ak_fill_hostent, modifyM, host_is. cbn [ak_he_name ak_he_addr with_he world ak_fds].
  set (n := if 256 <=? _ then _ else _).
  assert (n = take 255 (cstr name)) as Hn.
  { unfold n. destruct (256 <=? _) eqn:E; [done|]. bool_to_prop. by rewrite take_ge by lia. }
  split_and!; try done. rewrite Hn. cbn [app]. apply cstr_app_nul.
  intros c Hc. apply elem_of_take in Hc as (i & Hi & _).
  by apply list_elem_of_lookup_2, cstr_no_nul in Hi.
Qed.

(** [__gnat_gethostbyname]: a dotted address is answered without the
    resolver; any other name is put to it once the network is up, and its
    address is the answer; a resolver with no free slot gives -1 with
    TRY_AGAIN and any other failure -1 with HOST_NOT_FOUND.  A successful
    call leaves the name, cut to 255 bytes, and the address in the static
    entry it returns. *)
Theorem gethostbyname_spec name (s : gs W) :
  (forall dst, dotted 4 name dst ->
     wp (gnat_gethostbyname name)
       (fun '(rc, h, herr) s' => rc = 0 /\ h = Some ak_he /\ herr = 0
          /\ host_is name (addr4_of dst) s' /\ world s' = world s) s)
  /\ ((ak_parse_dotted name).2 = 0 -> aknet_sock_endpoint (world s) <> 0 ->
     forall st ip w,
       aknet_sock_resolve (cstr name) (Z.of_nat (length (cstr name))) (world s) = ((st, ip), w) ->
       wp (gnat_gethostbyname name)
         (fun '(rc, h, herr) s' => world s' = w /\
            if st =? AK_ST_OK
            then rc = 0 /\ h = Some ak_he /\ herr = 0 /\ host_is name (ak_u32_to_addr ip) s'
            else rc = -1 /\ h = None /\
                 herr = if st =? AK_ST_NOT_READY then AK_TRY_AGAIN else AK_HOST_NOT_FOUND) s).
Proof.
  split.
  - intros dst Hd. unfold gnat_gethostbyname, ak_parse_dotted.
    rewrite (dotted_scan 4 _ _ Hd 0 []) by lia. cbn [app Z.eqb negb].
    apply wp_bind. eapply wp_mono; [|apply fill_hostent_spec].
    intros [] s' (Hh & Hw & _). unfold wp. cbn. by split_and!.
  - intros Hp Hep st ip w Hr. unfold gnat_gethostbyname.
    destruct (ak_parse_dotted name) as [dst ok]. cbn in Hp. subst ok. cbn [Z.eqb negb].
    apply wp_bind. unfold wp at 1. unfold ak_dns_query. unfold bindM at 1.
    assert (ak_ensure_net s = Done 0 s) as ->.
    { apply Z.eqb_neq in Hep. unfold ak_ensure_net, bindM, getsM, retM. rewrite Hep. cbn. by rewrite Hep. }
    cbn [Z.eqb negb]. unfold bindM at 1, call. rewrite Hr.
    destruct (st =? AK_ST_OK).
    + cbv beta iota delta [retM]. apply wp_bind. eapply wp_mono; [|apply fill_hostent_spec].
      intros [] s' (Hh & Hw & _). unfold wp. cbn. by split_and!.
    + unfold wp, bindM, retM, set_h_errno, modifyM, getsM. cbn.
      split; [done|]. by destruct (st =? AK_ST_NOT_READY).
Qed.

(** When the network cannot be attached, a lookup fails without setting
    the host error: what the caller is told is the error of an earlier
    lookup, if there was one. *)
Theorem gethostbyname_stale_error name (s : gs W) :
  (ak_parse_dotted name).2 = 0 -> aknet_sock_endpoint (world s) = 0 ->
  aknet_sock_endpoint (aknet_sock_attach 6 (world s)) = 0 ->
  wp (gnat_gethostbyname name)
    (fun '(rc, h, herr) s' => rc = -1 /\ h = None /\ ak_h_errno s' = ak_h_errno s
       /\ herr = if ak_h_errno s =? 0 then AK_HOST_NOT_FOUND else ak_h_errno s) s.
Proof.
  intros Hp Hep Hat. unfold gnat_gethostbyname.
  destruct (ak_parse_dotted name) as [dst ok]. cbn in Hp. subst ok. cbn [Z.eqb negb].
  apply wp_bind. unfold wp at 1, ak_dns_query, bindM at 1, ak_ensure_net, bindM, getsM, call.
  rewrite Hep. cbn. rewrite Hat. cbn. unfold wp, bindM, getsM, retM. cbn.
  by destruct (ak_h_errno s =? 0).
Qed.

End HostSpec.

(** The service table: looking a listed service up by name gives its port
    in network order, and looking that port up gives the service back; a
    name not listed is refused. *)
Theorem services_roundtrip name port pr :
  (name, port) ∈ ak_services ->
  exists e, gnat_getservbyname name pr = (0, Some e)
    /\ s_name e = name /\ gnat_servent_s_port e = ak_sw16 port /\ s_proto e = pr
    /\ gnat_getservbyport (gnat_servent_s_port e) pr = (0, Some e)
    /\ gnat_getservbyport port pr = (0, Some e).
Proof.
  intros H. unfold ak_services in H.
  repeat (apply elem_of_cons in H as [[= -> ->]|H]; [eexists; by split_and!|]).
  by apply elem_of_nil in H.
Qed.

(** ** Examples *)

Definition demo_host : gs script := gs_init (demo_script [] [] [] []).

Lemma gethostbyname_spec_witness :
  wp (gnat_gethostbyname (bytes "example.org"))
    (fun '(rc, h, herr) s' => world s' = world demo_host /\
       (rc = 0 /\ h = Some ak_he /\ herr = 0 /\ host_is (bytes "example.org") (A4 192 0 2 1) s'))
    demo_host.
Proof.
  destruct (gethostbyname_spec (bytes "example.org") demo_host) as [_ H].
  apply (H eq_refl ltac:(discriminate) AK_ST_OK 0xC0000201 (world demo_host) eq_refl).
Defined.

(** A bridge that cannot be attached: the attach leaves no endpoint. *)
Definition demo_down : gs script :=
  with_h_errno AK_NO_DATA (gs_init (Script (-1) 1 ∅ 0 [] [] [] [] (0, 0) 0 (0, 0) [] None [])).

Lemma gethostbyname_stale_error_witness :
  wp (gnat_gethostbyname (bytes "example.org"))
    (fun '(rc, h, herr) s' => rc = -1 /\ h = None /\ ak_h_errno s' = AK_NO_DATA /\ herr = AK_NO_DATA)
    demo_down.
Proof. apply (gethostbyname_stale_error (bytes "example.org") demo_down); reflexivity. Defined.

Lemma services_roundtrip_witness :
  exists e, gnat_getservbyname (bytes "http") (bytes "tcp") = (0, Some e)
    /\ s_name e = bytes "http" /\ gnat_servent_s_port e = 0x5000 /\ s_proto e = bytes "tcp"
    /\ gnat_getservbyport (gnat_servent_s_port e) (bytes "tcp") = (0, Some e)
    /\ gnat_getservbyport 80 (bytes "tcp") = (0, Some e).
Proof.
  apply (services_roundtrip (bytes "http") 80 (bytes "tcp")).
  apply list_elem_of_In. cbn. do 7 right. left. reflexivity.
Defined.
