(* ===== verification/AddrInfo.v ===== *)
(** * The getaddrinfo family of aegir_gsocket.c

    The result list lives on the heap ([heap_st]); [malloc] may fail at any
    call. *)
From S2P Require Import Prelude CInt CStr Bridge FdTable Inet Netdb.

(** ** strtol, base 10 *)

(** [isspace] in the C locale. *)
Definition is_space (c : Z) : bool := (c =? 32) || ((9 <=? c) && (c <=? 13)).

Fixpoint skip_spaces (l : list Z) : list Z :=
  match l with
  | c :: l' => if is_space c then skip_spaces l' else l
  | [] => []
  end.

(** The digits at the head of [l]: their value on top of [acc], how many,
    and the rest. *)
Fixpoint strtol_digits (l : list Z) (acc : Z) (n : nat) : Z * nat * list Z :=
  match l with
  | c :: l' => if is_digit c then strtol_digits l' (acc * 10 + (c - 48)) (S n)
               else (acc, n, l)
  | [] => (acc, n, [])
  end.

Definition LONG_MAX : Z := 2 ^ 63 - 1.
Definition LONG_MIN : Z := - 2 ^ 63.

(** The value (clamped to [long]) and the text at [*end]. *)
Definition strtol10 (l : list Z) : Z * list Z :=
  let l1 := skip_spaces l in
  let '(neg, l2) := match l1 with
                    | c :: l' => if c =? 45 then (true, l')
                                 else if c =? 43 then (false, l') else (false, l1)
                    | [] => (false, [])
                    end in
  let '(v, n, rest) := strtol_digits l2 0 0 in
  match n with
  | O => (0, l)
  | S _ => ((if neg then Z.max LONG_MIN (- v) else Z.min LONG_MAX v), rest)
  end.

Section AddrInfo.
Context {W : Type} `{!Bridge W, !Libc W}.

(** ** malloc and free *)

Definition malloc (size : Z) : M (gs W) Z :=
  let* ok := call (malloc_ok size) in
  if ok then
    fun s => let h := heap s in
             Done (brk h) (with_heap (HeapSt (<[brk h := HRaw]> (blocks h)) (brk h + 1) (heap_bad h)) s)
  else retM 0.

Definition free (p : Z) : M (gs W) unit :=
  if p =? 0 then retM tt
  else modifyM (fun s =>
    let h := heap s in
    match blocks h !! p with
    | Some _ => with_heap (HeapSt (delete p (blocks h)) (brk h) (heap_bad h)) s
    | None => with_heap (HeapSt (blocks h) (brk h) true) s
    end).

Definition store (p : Z) (b : hblock) : M (gs W) unit :=
  modifyM (fun s => let h := heap s in
    with_heap (HeapSt (<[p := b]> (blocks h)) (brk h) (heap_bad h)) s).

(** The node at [p]. *)
Definition load_node (p : Z) (s : gs W) : option ak_addrinfo :=
  match blocks (heap s) !! p with Some (HNode a) => Some a | _ => None end.

Definition sizeof_addrinfo : Z := 48.

Definition own_default : Z := 0x0A00020F.

Definition ak_own_address : M (gs W) Z :=
  let* f := call (read_file (bytes "Net:address") 63) in
  match f with
  | Some buf =>
      let '(dst, ok) := ak_parse_dotted buf in
      if negb (ok =? 0) then retM (ak_addr_to_u32 (addr4_of dst)) else retM own_default
  | None => retM own_default
  end.

Definition ak_mk_addrinfo (ip port socktype protocol flags : Z) : M (gs W) Z :=
  let* ai := malloc sizeof_addrinfo in
  let* sa := malloc sizeof_sockaddr_in in
  if (ai =? 0) || (sa =? 0) then free ai ;; free sa ;; retM 0
  else
    store sa (HAddr (mk_sockaddr ip port)) ;;
    store ai (HNode (AddrInfo flags AK_AF_INET socktype protocol sizeof_sockaddr_in sa 0 0)) ;;
    retM ai.

(** The address [node] stands for, or the error code to return. *)
Definition gai_node (node : option (list Z)) (flags : Z) : M (gs W) (Z + Z) :=
  match node with
  | None => if negb (Z.land flags 1 =? 0) then retM (inr 0)
            else let* a := ak_own_address in retM (inr a)
  | Some n =>
      if bool_decide (cstr n = []) then
        if negb (Z.land flags 1 =? 0) then retM (inr 0)
        else let* a := ak_own_address in retM (inr a)
      else
        let '(dst, ok) := ak_parse_dotted n in
        if negb (ok =? 0) then retM (inr (ak_addr_to_u32 (addr4_of dst)))
        else if negb (Z.land flags 4 =? 0) then retM (inl AK_EAI_NONAME)
        else
          let* '(found, ip) := ak_dns_query n in
          if found then retM (inr (ak_addr_to_u32 ip)) else retM (inl AK_EAI_NONAME)
  end.

End AddrInfo.

(** The port [service] stands for, or the error code. *)
Definition gai_service (service : option (list Z)) : Z + Z :=
  match service with
  | None => inr 0
  | Some sv =>
      let sv := cstr sv in
      if bool_decide (sv = []) then inr 0
      else
        let '(v, rest) := strtol10 sv in
        if bool_decide (rest = []) && (0 <=? v) && (v <=? 65535) then inr (u16 v)
        else
          let port := match find_service (fun e => bool_decide (sv = e.1)) ak_services with
                      | Some e => e.2
                      | None => 0
                      end in
          if port =? 0 then inl AK_EAI_SERVICE else inr port
  end.

(** [hints]: family, socktype and flags of the caller's hints. *)
Record gai_hints := Hints { hint_flags : Z; hint_family : Z; hint_socktype : Z }.

Section GetAddrInfo.
Context {W : Type} `{!Bridge W, !Libc W}.

(** The clean-up at [enomem]: walk the list from [head], freeing. *)
Definition gai_unwind (fuel : nat) (head : Z) : M (gs W) unit :=
  iterM fuel (fun p =>
    if p =? 0 then retM (inr tt)
    else
      let* nd := getsM (load_node p) in
      match nd with
      | Some a => free (ai_addr a) ;; free p ;; retM (inl (ai_next a))
      | None => free p ;; retM (inr tt)
      end) head.

(** [*tail = ai]: link [ai] behind [prev], or make it the head. *)
Definition gai_link (prev ai : Z) : M (gs W) unit :=
  if prev =? 0 then retM tt
  else
    let* nd := getsM (load_node prev) in
    match nd with
    | Some a => store prev (HNode (AddrInfo (ai_flags a) (ai_family a) (ai_socktype a)
                                     (ai_protocol a) (ai_addrlen a) (ai_addr a)
                                     (ai_canonname a) ai))
    | None => retM tt
    end.

(** The building of the list, from the address and port found. *)
Definition gai_build (ip port socktype flags : Z) : M (gs W) (Z * Z) :=
  let want_stream := (socktype =? 0) || (socktype =? AK_SOCK_STREAM) in
  let want_dgram := (socktype =? 0) || (socktype =? AK_SOCK_DGRAM) in
  let* a1 := (if want_stream
              then ak_mk_addrinfo ip port AK_SOCK_STREAM AK_IPPROTO_TCP flags
              else retM 0) in
  if want_stream && (a1 =? 0) then
    gai_unwind 3 0 ;; retM (AK_EAI_MEMORY, 0)
  else if want_dgram then
    let* a2 := ak_mk_addrinfo ip port AK_SOCK_DGRAM AK_IPPROTO_UDP flags in
    if a2 =? 0 then gai_unwind 3 a1 ;; retM (AK_EAI_MEMORY, 0)
    else gai_link a1 a2 ;; retM (0, if a1 =? 0 then a2 else a1)
  else retM (0, a1).

(** The return value and [*res]. *)
Definition gnat_getaddrinfo (node service : option (list Z)) (hints : option gai_hints)
  : M (gs W) (Z * Z) :=
  let family := match hints with Some h => hint_family h | None => 0 end in
  let socktype := match hints with Some h => hint_socktype h | None => 0 end in
  let flags := match hints with Some h => hint_flags h | None => 0 end in
  if negb (family =? 0) && negb (family =? AK_AF_INET) then retM (AK_EAI_FAMILY, 0)
  else if negb (socktype =? 0) && negb (socktype =? AK_SOCK_STREAM)
          && negb (socktype =? AK_SOCK_DGRAM) then retM (AK_EAI_SOCKTYPE, 0)
  else
    let* nr := gai_node node flags in
    match nr with
    | inl e => retM (e, 0)
    | inr ip =>
        match gai_service service with
        | inl e => retM (e, 0)
        | inr port => gai_build ip port socktype flags
        end
    end.

Definition gnat_freeaddrinfo (fuel : nat) (res : Z) : M (gs W) unit :=
  iterM fuel (fun p =>
    if p =? 0 then retM (inr tt)
    else
      let* nd := getsM (load_node p) in
      match nd with
      | Some a =>
          free (ai_addr a) ;; free (ai_canonname a) ;; free p ;; retM (inl (ai_next a))
      | None => free p ;; retM (inr tt)
      end) res.

(** The texts left at [host] and [serv], for those that were passed. *)
Definition gnat_getnameinfo (sin : ak_sockaddr_in) (host serv : option Z)
  : M (gs W) (Z * option (list Z) * option (list Z)) :=
  if negb (sin_family sin =? AK_AF_INET) then retM (AK_EAI_FAMILY, None, None)
  else
    let* hr := (match host with
                | Some hostlen =>
                    let* '(ok, t) := gnat_inet_ntop AK_AF_INET (sin_addr sin) (u32 hostlen) in
                    retM (ok, Some t)
                | None => retM (true, None)
                end) in
    let '(ok, ht) := hr in
    if negb ok then retM (AK_EAI_SYSTEM, ht, None)
    else
      match serv with
      | Some servlen =>
          let text := fmt_u (ak_sw16 (sin_port sin)) in
          if i32 servlen <=? Z.of_nat (length text)
          then retM (AK_EAI_SYSTEM, ht, Some (snprintf_buf servlen text))
          else retM (0, ht, Some (snprintf_buf servlen text))
      | None => retM (0, ht, None)
      end.

Definition gnat_minus_500ms : Z := 0.

End GetAddrInfo.

Definition gnat_gai_strerror (errcode : Z) : string :=
  if errcode =? AK_EAI_AGAIN then "Temporary failure in name resolution."
  else if errcode =? AK_EAI_FAIL then "Nonrecoverable failure in name resolution."
  else if errcode =? AK_EAI_FAMILY then "The ai_family member is not supported."
  else if errcode =? AK_EAI_MEMORY then "Memory allocation failure."
  else if errcode =? AK_EAI_NONAME then "Neither nodename nor servname provided, or not known."
  else if errcode =? AK_EAI_SERVICE then "The servname parameter is not supported."
  else if errcode =? AK_EAI_SOCKTYPE then "The ai_socktype member is not supported."
  else if errcode =? AK_EAI_SYSTEM then "System error returned in errno."
  else "Unknown error.".

(** ** The heap across getaddrinfo *)

Section HeapSpec.
Context {W : Type} `{!Bridge W, !Libc W}.

(** Every block lies below the next one to be handed out, and no bad [free]
    has happened. *)
Definition heap_ok (s : gs W) : Prop :=
  0 < brk (heap s) /\ heap_bad (heap s) = false
  /\ forall p, is_Some (blocks (heap s) !! p) -> 0 < p < brk (heap s).

(** The heap of [s'] is that of [s] up to blocks handed out and returned. *)
Definition heap_same (s s' : gs W) : Prop :=
  heap_ok s' /\ blocks (heap s') = blocks (heap s).

Lemma heap_ok_fresh (s : gs W) p : heap_ok s -> brk (heap s) <= p -> blocks (heap s) !! p = None.
Proof. intros (_ & _ & H) Hp. apply eq_None_not_Some. intros H'%H. lia. Qed.

(** [malloced w ok w']: between the worlds [w] and [w'] there were only calls
    of [malloc], all of them successful or not. *)
Inductive malloced (w : W) : bool -> W -> Prop :=
| malloced_none : malloced w true w
| malloced_more ok n w' :
    malloced w ok w' -> malloced w (ok && (malloc_ok n w').1) (malloc_ok n w').2.

Lemma malloced_trans w w1 w2 b1 b2 :
  malloced w b1 w1 -> malloced w1 b2 w2 -> malloced w (b1 && b2) w2.
Proof.
  intros H1 H2. induction H2 as [|ok n w' H IH]; [by rewrite andb_true_r|].
  rewrite andb_assoc. by constructor.
Qed.

Lemma malloc_spec n (s : gs W) :
  heap_ok s ->
  wp (malloc n) (fun p s' => heap_ok s' /\ brk (heap s) <= brk (heap s') /\
    malloced (world s) (negb (p =? 0)) (world s') /\
    (p = 0 /\ blocks (heap s') = blocks (heap s)
     \/ brk (heap s) <= p < brk (heap s')
        /\ blocks (heap s') = <[p := HRaw]> (blocks (heap s)))) s.
Proof.
  intros (Hb & Hbad & Hd). unfold wp, malloc, bindM, call.
  pose proof (malloced_more (world s) true n (world s) (malloced_none _)) as Hm.
  destruct (malloc_ok n (world s)) as [ok w]. destruct ok; cbn in *.
  - split_and!; [|lia|by rewrite (proj2 (Z.eqb_neq _ _)) by lia|right; split; [lia|done]].
    split_and!; cbn; [lia|done|].
    intros p [x Hx]. destruct (decide (p = brk (heap s))) as [->|Hne]; [lia|].
    rewrite lookup_insert_ne in Hx by done. specialize (Hd p ltac:(eauto)). lia.
  - split_and!; [by split_and!|lia|done|by left].
Qed.

Lemma free_spec p (s : gs W) :
  heap_ok s -> (p = 0 \/ is_Some (blocks (heap s) !! p)) ->
  wp (free p) (fun _ s' => heap_ok s' /\ blocks (heap s') = delete p (blocks (heap s))
                           /\ world s' = world s /\ ak_fds s' = ak_fds s) s.
Proof.
  intros (Hb & Hbad & Hd) Hp. unfold wp, free. destruct (p =? 0) eqn:E.
  - apply Z.eqb_eq in E as ->. cbn. split_and!; try done. symmetry. apply delete_id.
    apply eq_None_not_Some. intros ?%Hd. lia.
  - destruct Hp as [->|[b Hp]]; [done|]. unfold modifyM. rewrite Hp. cbn. split; [|done].
    unfold heap_ok. cbn. split_and!; [done..|]. intros q [x [_ Hq]%lookup_delete_Some]. apply Hd. eauto.
Qed.

Lemma store_spec p b (s : gs W) :
  heap_ok s -> is_Some (blocks (heap s) !! p) ->
  wp (store p b) (fun _ s' => heap_ok s' /\ blocks (heap s') = <[p := b]> (blocks (heap s))
                              /\ world s' = world s) s.
Proof.
  intros (Hb & Hbad & Hd) Hp. unfold wp, store, modifyM. cbn. split; [|done].
  unfold heap_ok. cbn. split_and!; [done..|]. intros q [x Hx]. apply Hd. destruct (decide (q = p)) as [->|]; [done|].
  rewrite lookup_insert_ne in Hx by done. eauto.
Qed.

(** The two blocks of one node over the blocks [B]. *)
Definition node_over (B : gmap Z hblock) (ai sa : Z) (a : ak_addrinfo) (x : ak_sockaddr_in)
  : gmap Z hblock :=
  <[ai := HNode a]> (<[sa := HAddr x]> B).

Definition node_of (flags st pr sa next : Z) : ak_addrinfo :=
  AddrInfo flags AK_AF_INET st pr sizeof_sockaddr_in sa 0 next.

(** Blocks [ai] and [sa] are new with respect to [B]. *)
Definition fresh2 (B : gmap Z hblock) (ai sa : Z) : Prop :=
  ai <> 0 /\ sa <> 0 /\ ai <> sa /\ B !! ai = None /\ B !! sa = None.

Lemma mk_addrinfo_spec ip port st pr flags (s : gs W) :
  heap_ok s ->
  wp (ak_mk_addrinfo ip port st pr flags)
    (fun ai s' => heap_ok s' /\ malloced (world s) (negb (ai =? 0)) (world s') /\
       (ai = 0 /\ blocks (heap s') = blocks (heap s)
        \/ exists sa, fresh2 (blocks (heap s)) ai sa
           /\ blocks (heap s') =
              node_over (blocks (heap s)) ai sa (node_of flags st pr sa 0) (mk_sockaddr ip port))) s.
Proof.
  intros Hok. unfold ak_mk_addrinfo. apply wp_bind. eapply wp_mono; [|by apply malloc_spec].
  intros ai s1 (Hok1 & Hb1 & Hm1 & Hai). apply wp_bind. eapply wp_mono; [|by apply malloc_spec].
  intros sa s2 (Hok2 & Hb2 & Hm2 & Hsa). pose proof Hok as (Hpos & _).
  pose proof (malloced_trans _ _ _ _ _ Hm1 Hm2) as Hm. rewrite <- negb_orb in Hm. clear Hm1 Hm2.
  destruct ((ai =? 0) || (sa =? 0)) eqn:Ez.
  - apply wp_bind. eapply wp_mono; [|apply free_spec; [done|]].
    2: { destruct Hai as [[-> _]|[_ Hai]]; [by left|right].
         destruct Hsa as [[_ ->]|[_ ->]]; rewrite Hai; [by rewrite lookup_insert_eq|].
         destruct (decide (sa = ai)) as [->|]; [by rewrite lookup_insert_eq|].
         by rewrite lookup_insert_ne, lookup_insert_eq. }
    intros [] s3 (Hok3 & Hbl3 & Hw3 & _).
    apply wp_bind. eapply wp_mono; [|apply free_spec; [done|]].
    2: { destruct Hsa as [[-> _]|[Hr Hsa]]; [by left|right].
         rewrite Hbl3, Hsa, lookup_delete_ne, lookup_insert_eq; [done|].
         destruct Hai as [[-> _]|[? _]]; lia. }
    intros [] s4 (Hok4 & Hbl4 & Hw4 & _). unfold wp. cbn. split; [done|].
    split; [by rewrite Hw4, Hw3|]. left. split; [done|].
    rewrite Hbl4, Hbl3.
    pose proof (heap_ok_fresh s ai Hok) as Fai. pose proof (heap_ok_fresh s1 sa Hok1) as Fsa.
    assert (blocks (heap s) !! 0 = None) as F0.
    { apply eq_None_not_Some. intros H0. destruct Hok as (_ & _ & Hd). specialize (Hd 0 H0). lia. }
    destruct Hai as [[-> Hai]|[Hra Hai]], Hsa as [[-> Hsa]|[Hrs Hsa]]; rewrite Hsa, Hai.
    + by rewrite !delete_id by (by rewrite ?delete_id).
    + rewrite Hai in Fsa. rewrite delete_insert_ne by lia. rewrite (delete_id _ 0) by done.
      apply delete_insert_id. apply Fsa. lia.
    + rewrite delete_insert_id by (apply Fai; lia). by apply delete_id.
    + apply orb_true_iff in Ez as [Ez|Ez]; apply Z.eqb_eq in Ez; lia.
  - apply orb_false_iff in Ez as [Ea Es]. bool_to_prop.
    destruct Hai as [[-> _]|[Hra Hai]]; [done|]. destruct Hsa as [[-> _]|[Hrs Hsa]]; [done|].
    pose proof (heap_ok_fresh s ai Hok ltac:(lia)) as Fai.
    pose proof (heap_ok_fresh s sa Hok ltac:(lia)) as Fsa.
    assert (ai <> sa) as Hne by lia.
    apply wp_bind. eapply wp_mono; [|apply store_spec; [done|by rewrite Hsa, lookup_insert_eq]].
    intros [] s3 (Hok3 & Hbl3 & Hw3).
    apply wp_bind. eapply wp_mono; [|apply store_spec; [done|]].
    2: { rewrite Hbl3, Hsa, Hai, !(lookup_insert_ne _ sa) by done. by rewrite lookup_insert_eq. }
    intros [] s4 (Hok4 & Hbl4 & Hw4). unfold wp. cbn. split; [done|].
    split; [rewrite (proj2 (Z.eqb_neq _ _)) by done; by rewrite Hw4, Hw3|]. right. exists sa.
    split; [by split_and!|]. rewrite Hbl4, Hbl3, Hsa, Hai. unfold node_over, node_of.
    apply map_eq. intros i. destruct (decide (i = ai)) as [->|]; [by rewrite !lookup_insert_eq|].
    destruct (decide (i = sa)) as [->|].
    + by rewrite !(lookup_insert_ne _ ai), !lookup_insert_eq by done.
    + by rewrite !lookup_insert_ne by done.
Qed.

(** ** Result lists *)

(** [chain B flags l p B']: over the blocks [B], block [p] of [B'] heads a
    list of nodes, one per element (socket type, protocol, address block). *)
Inductive chain (B : gmap Z hblock) (flags : Z)
  : list (Z * Z * ak_sockaddr_in) -> Z -> gmap Z hblock -> Prop :=
| chain_nil : chain B flags [] 0 B
| chain_cons st pr x l ai sa next B' :
    chain B flags l next B' -> fresh2 B' ai sa ->
    chain B flags ((st, pr, x) :: l) ai
      (node_over B' ai sa (node_of flags st pr sa next) x).

Lemma node_over_lookup B ai sa a x :
  node_over B ai sa a x !! ai = Some (HNode a).
Proof. apply lookup_insert_eq. Qed.

(** Freeing the two blocks of a node leaves what it was put over. *)
Lemma node_over_delete B ai sa a x :
  fresh2 B ai sa -> delete ai (delete sa (node_over B ai sa a x)) = B.
Proof.
  intros (_ & _ & Hne & Ha & Hs). unfold node_over.
  rewrite (delete_insert_ne _ sa ai) by done. rewrite (delete_insert_id _ sa) by done.
  by apply delete_insert_id.
Qed.

Lemma chain_load st pr x l ai B flags (s : gs W) :
  chain B flags ((st, pr, x) :: l) ai (blocks (heap s)) ->
  exists sa next B', chain B flags l next B' /\ fresh2 B' ai sa
    /\ blocks (heap s) = node_over B' ai sa (node_of flags st pr sa next) x
    /\ load_node ai s = Some (node_of flags st pr sa next).
Proof.
  inversion 1 as [|? ? ? ? ? sa next B' Hc Hf Hst Hai HB]; subst.
  exists sa, next, B'. split_and!; try done. unfold load_node. by rewrite <- HB, node_over_lookup.
Qed.

(** The frees of one node, then the rest of the walk. *)
Lemma free_node_spec {A} ai sa B a x (s : gs W) (c : M (gs W) A) Q :
  heap_ok s -> fresh2 B ai sa -> blocks (heap s) = node_over B ai sa a x ->
  (forall s', heap_ok s' -> blocks (heap s') = B -> world s' = world s -> wp c Q s') ->
  wp (free sa ;; free ai ;; c) Q s.
Proof.
  intros Hok Hf Hb Hk. pose proof Hf as (_ & _ & Hne & _).
  apply wp_bind. eapply wp_mono; [|apply free_spec; [done|right]].
  2: { rewrite Hb. unfold node_over. by rewrite lookup_insert_ne, lookup_insert_eq. }
  intros [] s1 (Hok1 & Hb1 & Hw1 & _). apply wp_bind. eapply wp_mono; [|apply free_spec; [done|right]].
  2: { rewrite Hb1, lookup_delete_ne, Hb by done. by rewrite node_over_lookup. }
  intros [] s2 (Hok2 & Hb2 & Hw2 & _). apply Hk; [done| |congruence]. rewrite Hb2, Hb1, Hb. by apply node_over_delete.
Qed.

Lemma freeaddrinfo_chain B flags l : forall fuel p (s : gs W),
  heap_ok s -> chain B flags l p (blocks (heap s)) -> (length l < fuel)%nat ->
  wp (gnat_freeaddrinfo fuel p) (fun _ s' => heap_ok s' /\ blocks (heap s') = B /\ world s' = world s) s.
Proof.
  induction l as [|[[st pr] x] l IH]; intros fuel p s Hok Hc Hf;
    (destruct fuel as [|fuel]; [cbn in Hf; lia|]); unfold gnat_freeaddrinfo; cbn [iterM].
  - inversion Hc; subst. done.
  - apply chain_load in Hc as (sa & next & B' & Hc & Hfr & Hb & Hl).
    pose proof Hfr as (Ha0 & _). apply Z.eqb_neq in Ha0.
    apply wp_bind. rewrite Ha0. apply wp_bind. unfold wp at 1, getsM. rewrite Hl.
    apply (free_node_spec p sa B' _ x s (retM (inl next)) _ Hok Hfr Hb).
    intros s' Hok' Hb' <-. apply (IH fuel next s' Hok'); [by rewrite Hb'|cbn in Hf; lia].
Qed.

Lemma gai_unwind_chain B flags l : forall fuel p (s : gs W),
  heap_ok s -> chain B flags l p (blocks (heap s)) -> (length l < fuel)%nat ->
  wp (gai_unwind fuel p) (fun _ s' => heap_ok s' /\ blocks (heap s') = B /\ world s' = world s) s.
Proof.
  induction l as [|[[st pr] x] l IH]; intros fuel p s Hok Hc Hf;
    (destruct fuel as [|fuel]; [cbn in Hf; lia|]); unfold gai_unwind; cbn [iterM].
  - inversion Hc; subst. done.
  - apply chain_load in Hc as (sa & next & B' & Hc & Hfr & Hb & Hl).
    pose proof Hfr as (Ha0 & _). apply Z.eqb_neq in Ha0.
    apply wp_bind. rewrite Ha0. apply wp_bind. unfold wp at 1, getsM. rewrite Hl.
    apply (free_node_spec p sa B' _ x s (retM (inl next)) _ Hok Hfr Hb).
    intros s' Hok' Hb' <-. apply (IH fuel next s' Hok'); [by rewrite Hb'|cbn in Hf; lia].
Qed.

End HeapSpec.

(** ** Ports *)

(** A decimal numeral the way [strtol] reads one: white space, a sign, digits. *)
Definition numeral (l : list Z) (v : Z) : Prop :=
  exists sp sg ds, l = sp ++ sg ++ ds /\ Forall (fun c => is_space c = true) sp /\
    ds <> [] /\ Forall (fun c => is_digit c = true) ds /\
    (((sg = [] \/ sg = [43]) /\ v = dec_value 0 ds) \/ (sg = [45] /\ v = - dec_value 0 ds)).

(** The port a service text names: none without a text, a number in range, or
    the port of a listed service. *)
Definition names_port (service : option (list Z)) (port : Z) : Prop :=
  let sv := cstr (default [] service) in
  if decide (sv = []) then port = 0
  else numeral sv port /\ 0 <= port <= 65535 \/ (sv, port) ∈ ak_services.

Lemma strtol_digits_all ds : Forall (fun c => is_digit c = true) ds -> forall acc n,
  strtol_digits ds acc n = (dec_value acc ds, (n + length ds)%nat, []).
Proof.
  induction 1 as [|c ds Hc _ IH]; intros acc n; cbn [strtol_digits length]; [by rewrite Nat.add_0_r|].
  rewrite Hc, IH. f_equal. f_equal. lia.
Qed.

Lemma strtol_digits_split l : forall acc n, exists ds rest,
  l = ds ++ rest /\ Forall (fun c => is_digit c = true) ds /\
  strtol_digits l acc n = (dec_value acc ds, (n + length ds)%nat, rest).
Proof.
  induction l as [|c l IH]; intros acc n; cbn [strtol_digits].
  - exists [], []. by rewrite Nat.add_0_r.
  - destruct (is_digit c) eqn:Ec.
    + destruct (IH (acc * 10 + (c - 48)) (S n)) as (ds & rest & -> & Hd & ->).
      exists (c :: ds), rest. split; [done|]. split; [by constructor|]. cbn [length]. do 2 f_equal. lia.
    + exists [], (c :: l). by rewrite Nat.add_0_r.
Qed.

Lemma skip_spaces_split l : exists sp,
  l = sp ++ skip_spaces l /\ Forall (fun c => is_space c = true) sp.
Proof.
  induction l as [|c l IH]; cbn [skip_spaces]; [by exists []|]. destruct (is_space c) eqn:Ec; [|by exists []].
  destruct IH as (sp & H & Hs). exists (c :: sp). split; [cbn; by rewrite <- H | by constructor].
Qed.

Lemma skip_spaces_app sp l : Forall (fun c => is_space c = true) sp ->
  match l with c :: _ => is_space c = false | [] => True end -> skip_spaces (sp ++ l) = l.
Proof.
  intros Hs Hl. induction Hs as [|c sp Hc _ IH]; cbn [app skip_spaces].
  - destruct l; [done|]. cbn [skip_spaces]. by rewrite Hl.
  - by rewrite Hc.
Qed.

Lemma digit_first c : is_digit c = true -> is_space c = false /\ (c =? 45) = false /\ (c =? 43) = false.
Proof. unfold is_digit, is_space. intros H. split_and!; bool_to_prop; lia. Qed.

Lemma numeral_strtol l v : numeral l v -> 0 <= v <= 65535 -> strtol10 l = (v, []).
Proof.
  intros (sp & sg & ds & -> & Hsp & Hne & Hd & Hv) Hr. unfold strtol10.
  assert (Hz : forall b, (let '(v', n, rest) := strtol_digits ds 0 0 in
    match n with O => (0, sp ++ sg ++ ds)
    | S _ => ((if b : bool then Z.max LONG_MIN (- v') else Z.min LONG_MAX v'), rest) end) =
    ((if b then Z.max LONG_MIN (- dec_value 0 ds) else Z.min LONG_MAX (dec_value 0 ds)), [])).
  { intros b. rewrite strtol_digits_all by done. by destruct ds. }
  destruct ds as [|d ds]; [done|]. pose proof (digit_first d (Forall_inv Hd)) as (Hds & Hd1 & Hd2).
  unfold LONG_MAX, LONG_MIN in *.
  destruct Hv as [[[->| ->] ->]|[-> ->]]; cbn [app] in *; rewrite skip_spaces_app by done.
  - rewrite Hd1, Hd2, (Hz false). f_equal. lia.
  - cbn [Z.eqb Pos.eqb]. rewrite (Hz false). f_equal. lia.
  - cbn [Z.eqb Pos.eqb]. rewrite (Hz true). f_equal. lia.
Qed.

Lemma strtol_numeral l v : strtol10 l = (v, []) -> l <> [] -> 0 <= v <= 65535 -> numeral l v.
Proof.
  unfold strtol10. intros H Hl Hv. destruct (skip_spaces_split l) as (sp & Hsp & Hs).
  set (l1 := skip_spaces l) in *. clearbody l1.
  assert (exists sg l2 neg, l1 = sg ++ l2 /\ ((sg = [] \/ sg = [43]) /\ neg = false \/ sg = [45] /\ neg = true) /\
    (let '(v', n, rest) := strtol_digits l2 0 0 in
     match n with O => (0, l)
     | S _ => ((if neg : bool then Z.max LONG_MIN (- v') else Z.min LONG_MAX v'), rest) end) = (v, []))
    as (sg & l2 & neg & Hl1 & Hsg & H2).
  { destruct l1 as [|c l'].
    - exists [], [], false. split_and!; [done|by left; auto|done].
    - destruct (c =? 45) eqn:E1; [apply Z.eqb_eq in E1 as ->; exists [45], l', true; split_and!; [done|by right|done]|].
      destruct (c =? 43) eqn:E2; [apply Z.eqb_eq in E2 as ->; exists [43], l', false; split_and!; [done|by left; auto|done]|].
      exists [], (c :: l'), false. split_and!; [done|by left; auto|done]. }
  clear H. destruct (strtol_digits_split l2 0 0) as (ds & rest & -> & Hd & E). rewrite E in H2.
  destruct ds as [|d ds]; [by injection H2|]. cbn [Nat.add length] in H2. injection H2 as Hv2 ->.
  change (dec_value (0 * 10 + (d - 48)) ds) with (dec_value 0 (d :: ds)) in Hv2.
  rewrite app_nil_r in Hl1. exists sp, sg, (d :: ds). rewrite Hsp, Hl1.
  split; [done|]. split; [done|]. split; [done|]. split; [done|].
  pose proof (dec_value_ge 0 _ ltac:(lia) Hd). unfold LONG_MAX, LONG_MIN in *.
  destruct Hsg as [[Hsg ->]|[-> ->]]; cbv iota in Hv2; [left; split; [done|lia] | right; split; [done|lia]].
Qed.

Lemma find_service_name sv l :
  match find_service (fun e => bool_decide (sv = e.1)) l with
  | Some e => e.1 = sv /\ e ∈ l
  | None => forall p, (sv, p) ∉ l
  end.
Proof.
  induction l as [|[n q] l IH]; cbn [find_service]; [intros p; apply not_elem_of_nil|].
  case_bool_decide as Hn; cbn in Hn; [subst; split; [done | by left]|].
  destruct (find_service _ l); [destruct IH; split; [done | by right]|].
  intros p [[= ? ?]|Hp]%elem_of_cons; [done | by apply (IH p)].
Qed.

(** The port found is the one named; the error means that none is. *)
Lemma gai_service_spec service :
  match gai_service service with
  | inr port => in_u16 port /\ names_port service port
  | inl e => e = AK_EAI_SERVICE /\ forall port, ~ names_port service port
  end.
Proof.
  assert (Htab : forall sv, match find_service (fun e => bool_decide (sv = e.1)) ak_services with
    | Some e => (sv, e.2) ∈ ak_services /\ 0 < e.2 < 65536
    | None => forall p, (sv, p) ∉ ak_services end).
  { intros sv. pose proof (find_service_name sv ak_services) as H.
    destruct (find_service _ _) as [[n p]|]; [|done]. destruct H as [<- Hin]. split; [done|].
    assert (Hall : Forall (fun e => 0 < e.2 < 65536) ak_services) by (repeat constructor).
    by apply (proj1 (Forall_forall _ _) Hall (n, p)). }
  unfold gai_service. destruct service as [sv|]; [|split; [int_lia | done]].
  case_bool_decide as Hsv; [split; [int_lia | by unfold names_port; cbn; rewrite Hsv]|].
  assert (Hp : forall port, names_port (Some sv) port <->
    numeral (cstr sv) port /\ 0 <= port <= 65535 \/ (cstr sv, port) ∈ ak_services).
  { intros port. unfold names_port. cbn [default from_option id]. by rewrite decide_False by done. }
  destruct (strtol10 (cstr sv)) as [v rest] eqn:Ev.
  destruct (bool_decide (rest = []) && (0 <=? v) && (v <=? 65535)) eqn:Er.
  - rewrite !andb_true_iff, bool_decide_eq_true, !Z.leb_le in Er. destruct Er as [[-> H0] H1].
    rewrite u16_id by int_lia. split; [int_lia|]. apply Hp. left. split; [|lia]. by apply strtol_numeral.
  - specialize (Htab (cstr sv)).
    destruct (find_service _ ak_services) as [e|].
    + destruct Htab as [Hin He]. rewrite (proj2 (Z.eqb_neq _ _)) by lia. split; [int_lia | apply Hp; by right].
    + cbn [Z.eqb]. split; [done|]. intros port [[Hn Hr]|Hin]%Hp; [|by apply (Htab port)].
      pose proof (numeral_strtol _ _ Hn Hr) as Hq. rewrite Ev in Hq. injection Hq as -> ->.
      rewrite !andb_false_iff, !Z.leb_gt, bool_decide_eq_false in Er. destruct Er as [[?|?]|?]; [done|lia|lia].
Qed.

(** ** Hosts *)

Lemma flag_bit x k : 0 <= k -> negb (Z.land x (2 ^ k) =? 0) = Z.testbit x k.
Proof.
  intros Hk. destruct (Z.testbit x k) eqn:E.
  - apply negb_true_iff, Z.eqb_neq. intros H. assert (Z.testbit (Z.land x (2 ^ k)) k = false) as H' by (by rewrite H, Z.bits_0).
    by rewrite Z.land_spec, E, Z.pow2_bits_true in H'.
  - apply negb_false_iff, Z.eqb_eq, Z.bits_inj'. intros n Hn. rewrite Z.land_spec, Z.bits_0, Z.pow2_bits_eqb by done.
    destruct (Z.eqb_spec k n) as [<-|]; [by rewrite E | apply andb_false_r].
Qed.

Lemma dotted_length n src vs : dotted n src vs -> length vs = n.
Proof. induction 1; cbn; congruence. Qed.

(** What the parser says of a text, in the terms of the grammar. *)
Lemma parse_dotted_cases src :
  let '(dst, ok) := ak_parse_dotted src in
  if negb (ok =? 0) then addr4_wf (addr4_of dst) /\ dotted 4 src (addr4_bytes (addr4_of dst))
  else forall a, ~ dotted 4 src (addr4_bytes a).
Proof.
  destruct (parse_dotted_iff src) as (Hiff & _ & Hb & Hok).
  destruct (ak_parse_dotted src) as [dst ok]. cbn [fst snd] in *. destruct Hok as [-> | ->]; cbn [Z.eqb negb].
  - intros a Ha. apply Hiff in Ha. congruence.
  - pose proof (proj1 (Hiff dst) eq_refl) as Hd. pose proof (dotted_length _ _ _ Hd) as Hl.
    do 5 (destruct dst as [|? dst]; try discriminate Hl). split; [|exact Hd].
    repeat (apply Forall_cons in Hb as [? Hb]). by split_and!.
Qed.

Section HostSpec.
Context {W : Type} `{!Bridge W, !Libc W}.

(** The world once the network was attached, if it was not yet. *)
Definition attached (w : W) : W :=
  if aknet_sock_endpoint w =? 0 then aknet_sock_attach 6 w else w.

(** [names_host node flags w a w']: in the world [w] the text [node] names the
    host [a], or none; the world is [w'] afterwards.  No text is any address
    for a passive socket (AI_PASSIVE, bit 0) and our own address otherwise,
    from the file Net:address with 10.0.2.15 as the default; a dotted text is
    itself; any other text is for the resolver, unless only numbers are
    allowed (AI_NUMERICHOST, bit 2). *)
Inductive names_host (node : list Z) (flags : Z) (w : W) : option addr4 -> W -> Prop :=
| host_any : cstr node = [] -> Z.testbit flags 0 = true ->
    names_host node flags w (Some (A4 0 0 0 0)) w
| host_own buf a w' : cstr node = [] -> Z.testbit flags 0 = false ->
    read_file (bytes "Net:address") 63 w = (Some buf, w') -> dotted 4 buf (addr4_bytes a) ->
    names_host node flags w (Some a) w'
| host_default f w' : cstr node = [] -> Z.testbit flags 0 = false ->
    read_file (bytes "Net:address") 63 w = (f, w') ->
    (forall buf a, f = Some buf -> ~ dotted 4 buf (addr4_bytes a)) ->
    names_host node flags w (Some (A4 10 0 2 15)) w'
| host_dotted a : cstr node <> [] -> dotted 4 node (addr4_bytes a) ->
    names_host node flags w (Some a) w
| host_not_numeric : cstr node <> [] -> (forall a, ~ dotted 4 node (addr4_bytes a)) ->
    Z.testbit flags 2 = true -> names_host node flags w None w
| host_offline : cstr node <> [] -> (forall a, ~ dotted 4 node (addr4_bytes a)) ->
    Z.testbit flags 2 = false -> aknet_sock_endpoint (attached w) = 0 ->
    names_host node flags w None (attached w)
| host_resolved st ip w' : cstr node <> [] -> (forall a, ~ dotted 4 node (addr4_bytes a)) ->
    Z.testbit flags 2 = false -> aknet_sock_endpoint (attached w) <> 0 ->
    aknet_sock_resolve (cstr node) (Z.of_nat (length (cstr node))) (attached w) = ((st, ip), w') ->
    names_host node flags w
      (if decide (st = AK_ST_OK)
       then Some (A4 (ip / 16777216 mod 256) (ip / 65536 mod 256) (ip / 256 mod 256) (ip mod 256))
       else None) w'.

Lemma own_address_spec (s : gs W) :
  wp ak_own_address (fun ip s' => heap s' = heap s /\ exists a, addr4_wf a /\ ip = ak_addr_to_u32 a /\
    forall node flags, cstr node = [] -> Z.testbit flags 0 = false ->
      names_host node flags (world s) (Some a) (world s')) s.
Proof.
  unfold wp, ak_own_address, bindM, call.
  destruct (read_file (bytes "Net:address") 63 (world s)) as [f w'] eqn:Ef.
  assert (Hdef : (forall buf a, f = Some buf -> ~ dotted 4 buf (addr4_bytes a)) ->
    exists a, addr4_wf a /\ own_default = ak_addr_to_u32 a /\
    forall node flags, cstr node = [] -> Z.testbit flags 0 = false -> names_host node flags (world s) (Some a) w').
  { intros Hf. exists (A4 10 0 2 15). split; [unfold addr4_wf; cbn; int_lia|]. split; [done|].
    intros node flags Hn Hb. by apply (host_default node flags (world s) f w'). }
  destruct f as [buf|]; [|split; [done|]; by apply Hdef].
  pose proof (parse_dotted_cases buf) as Hp. destruct (ak_parse_dotted buf) as [dst ok].
  destruct (negb (ok =? 0)); (split; [done|]).
  - destruct Hp as [Hwf Hd]. exists (addr4_of dst). split; [done|]. split; [done|]. intros node flags Hn Hb.
    by apply (host_own node flags (world s) buf (addr4_of dst) w').
  - apply Hdef. intros buf' a [= <-]. apply Hp.
Qed.

Lemma dns_query_spec n flags (s : gs W) :
  cstr n <> [] -> (forall a, ~ dotted 4 n (addr4_bytes a)) -> Z.testbit flags 2 = false ->
  wp (ak_dns_query n) (fun r s' => heap s' = heap s /\ addr4_wf r.2 /\
    names_host n flags (world s) (if r.1 : bool then Some r.2 else None) (world s')) s.
Proof.
  intros Hn Hd Hb. unfold wp, ak_dns_query, ak_ensure_net, bindM, getsM, call, retM.
  pose proof (host_offline n flags (world s) Hn Hd Hb) as Hoff.
  pose proof (fun st ip w' => host_resolved n flags (world s) st ip w' Hn Hd Hb) as Hres.
  assert (Hatt : exists s1, heap s1 = heap s /\ world s1 = attached (world s) /\
    (if aknet_sock_endpoint (world s) =? 0
     then Done tt (with_world (aknet_sock_attach 6 (world s)) s) else Done tt s) = Done tt s1).
  { unfold attached. destruct (_ =? 0); eexists; (split; [|split; [|reflexivity]]); done. }
  destruct Hatt as (s1 & Hh & Hw & E).
  replace ((if aknet_sock_endpoint (world s) =? 0
     then fun s0 => Done tt (with_world (aknet_sock_attach 6 (world s0)) s0) else fun s0 => Done tt s0) s)
    with (@Done (gs W) unit tt s1) by (rewrite <- E; by destruct (_ =? 0)).
  rewrite Hw. destruct (Z.eqb_spec (aknet_sock_endpoint (attached (world s))) 0) as [E0|E0]; cbn [negb Z.eqb].
  { cbn. split; [done|]. split; [unfold addr4_wf; cbn; int_lia|]. rewrite Hw. by apply Hoff. }
  cbv beta. rewrite Hw. destruct (aknet_sock_resolve _ _ _) as [[st ip] w'] eqn:Er. specialize (Hres st ip w' E0 eq_refl).
  cbv beta iota. destruct (Z.eqb_spec st AK_ST_OK) as [->|Hst].
  - rewrite decide_True in Hres by done. cbn. split; [done|]. split; [apply ak_u32_to_addr_wf|].
    by rewrite ak_u32_to_addr_spec.
  - rewrite decide_False in Hres by done. cbn. split; [done|]. split; [unfold addr4_wf; cbn; int_lia | done].
Qed.

Lemma gai_node_spec node flags (s : gs W) :
  wp (gai_node node flags) (fun r s' => heap s' = heap s /\
    match r with
    | inl e => e = AK_EAI_NONAME /\ names_host (default [] node) flags (world s) None (world s')
    | inr ip => exists a, addr4_wf a /\ ip = ak_addr_to_u32 a /\
                names_host (default [] node) flags (world s) (Some a) (world s')
    end) s.
Proof.
  assert (Hown : cstr (default [] node) = [] ->
    wp (if negb (Z.land flags 1 =? 0) then retM (inr 0)
        else let* a := ak_own_address in retM (inr a) : M (gs W) (Z + Z))
      (fun r s' => heap s' = heap s /\
        match r with
        | inl e => e = AK_EAI_NONAME /\ names_host (default [] node) flags (world s) None (world s')
        | inr ip => exists a, addr4_wf a /\ ip = ak_addr_to_u32 a /\
                    names_host (default [] node) flags (world s) (Some a) (world s')
        end) s).
  { intros Hn. change 1 with (2 ^ 0) at 1. rewrite (flag_bit flags 0) by lia. destruct (Z.testbit flags 0) eqn:Eb.
    - unfold wp, retM. split; [done|]. exists (A4 0 0 0 0). split; [unfold addr4_wf; cbn; int_lia|]. split; [done | by apply host_any].
    - apply wp_bind. eapply wp_mono; [|apply own_address_spec]. intros ip s' (Hh & a & Hwf & -> & Ha).
      unfold wp, retM. split; [done|]. exists a. split; [done|]. split; [done | by apply Ha]. }
  unfold gai_node. destruct node as [n|]; [|by apply Hown]. case_bool_decide as Hn; [by apply Hown|].
  clear Hown. cbn [default from_option id]. pose proof (parse_dotted_cases n) as Hp.
  destruct (ak_parse_dotted n) as [dst ok]. destruct (negb (ok =? 0)).
  { destruct Hp as [Hwf Hd]. unfold wp, retM. split; [done|]. exists (addr4_of dst). split; [done|]. split; [done|]. by apply host_dotted. }
  change 4 with (2 ^ 2) at 1. rewrite (flag_bit flags 2) by lia. destruct (Z.testbit flags 2) eqn:Eb.
  { unfold wp, retM. split; [done|]. split; [done|]. by apply host_not_numeric. }
  apply wp_bind. eapply wp_mono; [|by apply (dns_query_spec n flags s)].
  intros [found ip] s' (Hh & Hwf & H). cbn [fst snd] in *. destruct found; unfold wp, retM; (split; [done|]); [by exists ip | done].
Qed.

(** ** The result *)

(** The address block of the host [a] and a port: the port field, read as a
    little-endian word, has the high byte of the port first in memory. *)
Definition inet_block (a : addr4) (port : Z) : ak_sockaddr_in :=
  SockaddrIn AK_AF_INET (port mod 256 * 256 + port / 256) a (replicate 8 0).

Lemma mk_sockaddr_block a port : addr4_wf a -> in_u16 port ->
  mk_sockaddr (ak_addr_to_u32 a) port = inet_block a port.
Proof.
  intros Ha Hp. unfold mk_sockaddr, inet_block. by rewrite ak_sw16_spec, u32_addr_roundtrip.
Qed.

(** What a successful call must return for a hinted socket type. *)
Definition wanted (socktype : Z) (x : ak_sockaddr_in) : list (Z * Z * ak_sockaddr_in) :=
  (if (socktype =? 0) || (socktype =? AK_SOCK_STREAM)
   then [(AK_SOCK_STREAM, AK_IPPROTO_TCP, x)] else [])
  ++ (if (socktype =? 0) || (socktype =? AK_SOCK_DGRAM)
      then [(AK_SOCK_DGRAM, AK_IPPROTO_UDP, x)] else []).

Definition hint_flags_of (hints : option gai_hints) : Z :=
  match hints with Some h => hint_flags h | None => 0 end.
Definition hint_type_of (hints : option gai_hints) : Z :=
  match hints with Some h => hint_socktype h | None => 0 end.
Definition hint_family_of (hints : option gai_hints) : Z :=
  match hints with Some h => hint_family h | None => 0 end.

(** The two outcomes of the building of the list: a result list over the old
    blocks, or an error after an allocation that failed and the old blocks. *)
Definition built (flags socktype : Z) (x : ak_sockaddr_in) (s : gs W) (r : Z * Z) (s' : gs W) : Prop :=
  heap_ok s' /\
  (r = (AK_EAI_MEMORY, 0) /\ blocks (heap s') = blocks (heap s) /\ malloced (world s) false (world s')
   \/ r.1 = 0 /\ malloced (world s) true (world s') /\
      chain (blocks (heap s)) flags (wanted socktype x) r.2 (blocks (heap s'))).
(** Linking the second node behind the first gives the two-element chain. *)
Lemma link_chain B flags x a1 sa1 a2 sa2 (s : gs W) :
  heap_ok s -> fresh2 B a1 sa1 ->
  let B1 := node_over B a1 sa1 (node_of flags AK_SOCK_STREAM AK_IPPROTO_TCP sa1 0) x in
  fresh2 B1 a2 sa2 ->
  blocks (heap s) = node_over B1 a2 sa2 (node_of flags AK_SOCK_DGRAM AK_IPPROTO_UDP sa2 0) x ->
  wp (gai_link a1 a2)
    (fun _ s' => heap_ok s' /\ world s' = world s /\
       chain B flags [(AK_SOCK_STREAM, AK_IPPROTO_TCP, x); (AK_SOCK_DGRAM, AK_IPPROTO_UDP, x)]
         a1 (blocks (heap s'))) s.
Proof.
  intros Hok (Ha1 & Hs1 & Hn1 & Fa1 & Fs1) B1 (Ha2 & Hs2 & Hn2 & Fa2 & Fs2) Hb.
  unfold B1, node_over in Fa2, Fs2.
  rewrite !lookup_insert_None in Fa2. rewrite !lookup_insert_None in Fs2.
  destruct Fa2 as ((Fa2 & ?) & ?), Fs2 as ((Fs2 & ?) & ?).
  assert (blocks (heap s) !! a1 = Some (HNode (node_of flags AK_SOCK_STREAM AK_IPPROTO_TCP sa1 0))) as Hl.
  { rewrite Hb. unfold B1, node_over. by rewrite (lookup_insert_ne _ a2), (lookup_insert_ne _ sa2), lookup_insert_eq by done. }
  unfold gai_link. apply Z.eqb_neq in Ha1 as Ha1'. rewrite Ha1'. apply wp_bind. unfold wp at 1, getsM, load_node.
  rewrite Hl. eapply wp_mono; [|apply store_spec; [done|by rewrite Hl]].
  intros [] s' (Hok' & Hb' & Hw'). split; [done|]. split; [done|]. rewrite Hb', Hb.
  set (B2 := node_over B a2 sa2 (node_of flags AK_SOCK_DGRAM AK_IPPROTO_UDP sa2 0) x).
  assert (fresh2 B2 a1 sa1) as Hf.
  { unfold B2, node_over. split_and!; try done; rewrite !lookup_insert_ne by done; done. }
  match goal with |- chain _ _ _ _ ?m =>
    replace m with (node_over B2 a1 sa1 (node_of flags AK_SOCK_STREAM AK_IPPROTO_TCP sa1 a2) x) end.
  - constructor; [|done]. unfold B2. constructor; [constructor|]. by split_and!.
  - unfold B2, B1, node_over, node_of. cbn. apply map_eq. intros i.
    rewrite !lookup_insert. repeat case_decide; congruence.
Qed.

Lemma gai_build_spec ip port socktype flags (s : gs W) :
  heap_ok s -> socktype = 0 \/ socktype = AK_SOCK_STREAM \/ socktype = AK_SOCK_DGRAM ->
  wp (gai_build ip port socktype flags) (built flags socktype (mk_sockaddr ip port) s) s.
Proof.
  intros Hok Hst. unfold gai_build, built, wanted. cbv zeta. apply wp_bind.
  destruct ((socktype =? 0) || (socktype =? AK_SOCK_STREAM)) eqn:Ew.
  - eapply wp_mono; [|by apply mk_addrinfo_spec]. intros a1 s1 (Hok1 & Hm1 & [[-> Hb1]|(sa1 & Hf1 & Hb1)]).
    { cbn [andb Z.eqb]. apply wp_bind. unfold wp. cbn. split; [done|]. by left. }
    pose proof Hf1 as (Hne & _). apply Z.eqb_neq in Hne. rewrite Hne in *. cbn [andb negb] in *.
    assert (chain (blocks (heap s)) flags [(AK_SOCK_STREAM, AK_IPPROTO_TCP, mk_sockaddr ip port)] a1
      (blocks (heap s1))) as Hch by (rewrite Hb1; constructor; [constructor|done]).
    destruct ((socktype =? 0) || (socktype =? AK_SOCK_DGRAM)) eqn:Ed; [|by split; [|right]].
    apply wp_bind. eapply wp_mono; [|by apply mk_addrinfo_spec].
    intros a2 s2 (Hok2 & Hm2 & Ha2). pose proof (malloced_trans _ _ _ _ _ Hm1 Hm2) as Hm. cbn [andb] in Hm.
    destruct Ha2 as [[-> Hb2]|(sa2 & Hf2 & Hb2)].
    + cbn [Z.eqb negb] in *. apply wp_bind.
      eapply wp_mono; [|eapply (gai_unwind_chain (blocks (heap s)) flags); [done|rewrite Hb2; exact Hch|cbn; lia]].
      intros [] s3 (Hok3 & Hb3 & Hw3). unfold wp. cbn. split; [done|]. left. by rewrite Hw3.
    + pose proof Hf2 as (Hne2 & _). apply Z.eqb_neq in Hne2. rewrite Hne2 in *. cbn [negb] in Hm. apply wp_bind.
      rewrite Hb1 in Hf2, Hb2.
      eapply wp_mono; [|by apply (link_chain (blocks (heap s)) flags (mk_sockaddr ip port) a1 sa1 a2 sa2 s2)].
      intros [] s3 (Hok3 & Hw3 & Hc3). unfold wp. cbn. split; [done|]. right. by rewrite Hw3.
  - unfold wp at 1, retM. cbn [andb Z.eqb].
    destruct ((socktype =? 0) || (socktype =? AK_SOCK_DGRAM)) eqn:Ed.
    2: { exfalso. apply orb_false_iff in Ew as [E0 E1], Ed as [_ E2]. bool_to_prop. lia. }
    apply wp_bind. eapply wp_mono; [|by apply mk_addrinfo_spec].
    intros a2 s2 (Hok2 & Hm2 & [[-> Hb2]|(sa2 & Hf2 & Hb2)]).
    + cbn [Z.eqb negb] in *. unfold wp. cbn. split; [done|]. by left.
    + pose proof Hf2 as (Hne2 & _). apply Z.eqb_neq in Hne2. rewrite Hne2 in *. unfold wp. cbn.
      split; [done|]. right. split; [done|]. split; [done|]. rewrite Hb2. constructor; [constructor|done].
Qed.

(** What a call promises, from the state [s] to [s'] with the results [rc] and
    [*res]. *)
Definition gai_promise (node service : option (list Z)) (hints : option gai_hints)
    (s : gs W) (rc res : Z) (s' : gs W) : Prop :=
  let host := names_host (default [] node) (hint_flags_of hints) (world s) in
  (res = 0 /\ blocks (heap s') = blocks (heap s) /\
   (rc = AK_EAI_FAMILY /\ hint_family_of hints ∉ [0; AK_AF_INET]
    \/ rc = AK_EAI_SOCKTYPE /\ hint_type_of hints ∉ [0; AK_SOCK_STREAM; AK_SOCK_DGRAM]
    \/ rc = AK_EAI_NONAME /\ host None (world s')
    \/ rc = AK_EAI_SERVICE /\ (forall port, ~ names_port service port)
    \/ rc = AK_EAI_MEMORY /\ exists a w, host (Some a) w /\ malloced w false (world s')))
  \/ (rc = 0 /\ exists a port w, host (Some a) w /\ malloced w true (world s') /\ names_port service port /\
      chain (blocks (heap s)) (hint_flags_of hints) (wanted (hint_type_of hints) (inet_block a port))
        res (blocks (heap s'))).

Lemma getaddrinfo_outcome node service hints (s : gs W) :
  heap_ok s ->
  wp (gnat_getaddrinfo node service hints)
    (fun r s' => heap_ok s' /\ gai_promise node service hints s r.1 r.2 s') s.
Proof.
  intros Hok. unfold gnat_getaddrinfo. cbv zeta.
  fold (hint_flags_of hints) (hint_type_of hints) (hint_family_of hints). unfold gai_promise. cbv zeta.
  destruct (negb _ && negb _) eqn:Ef.
  { unfold wp. cbn. split; [done|]. left. split; [done|]. split; [done|]. left. split; [done|].
    rewrite andb_true_iff, !negb_true_iff, !Z.eqb_neq in Ef. set_solver. }
  destruct (_ && _ && _) eqn:Et.
  { unfold wp. cbn. split; [done|]. left. split; [done|]. split; [done|]. right. left. split; [done|].
    rewrite !andb_true_iff, !negb_true_iff, !Z.eqb_neq in Et. set_solver. }
  assert (hint_type_of hints = 0 \/ hint_type_of hints = AK_SOCK_STREAM \/ hint_type_of hints = AK_SOCK_DGRAM) as Hst.
  { rewrite !andb_false_iff, !negb_false_iff, !Z.eqb_eq in Et. tauto. }
  apply wp_bind. eapply wp_mono; [|apply gai_node_spec]. intros r s1 [Hh Hr].
  assert (Hok1 : heap_ok s1) by (unfold heap_ok; by rewrite Hh).
  destruct r as [e|ip]; [destruct Hr as [-> Hr]; unfold wp; cbn; rewrite Hh; by auto 10|].
  destruct Hr as (a & Ha & -> & Hhost). pose proof (gai_service_spec service) as Hsv.
  destruct (gai_service service) as [e|port]; [destruct Hsv as [-> Hsv]; unfold wp; cbn; rewrite Hh; by auto 10|].
  destruct Hsv as [Hp Hsv]. eapply wp_mono; [|by apply gai_build_spec].
  intros [rc res] s' (Hok' & H). rewrite Hh, mk_sockaddr_block in H by done. cbn [fst snd] in *. split; [done|].
  destruct H as [([= -> ->] & Hb & Hm)|(-> & Hm & Hc)]; [left | right].
  - split; [done|]. split; [done|]. do 4 right. by eauto.
  - split; [done|]. by exists a, port, (world s1).
Qed.

(** C35. What [__gnat_getaddrinfo] returns, whichever of its allocations fail.
    On success the result is a list with one node per socket type asked for
    (both when none was hinted, stream first), each with its own address
    block, over the blocks that were there before; the address block holds
    the four bytes of the host that the node text names and, in network
    order, the port that the service text names.  Every error has its cause (a
    family or socket type that is not offered, a text that names no host or no
    port, an allocation that failed) and leaves the heap as it was. *)
Theorem getaddrinfo_result node service hints (s : gs W) :
  heap_ok s ->
  wp (gnat_getaddrinfo node service hints)
    (fun '(rc, res) s' => heap_ok s' /\ gai_promise node service hints s rc res s') s.
Proof.
  intros Hok. eapply wp_mono; [|by apply getaddrinfo_outcome]. by intros [rc res] s' H.
Qed.

(** Freeing the result of [__gnat_getaddrinfo] with
    [__gnat_freeaddrinfo] gives back exactly the blocks that were allocated:
    no block leaks, none is freed twice, and none that was there before is
    touched, whatever the call returned. *)
Theorem getaddrinfo_freed node service hints (s : gs W) :
  heap_ok s ->
  wp (let* '(rc, res) := gnat_getaddrinfo node service hints in gnat_freeaddrinfo 3 res)
    (fun _ s' => heap_same s s') s.
Proof.
  intros Hok. apply wp_bind. eapply wp_mono; [|by apply getaddrinfo_outcome].
  intros [rc res] s1 [Hok1 [(Hres & Hb & _)|(_ & a & port & w & _ & _ & _ & Hc)]]; cbn in *.
  - subst res. by split.
  - eapply wp_mono; [|apply (freeaddrinfo_chain (blocks (heap s)) _ _ 3 res s1 Hok1 Hc)].
    + intros _ s' (? & ? & _). by split.
    + unfold wanted. repeat split_if; cbn; lia.
Qed.

End HostSpec.

(** ** Examples *)

(** The second allocation of the second node fails. *)
Definition demo_oom : gs script :=
  gs_init (script_mallocs [true; true; true; false] (demo_script [] [] [] [])).

(** All allocations succeed. *)
Definition demo_mem : gs script :=
  gs_init (script_mallocs [true; true; true; true] (demo_script [] [] [] [])).

Lemma demo_heap_ok (w : script) : heap_ok (gs_init w).
Proof. split_and!; cbn; [lia | reflexivity | intros p [x Hx]; by rewrite lookup_empty in Hx]. Qed.

(** A datagram socket at 10.0.0.1, service http: one node, whose address block
    has the port field 80 * 256; with a failing allocation, the error and an
    empty heap. *)
Lemma getaddrinfo_result_witness :
  let hints := Some (Hints 0 AK_AF_INET AK_SOCK_DGRAM) in
  (exists s', gnat_getaddrinfo (Some (bytes "10.0.0.1")) (Some (bytes "http")) hints demo_mem = Done (0, 1) s' /\
     blocks (heap s') =
       {[ 1 := HNode (AddrInfo 0 AK_AF_INET AK_SOCK_DGRAM AK_IPPROTO_UDP 16 2 0 0);
          2 := HAddr (SockaddrIn AK_AF_INET 20480 (A4 10 0 0 1) (replicate 8 0)) ]}) /\
  (exists s', gnat_getaddrinfo (Some (bytes "10.0.0.1")) (Some (bytes "http")) None demo_oom =
     Done (AK_EAI_MEMORY, 0) s' /\ blocks (heap s') = ∅) /\
  wp (gnat_getaddrinfo (Some (bytes "10.0.0.1")) (Some (bytes "http")) hints)
    (fun '(rc, res) s' => heap_ok s' /\
       gai_promise (Some (bytes "10.0.0.1")) (Some (bytes "http")) hints demo_mem rc res s') demo_mem.
Proof.
  split; [eexists; split; vm_compute; reflexivity|].
  split; [eexists; split; vm_compute; reflexivity|].
  apply (getaddrinfo_result (Some (bytes "10.0.0.1")) (Some (bytes "http"))
           (Some (Hints 0 AK_AF_INET AK_SOCK_DGRAM)) demo_mem (demo_heap_ok _)).
Defined.

Lemma getaddrinfo_freed_witness :
  wp (let* '(rc, res) := gnat_getaddrinfo (Some (bytes "10.0.0.1")) (Some (bytes "80")) None in
      gnat_freeaddrinfo 3 res) (fun _ s' => heap_same demo_oom s') demo_oom.
Proof.
  apply (getaddrinfo_freed (Some (bytes "10.0.0.1")) (Some (bytes "80")) None demo_oom (demo_heap_ok _)).
Defined.
