(* ===== verification/TableInv.v ===== *)
(** * The table's invariant and the accounting of bridge handles

    [acct t L]: the open sockets of table [t] hold exactly the handles of
    [L], each in one entry.  Under [BridgeLaws] every call keeps
    [table_inv]: the table well formed and the bridge's live handles exactly
    the table's.  A handle that the table lost or that two entries share
    would be a leak or a use after close on the netserv side. *)
From S2P Require Import Prelude CInt Bridge FdTable SockCalls Transfer SockOpts.

(** ** Allocation *)

Lemma ak_alloc_scan_Some n fd t r :
  0 <= fd -> ak_alloc_scan n fd t = Some r ->
  fd <= r < fd + Z.of_nat n /\ (exists e, t !! Z.to_nat r = Some e /\ used e = false)
  /\ (forall j e, fd <= j < r -> t !! Z.to_nat j = Some e -> used e = true).
Proof.
  revert fd. induction n as [|n IH]; intros fd Hfd; [done|]. cbn [ak_alloc_scan].
  destruct (t !! Z.to_nat fd) as [e|] eqn:E; [|done].
  destruct (used e) eqn:U.
  - intros (Hr & Hex & Hall)%IH; [|lia]. split_and!; [lia|lia|done|].
    intros j e' Hj He'. destruct (decide (j = fd)) as [->|]; [congruence|].
    apply (Hall j e'); [lia|done].
  - intros [= <-]. split_and!; [lia|lia|eauto|]. intros. lia.
Qed.

Lemma ak_alloc_scan_None n fd t :
  0 <= fd -> (Z.to_nat fd + n <= length t)%nat -> ak_alloc_scan n fd t = None ->
  forall j e, fd <= j < fd + Z.of_nat n -> t !! Z.to_nat j = Some e -> used e = true.
Proof.
  revert fd. induction n as [|n IH]; intros fd Hfd Hlen; [lia|]. cbn [ak_alloc_scan].
  destruct (lookup_lt_is_Some_2 t (Z.to_nat fd)) as [e E]; [lia|]. rewrite E.
  destruct (used e) eqn:U; [|done]. intros Hn j e' Hj He'.
  destruct (decide (j = fd)) as [->|]; [congruence|].
  apply (IH (fd + 1) ltac:(lia) ltac:(lia) Hn j e'); [lia|done].
Qed.

(** A full table: every descriptor from 3 up is taken. *)
Definition table_full (t : list ak_sock) : Prop :=
  forall j e, AK_FD_FIRST <= j < AK_FD_MAX -> t !! Z.to_nat j = Some e -> used e = true.

(** A free descriptor, and the least one. *)
Definition least_free (t : list ak_sock) (fd : Z) : Prop :=
  AK_FD_FIRST <= fd < AK_FD_MAX
  /\ (exists e, t !! Z.to_nat fd = Some e /\ used e = false)
  /\ (forall j e, AK_FD_FIRST <= j < fd -> t !! Z.to_nat j = Some e -> used e = true).

Section Alloc.
Context {W : Type}.

Lemma ak_alloc_spec (s : gs W) :
  length (ak_fds s) = Z.to_nat AK_FD_MAX ->
  (exists fd, least_free (ak_fds s) fd /\
     ak_alloc s = Done fd (with_fds (<[Z.to_nat fd := fresh_sock]> (ak_fds s)) s))
  \/ (table_full (ak_fds s) /\ ak_alloc s = Done (-1) (with_errno EMFILE s)).
Proof.
  intros Hlen. unfold ak_alloc, bindM, getsM.
  destruct (ak_alloc_scan _ _ _) as [fd|] eqn:E.
  - left. exists fd. apply ak_alloc_scan_Some in E as (Hr & (e & He & Hu) & Hall); [|done].
    unfold AK_FD_FIRST, AK_FD_MAX in *. split.
    + unfold least_free, AK_FD_FIRST, AK_FD_MAX. split_and!; [lia|lia|eauto|eauto].
    + unfold upd_fd, modifyM, retM. by rewrite (alter_as_insert _ _ _ e He).
  - right. split; [|done]. intros j e Hj Hje. unfold AK_FD_MAX, AK_FD_FIRST in *.
    eapply ak_alloc_scan_None; [..|exact Hje]; [| |exact E|]; lia.
Qed.

End Alloc.

(** Assignments to an entry just stored. *)
Lemma upd_fd_insert {W} fd f x t (s : gs W) :
  (Z.to_nat fd < length t)%nat ->
  upd_fd fd f (with_fds (<[Z.to_nat fd := x]> t) s)
  = Done tt (with_fds (<[Z.to_nat fd := f x]> t) s).
Proof.
  intros Hl. unfold upd_fd, modifyM. cbn. f_equal. unfold with_fds; cbn. f_equal.
  rewrite (alter_as_insert f _ _ x) by (by apply list_lookup_insert_eq).
  by rewrite list_insert_insert_eq.
Qed.

Lemma upd_fd_insert_other {W} r w f x y t (s : gs W) :
  Z.to_nat r <> Z.to_nat w -> (Z.to_nat r < length t)%nat ->
  upd_fd r f (with_fds (<[Z.to_nat w := x]> (<[Z.to_nat r := y]> t)) s)
  = Done tt (with_fds (<[Z.to_nat w := x]> (<[Z.to_nat r := f y]> t)) s).
Proof.
  intros Hne Hl. rewrite !(list_insert_insert_ne _ (Z.to_nat w)) by done.
  apply upd_fd_insert. by rewrite length_insert.
Qed.

Lemma least_free_lt t fd : least_free t fd -> (Z.to_nat fd < length t)%nat.
Proof. intros (_ & (e & He & _) & _). by eapply lookup_lt_Some. Qed.

Lemma least_free_nonneg t fd : least_free t fd -> (fd <? 0) = false.
Proof. intros (Hr & _). unfold AK_FD_FIRST in *. apply Z.ltb_ge. lia. Qed.

(** ** Accounting *)

Definition is_open (e : ak_sock) : Prop := used e = true /\ kind e = AK_KIND_SOCK.

#[export] Instance is_open_dec e : Decision (is_open e).
Proof. unfold is_open. apply _. Defined.

Record acct (t : list ak_sock) (L : gset Z) : Prop := {
  acct_sound i e : t !! i = Some e -> is_open e -> handle e ∈ L;
  acct_complete h : h ∈ L -> exists i e, t !! i = Some e /\ is_open e /\ handle e = h;
  acct_inj i j e e' : t !! i = Some e -> t !! j = Some e' -> is_open e -> is_open e' ->
    handle e = handle e' -> i = j
}.

Lemma acct_insert_open t L i e e' :
  acct t L -> t !! i = Some e -> used e = false -> is_open e' -> handle e' ∉ L ->
  acct (<[i := e']> t) ({[handle e']} ∪ L).
Proof.
  intros [Hs Hc Hi] Hei Hu Ho Hfr.
  assert (i < length t)%nat as Hlt by (by eapply lookup_lt_Some).
  split.
  - intros j ej. rewrite list_lookup_insert. case_decide as D; [|set_solver].
    intros [= <-] _. set_solver.
  - intros h [->%elem_of_singleton|Hh]%elem_of_union.
    + exists i, e'. rewrite list_lookup_insert_eq by done. done.
    + destruct (Hc h Hh) as (j & ej & Hj & Hoj & <-). exists j, ej.
      rewrite list_lookup_insert_ne; [done|]. intros <-. destruct Hoj. congruence.
  - intros j k ej ek. rewrite !list_lookup_insert.
    case_decide as Dj; case_decide as Dk.
    + destruct Dj, Dk. congruence.
    + intros [= <-] Hk _ Hok Heq. exfalso. apply Hfr. rewrite Heq. eauto.
    + intros Hj [= <-] Hoj _ Heq. exfalso. apply Hfr. rewrite <- Heq. eauto.
    + eauto.
Qed.

(** Storing a closed entry over a closed one keeps the account. *)
Lemma acct_insert_closed t L i e e' :
  acct t L -> t !! i = Some e -> ~ is_open e -> ~ is_open e' -> acct (<[i := e']> t) L.
Proof.
  intros [Hs Hc Hi] Hei Hno Hno'. split.
  - intros j ej. rewrite list_lookup_insert. case_decide as D; [|eauto].
    intros [= <-]. done.
  - intros h Hh. destruct (Hc h Hh) as (j & ej & Hj & Hoj & <-). exists j, ej.
    rewrite list_lookup_insert_ne; [done|]. intros <-. congruence.
  - intros j k ej ek. rewrite !list_lookup_insert.
    case_decide as D1; case_decide as D2; try naive_solver.
Qed.

(** Updates that keep a descriptor's openness and handle keep the account. *)
Lemma acct_alter_keep t L i f :
  acct t L ->
  (forall e, t !! i = Some e -> (is_open (f e) <-> is_open e) /\ handle (f e) = handle e) ->
  acct (alter f i t) L.
Proof.
  intros [Hs Hc Hi] Hf.
  assert (forall j e, alter f i t !! j = Some e -> is_open e ->
          exists e0, t !! j = Some e0 /\ is_open e0 /\ handle e0 = handle e) as Hback.
  { intros j e. rewrite list_lookup_alter_decide. case_decide; [subst|eauto].
    destruct (t !! j) as [e0|] eqn:E; [|done]. cbn. intros [= <-] Ho.
    destruct (Hf e0 eq_refl). naive_solver. }
  split.
  - intros j e Hj Ho. destruct (Hback j e Hj Ho) as (e0 & ? & ? & <-). eauto.
  - intros h Hh. destruct (Hc h Hh) as (j & ej & Hj & Hoj & <-).
    destruct (decide (i = j)) as [->|].
    + exists j, (f ej). rewrite list_lookup_alter_decide, decide_True, Hj by done.
      destruct (Hf ej Hj). naive_solver.
    + exists j, ej. by rewrite list_lookup_alter_ne.
  - intros j k ej ek Hj Hk Hoj Hok Heq.
    destruct (Hback j ej Hj Hoj) as (e1 & ? & ? & E1).
    destruct (Hback k ek Hk Hok) as (e2 & ? & ? & E2). eapply Hi; [done..|congruence].
Qed.

Lemma acct_close t L i e :
  acct t L -> t !! i = Some e -> is_open e ->
  acct (alter (set_used false) i t) (L ∖ {[handle e]}).
Proof.
  intros [Hs Hc Hi] Hei Ho.
  assert (forall j ej, alter (set_used false) i t !! j = Some ej -> is_open ej ->
                       j <> i /\ t !! j = Some ej) as Hback.
  { intros j ej. rewrite list_lookup_alter_decide. case_decide; [subst|done].
    rewrite Hei. cbn. intros [= <-] [? _]. done. }
  split.
  - intros j ej Hj Hoj. destruct (Hback j ej Hj Hoj) as [Hne Hj'].
    apply elem_of_difference. split; [eauto|]. intros Heq%elem_of_singleton.
    apply Hne. eapply Hi; eauto.
  - intros h [Hh Hne]%elem_of_difference.
    destruct (Hc h Hh) as (j & ej & Hj & Hoj & <-). exists j, ej.
    rewrite list_lookup_alter_ne; [done|]. intros ->.
    assert (e = ej) as -> by congruence. set_solver.
  - intros j k ej ek Hj Hk Hoj Hok Heq.
    destruct (Hback j ej Hj Hoj), (Hback k ek Hk Hok). eauto.
Qed.

(** ** Well-formedness of entries under the field assignments *)

Lemma sock_wf_fresh : sock_wf fresh_sock.
Proof.
  split; cbn; unfold AK_NOPT; try int_lia; try done.
  unfold live_opts; constructor.
Qed.

Lemma sock_wf_zero : sock_wf zero_sock.
Proof.
  split; cbn; unfold AK_NOPT; try int_lia; try done.
  unfold live_opts; constructor.
Qed.

Ltac sock_wf_tac :=
  intros [? ? ? ? ? ? ? ?]; split; cbn; try done; try int_lia;
  try solve [unfold live_opts in *; cbn in *; done].

Lemma sock_wf_used v e : sock_wf e -> sock_wf (set_used v e).
Proof. sock_wf_tac. Qed.
Lemma sock_wf_kind v e :
  v = AK_KIND_SOCK \/ v = AK_KIND_SIGR \/ v = AK_KIND_SIGW -> sock_wf e -> sock_wf (set_kind v e).
Proof. intros Hv. sock_wf_tac. Qed.
Lemma sock_wf_proto v e : listening e = false -> sock_wf e -> sock_wf (set_proto v e).
Proof. intros Hl. sock_wf_tac. by rewrite Hl. Qed.
Lemma sock_wf_nonblock v e : sock_wf e -> sock_wf (set_nonblock v e).
Proof. sock_wf_tac. Qed.
Lemma sock_wf_listening v e : proto e = AK_IPPROTO_TCP -> sock_wf e -> sock_wf (set_listening v e).
Proof. intros Hp. sock_wf_tac. Qed.
Lemma sock_wf_handle v e : sock_wf e -> sock_wf (set_handle v e).
Proof. sock_wf_tac. Qed.
Lemma sock_wf_local_ip v e : sock_wf e -> sock_wf (set_local_ip v e).
Proof. sock_wf_tac. Qed.
Lemma sock_wf_local_port v e : in_u16 v -> sock_wf e -> sock_wf (set_local_port v e).
Proof. intros Hv. sock_wf_tac. Qed.
Lemma sock_wf_peer ip v e : in_u16 v -> sock_wf e -> sock_wf (set_peer ip v e).
Proof. intros Hv. sock_wf_tac. Qed.
Lemma sock_wf_last_so_err v e : sock_wf e -> sock_wf (set_last_so_err v e).
Proof. sock_wf_tac. Qed.
Lemma sock_wf_partner v e : sock_wf e -> sock_wf (set_partner v e).
Proof. sock_wf_tac. Qed.
Lemma sock_wf_sig_count v e : in_u32 v -> sock_wf e -> sock_wf (set_sig_count v e).
Proof. intros Hv. sock_wf_tac. Qed.

#[export] Hint Resolve sock_wf_fresh sock_wf_used sock_wf_kind sock_wf_proto
  sock_wf_nonblock sock_wf_listening sock_wf_handle sock_wf_local_ip
  sock_wf_local_port sock_wf_peer sock_wf_last_so_err sock_wf_partner
  sock_wf_sig_count ak_sw16_range : aegir.

Lemma fds_wf_insert t i e :
  fds_wf t -> (Z.to_nat AK_FD_FIRST <= i)%nat -> sock_wf e ->
  (used e = true -> kind e <> 0) -> fds_wf (<[i := e]> t).
Proof.
  intros [Hl He Hc Hk] Hi Hwf Hkind. split.
  - by rewrite length_insert.
  - by apply Forall_insert.
  - intros j ej Hj. rewrite list_lookup_insert_ne by lia. eauto.
  - by apply (Forall_insert (fun e => used e = true -> kind e <> 0)).
Qed.

(** ** The invariant, and what a call knows of the entry it works on *)

Section Inv.
Context {W : Type} `{!Bridge W} (live : W -> gset Z) `{!BridgeLaws W live}.

Definition table_inv (s : gs W) : Prop :=
  fds_wf (ak_fds s) /\ acct (ak_fds s) (live (world s)).

(** [known (Some (fd, e))]: entry [fd] is [e], a descriptor in use. *)
Definition known (k : option (Z * ak_sock)) (s : gs W) : Prop :=
  table_inv s /\
  match k with
  | Some (fd, e) => AK_FD_FIRST <= fd < AK_FD_MAX /\ sock_at fd s = Some e /\ used e = true
                    /\ sock_wf e /\ kind e <> 0
  | None => True
  end.

(** A fresh handle stored in a free entry. *)
Lemma table_inv_install s L h fd e :
  fds_wf (ak_fds s) -> acct (ak_fds s) L -> live (world s) = {[h]} ∪ L -> h ∉ L ->
  least_free (ak_fds s) fd -> sock_wf e -> is_open e -> handle e = h ->
  table_inv (with_fds (<[Z.to_nat fd := e]> (ak_fds s)) s).
Proof.
  intros Hwf Ha Hl Hfr (Hr & (e0 & He0 & Hu0) & _) Hwe Ho Hh. split; cbn.
  - apply fds_wf_insert; [done| |done|].
    + unfold AK_FD_FIRST in *. lia.
    + intros _. destruct Ho as [_ ->]. done.
  - rewrite Hl, <- Hh. eapply acct_insert_open; try done. by rewrite Hh.
Qed.

(** An entry that is not an open socket stored over another such entry. *)
Lemma table_inv_put_closed s fd e e0 :
  table_inv s -> AK_FD_FIRST <= fd -> sock_at fd s = Some e0 -> ~ is_open e0 ->
  ~ is_open e -> sock_wf e -> (used e = true -> kind e <> 0) ->
  table_inv (with_fds (<[Z.to_nat fd := e]> (ak_fds s)) s).
Proof.
  intros [Hwf Ha] Hfd He0 Ho0 Ho Hwe Hk. unfold AK_FD_FIRST in *. split; cbn.
  - apply fds_wf_insert; auto. unfold AK_FD_FIRST in *. lia.
  - by eapply acct_insert_closed.
Qed.

Lemma ak_get_known fd e s :
  table_inv s -> ak_get fd s = Some e -> known (Some (fd, e)) s.
Proof.
  intros Hinv. unfold ak_get. destruct (_ || _) eqn:E; [done|]. bool_to_prop.
  destruct (sock_at fd s) as [e'|] eqn:Hs; [|done].
  destruct (used e') eqn:Hu; [|done]. intros [= <-].
  destruct Hinv as [[Hl He Hc Hk] Ha]. split; [done|].
  unfold sock_at in Hs. split_and!; try done.
  - by eapply Forall_lookup_1 in He.
  - eapply Forall_lookup_1 in Hk; [|exact Hs]. auto.
Qed.

Lemma h_gets k {A} (f : gs W -> A) :
  hoare (known k) (getsM f) (fun _ => known k) table_inv.
Proof. by intros s. Qed.

Lemma h_call k {A} (f : W -> A * W) :
  (forall w, live (f w).2 = live w) ->
  hoare (known k) (call f) (fun _ => known k) table_inv.
Proof.
  intros Hf s [[Hwf Ha] Hk]. unfold wlp, call. specialize (Hf (world s)).
  destruct (f (world s)) as [a w]. cbn in Hf.
  split; [split; [done|cbn; by rewrite Hf] | done].
Qed.

Lemma h_set_errno k v : hoare (known k) (set_errno v) (fun _ => known k) table_inv.
Proof. by intros s. Qed.

Lemma h_ret k {A} (a : A) : hoare (known k) (retM a) (fun _ => known k) table_inv.
Proof. by intros s. Qed.

Lemma h_fail k v : hoare (known k) (fail v) (fun _ => known k) table_inv.
Proof. by intros s. Qed.

Lemma h_upd fd e f :
  (sock_wf e -> sock_wf (f e)) ->
  used (f e) = used e -> kind (f e) = kind e -> handle (f e) = handle e ->
  hoare (known (Some (fd, e))) (upd_fd fd f) (fun _ => known (Some (fd, f e))) table_inv.
Proof.
  intros Hwf Hu Hki Hh s [[Hfd Ha] (Hr & Hs & Hus & Hwe & Hke)].
  unfold wlp, upd_fd, modifyM. unfold sock_at in Hs.
  split; [split|]; cbn.
  - rewrite (alter_as_insert f _ _ e Hs). apply fds_wf_insert; auto.
    + unfold AK_FD_FIRST in *. lia.
    + by rewrite Hki.
  - apply acct_alter_keep; [done|]. intros e' He'.
    assert (e' = e) as -> by congruence. unfold is_open. by rewrite Hu, Hki, Hh.
  - unfold sock_at; cbn. rewrite list_lookup_alter_decide, decide_True, Hs by done.
    split_and!; try done; try lia; [by rewrite Hu | auto].
Qed.

Lemma h_iter k {X A} (body : X -> M (gs W) (X + A)) fuel x :
  (forall x, hoare (known k) (body x) (fun _ => known k) table_inv) ->
  hoare (known k) (iterM fuel body x) (fun _ => known k) table_inv.
Proof.
  intros Hb. revert x. induction fuel as [|n IH]; intros x s Hs; [by destruct Hs|].
  cbn [iterM]. eapply (hoare_bind _ _ (fun _ => known k)); [apply Hb| |done].
  intros [x'|a]; [apply IH|apply h_ret].
Qed.

Lemma h_weaken k {A} (c : M (gs W) A) :
  hoare (known k) c (fun _ => known k) table_inv ->
  hoare (known k) c (fun _ => known None) table_inv.
Proof.
  intros Hc. eapply hoare_conseq; [exact Hc|done| |done].
  by intros a s [? _].
Qed.

Lemma preserves_known {A} (c : M (gs W) A) k :
  hoare (known None) c (fun _ => known k) table_inv -> preserves table_inv c.
Proof.
  intros Hc. eapply hoare_conseq; [exact Hc| | |done].
  - by intros s ?.
  - by intros a s [? _].
Qed.

Lemma h_none {A} (c : M (gs W) A) k :
  preserves table_inv c -> hoare (known k) c (fun _ => known None) table_inv.
Proof.
  intros Hc. eapply hoare_conseq; [exact Hc| | |done].
  - by intros s [? _].
  - by intros a s ?.
Qed.

Lemma h_with_sock {A} fd (bad : M (gs W) A) k :
  hoare (known None) bad (fun _ => known None) table_inv ->
  (forall e, kind e = AK_KIND_SOCK -> sock_wf e ->
     hoare (known (Some (fd, e))) (k e) (fun _ => known None) table_inv) ->
  hoare (known None) (with_sock fd bad k) (fun _ => known None) table_inv.
Proof.
  intros Hb Hk s Hs. unfold with_sock, bindM, getsM, wlp.
  destruct (ak_get fd s) as [e|] eqn:E; [|by apply Hb].
  destruct (kind e =? AK_KIND_SOCK) eqn:Ek; [|by apply Hb].
  assert (known (Some (fd, e)) s) as Hkn by (apply ak_get_known; [by destruct Hs|done]).
  apply (Hk e); [by apply Z.eqb_eq| |done]. by destruct Hkn as (_ & _ & _ & _ & ? & _).
Qed.

End Inv.
