(* ===== verification/SockSpec.v ===== *)
(** * What the socket calls of aegir_gsocket.c do

    Functional specifications of the calls of [SockCalls] and [SockOpts] on
    every branch: creation and descriptor allocation, close and reuse, the
    naming round trips, the option store as a finite map, [SO_ERROR]. *)
From S2P Require Import Prelude CInt Bridge FdTable SockCalls Transfer SockOpts Select TableInv.

(** The entry [socket] leaves for protocol [p] and bridge handle [h]. *)
Definition open_entry (p h : Z) : ak_sock :=
  set_handle h (set_proto p (set_kind AK_KIND_SOCK fresh_sock)).

(** The protocol [socket] asks the bridge for. *)
Definition proto_of (type protocol : Z) : Z :=
  if type =? AK_SOCK_STREAM then AK_IPPROTO_TCP
  else if protocol =? AK_IPPROTO_ICMP then AK_IPPROTO_ICMP else AK_IPPROTO_UDP.

Section Spec.
Context {W : Type} `{!Bridge W}.

Lemma ensure_net_up (s : gs W) :
  aknet_sock_endpoint (world s) <> 0 -> ak_ensure_net s = Done 0 s.
Proof.
  intros H%Z.eqb_neq. unfold ak_ensure_net, bindM, getsM, retM.
  rewrite H. cbn. by rewrite H.
Qed.

(** The three assignments that follow [ak_alloc] in [socket]. *)
Lemma install_entry fd p h (s : gs W) :
  least_free (ak_fds s) fd -> in_u8 p ->
  (upd_fd fd (set_kind AK_KIND_SOCK) ;; upd_fd fd (set_proto (u8 p)) ;;
   upd_fd fd (set_handle h) ;; retM fd)
    (with_fds (<[Z.to_nat fd := fresh_sock]> (ak_fds s)) s)
  = Done fd (with_fds (<[Z.to_nat fd := open_entry p h]> (ak_fds s)) s).
Proof.
  intros Hl%least_free_lt Hp. unfold bindM. rewrite !upd_fd_insert by done.
  by rewrite u8_id.
Qed.

Lemma proto_of_u8 type protocol : in_u8 (proto_of type protocol).
Proof. unfold proto_of. repeat split_if; done. Qed.

Lemma least_free_unique t fd fd' : least_free t fd -> least_free t fd' -> fd = fd'.
Proof.
  intros (R1 & (e1 & E1 & U1) & L1) (R2 & (e2 & E2 & U2) & L2).
  destruct (Z.lt_trichotomy fd fd') as [Hlt|[Heq|Hgt]]; [|done|].
  - rewrite (L2 fd e1) in U1 by (try done; lia). done.
  - rewrite (L1 fd' e2) in U2 by (try done; lia). done.
Qed.

(** The descriptor an allocation takes, when there is one. *)
Lemma ak_alloc_free (s : gs W) fd :
  length (ak_fds s) = Z.to_nat AK_FD_MAX -> least_free (ak_fds s) fd ->
  ak_alloc s = Done fd (with_fds (<[Z.to_nat fd := fresh_sock]> (ak_fds s)) s).
Proof.
  intros Hlen Hl. destruct (ak_alloc_spec s Hlen) as [(fd' & Hl' & E)|[Hfull _]].
  - by rewrite E, (least_free_unique _ _ _ Hl Hl').
  - exfalso. destruct Hl as (Hr & (e & He & Hu) & _). rewrite (Hfull fd e Hr He) in Hu. done.
Qed.

Lemma ak_alloc_full (s : gs W) :
  length (ak_fds s) = Z.to_nat AK_FD_MAX -> table_full (ak_fds s) ->
  ak_alloc s = Done (-1) (with_errno EMFILE s).
Proof.
  intros Hlen Hf. destruct (ak_alloc_spec s Hlen) as [(fd & Hl & E)|[_ E]]; [|done].
  exfalso. destruct Hl as (Hr & (e & He & Hu) & _). rewrite (Hf fd e Hr He) in Hu. done.
Qed.

Lemma socket_reduces (s : gs W) type protocol :
  aknet_sock_endpoint (world s) <> 0 -> type = AK_SOCK_STREAM \/ type = AK_SOCK_DGRAM ->
  socket AK_AF_INET type protocol s = socket_create (proto_of type protocol) s.
Proof.
  intros Hep Ht. unfold socket, bindM at 1. rewrite (ensure_net_up s Hep). cbn [Z.eqb negb].
  rewrite Z.eqb_refl. unfold proto_of. by destruct Ht as [-> | ->].
Qed.

(** [socket] on a live network: with a free descriptor it returns the
    least free one from 3 up, whose entry alone changes, to a zeroed entry
    holding the protocol and the bridge's handle; with a full table it
    returns -1 with EMFILE and gives the handle back to the bridge; when the
    bridge refuses it returns -1 with ENOBUFS and the table is untouched. *)
Theorem socket_creates (s : gs W) type protocol st h w :
  length (ak_fds s) = Z.to_nat AK_FD_MAX -> aknet_sock_endpoint (world s) <> 0 ->
  type = AK_SOCK_STREAM \/ type = AK_SOCK_DGRAM ->
  aknet_sock_socket (proto_of type protocol) (world s) = ((st, h), w) ->
  (st = AK_ST_OK -> forall fd, least_free (ak_fds s) fd ->
     socket AK_AF_INET type protocol s
     = Done fd (with_fds (<[Z.to_nat fd := open_entry (proto_of type protocol) h]> (ak_fds s))
                  (with_world w s)))
  /\ (st = AK_ST_OK -> table_full (ak_fds s) ->
     socket AK_AF_INET type protocol s
     = Done (-1) (with_world (aknet_sock_close h w).2 (with_errno EMFILE (with_world w s))))
  /\ (st <> AK_ST_OK ->
     socket AK_AF_INET type protocol s = Done (-1) (with_errno ENOBUFS (with_world w s))).
Proof.
  intros Hlen Hep Ht Hsock. rewrite (socket_reduces s type protocol) by done.
  assert (call (aknet_sock_socket (proto_of type protocol)) s = Done (st, h) (with_world w s))
    as Hc by (unfold call; by rewrite Hsock).
  unfold socket_create. split_and!.
  - intros -> fd Hl. unfold bindM at 1. rewrite Hc. cbn [Z.eqb negb AK_ST_OK]. unfold bindM at 1.
    rewrite (ak_alloc_free (with_world w s) fd) by done.
    rewrite (least_free_nonneg _ _ Hl). by apply (install_entry fd _ h (with_world w s)), proto_of_u8.
  - intros -> Hf. unfold bindM at 1. rewrite Hc. cbn [Z.eqb negb AK_ST_OK]. unfold bindM at 1.
    rewrite (ak_alloc_full (with_world w s)) by done. cbn [Z.ltb Z.compare].
    unfold bindM, call, retM. cbn. by destruct (aknet_sock_close h w).
  - intros Hst%Z.eqb_neq. unfold bindM. rewrite Hc. by rewrite Hst.
Qed.

(** ** Calls on an open socket and on a descriptor that is none *)

(** Descriptor [fd] is an open socket with entry [e]. *)
Definition open_at (fd : Z) (e : ak_sock) (s : gs W) : Prop :=
  AK_FD_FIRST <= fd < AK_FD_MAX /\ sock_at fd s = Some e /\ is_open e.

Lemma open_at_get fd e s : open_at fd e s -> ak_get fd s = Some e.
Proof.
  intros (Hr & Hs & Hu & _). unfold ak_get. rewrite Hs, Hu.
  replace (fd <? AK_FD_FIRST) with false by (symmetry; apply Z.ltb_ge; lia).
  by replace (AK_FD_MAX <=? fd) with false by (symmetry; apply Z.leb_gt; lia).
Qed.

Lemma with_sock_open {A} fd e (bad : M (gs W) A) k s :
  open_at fd e s -> with_sock fd bad k s = k e s.
Proof.
  intros Ho. unfold with_sock, bindM, getsM. rewrite (open_at_get _ _ _ Ho).
  destruct Ho as (_ & _ & _ & ->). done.
Qed.

Lemma with_sock_none {A} fd (bad : M (gs W) A) k s :
  ak_get fd s = None -> with_sock fd bad k s = bad s.
Proof. intros H. unfold with_sock, bindM, getsM. by rewrite H. Qed.

(** Assignment to an entry of the table. *)
Lemma upd_fd_at fd f e (s : gs W) :
  sock_at fd s = Some e -> upd_fd fd f s = Done tt (with_fds (<[Z.to_nat fd := f e]> (ak_fds s)) s).
Proof. intros H. unfold upd_fd, modifyM. by rewrite (alter_as_insert _ _ _ e H). Qed.

Lemma sock_at_insert fd e e0 (s : gs W) :
  sock_at fd s = Some e0 -> sock_at fd (with_fds (<[Z.to_nat fd := e]> (ak_fds s)) s) = Some e.
Proof. intros H. apply list_lookup_insert_eq. by eapply lookup_lt_Some. Qed.

Lemma sock_at_other fd fd' e (s : gs W) :
  Z.to_nat fd <> Z.to_nat fd' ->
  sock_at fd' (with_fds (<[Z.to_nat fd := e]> (ak_fds s)) s) = sock_at fd' s.
Proof. intros H. by apply list_lookup_insert_ne. Qed.

Lemma open_at_insert fd e e0 (s : gs W) w :
  open_at fd e0 s -> is_open e ->
  open_at fd e (with_fds (<[Z.to_nat fd := e]> (ak_fds s)) (with_world w s)).
Proof.
  intros (Hr & Hs & _) Ho. split; [done|split; [|done]].
  by apply (sock_at_insert fd e e0 (with_world w s)).
Qed.

(** What a client can do with a descriptor, and the answer it gets when the
    descriptor is closed: -1 with EBADF and nothing else changed. *)
Definition refused (fd : Z) (s : gs W) : Prop :=
  (forall sin, bind fd sin s = Done (-1) (with_errno EBADF s))
  /\ (forall sin, connect fd sin s = Done (-1) (with_errno EBADF s))
  /\ getsockname fd s = Done (-1, None) (with_errno EBADF s)
  /\ getpeername fd s = Done (-1, None) (with_errno EBADF s)
  /\ (forall fuel len flags, recv fuel fd len flags s = Done (-1, None) (with_errno EBADF s))
  /\ (forall fuel msg len flags to tolen,
        sendto fuel fd msg len flags to tolen s = Done (-1) (with_errno EBADF s))
  /\ (forall level name, getsockopt fd level name s = Done (-1, None) (with_errno EBADF s))
  /\ (forall level name v, setsockopt fd level name v s = Done (-1) (with_errno EBADF s))
  /\ gnat_socket_close fd s = Done (-1) (with_errno EBADF s).

Lemma closed_refused fd s : ak_get fd s = None -> refused fd s.
Proof.
  intros H. unfold refused, bind, connect, getsockname, getpeername, recv, sendto, getsockopt,
    setsockopt, gnat_socket_close.
  split_and!; intros; by rewrite with_sock_none.
Qed.

(** Closing an open socket returns 0, hands its handle to the bridge's
    close, and changes no other descriptor; afterwards every call on the
    descriptor is refused with EBADF without reaching the bridge, and the
    next allocation takes this descriptor or a lower one. *)
Theorem close_releases fd e (s : gs W) :
  open_at fd e s ->
  exists s', gnat_socket_close fd s = Done 0 s'
    /\ world s' = (aknet_sock_close (handle e) (world s)).2
    /\ (forall fd', Z.to_nat fd' <> Z.to_nat fd -> sock_at fd' s' = sock_at fd' s)
    /\ refused fd s'
    /\ (forall fd', least_free (ak_fds s') fd' -> fd' <= fd).
Proof.
  intros Ho. unfold gnat_socket_close. rewrite (with_sock_open fd e) by done.
  destruct Ho as (Hr & Hs & Hu). unfold bindM at 1, call at 1.
  destruct (aknet_sock_close (handle e) (world s)) as [r w]. unfold bindM.
  rewrite (upd_fd_at fd _ e) by done. eexists. split_and!; [done|done| | |].
  - intros fd' Hne. by apply (sock_at_other _ _ _ (with_world w s)).
  - apply closed_refused. unfold ak_get.
    rewrite (sock_at_insert fd _ e (with_world w s)) by done. cbn. by destruct (_ || _).
  - intros fd' (Hr' & _ & Hl). destruct (decide (fd' <= fd)); [done|]. exfalso.
    specialize (Hl fd (set_used false e) ltac:(lia)). cbn in Hl.
    rewrite (list_lookup_insert_eq (ak_fds s)) in Hl by (by eapply lookup_lt_Some).
    by specialize (Hl eq_refl).
Qed.

(** A successful [bind] is what [getsockname] reports: the address bytes
    the caller gave, the port the bridge assigned in network order. *)
Theorem bind_getsockname fd e sin (s s' : gs W) :
  open_at fd e s -> addr4_wf (sin_addr sin) -> bind fd sin s = Done 0 s' ->
  exists assigned w,
    aknet_sock_bind (handle e) (ak_sw16 (sin_port sin)) (world s) = ((AK_ST_OK, assigned), w)
    /\ getsockname fd s'
       = Done (0, Some (SockaddrIn AK_AF_INET (ak_sw16 (u16 assigned)) (sin_addr sin)
                          (replicate 8 0), 16)) s'.
Proof.
  intros Ho Hwf. unfold bind. rewrite (with_sock_open fd e) by done.
  destruct (negb _); [done|]. unfold bindM at 1, call.
  destruct (aknet_sock_bind _ _ _) as [[st assigned] w].
  destruct (st =? AK_ST_OK) eqn:Est; cbn [negb]; [|done]. apply Z.eqb_eq in Est as ->.
  pose proof Ho as (_ & Hs & _). unfold bindM.
  rewrite (upd_fd_at fd _ e (with_world w s)) by done.
  rewrite upd_fd_insert by (by eapply lookup_lt_Some).
  intros [= <-]. exists assigned, w. split; [done|]. unfold getsockname.
  erewrite with_sock_open; [|eapply open_at_insert; [exact Ho|]; by destruct Ho as (_ & _ & ?)].
  cbn. unfold mk_sockaddr. by rewrite u32_addr_roundtrip.
Qed.

(** A call of [ak_auto_bind] that succeeds changes the local port at most. *)
Lemma auto_bind_ok fd e (s s' : gs W) :
  sock_at fd s = Some e -> ak_auto_bind fd e s = Done 0 s' ->
  exists e' w, s' = with_fds (<[Z.to_nat fd := e']> (ak_fds s)) (with_world w s)
    /\ (e' = e \/ exists p, e' = set_local_port (u16 p) e).
Proof.
  intros Hs. unfold ak_auto_bind. destruct (negb _).
  - intros [= <-]. exists e, (world s). rewrite with_world_id, list_insert_id by done.
    split; [by destruct s|by left].
  - unfold bindM at 1, call. destruct (aknet_sock_bind _ _ _) as [[st p] w].
    destruct (negb _); [done|]. unfold bindM. rewrite (upd_fd_at fd _ e (with_world w s)) by done.
    intros [= <-]. eexists _, w. split; [done|]. eauto.
Qed.

(** After a successful [connect], [getpeername] reports exactly the
    address and port connected to. *)
Theorem connect_getpeername fd e sin (s s' : gs W) :
  open_at fd e s -> addr4_wf (sin_addr sin) -> in_u16 (sin_port sin) ->
  connect fd sin s = Done 0 s' ->
  getpeername fd s'
  = Done (0, Some (SockaddrIn AK_AF_INET (sin_port sin) (sin_addr sin) (replicate 8 0), 16)) s'.
Proof.
  intros Ho Hwf Hport. unfold connect. rewrite (with_sock_open fd e) by done.
  destruct (negb _); [done|]. unfold bindM at 1.
  destruct (ak_auto_bind fd e s) as [ab s1|] eqn:Eab; [|done].
  destruct (ab =? 0) eqn:Eab0; cbn [negb]; [|done]. apply Z.eqb_eq in Eab0 as ->.
  pose proof Ho as (_ & Hs & Hop).
  apply auto_bind_ok in Eab as (e' & w & -> & He'); [|done].
  assert (is_open e') as Hoe' by (destruct He' as [-> |[p ->]]; done).
  unfold bindM at 1, call. cbn [world with_fds with_world].
  destruct (aknet_sock_connect _ _ _ _) as [st w']. destruct (negb _); [done|].
  unfold bindM. set (s1 := with_world w' _).
  assert (sock_at fd s1 = Some e') as Hs1 by (by apply (sock_at_insert fd e' e (with_world w s))).
  rewrite (upd_fd_at fd _ e' s1) by done. intros [= <-]. unfold getpeername.
  erewrite with_sock_open; [|eapply (open_at_insert fd _ e' s1 w'); [|done]; split_and!; try apply Ho; done].
  cbn. unfold mk_sockaddr. by rewrite u32_addr_roundtrip, ak_sw16_invol.
Qed.

(** ** Options *)

Lemma opt_map_size e : sock_wf e -> Z.of_nat (size (opt_map e)) = nopts e.
Proof.
  intros Hwf. pose proof (wf_nopts _ Hwf). pose proof (wf_opts _ Hwf) as Hl.
  unfold opt_map. rewrite map_size_list_to_map by (rewrite opt_map_fst; apply (wf_keys _ Hwf)).
  rewrite length_fmap. unfold live_opts. rewrite length_take, Hl. unfold AK_NOPT in *. lia.
Qed.

Lemma opt_map_set_val e i c v :
  sock_wf e -> opts e !! i = Some c -> (i < Z.to_nat (nopts e))%nat ->
  opt_map (set_opts (alter (set_val v) i (opts e)) (nopts e) e) = <[opt_key c := v]> (opt_map e).
Proof.
  intros Hwf Hc Hi. set (e' := set_opts _ _ e).
  pose proof (sock_wf_set_val e i v Hwf) as Hwf'. fold e' in Hwf'.
  assert (forall k x, opt_map e !! k = Some x -> k <> opt_key c -> opt_map e' !! k = Some x) as Hold.
  { intros k x (j & cj & Hj & Hlt & <- & <-)%opt_map_Some Hne; [|done].
    apply opt_map_Some; [done|]. exists j, cj. split_and!; [|done..].
    cbn. rewrite list_lookup_alter_ne; [done|]. intros <-. congruence. }
  assert (opt_map e' !! opt_key c = Some v) as Hnew.
  { apply opt_map_Some; [done|]. exists i, (set_val v c). cbn.
    rewrite list_lookup_alter_eq, Hc. done. }
  apply map_eq. intros k. destruct (decide (k = opt_key c)) as [->|Hne].
  { by rewrite lookup_insert_eq. }
  rewrite lookup_insert_ne by done. apply option_eq. intros x. split; [|auto].
  intros (j & cj & Hj & Hlt & <- & <-)%opt_map_Some; [|done]. apply opt_map_Some; [done|].
  cbn in Hj, Hlt. rewrite list_lookup_alter_ne in Hj; [eauto 10|].
  intros <-. rewrite list_lookup_alter_eq, Hc in Hj. injection Hj as <-. done.
Qed.

Lemma opt_map_push e level name v :
  sock_wf e -> nopts e <> AK_NOPT -> opt_map e !! (level, name) = None ->
  opt_map (set_opts (<[Z.to_nat (nopts e) := Opt level name v]> (opts e)) (nopts e + 1) e)
  = <[(level, name) := v]> (opt_map e).
Proof.
  intros Hwf Hne Hnone. unfold opt_map. rewrite live_opts_push by done.
  rewrite fmap_app. apply list_to_map_snoc. by apply not_elem_of_list_to_map.
Qed.

(** C22. The option store of a socket is a finite map of at most eight keys:
    a [setsockopt] for a key it holds or has room for returns 0 and leaves an
    entry that differs only in its options, whose map has that key bound to
    the new value; on a full map a new key gives -1 with ENOBUFS and changes
    nothing; [getsockopt] reads the map, and 0 for a key never set.  [SO_ERROR]
    is not part of the map. *)
Theorem sockopt_refines_map fd e level name v (s : gs W) :
  open_at fd e s -> sock_wf e -> (level, name) <> (AK_SOL_SOCKET, AK_SO_ERROR) ->
  (is_Some (opt_map e !! (level, name)) \/ (size (opt_map e) < 8)%nat ->
     exists o n, let e' := set_opts o n e in
       setsockopt fd level name v s = Done 0 (with_fds (<[Z.to_nat fd := e']> (ak_fds s)) s)
       /\ sock_wf e' /\ opt_map e' = <[(level, name) := v]> (opt_map e))
  /\ (opt_map e !! (level, name) = None -> size (opt_map e) = 8%nat ->
     setsockopt fd level name v s = Done (-1) (with_errno ENOBUFS s))
  /\ getsockopt fd level name s = Done (0, Some (default 0 (opt_map e !! (level, name)), 4)) s.
Proof.
  intros Ho Hwf Hk. pose proof (opt_map_size e Hwf) as Hsz. pose proof (wf_nopts _ Hwf) as Hn.
  assert ((level =? AK_SOL_SOCKET) && (name =? AK_SO_ERROR) = false) as Hse.
  { apply andb_false_iff. rewrite !Z.eqb_neq.
    destruct (decide (level = AK_SOL_SOCKET)); [right; congruence|by left]. }
  pose proof Ho as (_ & Hs & _). unfold setsockopt, getsockopt.
  rewrite !(with_sock_open fd e), !Hse by done.
  destruct (opt_find e level name) as [i|] eqn:Ef.
  - apply opt_find_Some in Ef as (Hi & c & Hc & Hkey & Hm); [|done]. rewrite Hc, Hm. split_and!.
    + intros _. eexists _, _. cbv zeta. unfold bindM. rewrite (upd_fd_at fd _ e) by done. split; [done|].
      split; [by apply sock_wf_set_val|]. rewrite <- Hkey. by apply opt_map_set_val.
    + done.
    + done.
  - pose proof Ef as Hm%opt_find_None; [|done]. rewrite Hm. split_and!.
    + intros [[x Hx]|Hlt]; [done|].
      assert (nopts e <> AK_NOPT) as Hne by (unfold AK_NOPT; lia).
      replace (nopts e =? AK_NOPT) with false by (symmetry; by apply Z.eqb_neq).
      eexists _, _. cbv zeta. unfold bindM. rewrite (upd_fd_at fd _ e) by done. split; [done|].
      split; [by apply sock_wf_push|]. by apply opt_map_push.
    + intros _ H8. replace (nopts e =? AK_NOPT) with true; [done|].
      symmetry. apply Z.eqb_eq. unfold AK_NOPT. lia.
    + done.
Qed.

(** A pending socket error is reported once: the first [SO_ERROR] query
    returns the errno the sticky error stands for, a second query that finds
    the same error returns 0, and neither query fails. *)
Theorem so_error_once fd e (s : gs W) rx tx rx' tx' err w1 w2 :
  open_at fd e s -> err <> 0 -> last_so_err e <> err ->
  aknet_sock_poll (handle e) (world s) = (PollReply AK_ST_OK rx tx err, w1) ->
  aknet_sock_poll (handle e) w1 = (PollReply AK_ST_OK rx' tx' err, w2) ->
  exists s1 s2,
    getsockopt fd AK_SOL_SOCKET AK_SO_ERROR s = Done (0, Some (ak_sticky_errno err, 4)) s1
    /\ getsockopt fd AK_SOL_SOCKET AK_SO_ERROR s1 = Done (0, Some (0, 4)) s2
    /\ ak_sticky_errno err <> 0.
Proof.
  intros Ho Herr%Z.eqb_neq Hlast Hp1 Hp2. pose proof Ho as (_ & Hs & Hop).
  unfold getsockopt at 1. rewrite (with_sock_open fd e) by done. cbn [Z.eqb andb Pos.eqb AK_SOL_SOCKET AK_SO_ERROR].
  unfold bindM at 1, call at 1. rewrite Hp1. unfold bindM at 1.
  rewrite (upd_fd_at fd _ e (with_world w1 s)) by done. cbn [pr_status pr_err].
  replace (err =? last_so_err e) with false by (symmetry; apply Z.eqb_neq; congruence).
  rewrite Herr. eexists _, _. split; [done|]. split.
  - unfold getsockopt. erewrite with_sock_open; [|by apply (open_at_insert fd _ e s w1)].
    cbn [Z.eqb andb Pos.eqb AK_SOL_SOCKET AK_SO_ERROR set_last_so_err handle].
    unfold bindM at 1, call at 1. cbn [world with_fds with_world]. rewrite Hp2.
    unfold bindM at 1. cbn [pr_status pr_err last_so_err set_last_so_err].
    rewrite (Z.eqb_refl err). cbn [negb]. by rewrite andb_false_r.
  - unfold ak_sticky_errno. rewrite Herr. repeat split_if; done.
Qed.

End Spec.

(** ** Examples *)

Definition demo_bound : gs script := demo_open AK_SOCK_STREAM
  [PollReply AK_ST_OK 0 4 AK_ERR_RESET] [] [] [].
Definition demo_entry : ak_sock := open_entry AK_IPPROTO_TCP 1.
Definition demo_sin : ak_sockaddr_in :=
  SockaddrIn AK_AF_INET (ak_sw16 8080) (A4 192 0 2 1) (replicate 8 0).

Lemma demo_open_at : open_at 3 demo_entry demo_bound.
Proof. split; [unfold AK_FD_FIRST, AK_FD_MAX; lia|]. split; [vm_compute; reflexivity | split; reflexivity]. Qed.

Lemma demo_entry_wf : sock_wf demo_entry.
Proof. unfold demo_entry, open_entry. auto 10 with aegir. Qed.

Lemma socket_creates_witness :
  socket AK_AF_INET AK_SOCK_DGRAM AK_IPPROTO_ICMP demo_bound
  = Done 4 (with_fds (<[4%nat := open_entry AK_IPPROTO_ICMP 2]> (ak_fds demo_bound))
              (with_world (aknet_sock_socket 1 (world demo_bound)).2 demo_bound)).
Proof.
  apply (socket_creates demo_bound AK_SOCK_DGRAM AK_IPPROTO_ICMP AK_ST_OK 2
           (aknet_sock_socket 1 (world demo_bound)).2).
  - vm_compute. reflexivity.
  - vm_compute. discriminate.
  - right. reflexivity.
  - vm_compute. reflexivity.
  - reflexivity.
  - split; [unfold AK_FD_FIRST, AK_FD_MAX; lia|]. split.
    + exists zero_sock. split; vm_compute; reflexivity.
    + intros j e Hj He. assert (j = 3) as -> by (unfold AK_FD_FIRST in *; lia).
      vm_compute in He. injection He as <-. reflexivity.
Defined.

Lemma close_releases_witness :
  exists s', gnat_socket_close 3 demo_bound = Done 0 s' /\ refused 3 s'
    /\ sc_live (world demo_bound) = {[1]} /\ sc_live (world s') = ∅.
Proof.
  destruct (close_releases 3 demo_entry demo_bound demo_open_at) as (s' & Hc & Hw & _ & Hr & _).
  exists s'. split; [exact Hc|]. split; [exact Hr|]. rewrite Hw. split; vm_compute; reflexivity.
Defined.

Lemma bind_getsockname_witness :
  exists assigned w,
    aknet_sock_bind 1 8080 (world demo_bound) = ((AK_ST_OK, assigned), w)
    /\ getsockname 3 (out_state (bind 3 demo_sin demo_bound))
       = Done (0, Some (SockaddrIn AK_AF_INET (ak_sw16 (u16 assigned)) (A4 192 0 2 1)
                          (replicate 8 0), 16)) (out_state (bind 3 demo_sin demo_bound)).
Proof.
  apply (bind_getsockname 3 demo_entry demo_sin demo_bound _ demo_open_at);
    [vm_compute; repeat split; discriminate | vm_compute; reflexivity].
Defined.

Lemma connect_getpeername_witness :
  getpeername 3 (out_state (connect 3 demo_sin demo_bound))
  = Done (0, Some (demo_sin, 16)) (out_state (connect 3 demo_sin demo_bound)).
Proof.
  apply (connect_getpeername 3 demo_entry demo_sin demo_bound _ demo_open_at);
    [vm_compute; repeat split; discriminate | vm_compute; split; [discriminate | reflexivity]
    | vm_compute; reflexivity].
Defined.

Lemma sockopt_refines_map_witness :
  exists o n, setsockopt 3 1 7 65536 demo_bound
    = Done 0 (with_fds (<[3%nat := set_opts o n demo_entry]> (ak_fds demo_bound)) demo_bound)
    /\ opt_map (set_opts o n demo_entry) = <[(1, 7) := 65536]> (opt_map demo_entry).
Proof.
  destruct (sockopt_refines_map 3 demo_entry 1 7 65536 demo_bound demo_open_at demo_entry_wf)
    as [Hset _]; [discriminate|].
  destruct Hset as (o & n & H1 & _ & H2); [right; vm_compute; repeat constructor|].
  exists o, n. split; [exact H1 | exact H2].
Defined.

Lemma so_error_once_witness :
  exists s1 s2,
    getsockopt 3 AK_SOL_SOCKET AK_SO_ERROR demo_bound = Done (0, Some (ECONNRESET, 4)) s1
    /\ getsockopt 3 AK_SOL_SOCKET AK_SO_ERROR s1 = Done (0, Some (0, 4)) s2 /\ ECONNRESET <> 0.
Proof.
  apply (so_error_once 3 demo_entry demo_bound 0 4 0 4 AK_ERR_RESET
           (world demo_bound) (world demo_bound) demo_open_at);
    [discriminate | discriminate | vm_compute; reflexivity | vm_compute; reflexivity].
Defined.
