(* ===== verification/TransferSpec.v ===== *)
(** * What send and receive of aegir_gsocket.c deliver

    [SendLaws]: what the theorems on [ak_send] use of the bridge: a send that
    answers OK hands over exactly the bytes given, any other answer none, and
    polls and sleeps send nothing. *)
From S2P Require Import Prelude CInt Bridge FdTable SockCalls Transfer SockOpts Select TableInv SockSpec.

(** [sent w h]: the chunks the bridge has taken on handle [h], oldest first. *)
Class SendLaws (W : Type) `{Bridge W} (sent : W -> Z -> list (list Z)) : Prop := {
  sent_sendto h d len ip port w st w' :
    aknet_sock_sendto h d len ip port w = (st, w') ->
    sent w' h = if st =? AK_ST_OK then sent w h ++ [take (Z.to_nat len) d] else sent w h;
  sent_poll h h' w : sent (aknet_sock_poll h' w).2 h = sent w h;
  sent_sleep d h w : sent (aegir_sys_sleep_until d w).2 h = sent w h;
  sent_rdtime h w : sent (aegir_rdtime w).2 h = sent w h
}.

#[export] Instance script_send_laws : SendLaws script (fun w _ => sc_log w).
Proof.
  split; intros; cbn in *; try done.
  - destruct (next_of AK_ST_OK (sc_sends w)) as [st' l]. injection H as <- <-. cbn.
    by destruct (st' =? AK_ST_OK).
  - by destruct (next_of _ _).
Qed.

Section Send.
Context {W : Type} `{!Bridge W} (sent : W -> Z -> list (list Z)) `{!SendLaws W sent}.

(** Handle [h] has been given the chunks [cs] since the log was [l0], which
    are the first [k] bytes of [buf] cut into chunks of 1..996 bytes. *)
Definition out_prefix (h : Z) (l0 : list (list Z)) (buf : list Z) (k : Z) (s : gs W) : Prop :=
  exists cs, sent (world s) h = l0 ++ cs /\ concat cs = take (Z.to_nat k) buf
    /\ Forall (fun c => 1 <= Z.of_nat (length c) <= AK_MAX_PAYLOAD) cs.

Lemma sleep_slice_sent h (s : gs W) :
  wp ak_sleep_slice (fun _ s' => sent (world s') h = sent (world s) h) s.
Proof.
  unfold wp, ak_sleep_slice, ak_now, bindM, call.
  pose proof (sent_rdtime h (world s)) as H1. destruct (aegir_rdtime (world s)) as [t w]. cbn in *.
  pose proof (sent_sleep (u64 (t + AK_SLICE)) h w) as H2.
  destruct (aegir_sys_sleep_until _ w) as [r w']. cbn in *. congruence.
Qed.

Lemma out_prefix_same h l0 buf k (s s' : gs W) :
  sent (world s') h = sent (world s) h -> out_prefix h l0 buf k s -> out_prefix h l0 buf k s'.
Proof. intros E (cs & H1 & H2 & H3). exists cs. by rewrite E. Qed.

Lemma out_prefix_push h l0 buf k n (s s' : gs W) :
  0 <= k -> 1 <= n <= AK_MAX_PAYLOAD -> k + n <= Z.of_nat (length buf) ->
  sent (world s') h = sent (world s) h ++ [take (Z.to_nat n) (drop (Z.to_nat k) buf)] ->
  out_prefix h l0 buf k s -> out_prefix h l0 buf (k + n) s'.
Proof.
  intros Hk Hn Hl E (cs & H1 & H2 & H3).
  exists (cs ++ [take (Z.to_nat n) (drop (Z.to_nat k) buf)]). split_and!.
  - by rewrite E, H1, <- app_assoc.
  - rewrite concat_app, H2. cbn. rewrite app_nil_r, Z2Nat.inj_add by lia. apply take_take_drop.
  - apply Forall_app. split; [done|]. constructor; [|done].
    rewrite length_take, length_drop. lia.
Qed.

(** One round of the stream loop. *)
Lemma ak_send_stream_step e buf len k (s : gs W) l0 :
  0 <= k <= len -> len <= Z.of_nat (length buf) -> len < 2 ^ 31 ->
  out_prefix (handle e) l0 buf k s ->
  wp (ak_send_stream e buf len k)
    (fun r s' => match r with
       | inl k' => k <= k' <= len /\ out_prefix (handle e) l0 buf k' s'
       | inr n => out_prefix (handle e) l0 buf k s'
           /\ (n = k /\ (k = len \/ nonblock e = true) \/ n = -1 /\ k < len)
       end) s.
Proof.
  intros Hk Hlen Hmax Hp. unfold ak_send_stream.
  destruct (k <? len) eqn:Ek; bool_to_prop; [|unfold wp; cbn; split; [done|lia]].
  cbv zeta. set (chunk := if AK_MAX_PAYLOAD <? len - k then _ else _).
  assert (1 <= chunk <= AK_MAX_PAYLOAD /\ k + chunk <= len) as [Hc Hkc].
  { unfold chunk, AK_MAX_PAYLOAD. split_if; bool_to_prop; lia. }
  apply wp_bind. unfold wp at 1, call at 1. pose proof (sent_poll (handle e) (handle e) (world s)) as Hpoll.
  destruct (aknet_sock_poll _ _) as [p w1]. cbn in Hpoll.
  assert (out_prefix (handle e) l0 buf k (with_world w1 s)) as Hp1 by (by eapply out_prefix_same).
  destruct (_ && _); [unfold wp, bindM; cbn; split; [done|lia]|].
  apply wp_bind. unfold wp at 1, call at 1. cbn [world with_world].
  destruct (aknet_sock_sendto _ _ _ _ _ _) as [st w2] eqn:Es. apply sent_sendto in Es.
  rewrite u64_id in Es by (unfold AK_MAX_PAYLOAD in *; int_lia).
  destruct (st =? AK_ST_OK) eqn:Est.
  - unfold wp. cbn. split; [lia|]. eapply out_prefix_push; [lia|done|lia| |exact Hp1]. done.
  - assert (out_prefix (handle e) l0 buf k (with_world w2 (with_world w1 s))) as Hp2
      by (by eapply (out_prefix_same _ _ _ _ (with_world w1 s))).
    destruct (_ || _); [|unfold wp, bindM; cbn; split; [done|lia]].
    destruct (nonblock e) eqn:Enb.
    + unfold wp, bindM. cbn. split; [by eapply out_prefix_same|]. split_if; bool_to_prop; lia.
    + apply wp_bind. eapply wp_mono; [|apply (sleep_slice_sent (handle e))].
      intros [] s' E. unfold wp. cbn. split; [lia|]. by eapply out_prefix_same.
Qed.

(** C5. A stream send of [len] bytes hands the bridge a prefix of the buffer
    in order, cut into chunks of 1 to 996 bytes, and nothing else: while it
    runs, some prefix; when it returns a count, exactly that many bytes, which
    for a blocking socket is all of them; when it returns -1, a proper
    prefix. *)
Theorem send_stream_prefix fuel e buf len ip port (s : gs W) :
  proto e = AK_IPPROTO_TCP -> 0 <= len <= Z.of_nat (length buf) -> len < 2 ^ 31 ->
  wlp (ak_send fuel e buf len ip port)
    (fun n s' => exists k, 0 <= k <= len
       /\ out_prefix (handle e) (sent (world s) (handle e)) buf k s'
       /\ (n = k /\ (k = len \/ nonblock e = true) \/ n = -1 /\ k < len))
    (fun s' => exists k, 0 <= k <= len
       /\ out_prefix (handle e) (sent (world s) (handle e)) buf k s') s.
Proof.
  intros Hp Hl Hm. unfold ak_send. rewrite Hp. cbn [Z.eqb Pos.eqb negb AK_IPPROTO_TCP].
  apply (iter_wlp _ (fun k s' => 0 <= k <= len
           /\ out_prefix (handle e) (sent (world s) (handle e)) buf k s')).
  - eauto.
  - intros k s1 [Hk Hpre].
    pose proof (ak_send_stream_step e buf len k s1 _ Hk ltac:(lia) Hm Hpre) as H.
    unfold wp, wlp in *. destruct (ak_send_stream e buf len k s1) as [[k'|n] s2|]; [| |done].
    + destruct H as [H1 H2]. split; [lia|done].
    + destruct H as [H1 H2]. exists k. by split.
  - split; [lia|]. exists []. split_and!; [by rewrite app_nil_r|done|constructor].
Qed.

(** A bridge that takes everything and reports no error on handle [h], as
    long as its world stays in [good]. *)
Definition accepting (h : Z) (good : W -> Prop) : Prop :=
  (forall d l i p w, good w -> (aknet_sock_sendto h d l i p w).1 = AK_ST_OK
                              /\ good (aknet_sock_sendto h d l i p w).2)
  /\ (forall w, good w -> pr_err (aknet_sock_poll h w).1 = 0 /\ good (aknet_sock_poll h w).2).

(** With such a bridge, a round sends a full chunk. *)
Lemma ak_send_stream_ok e buf len k (s : gs W) good :
  accepting (handle e) good -> good (world s) ->
  wp (ak_send_stream e buf len k)
    (fun r s' => match r with
       | inl k' => (k' = k + Z.min AK_MAX_PAYLOAD (len - k) /\ k < len) /\ good (world s')
       | inr n => n = k /\ len <= k
       end) s.
Proof.
  intros [Hok Herr] Hg. unfold ak_send_stream. destruct (k <? len) eqn:Ek; bool_to_prop; [|by unfold wp].
  cbv zeta. unfold wp, bindM, call. specialize (Herr (world s) Hg).
  destruct (aknet_sock_poll _ _) as [p w1]. cbn in Herr. destruct Herr as [Herr Hg1].
  rewrite Herr, andb_false_r. cbn [world with_world].
  match goal with |- context [aknet_sock_sendto ?h ?d ?l ?i ?p ?w] => specialize (Hok d l i p w Hg1) end.
  destruct (aknet_sock_sendto _ _ _ _ _ _) as [st w2]. cbn in Hok. destruct Hok as [-> Hg2]. cbn.
  split; [|done]. unfold AK_MAX_PAYLOAD. split_if; bool_to_prop; lia.
Qed.

(** When the bridge accepts every send and reports no error, a stream
    send returns the full length after at most one round per 996 bytes, and
    the bridge has the whole buffer. *)
Theorem send_stream_completes fuel e buf len ip port (s : gs W) good :
  proto e = AK_IPPROTO_TCP -> 0 <= len <= Z.of_nat (length buf) -> len < 2 ^ 31 ->
  accepting (handle e) good -> good (world s) ->
  len / AK_MAX_PAYLOAD + 2 <= Z.of_nat fuel ->
  wp (ak_send fuel e buf len ip port)
    (fun n s' => n = len /\ out_prefix (handle e) (sent (world s) (handle e)) buf len s') s.
Proof.
  intros Hp Hl Hm Hacc Hg Hf. unfold ak_send. rewrite Hp. cbn [Z.eqb Pos.eqb negb AK_IPPROTO_TCP].
  eapply (iter_terminates _ (fun k s' => 0 <= k <= len /\ good (world s')
            /\ out_prefix (handle e) (sent (world s) (handle e)) buf k s') _
            (fun k _ => Z.to_nat ((len - k + AK_MAX_PAYLOAD - 1) / AK_MAX_PAYLOAD))).
  - intros k s1 (Hk & Hg1 & Hpre).
    pose proof (ak_send_stream_step e buf len k s1 _ Hk ltac:(lia) Hm Hpre) as H.
    pose proof (ak_send_stream_ok e buf len k s1 good Hacc Hg1) as H'. unfold wp in *.
    destruct (ak_send_stream e buf len k s1) as [[k'|n] s2|]; [| |done].
    + destruct H as [H1 H2], H' as [H3 H4]. split_and!; [lia|lia|done|done|].
      unfold AK_MAX_PAYLOAD in *. zlia.
    + destruct H as [H1 H2], H' as [-> Hge]. assert (k = len) as -> by lia. by split.
  - split_and!; [lia|lia|done|]. exists []. split_and!; [by rewrite app_nil_r|done|constructor].
  - unfold AK_MAX_PAYLOAD in *. zlia.
Qed.

(** A datagram send is all or nothing: above 996 bytes it fails with
    EMSGSIZE before reaching the bridge; otherwise, when it returns, either it
    returned the length and the bridge took exactly the buffer as one
    datagram, or it returned -1 and the bridge took nothing; a non-blocking
    socket always returns after one attempt. *)
Theorem send_dgram_atomic fuel e buf len ip port (s : gs W) :
  proto e <> AK_IPPROTO_TCP -> 0 <= len ->
  (AK_MAX_PAYLOAD < len ->
     ak_send fuel e buf len ip port s = Done (-1) (with_errno EMSGSIZE s))
  /\ (len <= AK_MAX_PAYLOAD ->
     wlp (ak_send fuel e buf len ip port)
       (fun n s' =>
          n = len /\ sent (world s') (handle e)
                     = sent (world s) (handle e) ++ [take (Z.to_nat len) buf]
          \/ n = -1 /\ sent (world s') (handle e) = sent (world s) (handle e))
       (fun s' => sent (world s') (handle e) = sent (world s) (handle e)
                  /\ (nonblock e = true -> fuel = 0%nat)) s).
Proof.
  intros Hp%Z.eqb_neq Hl. unfold ak_send. rewrite Hp. cbn [negb]. split.
  { intros Hb%Z.ltb_lt. by rewrite Hb. }
  intros Hle. replace (AK_MAX_PAYLOAD <? len) with false by (symmetry; by apply Z.ltb_ge).
  set (l0 := sent (world s) (handle e)).
  assert (forall (x : unit) s1, sent (world s1) (handle e) = l0 ->
    wp (ak_send_dgram e buf len ip port x)
      (fun r s' => match r with
         | inl _ => sent (world s') (handle e) = l0 /\ nonblock e = false
         | inr n => n = len /\ sent (world s') (handle e) = l0 ++ [take (Z.to_nat len) buf]
                    \/ n = -1 /\ sent (world s') (handle e) = l0 end) s1) as Hstep.
  { intros x s1 H1. unfold ak_send_dgram. apply wp_bind. unfold wp at 1, call.
    destruct (aknet_sock_sendto _ _ _ _ _ _) as [st w] eqn:Es. apply sent_sendto in Es.
    rewrite H1, u64_id in Es by (unfold AK_MAX_PAYLOAD in *; int_lia).
    destruct (st =? AK_ST_OK); [left; by split|].
    destruct (_ || _); [|right; by split]. destruct (nonblock e) eqn:Enb; [right; by split|].
    apply wp_bind. eapply wp_mono; [|apply (sleep_slice_sent (handle e))].
    intros [] s' E. cbn. split; [|done]. by rewrite E. }
  destruct fuel as [|k]; [by split|].
  pose proof (Hstep tt s eq_refl) as H0. unfold wlp, wp in *. cbn [iterM]. unfold bindM.
  destruct (ak_send_dgram e buf len ip port tt s) as [[[]|n] s1|]; [|exact H0|done].
  destruct H0 as [H0 Hnb].
  apply (iter_wlp _ (fun _ s' => sent (world s') (handle e) = l0)); [| |done].
  - intros _ s' Hs'. split; [done|]. by rewrite Hnb.
  - intros x s' Hs'. specialize (Hstep x s' Hs'). unfold wlp.
    destruct (ak_send_dgram e buf len ip port x s') as [[[]|n] s2|]; [by destruct Hstep|done|done].
Qed.

End Send.

(** ** Receiving *)

Section Recv.
Context {W : Type} `{!Bridge W}.

(** [recv_idle e len k s s']: [k] attempts of a blocking receive found the
    ring empty, each followed by a slice of sleep. *)
Inductive recv_idle (e : ak_sock) (len : Z) : nat -> gs W -> gs W -> Prop :=
| recv_idle_none s : recv_idle e len 0 s s
| recv_idle_wait k s r w s2 s3 :
    aknet_sock_recvfrom (handle e) (u64 len) 0 (world s) = (r, w) ->
    rr_status r = AK_ST_TIMEOUT \/ rr_status r = AK_ST_NOT_READY ->
    ak_sleep_slice (with_world w s) = Done tt s2 ->
    recv_idle e len k s2 s3 -> recv_idle e len (S k) s s3.

(** What the attempt after the idle ones returns, by the bridge's reply. *)
Inductive recv_result (e : ak_sock) (r : recv_reply) (s : gs W) : Z -> gs W -> Prop :=
| rres_data : rr_status r = AK_ST_OK -> 0 < rr_count r < 2 ^ 31 ->
    recv_result e r s (rr_count r) s
| rres_eof p w : rr_status r = AK_ST_OK -> rr_count r <= 0 -> proto e = AK_IPPROTO_TCP ->
    aknet_sock_poll (handle e) (world s) = (p, w) ->
    (pr_status p = AK_ST_OK -> pr_err p = 0) ->
    recv_result e r s 0 (with_world w s)
| rres_broken p w : rr_status r = AK_ST_OK -> rr_count r <= 0 -> proto e = AK_IPPROTO_TCP ->
    aknet_sock_poll (handle e) (world s) = (p, w) ->
    pr_status p = AK_ST_OK -> pr_err p <> 0 ->
    recv_result e r s (-1) (with_errno (ak_sticky_errno (pr_err p)) (with_world w s))
| rres_empty : rr_status r = AK_ST_TIMEOUT \/ rr_status r = AK_ST_NOT_READY ->
    nonblock e = true -> recv_result e r s (-1) (with_errno EWOULDBLOCK s)
| rres_bad : rr_status r = AK_ST_BAD_ARGS -> recv_result e r s (-1) (with_errno EBADF s)
| rres_io : AK_ST_BAD_ARGS < rr_status r -> recv_result e r s (-1) (with_errno EIO s).

Lemma ak_recv_body_result e len (s : gs W) r w n s' :
  aknet_sock_recvfrom (handle e) (u64 len) 0 (world s) = (r, w) ->
  recv_result e r (with_world w s) n s' ->
  ak_recv_body e len tt s = Done (inr (n, Some r)) s'.
Proof.
  intros Hr Hres. unfold ak_recv_body. unfold bindM at 1, call at 1. rewrite Hr. cbv zeta.
  destruct Hres as [Hst Hc|p w' Hst Hc Ht Hp He|p w' Hst Hc Ht Hp Hps He|Hst Hnb|Hst|Hst].
  - rewrite Hst, Z.eqb_refl. replace (0 <? rr_count r) with true by (symmetry; apply Z.ltb_lt; lia).
    unfold retM. rewrite i32_id by int_lia. done.
  - rewrite Hst, Z.eqb_refl, Ht, Z.eqb_refl.
    replace (0 <? rr_count r) with false by (symmetry; apply Z.ltb_ge; lia).
    unfold bindM, call. rewrite Hp. destruct (pr_status p =? AK_ST_OK) eqn:E; [|done].
    apply Z.eqb_eq in E. by rewrite (He E).
  - rewrite Hst, Z.eqb_refl, Ht, Z.eqb_refl.
    replace (0 <? rr_count r) with false by (symmetry; apply Z.ltb_ge; lia).
    unfold bindM, call. rewrite Hp, Hps. apply Z.eqb_neq in He. by rewrite He.
  - destruct Hst as [-> | ->]; cbn; by rewrite Hnb.
  - by rewrite Hst.
  - unfold AK_ST_BAD_ARGS in Hst.
    replace (rr_status r =? AK_ST_OK) with false by (symmetry; apply Z.eqb_neq; unfold AK_ST_OK; lia).
    replace (rr_status r =? AK_ST_TIMEOUT) with false
      by (symmetry; apply Z.eqb_neq; unfold AK_ST_TIMEOUT; lia).
    replace (rr_status r =? AK_ST_NOT_READY) with false
      by (symmetry; apply Z.eqb_neq; unfold AK_ST_NOT_READY; lia).
    by replace (rr_status r =? AK_ST_BAD_ARGS) with false
      by (symmetry; apply Z.eqb_neq; unfold AK_ST_BAD_ARGS; lia).
Qed.

Lemma recv_iter e len k (s s1 : gs W) r w n s' :
  nonblock e = false \/ k = 0%nat -> recv_idle e len k s s1 ->
  aknet_sock_recvfrom (handle e) (u64 len) 0 (world s1) = (r, w) ->
  recv_result e r (with_world w s1) n s' ->
  iterM (S k) (ak_recv_body e len) tt s = Done (n, Some r) s'.
Proof.
  intros Hnb Hi Hr Hres. induction Hi as [s|k s r0 w0 s2 s3 Hr0 Hst Hsl Hi IH].
  - cbn [iterM]. unfold bindM. by rewrite (ak_recv_body_result _ _ _ _ _ _ _ Hr Hres).
  - destruct Hnb as [Hnb|]; [|done]. remember (S k) as k'. cbn [iterM]. unfold bindM at 1.
    unfold ak_recv_body at 1. unfold bindM at 1, call at 1. rewrite Hr0. cbv zeta.
    assert ((rr_status r0 =? AK_ST_OK) = false) as -> by (by destruct Hst as [-> | ->]).
    assert ((rr_status r0 =? AK_ST_TIMEOUT) || (rr_status r0 =? AK_ST_NOT_READY) = true) as ->
      by (by destruct Hst as [-> | ->]).
    rewrite Hnb. unfold bindM. rewrite Hsl. cbn. subst k'. apply IH; auto.
Qed.

(** C31. [recvfrom] on an open socket waits through any number of empty polls
    (none on a non-blocking socket) and then answers the first other reply:
    the data's count with the sender's address, 0 at the end of a TCP stream,
    or -1 with the errno that reply stands for; exactly one slice is slept
    per empty poll. *)
Theorem recvfrom_answers fd e len flags k (s s1 : gs W) r w n s' :
  open_at fd e s -> Z.land flags AK_MSG_PEEK = 0 ->
  nonblock e = false \/ k = 0%nat -> recv_idle e len k s s1 ->
  aknet_sock_recvfrom (handle e) (u64 len) 0 (world s1) = (r, w) ->
  recv_result e r (with_world w s1) n s' ->
  recvfrom (S k) fd len flags true s
  = Done (n, Some r,
          if 0 <? n then Some (mk_sockaddr (rr_ip r) (u16 (rr_port r)), 16) else None) s'.
Proof.
  intros Ho Hf Hnb Hi Hr Hres. unfold recvfrom. rewrite (with_sock_open fd e) by done.
  unfold bindM at 1, ak_recv at 1. rewrite Hf. cbn [Z.eqb negb].
  rewrite (recv_iter _ _ _ _ _ _ _ _ _ Hnb Hi Hr Hres). by rewrite andb_true_r.
Qed.

End Recv.

(** ** Examples *)

(** A stream socket whose third send finds the ring full once; a datagram
    socket; a socket whose first receive finds the ring empty. *)
Definition demo_tx : gs script :=
  demo_open AK_SOCK_STREAM [PollReply AK_ST_OK 0 4 0] []
    [AK_ST_OK; AK_ST_OK; AK_ST_NOT_READY; AK_ST_OK] [].
Definition demo_buf : list Z := replicate 1500 7 ++ replicate 1000 9.
Definition demo_rx : gs script :=
  demo_open AK_SOCK_DGRAM [PollReply AK_ST_OK 0 4 0]
    [RecvReply AK_ST_TIMEOUT [] 0 0 0; RecvReply AK_ST_OK [1; 2; 3] 0xC0000201 53 3] [] [].
Definition demo_udp : ak_sock := open_entry AK_IPPROTO_UDP 1.

Lemma send_stream_prefix_witness :
  wlp (ak_send 5 demo_entry demo_buf 2500 0 0)
    (fun n s' => exists k, 0 <= k <= 2500
       /\ out_prefix (fun w _ => sc_log w) 1 (sc_log (world demo_tx)) demo_buf k s'
       /\ (n = k /\ (k = 2500 \/ nonblock demo_entry = true) \/ n = -1 /\ k < 2500))
    (fun s' => exists k, 0 <= k <= 2500
       /\ out_prefix (fun w _ => sc_log w) 1 (sc_log (world demo_tx)) demo_buf k s') demo_tx.
Proof.
  apply (send_stream_prefix (fun w _ => sc_log w) 5 demo_entry demo_buf 2500 0 0 demo_tx);
    [reflexivity | vm_compute; split; discriminate | lia].
Defined.

Lemma script_accepting h : accepting h (fun w : script => sc_sends w = [] /\ sc_polls w = []).
Proof.
  split; [intros d l i p w [H1 H2] | intros w [H1 H2]]; cbn; [rewrite H1|rewrite H2]; done.
Qed.

Lemma send_stream_completes_witness :
  wp (ak_send 4 demo_entry demo_buf 2500 0 0)
    (fun n s' => n = 2500 /\ out_prefix (fun w _ => sc_log w) 1 [] demo_buf 2500 s')
    (demo_open AK_SOCK_STREAM [] [] [] []).
Proof.
  apply (send_stream_completes (fun w _ => sc_log w) 4 demo_entry demo_buf 2500 0 0
           (demo_open AK_SOCK_STREAM [] [] [] []) (fun w => sc_sends w = [] /\ sc_polls w = []) eq_refl); [vm_compute; split; discriminate | lia
    | apply script_accepting | split; reflexivity | vm_compute; discriminate].
Defined.

Lemma send_dgram_atomic_witness :
  ak_send 1 demo_udp demo_buf 997 0 53 demo_rx = Done (-1) (with_errno EMSGSIZE demo_rx)
  /\ wlp (ak_send 1 demo_udp demo_buf 996 0 53)
       (fun n s' => n = 996 /\ sc_log (world s') = sc_log (world demo_rx) ++ [take 996 demo_buf]
                    \/ n = -1 /\ sc_log (world s') = sc_log (world demo_rx))
       (fun s' => sc_log (world s') = sc_log (world demo_rx)
                  /\ (nonblock demo_udp = true -> 1%nat = 0%nat)) demo_rx.
Proof.
  split.
  - apply (send_dgram_atomic (fun w _ => sc_log w) 1 demo_udp demo_buf 997 0 53 demo_rx);
      [discriminate | lia | reflexivity].
  - apply (send_dgram_atomic (fun w _ => sc_log w) 1 demo_udp demo_buf 996 0 53 demo_rx);
      [discriminate | lia | discriminate].
Defined.

Lemma recvfrom_answers_witness :
  recvfrom 2 3 100 0 true demo_rx
  = Done (3, Some (RecvReply AK_ST_OK [1; 2; 3] 0xC0000201 53 3),
          Some (SockaddrIn AK_AF_INET (ak_sw16 53) (A4 192 0 2 1) (replicate 8 0), 16))
      (out_state (recvfrom 2 3 100 0 true demo_rx)).
Proof.
  set (s0 := with_world (aknet_sock_recvfrom 1 100 0 (world demo_rx)).2 demo_rx).
  apply (recvfrom_answers 3 demo_udp 100 0 1 demo_rx (out_state (ak_sleep_slice s0))
    (RecvReply AK_ST_OK [1; 2; 3] 0xC0000201 53 3)
    (aknet_sock_recvfrom 1 100 0 (world (out_state (ak_sleep_slice s0)))).2 3).
  - split; [unfold AK_FD_FIRST, AK_FD_MAX; lia|]. split; [vm_compute; reflexivity | split; reflexivity].
  - reflexivity.
  - left. reflexivity.
  - eapply (recv_idle_wait demo_udp 100 0 demo_rx (RecvReply AK_ST_TIMEOUT [] 0 0 0));
      [vm_compute; reflexivity | left; reflexivity | vm_compute; reflexivity | apply recv_idle_none].
  - vm_compute. reflexivity.
  - replace (out_state (recvfrom 2 3 100 0 true demo_rx))
      with (with_world (aknet_sock_recvfrom 1 100 0 (world (out_state (ak_sleep_slice s0)))).2
              (out_state (ak_sleep_slice s0))) by (vm_compute; reflexivity).
    apply (rres_data demo_udp (RecvReply AK_ST_OK [1; 2; 3] 0xC0000201 53 3)); [reflexivity | cbn; lia].
Defined.
