(* ===== verification/SignalSpec.v ===== *)
(** * The selector abort pairs as counters

    A signalling pair promises a counter: a write adds one, a read takes one
    or reports that nothing is pending.  [counter_run] is that promise;
    [signalling_refines_counter] is the refinement. *)
From S2P Require Import Prelude CInt Bridge FdTable SockCalls Select Signalling TableInv SockSpec.

(** ** The promise *)

Inductive sig_op := SigWrite | SigRead.

Definition counter_step (op : sig_op) (c : Z) : Z * Z :=
  match op with
  | SigWrite => (1, c + 1)
  | SigRead => if c =? 0 then (-1, 0) else (1, c - 1)
  end.

Fixpoint counter_run (ops : list sig_op) (c : Z) : list Z * Z :=
  match ops with
  | [] => ([], c)
  | op :: ops' => let '(v, c1) := counter_step op c in
                  let '(vs, c2) := counter_run ops' c1 in (v :: vs, c2)
  end.

Section Signal.
Context {W : Type} `{!Bridge W}.

(** ** The implementation *)

Definition sig_step (r w : Z) (op : sig_op) : M (gs W) Z :=
  match op with
  | SigWrite => gnat_write_signalling_fd w
  | SigRead => gnat_read_signalling_fd r
  end.

Fixpoint sig_run (r w : Z) (ops : list sig_op) : M (gs W) (list Z) :=
  match ops with
  | [] => retM []
  | op :: ops' => let* v := sig_step r w op in
                  let* vs := sig_run r w ops' in retM (v :: vs)
  end.

(** [r], [w] are the two ends of a pair with [c] bytes pending. *)
Definition sig_pair (r w c : Z) (s : gs W) : Prop :=
  exists er ew, r <> w
    /\ AK_FD_FIRST <= r < AK_FD_MAX /\ AK_FD_FIRST <= w < AK_FD_MAX
    /\ sock_at r s = Some er /\ used er = true /\ kind er = AK_KIND_SIGR /\ sig_count er = c
    /\ sock_at w s = Some ew /\ used ew = true /\ kind ew = AK_KIND_SIGW /\ partner ew = r.

Lemma ak_get_used fd e (s : gs W) :
  AK_FD_FIRST <= fd < AK_FD_MAX -> sock_at fd s = Some e -> used e = true -> ak_get fd s = Some e.
Proof.
  intros Hr Hs Hu. unfold ak_get. rewrite Hs, Hu.
  replace (fd <? AK_FD_FIRST) with false by (symmetry; apply Z.ltb_ge; lia).
  by replace (AK_FD_MAX <=? fd) with false by (symmetry; apply Z.leb_gt; lia).
Qed.

(** The pair after its count is set. *)
Lemma sig_pair_count r w c c' (s : gs W) er :
  sig_pair r w c s -> sock_at r s = Some er ->
  sig_pair r w c' (with_fds (<[Z.to_nat r := set_sig_count c' er]> (ak_fds s)) s).
Proof.
  intros (er' & ew & Hne & Hr & Hw & H1 & H2 & H3 & H4 & H5 & H6 & H7 & H8) Hs.
  assert (er' = er) as -> by congruence.
  exists (set_sig_count c' er), ew. split_and!; try done; try lia.
  - by eapply sock_at_insert.
  - rewrite sock_at_other; [done|unfold AK_FD_FIRST in *; lia].
Qed.

(** Each operation does what the counter does, up to errno. *)
Lemma sig_step_refines r w c op (s : gs W) :
  sig_pair r w c s -> 0 <= c -> c + 1 < 2 ^ 32 ->
  wp (sig_step r w op)
    (fun v s' => v = (counter_step op c).1 /\ sig_pair r w (counter_step op c).2 s'
                 /\ world s' = world s
                 /\ (v = -1 -> errno s' = EWOULDBLOCK)) s.
Proof.
  intros Hp Hc Hmax.
  pose proof Hp as (er & ew & Hne & Hr & Hw & H1 & H2 & H3 & H4 & H5 & H6 & H7 & H8).
  pose proof (ak_get_used r er s Hr H1 H2) as Gr. pose proof (ak_get_used w ew s Hw H5 H6) as Gw.
  destruct op; cbn [sig_step counter_step].
  - unfold wp, gnat_write_signalling_fd, bindM, getsM. rewrite Gw, H7.
    cbn [Z.eqb Pos.eqb negb AK_KIND_SIGW]. rewrite H8, Gr.
    rewrite (upd_fd_at r _ er) by done. split_and!; [done| |done|done].
    rewrite H4, u32_id by int_lia. by eapply sig_pair_count.
  - unfold wp, gnat_read_signalling_fd, bindM, getsM. rewrite Gr, H3, H4. cbn [Z.eqb Pos.eqb negb AK_KIND_SIGR].
    destruct (c =? 0) eqn:Ec; bool_to_prop.
    + rewrite Ec in Hp. cbn. split; [done|]. split; [exact Hp|done].
    + rewrite (upd_fd_at r _ er) by done. split_and!; [done| |done|done].
      rewrite u32_id by int_lia. by eapply sig_pair_count.
Qed.

Lemma sig_run_refines r w ops c (s : gs W) :
  sig_pair r w c s -> 0 <= c -> c + Z.of_nat (length ops) < 2 ^ 32 ->
  wp (sig_run r w ops)
    (fun vs s' => vs = (counter_run ops c).1 /\ sig_pair r w (counter_run ops c).2 s'
                  /\ world s' = world s) s.
Proof.
  revert c s. induction ops as [|op ops IH]; intros c s Hp Hc Hmax; [by split_and!|].
  cbn [sig_run counter_run]. apply wp_bind.
  eapply wp_mono; [|apply (sig_step_refines r w c op s Hp Hc); cbn in Hmax; lia].
  intros v s1 (-> & Hp1 & Hw1 & _).
  destruct (counter_step op c) as [v c1] eqn:Es.
  assert (0 <= c1 <= c + 1) as Hc1.
  { destruct op; cbn in Es; [injection Es as <- <-; lia|].
    destruct (c =? 0) eqn:E; injection Es as <- <-; bool_to_prop; lia. }
  apply wp_bind. eapply wp_mono; [|apply (IH c1 s1 Hp1)]; [|lia|cbn in Hmax; lia].
  intros vs s2 (-> & Hp2 & Hw2). destruct (counter_run ops c1) as [vs c2].
  unfold wp. cbn. split_and!; [done|done|congruence].
Qed.

(** Creation on a table with two free descriptors. *)
Lemma create_pair (s : gs W) r w :
  length (ak_fds s) = Z.to_nat AK_FD_MAX -> least_free (ak_fds s) r ->
  least_free (<[Z.to_nat r := fresh_sock]> (ak_fds s)) w ->
  wp gnat_create_signalling_fds
    (fun v s' => v = (0, Some (r, w)) /\ sig_pair r w 0 s' /\ world s' = world s) s.
Proof.
  intros Hlen Hr Hw. unfold wp, gnat_create_signalling_fds, bindM.
  rewrite (ak_alloc_free s r) by done. rewrite (least_free_nonneg _ _ Hr).
  set (s1 := with_fds _ s). rewrite (ak_alloc_free s1 w) by (cbn; rewrite ?length_insert; done).
  rewrite (least_free_nonneg _ _ Hw).
  assert (r <> w) as Hne.
  { intros <-. destruct Hw as (_ & (e & He & Hu) & _).
    rewrite list_lookup_insert_eq in He by (by apply least_free_lt). by injection He as <-. }
  pose proof (least_free_lt _ _ Hr) as Lr. pose proof (least_free_lt _ _ Hw) as Lw.
  destruct Hr as (Rr & _), Hw as (Rw & _). unfold AK_FD_FIRST, AK_FD_MAX in *.
  assert (Z.to_nat r <> Z.to_nat w) as Hnn by lia.
  rewrite length_insert in Lw. unfold s1.
  change (with_fds ?a (with_fds ?b s)) with (with_fds a s). cbn [ak_fds with_fds].
  rewrite upd_fd_insert_other by done.
  rewrite !upd_fd_insert by (by rewrite length_insert).
  rewrite upd_fd_insert_other by done.
  rewrite !upd_fd_insert by (by rewrite length_insert). split_and!; [done| |done].
  eexists _, _. unfold sock_at. cbn [ak_fds with_fds].
  rewrite list_lookup_insert_ne by done. rewrite !list_lookup_insert_eq by (by rewrite ?length_insert).
  unfold AK_FD_FIRST, AK_FD_MAX. split_and!; first [done | lia].
Qed.

(** C34. A fresh signalling pair behaves as a counter: creation returns two
    different descriptors, and any sequence of fewer than 2^32 writes and
    reads on them returns what a counter starting at 0 returns, 1 for a write
    and for a read with something pending, -1 for a read with nothing
    pending; the bridge is never involved. *)
Theorem signalling_refines_counter (s : gs W) r w ops :
  length (ak_fds s) = Z.to_nat AK_FD_MAX -> least_free (ak_fds s) r ->
  least_free (<[Z.to_nat r := fresh_sock]> (ak_fds s)) w ->
  Z.of_nat (length ops) < 2 ^ 32 ->
  wp (let* p := gnat_create_signalling_fds in
      let* vs := sig_run r w ops in retM (p, vs))
    (fun '(p, vs) s' => p = (0, Some (r, w)) /\ vs = (counter_run ops 0).1
       /\ sig_pair r w (counter_run ops 0).2 s' /\ world s' = world s) s.
Proof.
  intros Hlen Hr Hw Hops. apply wp_bind. eapply wp_mono; [|by apply create_pair].
  intros p s1 (-> & Hp & Hw1). apply wp_bind.
  eapply wp_mono; [|apply (sig_run_refines r w ops 0 s1 Hp); lia].
  intros vs s2 (-> & Hp2 & Hw2). unfold wp. cbn. split_and!; [done|done|done|congruence].
Qed.

(** The write end is not checked against its partner: once the read end
    has been closed and its descriptor taken over by any other entry, a write
    still returns 1 and adds to that entry's count, where a closed partner
    gives EPIPE. *)
Theorem stale_partner_write wfd ew ep (s : gs W) :
  AK_FD_FIRST <= wfd < AK_FD_MAX -> sock_at wfd s = Some ew -> used ew = true ->
  kind ew = AK_KIND_SIGW ->
  (AK_FD_FIRST <= partner ew < AK_FD_MAX -> sock_at (partner ew) s = Some ep -> used ep = true ->
     gnat_write_signalling_fd wfd s
     = Done 1 (with_fds (<[Z.to_nat (partner ew) := set_sig_count (u32 (sig_count ep + 1)) ep]>
                           (ak_fds s)) s))
  /\ (ak_get (partner ew) s = None ->
     gnat_write_signalling_fd wfd s = Done (-1) (with_errno EPIPE s)).
Proof.
  intros Hr Hs Hu Hk. pose proof (ak_get_used wfd ew s Hr Hs Hu) as Gw.
  unfold gnat_write_signalling_fd, bindM, getsM. rewrite Gw, Hk. cbn [Z.eqb Pos.eqb negb AK_KIND_SIGW].
  split.
  - intros Hpr Hps Hpu. rewrite (ak_get_used _ ep s Hpr Hps Hpu). by rewrite (upd_fd_at _ _ ep).
  - intros ->. done.
Qed.

End Signal.

(** ** Examples *)

Definition demo_sig : gs script := gs_init (demo_script [] [] [] []).

Lemma demo_least_free3 : least_free (ak_fds demo_sig) 3.
Proof.
  split; [unfold AK_FD_FIRST, AK_FD_MAX; lia|]. split.
  - exists zero_sock. split; vm_compute; reflexivity.
  - intros j e Hj. unfold AK_FD_FIRST in *. lia.
Qed.

Lemma demo_least_free4 : least_free (<[3%nat := fresh_sock]> (ak_fds demo_sig)) 4.
Proof.
  split; [unfold AK_FD_FIRST, AK_FD_MAX; lia|]. split.
  - exists zero_sock. split; vm_compute; reflexivity.
  - intros j e Hj He. assert (j = 3) as -> by (unfold AK_FD_FIRST in *; lia).
    vm_compute in He. injection He as <-. reflexivity.
Qed.

Lemma signalling_refines_counter_witness :
  wp (let* p := gnat_create_signalling_fds in
      let* vs := sig_run 3 4 [SigWrite; SigWrite; SigRead; SigRead; SigRead] in retM (p, vs))
    (fun '(p, vs) s' => p = (0, Some (3, 4)) /\ vs = [1; 1; 1; 1; -1]
       /\ sig_pair 3 4 0 s' /\ world s' = world demo_sig) demo_sig.
Proof.
  apply (signalling_refines_counter demo_sig 3 4 [SigWrite; SigWrite; SigRead; SigRead; SigRead]
           eq_refl demo_least_free3 demo_least_free4). reflexivity.
Defined.

(** Two pairs: (3, 4), whose read end is closed, and (3, 5), which reuses
    it.  A write on 4 makes the reader of the second pair ready. *)
Definition demo_stale : gs script :=
  out_state (gnat_create_signalling_fds
    (out_state (gnat_close_signalling_fd 3 (out_state (gnat_create_signalling_fds demo_sig))))).

Lemma stale_partner_write_witness :
  exists ew ep, sock_at 4 demo_stale = Some ew /\ partner ew = 3
    /\ sock_at 3 demo_stale = Some ep /\ partner ep = 5
    /\ gnat_write_signalling_fd 4 demo_stale
       = Done 1 (with_fds (<[3%nat := set_sig_count 1 ep]> (ak_fds demo_stale)) demo_stale).
Proof.
  exists (default zero_sock (sock_at 4 demo_stale)), (default zero_sock (sock_at 3 demo_stale)).
  split; [vm_compute; reflexivity|]. split; [vm_compute; reflexivity|].
  split; [vm_compute; reflexivity|]. split; [vm_compute; reflexivity|].
  apply (stale_partner_write 4 (default zero_sock (sock_at 4 demo_stale))
           (default zero_sock (sock_at 3 demo_stale)) demo_stale);
    try (vm_compute; reflexivity); vm_compute; split; first [discriminate | reflexivity].
Defined.
