(* ===== verification/Api.v ===== *)
(** * Executions of the socket layer

    [gcall]: one constructor per exported call, with its arguments;
    [run_call] runs it.  [step] is a call made by a client that closes
    signalling descriptors only with [__gnat_close_signalling_fd] (the way
    GNAT.Sockets uses it); [reachable] closes it from the initial state. *)
From stdpp Require Import relations.
From S2P Require Import Prelude CInt CStr Bridge FdTable SockCalls Transfer SockOpts FdSet Select Signalling Inet Netdb AddrInfo TableInv.

Inductive gcall : Type :=
| C_socket (domain type protocol : Z)
| C_close (fd : Z)
| C_bind (fd : Z) (sin : ak_sockaddr_in)
| C_connect (fd : Z) (sin : ak_sockaddr_in)
| C_listen (fd backlog : Z)
| C_accept (fd : Z) (want_addr : bool)
| C_recv (fd len flags : Z)
| C_recvfrom (fd len flags : Z) (want_from : bool)
| C_sendto (fd : Z) (msg : list Z) (len flags : Z) (to : option ak_sockaddr_in) (tolen : Z)
| C_getsockname (fd : Z)
| C_getpeername (fd : Z)
| C_getsockopt (fd level name : Z)
| C_setsockopt (fd level name val : Z)
| C_shutdown (fd how : Z)
| C_socketpair (domain type protocol : Z)
| C_gethostname (namelen : Z)
| C_recvmsg (fd flags : Z)
| C_sendmsg (fd flags : Z)
| C_select (nfds : Z) (f : fdsets) (timeout : option (Z * Z))
| C_poll (l : list ak_pollfd) (timeout_ms : Z)
| C_ioctl (fd req arg : Z)
| C_create_signalling
| C_read_signalling (fd : Z)
| C_write_signalling (fd : Z)
| C_close_signalling (fd : Z)
| C_inet_pton (af : Z) (src : list Z)
| C_inet_ntop (af : Z) (src : addr4) (size : Z)
| C_gethostbyname (name : list Z)
| C_gethostbyaddr_r (addr : addr4) (type : Z)
| C_gethostbyaddr (addr : addr4) (type : Z)
| C_getaddrinfo (node service : option (list Z)) (hints : option gai_hints)
| C_freeaddrinfo (res : Z)
| C_getnameinfo (sin : ak_sockaddr_in) (host serv : option Z).

Definition forget {S A} (c : M S A) : M S unit := let* r := c in retM tt.

Section Run.
Context {W : Type} `{!Bridge W, !Libc W}.

Definition run_call (fuel : nat) (c : gcall) : M (gs W) unit :=
  match c with
  | C_socket d t p => forget (socket d t p)
  | C_close fd => forget (gnat_socket_close fd)
  | C_bind fd sin => forget (bind fd sin)
  | C_connect fd sin => forget (connect fd sin)
  | C_listen fd b => forget (listen fd b)
  | C_accept fd a => forget (accept fuel fd a)
  | C_recv fd l f => forget (recv fuel fd l f)
  | C_recvfrom fd l f w => forget (recvfrom fuel fd l f w)
  | C_sendto fd m l f t tl => forget (sendto fuel fd m l f t tl)
  | C_getsockname fd => forget (getsockname fd)
  | C_getpeername fd => forget (getpeername fd)
  | C_getsockopt fd l n => forget (getsockopt fd l n)
  | C_setsockopt fd l n v => forget (setsockopt fd l n v)
  | C_shutdown fd h => forget (shutdown fd h)
  | C_socketpair d t p => forget (socketpair d t p)
  | C_gethostname n => forget (gethostname n)
  | C_recvmsg fd f => forget (recvmsg fd f)
  | C_sendmsg fd f => forget (sendmsg fd f)
  | C_select n f t => forget (select fuel n f t)
  | C_poll l t => forget (poll fuel l t)
  | C_ioctl fd r a => forget (gnat_socket_ioctl fd r a)
  | C_create_signalling => forget gnat_create_signalling_fds
  | C_read_signalling fd => forget (gnat_read_signalling_fd fd)
  | C_write_signalling fd => forget (gnat_write_signalling_fd fd)
  | C_close_signalling fd => gnat_close_signalling_fd fd
  | C_inet_pton af s => forget (gnat_inet_pton af s)
  | C_inet_ntop af a n => forget (gnat_inet_ntop af a n)
  | C_gethostbyname n => forget (gnat_gethostbyname n)
  | C_gethostbyaddr_r a t => forget (gnat_gethostbyaddr a t)
  | C_gethostbyaddr a t => forget (gethostbyaddr a t)
  | C_getaddrinfo n s h => forget (gnat_getaddrinfo n s h)
  | C_freeaddrinfo p => gnat_freeaddrinfo fuel p
  | C_getnameinfo sin h s => forget (gnat_getnameinfo sin h s)
  end.

(** The obligation on the client: a signalling close is not called on a
    socket. *)
Definition call_allowed (c : gcall) (s : gs W) : Prop :=
  match c with
  | C_close_signalling fd =>
      forall e, ak_get fd s = Some e -> kind e <> AK_KIND_SOCK
  | _ => True
  end.

Inductive step (s s' : gs W) : Prop :=
| step_return fuel c :
    call_allowed c s -> run_call fuel c s = Done tt s' -> step s s'.

Definition reachable (w : W) (s : gs W) : Prop := rtc step (gs_init w) s.

End Run.

(** ** Every call keeps the invariant *)

Section Preservation.
Context {W : Type} `{!Bridge W, !Libc W} (live : W -> gset Z) `{!BridgeLaws W live}.
Hypothesis live_malloc : forall n w, live (malloc_ok n w).2 = live w.
Hypothesis live_read_file : forall n m w, live (read_file n m w).2 = live w.

#[local] Abbreviation known := (known live).
#[local] Abbreviation inv := (table_inv live).

#[local] Hint Extern 4 (live (_ _).2 = live _) =>
  first [ apply live_bind | apply live_connect | apply live_listen | apply live_sendto
        | apply live_recvfrom | apply live_poll | apply live_resolve | apply live_sleep
        | apply live_rdtime | apply live_malloc | apply live_read_file | apply live_attach ]
  : aegir.

Lemma h_known_none {A} k (c : M (gs W) A) Q :
  hoare (known None) c Q inv -> hoare (known k) c Q inv.
Proof. intros H. eapply hoare_conseq; [exact H| |done|done]. by intros s [? _]. Qed.

Lemma p_sleep_slice k : hoare (known k) ak_sleep_slice (fun _ => known k) inv.
Proof.
  unfold ak_sleep_slice, ak_now.
  repeat (eapply hoare_bind; [apply h_call; intros; auto with aegir | intros ?]).
  apply h_ret.
Qed.

(** One step of the proof that a call keeps what it knows. *)
Ltac h_step :=
  lazymatch goal with
  | |- hoare _ (bindM (call _) _) _ _ =>
      eapply hoare_bind; [apply h_call; intros; cbn; auto with aegir | intros ?]
  | |- hoare _ (bindM (set_errno _) _) _ _ => eapply hoare_bind; [apply h_set_errno | intros ?]
  | |- hoare _ (bindM ak_sleep_slice _) _ _ => eapply hoare_bind; [apply p_sleep_slice | intros ?]
  | |- hoare _ (bindM (upd_fd _ _) _) _ _ =>
      eapply hoare_bind; [apply h_upd; cbn; auto with aegir | intros ?]
  | |- hoare _ (bindM (retM _) _) _ _ => eapply hoare_bind; [apply h_ret | intros ?]
  | |- hoare _ (bindM (getsM _) _) _ _ =>
      eapply hoare_bind; [apply h_gets | intros ?]
  | |- hoare _ (retM _) _ _ => apply hoare_ret; intros ? [? ?]; by split
  | |- hoare _ (fail _) (fun _ => known None) _ => apply h_weaken, h_fail
  | |- hoare _ (iterM _ _ _) (fun _ => known None) _ => apply h_weaken, h_iter; intros ?
  | |- hoare _ (iterM _ _ _) _ _ => apply h_iter; intros ?
  | |- hoare _ (with_sock _ _ _) _ _ => apply h_with_sock; [| intros ? ? ?]
  | |- hoare _ (if ?b then _ else _) _ _ => destruct b eqn:?
  | |- hoare _ (match ?x with _ => _ end) _ _ => destruct x eqn:?
  | |- hoare _ (let _ := _ in _) _ _ => cbv zeta
  end.

Ltac h_solve := repeat h_step.

Lemma p_bind fd sin : hoare (known None) (bind fd sin) (fun _ => known None) inv.
Proof. unfold bind. h_solve. Qed.

Lemma p_close fd : hoare (known None) (gnat_socket_close fd) (fun _ => known None) inv.
Proof.
  apply h_with_sock; [apply h_fail|].
  intros e Hk _ s [[Hwf Ha] (Hr & Hs & Hu & Hwe & Hke)]. unfold sock_at in Hs.
  unfold bindM, call, wlp. pose proof (live_close (handle e) (world s)) as Hl.
  destruct (aknet_sock_close _ _) as [r w']. cbn in *. split; [split|done]; cbn.
  - rewrite (alter_as_insert _ _ _ e Hs). apply fds_wf_insert; auto with aegir.
    unfold AK_FD_FIRST in *. lia.
  - rewrite Hl. by apply acct_close.
Qed.

Lemma p_ensure_net : hoare (known None) ak_ensure_net (fun _ => known None) inv.
Proof.
  unfold ak_ensure_net. h_step.
  eapply hoare_bind with (R := fun _ => known None); [|intros ?; h_solve].
  h_step; [|h_solve]. apply h_call. intros w. apply live_attach.
Qed.

Lemma p_auto_bind fd e :
  hoare (known (Some (fd, e))) (ak_auto_bind fd e) (fun _ => known None) inv.
Proof. unfold ak_auto_bind. h_solve. Qed.

(** After an automatic bind the entry differs at most in its local port. *)
Lemma p_auto_bind_known fd e :
  hoare (known (Some (fd, e))) (ak_auto_bind fd e)
    (fun _ s => known (Some (fd, e)) s \/ exists p, known (Some (fd, set_local_port p e)) s) inv.
Proof.
  unfold ak_auto_bind. h_step; [apply hoare_ret; auto|].
  eapply hoare_bind; [apply h_call; intros; apply live_bind | intros [st p]].
  h_step; [intros s Hs; by left|].
  eapply hoare_bind; [apply h_upd; cbn; auto with aegir | intros ?].
  apply hoare_ret. eauto.
Qed.

Lemma p_connect fd sin : hoare (known None) (connect fd sin) (fun _ => known None) inv.
Proof.
  unfold connect. h_step; [h_solve|]. h_step; [h_solve|].
  eapply hoare_bind; [apply p_auto_bind_known | intros ab].
  assert (forall e', hoare (known (Some (fd, e')))
    (if negb (ab =? 0) then retM (-1) else
      let* st := call (aknet_sock_connect (handle e) (ak_addr_to_u32 (sin_addr sin))
                         (ak_sw16 (sin_port sin))) in
      if negb (st =? AK_ST_OK) then
        fail (if st =? 4 then ECONNREFUSED else if st =? 5 then ETIMEDOUT else EIO)
      else
        upd_fd fd (set_peer (ak_addr_to_u32 (sin_addr sin)) (ak_sw16 (sin_port sin))) ;;
        retM 0) (fun _ => known None) inv) as Hk.
  { intros e'. do 4 h_step; h_solve. }
  intros s [Hs|[p Hs]]; by eapply Hk.
Qed.

Lemma p_listen fd b : hoare (known None) (listen fd b) (fun _ => known None) inv.
Proof.
  unfold listen. h_step; [h_solve|]. destruct (negb _) eqn:Ep; [h_solve|].
  bool_to_prop. h_solve.
Qed.

Lemma p_shutdown fd how : hoare (known None) (shutdown fd how) (fun _ => known None) inv.
Proof. unfold shutdown. h_solve. Qed.

Lemma p_getsockname fd : hoare (known None) (getsockname fd) (fun _ => known None) inv.
Proof. unfold getsockname. h_solve. Qed.

Lemma p_getpeername fd : hoare (known None) (getpeername fd) (fun _ => known None) inv.
Proof. unfold getpeername. h_solve. Qed.

Lemma p_gethostname n : hoare (known None) (gethostname n) (fun _ => known None) inv.
Proof. unfold gethostname. h_solve. Qed.

Lemma p_recv_loop k fuel e len flags :
  hoare (known k) (ak_recv fuel e len flags) (fun _ => known None) inv.
Proof. unfold ak_recv, ak_recv_body. h_solve. Qed.

Lemma p_recv fuel fd len flags :
  hoare (known None) (recv fuel fd len flags) (fun _ => known None) inv.
Proof. unfold recv. h_step; [h_solve|apply p_recv_loop]. Qed.

Lemma p_recvfrom fuel fd len flags w :
  hoare (known None) (recvfrom fuel fd len flags w) (fun _ => known None) inv.
Proof.
  unfold recvfrom. h_step; [h_solve|].
  eapply hoare_bind; [apply p_recv_loop | intros [n out]; h_solve].
Qed.

Lemma p_send k fuel e buf len ip port :
  hoare (known k) (ak_send fuel e buf len ip port) (fun _ => known None) inv.
Proof. unfold ak_send, ak_send_dgram, ak_send_stream. h_solve. Qed.

Lemma p_sendto fuel fd m len flags to tolen :
  hoare (known None) (sendto fuel fd m len flags to tolen) (fun _ => known None) inv.
Proof.
  unfold sendto. h_step; [h_solve|]. cbv zeta.
  assert (forall ip port, hoare (known (Some (fd, e)))
    (let* ab := (if negb (connected e) then ak_auto_bind fd e else retM 0) in
     if negb (ab =? 0) then retM (-1) else ak_send fuel e m len ip port)
    (fun _ => known None) inv) as Hsend.
  { intros ip port. eapply hoare_bind with (R := fun _ => known None).
    - h_step; [apply p_auto_bind | h_solve].
    - intros ab. h_step; [h_solve | apply p_send]. }
  repeat first [apply Hsend | h_step].
Qed.

Lemma p_ready k fd : hoare (known k) (ak_ready fd) (fun _ => known k) inv.
Proof. unfold ak_ready. h_solve. Qed.

Lemma p_select_fd k fd st : hoare (known k) (select_fd fd st) (fun _ => known k) inv.
Proof.
  unfold select_fd. destruct st as [f n]. eapply hoare_bind with (R := fun _ => known k).
  - destruct (_ || _); [apply p_ready | apply h_ret].
  - intros m. repeat (destruct (settle _ _ _ _ _) as [? ?]). apply h_ret.
Qed.

Lemma p_select_scan k n fd st : hoare (known k) (select_scan n fd st) (fun _ => known k) inv.
Proof.
  revert fd st. induction n as [|n IH]; intros fd st; [apply h_ret|].
  cbn [select_scan]. eapply hoare_bind; [apply p_select_fd | intros st'; apply IH].
Qed.

Lemma p_select fuel n f t : hoare (known None) (select fuel n f t) (fun _ => known None) inv.
Proof.
  unfold select, ak_now. eapply hoare_bind with (R := fun _ => known None); [h_solve|].
  intros d. cbv zeta. apply h_iter. intros f'. unfold select_round, ak_now.
  eapply hoare_bind; [apply p_select_scan | intros [f'' n']]. h_solve.
Qed.

Lemma p_poll_scan k l : hoare (known k) (poll_scan l) (fun _ => known k) inv.
Proof.
  induction l as [|p l IH]; [apply h_ret|]. cbn [poll_scan].
  eapply hoare_bind with (R := fun _ => known k).
  - unfold poll_fd. eapply hoare_bind; [apply p_ready | intros m]. h_solve.
  - intros [p' b]. eapply hoare_bind; [apply IH | intros [l' n]; apply h_ret].
Qed.

Lemma p_poll fuel l t : hoare (known None) (poll fuel l t) (fun _ => known None) inv.
Proof.
  unfold poll, ak_now. h_step. cbv zeta. apply h_iter. intros l'. unfold poll_round, ak_now.
  eapply hoare_bind; [apply p_poll_scan | intros [l'' n']]. h_solve.
Qed.

Lemma p_ioctl fd r a : hoare (known None) (gnat_socket_ioctl fd r a) (fun _ => known None) inv.
Proof. unfold gnat_socket_ioctl. h_solve. Qed.

Lemma p_getsockopt fd l n : hoare (known None) (getsockopt fd l n) (fun _ => known None) inv.
Proof. unfold getsockopt. h_solve. Qed.

Lemma p_setsockopt fd l n v : hoare (known None) (setsockopt fd l n v) (fun _ => known None) inv.
Proof.
  unfold setsockopt. h_step; [h_solve|]. h_step; [h_solve|].
  destruct (opt_find e l n) as [i|] eqn:Ef.
  - eapply hoare_bind; [apply h_upd; cbn; auto using sock_wf_set_val | intros ?; h_solve].
  - destruct (nopts e =? AK_NOPT) eqn:En; [h_solve|]. bool_to_prop.
    eapply hoare_bind; [apply h_upd; cbn; auto using sock_wf_push | intros ?; h_solve].
Qed.

(** The common tail of [socket] and [accept]: a handle [h] the bridge just
    opened goes to a free entry, or is closed again when the table is full. *)
Lemma install_or_close s L h :
  fds_wf (ak_fds s) -> acct (ak_fds s) L -> live (world s) = {[h]} ∪ L -> h ∉ L ->
  (exists fd, least_free (ak_fds s) fd /\
     ak_alloc s = Done fd (with_fds (<[Z.to_nat fd := fresh_sock]> (ak_fds s)) s))
  \/ (ak_alloc s = Done (-1) (with_errno EMFILE s) /\
      forall r w, aknet_sock_close h (world s) = (r, w) ->
                  inv (with_world w (with_errno EMFILE s))).
Proof.
  intros Hwf Ha Hl Hfr. destruct (ak_alloc_spec s (wf_len _ Hwf)) as [?|[_ Hal]]; [by left|].
  right. split; [done|]. intros r w Hc. split; [done|]. cbn.
  pose proof (live_close h (world s)) as Hlc. rewrite Hc in Hlc. cbn in Hlc.
  rewrite Hlc, Hl. by replace (({[h]} ∪ L) ∖ {[h]}) with L by set_solver.
Qed.

Lemma p_socket_create p : hoare (known None) (socket_create p) (fun _ => known None) inv.
Proof.
  intros s [[Hwf Ha] _]. unfold socket_create, wlp, bindM, call.
  destruct (aknet_sock_socket p (world s)) as [[st h] w] eqn:Es.
  apply live_socket in Es. destruct (st =? AK_ST_OK); cbn [negb].
  2: { split; [split; [done|cbn; by rewrite Es]|done]. }
  destruct Es as [Hfr Hl].
  destruct (install_or_close (with_world w s) (live (world s)) h Hwf Ha Hl Hfr)
    as [(fd & Hlf & ->)|[-> Hcl]].
  - rewrite (least_free_nonneg _ _ Hlf).
    rewrite !upd_fd_insert by (by apply least_free_lt in Hlf).
    split; [|done]. eapply table_inv_install; eauto with aegir. done.
  - cbn in *. destruct (aknet_sock_close h w) as [r w'] eqn:Ec.
    split; [|done]. by eapply Hcl.
Qed.

Lemma p_socket d t pr : hoare (known None) (socket d t pr) (fun _ => known None) inv.
Proof.
  unfold socket. eapply hoare_bind; [apply p_ensure_net | intros up].
  h_step; [h_solve|]. h_step; [h_solve|].
  h_step; [apply p_socket_create|]. h_step; [apply p_socket_create|h_solve].
Qed.

(** A state whose bridge holds one handle more than the table. *)
Definition pending (h : Z) (s : gs W) : Prop :=
  fds_wf (ak_fds s) /\ acct (ak_fds s) (live (world s) ∖ {[h]}) /\ h ∈ live (world s).

Lemma p_accept_loop fuel k e :
  hoare (known k) (accept_loop fuel e)
    (fun got s => match got with
                  | inl _ => known None s
                  | inr r => pending (ar_handle r) s
                  end) inv.
Proof.
  unfold accept_loop. generalize tt. induction fuel as [|n IH]; intros u s Hs;
    [by destruct Hs|]. cbn [iterM]. destruct Hs as [[Hwf Ha] Hk].
  unfold wlp, bindM, call.
  destruct (aknet_sock_accept (handle e) (world s)) as [r w] eqn:Ea.
  apply live_accept in Ea. destruct (ar_status r =? AK_ST_OK).
  { destruct Ea as [Hfr Hl]. unfold pending; cbn. rewrite Hl. split_and!; [done| |set_solver].
    by replace (({[ar_handle r]} ∪ live (world s)) ∖ {[ar_handle r]})
      with (live (world s)) by set_solver. }
  assert (known k (with_world w s)) as Hs'
    by (split; [split; [done|cbn; by rewrite Ea]|done]).
  destruct (negb (ar_status r =? AK_ST_NOT_READY)); [by destruct Hs'|].
  destruct (nonblock e); [by destruct Hs'|].
  pose proof (p_sleep_slice k _ Hs') as Hsl. unfold wlp in Hsl.
  destruct (ak_sleep_slice (with_world w s)) as [[] s1|s1]; [|done].
  cbn. by apply IH.
Qed.

Lemma p_accept fuel fd a : hoare (known None) (accept fuel fd a) (fun _ => known None) inv.
Proof.
  unfold accept. h_step; [h_solve|]. h_step; [h_solve|].
  eapply hoare_bind; [apply p_accept_loop | intros [er|r]]; [h_solve|].
  intros s (Hwf & Ha & Hin). unfold wlp, bindM, call.
  destruct (install_or_close s (live (world s) ∖ {[ar_handle r]}) (ar_handle r))
    as [(nfd & Hlf & ->)|[-> Hcl]]; [done|done|by rewrite <- union_difference_singleton_L|set_solver| |].
  - rewrite (least_free_nonneg _ _ Hlf).
    rewrite !upd_fd_insert by (by apply least_free_lt in Hlf).
    split; [|done]. eapply table_inv_install; try done.
    + by rewrite <- union_difference_singleton_L.
    + set_solver.
    + apply sock_wf_local_port; [by apply wf_local_port | auto 10 with aegir].
  - cbn in *. destruct (aknet_sock_close _ _) as [c w'] eqn:Ec. split; [|done].
    by eapply Hcl.
Qed.

Lemma p_create_signalling :
  hoare (known None) gnat_create_signalling_fds (fun _ => known None) inv.
Proof.
  intros s [Hi _]. pose proof Hi as [Hwf Ha].
  unfold gnat_create_signalling_fds, wlp, bindM.
  destruct (ak_alloc_spec s (wf_len _ Hwf)) as [(r & Hr & ->)|[_ ->]]; [|done].
  rewrite (least_free_nonneg _ _ Hr). pose proof (least_free_lt _ _ Hr) as Hrl.
  destruct Hr as ([Hr3 _] & (e0 & He0 & Hu0) & _).
  assert (forall e, ~ is_open e -> sock_wf e -> (used e = true -> kind e <> 0) ->
          inv (with_fds (<[Z.to_nat r := e]> (ak_fds s)) s)) as Hput.
  { intros e. eapply table_inv_put_closed; try done. intros [? _]; congruence. }
  edestruct (ak_alloc_spec (with_fds (<[Z.to_nat r := fresh_sock]> (ak_fds s)) s))
    as [(w & Hw & ->)|[_ ->]]; [by cbn; rewrite length_insert; apply (wf_len _ Hwf)| |].
  - rewrite (least_free_nonneg _ _ Hw). pose proof (least_free_lt _ _ Hw) as Hwl.
    cbn in Hwl. rewrite length_insert in Hwl.
    destruct Hw as ([Hw3 _] & (e1 & He1 & Hu1) & _). cbn in He1.
    assert (Z.to_nat r <> Z.to_nat w) as Hne.
    { intros Heq. rewrite <- Heq, list_lookup_insert_eq in He1 by done. by injection He1 as <-. }
    rewrite list_lookup_insert_ne in He1 by done. cbn [ak_fds with_fds].
    change (with_fds ?a (with_fds ?b s)) with (with_fds a s).
    rewrite upd_fd_insert_other by done.
    rewrite upd_fd_insert by (by rewrite length_insert).
    rewrite upd_fd_insert_other by done.
    rewrite upd_fd_insert by (by rewrite length_insert).
    split; [|done]. 
    eapply (table_inv_put_closed live (with_fds
      (<[Z.to_nat r := set_partner w (set_kind AK_KIND_SIGR fresh_sock)]> (ak_fds s)) s) w).
    + apply Hput; [by intros [_ ?] | auto 10 with aegir | done].
    + done.
    + rewrite <- He1. by apply list_lookup_insert_ne.
    + intros [? _]; congruence.
    + by intros [_ ?].
    + auto 10 with aegir.
    + done.
  - split; [|done]. cbn in *.
    rewrite (alter_as_insert _ _ _ fresh_sock) by (by apply list_lookup_insert_eq).
    rewrite list_insert_insert_eq. eapply Hput; auto with aegir. by intros [? _].
Qed.

Lemma p_read_signalling fd :
  hoare (known None) (gnat_read_signalling_fd fd) (fun _ => known None) inv.
Proof.
  intros s Hs. unfold gnat_read_signalling_fd, wlp, bindM, getsM.
  destruct (ak_get fd s) as [e|] eqn:E; [|done].
  destruct (negb _); [done|]. destruct (_ =? 0); [done|].
  apply (ak_get_known live) in E; [|by destruct Hs].
  pose proof (h_upd live fd e (set_sig_count (u32 (sig_count e - 1)))) as Hu.
  by destruct (Hu ltac:(auto with aegir) eq_refl eq_refl eq_refl s E).
Qed.

Lemma p_write_signalling fd :
  hoare (known None) (gnat_write_signalling_fd fd) (fun _ => known None) inv.
Proof.
  intros s Hs. unfold gnat_write_signalling_fd, wlp, bindM, getsM.
  destruct (ak_get fd s) as [e|] eqn:E; [|done].
  destruct (negb _); [done|]. destruct (ak_get (partner e) s) as [re|] eqn:Er; [|done].
  apply (ak_get_known live) in Er; [|by destruct Hs].
  pose proof (h_upd live (partner e) re (set_sig_count (u32 (sig_count re + 1)))) as Hu.
  by destruct (Hu ltac:(auto with aegir) eq_refl eq_refl eq_refl s Er).
Qed.

Lemma p_close_signalling fd s :
  inv s -> call_allowed (C_close_signalling fd) s ->
  wlp (gnat_close_signalling_fd fd) (fun _ => inv) inv s.
Proof.
  intros Hs Hok. unfold gnat_close_signalling_fd, wlp, bindM, getsM.
  destruct (ak_get fd s) as [e|] eqn:E; [|done]. specialize (Hok e E).
  apply (ak_get_known live) in E as (_ & [Hr _] & He & Hu & Hwe & Hk); [|done]. cbn.
  rewrite (alter_as_insert _ _ _ e He).
  eapply table_inv_put_closed; try done; auto with aegir; by intros [? ?].
Qed.

Lemma p_inet_ntop k af a n : hoare (known k) (gnat_inet_ntop af a n) (fun _ => known k) inv.
Proof. unfold gnat_inet_ntop. h_solve. Qed.

Lemma p_inet_pton af a : hoare (known None) (gnat_inet_pton af a) (fun _ => known None) inv.
Proof. unfold gnat_inet_pton. h_solve. Qed.

Lemma p_fill_hostent k n a : hoare (known k) (ak_fill_hostent n a) (fun _ => known k) inv.
Proof. by intros s. Qed.

Lemma p_set_h_errno k v : hoare (known k) (set_h_errno v) (fun _ => known k) inv.
Proof. by intros s. Qed.

Lemma p_dns_query n : hoare (known None) (ak_dns_query n) (fun _ => known None) inv.
Proof.
  unfold ak_dns_query. eapply hoare_bind; [apply p_ensure_net | intros up].
  do 4 (try h_step); [h_solve..|].
  eapply hoare_bind; [apply p_set_h_errno | intros ?; h_solve].
Qed.

Lemma p_gethostbyname n : hoare (known None) (gnat_gethostbyname n) (fun _ => known None) inv.
Proof.
  unfold gnat_gethostbyname. destruct (ak_parse_dotted n) as [dst ok].
  h_step; [eapply hoare_bind; [apply p_fill_hostent | intros ?; h_solve]|].
  eapply hoare_bind; [apply p_dns_query | intros [found ip]]. h_step; [|h_solve].
  eapply hoare_bind; [apply p_fill_hostent | intros ?; h_solve].
Qed.

Lemma p_gethostbyaddr_r a t : hoare (known None) (gnat_gethostbyaddr a t) (fun _ => known None) inv.
Proof.
  unfold gnat_gethostbyaddr. h_step; [h_solve|].
  eapply hoare_bind; [apply p_inet_ntop | intros [ok d]].
  eapply hoare_bind; [apply p_fill_hostent | intros ?; h_solve].
Qed.

Lemma p_gethostbyaddr a t : hoare (known None) (gethostbyaddr a t) (fun _ => known None) inv.
Proof.
  unfold gethostbyaddr. h_step.
  { eapply hoare_bind; [apply p_set_h_errno | intros ?; h_solve]. }
  eapply hoare_bind; [apply p_inet_ntop | intros [ok d]].
  eapply hoare_bind; [apply p_fill_hostent | intros ?; h_solve].
Qed.

(** ** The heap calls do not touch the table *)

Lemma p_malloc n : hoare (known None) (malloc n) (fun _ => known None) inv.
Proof. unfold malloc. h_step. h_step; [by intros s ?|h_solve]. Qed.

Lemma p_free p : hoare (known None) (free p) (fun _ => known None) inv.
Proof.
  unfold free. h_step; [h_solve|]. intros s Hs. unfold wlp, modifyM. cbn.
  by destruct (blocks (heap s) !! p).
Qed.

Lemma p_store p b : hoare (known None) (store p b) (fun _ => known None) inv.
Proof. by intros s. Qed.

Ltac heap_step :=
  lazymatch goal with
  | |- hoare _ (bindM (malloc _) _) _ _ => eapply hoare_bind; [apply p_malloc | intros ?]
  | |- hoare _ (bindM (free _) _) _ _ => eapply hoare_bind; [apply p_free | intros ?]
  | |- hoare _ (bindM (store _ _) _) _ _ => eapply hoare_bind; [apply p_store | intros ?]
  | |- hoare _ (free _) _ _ => apply p_free
  | |- hoare _ (store _ _) _ _ => apply p_store
  | |- _ => h_step
  end.
Ltac heap_solve := repeat heap_step.

Lemma p_mk_addrinfo ip port t pr f :
  hoare (known None) (ak_mk_addrinfo ip port t pr f) (fun _ => known None) inv.
Proof. unfold ak_mk_addrinfo. heap_solve. Qed.

Lemma p_own_address : hoare (known None) ak_own_address (fun _ => known None) inv.
Proof. unfold ak_own_address. heap_solve. Qed.

Lemma p_gai_node n f : hoare (known None) (gai_node n f) (fun _ => known None) inv.
Proof.
  unfold gai_node.
  repeat first [ h_step
               | eapply hoare_bind; [apply p_own_address | intros ?]
               | eapply hoare_bind; [apply p_dns_query | intros ?] ].
Qed.

Lemma p_gai_unwind fuel p : hoare (known None) (gai_unwind fuel p) (fun _ => known None) inv.
Proof. unfold gai_unwind. apply h_iter. intros q. heap_solve. Qed.

Lemma p_freeaddrinfo fuel p : hoare (known None) (gnat_freeaddrinfo fuel p) (fun _ => known None) inv.
Proof. unfold gnat_freeaddrinfo. apply h_iter. intros q. heap_solve. Qed.

Lemma p_gai_link p a : hoare (known None) (gai_link p a) (fun _ => known None) inv.
Proof. unfold gai_link. heap_solve. Qed.

Lemma p_getaddrinfo n sv h :
  hoare (known None) (gnat_getaddrinfo n sv h) (fun _ => known None) inv.
Proof.
  unfold gnat_getaddrinfo. cbv zeta. do 2 (h_step; [h_solve|]).
  eapply hoare_bind; [apply p_gai_node | intros [er|ip]]; [h_solve|].
  destruct (gai_service sv) as [er|port]; [h_solve|].
  eapply hoare_bind with (R := fun _ => known None).
  { h_step; [apply p_mk_addrinfo | h_solve]. }
  intros a1. h_step; [eapply hoare_bind; [apply p_gai_unwind | intros ?; h_solve]|].
  h_step; [|h_solve]. eapply hoare_bind; [apply p_mk_addrinfo | intros a2].
  h_step; [eapply hoare_bind; [apply p_gai_unwind | intros ?; h_solve]|].
  eapply hoare_bind; [apply p_gai_link | intros ?; h_solve].
Qed.

Lemma p_getnameinfo sin h sv :
  hoare (known None) (gnat_getnameinfo sin h sv) (fun _ => known None) inv.
Proof.
  unfold gnat_getnameinfo. h_step; [h_solve|].
  eapply hoare_bind with (R := fun _ => known None).
  { h_step; [|h_solve]. eapply hoare_bind; [apply p_inet_ntop | intros [ok t]; h_solve]. }
  intros [ok t]. cbv zeta. h_solve.
Qed.

Lemma p_forget {A} (c : M (gs W) A) :
  hoare (known None) c (fun _ => known None) inv ->
  hoare (known None) (forget c) (fun _ => known None) inv.
Proof. intros Hc. unfold forget. eapply hoare_bind; [exact Hc | intros ?; h_solve]. Qed.

Lemma run_call_inv fuel c s :
  inv s -> call_allowed c s -> wlp (run_call fuel c) (fun _ => inv) inv s.
Proof.
  intros Hs Hok.
  assert (forall c', hoare (known None) c' (fun _ => known None) inv ->
                     wlp c' (fun _ : unit => inv) inv s) as Hgo.
  { intros c' Hc. specialize (Hc s (conj Hs I)). unfold wlp in *.
    destruct (c' s); [by destruct Hc | done]. }
  destruct c; cbn [run_call]; try (apply Hgo, p_forget).
  - apply p_socket. - apply p_close. - apply p_bind. - apply p_connect. - apply p_listen.
  - apply p_accept. - apply p_recv. - apply p_recvfrom. - apply p_sendto.
  - apply p_getsockname. - apply p_getpeername. - apply p_getsockopt. - apply p_setsockopt.
  - apply p_shutdown. - apply h_fail. - apply p_gethostname. - apply h_fail. - apply h_fail.
  - apply p_select. - apply p_poll. - apply p_ioctl. - apply p_create_signalling.
  - apply p_read_signalling. - apply p_write_signalling.
  - by apply p_close_signalling.
  - apply p_inet_pton. - apply p_inet_ntop. - apply p_gethostbyname.
  - apply p_gethostbyaddr_r. - apply p_gethostbyaddr. - apply p_getaddrinfo.
  - apply Hgo, p_freeaddrinfo.
  - apply p_getnameinfo.
Qed.

Lemma init_inv w : live w = ∅ -> inv (gs_init w).
Proof.
  intros Hl. assert (forall i e, replicate 256 zero_sock !! i = Some e -> e = zero_sock) as Hz.
  { intros i e [-> _]%lookup_replicate. done. }
  split; [split|split]; cbn [gs_init ak_fds world]; unfold AK_FD_MAX.
  - by rewrite length_replicate.
  - apply Forall_replicate, sock_wf_zero.
  - intros i e _ ->%Hz. done.
  - by apply Forall_replicate.
  - intros i e ->%Hz [? _]. done.
  - rewrite Hl. set_solver.
  - intros i j e e' ->%Hz _ [? _]. done.
Qed.

Lemma reachable_inv w s : live w = ∅ -> reachable w s -> inv s.
Proof.
  intros Hl Hr. unfold reachable in Hr. revert s Hr.
  apply rtc_ind_r; [by apply init_inv|].
  intros s1 s2 _ [fuel c Hok Hrun] IH.
  pose proof (run_call_inv fuel c s1 IH Hok) as Hw. unfold wlp in Hw. by rewrite Hrun in Hw.
Qed.

(** C1. In every state a client can reach, the descriptor table is well
    formed and the open sockets of the table hold exactly the handles the
    bridge has open, each in one entry: no call leaks a netserv socket, none
    keeps a closed one, and no two descriptors share one.  The same holds at
    every point where a blocking call made in such a state is waiting. *)
Theorem handles_accounted w s fuel c :
  live w = ∅ -> reachable w s -> call_allowed c s ->
  (fds_wf (ak_fds s) /\ acct (ak_fds s) (live (world s)))
  /\ match run_call fuel c s with
     | Done _ s' | Blocked s' => fds_wf (ak_fds s') /\ acct (ak_fds s') (live (world s'))
     end.
Proof.
  intros Hl Hr Hok. pose proof (reachable_inv w s Hl Hr) as Hs. split; [exact Hs|].
  exact (run_call_inv fuel c s Hs Hok).
Qed.
End Preservation.

(** ** Witness *)

(** A program on the scripted bridge: attach, open a stream and a datagram
    socket, close the first. *)
Definition demo_world : script :=
  Script 6 1 ∅ 0 [PollReply 0 0 1 0] [] [] [] (0, 4000) 0 (0, 0) [] None [].

Definition demo_state : gs script :=
  match run_call 1 (C_socket AK_AF_INET AK_SOCK_STREAM 0) (gs_init demo_world) with
  | Done _ s => match run_call 1 (C_socket AK_AF_INET AK_SOCK_DGRAM 0) s with
                | Done _ s' => s' | Blocked s' => s' end
  | Blocked s => s
  end.

Lemma handles_accounted_witness :
  acct (ak_fds demo_state) (sc_live (world demo_state)) /\ sc_live (world demo_state) = {[1; 2]}
  /\ match run_call 1 (C_close 3) demo_state with
     | Done _ s' => acct (ak_fds s') (sc_live (world s'))
     | Blocked _ => False end.
Proof.
  assert (reachable demo_world demo_state) as Hr.
  { eapply rtc_l; [eapply (step_return _ _ 1 (C_socket AK_AF_INET AK_SOCK_STREAM 0)); [done|]|].
    { vm_compute. reflexivity. }
    eapply rtc_once, (step_return _ _ 1 (C_socket AK_AF_INET AK_SOCK_DGRAM 0)); [done|].
    vm_compute. reflexivity. }
  pose proof (handles_accounted sc_live script_live_malloc (fun n m w => eq_refl) demo_world demo_state 1 (C_close 3) eq_refl Hr I) as [[_ Ha] Hc].
  split; [exact Ha|]. split; [vm_compute; reflexivity|].
  destruct (run_call 1 (C_close 3) demo_state) eqn:E; [apply Hc|].
  exfalso. vm_compute in E. discriminate.
Defined.
