(* ===== verification/Lwip.v ===== *)
(** * The interface between the netserv glue and lwIP

    lwIP is a git submodule whose sources are not part of the repository, and
    netserv's engine is Ada; both are behind the two classes of this file.
    [glue W] is the static state of [aknet_glue.c] over a world [W] that
    holds everything else.

    A call that cannot come back into the glue is a function on the world.  A
    call during which lwIP may call the glue's own functions (the netif
    output hooks, the receive callbacks) is a function on the whole [glue W]:
    its effect on the glue's static state is part of its result. *)
From S2P Require Import Prelude CInt.

(** ** The state of aknet_glue.c *)

(** The fields of [aknet_netif] that the glue writes. *)
Record netif_t := Netif {
  nif_name : Z * Z;
  nif_hooks : bool;          (* output and linkoutput installed *)
  nif_mtu : Z;
  nif_hwaddr_len : Z;
  nif_flags : Z;
  nif_hwaddr : list Z
}.

Definition AKNET_HQ_SIZE : Z := 16.
Definition AKNET_BUF_SIZE : Z := 2048.

(** A pbuf or a pcb is named by its address; 0 is null. *)
Record glue (W : Type) := Glue {
  aknet_netif : netif_t;
  aknet_txbuf : list Z;
  aknet_rxbuf : list Z;
  aknet_hq : list Z;
  aknet_hq_head : Z;
  aknet_hq_tail : Z;
  aknet_hq_draining : bool;
  aknet_listen_pcbs : list (Z * Z);
  lworld : W
}.
Arguments Glue {W} _ _ _ _ _ _ _ _ _.
Arguments aknet_netif {W} _.
Arguments aknet_txbuf {W} _.
Arguments aknet_rxbuf {W} _.
Arguments aknet_hq {W} _.
Arguments aknet_hq_head {W} _.
Arguments aknet_hq_tail {W} _.
Arguments aknet_hq_draining {W} _.
Arguments aknet_listen_pcbs {W} _.
Arguments lworld {W} _.

Definition glue_init {W} (w : W) : glue W :=
  Glue (Netif (0, 0) false 0 0 0 (replicate 6 0)) (replicate 2048 0) (replicate 2048 0)
    (replicate 16 0) 0 0 false [] w.

Section Setters.
Context {W : Type}.
Implicit Types s : glue W.

Definition set_netif n s : glue W :=
  Glue n (aknet_txbuf s) (aknet_rxbuf s) (aknet_hq s) (aknet_hq_head s) (aknet_hq_tail s)
    (aknet_hq_draining s) (aknet_listen_pcbs s) (lworld s).
Definition set_txbuf b s : glue W :=
  Glue (aknet_netif s) b (aknet_rxbuf s) (aknet_hq s) (aknet_hq_head s) (aknet_hq_tail s)
    (aknet_hq_draining s) (aknet_listen_pcbs s) (lworld s).
Definition set_rxbuf b s : glue W :=
  Glue (aknet_netif s) (aknet_txbuf s) b (aknet_hq s) (aknet_hq_head s) (aknet_hq_tail s)
    (aknet_hq_draining s) (aknet_listen_pcbs s) (lworld s).
Definition set_hq q s : glue W :=
  Glue (aknet_netif s) (aknet_txbuf s) (aknet_rxbuf s) q (aknet_hq_head s) (aknet_hq_tail s)
    (aknet_hq_draining s) (aknet_listen_pcbs s) (lworld s).
Definition set_hq_head h s : glue W :=
  Glue (aknet_netif s) (aknet_txbuf s) (aknet_rxbuf s) (aknet_hq s) h (aknet_hq_tail s)
    (aknet_hq_draining s) (aknet_listen_pcbs s) (lworld s).
Definition set_hq_tail t s : glue W :=
  Glue (aknet_netif s) (aknet_txbuf s) (aknet_rxbuf s) (aknet_hq s) (aknet_hq_head s) t
    (aknet_hq_draining s) (aknet_listen_pcbs s) (lworld s).
Definition set_draining d s : glue W :=
  Glue (aknet_netif s) (aknet_txbuf s) (aknet_rxbuf s) (aknet_hq s) (aknet_hq_head s)
    (aknet_hq_tail s) d (aknet_listen_pcbs s) (lworld s).
Definition set_listen l s : glue W :=
  Glue (aknet_netif s) (aknet_txbuf s) (aknet_rxbuf s) (aknet_hq s) (aknet_hq_head s)
    (aknet_hq_tail s) (aknet_hq_draining s) l (lworld s).
Definition set_lworld w s : glue W :=
  Glue (aknet_netif s) (aknet_txbuf s) (aknet_rxbuf s) (aknet_hq s) (aknet_hq_head s)
    (aknet_hq_tail s) (aknet_hq_draining s) (aknet_listen_pcbs s) w.
End Setters.

(** ** Constants and macros of lwIP *)

Class LwipConst := {
  ERR_OK : Z; ERR_MEM : Z; ERR_IF : Z; ERR_ABRT : Z; ERR_INPROGRESS : Z;
  PP_HTONL : Z -> Z;
  PP_NTOHL : Z -> Z;
  PBUF_RAW : Z; PBUF_TRANSPORT : Z; PBUF_IP : Z;
  PBUF_RAM : Z; PBUF_POOL : Z;
  NETIF_FLAG_BROADCAST : Z; NETIF_FLAG_ETHARP : Z; NETIF_FLAG_ETHERNET : Z; NETIF_FLAG_LINK_UP : Z;
  sizeof_ip_hdr : Z;
  ARP_TABLE_SIZE : Z;
  IP_ADDR_ANY : Z;
  IP_PROTO_ICMP : Z;
  TCP_WRITE_FLAG_COPY : Z;
  LISTEN : Z
}.

(** The error codes are distinct from success, and the byte-order macros undo
    each other on 32-bit values. *)
Class LwipConstLaws `{LwipConst} : Prop := {
  err_mem_ok : ERR_MEM <> ERR_OK;
  err_if_ok : ERR_IF <> ERR_OK;
  err_abrt_ok : ERR_ABRT <> ERR_OK;
  err_inprogress_ok : ERR_INPROGRESS <> ERR_OK;
  ntohl_htonl x : in_u32 x -> PP_NTOHL (PP_HTONL x) = x
}.

(** ** Calls *)

Class Lwip (W : Type) := {
  (* pbufs *)
  pbuf_alloc : Z -> Z -> Z -> W -> Z * W;
  pbuf_free : Z -> W -> W;
  pbuf_copy : Z -> Z -> W -> W;
  pbuf_take : Z -> list Z -> Z -> W -> W;
  pbuf_tot_len : Z -> W -> Z;
  pbuf_copy_partial : Z -> Z -> Z -> W -> list Z;
  IPH_HL_BYTES : Z -> W -> Z;
  (* netif *)
  netif_ip4_addr : W -> Z;
  netif_ip4_gw : W -> Z;
  netif_add : Z -> Z -> Z -> (glue W -> Z * glue W) -> glue W -> glue W;
  netif_set_default : W -> W;
  netif_set_up : glue W -> glue W;
  netif_set_link_up : glue W -> glue W;
  netif_set_addr : Z -> Z -> glue W -> glue W;
  etharp_output : Z -> Z -> glue W -> Z * glue W;
  ip4_input : Z -> glue W -> Z * glue W;
  netif_input : Z -> glue W -> Z * glue W;
  etharp_get_entry : Z -> W -> option (Z * list Z);
  (* UDP, raw, timers *)
  udp_new : W -> Z * W;
  udp_recv : Z -> Z -> W -> W;
  udp_bind : Z -> Z -> Z -> W -> Z * W;
  udp_connect : Z -> Z -> Z -> W -> Z * W;
  udp_sendto : Z -> Z -> Z -> Z -> glue W -> Z * glue W;
  udp_remove : Z -> W -> W;
  udp_pcbs : W -> list Z;
  udp_local_port : Z -> W -> Z;
  udp_recv_is_glue : Z -> W -> bool;
  raw_new : Z -> W -> Z * W;
  raw_recv : Z -> W -> W;
  raw_sendto : Z -> Z -> Z -> glue W -> Z * glue W;
  sys_check_timeouts : glue W -> glue W;
  (* DNS, DHCP *)
  dns_setserver : Z -> Z -> W -> W;
  dns_gethostbyname : list Z -> Z -> glue W -> (Z * Z) * glue W;
  dhcp_start : glue W -> Z * glue W;
  dhcp_release_and_stop : glue W -> glue W;
  dhcp_supplied_address : W -> Z;
  dhcp_renew : glue W -> Z * glue W;
  netif_dhcp_state : W -> option Z;
  (* TCP; a callback is set to the glue's function or to null *)
  tcp_new : W -> Z * W;
  tcp_arg : Z -> Z -> W -> W;
  tcp_recv : Z -> bool -> W -> W;
  tcp_sent : Z -> bool -> W -> W;
  tcp_err : Z -> bool -> W -> W;
  tcp_accept : Z -> W -> W;
  tcp_bind : Z -> Z -> Z -> W -> Z * W;
  tcp_listen : Z -> W -> Z * W;
  tcp_accepted : Z -> W -> W;
  tcp_connect : Z -> Z -> Z -> glue W -> Z * glue W;
  tcp_write : Z -> list Z -> Z -> Z -> W -> Z * W;
  tcp_output : Z -> glue W -> Z * glue W;
  tcp_recved : Z -> Z -> glue W -> glue W;
  tcp_refused_data : Z -> W -> Z;
  tcp_process_refused_data : Z -> glue W -> Z * glue W;
  tcp_close : Z -> glue W -> Z * glue W;
  tcp_abort : Z -> glue W -> glue W;
  tcp_state : Z -> W -> Z;
  tcp_remote_ip : Z -> W -> Z;
  tcp_remote_port : Z -> W -> Z;
  tcp_local_port : Z -> W -> Z;
  (* libc *)
  lmalloc_ok : Z -> W -> bool * W
}.

(** What netserv's engine exports to the glue. *)
Class Netserv (W : Type) := {
  aknet_frame_tx : list Z -> Z -> W -> Z * W;
  aknet_on_udp_rx : Z -> Z -> Z -> list Z -> Z -> W -> W;
  aknet_on_icmp_rx : Z -> list Z -> Z -> W -> Z * W;
  aknet_on_dns_reply : Z -> Z -> W -> W;
  aknet_on_tcp_accept : Z -> Z -> W -> Z * W;
  aknet_on_tcp_connected : Z -> Z -> W -> W;
  aknet_on_tcp_rx : Z -> Z -> W -> Z * W;
  aknet_on_tcp_eof : Z -> W -> W;
  aknet_on_tcp_sent : Z -> Z -> W -> W;
  aknet_on_tcp_err : Z -> Z -> W -> W
}.
