(* ===== verification/NetGlue.v ===== *)
(** * The netserv glue: aknet_glue.c

    Every function of the file: the netif hooks with the hairpin queue, the
    UDP, raw, ARP, DNS, DHCP and TCP adapters and the listen table. *)
From S2P Require Import Prelude CInt Lwip.

(** [memcpy]-like store of [data] at the start of [buf]. *)
Definition blit (buf data : list Z) : list Z := data ++ drop (length data) buf.

Section Glue.
Context `{!LwipConst} {W : Type} `{!Lwip W, !Netserv W}.

Definition lmod (f : W -> W) : M (glue W) unit := modifyM (fun s => set_lworld (f (lworld s)) s).
Definition lcall {A} (f : W -> A * W) : M (glue W) A :=
  fun s => let '(a, w) := f (lworld s) in Done a (set_lworld w s).
Definition lget {A} (f : W -> A) : M (glue W) A := getsM (fun s => f (lworld s)).

(** ** netif driver *)

Definition aknet_linkoutput (p : Z) : M (glue W) Z :=
  let* n := lget (pbuf_tot_len p) in
  if AKNET_BUF_SIZE <? n then retM ERR_MEM
  else
    let* d := lget (pbuf_copy_partial p n 0) in
    modifyM (fun s => set_txbuf (blit (aknet_txbuf s) d) s) ;;
    let* b := getsM aknet_txbuf in
    let* r := lcall (aknet_frame_tx b n) in
    retM (if negb (r =? 0) then ERR_IF else ERR_OK).

(** [aknet_hq_tail - aknet_hq_head] in [u32_t]. *)
Definition hq_level (s : glue W) : Z := u32 (aknet_hq_tail s - aknet_hq_head s).

Definition aknet_output (p ipaddr : Z) : M (glue W) Z :=
  let* own := lget netif_ip4_addr in
  if ipaddr =? own then
    let* lvl := getsM hq_level in
    if AKNET_HQ_SIZE <=? lvl then retM ERR_MEM
    else
      let* n := lget (pbuf_tot_len p) in
      let* q := lcall (pbuf_alloc PBUF_RAW n PBUF_RAM) in
      if q =? 0 then retM ERR_MEM
      else
        lmod (pbuf_copy q p) ;;
        modifyM (fun s => set_hq (<[Z.to_nat (aknet_hq_tail s mod AKNET_HQ_SIZE) := q]> (aknet_hq s)) s) ;;
        modifyM (fun s => set_hq_tail (u32 (aknet_hq_tail s + 1)) s) ;;
        retM ERR_OK
  else liftM (etharp_output p ipaddr).

(** One round of the drain loop: [inl] while the queue was not empty. *)
Definition hairpin_round (_ : unit) : M (glue W) (unit + unit) :=
  let* empty := getsM (fun s => aknet_hq_head s =? aknet_hq_tail s) in
  if empty then retM (inr tt)
  else
    let* p := getsM (fun s => default 0 (aknet_hq s !! Z.to_nat (aknet_hq_head s mod AKNET_HQ_SIZE))) in
    modifyM (fun s => set_hq_head (u32 (aknet_hq_head s + 1)) s) ;;
    let* e := liftM (ip4_input p) in
    (if negb (e =? ERR_OK) then lmod (pbuf_free p) else retM tt) ;;
    retM (inl tt).

Definition aknet_hairpin_drain (fuel : nat) : M (glue W) unit :=
  let* busy := getsM aknet_hq_draining in
  if busy then retM tt
  else
    modifyM (set_draining true) ;;
    iterM fuel hairpin_round tt ;;
    modifyM (set_draining false).

(** The init hook [netif_add] calls. *)
Definition aknet_netif_init (s : glue W) : Z * glue W :=
  (ERR_OK,
   set_netif (Netif (97, 107) true 1500 6
     (Z.lor (Z.lor (Z.lor NETIF_FLAG_BROADCAST NETIF_FLAG_ETHARP) NETIF_FLAG_ETHERNET)
        NETIF_FLAG_LINK_UP)
     (nif_hwaddr (aknet_netif s))) s).

Definition with_nif_hwaddr (m : list Z) (n : netif_t) : netif_t :=
  Netif (nif_name n) (nif_hooks n) (nif_mtu n) (nif_hwaddr_len n) (nif_flags n) m.
Definition with_nif_mtu (m : Z) (n : netif_t) : netif_t :=
  Netif (nif_name n) (nif_hooks n) m (nif_hwaddr_len n) (nif_flags n) (nif_hwaddr n).

Definition aknet_setup (mac : list Z) (ip gw mtu : Z) : M (glue W) unit :=
  modifyM (fun s => set_netif (with_nif_hwaddr (take 6 mac) (aknet_netif s)) s) ;;
  modifyM (netif_add (PP_HTONL ip) 0 (PP_HTONL gw) aknet_netif_init) ;;
  (if negb (mtu =? 0)
   then modifyM (fun s => set_netif (with_nif_mtu (u16 mtu) (aknet_netif s)) s)
   else retM tt) ;;
  lmod netif_set_default ;;
  modifyM netif_set_up ;;
  modifyM netif_set_link_up.

Definition aknet_set_addr (ip gw : Z) : M (glue W) unit :=
  modifyM (netif_set_addr (PP_HTONL ip) (PP_HTONL gw)).

Definition aknet_rx (frame : list Z) (len : Z) : M (glue W) Z :=
  let* p := lcall (pbuf_alloc PBUF_RAW (u16 len) PBUF_POOL) in
  if p =? 0 then retM ERR_MEM
  else
    lmod (pbuf_take p frame (u16 len)) ;;
    let* e := liftM (netif_input p) in
    if negb (e =? ERR_OK) then lmod (pbuf_free p) ;; retM ERR_IF
    else retM ERR_OK.

(** ** UDP *)

Definition aknet_udp_rx_cb (id p addr port : Z) : M (glue W) unit :=
  if p =? 0 then retM tt
  else
    let* tot := lget (pbuf_tot_len p) in
    let n := if tot <? AKNET_BUF_SIZE then tot else AKNET_BUF_SIZE in
    let* d := lget (pbuf_copy_partial p n 0) in
    modifyM (fun s => set_rxbuf (blit (aknet_rxbuf s) d) s) ;;
    let* b := getsM aknet_rxbuf in
    lmod (aknet_on_udp_rx (u32 id) (PP_NTOHL addr) port b n) ;;
    lmod (pbuf_free p).

Definition aknet_udp_new (id : Z) : M (glue W) Z :=
  let* pcb := lcall udp_new in
  (if negb (pcb =? 0) then lmod (udp_recv pcb id) else retM tt) ;;
  retM pcb.

Definition aknet_udp_bind (pcb port : Z) : M (glue W) Z :=
  lcall (udp_bind pcb IP_ADDR_ANY (u16 port)).

Definition aknet_udp_connect (pcb ip port : Z) : M (glue W) Z :=
  lcall (udp_connect pcb (PP_HTONL ip) (u16 port)).

Definition aknet_udp_send (pcb ip port : Z) (data : list Z) (len : Z) : M (glue W) Z :=
  let* p := lcall (pbuf_alloc PBUF_TRANSPORT (u16 len) PBUF_RAM) in
  if p =? 0 then retM ERR_MEM
  else
    lmod (pbuf_take p data (u16 len)) ;;
    let* e := liftM (udp_sendto pcb p (PP_HTONL ip) (u16 port)) in
    lmod (pbuf_free p) ;;
    retM e.

Definition aknet_udp_del (pcb : Z) : M (glue W) unit := lmod (udp_remove pcb).

(** The walk along [pcb->next]. *)
Fixpoint udp_port_scan (l : list Z) (port : Z) (w : W) : Z :=
  match l with
  | [] => 0
  | pcb :: l' =>
      if (udp_local_port pcb w =? u16 port) && negb (udp_recv_is_glue pcb w) then 1
      else udp_port_scan l' port w
  end.

Definition aknet_udp_port_open (port : Z) : M (glue W) Z :=
  lget (fun w => udp_port_scan (udp_pcbs w) port w).

(** ** Raw ICMP *)

Definition aknet_raw_rx_cb (p addr : Z) : M (glue W) Z :=
  let* tot := lget (pbuf_tot_len p) in
  if tot <? sizeof_ip_hdr then retM 0
  else
    let* hlen := lget (IPH_HL_BYTES p) in
    if tot <? hlen then retM 0
    else
      let plen := tot - hlen in
      let n := if plen <? AKNET_BUF_SIZE then plen else AKNET_BUF_SIZE in
      let* d := lget (pbuf_copy_partial p (u16 n) hlen) in
      modifyM (fun s => set_rxbuf (blit (aknet_rxbuf s) d) s) ;;
      let* b := getsM aknet_rxbuf in
      let* r := lcall (aknet_on_icmp_rx (PP_NTOHL addr) b n) in
      if negb (r =? 0) then lmod (pbuf_free p) ;; retM 1 else retM 0.

Definition aknet_raw_icmp_new : M (glue W) Z :=
  let* pcb := lcall (raw_new IP_PROTO_ICMP) in
  (if negb (pcb =? 0) then lmod (raw_recv pcb) else retM tt) ;;
  retM pcb.

Definition aknet_raw_send (pcb ip : Z) (data : list Z) (len : Z) : M (glue W) Z :=
  let* p := lcall (pbuf_alloc PBUF_IP (u16 len) PBUF_RAM) in
  if p =? 0 then retM ERR_MEM
  else
    lmod (pbuf_take p data (u16 len)) ;;
    let* e := liftM (raw_sendto pcb p (PP_HTONL ip)) in
    lmod (pbuf_free p) ;;
    retM e.

(** ** ARP *)

(** The loop from entry [i] with [n] entries left. *)
Fixpoint arp_scan (n : nat) (i ip : Z) (w : W) : Z :=
  match n with
  | O => 0
  | S n' =>
      match etharp_get_entry i w with
      | Some (eip, _) => if PP_NTOHL eip =? ip then 1 else arp_scan n' (i + 1) ip w
      | None => arp_scan n' (i + 1) ip w
      end
  end.

Definition aknet_arp_resolved (ip : Z) : M (glue W) Z :=
  lget (arp_scan (Z.to_nat ARP_TABLE_SIZE) 0 ip).

(** The return value with [*ip] and [*mac]. *)
Definition aknet_arp_get (i : Z) : M (glue W) (Z * option (Z * list Z)) :=
  let* e := lget (etharp_get_entry i) in
  match e with
  | None => retM (0, None)
  | Some (eip, emac) => retM (1, Some (PP_NTOHL eip, take 6 emac))
  end.

(** ** DNS and DHCP *)

(** [ipaddr]: [None] for a null pointer. *)
Definition aknet_dns_found_cb (ipaddr : option Z) (slot : Z) : M (glue W) unit :=
  let ip := match ipaddr with Some a => PP_NTOHL a | None => 0 end in
  lmod (aknet_on_dns_reply (u32 slot) ip).

Definition aknet_dns_setserver (ip : Z) : M (glue W) unit := lmod (dns_setserver 0 (PP_HTONL ip)).

Definition aknet_dns_resolve (name : list Z) (slot : Z) : M (glue W) (Z * option Z) :=
  let* '(e, addr) := liftM (dns_gethostbyname name slot) in
  if e =? ERR_OK then retM (1, Some (PP_NTOHL addr))
  else if e =? ERR_INPROGRESS then retM (0, None)
  else retM (-1, None).

Definition aknet_dhcp_start : M (glue W) Z :=
  let* e := liftM dhcp_start in retM (if e =? ERR_OK then 0 else -1).

Definition aknet_dhcp_stop : M (glue W) unit := modifyM dhcp_release_and_stop.

Definition aknet_dhcp_renew : M (glue W) Z :=
  let* b := lget dhcp_supplied_address in
  if b =? 0 then retM (-1)
  else let* e := liftM dhcp_renew in retM (if e =? ERR_OK then 0 else -1).

Definition aknet_dhcp_bound : M (glue W) Z := lget dhcp_supplied_address.

Definition aknet_dhcp_state : M (glue W) Z :=
  lget (fun w => match netif_dhcp_state w with Some st => st | None => 0 end).

Definition aknet_get_addr : M (glue W) (Z * Z) :=
  lget (fun w => (PP_NTOHL (netif_ip4_addr w), PP_NTOHL (netif_ip4_gw w))).

Definition aknet_timeouts : M (glue W) unit := modifyM sys_check_timeouts.

(** ** The listen table *)

Fixpoint listen_lookup (l : list (Z * Z)) (id : Z) : Z :=
  match l with
  | [] => 0
  | (i, pcb) :: l' => if i =? id then pcb else listen_lookup l' id
  end.

Definition aknet_listen_find (id : Z) : M (glue W) Z :=
  getsM (fun s => listen_lookup (aknet_listen_pcbs s) id).

(** [sizeof (struct listen_ent)] *)
Definition sizeof_listen_ent : Z := 24.

Definition aknet_listen_add (id pcb : Z) : M (glue W) unit :=
  let* ok := lcall (lmalloc_ok sizeof_listen_ent) in
  if negb ok then retM tt
  else modifyM (fun s => set_listen ((id, pcb) :: aknet_listen_pcbs s) s).

(** Unlink the first entry of [id]. *)
Fixpoint listen_remove (l : list (Z * Z)) (id : Z) : list (Z * Z) :=
  match l with
  | [] => []
  | (i, pcb) :: l' => if i =? id then l' else (i, pcb) :: listen_remove l' id
  end.

Definition aknet_listen_del (id : Z) : M (glue W) unit :=
  modifyM (fun s => set_listen (listen_remove (aknet_listen_pcbs s) id) s).

(** ** TCP *)

Definition aknet_tcp_set_cbs (pcb : Z) : M (glue W) unit :=
  lmod (tcp_recv pcb true) ;; lmod (tcp_sent pcb true) ;; lmod (tcp_err pcb true).

Definition aknet_tcp_accept_cb (arg newpcb err : Z) : M (glue W) Z :=
  let id := u32 arg in
  let* r := lcall (aknet_on_tcp_accept id newpcb) in
  if negb (r =? 0) then retM ERR_ABRT
  else
    let* lp := aknet_listen_find id in
    (if negb (lp =? 0) then lmod (tcp_accepted lp) else retM tt) ;;
    retM ERR_OK.

Definition aknet_tcp_connected_cb (arg err : Z) : M (glue W) Z :=
  lmod (aknet_on_tcp_connected (u32 arg) err) ;; retM ERR_OK.

Definition aknet_tcp_rx_cb (arg tpcb p err : Z) : M (glue W) Z :=
  if p =? 0 then lmod (aknet_on_tcp_eof (u32 arg)) ;; retM ERR_OK
  else
    let* r := lcall (aknet_on_tcp_rx (u32 arg) p) in
    if r =? 0 then retM ERR_MEM
    else
      let* n := lget (pbuf_tot_len p) in
      modifyM (tcp_recved tpcb n) ;;
      lmod (pbuf_free p) ;;
      retM ERR_OK.

Definition aknet_tcp_sent_cb (arg len : Z) : M (glue W) Z :=
  lmod (aknet_on_tcp_sent (u32 arg) len) ;; retM ERR_OK.

Definition aknet_tcp_err_cb (arg err : Z) : M (glue W) unit :=
  lmod (aknet_on_tcp_err (u32 arg) err).

Definition aknet_tcp_new (id : Z) : M (glue W) Z :=
  let* pcb := lcall tcp_new in
  (if negb (pcb =? 0) then lmod (tcp_arg pcb id) else retM tt) ;;
  retM pcb.

Definition aknet_tcp_bind (pcb port : Z) : M (glue W) Z :=
  lcall (tcp_bind pcb IP_ADDR_ANY (u16 port)).

(** The return value with [*ppcb] after the call. *)
Definition aknet_tcp_listen (ppcb id : Z) : M (glue W) (Z * Z) :=
  lmod (tcp_arg ppcb id) ;;
  let* l := lcall (tcp_listen ppcb) in
  if l =? 0 then retM (ERR_MEM, ppcb)
  else
    aknet_listen_add id l ;;
    lmod (tcp_accept l) ;;
    retM (0, l).

Definition aknet_tcp_attach (pcb id : Z) : M (glue W) unit :=
  lmod (tcp_arg pcb id) ;; aknet_tcp_set_cbs pcb.

Definition aknet_tcp_connect (pcb ip port : Z) : M (glue W) Z :=
  aknet_tcp_set_cbs pcb ;;
  liftM (tcp_connect pcb (PP_HTONL ip) (u16 port)).

Definition aknet_tcp_write (pcb : Z) (data : list Z) (len : Z) : M (glue W) Z :=
  lcall (tcp_write pcb data (u16 len) TCP_WRITE_FLAG_COPY).

Definition aknet_tcp_output (pcb : Z) : M (glue W) Z := liftM (tcp_output pcb).

Definition aknet_tcp_kick (pcb : Z) : M (glue W) Z :=
  let* r := lget (tcp_refused_data pcb) in
  if r =? 0 then retM 0 else liftM (tcp_process_refused_data pcb).

(** The part of [aknet_tcp_close] before the call of [tcp_close]. *)
Definition tcp_close_prepare (pcb id : Z) : M (glue W) unit :=
  aknet_listen_del id ;;
  lmod (tcp_arg pcb 0) ;;
  let* st := lget (tcp_state pcb) in
  if negb (st =? LISTEN)
  then lmod (tcp_recv pcb false) ;; lmod (tcp_sent pcb false) ;; lmod (tcp_err pcb false)
  else retM tt.

Definition aknet_tcp_close (pcb id : Z) : M (glue W) Z :=
  tcp_close_prepare pcb id ;;
  let* e := liftM (tcp_close pcb) in
  (if negb (e =? ERR_OK) then modifyM (tcp_abort pcb) else retM tt) ;;
  retM 0.

Definition aknet_tcp_state (pcb : Z) : M (glue W) Z := lget (tcp_state pcb).

(** The return value with [*ip] and [*port]. *)
Definition aknet_tcp_peer (pcb : Z) : M (glue W) (Z * option (Z * Z)) :=
  if pcb =? 0 then retM (-1, None)
  else lget (fun w => (0, Some (PP_NTOHL (tcp_remote_ip pcb w), tcp_remote_port pcb w))).

Definition aknet_tcp_local_port (pcb : Z) : M (glue W) Z := lget (tcp_local_port pcb).
Definition aknet_tcp_remote_port (pcb : Z) : M (glue W) Z := lget (tcp_remote_port pcb).
Definition aknet_tcp_remote_ip (pcb : Z) : M (glue W) Z :=
  lget (fun w => PP_NTOHL (tcp_remote_ip pcb w)).

Definition aknet_pbuf_totlen (p : Z) : M (glue W) Z := lget (pbuf_tot_len p).
Definition aknet_pbuf_copy (p off len : Z) : M (glue W) (list Z) :=
  lget (pbuf_copy_partial p (u16 len) (u16 off)).

End Glue.
