(* ===== verification/Hairpin.v ===== *)
(** * The hairpin queue of aknet_glue.c

    The ring [aknet_hq] with its free-running 32-bit indices implements a
    FIFO of at most 16 packets ([pending]); [aknet_hairpin_drain] hands the
    packets to lwIP in that order while lwIP keeps queueing new ones; and no
    function of the file leaks a pbuf or frees one twice. *)
From stdpp Require Import relations.
From S2P Require Import Prelude CInt Bridge FdTable Lwip NetGlue.

(** ** The ring as a list *)

Section Ring.
Context {W : Type}.
Implicit Types s : glue W.

Definition hq_slot (s : glue W) (k : Z) : Z :=
  default 0 (aknet_hq s !! Z.to_nat (k mod AKNET_HQ_SIZE)).

(** The queued packets, oldest first. *)
Definition pending (s : glue W) : list Z :=
  (fun i : nat => hq_slot s (aknet_hq_head s + Z.of_nat i)) <$> seq 0 (Z.to_nat (hq_level s)).

Record hq_wf (s : glue W) : Prop := {
  hqw_len : length (aknet_hq s) = Z.to_nat AKNET_HQ_SIZE;
  hqw_head : in_u32 (aknet_hq_head s);
  hqw_tail : in_u32 (aknet_hq_tail s);
  hqw_level : hq_level s <= AKNET_HQ_SIZE
}.

Lemma hq_wf_same s s' :
  hq_wf s -> aknet_hq s' = aknet_hq s -> aknet_hq_head s' = aknet_hq_head s ->
  aknet_hq_tail s' = aknet_hq_tail s -> hq_wf s'.
Proof. intros [H1 H2 H3 H4] E1 E2 E3. unfold hq_level in *. split; unfold hq_level; congruence. Qed.

Lemma length_pending s : Z.of_nat (length (pending s)) = hq_level s.
Proof.
  unfold pending. rewrite length_fmap, length_seq.
  pose proof (u32_range (aknet_hq_tail s - aknet_hq_head s)). unfold hq_level, in_u32 in *. lia.
Qed.

Lemma hq_empty s : hq_wf s -> (aknet_hq_head s = aknet_hq_tail s <-> pending s = []).
Proof.
  intros [_ Hh Ht _]. rewrite <- length_zero_iff_nil.
  pose proof (length_pending s) as Hl. unfold hq_level in Hl. split; intros H; [rewrite H in Hl|rewrite H in Hl]; int_lia.
Qed.

(** The slots are addressed modulo 16, which the 32-bit wrap respects. *)
Lemma hq_slot_wrap s k : hq_slot s (u32 k) = hq_slot s k.
Proof.
  unfold hq_slot, AKNET_HQ_SIZE. by replace (u32 k mod 16) with (k mod 16) by int_lia.
Qed.

(** The state after storing [q] at the tail. *)
Definition hq_put (q : Z) (s : glue W) : glue W :=
  set_hq_tail (u32 (aknet_hq_tail s + 1))
    (set_hq (<[Z.to_nat (aknet_hq_tail s mod AKNET_HQ_SIZE) := q]> (aknet_hq s)) s).

Definition hq_pop (s : glue W) : glue W := set_hq_head (u32 (aknet_hq_head s + 1)) s.

Lemma hq_put_level s q : hq_wf s -> hq_level s < AKNET_HQ_SIZE -> hq_level (hq_put q s) = hq_level s + 1.
Proof. intros [_ Hh Ht _]. unfold hq_level, hq_put, AKNET_HQ_SIZE. cbn. int_lia. Qed.

Lemma hq_pop_level s : hq_wf s -> pending s <> [] -> hq_level (hq_pop s) = hq_level s - 1.
Proof.
  intros Hwf Hne. pose proof Hwf as [_ Hh Ht _]. rewrite <- hq_empty in Hne by done.
  unfold hq_level, hq_pop. cbn. int_lia.
Qed.

Lemma hq_put_pending s q :
  hq_wf s -> hq_level s < AKNET_HQ_SIZE ->
  hq_wf (hq_put q s) /\ pending (hq_put q s) = pending s ++ [q].
Proof.
  intros Hwf Hl. pose proof Hwf as [Hlen Hh Ht Hle]. pose proof (hq_put_level s q Hwf Hl) as Hlv.
  split.
  { split; [cbn; by rewrite length_insert|done|apply u32_range|rewrite Hlv; lia]. }
  unfold pending at 1. rewrite Hlv.
  assert (0 <= hq_level s) as H0 by (unfold hq_level; int_lia).
  replace (Z.to_nat (hq_level s + 1)) with (S (Z.to_nat (hq_level s))) by lia.
  rewrite seq_S, fmap_app. f_equal.
  - apply list_fmap_ext. intros k i Hi. apply lookup_seq in Hi as [-> Hi]. cbn [hq_put].
    unfold hq_slot, hq_put. cbn. rewrite list_lookup_insert_ne; [done|].
    unfold hq_level, AKNET_HQ_SIZE in *. int_lia.
  - cbn. f_equal. unfold hq_slot, hq_put. cbn.
    replace ((aknet_hq_head s + Z.of_nat (Z.to_nat (hq_level s))) mod AKNET_HQ_SIZE)
      with (aknet_hq_tail s mod AKNET_HQ_SIZE) by (unfold hq_level, AKNET_HQ_SIZE in *; int_lia).
    rewrite list_lookup_insert_eq; [done|]. rewrite Hlen. unfold AKNET_HQ_SIZE. zlia.
Qed.

Lemma hq_pop_pending s :
  hq_wf s -> pending s <> [] ->
  hq_wf (hq_pop s) /\ pending s = hq_slot s (aknet_hq_head s) :: pending (hq_pop s).
Proof.
  intros Hwf Hne. pose proof Hwf as [Hlen Hh Ht Hle]. pose proof (hq_pop_level s Hwf Hne) as Hlv.
  assert (0 < hq_level s) as Hpos.
  { rewrite <- length_pending. destruct (pending s); [done|]. cbn [length]. lia. }
  split; [split; [done|apply u32_range|done|rewrite Hlv; lia]|].
  unfold pending. rewrite Hlv.
  replace (Z.to_nat (hq_level s)) with (S (Z.to_nat (hq_level s - 1))) by lia.
  cbn [seq fmap list_fmap]. rewrite Z.add_0_r. f_equal. rewrite <- fmap_S_seq, <- list_fmap_compose.
  apply list_fmap_ext. intros k i _. cbn. unfold hq_pop. cbn [aknet_hq_head set_hq_head].
  unfold hq_slot. cbn [aknet_hq set_hq_head].
  replace (_ mod AKNET_HQ_SIZE) with ((u32 (aknet_hq_head s + 1) + Z.of_nat i) mod AKNET_HQ_SIZE);
    [done|]. unfold AKNET_HQ_SIZE. int_lia.
Qed.

End Ring.

(** ** What lwIP may do while it runs

    Three views of the world: [inputs w], the packets handed to [ip4_input]
    so far; [owned w], the pbufs the glue has to free; [lent w], the pbufs
    lwIP has lent to the callbacks it is running.  While lwIP runs it changes
    its own state and calls the glue: sending may reach the two output hooks,
    receiving may reach the receive callbacks as well. *)
Section Runs.
Context {LC : LwipConst} {W : Type} `{!Lwip W, !Netserv W}.
Context (inputs : W -> list Z) (owned lent : W -> gset Z).

Definition same_books (w w' : W) : Prop :=
  owned w' = owned w /\ inputs w' = inputs w /\ lent w' = lent w.

Inductive link_step (s s' : glue W) : Prop :=
| link_world w : same_books (lworld s) w -> s' = set_lworld w s -> link_step s s'
| link_output p r : aknet_linkoutput p s = Done r s' -> link_step s s'.

Inductive send_step (s s' : glue W) : Prop :=
| send_link : link_step s s' -> send_step s s'
| send_output p ip r : aknet_output p ip s = Done r s' -> send_step s s'.

Inductive input_step (s s' : glue W) : Prop :=
| input_send : send_step s s' -> input_step s s'
| input_lend w :
    owned w = owned (lworld s) -> inputs w = inputs (lworld s) -> lent w ## owned w ->
    s' = set_lworld w s -> input_step s s'
| input_udp id p addr port r :
    p ∈ lent (lworld s) -> aknet_udp_rx_cb id p addr port s = Done r s' -> input_step s s'
| input_raw p addr r :
    p ∈ lent (lworld s) -> aknet_raw_rx_cb p addr s = Done r s' -> input_step s s'
| input_tcp_rx arg pcb p err r :
    p = 0 \/ p ∈ lent (lworld s) -> aknet_tcp_rx_cb arg pcb p err s = Done r s' -> input_step s s'
| input_tcp_accept arg pcb err r : aknet_tcp_accept_cb arg pcb err s = Done r s' -> input_step s s'
| input_tcp_connected arg err r : aknet_tcp_connected_cb arg err s = Done r s' -> input_step s s'
| input_tcp_sent arg len r : aknet_tcp_sent_cb arg len s = Done r s' -> input_step s s'
| input_tcp_err arg err r : aknet_tcp_err_cb arg err s = Done r s' -> input_step s s'
| input_dns ip slot r : aknet_dns_found_cb ip slot s = Done r s' -> input_step s s'.

End Runs.

(** The laws: documented ownership of pbufs ([pbuf_alloc] gives one
    reference to a pbuf nobody holds, [pbuf_free] drops it, and nothing is said
    of a world in which a pbuf was freed that is not held, an input function
    takes the packet over exactly when it returns [ERR_OK], a send leaves the
    caller's reference), and that lwIP touches the glue only through its
    hooks and callbacks. *)
Class GlueLaws (W : Type) `{LwipConst, Lwip W, Netserv W}
    (inputs : W -> list Z) (owned lent : W -> gset Z) : Prop := {
  gl_alloc l n t w p w' :
    pbuf_alloc l n t w = (p, w') -> inputs w' = inputs w /\ lent w' = lent w /\
    if p =? 0 then owned w' = owned w
    else p ∉ owned w /\ p ∉ lent w /\ owned w' = {[p]} ∪ owned w;
  gl_free p w :
    p ∈ owned w \/ p ∈ lent w ->
    owned (pbuf_free p w) = owned w ∖ {[p]} /\ inputs (pbuf_free p w) = inputs w /\ lent (pbuf_free p w) = lent w ∖ {[p]};
  gl_copy q p w : same_books inputs owned lent w (pbuf_copy q p w);
  gl_take p d n w : same_books inputs owned lent w (pbuf_take p d n w);
  gl_frame_tx b n w : same_books inputs owned lent w (aknet_frame_tx b n w).2;
  gl_udp_rx i a p b n w : same_books inputs owned lent w (aknet_on_udp_rx i a p b n w);
  gl_icmp_rx a b n w : same_books inputs owned lent w (aknet_on_icmp_rx a b n w).2;
  gl_dns_reply s a w : same_books inputs owned lent w (aknet_on_dns_reply s a w);
  gl_tcp_accept i p w : same_books inputs owned lent w (aknet_on_tcp_accept i p w).2;
  gl_tcp_connected i e w : same_books inputs owned lent w (aknet_on_tcp_connected i e w);
  gl_tcp_rx i p w : same_books inputs owned lent w (aknet_on_tcp_rx i p w).2;
  gl_tcp_eof i w : same_books inputs owned lent w (aknet_on_tcp_eof i w);
  gl_tcp_sent i n w : same_books inputs owned lent w (aknet_on_tcp_sent i n w);
  gl_tcp_err i e w : same_books inputs owned lent w (aknet_on_tcp_err i e w);
  gl_tcp_accepted p w : same_books inputs owned lent w (tcp_accepted p w);
  gl_etharp_output p ip s r s' :
    etharp_output p ip s = (r, s') -> rtc (link_step inputs owned lent) s s';
  gl_udp_sendto c p ip port s r s' :
    udp_sendto c p ip port s = (r, s') -> rtc (send_step inputs owned lent) s s';
  gl_raw_sendto c p ip s r s' :
    raw_sendto c p ip s = (r, s') -> rtc (send_step inputs owned lent) s s';
  gl_tcp_recved c n s : rtc (send_step inputs owned lent) s (tcp_recved c n s);
  gl_ip4_input p s e s' :
    ip4_input p s = (e, s') ->
    exists w, inputs w = inputs (lworld s) ++ [p]
      /\ owned w = (if e =? ERR_OK then owned (lworld s) ∖ {[p]} else owned (lworld s))
      /\ lent w = lent (lworld s)
      /\ rtc (input_step inputs owned lent) (set_lworld w s) s';
  gl_netif_input p s e s' :
    netif_input p s = (e, s') ->
    exists w, inputs w = inputs (lworld s)
      /\ owned w = (if e =? ERR_OK then owned (lworld s) ∖ {[p]} else owned (lworld s))
      /\ lent w = lent (lworld s)
      /\ rtc (input_step inputs owned lent) (set_lworld w s) s'
}.

Section Books.
Context {LC : LwipConst} {W : Type} `{!Lwip W, !Netserv W}.
Context (inputs : W -> list Z) (owned lent : W -> gset Z) `{!GlueLaws W inputs owned lent}.

(** The books balance: the pbufs to free are those in the queue, each once,
    and those of [X], held by a function that is running; none of them is
    lent by lwIP. *)
Record books (X : gset Z) (s : glue W) : Prop := {
  bk_wf : hq_wf s;
  bk_nodup : NoDup (pending s);
  bk_disj : forall p, p ∈ pending s -> p ∉ X;
  bk_owned : owned (lworld s) = X ∪ list_to_set (pending s);
  bk_lent : lent (lworld s) ## owned (lworld s)
}.

(** [s'] is a later state: books balanced, the queue longer at its end only. *)
Definition advances (X : gset Z) (s s' : glue W) : Prop :=
  books X s' /\ inputs (lworld s') = inputs (lworld s)
  /\ pending s `prefix_of` pending s' /\ aknet_hq_draining s' = aknet_hq_draining s.

(** A later state in which the same pbufs are lent. *)
Definition lent_adv (X : gset Z) (s s' : glue W) : Prop :=
  advances X s s' /\ lent (lworld s') = lent (lworld s).

Lemma advances_refl X s : books X s -> advances X s s.
Proof. intros Hs. by split_and!. Qed.

Lemma advances_trans X s1 s2 s3 : advances X s1 s2 -> advances X s2 s3 -> advances X s1 s3.
Proof.
  intros (_ & I1 & P1 & D1) (B2 & I2 & P2 & D2). split_and!; [done|congruence|by etrans|congruence].
Qed.

Lemma lent_adv_refl X s : books X s -> lent_adv X s s.
Proof. intros Hs. split; [by apply advances_refl|done]. Qed.

Lemma lent_adv_trans X s1 s2 s3 : lent_adv X s1 s2 -> lent_adv X s2 s3 -> lent_adv X s1 s3.
Proof. intros [A1 L1] [A2 L2]. split; [by eapply advances_trans|congruence]. Qed.

(** A change of the world that leaves what is owned. *)
Lemma advances_world X s w :
  books X s -> owned w = owned (lworld s) -> inputs w = inputs (lworld s) -> lent w ## owned w ->
  advances X s (set_lworld w s).
Proof.
  intros [H1 H2 H3 H4 H5] E1 E2 E3. split_and!; [|done..].
  split; [by apply (hq_wf_same s)|done|done| |done]. cbn. by rewrite E1.
Qed.

Lemma lent_adv_world X s w :
  books X s -> same_books inputs owned lent (lworld s) w -> lent_adv X s (set_lworld w s).
Proof.
  intros Hs (E1 & E2 & E3). split; [|done]. apply advances_world; [done..|].
  rewrite E1, E3. apply (bk_lent _ _ Hs).
Qed.

Lemma lent_adv_txbuf X s b : books X s -> lent_adv X s (set_txbuf b s).
Proof.
  intros [H1 H2 H3 H4 H5]. split; [|done]. split_and!; [|done..].
  split; [by apply (hq_wf_same s)|done..].
Qed.

Lemma lent_adv_rxbuf X s b : books X s -> lent_adv X s (set_rxbuf b s).
Proof.
  intros [H1 H2 H3 H4 H5]. split; [|done]. split_and!; [|done..].
  split; [by apply (hq_wf_same s)|done..].
Qed.

(** [adv X c]: the computation [c] only advances, and lends nothing. *)
Definition adv {A} (X : gset Z) (c : M (glue W) A) : Prop :=
  forall s, books X s -> wp c (fun _ s' => lent_adv X s s') s.

Lemma adv_ret {A} X (a : A) : adv X (retM a).
Proof. intros s Hs. by apply lent_adv_refl. Qed.

Lemma adv_gets {A} X (f : glue W -> A) : adv X (getsM f).
Proof. intros s Hs. by apply lent_adv_refl. Qed.

Lemma adv_bind {A B} X (c : M (glue W) A) (k : A -> M (glue W) B) :
  adv X c -> (forall a, adv X (k a)) -> adv X (bindM c k).
Proof.
  intros Hc Hk s Hs. apply wp_bind. eapply wp_mono; [|by apply Hc].
  intros a s1 H1. eapply wp_mono; [|apply Hk; apply H1].
  intros b s2 H2. cbn in *. eapply lent_adv_trans; [exact H1|exact H2].
Qed.

Lemma adv_lmod X f : (forall w, same_books inputs owned lent w (f w)) -> adv X (lmod f).
Proof. intros Hf s Hs. apply lent_adv_world; auto. Qed.

Lemma adv_lcall {A} X (f : W -> A * W) :
  (forall w, same_books inputs owned lent w (f w).2) -> adv X (lcall f).
Proof.
  intros Hf s Hs. unfold wp, lcall. specialize (Hf (lworld s)). destruct (f (lworld s)) as [a w].
  by apply lent_adv_world.
Qed.

Lemma adv_rxbuf X d : adv X (modifyM (fun s => set_rxbuf (blit (aknet_rxbuf s) d) s)).
Proof. intros s Hs. by apply lent_adv_rxbuf. Qed.

Lemma adv_done {A} X (c : M (glue W) A) s r s' : adv X c -> books X s -> c s = Done r s' -> lent_adv X s s'.
Proof. intros Hc Hs E. specialize (Hc s Hs). unfold wp in Hc. by rewrite E in Hc. Qed.

(** *** The sending side *)

Lemma adv_linkoutput X p : adv X (aknet_linkoutput p).
Proof.
  unfold aknet_linkoutput, lget. apply adv_bind; [apply adv_gets|intros n].
  split_if; [apply adv_ret|]. apply adv_bind; [apply adv_gets|intros d].
  apply adv_bind; [intros s Hs; by apply lent_adv_txbuf|intros []].
  apply adv_bind; [apply adv_gets|intros b].
  apply adv_bind; [apply adv_lcall; intros; apply gl_frame_tx|intros r]. apply adv_ret.
Qed.

Lemma link_run_adv X s s' : books X s -> rtc (link_step inputs owned lent) s s' -> lent_adv X s s'.
Proof.
  intros Hs Hr. revert Hs. induction Hr as [s|s s1 s' H1 Hr IH]; intros Hs; [by apply lent_adv_refl|].
  assert (lent_adv X s s1) as H.
  { destruct H1 as [w Hw ->|p r Hd]; [by apply lent_adv_world|].
    eapply adv_done; [apply adv_linkoutput|done|exact Hd]. }
  eapply lent_adv_trans; [exact H|]. apply IH, H.
Qed.

(** The enqueue of [aknet_output]. *)
Lemma put_advances X s q w :
  books X s -> hq_level s < AKNET_HQ_SIZE -> q ∉ owned (lworld s) -> q ∉ lent (lworld s) ->
  owned w = {[q]} ∪ owned (lworld s) -> inputs w = inputs (lworld s) -> lent w = lent (lworld s) ->
  lent_adv X s (hq_put q (set_lworld w s)).
Proof.
  intros [H1 H2 H3 H4 H5] Hl Hq Hql Ho Hi Hle.
  destruct (hq_put_pending (set_lworld w s) q) as [Hwf Hp]; [by apply (hq_wf_same s)|done|].
  change (pending (set_lworld w s)) with (pending s) in Hp.
  assert (q ∉ X /\ q ∉ pending s) as [HqX Hqp] by (rewrite H4 in Hq; set_solver).
  split; [|done]. split_and!; [split|done| |done].
  - done.
  - rewrite Hp. apply NoDup_app. split_and!; [done| |apply NoDup_singleton].
    intros x Hx Hx'%list_elem_of_singleton. by subst.
  - intros p. rewrite Hp, elem_of_app, list_elem_of_singleton. naive_solver.
  - cbn. rewrite Ho, H4, Hp, list_to_set_app_L. set_solver.
  - cbn. rewrite Ho, Hle. set_solver.
  - rewrite Hp. by apply prefix_app_r.
Qed.

Lemma adv_output X p ip : adv X (aknet_output p ip).
Proof.
  intros s Hs. unfold aknet_output. unfold wp, bindM at 1, lget at 1, getsM at 1.
  destruct (ip =? _).
  - unfold bindM at 1, getsM at 1. destruct (AKNET_HQ_SIZE <=? hq_level s) eqn:E; [by apply lent_adv_refl|].
    bool_to_prop. unfold bindM at 1, lget, getsM. unfold bindM at 1, lcall at 1.
    destruct (pbuf_alloc _ _ _ (lworld s)) as [q w] eqn:Ea. apply gl_alloc in Ea as (Hi & Hl & Ho).
    destruct (q =? 0) eqn:Eq; [apply lent_adv_world; [done|by split_and!]|].
    destruct Ho as (Hq & Hql & Ho). unfold bindM, lmod, modifyM, retM. cbn [lworld set_lworld].
    destruct (gl_copy q p w) as (Ho' & Hi' & Hl').
    apply (put_advances X s q (pbuf_copy q p w)); [done|done|done|done|congruence..].
  - unfold liftM. destruct (etharp_output p ip s) as [r s'] eqn:E. apply gl_etharp_output in E.
    by apply link_run_adv.
Qed.

Lemma send_step_adv X s s' : books X s -> send_step inputs owned lent s s' -> lent_adv X s s'.
Proof.
  intros Hs [Hd|p ip r Hd]; [apply link_run_adv; [done|by apply rtc_once]|].
  eapply adv_done; [apply adv_output|done|exact Hd].
Qed.

Lemma send_run_adv X s s' : books X s -> rtc (send_step inputs owned lent) s s' -> lent_adv X s s'.
Proof.
  intros Hs Hr. revert Hs. induction Hr as [s|s s1 s' H1 Hr IH]; intros Hs; [by apply lent_adv_refl|].
  pose proof (send_step_adv X s s1 Hs H1) as H. eapply lent_adv_trans; [exact H|]. apply IH, H.
Qed.

(** *** The receiving side *)

(** A callback may end by freeing the packet it was lent. *)
Lemma free_lent X s p :
  books X s -> p ∈ lent (lworld s) -> advances X s (set_lworld (pbuf_free p (lworld s)) s).
Proof.
  intros Hs Hp. pose proof (bk_lent _ _ Hs) as Hd. destruct (gl_free p (lworld s) (or_intror Hp)) as (Ho & Hi & Hl).
  assert (owned (lworld s) ∖ {[p]} = owned (lworld s)) as E by set_solver.
  rewrite E in Ho. apply advances_world; [done..|]. rewrite Ho, Hl. set_solver.
Qed.

Lemma adv_then_free {A} X p (c : M (glue W) A) s :
  adv X c -> books X s -> p ∈ lent (lworld s) ->
  wp (c ;; lmod (pbuf_free p)) (fun _ s' => advances X s s') s.
Proof.
  intros Hc Hs Hp. apply wp_bind. eapply wp_mono; [|by apply Hc]. intros a s1 [H1 HL].
  eapply advances_trans; [exact H1|]. apply free_lent; [apply H1|by rewrite HL].
Qed.

Lemma adv_udp_rx X id p addr port s :
  books X s -> p ∈ lent (lworld s) ->
  wp (aknet_udp_rx_cb id p addr port) (fun _ s' => advances X s s') s.
Proof.
  intros Hs Hp. unfold aknet_udp_rx_cb, lget. destruct (p =? 0); [by apply advances_refl|].
  apply wp_bind. unfold wp at 1, getsM at 1. cbv zeta. apply wp_bind. unfold wp at 1, getsM at 1.
  apply wp_bind. unfold wp at 1, modifyM. set (s1 := set_rxbuf _ s).
  pose proof (lent_adv_rxbuf X s (blit (aknet_rxbuf s) _) Hs : lent_adv X s s1) as [H1 HL1].
  apply wp_bind. unfold wp at 1, getsM at 1.
  eapply wp_mono; [|apply (adv_then_free X p _ s1); [apply adv_lmod; intros; apply gl_udp_rx|apply H1|by rewrite HL1]].
  intros [] s2 H2. eapply advances_trans; [exact H1|exact H2].
Qed.

Lemma adv_raw_rx X p addr s :
  books X s -> p ∈ lent (lworld s) ->
  wp (aknet_raw_rx_cb p addr) (fun _ s' => advances X s s') s.
Proof.
  intros Hs Hp. unfold aknet_raw_rx_cb, lget. apply wp_bind. unfold wp at 1, getsM at 1.
  split_if; [by apply advances_refl|]. apply wp_bind. unfold wp at 1, getsM at 1.
  split_if; [by apply advances_refl|]. cbv zeta. apply wp_bind. unfold wp at 1, getsM at 1.
  apply wp_bind. unfold wp at 1, modifyM. set (s1 := set_rxbuf _ s).
  pose proof (lent_adv_rxbuf X s (blit (aknet_rxbuf s) _) Hs : lent_adv X s s1) as [H1 HL1].
  apply wp_bind. unfold wp at 1, getsM at 1. apply wp_bind.
  eapply wp_mono; [|apply (adv_lcall X); [intros; apply gl_icmp_rx|apply H1]].
  intros r s2 [H2 HL2]. pose proof (advances_trans X s s1 s2 H1 H2) as H12.
  destruct (negb (r =? 0)); [|exact H12]. unfold wp, bindM, lmod, modifyM, retM.
  eapply advances_trans; [exact H12|]. apply free_lent; [apply H2|by rewrite HL2, HL1].
Qed.

Lemma adv_tcp_rx X arg pcb p err s :
  books X s -> p = 0 \/ p ∈ lent (lworld s) ->
  wp (aknet_tcp_rx_cb arg pcb p err) (fun _ s' => advances X s s') s.
Proof.
  intros Hs Hp. unfold aknet_tcp_rx_cb. destruct (p =? 0) eqn:E0.
  { eapply wp_mono; [|apply (adv_bind X (lmod _)); [apply adv_lmod; intros; apply gl_tcp_eof|intros; apply adv_ret|done]].
    by intros a s' [? _]. }
  destruct Hp as [->|Hp]; [done|].
  apply wp_bind. eapply wp_mono; [|apply (adv_lcall X); [intros; apply gl_tcp_rx|done]].
  intros r s1 [H1 HL1]. destruct (r =? 0); [exact H1|]. apply wp_bind. unfold wp at 1, lget, getsM.
  apply wp_bind. unfold wp at 1, modifyM.
  pose proof (send_run_adv X s1 _ (proj1 H1) (gl_tcp_recved pcb (pbuf_tot_len p (lworld s1)) s1)) as [H2 HL2].
  unfold wp, bindM, lmod, modifyM, retM. eapply advances_trans; [exact H1|].
  eapply advances_trans; [exact H2|]. apply free_lent; [apply H2|by rewrite HL2, HL1].
Qed.

Lemma adv_tcp_accept X arg pcb err : adv X (aknet_tcp_accept_cb arg pcb err).
Proof.
  unfold aknet_tcp_accept_cb. cbv zeta.
  apply adv_bind; [apply adv_lcall; intros; apply gl_tcp_accept|intros r].
  split_if; [apply adv_ret|]. apply adv_bind; [apply adv_gets|intros lp].
  apply adv_bind; [|intros; apply adv_ret]. split_if; [|apply adv_ret].
  apply adv_lmod. intros. apply gl_tcp_accepted.
Qed.

Lemma adv_notify {A} X f (a : A) :
  (forall w, same_books inputs owned lent w (f w)) -> adv X (lmod f ;; retM a).
Proof. intros Hf. apply adv_bind; [by apply adv_lmod|intros; apply adv_ret]. Qed.

Lemma input_step_adv X s s' : books X s -> input_step inputs owned lent s s' -> advances X s s'.
Proof.
  intros Hs Hd.
  assert (forall A (c : M (glue W) A) r, wp c (fun _ s' => advances X s s') s -> c s = Done r s' ->
            advances X s s') as Hwp by (intros A c r Hc E; unfold wp in Hc; by rewrite E in Hc).
  assert (forall A (c : M (glue W) A) r, adv X c -> c s = Done r s' -> advances X s s') as Hadv
    by (intros A c r Hc E; by apply (adv_done X c s r s' Hc Hs)).
  destruct Hd as [Hd|w E1 E2 E3 ->|id p addr port r Hp E|p addr r Hp E|arg pcb p err r Hp E|arg pcb err r E
    |arg err r E|arg len r E|arg err r E|ip slot r E].
  - by apply send_step_adv.
  - by apply advances_world.
  - eapply Hwp; [by apply adv_udp_rx|exact E].
  - eapply Hwp; [by apply adv_raw_rx|exact E].
  - eapply Hwp; [by apply adv_tcp_rx|exact E].
  - eapply Hadv; [apply adv_tcp_accept|exact E].
  - eapply Hadv; [apply adv_notify; intros; apply gl_tcp_connected|exact E].
  - eapply Hadv; [apply adv_notify; intros; apply gl_tcp_sent|exact E].
  - eapply Hadv; [apply adv_lmod; intros; apply gl_tcp_err|exact E].
  - eapply Hadv; [apply adv_lmod; intros; apply gl_dns_reply|exact E].
Qed.

Lemma input_run_adv X s s' : books X s -> rtc (input_step inputs owned lent) s s' -> advances X s s'.
Proof.
  intros Hs Hr. revert Hs. induction Hr as [s|s s1 s' H1 Hr IH]; intros Hs; [by apply advances_refl|].
  pose proof (input_step_adv X s s1 Hs H1) as H. eapply advances_trans; [exact H|]. apply IH, H.
Qed.

(** *** Giving a packet away *)

(** [p] leaves the books: freed, or taken over by lwIP. *)
Lemma books_give p s w :
  books {[p]} s -> owned w = owned (lworld s) ∖ {[p]} -> lent w ## owned w -> books ∅ (set_lworld w s).
Proof.
  intros [H1 H2 H3 H4 H5] Ho Hl. split; [by apply (hq_wf_same s)|done|set_solver| |done].
  cbn. rewrite Ho, H4. apply set_eq. intros x.
  rewrite elem_of_difference, !elem_of_union, !elem_of_singleton, !elem_of_list_to_set.
  split; [intros [[?|?] ?]; [done|by right]|]. intros [Hx|Hx]; [by apply elem_of_empty in Hx|].
  split; [by right|]. intros ->. apply (H3 p Hx). by apply elem_of_singleton.
Qed.

Lemma held p s : books {[p]} s -> p ∈ owned (lworld s).
Proof. intros Hs. rewrite (bk_owned _ _ Hs). set_solver. Qed.

Lemma free_give p s : books {[p]} s -> books ∅ (set_lworld (pbuf_free p (lworld s)) s).
Proof.
  intros Hs. destruct (gl_free p (lworld s) (or_introl (held p s Hs))) as (Ho & _ & Hl).
  apply (books_give p); [done|done|]. rewrite Ho, Hl. pose proof (bk_lent _ _ Hs). set_solver.
Qed.

(** The end of an input: either lwIP has the packet, or the glue frees it. *)
Lemma input_give p s w s' (e : Z) :
  books {[p]} s ->
  owned w = (if e =? ERR_OK then owned (lworld s) ∖ {[p]} else owned (lworld s)) ->
  lent w = lent (lworld s) -> rtc (input_step inputs owned lent) (set_lworld w s) s' ->
  exists s1, (if negb (e =? ERR_OK) then lmod (pbuf_free p) else retM tt) s' = Done tt s1
    /\ books ∅ s1 /\ inputs (lworld s1) = inputs w /\ pending s `prefix_of` pending s1
    /\ aknet_hq_draining s1 = aknet_hq_draining s.
Proof.
  intros Hs Ho Hl Hr. pose proof (bk_lent _ _ Hs) as Hd. destruct (e =? ERR_OK); cbn [negb].
  - assert (books ∅ (set_lworld w s)) as Hb.
    { apply (books_give p); [done|done|]. rewrite Ho, Hl. set_solver. }
    pose proof (input_run_adv ∅ _ _ Hb Hr) as (B & I & P & D).
    exists s'. split_and!; try done.
  - assert (books {[p]} (set_lworld w s)) as Hb.
    { pose proof Hs as [H1 H2 H3 H4 H5]. split; [by apply (hq_wf_same s)|done|done| |]; cbn; rewrite ?Ho, ?Hl; done. }
    pose proof (input_run_adv {[p]} _ _ Hb Hr) as (B & I & P & D).
    eexists. split; [done|]. split; [by apply free_give|]. cbn.
    destruct (gl_free p (lworld s') (or_introl (held p s' B))) as (_ & -> & _). split_and!; try done.
Qed.

(** ** The drain *)

Lemma pop_books p rest s :
  books ∅ s -> pending s = p :: rest ->
  books {[p]} (hq_pop s) /\ pending (hq_pop s) = rest /\ hq_slot s (aknet_hq_head s) = p.
Proof.
  intros [H1 H2 H3 H4 H5] Hp. destruct (hq_pop_pending s H1) as [Hwf Hpop]; [by rewrite Hp|].
  rewrite Hp in Hpop. injection Hpop as Hslot Hrest. rewrite Hp in H2, H4.
  apply NoDup_cons in H2 as [Hnin Hnd]. split_and!; [split|done..].
  - done.
  - by rewrite <- Hrest.
  - intros x Hx ->%elem_of_singleton. by rewrite <- Hrest in Hx.
  - rewrite <- Hrest. cbn [lworld hq_pop set_hq_head]. rewrite H4. cbn. set_solver.
  - done.
Qed.

(** One delivery. *)
Lemma hairpin_round_spec p rest s :
  books ∅ s -> pending s = p :: rest ->
  wp (hairpin_round tt)
    (fun r s' => r = inl tt /\ books ∅ s' /\ inputs (lworld s') = inputs (lworld s) ++ [p]
       /\ rest `prefix_of` pending s' /\ aknet_hq_draining s' = aknet_hq_draining s) s.
Proof.
  intros Hs Hp. destruct (pop_books p rest s Hs Hp) as (Hb & Hrest & Hslot).
  assert ((aknet_hq_head s =? aknet_hq_tail s) = false) as Hne.
  { apply Z.eqb_neq. intros E. apply hq_empty in E; [|apply Hs]. by rewrite E in Hp. }
  unfold wp, hairpin_round, bindM, getsM. rewrite Hne.
  change (default 0 _) with (hq_slot s (aknet_hq_head s)). rewrite Hslot.
  unfold modifyM at 1. fold (hq_pop s). unfold liftM.
  destruct (ip4_input p (hq_pop s)) as [e s'] eqn:E. apply gl_ip4_input in E as (w & Hi & Ho & Hl & Hr).
  destruct (input_give p _ w s' e Hb Ho Hl Hr) as (s1 & Hs1 & B & I & P & D).
  cbn [negb] in *. rewrite Hs1. unfold retM. split_and!; [done|done| | |done].
  - by rewrite I, Hi.
  - by rewrite <- Hrest.
Qed.

Lemma hairpin_round_empty s : hq_wf s -> pending s = [] -> hairpin_round tt s = Done (inr tt) s.
Proof.
  intros Hwf Hp. apply hq_empty in Hp; [|done]. unfold hairpin_round, bindM, getsM.
  by rewrite Hp, Z.eqb_refl.
Qed.

(** What the rounds keep: the packets delivered, then those queued, start
    with what was delivered and queued at the beginning. *)
Definition drain_inv (s0 : glue W) (_ : unit) (s : glue W) : Prop :=
  books ∅ s /\ aknet_hq_draining s = true
  /\ inputs (lworld s0) ++ pending s0 `prefix_of` inputs (lworld s) ++ pending s.

Lemma drain_inv_step s0 p rest s :
  drain_inv s0 tt s -> pending s = p :: rest ->
  wp (hairpin_round tt) (fun r s' => r = inl tt /\ drain_inv s0 tt s') s.
Proof.
  intros (Hb & Hd & Hpre) Hp. eapply wp_mono; [|by apply (hairpin_round_spec p rest s)].
  intros r s' (-> & B & I & [more P] & D). split; [done|]. split_and!; [done|congruence|].
  etrans; [exact Hpre|]. rewrite I, P, Hp. exists more. by rewrite <- !app_assoc.
Qed.

Lemma set_draining_books d s : books ∅ s -> books ∅ (set_draining d s).
Proof. intros [H1 H2 H3 H4 H5]. split; [by apply (hq_wf_same s)|done..]. Qed.

(** C13. The drain is a FIFO delivery that survives lwIP queueing more while it
    runs: when it returns, the queue is empty, the guard is released, no pbuf
    is lost or held, and what lwIP was handed begins with the packets queued
    at the start, in order, each once, before any packet queued later; while
    it runs the same holds of what was handed over and what is still queued.
    A call while a drain is running does nothing. *)
Theorem hairpin_drain_fifo fuel (s : glue W) :
  books ∅ s ->
  (aknet_hq_draining s = true -> aknet_hairpin_drain fuel s = Done tt s)
  /\ (aknet_hq_draining s = false ->
     wlp (aknet_hairpin_drain fuel)
       (fun _ s' => books ∅ s' /\ aknet_hq_draining s' = false /\ pending s' = []
          /\ inputs (lworld s) ++ pending s `prefix_of` inputs (lworld s'))
       (fun s' => drain_inv s tt s') s).
Proof.
  intros Hs. split; intros Hd; unfold aknet_hairpin_drain; unfold bindM at 1, getsM at 1;
    unfold wlp; rewrite Hd; [done|].
  unfold bindM at 1, modifyM at 1.
  change (wlp (iterM fuel hairpin_round tt ;; modifyM (set_draining false))
    (fun _ s' => books ∅ s' /\ aknet_hq_draining s' = false /\ pending s' = []
          /\ inputs (lworld s) ++ pending s `prefix_of` inputs (lworld s'))
    (fun s' => drain_inv s tt s') (set_draining true s)).
  apply wlp_bind.
  apply (iter_wlp _ (drain_inv s)); [done| |split_and!; [by apply set_draining_books|done..]].
  intros [] s1 HI. destruct (pending s1) as [|p rest] eqn:Hp.
  - destruct HI as (Hb & Hd1 & Hpre). unfold wlp. rewrite hairpin_round_empty; [|apply Hb|done].
    cbn. split_and!; [by apply set_draining_books|done|done|]. by rewrite Hp, app_nil_r in Hpre.
  - pose proof (drain_inv_step s p rest s1 HI Hp) as H. unfold wp, wlp in *.
    destruct (hairpin_round tt s1) as [r s2|]; [|done]. by destruct H as [-> H].
Qed.

(** The drain returns whenever the deliveries settle: if some measure of
    lwIP's state pays one unit for every packet a delivery queues, the drain
    takes at most as many rounds as packets queued plus that measure. *)
Theorem hairpin_drain_returns (mu : W -> nat) fuel (s : glue W) :
  books ∅ s -> aknet_hq_draining s = false ->
  (forall p s1 e s2, books {[p]} s1 -> ip4_input p s1 = (e, s2) ->
     (length (pending s2) + mu (lworld s2) <= length (pending s1) + mu (lworld s1))%nat) ->
  (forall p w, mu (pbuf_free p w) = mu w) ->
  (length (pending s) + mu (lworld s) < fuel)%nat ->
  wp (aknet_hairpin_drain fuel) (fun _ s' => pending s' = [] /\ aknet_hq_draining s' = false) s.
Proof.
  intros Hs Hd Hmu Hfree Hf. unfold aknet_hairpin_drain. apply wp_bind. unfold wp at 1, getsM. rewrite Hd.
  apply wp_bind. unfold wp at 1, modifyM. apply wp_bind.
  eapply (iter_terminates _ (fun _ s => books ∅ s) _ (fun _ s => length (pending s) + mu (lworld s))%nat);
    [|by apply set_draining_books|done].
  intros [] s1 Hb. destruct (pending s1) as [|p rest] eqn:Hp.
  - unfold wp at 1. rewrite hairpin_round_empty; [|apply Hb|done]. done.
  - pose proof (hairpin_round_spec p rest s1 Hb Hp) as H.
    destruct (pop_books p rest s1 Hb Hp) as (Hb1 & Hrest & Hslot).
    unfold wp in *. destruct (hairpin_round tt s1) as [r s2|] eqn:E; [|done].
    destruct H as (-> & B & _). split; [done|].
    unfold hairpin_round, bindM, getsM in E.
    destruct (aknet_hq_head s1 =? aknet_hq_tail s1); [done|].
    change (default 0 _) with (hq_slot s1 (aknet_hq_head s1)) in E. rewrite Hslot in E.
    unfold modifyM at 1 in E. fold (hq_pop s1) in E. unfold liftM in E.
    destruct (ip4_input p (hq_pop s1)) as [e s3] eqn:Ei.
    specialize (Hmu p _ e s3 Hb1 Ei). rewrite Hrest in Hmu.
    change (lworld (hq_pop s1)) with (lworld s1) in Hmu.
    destruct (negb (e =? ERR_OK)); cbn in E; injection E as <-; cbn [length].
    + cbn [lworld set_lworld]. change (pending (set_lworld _ s3)) with (pending s3). rewrite Hfree. lia.
    + lia.
Qed.

(** ** The entry points *)

(** Sending through lwIP: the pbuf allocated for the call is freed again. *)
Lemma alloc_send_books l n t (send : Z -> glue W -> Z * glue W) data (s : glue W) :
  (forall p s r s', send p s = (r, s') -> rtc (send_step inputs owned lent) s s') ->
  books ∅ s ->
  wp (let* p := lcall (pbuf_alloc l n t) in
      if p =? 0 then retM ERR_MEM
      else lmod (pbuf_take p data n) ;;
           let* e := liftM (send p) in lmod (pbuf_free p) ;; retM e)
    (fun _ s' => advances ∅ s s') s.
Proof.
  intros Hsend Hs. apply wp_bind. unfold wp at 1, lcall.
  destruct (pbuf_alloc l n t (lworld s)) as [p w] eqn:Ea. apply gl_alloc in Ea as (Hi & Hl & Ho).
  destruct (p =? 0); [apply lent_adv_world; [done|by split_and!]|]. destruct Ho as (Hp & Hpl & Ho).
  assert (books {[p]} (set_lworld w s)) as Hb.
  { pose proof Hs as [H1 H2 H3 H4 H5]. split; [by apply (hq_wf_same s)|done| | |].
    - intros x Hx ->%elem_of_singleton. apply Hp. rewrite H4. set_solver.
    - cbn. rewrite Ho, H4. set_solver.
    - cbn. rewrite Ho, Hl. set_solver. }
  apply wp_bind. eapply wp_mono; [|apply (adv_lmod {[p]}); [intros; apply gl_take|done]].
  intros [] s1 [H1 _]. apply wp_bind. unfold wp at 1, liftM. destruct (send p s1) as [e s2] eqn:Es.
  pose proof (send_run_adv {[p]} _ _ (proj1 H1) (Hsend _ _ _ _ Es)) as [H2 _].
  pose proof (advances_trans _ _ _ _ H1 H2) as (B & I & P & D).
  unfold wp, bindM, lmod, modifyM, retM. split; [by apply free_give|].
  destruct (gl_free p (lworld s2) (or_introl (held p s2 B))) as (_ & Hif & _). cbn. rewrite Hif. split_and!; try done. by rewrite I.
Qed.

(** C12. No entry point of the glue leaks a pbuf or frees one twice: from
    balanced books, sending a datagram or a raw packet, feeding a received
    frame and the packet output hook itself end with balanced books, with
    packets added at the end of the hairpin queue only, whichever of the
    allocations, sends and inputs fail.  A pbuf is freed only while it is held
    or lent: the laws say nothing of a world in which another one was. *)
Theorem glue_no_leak (s : glue W) :
  books ∅ s ->
  (forall pcb ip port data len, wp (aknet_udp_send pcb ip port data len) (fun _ s' => advances ∅ s s') s)
  /\ (forall pcb ip data len, wp (aknet_raw_send pcb ip data len) (fun _ s' => advances ∅ s s') s)
  /\ (forall frame len, wp (aknet_rx frame len) (fun _ s' => advances ∅ s s') s)
  /\ (forall p ip, wp (aknet_output p ip) (fun _ s' => advances ∅ s s') s).
Proof.
  intros Hs. split_and!.
  - intros. unfold aknet_udp_send. apply alloc_send_books; [|done]. intros. by eapply gl_udp_sendto.
  - intros. unfold aknet_raw_send. apply alloc_send_books; [|done]. intros. by eapply gl_raw_sendto.
  - intros. unfold aknet_rx. apply wp_bind. unfold wp at 1, lcall.
    destruct (pbuf_alloc _ _ _ (lworld s)) as [p w] eqn:Ea. apply gl_alloc in Ea as (Hi & Hl & Ho).
    destruct (p =? 0); [apply lent_adv_world; [done|by split_and!]|]. destruct Ho as (Hp & Hpl & Ho).
    assert (books {[p]} (set_lworld w s)) as Hb.
    { pose proof Hs as [H1 H2 H3 H4 H5]. split; [by apply (hq_wf_same s)|done| | |].
      - intros x Hx ->%elem_of_singleton. apply Hp. rewrite H4. set_solver.
      - cbn. rewrite Ho, H4. set_solver.
      - cbn. rewrite Ho, Hl. set_solver. }
    apply wp_bind. eapply wp_mono; [|apply (adv_lmod {[p]}); [intros; apply gl_take|done]].
    intros [] s1 [(B1 & I1 & P1 & D1) _]. apply wp_bind. unfold wp at 1, liftM.
    destruct (netif_input p s1) as [e s2] eqn:Es. apply gl_netif_input in Es as (w2 & Hi2 & Ho2 & Hl2 & Hr).
    destruct (input_give p s1 w2 s2 e B1 Ho2 Hl2 Hr) as (s3 & Hs3 & B & I & P & D).
    assert (advances ∅ s s3) as Hfin.
    { split_and!; [done| | |].
      - rewrite I, Hi2, I1. done.
      - etrans; [exact P1|exact P].
      - by rewrite D, D1. }
    destruct (negb (e =? ERR_OK)).
    + unfold wp, bindM. by rewrite Hs3.
    + unfold wp, retM in *. by injection Hs3 as <-.
  - intros p ip. eapply wp_mono; [|by apply adv_output]. by intros r s' [? _].
Qed.

End Books.

(** ** A small stack

    A world that satisfies the laws: allocation always succeeds, an input is
    always taken over, and each of the first [t_replies] inputs answers with
    a packet to the own address, which the hairpin queues. *)
Record toy := Toy {
  t_own : gset Z; t_lent : gset Z; t_in : list Z; t_replies : nat; t_ip : Z; t_gw : Z;
  t_cbs : list (Z * bool); t_st : Z; t_close : Z; t_log : list (list Z) }.

#[export] Instance toy_const : LwipConst := {|
  ERR_OK := 0; ERR_MEM := -1; ERR_IF := -12; ERR_ABRT := -13; ERR_INPROGRESS := -5;
  PP_HTONL := swap32; PP_NTOHL := swap32;
  PBUF_RAW := 0; PBUF_TRANSPORT := 1; PBUF_IP := 2; PBUF_RAM := 3; PBUF_POOL := 4;
  NETIF_FLAG_BROADCAST := 2; NETIF_FLAG_ETHARP := 8; NETIF_FLAG_ETHERNET := 16;
  NETIF_FLAG_LINK_UP := 4; sizeof_ip_hdr := 20; ARP_TABLE_SIZE := 10; IP_ADDR_ANY := 0;
  IP_PROTO_ICMP := 1; TCP_WRITE_FLAG_COPY := 1; LISTEN := 1 |}.

#[export] Instance toy_const_laws : LwipConstLaws.
Proof. split; try done. apply swap32_invol. Qed.

Definition toy_fresh (w : toy) : Z :=
  1 + Z.max (set_fold Z.max 0 (t_own w)) (set_fold Z.max 0 (t_lent w)).

Definition toy_set_own o (w : toy) : toy :=
  Toy o (t_lent w) (t_in w) (t_replies w) (t_ip w) (t_gw w) (t_cbs w) (t_st w) (t_close w) (t_log w).
Definition toy_set_cbs c (w : toy) : toy :=
  Toy (t_own w) (t_lent w) (t_in w) (t_replies w) (t_ip w) (t_gw w) c (t_st w) (t_close w) (t_log w).

(** Everything but the input function. *)
Definition toy_base (inp : Z -> glue toy -> Z * glue toy) : Lwip toy := {|
  pbuf_alloc l n t w := (toy_fresh w, toy_set_own ({[toy_fresh w]} ∪ t_own w) w);
  pbuf_free p w := (* a pbuf that is freed twice stays on the books *)
                   Toy (if decide (p ∈ t_own w ∪ t_lent w) then t_own w ∖ {[p]} else {[p]} ∪ t_own w) (t_lent w ∖ {[p]})
                     (t_in w) (t_replies w) (t_ip w) (t_gw w) (t_cbs w) (t_st w) (t_close w) (t_log w);
  pbuf_copy q p w := w; pbuf_take p d n w := w; pbuf_tot_len p w := 40;
  pbuf_copy_partial p n o w := replicate (Z.to_nat n) 0; IPH_HL_BYTES p w := 20;
  netif_ip4_addr w := t_ip w; netif_ip4_gw w := t_gw w;
  netif_add a m g f s := (f s).2; netif_set_default w := w; netif_set_up s := s;
  netif_set_link_up s := s;
  netif_set_addr a g s :=
    let w := lworld s in
    set_lworld (Toy (t_own w) (t_lent w) (t_in w) (t_replies w) a g (t_cbs w) (t_st w) (t_close w) (t_log w)) s;
  etharp_output p ip s := (0, s); ip4_input := inp; netif_input p s := (-12, s);
  etharp_get_entry i w := None; udp_new w := (1, w); udp_recv p i w := w;
  udp_bind c a p w := (0, w); udp_connect c a p w := (0, w); udp_sendto c p ip port s := (0, s);
  udp_remove c w := w; udp_pcbs w := []; udp_local_port c w := 0; udp_recv_is_glue c w := true;
  raw_new p w := (1, w); raw_recv p w := w; raw_sendto c p ip s := (0, s);
  sys_check_timeouts s := s; dns_setserver i a w := w; dns_gethostbyname n i s := ((-5, 0), s);
  dhcp_start s := (0, s); dhcp_release_and_stop s := s; dhcp_supplied_address w := 0;
  dhcp_renew s := (0, s); netif_dhcp_state w := None; tcp_new w := (1, w); tcp_arg p a w := w;
  tcp_recv p b w := toy_set_cbs ((3 * p, b) :: t_cbs w) w;
  tcp_sent p b w := toy_set_cbs ((3 * p + 1, b) :: t_cbs w) w;
  tcp_err p b w := toy_set_cbs ((3 * p + 2, b) :: t_cbs w) w;
  tcp_accept p w := w; tcp_bind c a p w := (0, w); tcp_listen p w := (p + 1, w); tcp_accepted p w := w;
  tcp_connect c a p s := (0, s); tcp_write c d n f w := (0, w); tcp_output c s := (0, s);
  tcp_recved c n s := s; tcp_refused_data c w := 0; tcp_process_refused_data c s := (0, s);
  tcp_close c s := (t_close (lworld s), s); tcp_abort c s := s; tcp_state c w := t_st w;
  tcp_remote_ip c w := 0; tcp_remote_port c w := 0; tcp_local_port c w := 0;
  lmalloc_ok n w := (true, w) |}.

#[export] Instance toy_netserv : Netserv toy := {|
  aknet_frame_tx b n w := (0, w);
  aknet_on_udp_rx i a p b n w := w; aknet_on_icmp_rx a b n w := (0, w);
  aknet_on_dns_reply s a w := w; aknet_on_tcp_accept i p w := (0, w);
  aknet_on_tcp_connected i e w := w; aknet_on_tcp_rx i p w := (1, w); aknet_on_tcp_eof i w := w;
  aknet_on_tcp_sent i n w := w; aknet_on_tcp_err i e w := w |}.

(** The packet is logged and taken over; a reply goes out to the own address. *)
Definition toy_taken (p : Z) (w : toy) : toy :=
  Toy (t_own w ∖ {[p]}) (t_lent w) (t_in w ++ [p]) (t_replies w) (t_ip w) (t_gw w) (t_cbs w) (t_st w)
    (t_close w) (t_log w).
Definition toy_replied (n : nat) (w : toy) : toy :=
  Toy (t_own w) (t_lent w) (t_in w) n (t_ip w) (t_gw w) (t_cbs w) (t_st w) (t_close w) (t_log w).

Definition toy_input (p : Z) (s : glue toy) : Z * glue toy :=
  let s1 := set_lworld (toy_taken p (lworld s)) s in
  match t_replies (lworld s) with
  | O => (0, s1)
  | S n => (0, out_state (@aknet_output _ toy (toy_base (fun _ s => (0, s))) p (t_ip (lworld s))
                            (set_lworld (toy_replied n (lworld s1)) s1)))
  end.

#[export] Instance toy_lwip : Lwip toy := toy_base toy_input.

Lemma toy_fresh_own w : toy_fresh w ∉ t_own w.
Proof. intros H%max_fold_ub. unfold toy_fresh in H. lia. Qed.
Lemma toy_fresh_lent w : toy_fresh w ∉ t_lent w.
Proof. intros H%max_fold_ub. unfold toy_fresh in H. lia. Qed.
Lemma toy_fresh_pos w : (toy_fresh w =? 0) = false.
Proof.
  apply Z.eqb_neq. unfold toy_fresh.
  assert (forall X : gset Z, 0 <= set_fold Z.max 0 X) as H; [|pose proof (H (t_own w)); lia].
  apply (set_fold_ind_L (fun r _ => 0 <= r)); intros; lia.
Qed.

#[export] Instance toy_laws : GlueLaws toy t_in t_own t_lent.
Proof.
  split; try (intros; by split_and!).
  - intros l n t w p w'. cbn. intros [= <- <-]. rewrite toy_fresh_pos. cbn.
    split_and!; [done..|apply toy_fresh_own|apply toy_fresh_lent|done].
  - intros p w Hp. cbn. rewrite decide_True by set_solver. done.
  - intros p ip s r s'. cbn. by intros [= _ <-].
  - intros c p ip port s r s'. cbn. by intros [= _ <-].
  - intros c p ip s r s'. cbn. by intros [= _ <-].
  - intros c n s. done.
  - intros p s e s'. cbn. unfold toy_input. destruct (t_replies (lworld s)) as [|n] eqn:En.
    + intros [= <- <-]. exists (toy_taken p (lworld s)). by split_and!.
    + intros [= <- <-]. exists (toy_taken p (lworld s)). split_and!; [done..|].
      eapply rtc_l.
      { apply input_send, send_link. eapply (link_world _ _ _ _ _ (toy_replied n (toy_taken p (lworld s)))); [|done].
        by split_and!. }
      set (s1 := set_lworld (toy_replied n _) _).
      destruct (aknet_output p (t_ip (lworld s)) s1) as [r s2|s2] eqn:E.
      * apply rtc_once, input_send. apply (send_output _ _ _ _ _ p (t_ip (lworld s)) r).
        exact E.
      * exfalso. revert E. unfold aknet_output, bindM, lget, getsM, lcall, lmod, modifyM, retM, liftM. cbn.
        by repeat (case_match).
  - intros p s e s'. cbn. intros [= <- <-]. exists (lworld s). split_and!; try done.
    by destruct s.
Qed.

(** Two packets queued by [aknet_output], the indices just below the 32-bit
    wrap; the first delivery answers with a third packet. *)
Definition demo_glue : glue toy :=
  let s0 := Glue (aknet_netif (glue_init tt)) (replicate 2048 0) (replicate 2048 0) (replicate 16 0)
              (2 ^ 32 - 1) (2 ^ 32 - 1) false []
              (Toy ∅ ∅ [] 1 0x0F02000A 0 [] 4 0 []) in
  out_state (aknet_output 100 0x0F02000A (out_state (aknet_output 100 0x0F02000A s0))).

Lemma demo_books : books t_own t_lent ∅ demo_glue.
Proof.
  split.
  - split; vm_compute; [reflexivity | split; [discriminate | reflexivity]
      | split; [discriminate | reflexivity] | discriminate].
  - vm_compute. repeat constructor; [intros [|[]%elem_of_nil]%elem_of_cons; done | by intros ?%elem_of_nil].
  - intros p _. apply not_elem_of_empty.
  - vm_compute. reflexivity.
  - replace (t_lent (lworld demo_glue)) with (∅ : gset Z) by (vm_compute; reflexivity).
    apply disjoint_empty_l.
Qed.

(** An output queues at most one packet. *)
Lemma toy_output_one p ip (s : glue toy) :
  hq_wf s ->
  wp (aknet_output p ip)
    (fun _ s' => (length (pending s') <= S (length (pending s)))%nat
                 /\ t_replies (lworld s') = t_replies (lworld s)) s.
Proof.
  intros Hwf. unfold aknet_output. apply wp_bind. unfold wp at 1, lget at 1, getsM at 1.
  destruct (ip =? _); [|cbn; split; [lia|done]].
  apply wp_bind. unfold wp at 1, getsM at 1.
  destruct (AKNET_HQ_SIZE <=? hq_level s) eqn:E; [cbn; split; [lia|done]|].
  bool_to_prop. unfold wp, bindM, lget, getsM, lcall, lmod, modifyM, retM.
  cbn [pbuf_alloc pbuf_copy toy_lwip toy_base]. rewrite toy_fresh_pos.
  set (s1 := set_lworld _ (set_lworld _ s)).
  change (set_hq_tail _ _) with (hq_put (toy_fresh (lworld s)) s1).
  destruct (hq_put_pending s1 (toy_fresh (lworld s))) as [_ ->]; [by apply (hq_wf_same s)|done|].
  split; [|done]. rewrite length_app. change (pending s1) with (pending s). cbn. lia.
Qed.

Lemma hairpin_drain_fifo_witness :
  wlp (aknet_hairpin_drain 5)
    (fun _ s' => books t_own t_lent ∅ s' /\ aknet_hq_draining s' = false /\ pending s' = []
       /\ [1; 2] `prefix_of` t_in (lworld s'))
    (fun s' => drain_inv t_in t_own t_lent demo_glue tt s') demo_glue
  /\ t_in (lworld (out_state (aknet_hairpin_drain 5 demo_glue))) = [1; 2; 3].
Proof.
  split; [|vm_compute; reflexivity].
  exact (proj2 (hairpin_drain_fifo t_in t_own t_lent 5 demo_glue demo_books) eq_refl).
Defined.

Lemma hairpin_drain_returns_witness :
  wp (aknet_hairpin_drain 4) (fun _ s' => pending s' = [] /\ aknet_hq_draining s' = false) demo_glue.
Proof.
  apply (hairpin_drain_returns t_in t_own t_lent t_replies 4 demo_glue demo_books eq_refl).
  - intros p s1 e s2 Hb. cbn. unfold toy_input. destruct (t_replies (lworld s1)) as [|n] eqn:En.
    + intros [= _ <-]. set (s2' := set_lworld _ s1).
      change (pending s2') with (pending s1).
      change (t_replies (lworld s2')) with (t_replies (lworld s1)). lia.
    + intros [= _ <-]. set (s3 := set_lworld _ _).
      assert (hq_wf s3) as Hwf by (apply (hq_wf_same s1); [apply Hb|done..]).
      pose proof (toy_output_one p (t_ip (lworld s1)) s3 Hwf) as H. unfold wp in H.
      change (@aknet_output _ toy (toy_base (fun _ s => (0, s)))) with (@aknet_output _ toy toy_lwip).
      destruct (aknet_output p (t_ip (lworld s1)) s3) as [r s4|]; [|done]. destruct H as [Hp Hr].
      cbn [out_state]. change (pending s3) with (pending s1) in Hp.
      change (t_replies (lworld s3)) with n in Hr. lia.
  - reflexivity.
  - vm_compute. repeat constructor.
Defined.

Lemma glue_no_leak_witness :
  wp (aknet_rx [1; 2; 3] 3) (fun _ s' => advances t_in t_own t_lent ∅ demo_glue s') demo_glue.
Proof. exact (proj1 (proj2 (proj2 (glue_no_leak t_in t_own t_lent demo_glue demo_books))) [1; 2; 3] 3). Defined.
