(* ===== verification/NetGlueSpec.v ===== *)
(** * Contracts of the other functions of aknet_glue.c

    The queueing branch of the output hook, what the receive callbacks tell
    lwIP about the packet they were given, the listen table as a finite map,
    the order of a TCP close, and the address round trip. *)
From stdpp Require Import relations.
From S2P Require Import Prelude CInt Bridge FdTable Lwip NetGlue Hairpin.

Section Output.
Context {LC : LwipConst} {W : Type} `{!Lwip W, !Netserv W}.

(** Output to the own address appends to a bounded FIFO: with 16 packets
    queued, or when no pbuf can be allocated, it returns ERR_MEM and queues
    nothing; otherwise it appends a fresh copy of the packet at the end,
    leaves the packets already queued and their order alone, and returns
    ERR_OK, wherever the 32-bit indices stand. *)
Theorem hairpin_output_queue p (s : glue W) q w :
  hq_wf s -> pbuf_alloc PBUF_RAW (pbuf_tot_len p (lworld s)) PBUF_RAM (lworld s) = (q, w) ->
  (length (pending s) = 16%nat -> aknet_output p (netif_ip4_addr (lworld s)) s = Done ERR_MEM s)
  /\ ((length (pending s) < 16)%nat -> q = 0 ->
     aknet_output p (netif_ip4_addr (lworld s)) s = Done ERR_MEM (set_lworld w s))
  /\ ((length (pending s) < 16)%nat -> q <> 0 ->
     wp (aknet_output p (netif_ip4_addr (lworld s)))
       (fun r s' => r = ERR_OK /\ hq_wf s' /\ pending s' = pending s ++ [q]
                    /\ lworld s' = pbuf_copy q p w) s).
Proof.
  intros Hwf Ha. pose proof (length_pending s) as Hlen.
  assert (aknet_output p (netif_ip4_addr (lworld s)) s =
    (if AKNET_HQ_SIZE <=? hq_level s then Done ERR_MEM s
     else if q =? 0 then Done ERR_MEM (set_lworld w s)
     else Done ERR_OK (hq_put q (set_lworld (pbuf_copy q p w) s)))) as Hk.
  { unfold aknet_output, bindM, lget, getsM, lcall. rewrite Z.eqb_refl.
    destruct (AKNET_HQ_SIZE <=? hq_level s); [done|]. rewrite Ha. by destruct (q =? 0). }
  unfold AKNET_HQ_SIZE in *. unfold wp. rewrite Hk. split_and!.
  - intros H16. by replace (16 <=? hq_level s) with true by (symmetry; apply Z.leb_le; lia).
  - intros Hl ->. by replace (16 <=? hq_level s) with false by (symmetry; apply Z.leb_gt; lia).
  - intros Hl Hq%Z.eqb_neq.
    replace (16 <=? hq_level s) with false by (symmetry; apply Z.leb_gt; lia). rewrite Hq.
    destruct (hq_put_pending (set_lworld (pbuf_copy q p w) s) q) as [Hw Hp];
      [by apply (hq_wf_same s)|unfold AKNET_HQ_SIZE; change (hq_level s < 16); lia|]. done.
Qed.

End Output.

Section Callbacks.
Context {LC : LwipConst} {W : Type} `{!Lwip W, !Netserv W}.
Context (inputs : W -> list Z) (owned lent : W -> gset Z) `{!GlueLaws W inputs owned lent}.

(** The receive callbacks tell lwIP the truth about the packet they were
    lent, as the raw API demands: the TCP callback returns ERR_OK exactly
    when it has freed the packet and otherwise leaves it to lwIP; the raw
    callback returns 1 exactly when it has freed it, else 0; the UDP callback
    always frees it.  None of them frees a queued packet. *)
Theorem rx_callbacks_contract X p (s : glue W) :
  books owned lent X s -> p ∈ lent (lworld s) -> p <> 0 ->
  (forall arg pcb err, wp (aknet_tcp_rx_cb arg pcb p err)
     (fun r s' => (r = ERR_OK /\ p ∉ lent (lworld s') \/ r = ERR_MEM /\ p ∈ lent (lworld s'))
                  /\ advances inputs owned lent X s s') s)
  /\ (forall addr, wp (aknet_raw_rx_cb p addr)
     (fun r s' => (r = 1 /\ p ∉ lent (lworld s') \/ r = 0 /\ p ∈ lent (lworld s'))
                  /\ advances inputs owned lent X s s') s)
  /\ (forall id addr port, wp (aknet_udp_rx_cb id p addr port)
     (fun _ s' => p ∉ lent (lworld s') /\ advances inputs owned lent X s s') s).
Proof.
  intros Hs Hp Hp0%Z.eqb_neq.
  assert (forall (A : Type) (c : M (glue W) A) Q,
    wp c (fun _ s' => advances inputs owned lent X s s') s -> wp c Q s ->
    wp c (fun r s' => Q r s' /\ advances inputs owned lent X s s') s) as Hand.
  { intros A c Q H1 H2. unfold wp in *. by destruct (c s). }
  assert (forall w, lent w = lent (lworld s) -> p ∉ lent (pbuf_free p w)) as Hfree.
  { intros w E. destruct (gl_free p w) as (_ & _ & ->); [right; by rewrite E|]. set_solver. }
  split_and!.
  - intros. apply Hand; [apply adv_tcp_rx; [done..|by right]|].
    unfold aknet_tcp_rx_cb. rewrite Hp0. apply wp_bind.
    eapply wp_mono; [|apply (adv_lcall inputs owned lent X); [intros; apply gl_tcp_rx|done]].
    intros r s1 [H1 HL]. destruct (r =? 0); [right; split; [done|by rewrite HL]|left; split; [done|]].
    destruct (send_run_adv inputs owned lent X s1 _ (proj1 H1) (gl_tcp_recved pcb (pbuf_tot_len p (lworld s1)) s1)) as [_ HL2].
    apply Hfree. cbn. congruence.
  - intros. apply Hand; [by apply adv_raw_rx|]. unfold aknet_raw_rx_cb, lget.
    apply wp_bind. unfold wp at 1, getsM at 1. split_if; [by right|].
    apply wp_bind. unfold wp at 1, getsM at 1. split_if; [by right|]. cbv zeta.
    unfold wp, bindM, getsM, modifyM, lcall, lmod, retM. cbn [lworld set_rxbuf aknet_rxbuf].
    match goal with |- context [aknet_on_icmp_rx ?a ?b ?n ?w] =>
      pose proof (gl_icmp_rx a b n w) as (_ & _ & HL); destruct (aknet_on_icmp_rx a b n w) as [r w'] end.
    cbn in HL. destruct (negb (r =? 0)); [left|right]; (split; [done|]); cbn; [by apply Hfree|by rewrite HL].
  - intros. apply Hand; [by apply adv_udp_rx|]. unfold aknet_udp_rx_cb, lget. rewrite Hp0.
    unfold wp, bindM, getsM, modifyM, lmod. cbn. apply Hfree. by apply gl_udp_rx.
Qed.

End Callbacks.

(** ** The listen table *)

Definition listen_map (l : list (Z * Z)) : gmap Z Z := list_to_map l.

Lemma listen_lookup_map l id : listen_lookup l id = default 0 (listen_map l !! id).
Proof.
  unfold listen_map. induction l as [|[i pcb] l IH]; [done|]. cbn.
  destruct (i =? id) eqn:E; bool_to_prop.
  - subst. by rewrite lookup_insert_eq.
  - by rewrite lookup_insert_ne.
Qed.

Lemma listen_remove_fst l id : (listen_remove l id).*1 ⊆ l.*1.
Proof.
  induction l as [|[i pcb] l IH]; [done|]. cbn. destruct (i =? id); cbn; set_solver.
Qed.

Lemma listen_remove_nodup l id : NoDup l.*1 -> NoDup (listen_remove l id).*1.
Proof.
  induction l as [|[i pcb] l IH]; [done|]. cbn. intros [Hn Hd]%NoDup_cons.
  destruct (i =? id); [done|]. cbn. constructor; [|by apply IH].
  intros H. by apply Hn, (listen_remove_fst l id).
Qed.

Lemma listen_remove_map l id : NoDup l.*1 -> listen_map (listen_remove l id) = delete id (listen_map l).
Proof.
  unfold listen_map. induction l as [|[i pcb] l IH]; [cbn; by rewrite delete_empty|].
  cbn. intros [Hn Hd]%NoDup_cons. destruct (i =? id) eqn:E; bool_to_prop.
  - subst. rewrite delete_insert_id; [done|]. by apply not_elem_of_list_to_map.
  - cbn. rewrite IH, delete_insert_ne by done. done.
Qed.

Section Listen.
Context {LC : LwipConst} {W : Type} `{!Lwip W, !Netserv W}.

(** The listen table is a finite map from socket ids to listen pcbs: with
    one entry per id, [aknet_listen_find] looks the id up (null if absent),
    [aknet_listen_del] deletes it, and [aknet_listen_add] of a new id inserts
    it, or leaves the table alone when the entry cannot be allocated; each
    keeps one entry per id. *)
Theorem listen_table_refines id pcb (s : glue W) :
  let t := aknet_listen_pcbs s in
  NoDup t.*1 ->
  aknet_listen_find id s = Done (default 0 (listen_map t !! id)) s
  /\ wp (aknet_listen_del id)
       (fun _ s' => listen_map (aknet_listen_pcbs s') = delete id (listen_map t)
                    /\ NoDup (aknet_listen_pcbs s').*1 /\ lworld s' = lworld s) s
  /\ (listen_map t !! id = None ->
     wp (aknet_listen_add id pcb)
       (fun _ s' => NoDup (aknet_listen_pcbs s').*1 /\
          listen_map (aknet_listen_pcbs s')
          = if (lmalloc_ok sizeof_listen_ent (lworld s)).1 then <[id := pcb]> (listen_map t)
            else listen_map t) s).
Proof.
  intros t Hnd. split_and!.
  - unfold aknet_listen_find, getsM. by rewrite listen_lookup_map.
  - unfold wp, aknet_listen_del, modifyM. cbn. split_and!; [by apply listen_remove_map|by apply listen_remove_nodup|done].
  - intros Hn. unfold wp, aknet_listen_add, bindM, lcall.
    destruct (lmalloc_ok _ _) as [[] w]; cbn; [|done]. split; [|done].
    constructor; [|done]. by apply not_elem_of_list_to_map.
Qed.

End Listen.

(** ** Closing a TCP socket *)

(** What the close relies on of lwIP's callback slots: [recv_on], [sent_on]
    and [err_on] tell which callbacks of a pcb are set, and setting one
    leaves the others and the pcb's state. *)
Class CallbackLaws (W : Type) `{Lwip W} (recv_on sent_on err_on : Z -> W -> bool) : Prop := {
  cb_recv c b w : recv_on c (tcp_recv c b w) = b /\ sent_on c (tcp_recv c b w) = sent_on c w
                  /\ err_on c (tcp_recv c b w) = err_on c w;
  cb_sent c b w : recv_on c (tcp_sent c b w) = recv_on c w /\ sent_on c (tcp_sent c b w) = b
                  /\ err_on c (tcp_sent c b w) = err_on c w;
  cb_err c b w : recv_on c (tcp_err c b w) = recv_on c w /\ sent_on c (tcp_err c b w) = sent_on c w
                 /\ err_on c (tcp_err c b w) = b;
  cb_arg_state c a w : tcp_state c (tcp_arg c a w) = tcp_state c w
}.

Section Close.
Context {LC : LwipConst} {W : Type} `{!Lwip W, !Netserv W}.
Context (recv_on sent_on err_on : Z -> W -> bool) `{!CallbackLaws W recv_on sent_on err_on}.

(** [aknet_tcp_close] closes quietly and always: when [tcp_close] is
    called the listen entry is gone and, unless the pcb is a listener, none
    of the three callbacks is set, so no late event reaches the socket slot;
    the pcb is aborted exactly when it cannot be closed; the call returns 0. *)
Theorem tcp_close_quiet pcb id (s : glue W) :
  exists s1, tcp_close_prepare pcb id s = Done tt s1
    /\ aknet_listen_pcbs s1 = listen_remove (aknet_listen_pcbs s) id
    /\ (tcp_state pcb (lworld s) <> LISTEN ->
        recv_on pcb (lworld s1) = false /\ sent_on pcb (lworld s1) = false
        /\ err_on pcb (lworld s1) = false)
    /\ (tcp_state pcb (lworld s) = LISTEN -> lworld s1 = tcp_arg pcb 0 (lworld s))
    /\ aknet_tcp_close pcb id s
       = Done 0 (if (tcp_close pcb s1).1 =? ERR_OK then (tcp_close pcb s1).2
                 else tcp_abort pcb (tcp_close pcb s1).2).
Proof.
  destruct (tcp_close_prepare pcb id s) as [[] s1|s1] eqn:E.
  2: { exfalso. revert E. unfold tcp_close_prepare, bindM, lget, getsM, lmod, modifyM, retM,
       aknet_listen_del, modifyM. cbn. by destruct (negb _). }
  exists s1. split; [done|].
  assert (aknet_tcp_close pcb id s
     = Done 0 (if (tcp_close pcb s1).1 =? ERR_OK then (tcp_close pcb s1).2
               else tcp_abort pcb (tcp_close pcb s1).2)) as Hclose.
  { unfold aknet_tcp_close. unfold bindM at 1. rewrite E. unfold bindM, liftM.
    destruct (tcp_close pcb s1) as [e s2]. cbn. by destruct (e =? ERR_OK). }
  revert E. unfold tcp_close_prepare, aknet_listen_del, bindM, lget, getsM, lmod, modifyM, retM.
  cbn [lworld set_listen set_lworld]. rewrite cb_arg_state.
  destruct (tcp_state pcb (lworld s) =? LISTEN) eqn:El; cbn [negb]; intros [= <-]; bool_to_prop;
    (split; [done|]); split_and!; try done; intros _; cbn.
  destruct (cb_err pcb false (tcp_sent pcb false (tcp_recv pcb false (tcp_arg pcb 0 (lworld s))))) as (-> & -> & ->).
  destruct (cb_sent pcb false (tcp_recv pcb false (tcp_arg pcb 0 (lworld s)))) as (-> & -> & _).
  by destruct (cb_recv pcb false (tcp_arg pcb 0 (lworld s))) as (-> & _).
Qed.

End Close.

(** ** Addresses *)

Section Addr.
Context {LC : LwipConst} `{!LwipConstLaws} {W : Type} `{!Lwip W, !Netserv W}.
Hypothesis set_addr_ip : forall a g (s : glue W), netif_ip4_addr (lworld (netif_set_addr a g s)) = a.
Hypothesis set_addr_gw : forall a g (s : glue W), netif_ip4_gw (lworld (netif_set_addr a g s)) = g.

(** [aknet_get_addr] is the inverse of [aknet_set_addr], as its comment says. *)
Lemma set_get_addr ip gw (s : glue W) :
  in_u32 ip -> in_u32 gw ->
  wp (aknet_set_addr ip gw ;; aknet_get_addr) (fun r _ => r = (ip, gw)) s.
Proof.
  intros Hi Hg. unfold wp, aknet_set_addr, aknet_get_addr, bindM, modifyM, lget, getsM.
  by rewrite set_addr_ip, set_addr_gw, !ntohl_htonl.
Qed.

End Addr.

(** ** Examples *)

Lemma demo_glue_wf : hq_wf demo_glue.
Proof. apply demo_books. Qed.

Lemma hairpin_output_queue_witness :
  pending demo_glue = [1; 2]
  /\ wp (aknet_output 7 (netif_ip4_addr (lworld demo_glue)))
      (fun r s' => r = ERR_OK /\ hq_wf s' /\ pending s' = pending demo_glue ++ [3]
                   /\ lworld s' = pbuf_copy 3 7 (pbuf_alloc 0 40 3 (lworld demo_glue)).2) demo_glue.
Proof.
  split; [vm_compute; reflexivity|].
  refine (proj2 (proj2 (hairpin_output_queue 7 demo_glue 3 (pbuf_alloc 0 40 3 (lworld demo_glue)).2
    demo_glue_wf _)) _ _); [vm_compute; reflexivity | vm_compute; repeat constructor | discriminate].
Defined.

(** The same state with pbuf 50 lent to a callback. *)
Definition demo_lent : glue toy :=
  let w := lworld demo_glue in
  set_lworld (Toy (t_own w) {[50]} (t_in w) (t_replies w) (t_ip w) (t_gw w) (t_cbs w) (t_st w)
                (t_close w) (t_log w)) demo_glue.

Lemma demo_lent_books : books t_own t_lent ∅ demo_lent.
Proof.
  destruct demo_books as [H1 H2 H3 H4 H5]. split; [by apply (hq_wf_same demo_glue)|done|done|done|].
  intros x Hx Ho. change (x ∈ ({[50]} : gset Z)) in Hx. apply elem_of_singleton in Hx as ->.
  change (50 ∈ t_own (lworld demo_glue)) in Ho.
  apply (bool_decide_eq_true_2 (50 ∈ t_own (lworld demo_glue))) in Ho.
  vm_compute in Ho. discriminate.
Qed.

Lemma rx_callbacks_contract_witness :
  wp (aknet_tcp_rx_cb 3 9 50 0)
    (fun r s' => (r = ERR_OK /\ 50 ∉ t_lent (lworld s') \/ r = ERR_MEM /\ 50 ∈ t_lent (lworld s'))
                 /\ advances t_in t_own t_lent ∅ demo_lent s') demo_lent.
Proof.
  refine (proj1 (rx_callbacks_contract t_in t_own t_lent ∅ 50 demo_lent demo_lent_books _ _) 3 9 0);
    [change (50 ∈ ({[50]} : gset Z)); apply elem_of_singleton; reflexivity | discriminate].
Defined.

Definition demo_listen : glue toy := set_listen [(5, 77); (2, 66)] demo_glue.

Lemma listen_table_refines_witness :
  aknet_listen_find 2 demo_listen = Done 66 demo_listen
  /\ wp (aknet_listen_del 5)
       (fun _ s' => listen_map (aknet_listen_pcbs s') = delete 5 (listen_map [(5, 77); (2, 66)])
                    /\ NoDup (aknet_listen_pcbs s').*1 /\ lworld s' = lworld demo_listen) demo_listen.
Proof.
  assert (NoDup (aknet_listen_pcbs demo_listen).*1) as Hnd
    by (apply (bool_decide_eq_true_1 (NoDup _)); vm_compute; reflexivity).
  split.
  - exact (proj1 (listen_table_refines 2 0 demo_listen Hnd)).
  - exact (proj1 (proj2 (listen_table_refines 5 0 demo_listen Hnd))).
Defined.

(** The callback slots of the small stack: the last setting of each. *)
Fixpoint cb_lookup (l : list (Z * bool)) (k : Z) : bool :=
  match l with
  | [] => false
  | (i, b) :: l' => if i =? k then b else cb_lookup l' k
  end.

#[export] Instance toy_callback_laws :
  CallbackLaws toy (fun c w => cb_lookup (t_cbs w) (3 * c)) (fun c w => cb_lookup (t_cbs w) (3 * c + 1))
    (fun c w => cb_lookup (t_cbs w) (3 * c + 2)).
Proof.
  assert (forall a b, a <> b -> (a =? b) = false) as Hne by (intros a b; apply Z.eqb_neq).
  split; intros; [split_and!..|done]; cbn [tcp_recv tcp_sent tcp_err toy_lwip toy_base toy_set_cbs t_cbs cb_lookup];
    rewrite ?Z.eqb_refl, ?Hne by lia; done.
Qed.

(** A pcb in state ESTABLISHED (4) whose close fails is aborted. *)
Definition demo_tcp : glue toy :=
  let w := lworld demo_listen in
  set_lworld (Toy (t_own w) (t_lent w) (t_in w) (t_replies w) (t_ip w) (t_gw w) [] 4 (-1) []) demo_listen.

Lemma tcp_close_quiet_witness :
  exists s1, tcp_close_prepare 9 5 demo_tcp = Done tt s1
    /\ aknet_listen_pcbs s1 = [(2, 66)]
    /\ aknet_tcp_close 9 5 demo_tcp = Done 0 (tcp_abort 9 (tcp_close 9 s1).2).
Proof.
  destruct (tcp_close_quiet (fun c w => cb_lookup (t_cbs w) (3 * c)) (fun c w => cb_lookup (t_cbs w) (3 * c + 1))
    (fun c w => cb_lookup (t_cbs w) (3 * c + 2)) 9 5 demo_tcp) as (s1 & H1 & H2 & _ & _ & H5).
  exists s1. split; [exact H1|]. split; [exact H2|]. rewrite H5.
  vm_compute in H1. injection H1 as <-. vm_compute. reflexivity.
Defined.
