(* ===== verification/DwarfPe.v ===== *)
(** * Pointer encodings of the exception tables

    [gnat/unwind-pe.h]: the LEB128 readers and the encoded pointers that the
    exception tables of a frame are made of.  Memory is a partial function
    from addresses to bytes; a read of an unmapped address is a [Fault], a
    shift of a 64-bit value by 64 or more is [Undef] (undefined in C), a call
    of [abort] is [Aborted].  Pointers to table bytes are plain integers;
    [_Unwind_Ptr] values are 64-bit. *)
From S2P Require Import Prelude CInt.

(** ** Results of code that reads memory *)

Inductive res (A : Type) : Type :=
| Ok (a : A)
| Fault (addr : Z)
| Undef
| Aborted
| Running.
Arguments Ok {A} _.
Arguments Fault {A} _.
Arguments Undef {A}.
Arguments Aborted {A}.
Arguments Running {A}.

#[export] Instance res_ret : MRet res := fun A a => Ok a.

#[export] Instance res_bind : MBind res := fun A B f c =>
  match c with
  | Ok a => f a
  | Fault x => Fault x
  | Undef => Undef
  | Aborted => Aborted
  | Running => Running
  end.

(** Run past a computation whose result is known. *)
Lemma res_bind_ok {A B} (a : A) (f : A -> res B) : (Ok a ≫= f) = f a.
Proof. done. Qed.
Tactic Notation "res_step" constr(H) := rewrite H, res_bind_ok; cbv beta iota.

Definition memory : Type := Z -> option Z.

(** [*p] for an [unsigned char *]. *)
Definition load_byte (m : memory) (p : Z) : res Z :=
  match m p with Some b => Ok b | None => Fault p end.

(** An unaligned little-endian load of [n] bytes. *)
Fixpoint load_le (m : memory) (n : nat) (p : Z) : res Z :=
  match n with
  | O => Ok 0
  | S n' => b ← load_byte m p; v ← load_le m n' (p + 1); Ok (b + 256 * v)
  end.

(** The signed reading of an [n]-byte value. *)
Definition sext (n : nat) (v : Z) : Z :=
  if v <? 2 ^ (8 * Z.of_nat n - 1) then v else v - 2 ^ (8 * Z.of_nat n).

(** ** Constants of unwind-pe.h *)

Definition DW_EH_PE_absptr : Z := 0x00.
Definition DW_EH_PE_omit : Z := 0xff.
Definition DW_EH_PE_uleb128 : Z := 0x01.
Definition DW_EH_PE_udata2 : Z := 0x02.
Definition DW_EH_PE_udata4 : Z := 0x03.
Definition DW_EH_PE_udata8 : Z := 0x04.
Definition DW_EH_PE_sleb128 : Z := 0x09.
Definition DW_EH_PE_sdata2 : Z := 0x0A.
Definition DW_EH_PE_sdata4 : Z := 0x0B.
Definition DW_EH_PE_sdata8 : Z := 0x0C.
Definition DW_EH_PE_pcrel : Z := 0x10.
Definition DW_EH_PE_textrel : Z := 0x20.
Definition DW_EH_PE_datarel : Z := 0x30.
Definition DW_EH_PE_funcrel : Z := 0x40.
Definition DW_EH_PE_aligned : Z := 0x50.
Definition DW_EH_PE_indirect : Z := 0x80.

(** ** The readers *)

Definition size_of_encoded_value (encoding : Z) : res Z :=
  if encoding =? DW_EH_PE_omit then Ok 0
  else
    let f := Z.land encoding 0x07 in
    if f =? DW_EH_PE_absptr then Ok 8
    else if f =? DW_EH_PE_udata2 then Ok 2
    else if f =? DW_EH_PE_udata4 then Ok 4
    else if f =? DW_EH_PE_udata8 then Ok 8
    else Aborted.

(** The do-while loop the two LEB128 readers share, with its [result],
    [shift], last [byte] and [p] at the end.  The shift is 0, 7, ..., 63 in
    the first ten rounds; an eleventh would shift a 64-bit value by 70. *)
Fixpoint leb128_loop (n : nat) (m : memory) (p shift result : Z)
  : res (Z * Z * Z * Z) :=
  match n with
  | O => Undef
  | S n' =>
      byte ← load_byte m p;
      let p := p + 1 in
      let result := Z.lor result (u64 (Z.shiftl (Z.land byte 0x7f) shift)) in
      let shift := shift + 7 in
      if negb (Z.land byte 0x80 =? 0)
      then leb128_loop n' m p shift result
      else Ok (result, shift, byte, p)
  end.

Definition leb_rounds : nat := 10.

(** Each reader returns the value and the advanced pointer. *)
Definition read_uleb128 (m : memory) (p : Z) : res (Z * Z) :=
  '(result, _, _, p) ← leb128_loop leb_rounds m p 0 0;
  Ok (result, p).

Definition read_sleb128 (m : memory) (p : Z) : res (Z * Z) :=
  '(result, shift, byte, p) ← leb128_loop leb_rounds m p 0 0;
  let result :=
    if (shift <? 8 * 8) && negb (Z.land byte 0x40 =? 0)
    then Z.lor result (u64 (- u64 (Z.shiftl 1 shift))) else result in
  Ok (i64 result, p).

(** The format switch: the raw value and the advanced pointer. *)
Definition read_format (m : memory) (encoding p : Z) : res (Z * Z) :=
  let f := Z.land encoding 0x0f in
  if f =? DW_EH_PE_absptr then v ← load_le m 8 p; Ok (v, p + 8)
  else if f =? DW_EH_PE_uleb128 then '(t, p) ← read_uleb128 m p; Ok (u64 t, p)
  else if f =? DW_EH_PE_sleb128 then '(t, p) ← read_sleb128 m p; Ok (u64 t, p)
  else if f =? DW_EH_PE_udata2 then v ← load_le m 2 p; Ok (v, p + 2)
  else if f =? DW_EH_PE_udata4 then v ← load_le m 4 p; Ok (v, p + 4)
  else if f =? DW_EH_PE_udata8 then v ← load_le m 8 p; Ok (v, p + 8)
  else if f =? DW_EH_PE_sdata2 then v ← load_le m 2 p; Ok (u64 (sext 2 v), p + 2)
  else if f =? DW_EH_PE_sdata4 then v ← load_le m 4 p; Ok (u64 (sext 4 v), p + 4)
  else if f =? DW_EH_PE_sdata8 then v ← load_le m 8 p; Ok (u64 (sext 8 v), p + 8)
  else Aborted.

Definition read_encoded_value_with_base (m : memory) (encoding base p : Z)
  : res (Z * Z) :=
  if encoding =? DW_EH_PE_aligned then
    let a := Z.land (u64 (p + 8 - 1)) (u64 (- 8)) in
    result ← load_le m 8 a;
    Ok (result, u64 (a + 8))
  else
    '(result, p') ← read_format m encoding p;
    if negb (result =? 0) then
      let result :=
        u64 (result + (if Z.land encoding 0x70 =? DW_EH_PE_pcrel then p else base)) in
      if negb (Z.land encoding DW_EH_PE_indirect =? 0)
      then result ← load_le m 8 result; Ok (result, p')
      else Ok (result, p')
    else Ok (result, p').

(** ** Tables in memory *)

(** The bytes [bs] are at [p]. *)
Fixpoint bytes_at (m : memory) (p : Z) (bs : list Z) : Prop :=
  match bs with
  | [] => True
  | b :: bs' => m p = Some b /\ bytes_at m (p + 1) bs'
  end.

(** The memory that holds [bs] at [p] and nothing else. *)
Definition rom (p : Z) (bs : list Z) : memory :=
  fun a => if a <? p then None else bs !! Z.to_nat (a - p).

Lemma bytes_at_app m p bs1 bs2 :
  bytes_at m p (bs1 ++ bs2) <->
  bytes_at m p bs1 /\ bytes_at m (p + Z.of_nat (length bs1)) bs2.
Proof.
  revert p. induction bs1 as [|b bs1 IH]; intros p; cbn -[Z.of_nat].
  - rewrite Z.add_0_r. naive_solver.
  - rewrite IH. replace (p + Z.of_nat (S (length bs1)))
      with (p + 1 + Z.of_nat (length bs1)) by lia. naive_solver.
Qed.

Lemma bytes_at_eq m p q bs : p = q -> bytes_at m p bs -> bytes_at m q bs.
Proof. by intros ->. Qed.

(** ** LEB128: the reference encoders *)

(** The shortest unsigned and signed encodings of DWARF. *)
Fixpoint uleb_enc (fuel : nat) (n : Z) : list Z :=
  match fuel with
  | O => []
  | S k => if n <? 128 then [n] else (n mod 128 + 128) :: uleb_enc k (n / 128)
  end.

Fixpoint sleb_enc (fuel : nat) (n : Z) : list Z :=
  match fuel with
  | O => []
  | S k => if (-64 <=? n) && (n <? 64) then [n mod 128]
           else (n mod 128 + 128) :: sleb_enc k (n / 128)
  end.

Definition uleb (n : Z) : list Z := uleb_enc leb_rounds n.
Definition sleb (n : Z) : list Z := sleb_enc leb_rounds n.

(** A LEB128 string: bytes with the continuation bit, then one without. *)
Fixpoint leb_string (bs : list Z) : Prop :=
  match bs with
  | [] => False
  | [b] => 0 <= b < 128
  | b :: bs' => 128 <= b < 256 /\ leb_string bs'
  end.

Fixpoint leb_value (bs : list Z) : Z :=
  match bs with [] => 0 | b :: bs' => b mod 128 + 128 * leb_value bs' end.

(** ** The LEB128 loop computes the value of the string *)

Lemma land_7f b : Z.land b 0x7f = b mod 128.
Proof. apply (Z.land_ones b 7). lia. Qed.

(** Facts on the bits of a byte, by evaluation over all of them. *)
Lemma byte_cases (P : Z -> bool) b :
  forallb P (seqZ 0 256) = true -> 0 <= b < 256 -> P b = true.
Proof.
  intros HP Hb. rewrite forallb_forall in HP. apply HP, list_elem_of_In, elem_of_seqZ. lia.
Qed.

Lemma land_80 b : 0 <= b < 256 -> (Z.land b 0x80 =? 0) = (b <? 128).
Proof.
  intros Hb. apply eqb_prop. by apply (byte_cases (fun b => eqb (Z.land b 0x80 =? 0) (b <? 128))).
Qed.

Lemma land_40 b : 0 <= b < 128 -> (Z.land b 0x40 =? 0) = (b <? 64).
Proof.
  intros Hb. apply eqb_prop.
  pose proof (byte_cases (fun b => eqb (Z.land b 0x40 =? 0) (b mod 128 <? 64)) b) as H.
  cbn beta in H. rewrite Z.mod_small in H by lia. by apply H; [|lia].
Qed.

(** One round: the seven bits of a byte are added at [shift], modulo 2^64. *)
Lemma leb_round acc b shift :
  0 <= shift < 64 -> 0 <= acc < 2 ^ shift ->
  Z.lor acc (u64 (Z.shiftl (Z.land b 0x7f) shift)) =
  u64 (acc + 2 ^ shift * (b mod 128)).
Proof.
  intros Hs Ha. rewrite land_7f. unfold u64.
  assert (H64 : 2 ^ 64 = 2 ^ shift * 2 ^ (64 - shift)).
  { rewrite <- Z.pow_add_r by lia. f_equal. lia. }
  assert (0 < 2 ^ shift) by lia. assert (0 < 2 ^ (64 - shift)) by lia.
  set (c := b mod 128).
  assert (Hsh : Z.shiftl c shift mod 2 ^ 64 = Z.shiftl (c mod 2 ^ (64 - shift)) shift).
  { rewrite !Z.shiftl_mul_pow2, H64, (Z.mul_comm (2 ^ shift)) by lia.
    rewrite Z.mul_mod_distr_r; lia. }
  rewrite Hsh, lor_shiftl_add by lia. rewrite H64, Z.rem_mul_r by lia.
  rewrite (Z.mul_comm (2 ^ shift) c), Z.mod_add, Z.div_add by lia.
  rewrite (Z.mod_small acc), (Z.div_small acc) by lia. rewrite Z.add_0_l. ring.
Qed.

Lemma leb_round_bound acc b shift :
  0 <= shift -> 0 <= acc < 2 ^ shift ->
  0 <= u64 (acc + 2 ^ shift * (b mod 128)) < 2 ^ (shift + 7).
Proof.
  intros Hs Ha. pose proof (Z.pow_pos_nonneg 2 shift).
  rewrite Z.pow_add_r by lia. change (2 ^ 7) with 128.
  pose proof (Z.mod_pos_bound b 128). unfold u64.
  pose proof (Z.mod_le (acc + 2 ^ shift * (b mod 128)) (2 ^ 64)).
  pose proof (Z.mod_pos_bound (acc + 2 ^ shift * (b mod 128)) (2 ^ 64)). nia.
Qed.

Lemma leb128_loop_ok n m bs p shift acc :
  leb_string bs -> (length bs <= n)%nat -> bytes_at m p bs ->
  0 <= shift -> shift + 7 * Z.of_nat n <= 70 -> 0 <= acc < 2 ^ shift -> in_u64 acc ->
  leb128_loop n m p shift acc =
  Ok (u64 (acc + 2 ^ shift * leb_value bs), shift + 7 * Z.of_nat (length bs),
      default 0 (last bs), p + Z.of_nat (length bs)).
Proof.
  revert n p shift acc. induction bs as [|b bs IH]; intros n p shift acc Hl Hn Hm Hs Hs' Ha Hu;
    [done|].
  destruct n as [|n]; [cbn in Hn; lia|]. cbn -[Z.of_nat] in Hm. destruct Hm as [Hb Hm].
  cbn -[Z.of_nat leb_value Z.add Z.land Z.pow]. unfold load_byte at 1. rewrite Hb.
  cbn -[Z.of_nat leb_value Z.add Z.land Z.pow].
  assert (Hbr : 0 <= b < 256) by (destruct bs; cbn in Hl; lia).
  rewrite leb_round, land_80 by lia.
  destruct bs as [|b' bs].
  - cbn in Hl. rewrite (proj2 (Z.ltb_lt b 128)) by lia.
    cbn -[Z.pow Z.add Z.mul]. rewrite Z.mul_0_r, Z.add_0_r.
    repeat (f_equal; try lia).
  - destruct Hl as [Hb1 Hl]. rewrite (proj2 (Z.ltb_ge b 128)) by lia.
    rewrite IH; [|done|cbn in Hn |- *; lia|done|lia|lia|by apply leb_round_bound; lia|auto with aegir].
    change (default 0 (last (b :: b' :: bs))) with (default 0 (last (b' :: bs))).
    change (leb_value (b :: b' :: bs)) with (b mod 128 + 128 * leb_value (b' :: bs)).
    rewrite !length_cons, (Z.pow_add_r 2 shift 7) by lia. change (2 ^ 7) with 128.
    unfold u64. rewrite Z.add_mod_idemp_l by lia.
    repeat (f_equal; try lia).
Qed.

(** ** LEB128 round trips *)

(** The value of a signed string: bit 6 of its last byte is the sign. *)
Definition sleb_value (bs : list Z) : Z :=
  leb_value bs - (if 64 <=? default 0 (last bs) then 2 ^ (7 * Z.of_nat (length bs)) else 0).

Lemma leb_value_range bs :
  leb_string bs -> 0 <= leb_value bs < 2 ^ (7 * Z.of_nat (length bs)).
Proof.
  induction bs as [|b bs IH]; intros Hl; [done|].
  assert (E : 2 ^ (7 * Z.of_nat (length (b :: bs))) = 128 * 2 ^ (7 * Z.of_nat (length bs))).
  { change 128 with (2 ^ 7). rewrite <- Z.pow_add_r by lia. f_equal. cbn -[Z.of_nat]. lia. }
  rewrite E. cbn [leb_value]. pose proof (Z.mod_pos_bound b 128).
  destruct bs as [|b' bs]; [cbn; lia|]. destruct Hl as [_ Hl]. specialize (IH Hl). lia.
Qed.

Lemma leb_last_range bs : leb_string bs -> 0 <= default 0 (last bs) < 128.
Proof.
  induction bs as [|b [|b' bs] IH]; intros Hl; [done|by cbn in *|].
  change (last (b :: b' :: bs)) with (last (b' :: bs)). apply IH, Hl.
Qed.

Lemma read_uleb128_ok m p bs :
  leb_string bs -> (length bs <= leb_rounds)%nat -> bytes_at m p bs ->
  read_uleb128 m p = Ok (u64 (leb_value bs), p + Z.of_nat (length bs)).
Proof.
  intros Hl Hn Hm. unfold read_uleb128.
  rewrite (leb128_loop_ok _ _ bs) by (first [done | cbn; lia | int_lia]).
  cbn -[u64 leb_value Z.of_nat]. by rewrite Z.mul_1_l.
Qed.

Lemma read_sleb128_ok m p bs :
  leb_string bs -> (length bs <= leb_rounds)%nat -> bytes_at m p bs ->
  read_sleb128 m p = Ok (i64 (sleb_value bs), p + Z.of_nat (length bs)).
Proof.
  intros Hl Hn Hm. unfold read_sleb128.
  rewrite (leb128_loop_ok _ _ bs) by (first [done | cbn; lia | int_lia]).
  pose proof (leb_value_range bs Hl) as Hv. pose proof (leb_last_range bs Hl) as Hb.
  cbn -[u64 i64 leb_value sleb_value Z.of_nat Z.mul Z.land Z.ltb]. rewrite Z.mul_1_l, Z.add_0_l.
  rewrite land_40 by done. unfold sleb_value. set (s := 7 * Z.of_nat (length bs)) in *.
  set (v := leb_value bs) in *. set (b := default 0 (last bs)) in *.
  f_equal. f_equal. rewrite <- Z.leb_antisym.
  destruct (64 <=? b) eqn:Eb; [|rewrite andb_false_r, Z.sub_0_r; int_lia].
  rewrite andb_true_r. change (8 * 8) with 64. destruct (s <? 64) eqn:Es; bool_to_prop.
  - assert (H64 : 2 ^ 64 = 2 ^ s * 2 ^ (64 - s)) by (rewrite <- Z.pow_add_r by lia; f_equal; lia).
    assert (0 < 2 ^ s) by lia. assert (1 < 2 ^ (64 - s)) by (apply Z.pow_gt_1; lia).
    unfold u64. rewrite Z.shiftl_1_l, (Z.mod_small (2 ^ s)), (Z.mod_small v) by nia.
    replace (- 2 ^ s) with ((2 ^ (64 - s) - 1) * 2 ^ s + (-1) * 2 ^ 64) by nia.
    rewrite Z.mod_add, (Z.mod_small (_ * _)), <- Z.shiftl_mul_pow2, lor_shiftl_add by nia.
    unfold i64. f_equal. 
    replace (v + (2 ^ (64 - s) - 1) * 2 ^ s + 2 ^ 63)
      with (v - 2 ^ s + 2 ^ 63 + 1 * 2 ^ 64) by (rewrite H64; ring).
    by rewrite Z.mod_add.
  - assert (H64 : 2 ^ s = 2 ^ (s - 64) * 2 ^ 64) by (rewrite <- Z.pow_add_r by lia; f_equal; lia).
    rewrite H64. unfold i64, u64. f_equal.
    replace (v - 2 ^ (s - 64) * 2 ^ 64 + 2 ^ 63)
      with (v + 2 ^ 63 + - 2 ^ (s - 64) * 2 ^ 64) by ring.
    by rewrite Z.mod_add, Z.add_mod_idemp_l.
Qed.

Lemma uleb_enc_string k n :
  0 <= n < 128 * 128 ^ Z.of_nat k ->
  leb_string (uleb_enc (S k) n) /\ leb_value (uleb_enc (S k) n) = n.
Proof.
  revert n. induction k as [|k IH]; intros n Hn; cbn [uleb_enc];
    (destruct (n <? 128) eqn:E; bool_to_prop;
     [cbn -[Z.modulo]; rewrite Z.mod_small; lia|]).
  { cbn in Hn; lia. }
  rewrite Nat2Z.inj_succ, Z.pow_succ_r in Hn by lia.
  destruct (IH (n / 128)) as [Hs Hv]; [zlia|]. cbn [uleb_enc] in Hs, Hv.
  set (l := if _ : bool then _ else _) in *. clearbody l.
  split; [|cbn [leb_value]; rewrite Hv; zlia].
  destruct l; [done|]. split; [zlia|done].
Qed.

Lemma uleb_enc_length k n : (length (uleb_enc k n) <= k)%nat.
Proof.
  revert n. induction k as [|k IH]; intros n; cbn; [lia|].
  destruct (_ <? _); cbn; [lia|]. specialize (IH (n / 128)). lia.
Qed.

Lemma sleb_enc_length k n : (length (sleb_enc k n) <= k)%nat.
Proof.
  revert n. induction k as [|k IH]; intros n; cbn; [lia|].
  destruct (_ && _); cbn; [lia|]. specialize (IH (n / 128)). lia.
Qed.

Lemma sleb_enc_string k n :
  -64 * 128 ^ Z.of_nat k <= n < 64 * 128 ^ Z.of_nat k ->
  leb_string (sleb_enc (S k) n) /\ sleb_value (sleb_enc (S k) n) = n.
Proof.
  revert n. induction k as [|k IH]; intros n Hn; cbn [sleb_enc];
    (destruct ((-64 <=? n) && (n <? 64)) eqn:E;
     [ bool_to_prop; split; [cbn; zlia|]; unfold sleb_value; cbn -[Z.leb];
       destruct (64 <=? _) eqn:E'; bool_to_prop; zlia |]).
  { cbn in Hn. apply andb_false_iff in E as [E|E]; bool_to_prop; lia. }
  rewrite Nat2Z.inj_succ, Z.pow_succ_r in Hn by lia.
  destruct (IH (n / 128)) as [Hs Hv]; [zlia|]. cbn [sleb_enc] in Hs, Hv.
  set (l := if _ : bool then _ else _) in *. clearbody l.
  split.
  - destruct l; [done|]. split; [zlia|done].
  - destruct l as [|b l]; [done|]. unfold sleb_value in *. cbn [leb_value].
    change (last (n mod 128 + 128 :: b :: l)) with (last (b :: l)).
    cbn [leb_value] in Hv. rewrite (length_cons _ (b :: l)), Nat2Z.inj_succ.
    rewrite Z.mul_succ_r, Z.pow_add_r by lia. change (2 ^ 7) with 128.
    destruct (64 <=? _); zlia.
Qed.

Lemma uleb_string n :
  in_u64 n -> leb_string (uleb n) /\ leb_value (uleb n) = n.
Proof. intros Hn. apply (uleb_enc_string 9). cbn. int_lia. Qed.

Lemma sleb_string n :
  - 2 ^ 63 <= n < 2 ^ 63 -> leb_string (sleb n) /\ sleb_value (sleb n) = n.
Proof. intros Hn. apply (sleb_enc_string 9). cbn. int_lia. Qed.

Lemma read_uleb128_enc m p n :
  in_u64 n -> bytes_at m p (uleb n) ->
  read_uleb128 m p = Ok (n, p + Z.of_nat (length (uleb n))).
Proof.
  intros Hn Hm. destruct (uleb_string n Hn) as [Hs Hv].
  rewrite (read_uleb128_ok _ _ (uleb n)), Hv, u64_id by (done || apply uleb_enc_length). done.
Qed.

Lemma read_sleb128_enc m p n :
  - 2 ^ 63 <= n < 2 ^ 63 -> bytes_at m p (sleb n) ->
  read_sleb128 m p = Ok (n, p + Z.of_nat (length (sleb n))).
Proof.
  intros Hn Hm. destruct (sleb_string n Hn) as [Hs Hv].
  rewrite (read_sleb128_ok _ _ (sleb n)), Hv, i64_id by (done || apply sleb_enc_length). done.
Qed.

(** C37. The LEB128 readers invert the DWARF encoders: from the unsigned
    (signed) encoding of any 64-bit value in memory, [read_uleb128]
    ([read_sleb128]) returns that value and the address just past it, without
    a fault and without an undefined shift. *)
Theorem leb128_roundtrip m p n :
  (in_u64 n -> bytes_at m p (uleb n) ->
   read_uleb128 m p = Ok (n, p + Z.of_nat (length (uleb n)))) /\
  (- 2 ^ 63 <= n < 2 ^ 63 -> bytes_at m p (sleb n) ->
   read_sleb128 m p = Ok (n, p + Z.of_nat (length (sleb n)))).
Proof. split; [apply read_uleb128_enc | apply read_sleb128_enc]. Qed.

Lemma leb128_roundtrip_witness :
  (in_u64 624485 /\ uleb 624485 = [0xE5; 0x8E; 0x26] /\
   read_uleb128 (rom 64 (uleb 624485)) 64 = Ok (624485, 67)) /\
  sleb (- 2 ^ 63) = [128; 128; 128; 128; 128; 128; 128; 128; 128; 127] /\
  read_sleb128 (rom 64 (sleb (- 2 ^ 63))) 64 = Ok (- 2 ^ 63, 74).
Proof.
  split; [|split; [reflexivity|]].
  - split; [unfold in_u64; lia|]. split; [reflexivity|].
    apply (proj1 (leb128_roundtrip (rom 64 (uleb 624485)) 64 624485)); [unfold in_u64; lia|].
    vm_compute. tauto.
  - apply (proj2 (leb128_roundtrip (rom 64 (sleb (- 2 ^ 63))) 64 (- 2 ^ 63))); [lia|].
    vm_compute. tauto.
Defined.

(** ** Encoded pointers *)

Fixpoint le_bytes (n : nat) (v : Z) : list Z :=
  match n with O => [] | S n' => v mod 256 :: le_bytes n' (v / 256) end.

(** The formats an encoding byte selects, and the values each can hold. *)
Definition encode_value (encoding v : Z) : list Z :=
  let f := Z.land encoding 0x0f in
  if f =? DW_EH_PE_uleb128 then uleb v
  else if f =? DW_EH_PE_sleb128 then sleb v
  else if (f =? DW_EH_PE_udata2) || (f =? DW_EH_PE_sdata2) then le_bytes 2 v
  else if (f =? DW_EH_PE_udata4) || (f =? DW_EH_PE_sdata4) then le_bytes 4 v
  else le_bytes 8 v.

Definition fits (encoding v : Z) : bool :=
  let f := Z.land encoding 0x0f in
  if f =? DW_EH_PE_udata2 then (0 <=? v) && (v <? 2 ^ 16)
  else if f =? DW_EH_PE_udata4 then (0 <=? v) && (v <? 2 ^ 32)
  else if f =? DW_EH_PE_sdata2 then (- 2 ^ 15 <=? v) && (v <? 2 ^ 15)
  else if f =? DW_EH_PE_sdata4 then (- 2 ^ 31 <=? v) && (v <? 2 ^ 31)
  else if (f =? DW_EH_PE_sdata8) || (f =? DW_EH_PE_sleb128)
  then (- 2 ^ 63 <=? v) && (v <? 2 ^ 63)
  else if (f =? DW_EH_PE_absptr) || (f =? DW_EH_PE_uleb128) || (f =? DW_EH_PE_udata8)
  then (0 <=? v) && (v <? 2 ^ 64)
  else false.

Lemma le_bytes_length n v : length (le_bytes n v) = n.
Proof. revert v. induction n; intros; cbn; auto. Qed.

Lemma load_le_bytes m n p v :
  bytes_at m p (le_bytes n v) -> load_le m n p = Ok (v mod 256 ^ Z.of_nat n).
Proof.
  revert p v. induction n as [|n IH]; intros p v Hm; [by rewrite Z.mod_1_r|].
  cbn [le_bytes bytes_at load_le] in *. destruct Hm as [Hb Hm].
  unfold load_byte. rewrite Hb. cbn -[Z.of_nat Z.modulo Z.div Z.mul Z.add Z.pow].
  rewrite (IH _ _ Hm). cbn -[Z.of_nat Z.modulo Z.div Z.mul Z.add Z.pow].
  rewrite Nat2Z.inj_succ, Z.pow_succ_r, Z.rem_mul_r by lia. f_equal.
Qed.

Lemma sext_signed n v :
  (0 < n)%nat -> - 2 ^ (8 * Z.of_nat n - 1) <= v < 2 ^ (8 * Z.of_nat n - 1) ->
  sext n (v mod 256 ^ Z.of_nat n) = v.
Proof.
  intros Hn Hv. change 256 with (2 ^ 8). rewrite <- Z.pow_mul_r by lia. unfold sext.
  assert (E : 2 ^ (8 * Z.of_nat n) = 2 * 2 ^ (8 * Z.of_nat n - 1)).
  { rewrite <- Z.pow_succ_r by lia. f_equal. lia. }
  rewrite E. set (h := 2 ^ (8 * Z.of_nat n - 1)) in *.
  destruct (decide (0 <= v)).
  - rewrite Z.mod_small by lia. by rewrite (proj2 (Z.ltb_lt _ _)) by lia.
  - rewrite <- (Z.mod_add v 1), Z.mod_small by lia.
    rewrite (proj2 (Z.ltb_ge _ _)) by lia. lia.
Qed.

Lemma encoding_format encoding : 0 <= Z.land encoding 0x0f < 16.
Proof. change 0x0f with (Z.ones 4). rewrite Z.land_ones by lia. zlia. Qed.

(** The sixteen formats, as literals. *)
Lemma format_cases f (P : Z -> Prop) :
  P 0 -> P 1 -> P 2 -> P 3 -> P 4 -> P 5 -> P 6 -> P 7 -> P 8 -> P 9 -> P 10 ->
  P 11 -> P 12 -> P 13 -> P 14 -> P 15 -> 0 <= f < 16 -> P f.
Proof.
  intros. destruct f as [|p|p]; [done| |lia].
  do 4 (destruct p as [p|p|]; try done; try lia).
Qed.

(** Evaluate the format switches once the format is a literal. *)
Ltac format_eval :=
  cbv beta iota zeta delta [Z.eqb Pos.eqb orb Z.land Pos.land Pos.Nsucc_double Pos.Ndouble
    Z.of_N DW_EH_PE_absptr DW_EH_PE_uleb128 DW_EH_PE_udata2 DW_EH_PE_udata4
    DW_EH_PE_udata8 DW_EH_PE_sleb128 DW_EH_PE_sdata2 DW_EH_PE_sdata4 DW_EH_PE_sdata8].

Lemma load_le_unsigned m n p v (k : Z) :
  bytes_at m p (le_bytes n v) -> 0 <= v < 256 ^ Z.of_nat n -> (n <= 8)%nat -> k = Z.of_nat n ->
  (v ← load_le m n p; Ok (v, p + k)) = Ok (u64 v, p + Z.of_nat (length (le_bytes n v))).
Proof.
  intros Hm Hv Hn ->. rewrite (load_le_bytes _ _ _ v Hm), Z.mod_small by done.
  rewrite le_bytes_length. cbn -[Z.of_nat]. rewrite u64_id; [done|].
  unfold in_u64. change 18446744073709551616 with (256 ^ Z.of_nat 8).
  pose proof (Z.pow_le_mono_r 256 (Z.of_nat n) (Z.of_nat 8)). lia.
Qed.

Lemma load_le_signed m n p v (k : Z) :
  bytes_at m p (le_bytes n v) ->
  - 2 ^ (8 * Z.of_nat n - 1) <= v < 2 ^ (8 * Z.of_nat n - 1) -> (0 < n)%nat -> k = Z.of_nat n ->
  (v ← load_le m n p; Ok (u64 (sext n v), p + k)) =
  Ok (u64 v, p + Z.of_nat (length (le_bytes n v))).
Proof.
  intros Hm Hv Hn ->. rewrite (load_le_bytes _ _ _ v Hm), le_bytes_length.
  cbn -[Z.of_nat sext Z.modulo Z.pow]. by rewrite sext_signed.
Qed.

Lemma read_format_ok m encoding p v :
  fits encoding v = true -> bytes_at m p (encode_value encoding v) ->
  read_format m encoding p = Ok (u64 v, p + Z.of_nat (length (encode_value encoding v))).
Proof.
  unfold fits, read_format, encode_value. generalize (encoding_format encoding).
  generalize (Z.land encoding 0x0f). intros f Hr. pattern f. revert Hr.
  apply format_cases; format_eval; intros Hf Hm; try discriminate Hf; bool_to_prop;
    try (apply load_le_unsigned; [done | cbn in *; lia | lia | done]);
    try (apply load_le_signed; [done | cbn in *; lia | lia | done]).
  - by rewrite (read_uleb128_enc _ _ v) by (done || int_lia).
  - by rewrite (read_sleb128_enc _ _ v) by (done || int_lia).
Qed.

Lemma fits_range encoding v : fits encoding v = true -> - 2 ^ 63 <= v < 2 ^ 64.
Proof.
  unfold fits. intros H.
  repeat match type of H with (if ?b then _ else _) = _ => destruct b end;
    try done; bool_to_prop; lia.
Qed.

Lemma read_encoded_direct m encoding base p v :
  encoding <> DW_EH_PE_aligned -> Z.land encoding DW_EH_PE_indirect = 0 ->
  fits encoding v = true -> bytes_at m p (encode_value encoding v) ->
  read_encoded_value_with_base m encoding base p =
  Ok (if v =? 0 then 0
      else u64 (v + if Z.land encoding 0x70 =? DW_EH_PE_pcrel then p else base),
      p + Z.of_nat (length (encode_value encoding v))).
Proof.
  intros Ha Hi Hf Hm. unfold read_encoded_value_with_base.
  rewrite (proj2 (Z.eqb_neq _ _) Ha), (read_format_ok _ _ _ v) by done.
  pose proof (fits_range _ _ Hf). cbn -[Z.of_nat encode_value u64 Z.land Z.eqb Z.add].
  assert (E : (u64 v =? 0) = (v =? 0)).
  { destruct (Z.eqb_spec v 0) as [->|]; [done|]. apply Z.eqb_neq. int_lia. }
  rewrite E. destruct (v =? 0) eqn:Ev; cbn -[Z.of_nat encode_value u64 Z.land Z.eqb Z.add].
  - bool_to_prop. by subst v.
  - rewrite Hi. cbn -[Z.of_nat encode_value u64 Z.land Z.eqb Z.add].
    unfold u64. by rewrite Z.add_mod_idemp_l.
Qed.

(** [read_encoded_value_with_base] decodes what the assembler emits: for
    every direct encoding (absolute, pc-relative or relative to a base) and
    every displacement its format can hold, the bytes of the displacement
    yield null for a zero displacement and otherwise base plus displacement
    modulo 2^64, where the base of a pc-relative value is the address of its
    own first byte, and the pointer is left just past the value. *)
Theorem encoded_value_roundtrip m encoding base p v :
  encoding <> DW_EH_PE_aligned -> Z.land encoding DW_EH_PE_indirect = 0 ->
  fits encoding v = true -> bytes_at m p (encode_value encoding v) ->
  read_encoded_value_with_base m encoding base p =
  Ok (if v =? 0 then 0
      else u64 (v + if Z.land encoding 0x70 =? DW_EH_PE_pcrel then p else base),
      p + Z.of_nat (length (encode_value encoding v))).
Proof. apply read_encoded_direct. Qed.

Lemma encoded_value_roundtrip_witness :
  encode_value 0x1b (-0x2000) = [0x00; 0xE0; 0xFF; 0xFF] /\
  read_encoded_value_with_base (rom 0x10000 (encode_value 0x1b (-0x2000))) 0x1b 0 0x10000 =
  Ok (0xE000, 0x10004).
Proof.
  split; [reflexivity|].
  rewrite (encoded_value_roundtrip _ 0x1b 0 0x10000 (-0x2000)).
  - reflexivity.
  - discriminate.
  - reflexivity.
  - reflexivity.
  - vm_compute. tauto.
Defined.
