(* ===== verification/Personality.v ===== *)
(** * The Ada personality routine

    [gnat/raise-gcc.c] as it is built for riscv64: table-driven (DWARF)
    unwinding, [GXX_EH_INTEROP] on, no ARM or CHERI variant, the [db_*]
    traces compiled out ([inhibit_libc]).

    Three interfaces stand for code that is not in the repository or is
    written in Ada: [Unwinder], libgcc's view of a frame and the constants of
    its [unwind.h]; [AdaRts], the exports of the Ada run time the routine
    imports; and [Propagation], the entry points of libgcc that start an
    unwind.  [C] is an unwind context, [W] the state of the Ada run time. *)
From S2P Require Import Prelude CInt DwarfPe.

(** ** Interfaces *)

(** [_Unwind_Reason_Code] of unwind.h, the values this file uses. *)
Inductive reason_code :=
| URC_NO_REASON
| URC_FATAL_PHASE1_ERROR
| URC_HANDLER_FOUND
| URC_INSTALL_CONTEXT
| URC_CONTINUE_UNWIND.

#[export] Instance reason_code_eq_dec : EqDecision reason_code.
Proof. solve_decision. Defined.

Class Unwinder (C : Type) := {
  UA_SEARCH_PHASE : Z;
  UA_FORCE_UNWIND : Z;
  UA_END_OF_STACK : Z;
  uexc_size : Z;        (* sizeof (_Unwind_Exception) *)
  uexc_class_off : Z;   (* offset of its exception_class *)
  eh_return_data_regno : Z -> Z;
  Unwind_GetIPInfo : C -> Z * Z;
  Unwind_GetLanguageSpecificData : C -> Z;
  Unwind_GetRegionStart : C -> Z;
  Unwind_GetTextRelBase : C -> Z;
  Unwind_GetDataRelBase : C -> Z;
  Unwind_SetGR : Z -> Z -> C -> C;
  Unwind_SetIP : Z -> C -> C
}.

Class AdaRts (W : Type) := {
  GNAT_OTHERS : Z;
  GNAT_ALL_OTHERS : Z;
  GNAT_UNHANDLED_OTHERS : Z;
  Foreign_Exception : Z;
  EID_For : W -> Z -> Z;
  Is_Handled_By_Others : W -> Z -> bool;
  Language_For : W -> Z -> Z;
  Foreign_Data_For : W -> Z -> Z;
  (* choice type, exception type, thrown object, language: the answer and
     the adjusted object *)
  convert_caught_object : W -> Z -> Z -> Z -> Z -> bool * Z;
  setup_current_excep : Z -> Z -> Z -> W -> Z * W;
  notify_handled_exception : Z -> W -> W;
  notify_unhandled_exception : Z -> W -> W;
  unhandled_except_handler : Z -> W -> W
}.

Class Propagation (W : Type) := {
  Unwind_RaiseException : Z -> W -> reason_code * W;
  Unwind_ForcedUnwind : Z -> Z -> Z -> W -> reason_code * W
}.

(** ** Constants and types of raise-gcc.c *)

Definition CXX_EXCEPTION_CLASS : Z := 0x474e5543432b2b00.
Definition CXX_DEPENDENT_EXCEPTION_CLASS : Z := 0x474e5543432b2b01.
Definition GNAT_EXCEPTION_CLASS : Z := 0x474e552d41646100.

Record region_descriptor := Region {
  rg_base : Z; rg_lsda : Z;
  rg_call_site_encoding : Z; rg_call_site_table : Z;
  rg_lp_base : Z; rg_action_table : Z;
  rg_ttype_encoding : Z; rg_ttype_table : Z; rg_ttype_base : Z }.

(** [unknown] is [kind_unknown], and so on. *)
Inductive action_kind :=
| kind_unknown | kind_nothing | kind_cleanup | kind_handler | kind_unhandler.

#[export] Instance action_kind_eq_dec : EqDecision action_kind.
Proof. solve_decision. Defined.

Definition cleanup_filter : Z := 0.

Record action_descriptor := Action {
  ac_kind : action_kind; ac_table_entry : Z;
  ac_landing_pad : Z; ac_ttype_filter : Z }.

Definition ac_with_kind (k : action_kind) (a : action_descriptor) : action_descriptor :=
  Action k (ac_table_entry a) (ac_landing_pad a) (ac_ttype_filter a).
Definition ac_with_filter (k : action_kind) (f : Z) (a : action_descriptor)
  : action_descriptor := Action k (ac_table_entry a) (ac_landing_pad a) f.

(** [if (phases & flag)] *)
Definition has_phase (phases flag : Z) : bool := negb (Z.land phases flag =? 0).

Section personality.
Context {C W : Type} `{!Unwinder C} `{!AdaRts W}.
Variable m : memory.

(** The remaining two functions of unwind-pe.h; a null context is [None]. *)
Definition base_of_encoded_value (encoding : Z) (context : option C) : res Z :=
  if encoding =? DW_EH_PE_omit then Ok 0
  else
    let from (get : C -> Z) : res Z :=
      match context with Some c => Ok (get c) | None => Fault 0 end in
    let a := Z.land encoding 0x70 in
    if (a =? DW_EH_PE_absptr) || (a =? DW_EH_PE_pcrel) || (a =? DW_EH_PE_aligned)
    then Ok 0
    else if a =? DW_EH_PE_textrel then from Unwind_GetTextRelBase
    else if a =? DW_EH_PE_datarel then from Unwind_GetDataRelBase
    else if a =? DW_EH_PE_funcrel then from Unwind_GetRegionStart
    else Aborted.

Definition read_encoded_value (context : option C) (encoding p : Z) : res (Z * Z) :=
  base ← base_of_encoded_value encoding context;
  read_encoded_value_with_base m encoding base p.

Definition get_ip_from_context (uw_context : C) : Z :=
  let '(ip, ip_before_insn) := Unwind_GetIPInfo uw_context in
  if ip_before_insn =? 0 then u64 (ip - 1) else ip.

Definition get_ttype_entry_for (region : region_descriptor) (filter : Z) : res Z :=
  size ← size_of_encoded_value (rg_ttype_encoding region);
  let filter := i64 (filter * size) in
  '(ttype_entry, _) ←
    read_encoded_value_with_base m (rg_ttype_encoding region) (rg_ttype_base region)
      (u64 (rg_ttype_table region - filter));
  Ok ttype_entry.

(** [None]: no language specific data ([region->lsda == 0], the other fields
    are not set). *)
Definition get_region_description_for (uw_context : option C)
  : res (option region_descriptor) :=
  match uw_context with
  | None => Ok None
  | Some c =>
    let lsda := Unwind_GetLanguageSpecificData c in
    if lsda =? 0 then Ok None else
    let p := lsda in
    let base := Unwind_GetRegionStart c in
    lpbase_encoding ← load_byte m p;
    let p := p + 1 in
    '(lp_base, p) ← (if negb (lpbase_encoding =? DW_EH_PE_omit)
                     then read_encoded_value (Some c) lpbase_encoding p
                     else Ok (base, p));
    ttype_encoding ← load_byte m p;
    let p := p + 1 in
    '(ttype_table, p) ← (if negb (ttype_encoding =? DW_EH_PE_omit)
                         then '(tmp, p) ← read_uleb128 m p; Ok (u64 (p + tmp), p)
                         else Ok (0, p));
    ttype_base ← base_of_encoded_value ttype_encoding (Some c);
    call_site_encoding ← load_byte m p;
    let p := p + 1 in
    '(tmp, call_site_table) ← read_uleb128 m p;
    Ok (Some (Region base lsda call_site_encoding call_site_table lp_base
                (u64 (call_site_table + tmp)) ttype_encoding ttype_table ttype_base))
  end.

(** The while loop of [get_call_site_action_for] from [p]. *)
Fixpoint call_site_loop (fuel : nat) (ip : Z) (region : region_descriptor)
    (action : action_descriptor) (p : Z) : res action_descriptor :=
  match fuel with
  | O => Running
  | S fuel =>
    if negb (p <? rg_action_table region) then Ok action else
    '(cs_start, p) ← read_encoded_value None (rg_call_site_encoding region) p;
    '(cs_len, p) ← read_encoded_value None (rg_call_site_encoding region) p;
    '(cs_lp, p) ← read_encoded_value None (rg_call_site_encoding region) p;
    '(cs_action, p) ← read_uleb128 m p;
    if ip <? u64 (rg_base region + cs_start) then Ok action
    else if ip <? u64 (rg_base region + cs_start + cs_len) then
      Ok (Action kind_unknown
            (if negb (cs_action =? 0)
             then u64 (rg_action_table region + cs_action - 1) else 0)
            (if negb (cs_lp =? 0) then u64 (rg_lp_base region + cs_lp) else 0)
            (ac_ttype_filter action))
    else call_site_loop fuel ip region action p
  end.

Definition get_call_site_action_for (fuel : nat) (ip : Z) (region : region_descriptor)
    (action : action_descriptor) : res action_descriptor :=
  call_site_loop fuel ip region (ac_with_kind kind_nothing action)
    (rg_call_site_table region).

(** ** Exception objects *)

(** [struct __cxa_exception]: eighty bytes of fields before the header; its
    first field is the type or the primary exception. *)
Definition cxa_unwindHeader : Z := 80.
Definition cxa_size : Z := cxa_unwindHeader + uexc_size.

Definition exception_class_eq (except ec : Z) : res bool :=
  c ← load_le m 8 (u64 (except + uexc_class_off));
  Ok (c =? ec).

Definition gnat_exception_language_is_cplusplus (except : Z) : res bool :=
  b ← exception_class_eq except CXX_EXCEPTION_CLASS;
  if b : bool then Ok true else exception_class_eq except CXX_DEPENDENT_EXCEPTION_CLASS.

Definition gnat_exception_language_is_ada (except : Z) : res bool :=
  exception_class_eq except GNAT_EXCEPTION_CLASS.

(** Each of the two returns the new [*thrown_ptr_p]. *)
Definition gnat_get_cxx_dependent_exception (thrown_ptr : Z) : res Z :=
  load_le m 8 (u64 (thrown_ptr - cxa_size)).

Definition gnat_maybe_get_cxx_dependent_exception (thrown_ptr : Z) : res Z :=
  dependent ← exception_class_eq (u64 (thrown_ptr - uexc_size))
                CXX_DEPENDENT_EXCEPTION_CLASS;
  if dependent : bool then gnat_get_cxx_dependent_exception thrown_ptr else Ok thrown_ptr.

Definition gnat_get_cxx_exception_type_info (unwind_exception : Z) : res Z :=
  thrown_ptr ← gnat_maybe_get_cxx_dependent_exception (u64 (unwind_exception + uexc_size));
  let cxa_xcpt := u64 (thrown_ptr - cxa_size) in
  is_cxx ← exception_class_eq (u64 (cxa_xcpt + cxa_unwindHeader)) CXX_EXCEPTION_CLASS;
  if negb is_cxx then Ok 0 else load_le m 8 cxa_xcpt.

(** The success flag and the object; the caller's null out-pointers are not
    modelled: both results are always computed. *)
Definition gnat_obtain_caught_object (w : W) (choice_typeinfo lang unwind_exception : Z)
  : res (bool * Z) :=
  thrown_ptr ← gnat_maybe_get_cxx_dependent_exception (u64 (unwind_exception + uexc_size));
  '(success, thrown_ptr) ←
    (if lang =? 65 then Ok (true, thrown_ptr)
     else if (lang =? 66) || (lang =? 67) then
       except_typeinfo ← load_le m 8 (u64 (thrown_ptr - cxa_size));
       Ok (convert_caught_object w choice_typeinfo except_typeinfo thrown_ptr lang)
     else Ok (false, thrown_ptr));
  Ok (success, if success : bool then thrown_ptr else 0).

(** How [choice] matches the exception, and [*eid]. *)
Definition is_handled_by (w : W) (choice eid propagated_exception : Z)
  : res (action_kind * Z) :=
  if choice =? GNAT_ALL_OTHERS then Ok (kind_handler, eid) else
  is_gnat ← exception_class_eq propagated_exception GNAT_EXCEPTION_CLASS;
  if is_gnat : bool then
    if choice =? GNAT_UNHANDLED_OTHERS then Ok (kind_unhandler, eid) else
    let E := EID_For w propagated_exception in
    if (choice =? E) || ((choice =? GNAT_OTHERS) && Is_Handled_By_Others w E)
    then Ok (kind_handler, eid)
    else Ok (kind_nothing, eid)
  else if (choice =? GNAT_ALL_OTHERS) || (choice =? GNAT_OTHERS)
          || (choice =? Foreign_Exception)
  then Ok (kind_handler, eid)
  else
    primary ← exception_class_eq propagated_exception CXX_EXCEPTION_CLASS;
    cxx ← (if primary : bool then Ok true
           else exception_class_eq propagated_exception CXX_DEPENDENT_EXCEPTION_CLASS);
    if cxx && ((Language_For w choice =? 67) || (Language_For w choice =? 66)) then
      let lang := Language_For w choice in
      let choice_typeinfo := Foreign_Data_For w choice in
      let thrown_ptr := u64 (propagated_exception + uexc_size) in
      thrown_ptr ← (if negb primary then gnat_get_cxx_dependent_exception thrown_ptr
                    else Ok thrown_ptr);
      except_typeinfo ← load_le m 8 (u64 (thrown_ptr - cxa_size));
      if (convert_caught_object w choice_typeinfo except_typeinfo thrown_ptr lang).1
      then Ok (kind_handler, choice)
      else Ok (kind_nothing, eid)
    else Ok (kind_nothing, eid).

(** ** Actions *)

(** The [while (1)] loop of [get_action_description_for] over the records of
    an action list, from the record at [p]. *)
Fixpoint action_loop (fuel : nat) (w : W) (uw_exception uw_phase eid : Z)
    (region : region_descriptor) (action : action_descriptor) (p : Z)
  : res (action_descriptor * Z) :=
  match fuel with
  | O => Running
  | S fuel =>
    '(ar_filter, p) ← read_sleb128 m p;
    '(ar_disp, _) ← read_sleb128 m p;
    '(act, eid) ←
      (if (ar_filter =? cleanup_filter) || negb (0 <? ar_filter)
          || has_phase uw_phase UA_FORCE_UNWIND
       then Ok (kind_nothing, eid)
       else choice ← get_ttype_entry_for region ar_filter;
            is_handled_by w choice eid uw_exception);
    if negb (bool_decide (act = kind_nothing))
    then Ok (ac_with_filter act ar_filter action, eid)
    else
      let action := if ar_filter =? cleanup_filter
                    then ac_with_filter kind_cleanup cleanup_filter action
                    else action in
      if ar_disp =? 0 then Ok (action, eid)
      else action_loop fuel w uw_exception uw_phase eid region action (u64 (p + ar_disp))
  end.

Definition get_action_description_for (fuel : nat) (w : W)
    (ip uw_exception uw_phase eid : Z) (region : region_descriptor)
    (action : action_descriptor) : res (action_descriptor * Z) :=
  action ← get_call_site_action_for fuel ip region action;
  if bool_decide (ac_kind action = kind_nothing) then Ok (action, eid)
  else if ac_landing_pad action =? 0 then Ok (ac_with_kind kind_nothing action, eid)
  else if ac_table_entry action =? 0
  then Ok (ac_with_filter kind_cleanup cleanup_filter action, eid)
  else action_loop fuel w uw_exception uw_phase eid region
         (ac_with_kind kind_nothing action) (ac_table_entry action).

(** The registers are set in the context; [uw_filter] is an [int]. *)
Definition setup_to_install (uw_context : C) (uw_exception uw_landing_pad uw_filter : Z)
  : C :=
  let c := Unwind_SetGR (eh_return_data_regno 0) uw_exception uw_context in
  let c := Unwind_SetGR (eh_return_data_regno 1) (u64 uw_filter) c in
  Unwind_SetIP uw_landing_pad c.

Definition continue_unwind : reason_code := URC_CONTINUE_UNWIND.

(** ** The routine *)

(** The return code, the frame's context and the state of the run time. *)
Definition personality_body (fuel : nat) (uw_phases uw_exception : Z)
    (uw_context : option C) (w : W) : res (reason_code * option C * W) :=
  region ← get_region_description_for uw_context;
  match region, uw_context with
  | Some region, Some c =>
    let ip := get_ip_from_context c in
    '(action, eid) ←
      get_action_description_for fuel w ip uw_exception uw_phases 0 region
        (Action kind_unknown 0 0 0);
    if bool_decide (ac_kind action = kind_nothing)
    then Ok (continue_unwind, uw_context, w)
    else if has_phase uw_phases UA_SEARCH_PHASE then
      if bool_decide (ac_kind action = kind_cleanup)
      then Ok (continue_unwind, uw_context, w)
      else
        let '(excep, w) := setup_current_excep uw_exception uw_phases eid w in
        let w := if bool_decide (ac_kind action = kind_unhandler)
                 then notify_unhandled_exception excep w
                 else notify_handled_exception excep w in
        Ok (URC_HANDLER_FOUND, uw_context, w)
    else
      let c := setup_to_install c uw_exception (ac_landing_pad action)
                 (i32 (ac_ttype_filter action)) in
      let '(_, w) := setup_current_excep uw_exception uw_phases eid w in
      Ok (URC_INSTALL_CONTEXT, Some c, w)
  | _, _ => Ok (continue_unwind, uw_context, w)
  end.

Definition gnat_personality_v0 (fuel : nat)
    (version_arg phases_arg uw_exception_class uw_exception : Z)
    (uw_context : option C) (w : W) : res (reason_code * option C * W) :=
  let uw_version := version_arg in
  let uw_phases := phases_arg in
  if negb (uw_version =? 1) then Ok (URC_FATAL_PHASE1_ERROR, uw_context, w)
  else personality_body fuel uw_phases uw_exception uw_context w.

Definition gnat_cleanupunwind_handler (version phases eclass exception : Z)
    (context : option C) (arg : Z) (w : W) : reason_code * W :=
  let w := if has_phase phases UA_END_OF_STACK
           then unhandled_except_handler exception w else w in
  (URC_NO_REASON, w).

Definition gnat_Unwind_RaiseException `{!Propagation W} (e : Z) (w : W)
  : reason_code * W := Unwind_RaiseException e w.

Definition gnat_Unwind_ForcedUnwind `{!Propagation W} (e handler argument : Z) (w : W)
  : reason_code * W := Unwind_ForcedUnwind e handler argument w.

End personality.
