(* ===== verification/PersonalitySpec.v ===== *)
(** * What the personality routine decides

    The tables of a frame as the compiler emits them ([frame], laid out by
    [lsda_bytes]), the abstract decision they stand for ([frame_action]) and
    the refinement: on a frame so laid out, [gnat_personality_v0] takes
    exactly that decision.  Two further theorems hold for arbitrary tables:
    the two phases of an unwind agree, and a forced unwind enters cleanups
    only. *)
From S2P Require Import Prelude CInt DwarfPe Personality.

(** ** Frames *)

(** A call site: its range relative to the function, its landing pad, the
    one-based offset of its action list (0: none) and the filters of that
    list, in order. *)
Record call_site := CallSite {
  cs_start : Z; cs_len : Z; cs_lp : Z; cs_action : Z; cs_filters : list Z }.

Record frame := Frame {
  fr_cs_enc : Z; fr_sites : list call_site;
  fr_actions : list Z;
  fr_tt_enc : Z; fr_ttypes : list Z }.

Definition site_bytes (enc : Z) (s : call_site) : list Z :=
  encode_value enc (cs_start s) ++ encode_value enc (cs_len s) ++
  encode_value enc (cs_lp s) ++ uleb (cs_action s).

Definition sites_bytes (enc : Z) (l : list call_site) : list Z :=
  l ≫= site_bytes enc.

(** The type table grows downwards from its end. *)
Fixpoint ttype_bytes (enc : Z) (l : list Z) : list Z :=
  match l with [] => [] | v :: l' => ttype_bytes enc l' ++ encode_value enc v end.

Definition tables_bytes (F : frame) : list Z :=
  let table := sites_bytes (fr_cs_enc F) (fr_sites F) in
  [fr_cs_enc F] ++ uleb (Z.of_nat (length table)) ++ table ++ fr_actions F ++
  ttype_bytes (fr_tt_enc F) (fr_ttypes F).

(** No landing-pad base, the offset to the end of the type table, the call
    sites, the actions, the type table. *)
Definition lsda_bytes (F : frame) : list Z :=
  [DW_EH_PE_omit; fr_tt_enc F] ++
  (if fr_tt_enc F =? DW_EH_PE_omit then [] else uleb (Z.of_nat (length (tables_bytes F)))) ++
  tables_bytes F.

(** ** Call sites *)

(** A direct, absolute encoding that holds [v]. *)
Definition abs_fits (enc v : Z) : Prop :=
  Z.land enc 0x70 = 0 /\ Z.land enc DW_EH_PE_indirect = 0 /\ fits enc v = true /\ 0 <= v.

Definition site_ok (enc base : Z) (s : call_site) : Prop :=
  abs_fits enc (cs_start s) /\ abs_fits enc (cs_len s) /\ abs_fits enc (cs_lp s) /\
  in_u64 (cs_action s) /\ 0 <= base /\ in_u64 (base + cs_start s + cs_len s) /\
  in_u64 (base + cs_lp s).

Definition covers (base ip : Z) (s : call_site) : bool :=
  (base + cs_start s <=? ip) && (ip <? base + cs_start s + cs_len s).

(** The call sites are in address order. *)
Fixpoint sites_sorted (l : list call_site) : Prop :=
  match l with
  | [] => True
  | s :: l' => Forall (fun s' => cs_start s <= cs_start s') l' /\ sites_sorted l'
  end.

Definition site_for (base ip : Z) (l : list call_site) : option call_site :=
  List.find (covers base ip) l.

Lemma abs_fits_read {C} `{!Unwinder C} m enc p v :
  abs_fits enc v -> bytes_at m p (encode_value enc v) ->
  read_encoded_value (C := C) m None enc p =
  Ok (v, p + Z.of_nat (length (encode_value enc v))).
Proof.
  intros (Ha & Hi & Hf & Hv) Hm. unfold read_encoded_value, base_of_encoded_value.
  assert (enc <> DW_EH_PE_omit) by (intros ->; done). rewrite (proj2 (Z.eqb_neq _ _)) by done.
  rewrite Ha. cbn -[read_encoded_value_with_base encode_value Z.of_nat].
  rewrite (read_encoded_direct _ _ _ _ v); [|intros ->; done|done..].
  rewrite Ha. cbn -[encode_value Z.of_nat u64]. pose proof (fits_range _ _ Hf).
  destruct (Z.eqb_spec v 0) as [->|]; [done|].
  by rewrite Z.add_0_r, u64_id by int_lia.
Qed.

Lemma site_bytes_nonempty enc s : in_u64 (cs_action s) -> (0 < length (site_bytes enc s))%nat.
Proof.
  intros Ha. unfold site_bytes. rewrite !length_app.
  destruct (uleb_string _ Ha) as [Hs _]. destruct (uleb (cs_action s)); [done|cbn; lia].
Qed.

Lemma site_for_before base ip l x :
  sites_sorted l -> Forall (fun s => x <= cs_start s) l -> ip < base + x ->
  site_for base ip l = None.
Proof.
  intros _ Hl Hip. induction Hl as [|s l Hs Hl IH]; [done|]. unfold site_for. cbn.
  unfold covers at 1. rewrite (proj2 (Z.leb_gt _ _)) by lia. apply IH.
Qed.

(** What the search stores for a call site. *)
Definition site_action (region : region_descriptor) (action : action_descriptor)
    (s : option call_site) : action_descriptor :=
  match s with
  | None => action
  | Some s =>
    Action kind_unknown
      (if cs_action s =? 0 then 0 else u64 (rg_action_table region + cs_action s - 1))
      (if cs_lp s =? 0 then 0 else u64 (rg_lp_base region + cs_lp s))
      (ac_ttype_filter action)
  end.

Section call_sites.
Context {C : Type} `{!Unwinder C}.
Variables (m : memory) (region : region_descriptor) (ip : Z).

Lemma call_site_loop_ok fuel l action p :
  Forall (site_ok (rg_call_site_encoding region) (rg_base region)) l -> sites_sorted l ->
  bytes_at m p (sites_bytes (rg_call_site_encoding region) l) ->
  rg_action_table region = p + Z.of_nat (length (sites_bytes (rg_call_site_encoding region) l)) ->
  (length l < fuel)%nat ->
  call_site_loop (C := C) m fuel ip region action p =
  Ok (site_action region action (site_for (rg_base region) ip l)).
Proof.
  set (enc := rg_call_site_encoding region).
  revert fuel p. induction l as [|s l IH]; intros fuel p Hok Hsort Hm Hat Hfuel;
    (destruct fuel as [|fuel]; [cbn in Hfuel; lia|]); cbn [call_site_loop].
  { cbn in Hat. by rewrite (proj2 (Z.ltb_ge _ _)) by lia. }
  apply Forall_cons in Hok as [Hs Hl]. destruct Hsort as [Hfst Hsort].
  change (sites_bytes enc (s :: l)) with (site_bytes enc s ++ sites_bytes enc l) in *.
  rewrite length_app in Hat. apply bytes_at_app in Hm as [Hm Hm'].
  destruct Hs as (H1 & H2 & H3 & H4 & Hb & H5 & H6).
  pose proof (site_bytes_nonempty enc s H4). rewrite (proj2 (Z.ltb_lt _ _)) by lia. cbn [negb].
  unfold site_bytes in Hm. rewrite !bytes_at_app in Hm. destruct Hm as (M1 & M2 & M3 & M4).
  fold enc. res_step (abs_fits_read (C := C) m enc _ _ H1 M1).
  res_step (abs_fits_read (C := C) m enc _ _ H2 M2).
  res_step (abs_fits_read (C := C) m enc _ _ H3 M3).
  res_step (read_uleb128_enc _ _ _ H4 M4).
  assert (0 <= cs_start s /\ 0 <= cs_len s) as [Hp1 Hp2] by (split; [apply H1 | apply H2]).
  rewrite !u64_id by (unfold in_u64 in *; lia).
  unfold site_for. cbn [List.find]. unfold covers at 1.
  destruct (ip <? rg_base region + cs_start s) eqn:E1; bool_to_prop.
  { rewrite (proj2 (Z.leb_gt _ _)) by lia. cbn [andb].
    change (List.find _ l) with (site_for (rg_base region) ip l).
    by rewrite (site_for_before _ _ _ (cs_start s)) by done. }
  rewrite (proj2 (Z.leb_le _ _)) by lia. cbn [andb].
  destruct (ip <? _) eqn:E2.
  { cbn [site_action]. by destruct (cs_action s =? 0), (cs_lp s =? 0). }
  apply IH; [done|done|..].
  - eapply bytes_at_eq; [|exact Hm']. unfold site_bytes. rewrite !length_app. lia.
  - rewrite Hat. unfold site_bytes. rewrite !length_app. lia.
  - cbn in Hfuel. lia.
Qed.

End call_sites.

(** ** Type table *)

(** The address and the value of the type entry of a positive filter, in a
    table whose end is at [tt]. *)
Definition ttype_addr (enc : Z) (ttypes : list Z) (tt filter : Z) : Z :=
  tt - filter * Z.of_nat (length (encode_value enc (default 0 (ttypes !! Z.to_nat (filter - 1))))).

Definition ttype_entry (enc base tt : Z) (ttypes : list Z) (filter : Z) : Z :=
  let v := default 0 (ttypes !! Z.to_nat (filter - 1)) in
  if v =? 0 then 0
  else u64 (v + if Z.land enc 0x70 =? DW_EH_PE_pcrel
                then ttype_addr enc ttypes tt filter else base).

(** A direct encoding of fixed size. *)
Definition ttype_enc_ok (enc : Z) : Prop :=
  enc <> DW_EH_PE_aligned /\ Z.land enc DW_EH_PE_indirect = 0 /\
  Z.land enc 0x0f <> DW_EH_PE_uleb128 /\ Z.land enc 0x0f <> DW_EH_PE_sleb128.

Lemma land_07_0f enc : Z.land enc 0x07 = Z.land (Z.land enc 0x0f) 0x07.
Proof. by rewrite <- Z.land_assoc. Qed.

Lemma ttype_size enc v :
  ttype_enc_ok enc -> fits enc v = true ->
  size_of_encoded_value enc = Ok (Z.of_nat (length (encode_value enc v))) /\
  (length (encode_value enc v) <= 8)%nat.
Proof.
  intros (_ & Hi & H1 & H9) Hf. unfold size_of_encoded_value, encode_value, fits in *.
  assert (enc <> DW_EH_PE_omit) by (intros ->; done). rewrite (proj2 (Z.eqb_neq _ _)) by done.
  rewrite land_07_0f. revert Hf H1 H9. generalize (encoding_format enc).
  generalize (Z.land enc 0x0f). intros f Hr. pattern f. revert Hr.
  apply format_cases; format_eval; intros Hf H1 H9; try discriminate Hf; try done;
    rewrite le_bytes_length; (split; [reflexivity | lia]).
Qed.

Lemma size_independent enc v v' :
  ttype_enc_ok enc -> fits enc v = true -> fits enc v' = true ->
  length (encode_value enc v) = length (encode_value enc v').
Proof.
  intros He Hv Hv'. destruct (ttype_size enc v He Hv) as [E _].
  destruct (ttype_size enc v' He Hv') as [E' _]. rewrite E in E'. injection E'. lia.
Qed.

(** In a table at [p], the entry of index [i] ends [i] entries before the
    end. *)
Lemma ttype_bytes_at m enc l p i v :
  ttype_enc_ok enc -> Forall (fun v => fits enc v = true) l -> l !! i = Some v ->
  bytes_at m p (ttype_bytes enc l) ->
  bytes_at m (p + Z.of_nat (length (ttype_bytes enc l))
              - (Z.of_nat i + 1) * Z.of_nat (length (encode_value enc v)))
    (encode_value enc v).
Proof.
  intros He. revert i. induction l as [|x l IH]; intros i Hl Hi Hm; [done|].
  apply Forall_cons in Hl as [Hx Hl]. cbn [ttype_bytes] in *. rewrite length_app.
  apply bytes_at_app in Hm as [Hm Hm']. destruct i as [|i]; cbn in Hi.
  - injection Hi as ->. eapply bytes_at_eq; [|exact Hm']. lia.
  - pose proof (Forall_lookup_1 _ _ _ _ Hl Hi) as Hv. cbn beta in Hv.
    rewrite (size_independent enc x v) by done.
    eapply bytes_at_eq; [|by apply (IH i)]. lia.
Qed.

Lemma ttype_bytes_bound enc l v :
  ttype_enc_ok enc -> Forall (fun v => fits enc v = true) l -> v ∈ l ->
  (length l * length (encode_value enc v) = length (ttype_bytes enc l))%nat.
Proof.
  intros He Hl Hv. assert (Hf : fits enc v = true) by (rewrite Forall_forall in Hl; by apply Hl).
  clear Hv. induction Hl as [|x l Hx Hl IH]; [done|]. cbn [ttype_bytes length].
  rewrite length_app, <- IH, (size_independent enc x v) by done. lia.
Qed.

(** ** Action lists *)

(** The records of an action list in memory: a filter, then the displacement
    of the next record from the displacement itself (0: the last). *)
Inductive chain (m : memory) : Z -> list Z -> Prop :=
| chain_last p f :
    - 2 ^ 63 <= f < 2 ^ 63 -> bytes_at m p (sleb f ++ sleb 0) -> chain m p [f]
| chain_next p f d fs :
    - 2 ^ 63 <= f < 2 ^ 63 -> - 2 ^ 63 <= d < 2 ^ 63 -> d <> 0 ->
    bytes_at m p (sleb f ++ sleb d) ->
    chain m (u64 (p + Z.of_nat (length (sleb f)) + d)) fs -> chain m p (f :: fs).

(** What an action list asks for: the first filter whose choice matches;
    failing that a cleanup if there is one.  No filter matches in a forced
    unwind. *)
Definition hit (forced : bool) (kinds : Z -> action_kind) (f : Z) : bool :=
  (0 <? f) && negb forced && negb (bool_decide (kinds f = kind_nothing)).

Definition chain_action (forced : bool) (kinds : Z -> action_kind) (fs : list Z)
    (dflt : action_kind * Z) : action_kind * Z :=
  match List.find (hit forced kinds) fs with
  | Some f => (kinds f, f)
  | None => if existsb (Z.eqb cleanup_filter) fs then (kind_cleanup, cleanup_filter) else dflt
  end.

Section actions.
Context {C W : Type} `{!Unwinder C} `{!AdaRts W}.
Variables (m : memory) (w : W) (exc phases eid : Z) (region : region_descriptor).
Variable kinds : Z -> action_kind.

(** One record: what is consulted for its filter. *)
Definition filter_answers (f : Z) : Prop :=
  0 < f -> exists choice, get_ttype_entry_for m region f = Ok choice /\
    is_handled_by (C := C) m w choice eid exc = Ok (kinds f, eid).

Lemma record_choice f :
  filter_answers f ->
  (if (f =? cleanup_filter) || negb (0 <? f) || has_phase phases UA_FORCE_UNWIND
   then Ok (kind_nothing, eid)
   else choice ← get_ttype_entry_for m region f; is_handled_by (C := C) m w choice eid exc) =
  Ok (if hit (has_phase phases UA_FORCE_UNWIND) kinds f then kinds f else kind_nothing, eid).
Proof.
  intros Hf. unfold hit, cleanup_filter. destruct (Z.ltb_spec 0 f) as [Hp|Hp].
  - rewrite (proj2 (Z.eqb_neq f 0)) by lia. cbn [negb orb andb].
    destruct (has_phase phases UA_FORCE_UNWIND); cbn [negb]; [done|].
    destruct (Hf Hp) as (choice & E1 & E2). res_step E1. rewrite E2.
    case_bool_decide as E; cbn [negb]; by rewrite ?E.
  - cbn [negb andb]. by rewrite orb_true_r.
Qed.

Lemma action_loop_ok fuel p fs action :
  chain m p fs -> Forall filter_answers fs -> (length fs <= fuel)%nat ->
  action_loop (C := C) m fuel w exc phases eid region action p =
  Ok (let '(k, f) := chain_action (has_phase phases UA_FORCE_UNWIND) kinds fs
                       (ac_kind action, ac_ttype_filter action) in
      (ac_with_filter k f action, eid)).
Proof.
  intros Hc. revert fuel action. induction Hc as [p f Hf Hm|p f d fs Hf Hd Hd0 Hm Hc IH];
    intros fuel action Ha Hn; (destruct fuel as [|fuel]; [cbn in Hn; lia|]);
    cbn [action_loop]; apply Forall_cons in Ha as [Hfa Ha];
    apply bytes_at_app in Hm as [M1 M2].
  - res_step (read_sleb128_enc _ _ _ Hf M1).
    res_step (read_sleb128_enc _ _ 0 ltac:(lia) M2). res_step (record_choice f Hfa).
    unfold chain_action. cbn [List.find existsb]. rewrite orb_false_r.
    destruct (hit _ _ f) eqn:Eh.
    + unfold hit in Eh. bool_to_prop. by rewrite H0.
    + rewrite (Z.eqb_sym cleanup_filter f). rewrite bool_decide_true by done.
      destruct (f =? cleanup_filter); by destruct action.
  - res_step (read_sleb128_enc _ _ _ Hf M1).
    res_step (read_sleb128_enc _ _ _ Hd M2). res_step (record_choice f Hfa).
    rewrite (proj2 (Z.eqb_neq d 0)) by done.
    unfold chain_action. cbn [List.find existsb].
    destruct (hit _ _ f) eqn:Eh.
    + unfold hit in Eh. bool_to_prop. by rewrite H0.
    + rewrite (Z.eqb_sym cleanup_filter f). rewrite bool_decide_true by done. cbn [negb].
      rewrite IH by (done || (cbn in Hn; lia)). unfold chain_action.
      destruct (List.find _ fs); [by destruct (f =? _)|].
      destruct (f =? cleanup_filter) eqn:Ef, (existsb _ fs); by destruct action.
Qed.

End actions.

(** ** The decision of a frame *)

Inductive decision :=
| Nothing
| Enter (k : action_kind) (landing_pad filter : Z).

Definition frame_action (F : frame) (base ip : Z) (forced : bool)
    (kinds : Z -> action_kind) : decision :=
  match site_for base ip (fr_sites F) with
  | None => Nothing
  | Some s =>
    if cs_lp s =? 0 then Nothing
    else if cs_action s =? 0 then Enter kind_cleanup (base + cs_lp s) cleanup_filter
    else match chain_action forced kinds (cs_filters s) (kind_nothing, 0) with
         | (kind_nothing, _) => Nothing
         | (k, f) => Enter k (base + cs_lp s) f
         end
  end.

(** The matching rules of Ada for an Ada exception. *)
Definition ada_match {W} `{!AdaRts W} (w : W) (exc choice : Z) : action_kind :=
  if choice =? GNAT_ALL_OTHERS then kind_handler
  else if choice =? GNAT_UNHANDLED_OTHERS then kind_unhandler
  else if (choice =? EID_For w exc)
          || ((choice =? GNAT_OTHERS) && Is_Handled_By_Others w (EID_For w exc))
  then kind_handler else kind_nothing.

(** What the routine does with a decision. *)
Definition act_on {C W} `{!Unwinder C} `{!AdaRts W} (phases exc : Z) (c : C) (w : W)
    (d : decision) : reason_code * option C * W :=
  match d with
  | Nothing => (URC_CONTINUE_UNWIND, Some c, w)
  | Enter k lp f =>
    if has_phase phases UA_SEARCH_PHASE then
      if bool_decide (k = kind_cleanup) then (URC_CONTINUE_UNWIND, Some c, w)
      else
        let '(excep, w) := setup_current_excep exc phases 0 w in
        (URC_HANDLER_FOUND, Some c,
         if bool_decide (k = kind_unhandler) then notify_unhandled_exception excep w
         else notify_handled_exception excep w)
    else (URC_INSTALL_CONTEXT, Some (setup_to_install c exc lp (i32 f)),
          (setup_current_excep exc phases 0 w).2)
  end.

(** Addresses of the parts of the tables at [lsda]. *)
Definition fr_tables (F : frame) (lsda : Z) : Z :=
  lsda + 2 + (if fr_tt_enc F =? DW_EH_PE_omit then 0
              else Z.of_nat (length (uleb (Z.of_nat (length (tables_bytes F)))))).
Definition fr_table_len (F : frame) : Z :=
  Z.of_nat (length (sites_bytes (fr_cs_enc F) (fr_sites F))).
Definition fr_table (F : frame) (lsda : Z) : Z :=
  fr_tables F lsda + 1 + Z.of_nat (length (uleb (fr_table_len F))).
Definition fr_action_table (F : frame) (lsda : Z) : Z := fr_table F lsda + fr_table_len F.
Definition fr_end (F : frame) (lsda : Z) : Z :=
  fr_tables F lsda + Z.of_nat (length (tables_bytes F)).

(** The choices of the type table: one per positive filter. *)
Definition choice_of (F : frame) (lsda tt_base filter : Z) : Z :=
  ttype_entry (fr_tt_enc F) tt_base (fr_end F lsda) (fr_ttypes F) filter.

Definition filters_ok (F : frame) (s : call_site) : Prop :=
  Forall (fun f => f <= Z.of_nat (length (fr_ttypes F))) (cs_filters s).

(** The frame of context [c] has the tables [F] in memory. *)
Record frame_at {C} `{!Unwinder C} (m : memory) (c : C) (F : frame) (tt_base : Z) : Prop := {
  fa_lsda : 0 < Unwind_GetLanguageSpecificData c;
  fa_bytes : bytes_at m (Unwind_GetLanguageSpecificData c) (lsda_bytes F);
  fa_size : fr_end F (Unwind_GetLanguageSpecificData c) < 2 ^ 63;
  fa_sites : Forall (site_ok (fr_cs_enc F) (Unwind_GetRegionStart c)) (fr_sites F);
  fa_sorted : sites_sorted (fr_sites F);
  fa_base : base_of_encoded_value (fr_tt_enc F) (Some c) = Ok tt_base;
  fa_ttypes : fr_tt_enc F = DW_EH_PE_omit /\ fr_ttypes F = [] \/
              ttype_enc_ok (fr_tt_enc F) /\
              Forall (fun v => fits (fr_tt_enc F) v = true) (fr_ttypes F);
  fa_chains : Forall (fun s =>
    cs_lp s <> 0 -> cs_action s <> 0 ->
    filters_ok F s /\
    fr_action_table F (Unwind_GetLanguageSpecificData c) + cs_action s - 1 < 2 ^ 64 /\
    chain m (fr_action_table F (Unwind_GetLanguageSpecificData c) + cs_action s - 1)
      (cs_filters s)) (fr_sites F) }.

(** Enough rounds for the call sites and the longest action list. *)
Definition frame_fuel (F : frame) : nat :=
  1 + length (fr_sites F) + list_sum (length ∘ cs_filters <$> fr_sites F).

Section frames.
Context {C W : Type} `{!Unwinder C} `{!AdaRts W}.
Variables (m : memory) (c : C) (F : frame) (tt_base : Z).
Hypothesis HF : frame_at m c F tt_base.

#[local] Abbreviation lsda := (Unwind_GetLanguageSpecificData c).

Definition frame_region : region_descriptor :=
  Region (Unwind_GetRegionStart c) lsda (fr_cs_enc F) (fr_table F lsda)
    (Unwind_GetRegionStart c) (fr_action_table F lsda) (fr_tt_enc F)
    (if fr_tt_enc F =? DW_EH_PE_omit then 0 else fr_end F lsda) tt_base.

Lemma tables_length :
  Z.of_nat (length (tables_bytes F)) =
  1 + Z.of_nat (length (uleb (fr_table_len F))) + fr_table_len F +
  Z.of_nat (length (fr_actions F)) + Z.of_nat (length (ttype_bytes (fr_tt_enc F) (fr_ttypes F))).
Proof. unfold tables_bytes, fr_table_len. rewrite !length_app. cbn [length]. lia. Qed.

(** The bytes of the header and of the tables, apart. *)
Lemma frame_bytes :
  m lsda = Some DW_EH_PE_omit /\ m (lsda + 1) = Some (fr_tt_enc F) /\
  (fr_tt_enc F <> DW_EH_PE_omit ->
   bytes_at m (lsda + 2) (uleb (Z.of_nat (length (tables_bytes F))))) /\
  m (fr_tables F lsda) = Some (fr_cs_enc F) /\
  bytes_at m (fr_tables F lsda + 1) (uleb (fr_table_len F)) /\
  bytes_at m (fr_table F lsda) (sites_bytes (fr_cs_enc F) (fr_sites F)) /\
  bytes_at m (fr_end F lsda - Z.of_nat (length (ttype_bytes (fr_tt_enc F) (fr_ttypes F))))
    (ttype_bytes (fr_tt_enc F) (fr_ttypes F)).
Proof.
  pose proof (fa_bytes _ _ _ _ HF) as Hb. unfold lsda_bytes in Hb.
  cbn [app bytes_at] in Hb. destruct Hb as (B1 & B2 & Hb).
  apply bytes_at_app in Hb as [B3 Hb].
  assert (Ht : bytes_at m (fr_tables F lsda) (tables_bytes F)).
  { eapply bytes_at_eq; [|exact Hb]. unfold fr_tables. destruct (_ =? _); cbn [length]; lia. }
  pose proof tables_length as Hlen. unfold fr_end.
  unfold tables_bytes in Ht. cbn [app bytes_at] in Ht. fold (fr_table_len F) in Ht.
  destruct Ht as [T1 Ht]. rewrite !bytes_at_app in Ht. destruct Ht as (T2 & T3 & T4 & T5).
  repeat split; try done.
  - intros E. rewrite (proj2 (Z.eqb_neq _ _) E) in B3. eapply bytes_at_eq; [|exact B3]. lia.
  - eapply bytes_at_eq; [|exact T5]. unfold fr_table_len in *. lia.
Qed.

Lemma region_ok : get_region_description_for m (Some c) = Ok (Some frame_region).
Proof.
  destruct frame_bytes as (B1 & B2 & B3 & B4 & B5 & B6 & B7).
  pose proof (fa_lsda _ _ _ _ HF) as Hl. pose proof (fa_size _ _ _ _ HF) as Hs.
  pose proof tables_length as Hlen. unfold fr_end in Hs.
  assert (Hge : lsda + 2 <= fr_tables F lsda) by (unfold fr_tables; destruct (_ =? _); lia).
  unfold get_region_description_for, load_byte. rewrite (proj2 (Z.eqb_neq _ _)) by lia.
  rewrite B1, res_bind_ok. cbv beta iota zeta. rewrite Z.eqb_refl. cbn [negb].
  rewrite res_bind_ok. cbv beta iota zeta. rewrite B2, res_bind_ok. cbv beta iota zeta.
  destruct (fr_tt_enc F =? DW_EH_PE_omit) eqn:E; cbn [negb].
  - rewrite res_bind_ok. cbv beta iota zeta. res_step (fa_base _ _ _ _ HF).
    replace (lsda + 1 + 1) with (fr_tables F lsda) by (unfold fr_tables; rewrite E; lia).
    rewrite B4, res_bind_ok. cbv beta iota zeta.
    res_step (read_uleb128_enc _ _ (fr_table_len F) ltac:(unfold in_u64, fr_table_len in *; lia) B5).
    unfold frame_region. rewrite E. unfold fr_action_table, fr_table.
    rewrite u64_id by (unfold in_u64, fr_table_len in *; lia). done.
  - assert (E' : fr_tt_enc F <> DW_EH_PE_omit) by (by apply Z.eqb_neq).
    replace (lsda + 1 + 1) with (lsda + 2) by lia.
    assert (Hu : in_u64 (Z.of_nat (length (tables_bytes F)))) by (unfold in_u64; lia).
    res_step (read_uleb128_enc _ _ _ Hu (B3 E')). rewrite res_bind_ok. cbv beta iota zeta.
    res_step (fa_base _ _ _ _ HF).
    replace (lsda + 2 + _) with (fr_tables F lsda) by (unfold fr_tables; rewrite E; lia).
    rewrite B4, res_bind_ok. cbv beta iota zeta.
    res_step (read_uleb128_enc _ _ (fr_table_len F) ltac:(unfold in_u64, fr_table_len in *; lia) B5).
    unfold frame_region. rewrite E. unfold fr_action_table, fr_table, fr_end.
    rewrite !u64_id by (unfold in_u64, fr_table_len in *; lia). done.
Qed.

Lemma ttype_entry_ok f :
  0 < f <= Z.of_nat (length (fr_ttypes F)) ->
  get_ttype_entry_for m frame_region f = Ok (choice_of F lsda tt_base f).
Proof.
  intros Hf. destruct frame_bytes as (_ & _ & _ & _ & _ & _ & B7).
  destruct (fa_ttypes _ _ _ _ HF) as [[_ E]|[He Hfits]]; [rewrite E in Hf; cbn in Hf; lia|].
  destruct (lookup_lt_is_Some_2 (fr_ttypes F) (Z.to_nat (f - 1))) as [v Hv]; [lia|].
  pose proof (Forall_lookup_1 _ _ _ _ Hfits Hv) as Hfv. cbn beta in Hfv.
  destruct (ttype_size _ _ He Hfv) as [Hsz H8].
  pose proof (ttype_bytes_at m _ _ _ _ _ He Hfits Hv B7) as Hm.
  pose proof (ttype_bytes_bound _ _ v He Hfits (list_elem_of_lookup_2 _ _ _ Hv)) as Hbound.
  pose proof tables_length as Hlen. pose proof (fa_lsda _ _ _ _ HF) as Hl.
  pose proof (fa_size _ _ _ _ HF) as Hs.
  assert (Hge : lsda + 2 <= fr_tables F lsda) by (unfold fr_tables; destruct (_ =? _); lia).
  set (sz := length (encode_value (fr_tt_enc F) v)) in *.
  assert (Hfs : 0 <= f * Z.of_nat sz <= Z.of_nat (length (ttype_bytes (fr_tt_enc F) (fr_ttypes F))))
    by nia.
  assert (Hnn : 0 <= fr_table_len F) by (unfold fr_table_len; lia).
  unfold fr_end in Hs.
  assert (Eo : (fr_tt_enc F =? DW_EH_PE_omit) = false).
  { apply Z.eqb_neq. intros E. destruct He as (_ & Hi & _). by rewrite E in Hi. }
  unfold get_ttype_entry_for, frame_region. cbn [rg_ttype_encoding rg_ttype_base rg_ttype_table].
  rewrite Eo, Hsz, res_bind_ok. cbv zeta.
  rewrite i64_id, u64_id by (unfold in_u64, in_i64, fr_end; lia).
  rewrite (read_encoded_direct _ _ _ _ v); [|apply He..|done|].
  - rewrite res_bind_ok. unfold choice_of, ttype_entry, ttype_addr. by rewrite Hv.
  - eapply bytes_at_eq; [|exact Hm]. fold sz. nia.
Qed.

Variables (w : W) (exc phases : Z).
Hypothesis Hexc : load_le m 8 (u64 (exc + uexc_class_off)) = Ok GNAT_EXCEPTION_CLASS.

Lemma is_handled_by_ada choice eid :
  is_handled_by (C := C) m w choice eid exc = Ok (ada_match w exc choice, eid).
Proof.
  unfold is_handled_by, ada_match, exception_class_eq. destruct (choice =? GNAT_ALL_OTHERS); [done|].
  rewrite Hexc, !res_bind_ok, Z.eqb_refl. destruct (choice =? GNAT_UNHANDLED_OTHERS); [done|].
  by destruct (_ || _).
Qed.

(** The kind of action a positive filter stands for. *)
Definition frame_kinds (f : Z) : action_kind := ada_match w exc (choice_of F lsda tt_base f).

Lemma filter_answers_ok f :
  f <= Z.of_nat (length (fr_ttypes F)) ->
  filter_answers (C := C) m w exc 0 frame_region frame_kinds f.
Proof.
  intros Hf Hp. exists (choice_of F lsda tt_base f).
  split; [by apply ttype_entry_ok | apply is_handled_by_ada].
Qed.

(** The action the search of the tables ends with. *)
Definition as_action (d : decision) (a : action_descriptor) : Prop :=
  match d with
  | Nothing => ac_kind a = kind_nothing
  | Enter k lp f => ac_kind a = k /\ k <> kind_nothing /\ ac_landing_pad a = lp /\ ac_ttype_filter a = f
  end.

Lemma find_covers l s :
  site_for (Unwind_GetRegionStart c) (get_ip_from_context c) l = Some s -> s ∈ l.
Proof. intros E. apply find_some in E as [E _]. by apply list_elem_of_In. Qed.

Lemma action_description_ok fuel :
  (frame_fuel F <= fuel)%nat ->
  exists a,
    get_action_description_for (C := C) m fuel w (get_ip_from_context c) exc phases 0
      frame_region (Action kind_unknown 0 0 0) = Ok (a, 0) /\
    as_action (frame_action F (Unwind_GetRegionStart c) (get_ip_from_context c)
                 (has_phase phases UA_FORCE_UNWIND) frame_kinds) a.
Proof.
  intros Hfuel. unfold frame_fuel in Hfuel.
  destruct frame_bytes as (_ & _ & _ & _ & _ & B6 & _).
  unfold get_action_description_for, get_call_site_action_for, frame_action.
  rewrite (call_site_loop_ok m frame_region (get_ip_from_context c) fuel (fr_sites F));
    [|apply (fa_sites _ _ _ _ HF)|apply (fa_sorted _ _ _ _ HF)|done|done|lia].
  rewrite res_bind_ok. cbn [rg_base frame_region]. destruct (site_for _ _ _) as [s|] eqn:Es;
    [|eexists; by split]. apply find_covers in Es.
  pose proof (fa_sites _ _ _ _ HF) as Hok. rewrite Forall_forall in Hok.
  destruct (Hok s Es) as (_ & _ & (_ & _ & _ & Hlp0) & Hact & Hb0 & _ & Hlp).
  cbn [site_action ac_kind ac_landing_pad ac_table_entry frame_region rg_lp_base rg_action_table].
  rewrite bool_decide_false by done.
  destruct (cs_lp s =? 0) eqn:Elp; [eexists; by split|]. bool_to_prop.
  rewrite (u64_id (_ + _)), (proj2 (Z.eqb_neq (_ + _) 0)) by (done || lia).
  destruct (cs_action s =? 0) eqn:Eac; [by eexists|]. bool_to_prop.
  pose proof (fa_chains _ _ _ _ HF) as Hch. rewrite Forall_forall in Hch.
  destruct (Hch s Es) as (Hfs & Hu & Hchain); [done..|].
  pose proof (fa_lsda _ _ _ _ HF) as Hl.
  assert (Hat : lsda < fr_action_table F lsda).
  { unfold fr_action_table, fr_table, fr_tables, fr_table_len. destruct (_ =? _); lia. }
  unfold in_u64 in Hact.
  rewrite (u64_id (_ - 1)), (proj2 (Z.eqb_neq (_ - 1) 0)) by (unfold in_u64; lia).
  rewrite (action_loop_ok m w exc phases 0 frame_region frame_kinds fuel _ (cs_filters s)).
  - cbn [ac_kind ac_with_kind ac_ttype_filter]. destruct (chain_action _ _ _ _) as [k f].
    eexists. split; [done|]. by destruct k.
  - done.
  - eapply Forall_impl; [exact Hfs|]. apply filter_answers_ok.
  - apply list_elem_of_fmap_2 with (f := length ∘ cs_filters) in Es.
    apply list_elem_of_split in Es as (l1 & l2 & E). rewrite E, list_sum_app in Hfuel.
    cbn in Hfuel. lia.
Qed.

Lemma personality_frame fuel cls :
  (frame_fuel F <= fuel)%nat ->
  gnat_personality_v0 m fuel 1 phases cls exc (Some c) w =
  Ok (act_on phases exc c w
        (frame_action F (Unwind_GetRegionStart c) (get_ip_from_context c)
           (has_phase phases UA_FORCE_UNWIND) frame_kinds)).
Proof.
  intros Hfuel. destruct (action_description_ok fuel Hfuel) as (a & E & Ha).
  unfold gnat_personality_v0, personality_body. cbn [Z.eqb Pos.eqb negb].
  rewrite region_ok, res_bind_ok. cbv beta iota zeta. rewrite E, res_bind_ok. cbv beta iota.
  destruct (frame_action _ _ _ _ _) as [|k lp f]; cbn [as_action act_on] in *.
  - by rewrite bool_decide_true.
  - destruct Ha as (Hk & Hn & Hlp & Hf). rewrite Hk, Hlp, Hf, bool_decide_false by done.
    destruct (has_phase phases UA_SEARCH_PHASE).
    + destruct (bool_decide (k = kind_cleanup)); [done|]. by destruct (setup_current_excep _ _ _ _).
    + by destruct (setup_current_excep _ _ _ _).
Qed.

End frames.

(** ** Arbitrary tables *)

Section any_tables.
Context {C W : Type} `{!Unwinder C} `{!AdaRts W}.
Variables (m : memory) (exc : Z).

(** The shape of an action that the search can end with. *)
Definition action_shape (forced : bool) (a : action_descriptor) : Prop :=
  match ac_kind a with
  | kind_nothing => True
  | kind_cleanup => ac_ttype_filter a = cleanup_filter
  | kind_handler | kind_unhandler => forced = false /\ 0 < ac_ttype_filter a
  | kind_unknown => False
  end.

Lemma is_handled_by_kind w choice eid r :
  is_handled_by (C := C) m w choice eid exc = Ok r ->
  r.1 = kind_handler \/ r.1 = kind_unhandler \/ r.1 = kind_nothing.
Proof.
  unfold is_handled_by, mbind, res_bind, exception_class_eq. intros H.
  repeat match type of H with
  | (match ?x with _ => _ end) = _ => destruct x eqn:?; try discriminate H
  end; injection H as <-; auto.
Qed.

Lemma action_loop_shape fuel w phases eid region a p r :
  action_shape (has_phase phases UA_FORCE_UNWIND) a ->
  action_loop (C := C) m fuel w exc phases eid region a p = Ok r ->
  action_shape (has_phase phases UA_FORCE_UNWIND) r.1 /\ ac_landing_pad r.1 = ac_landing_pad a.
Proof.
  revert eid a p. induction fuel as [|fuel IH]; intros eid a p Ha H; [done|].
  cbn [action_loop] in H.
  destruct (read_sleb128 m p) as [[f q]| | | |]; try discriminate H. rewrite res_bind_ok in H.
  destruct (read_sleb128 m q) as [[d q']| | | |]; try discriminate H. rewrite res_bind_ok in H.
  cbv beta iota zeta in H.
  set (r0 := if (f =? cleanup_filter) || _ || _ then _ else _) in H.
  assert (Hr0 : forall act eid', r0 = Ok (act, eid') -> act = kind_nothing \/
    (act = kind_handler \/ act = kind_unhandler) /\
    has_phase phases UA_FORCE_UNWIND = false /\ 0 < f).
  { intros act eid'. subst r0.
    destruct ((f =? cleanup_filter) || negb (0 <? f) || _) eqn:E; [intros [= <- <-]; auto|].
    bool_to_prop. destruct (get_ttype_entry_for m region f); try done. rewrite res_bind_ok.
    intros Hh%is_handled_by_kind. cbn in Hh. naive_solver. }
  destruct r0 as [[act eid']| | | |]; try discriminate H. rewrite res_bind_ok in H.
  cbv beta iota zeta in H. destruct (Hr0 act eid' eq_refl) as [->|(Hk & Hforce & Hf)].
  - rewrite bool_decide_true in H by done. cbn [negb] in H.
    set (a' := if f =? cleanup_filter then _ else _) in H.
    assert (action_shape (has_phase phases UA_FORCE_UNWIND) a' /\
            ac_landing_pad a' = ac_landing_pad a) as [Ha' Hlp].
    { subst a'. by destruct (f =? cleanup_filter). }
    destruct (d =? 0); [by injection H as <-|].
    destruct (IH _ _ _ Ha' H) as [? ->]. done.
  - rewrite bool_decide_false in H by (destruct Hk; by subst). injection H as <-.
    split; [|done]. unfold action_shape. cbn. destruct Hk; by subst.
Qed.

Lemma action_loop_indep fuel w w2 p1 p2 eid region a p :
  has_phase p1 UA_FORCE_UNWIND = has_phase p2 UA_FORCE_UNWIND ->
  (forall choice eid, is_handled_by (C := C) m w2 choice eid exc =
                      is_handled_by (C := C) m w choice eid exc) ->
  action_loop (C := C) m fuel w2 exc p2 eid region a p =
  action_loop (C := C) m fuel w exc p1 eid region a p.
Proof.
  intros Hp Hw. revert eid a p. induction fuel as [|fuel IH]; intros eid a p; [done|].
  cbn [action_loop]. destruct (read_sleb128 m p) as [[f q]| | | |]; try done.
  rewrite !res_bind_ok. destruct (read_sleb128 m q) as [[d q']| | | |]; try done.
  rewrite !res_bind_ok. cbv beta iota zeta. rewrite Hp.
  destruct (_ || _ || _); [rewrite !res_bind_ok; by rewrite IH|].
  destruct (get_ttype_entry_for m region f) as [choice| | | |]; try done.
  rewrite !res_bind_ok, Hw.
  destruct (is_handled_by m w choice eid exc) as [[act eid']| | | |]; try done.
  rewrite !res_bind_ok. by rewrite IH.
Qed.

Lemma call_site_shape fuel ip region a p r :
  ac_kind a = kind_nothing ->
  call_site_loop (C := C) m fuel ip region a p = Ok r ->
  ac_kind r = kind_nothing \/ ac_kind r = kind_unknown.
Proof.
  intros Ha. revert p. induction fuel as [|fuel IH]; intros p H; [done|].
  cbn [call_site_loop] in H. unfold mbind, res_bind in H.
  repeat match type of H with
  | (match ?x with _ => _ end) = _ => destruct x; try discriminate H
  end; try (injection H as <-; by auto); by apply IH in H.
Qed.

Lemma description_shape fuel w ip phases eid region r :
  get_action_description_for (C := C) m fuel w ip exc phases eid region
    (Action kind_unknown 0 0 0) = Ok r ->
  action_shape (has_phase phases UA_FORCE_UNWIND) r.1 /\
  (ac_kind r.1 <> kind_nothing -> ac_landing_pad r.1 <> 0).
Proof.
  unfold get_action_description_for, get_call_site_action_for. intros H.
  destruct (call_site_loop _ _ _ _ _ _) as [a| | | |] eqn:E; try discriminate H.
  rewrite res_bind_ok in H. apply call_site_shape in E; [|done].
  case_bool_decide as Ek; [injection H as <-; cbn; unfold action_shape; by rewrite Ek|].
  destruct (ac_landing_pad a =? 0) eqn:El; [by injection H as <-|]. bool_to_prop.
  destruct (ac_table_entry a =? 0); [by injection H as <-|].
  apply action_loop_shape in H as [Hs Hl]; [|done]. split; [done|]. by rewrite Hl.
Qed.

Lemma description_indep fuel w w2 ip p1 p2 eid region a :
  has_phase p1 UA_FORCE_UNWIND = has_phase p2 UA_FORCE_UNWIND ->
  (forall choice eid, is_handled_by (C := C) m w2 choice eid exc =
                      is_handled_by (C := C) m w choice eid exc) ->
  get_action_description_for (C := C) m fuel w2 ip exc p2 eid region a =
  get_action_description_for (C := C) m fuel w ip exc p1 eid region a.
Proof.
  intros Hp Hw. unfold get_action_description_for.
  destruct (get_call_site_action_for _ _ _ _ _); try done. rewrite !res_bind_ok.
  by rewrite (action_loop_indep _ w w2 p1 p2).
Qed.

(** The two ways the routine can go on from the action it found. *)
Lemma personality_cases fuel phases cls c w r :
  gnat_personality_v0 m fuel 1 phases cls exc (Some c) w = Ok r ->
  r = (URC_CONTINUE_UNWIND, Some c, w) \/
  exists region a eid,
    get_region_description_for m (Some c) = Ok (Some region) /\
    get_action_description_for (C := C) m fuel w (get_ip_from_context c) exc phases 0 region
      (Action kind_unknown 0 0 0) = Ok (a, eid) /\ ac_kind a <> kind_nothing /\
    if has_phase phases UA_SEARCH_PHASE
    then ac_kind a <> kind_cleanup /\ exists w', r = (URC_HANDLER_FOUND, Some c, w')
    else exists w', r = (URC_INSTALL_CONTEXT,
           Some (setup_to_install c exc (ac_landing_pad a) (i32 (ac_ttype_filter a))), w').
Proof.
  unfold gnat_personality_v0, personality_body. cbn [Z.eqb Pos.eqb negb]. intros H.
  destruct (get_region_description_for m (Some c)) as [[region|]| | | |]; try discriminate H;
    rewrite res_bind_ok in H; [|injection H as <-; by left].
  destruct (get_action_description_for _ _ _ _ _ _ _ _) as [[a eid]| | | |] eqn:E;
    try discriminate H. rewrite res_bind_ok in H. cbv beta iota zeta in H.
  case_bool_decide as Ek; [injection H as <-; by left|].
  destruct (has_phase phases UA_SEARCH_PHASE) eqn:Ep.
  - case_bool_decide as Ec; [injection H as <-; by left|]. right. exists region, a, eid.
    destruct (setup_current_excep _ _ _ _). injection H as <-. naive_solver.
  - right. exists region, a, eid. destruct (setup_current_excep _ _ _ _).
    injection H as <-. naive_solver.
Qed.

End any_tables.

(** ** Theorems *)

(** C9. On a frame whose exception tables the compiler laid out ([frame_at]),
    the personality routine returns, for every Ada exception and every phase,
    and does exactly what the tables say: it finds the call site that covers
    the instruction pointer, takes the first handler of its action list whose
    choice matches the exception by the rules of Ada (never one in a forced
    unwind), otherwise the cleanup if there is one; it reports a handler to
    the search phase after notifying the run time, passes over cleanups there,
    and installs the landing pad in the second phase.  [frame_fuel F] rounds
    of its loops are enough. *)
Theorem personality_refines {C W} `{!Unwinder C} `{!AdaRts W} m (c : C) F tt_base (w : W)
    exc phases cls fuel :
  frame_at m c F tt_base ->
  load_le m 8 (u64 (exc + uexc_class_off)) = Ok GNAT_EXCEPTION_CLASS ->
  (frame_fuel F <= fuel)%nat ->
  gnat_personality_v0 m fuel 1 phases cls exc (Some c) w =
  Ok (act_on phases exc c w
        (frame_action F (Unwind_GetRegionStart c) (get_ip_from_context c)
           (has_phase phases UA_FORCE_UNWIND)
           (fun f => ada_match w exc
                       (choice_of F (Unwind_GetLanguageSpecificData c) tt_base f)))).
Proof. intros HF Hexc Hfuel. by apply (personality_frame m c F tt_base HF w exc phases Hexc). Qed.

(** C36. The two phases of an unwind agree, whatever the tables hold: when the
    search phase reports a handler in a frame, it has left the frame's context
    unchanged, and the second phase at that frame installs a context that
    jumps to a non-null landing pad with a positive filter, provided the
    exception still matches the same choices. *)
Theorem phases_agree {C W} `{!Unwinder C} `{!AdaRts W} m fuel (c : C) ctx (w w1 w2 : W)
    exc p1 p2 cls :
  has_phase p1 UA_SEARCH_PHASE = true -> has_phase p2 UA_SEARCH_PHASE = false ->
  has_phase p1 UA_FORCE_UNWIND = has_phase p2 UA_FORCE_UNWIND ->
  (forall choice eid, is_handled_by (C := C) m w2 choice eid exc =
                      is_handled_by (C := C) m w choice eid exc) ->
  gnat_personality_v0 m fuel 1 p1 cls exc (Some c) w = Ok (URC_HANDLER_FOUND, ctx, w1) ->
  ctx = Some c /\
  exists landing_pad filter w3, landing_pad <> 0 /\ 0 < filter /\
    gnat_personality_v0 m fuel 1 p2 cls exc (Some c) w2 =
    Ok (URC_INSTALL_CONTEXT, Some (setup_to_install c exc landing_pad (i32 filter)), w3).
Proof.
  intros H1 H2 Hf Hw H. apply personality_cases in H as [H|(region & a & eid & Er & Ea & Hk & H)];
    [done|]. rewrite H1 in H. destruct H as (Hc & w' & H). injection H as -> ->.
  split; [done|]. destruct (description_shape _ _ _ _ _ _ _ _ _ Ea) as [Hs Hl]. cbn [fst] in *.
  exists (ac_landing_pad a), (ac_ttype_filter a), (setup_current_excep exc p2 eid w2).2.
  split; [by apply Hl|]. split; [unfold action_shape in Hs; by destruct (ac_kind a), Hs|].
  unfold gnat_personality_v0, personality_body. cbn [Z.eqb Pos.eqb negb].
  rewrite Er, res_bind_ok. cbv beta iota zeta.
  rewrite (description_indep _ _ _ w w2 _ p1 p2), Ea, res_bind_ok by done. cbv beta iota.
  rewrite bool_decide_false, H2 by done. by destruct (setup_current_excep _ _ _ _).
Qed.

(** A forced unwind (a task abort, an unhandled exception) runs cleanups
    only, whatever the tables hold: with the force flag the routine never
    reports a handler, and if it installs a context, that is a cleanup: the
    filter register holds 0 and the landing pad is not null.  Otherwise it
    leaves the context and the run time as they were. *)
Theorem forced_unwind_cleanups {C W} `{!Unwinder C} `{!AdaRts W} m fuel (c : C) (w : W)
    exc phases cls r :
  has_phase phases UA_FORCE_UNWIND = true ->
  gnat_personality_v0 m fuel 1 phases cls exc (Some c) w = Ok r ->
  r = (URC_CONTINUE_UNWIND, Some c, w) \/
  exists landing_pad w', landing_pad <> 0 /\ has_phase phases UA_SEARCH_PHASE = false /\
    r = (URC_INSTALL_CONTEXT, Some (setup_to_install c exc landing_pad 0), w').
Proof.
  intros Hf H. apply personality_cases in H as [H|(region & a & eid & Er & Ea & Hk & H)];
    [by left|]. right. destruct (description_shape _ _ _ _ _ _ _ _ _ Ea) as [Hs Hl]. cbn [fst] in *.
  unfold action_shape in Hs. rewrite Hf in Hs.
  destruct (ac_kind a) eqn:Ek; try done; [|by destruct Hs..].
  destruct (has_phase phases UA_SEARCH_PHASE); [by destruct H|]. destruct H as [w' ->].
  rewrite Hs. exists (ac_landing_pad a), w'. split; [by apply Hl|]. done.
Qed.

(** ** A frame to run on

    The constants of the Itanium C++ ABI; the run time records what it is
    told. *)
Record toy_context := ToyContext {
  tc_ip : Z; tc_lsda : Z; tc_start : Z; tc_regs : list (Z * Z) }.

#[export] Instance toy_unwinder : Unwinder toy_context := {|
  UA_SEARCH_PHASE := 1; UA_FORCE_UNWIND := 8; UA_END_OF_STACK := 16;
  uexc_size := 32; uexc_class_off := 0;
  eh_return_data_regno i := 10 + i;
  Unwind_GetIPInfo c := (tc_ip c, 0);
  Unwind_GetLanguageSpecificData := tc_lsda;
  Unwind_GetRegionStart := tc_start;
  Unwind_GetTextRelBase c := 0;
  Unwind_GetDataRelBase c := 0;
  Unwind_SetGR r v c := ToyContext (tc_ip c) (tc_lsda c) (tc_start c) ((r, v) :: tc_regs c);
  Unwind_SetIP v c := ToyContext v (tc_lsda c) (tc_start c) (tc_regs c)
|}.

Inductive toy_event :=
| Setup (exc phases eid : Z) | Handled (x : Z) | Unhandled (x : Z) | Terminated (exc : Z).

#[export] Instance toy_ada : AdaRts (list toy_event) := {|
  GNAT_OTHERS := 0x500; GNAT_ALL_OTHERS := 0x510; GNAT_UNHANDLED_OTHERS := 0x520;
  Foreign_Exception := 0x530;
  EID_For _ _ := 0x501;
  Is_Handled_By_Others _ _ := true;
  Language_For _ _ := 65;
  Foreign_Data_For _ _ := 0;
  convert_caught_object _ _ _ p _ := (false, p);
  setup_current_excep e p i w := (0x600, w ++ [Setup e p i]);
  notify_handled_exception x w := w ++ [Handled x];
  notify_unhandled_exception x w := w ++ [Unhandled x];
  unhandled_except_handler e w := w ++ [Terminated e]
|}.

(** Three call sites: no landing pad; a handler for another exception, then
    [when others], then a cleanup; a cleanup only. *)
Definition demo_frame : frame :=
  Frame 0x01 [CallSite 0 0x10 0 0 []; CallSite 0x10 0x20 0x40 1 [2; 1; 0];
              CallSite 0x30 8 0x50 0 []]
    [2; 1; 1; 1; 0; 0] 0x03 [0x500; 0x777].

Definition demo_exc : Z := 0x9000.

Definition demo_memory : memory := fun a =>
  match rom 0x4000 (lsda_bytes demo_frame) a with
  | Some b => Some b
  | None => rom demo_exc (le_bytes 8 GNAT_EXCEPTION_CLASS) a
  end.

Definition demo_context (ip : Z) : toy_context := ToyContext ip 0x4000 0x1000 [].

Lemma demo_frame_at ip : frame_at demo_memory (demo_context ip) demo_frame 0.
Proof.
  split; cbn [tc_lsda demo_context Unwind_GetLanguageSpecificData toy_unwinder
    Unwind_GetRegionStart tc_start].
  - done.
  - vm_compute. tauto.
  - vm_compute. reflexivity.
  - repeat constructor; vm_compute; congruence.
  - cbn. repeat constructor; cbn; lia.
  - reflexivity.
  - right. split; [repeat split; discriminate|]. repeat constructor.
  - apply Forall_cons. split; [done|]. apply Forall_cons.
    split; [|apply Forall_cons; split; [done|constructor]].
    cbn [cs_lp cs_action cs_filters]. intros _ _. split; [repeat constructor; cbn; lia|]. split; [by vm_compute|].
    apply chain_next with (d := 1); [lia..|by vm_compute|].
    apply chain_next with (d := 1); [lia..|by vm_compute|].
    apply chain_last; [lia|by vm_compute].
Qed.

Lemma personality_refines_witness :
  frame_at demo_memory (demo_context 0x1021) demo_frame 0 /\
  gnat_personality_v0 demo_memory 10 1 1 0 demo_exc (Some (demo_context 0x1021)) [] =
  Ok (URC_HANDLER_FOUND, Some (demo_context 0x1021), [Setup demo_exc 1 0; Handled 0x600]) /\
  gnat_personality_v0 demo_memory 10 1 2 0 demo_exc (Some (demo_context 0x1021)) [] =
  Ok (URC_INSTALL_CONTEXT,
      Some (ToyContext 0x1040 0x4000 0x1000 [(11, 1); (10, demo_exc)]), [Setup demo_exc 2 0]).
Proof.
  pose proof (demo_frame_at 0x1021) as HF. split; [exact HF|].
  rewrite !(personality_refines demo_memory (demo_context 0x1021) demo_frame 0);
    [split; vm_compute; reflexivity | first [exact HF | vm_compute; reflexivity | cbn; lia]..].
Defined.

Lemma phases_agree_witness :
  gnat_personality_v0 demo_memory 10 1 1 0 demo_exc (Some (demo_context 0x1021)) [] =
  Ok (URC_HANDLER_FOUND, Some (demo_context 0x1021), [Setup demo_exc 1 0; Handled 0x600]) /\
  exists landing_pad filter w3, landing_pad <> 0 /\ 0 < filter /\
    gnat_personality_v0 demo_memory 10 1 6 0 demo_exc (Some (demo_context 0x1021)) [] =
    Ok (URC_INSTALL_CONTEXT,
        Some (setup_to_install (demo_context 0x1021) demo_exc landing_pad (i32 filter)), w3).
Proof.
  split; [vm_compute; reflexivity|].
  apply (phases_agree demo_memory 10 (demo_context 0x1021) (Some (demo_context 0x1021)) []
           [Setup demo_exc 1 0; Handled 0x600] [] demo_exc 1 6 0);
    first [reflexivity | vm_compute; reflexivity | intros; reflexivity].
Defined.

Lemma forced_unwind_cleanups_witness :
  gnat_personality_v0 demo_memory 10 1 10 0 demo_exc (Some (demo_context 0x1021)) [] =
  Ok (URC_INSTALL_CONTEXT,
      Some (ToyContext 0x1040 0x4000 0x1000 [(11, 0); (10, demo_exc)]), [Setup demo_exc 10 0]) /\
  exists landing_pad w', landing_pad <> 0 /\ has_phase 10 UA_SEARCH_PHASE = false /\
    (URC_INSTALL_CONTEXT,
      Some (ToyContext 0x1040 0x4000 0x1000 [(11, 0); (10, demo_exc)]), [Setup demo_exc 10 0]) =
    (URC_INSTALL_CONTEXT, Some (setup_to_install (demo_context 0x1021) demo_exc landing_pad 0), w').
Proof.
  split; [vm_compute; reflexivity|].
  destruct (forced_unwind_cleanups demo_memory 10 (demo_context 0x1021) [] demo_exc 10 0
    (URC_INSTALL_CONTEXT,
      Some (ToyContext 0x1040 0x4000 0x1000 [(11, 0); (10, demo_exc)]), [Setup demo_exc 10 0]))
    as [H|H]; [reflexivity | vm_compute; reflexivity | discriminate H | exact H].
Defined.
