(* ===== verification/Font.v ===== *)
(** * The FreeType shim

    [freetype/port/ftaegir.c]: faces opened from memory and the metrics and
    bitmaps of their glyphs.  FreeType and the C heap are the interface
    [FreeType]; a world [W] is everything behind it.  The shim's own state is
    the library handle and the block of each open face. *)
From S2P Require Import Prelude CInt.

(** The fields of a rendered glyph slot. *)
Record slot := Slot {
  sl_pixel_mode : Z; sl_left : Z; sl_top : Z; sl_width : Z; sl_rows : Z;
  sl_pitch : Z; sl_buffer : Z }.

Class FreeType (W : Type) := {
  FT_LOAD_DEFAULT : Z;
  FT_RENDER_MODE_NORMAL : Z;
  FT_PIXEL_MODE_GRAY : Z;
  FT_KERNING_DEFAULT : Z;
  (* the error, and the handle it stored, if it stored one *)
  FT_Init_FreeType : W -> (Z * option Z) * W;
  FT_New_Memory_Face : Z -> Z -> Z -> Z -> W -> (Z * Z) * W;
  FT_Set_Pixel_Sizes : Z -> Z -> Z -> W -> Z * W;
  FT_Done_Face : Z -> W -> W;
  FT_Get_Postscript_Name : W -> Z -> option (list Z);
  size_ascender : W -> Z -> Z;
  size_descender : W -> Z -> Z;
  FT_Get_Char_Index : W -> Z -> Z -> Z;
  FT_Load_Glyph : Z -> Z -> Z -> W -> Z * W;
  FT_Render_Glyph : Z -> Z -> W -> Z * W;
  glyph_advance_x : W -> Z -> Z;
  glyph_slot : W -> Z -> slot;
  (* the error and k.x *)
  FT_Get_Kerning : W -> Z -> Z -> Z -> Z -> Z * Z;
  ft_malloc : Z -> W -> Z * W;
  ft_free : Z -> W -> W
}.

(** [g_lib], the [struct aegir_ft_face] blocks by address, and the world. *)
Record shim (W : Type) := Shim { g_lib : Z; ft_blocks : gmap Z Z; ft_world : W }.
Arguments Shim {W} _ _ _.
Arguments g_lib {W} _.
Arguments ft_blocks {W} _.
Arguments ft_world {W} _.

Section shim.
Context {W : Type} `{!FreeType W}.
Notation FT := (M (shim W)).

(** A call of FreeType. *)
Definition call_ft {A} (f : W -> A * W) : FT A := fun s =>
  let '(a, w) := f (ft_world s) in Done a (Shim (g_lib s) (ft_blocks s) w).

Definition free_block (v : Z) : FT unit := fun s =>
  Done tt (Shim (g_lib s) (delete v (ft_blocks s)) (ft_free v (ft_world s))).

Definition done_face (face : Z) : FT unit :=
  call_ft (fun w => (tt, FT_Done_Face face w)).

(** [f->face]: [v] is the address of a live block. *)
Definition face_of (v : Z) (s : shim W) : Z := default 0 (ft_blocks s !! v).

Definition set_face (v face : Z) : FT unit := modifyM (fun s =>
  Shim (g_lib s) (<[v := face]> (ft_blocks s)) (ft_world s)).

Definition aegir_ft_lib : FT Z :=
  let* lib := getsM g_lib in
  if lib =? 0 then
    let* r := call_ft FT_Init_FreeType in
    modifyM (fun s => Shim (default (g_lib s) r.2) (ft_blocks s) (ft_world s));;
    retM r.1
  else retM 0.

(** [data] is the address of the font file, [len] and [px] unsigned. *)
Definition aegir_ft_open (data len px : Z) : FT Z :=
  if (data =? 0) || (len =? 0) then retM 0 else
  let* e := aegir_ft_lib in
  if negb (e =? 0) then retM 0 else
  let* f := call_ft (ft_malloc 8) in
  if f =? 0 then retM 0 else
  let* lib := getsM g_lib in
  let* r := call_ft (FT_New_Memory_Face lib data len 0) in
  set_face f r.2;;
  if negb (r.1 =? 0) then free_block f;; retM 0 else
  let* face := getsM (face_of f) in
  let* rc := call_ft (FT_Set_Pixel_Sizes face 0 px) in
  if negb (rc =? 0) then
    let* face := getsM (face_of f) in
    done_face face;; free_block f;; retM 0
  else retM f.

Definition aegir_ft_close (v : Z) : FT unit :=
  if v =? 0 then retM tt else
  let* face := getsM (face_of v) in
  done_face face;; free_block v.

Definition aegir_ft_family (v : Z) : FT (list Z) :=
  if v =? 0 then retM [] else
  let* face := getsM (face_of v) in
  let* n := getsM (fun s => FT_Get_Postscript_Name (ft_world s) face) in
  retM (default [] n).

(** [(int) ((x + 32) >> 6)] *)
Definition px_of_26_6 (x : Z) : Z := i32 (Z.shiftr (i64 (x + 32)) 6).

Definition aegir_ft_ascent (v : Z) : FT Z :=
  if v =? 0 then retM 0 else
  let* face := getsM (face_of v) in
  getsM (fun s => px_of_26_6 (size_ascender (ft_world s) face)).

Definition aegir_ft_descent (v : Z) : FT Z :=
  if v =? 0 then retM 0 else
  let* face := getsM (face_of v) in
  getsM (fun s => px_of_26_6 (i64 (- size_descender (ft_world s) face))).

Definition aegir_ft_advance_x (v cp : Z) : FT Z :=
  if v =? 0 then retM 0 else
  let* face := getsM (face_of v) in
  let* idx := getsM (fun s => FT_Get_Char_Index (ft_world s) face cp) in
  if idx =? 0 then retM 0 else
  let* e := call_ft (FT_Load_Glyph face idx FT_LOAD_DEFAULT) in
  if negb (e =? 0) then retM 0 else
  getsM (fun s => px_of_26_6 (glyph_advance_x (ft_world s) face)).

(** What [aegir_ft_glyph] stores through its out-pointers. *)
Record glyph := Glyph {
  gl_left : Z; gl_top : Z; gl_w : Z; gl_h : Z; gl_pitch : Z; gl_bits : Z }.
Definition no_glyph : glyph := Glyph 0 0 0 0 0 0.

Definition aegir_ft_glyph (v cp : Z) : FT (Z * glyph) :=
  if v =? 0 then retM (1, no_glyph) else
  let* face := getsM (face_of v) in
  let* idx := getsM (fun s => FT_Get_Char_Index (ft_world s) face cp) in
  if idx =? 0 then retM (1, no_glyph) else
  let* e := call_ft (FT_Load_Glyph face idx FT_LOAD_DEFAULT) in
  if negb (e =? 0) then retM (1, no_glyph) else
  let* e := call_ft (FT_Render_Glyph face FT_RENDER_MODE_NORMAL) in
  if negb (e =? 0) then retM (1, no_glyph) else
  let* sl := getsM (fun s => glyph_slot (ft_world s) face) in
  if negb (sl_pixel_mode sl =? FT_PIXEL_MODE_GRAY) then retM (1, no_glyph) else
  retM (0, Glyph (sl_left sl) (sl_top sl) (i32 (sl_width sl)) (i32 (sl_rows sl))
             (sl_pitch sl) (sl_buffer sl)).

Definition aegir_ft_has (v cp : Z) : FT Z :=
  if v =? 0 then retM 0 else
  let* face := getsM (face_of v) in
  getsM (fun s => if negb (FT_Get_Char_Index (ft_world s) face cp =? 0) then 1 else 0).

Definition aegir_ft_kerning (v l r : Z) : FT Z :=
  if v =? 0 then retM 0 else
  let* face := getsM (face_of v) in
  let* k := getsM (fun s =>
    FT_Get_Kerning (ft_world s) face (u32 l) (u32 r) FT_KERNING_DEFAULT) in
  if negb (k.1 =? 0) then retM 0 else retM (px_of_26_6 k.2).

End shim.

(** ** Laws of FreeType and of the heap

    [faces w]: the faces FreeType holds open; [heap w]: the blocks the shim
    holds. *)
Class FreeTypeLaws (W : Type) `{!FreeType W} (faces heap : W -> gset Z) : Prop := {
  init_books w : faces (FT_Init_FreeType w).2 = faces w /\ heap (FT_Init_FreeType w).2 = heap w;
  new_face_books lib d l i w e f w' :
    FT_New_Memory_Face lib d l i w = ((e, f), w') ->
    heap w' = heap w /\
    if e =? 0 then (f ∉ faces w) /\ (faces w' = {[f]} ∪ faces w) else faces w' = faces w;
  set_sizes_books f x y w :
    faces (FT_Set_Pixel_Sizes f x y w).2 = faces w /\ heap (FT_Set_Pixel_Sizes f x y w).2 = heap w;
  done_face_books f w :
    faces (FT_Done_Face f w) = faces w ∖ {[f]} /\ heap (FT_Done_Face f w) = heap w;
  load_books f i l w :
    faces (FT_Load_Glyph f i l w).2 = faces w /\ heap (FT_Load_Glyph f i l w).2 = heap w;
  render_books f l w :
    faces (FT_Render_Glyph f l w).2 = faces w /\ heap (FT_Render_Glyph f l w).2 = heap w;
  malloc_books n w a w' :
    ft_malloc n w = (a, w') ->
    faces w' = faces w /\
    if a =? 0 then heap w' = heap w else (a ∉ heap w) /\ (heap w' = {[a]} ∪ heap w);
  free_books a w : faces (ft_free a w) = faces w /\ heap (ft_free a w) = heap w ∖ {[a]}
}.

Section books.
Context {W : Type} `{!FreeType W} {faces heap : W -> gset Z} `{!FreeTypeLaws W faces heap}.

(** Every face FreeType holds open belongs to exactly one live block of the
    shim, and the blocks are the heap's. *)
Record font_books (s : shim W) : Prop := {
  fb_heap : heap (ft_world s) = dom (ft_blocks s);
  fb_faces face : face ∈ faces (ft_world s) <-> exists v, ft_blocks s !! v = Some face;
  fb_inj v v' face : ft_blocks s !! v = Some face -> ft_blocks s !! v' = Some face -> v = v'
}.

(** The exports of the shim; a handle argument is null or live. *)
Inductive font_call :=
| COpen (data len px : Z) | CClose (v : Z) | CFamily (v : Z) | CAscent (v : Z)
| CDescent (v : Z) | CAdvance (v cp : Z) | CGlyph (v cp : Z) | CHas (v cp : Z)
| CKerning (v l r : Z).

Definition run_call (c : font_call) : M (shim W) unit :=
  match c with
  | COpen d l p => aegir_ft_open d l p;; retM tt
  | CClose v => aegir_ft_close v
  | CFamily v => aegir_ft_family v;; retM tt
  | CAscent v => aegir_ft_ascent v;; retM tt
  | CDescent v => aegir_ft_descent v;; retM tt
  | CAdvance v cp => aegir_ft_advance_x v cp;; retM tt
  | CGlyph v cp => aegir_ft_glyph v cp;; retM tt
  | CHas v cp => aegir_ft_has v cp;; retM tt
  | CKerning v l r => aegir_ft_kerning v l r;; retM tt
  end.

Definition handle_of (c : font_call) : option Z :=
  match c with
  | COpen _ _ _ => None
  | CClose v | CFamily v | CAscent v | CDescent v | CAdvance v _ | CGlyph v _
  | CHas v _ | CKerning v _ _ => Some v
  end.

Definition valid_call (c : font_call) (s : shim W) : Prop :=
  match handle_of c with None => True | Some v => v = 0 \/ is_Some (ft_blocks s !! v) end.

Inductive font_step (s : shim W) : shim W -> Prop :=
| font_step_call c s' : valid_call c s -> run_call c s = Done tt s' -> font_step s s'.

(** Same blocks, same faces, same heap. *)
Record font_same (s s' : shim W) : Prop := {
  fs_blocks : ft_blocks s' = ft_blocks s;
  fs_faces : faces (ft_world s') = faces (ft_world s);
  fs_heap : heap (ft_world s') = heap (ft_world s) }.

Lemma font_same_refl s : font_same s s.
Proof. done. Qed.

Lemma font_same_trans s1 s2 s3 : font_same s1 s2 -> font_same s2 s3 -> font_same s1 s3.
Proof. intros [A B D] [A' B' D']. split; congruence. Qed.

Lemma font_same_books s s' : font_same s s' -> font_books s -> font_books s'.
Proof. intros [E1 E2 E3] [H1 H2 H3]. split; rewrite ?E1, ?E2, ?E3; done. Qed.

(** [still c]: the call returns and changes neither faces nor blocks. *)
Definition still {A} (c : M (shim W) A) : Prop := forall s, wp c (fun _ s' => font_same s s') s.

Lemma still_ret {A} (a : A) : still (retM a).
Proof. done. Qed.

Lemma still_gets {A} (f : shim W -> A) : still (getsM f).
Proof. done. Qed.

Lemma still_bind {A B} (c : M (shim W) A) (k : A -> M (shim W) B) :
  still c -> (forall a, still (k a)) -> still (bindM c k).
Proof.
  intros Hc Hk s. apply wp_bind. eapply wp_mono; [|apply Hc]. intros a s' H.
  eapply wp_mono; [|apply Hk]. intros b s''. by apply font_same_trans.
Qed.

Lemma still_if {A} (b : bool) (c1 c2 : M (shim W) A) :
  still c1 -> still c2 -> still (if b then c1 else c2).
Proof. by destruct b. Qed.

Lemma still_call {A} (f : W -> A * W) :
  (forall w, faces (f w).2 = faces w /\ heap (f w).2 = heap w) -> still (call_ft f).
Proof.
  intros Hf s. destruct (Hf (ft_world s)) as [H1 H2]. unfold wp, call_ft.
  destruct (f (ft_world s)). by split.
Qed.

Lemma still_load f i l : still (call_ft (FT_Load_Glyph f i l)).
Proof. apply still_call. intros. apply load_books. Qed.

Lemma still_render f l : still (call_ft (FT_Render_Glyph f l)).
Proof. apply still_call. intros. apply render_books. Qed.

Lemma still_sizes f x y : still (call_ft (FT_Set_Pixel_Sizes f x y)).
Proof. apply still_call. intros. apply set_sizes_books. Qed.

Lemma still_lib : still aegir_ft_lib.
Proof.
  apply still_bind; [apply still_gets|]. intros lib. apply still_if; [|apply still_ret].
  apply still_bind; [apply still_call; intros; apply init_books|]. done.
Qed.

Ltac still_tac :=
  repeat first [apply still_ret | apply still_gets | apply still_load | apply still_render
    | apply still_sizes | apply still_if | apply still_bind; [|intros ?]].

Lemma still_calls c :
  match c with COpen _ _ _ | CClose _ => True | _ => still (run_call c) end.
Proof.
  destruct c; try done; cbn [run_call];
    unfold aegir_ft_family, aegir_ft_ascent, aegir_ft_descent, aegir_ft_advance_x,
      aegir_ft_glyph, aegir_ft_has, aegir_ft_kerning; still_tac.
Qed.

Lemma wp_still {A B} (c : M (shim W) A) (k : A -> M (shim W) B) Q s :
  still c -> (forall a s', font_same s s' -> wp (k a) Q s') -> wp (bindM c k) Q s.
Proof. intros Hc Hk. apply wp_bind. eapply wp_mono; [|apply Hc]. exact Hk. Qed.

(** What a call of [aegir_ft_open] leaves behind. *)
Definition opened (s : shim W) (v : Z) (s' : shim W) : Prop :=
  font_books s' /\
  if v =? 0 then ft_blocks s' = ft_blocks s
  else exists face, ft_blocks s !! v = None /\ ft_blocks s' = <[v := face]> (ft_blocks s).

(** A new block [f] whose face is not open yet. *)
Record half_open (s : shim W) (f : Z) (s' : shim W) : Prop := {
  ho_new : ft_blocks s !! f = None;
  ho_blocks : delete f (ft_blocks s') = ft_blocks s;
  ho_heap : heap (ft_world s') = {[f]} ∪ heap (ft_world s) }.

Lemma close_half s f s1 s2 :
  font_books s -> half_open s f s1 -> faces (ft_world s1) = faces (ft_world s) ->
  free_block f s1 = Done tt s2 -> font_books s2 /\ ft_blocks s2 = ft_blocks s.
Proof.
  intros [B1 B2 B3] [H1 H2 H3] Hf [= <-]. cbn.
  destruct (free_books f (ft_world s1)) as [E1 E2]. rewrite H2. split; [|done].
  split; cbn; rewrite ?H2, ?E1, ?E2, ?Hf; [|done..].
  rewrite H3, B1. apply not_elem_of_dom in H1. set_solver.
Qed.

Lemma open_half s f s1 face :
  font_books s -> half_open s f s1 -> ft_blocks s1 = <[f := face]> (ft_blocks s) ->
  face ∉ faces (ft_world s) -> faces (ft_world s1) = {[face]} ∪ faces (ft_world s) ->
  font_books s1.
Proof.
  intros [B1 B2 B3] [H1 H2 H3] Hb Hn Hf.
  assert (Hne : forall v, ft_blocks s !! v = Some face -> False).
  { intros v Hv. apply Hn, B2. by exists v. }
  split.
  - rewrite H3, Hb, dom_insert_L, B1. done.
  - intros x. rewrite Hf, elem_of_union, elem_of_singleton, B2, Hb. split.
    + intros [->|[v Hv]]; [exists f; by rewrite lookup_insert_eq|].
      exists v. rewrite lookup_insert_ne; [done|]. intros ->. congruence.
    + intros [v Hv]. destruct (decide (f = v)) as [->|].
      * rewrite lookup_insert_eq in Hv. injection Hv as <-. by left.
      * rewrite lookup_insert_ne in Hv by done. right. by exists v.
  - intros v v' x. rewrite Hb. destruct (decide (f = v)) as [<-|], (decide (f = v')) as [<-|].
    + done.
    + rewrite lookup_insert_eq, lookup_insert_ne by done. intros [= ->] ?. exfalso. eauto.
    + rewrite lookup_insert_eq, lookup_insert_ne by done. intros ? [= ->]. exfalso. eauto.
    + rewrite !lookup_insert_ne by done. apply B3.
Qed.

Lemma open_spec d l p s : font_books s -> wp (aegir_ft_open d l p) (opened s) s.
Proof.
  intros HB. unfold aegir_ft_open. destruct (_ || _); [by split|].
  apply wp_still; [apply still_lib|]. intros e s1 E1. pose proof (font_same_books _ _ E1 HB) as HB1.
  destruct (negb (e =? 0)); [split; [done|apply E1]|].
  apply wp_bind. unfold wp at 1, call_ft at 1.
  destruct (ft_malloc 8 (ft_world s1)) as [f w2] eqn:Em. apply malloc_books in Em as [Ef Eh].
  destruct (f =? 0) eqn:E0; [split; [|by apply E1]; by eapply font_same_books; [|exact HB1]|].
  destruct Eh as [Hfresh Eh]. rewrite (fb_heap _ HB1) in Hfresh. apply not_elem_of_dom in Hfresh.
  apply wp_bind. cbn [wp getsM]. apply wp_bind. unfold wp at 1, call_ft at 1. cbn [ft_world g_lib].
  destruct (FT_New_Memory_Face _ _ _ _ w2) as [[rc face] w3] eqn:En.
  apply new_face_books in En as [Eh3 En]. cbn [fst snd].
  apply wp_bind. cbn [wp set_face modifyM g_lib ft_blocks ft_world].
  set (s4 := Shim _ _ w3).
  assert (H4 : half_open s1 f s4).
  { split; [done|..]; cbn; [by rewrite delete_insert_id|]. by rewrite Eh3, Eh. }
  rewrite Ef in En. destruct (rc =? 0) eqn:Erc; cbn [negb].
  - destruct En as [Hnew En]. apply wp_bind. cbn [wp getsM].
    apply wp_still; [apply still_sizes|]. intros rc2 s5 E5.
    assert (H5 : half_open s1 f s5).
    { destruct H4, E5. split; [done|by rewrite fs_blocks0|by rewrite fs_heap0]. }
    assert (Hb5 : ft_blocks s5 = <[f := face]> (ft_blocks s1)) by (by rewrite (fs_blocks _ _ E5)).
    assert (Hf5 : faces (ft_world s5) = {[face]} ∪ faces (ft_world s1)).
    { rewrite (fs_faces _ _ E5). done. }
    destruct (negb (rc2 =? 0)).
    + apply wp_bind. cbn [wp getsM]. apply wp_bind. unfold wp at 1, done_face, call_ft.
      unfold face_of. rewrite Hb5, lookup_insert_eq. cbn [default].
      set (s6 := Shim _ _ _). apply wp_bind. unfold wp at 1.
      destruct (free_block f s6) as [[] s7|] eqn:E7; [|done].
      destruct (done_face_books face (ft_world s5)) as [D1 D2].
      destruct (close_half s1 f s6 s7) as [HB7 Eb7]; [done| | |done|].
      * destruct H5. split; [done|cbn; by rewrite <- Hb5|cbn; by rewrite D2].
      * cbn. rewrite D1, Hf5. set_solver.
      * split; [done|]. cbn. by rewrite Eb7, (fs_blocks _ _ E1).
    + split; [by eapply open_half|]. rewrite E0. exists face.
      by rewrite <- (fs_blocks _ _ E1).
  - apply wp_bind. unfold wp at 1. destruct (free_block f s4) as [[] s5|] eqn:E5; [|done].
    destruct (close_half s1 f s4 s5) as [HB5 Eb5]; [done|done|exact En|done|].
    split; [done|]. cbn. by rewrite Eb5, (fs_blocks _ _ E1).
Qed.

Lemma close_spec v s face :
  font_books s -> v <> 0 -> ft_blocks s !! v = Some face ->
  wp (aegir_ft_close v) (fun _ s' => font_books s' /\ ft_blocks s' = delete v (ft_blocks s)) s.
Proof.
  intros [B1 B2 B3] Hv Hf. unfold aegir_ft_close. rewrite (proj2 (Z.eqb_neq v 0) Hv).
  unfold wp, bindM, getsM, done_face, call_ft, free_block, face_of. rewrite Hf.
  cbn [ft_world ft_blocks g_lib default]. change (id face) with face. split; [|done].
  destruct (done_face_books face (ft_world s)) as [D1 D2].
  destruct (free_books v (FT_Done_Face face (ft_world s))) as [F1 F2].
  split; cbn [ft_world ft_blocks].
  - by rewrite F2, D2, B1, dom_delete_L.
  - intros x. rewrite F1, D1, elem_of_difference, elem_of_singleton, B2. split.
    + intros [[u Hu] Hne]. exists u. rewrite lookup_delete_ne; [done|]. intros ->. congruence.
    + intros [u Hu]. apply lookup_delete_Some in Hu as [Hne Hu]. split; [by exists u|].
      intros ->. by apply Hne, (B3 _ _ face).
  - intros u u' x Hu Hu'. apply lookup_delete_Some in Hu as [_ Hu].
    apply lookup_delete_Some in Hu' as [_ Hu']. by apply (B3 _ _ x).
Qed.

Lemma font_step_books s s' : font_books s -> font_step s s' -> font_books s'.
Proof.
  intros HB [c s'' Hv Hr]. destruct c as [d l p|v| | | | | | |];
    try (match type of Hr with run_call ?c _ = _ =>
           pose proof (still_calls c s) as Hq end;
         unfold wp in Hq; rewrite Hr in Hq; by eapply font_same_books).
  - pose proof (open_spec d l p s HB) as Ho. cbn [run_call] in Hr. unfold wp, bindM, retM in *.
    destruct (aegir_ft_open d l p s); [|done]. injection Hr as <-. apply Ho.
  - cbn in Hv. destruct (decide (v = 0)) as [->|Hv0].
    + cbn in Hr. by injection Hr as <-.
    + destruct Hv as [?|[face Hf]]; [done|]. pose proof (close_spec v s face HB Hv0 Hf) as Hc.
      cbn [run_call] in Hr. unfold wp in Hc. rewrite Hr in Hc. apply Hc.
Qed.

End books.

(** ** Theorems *)

Lemma books_determined {W} `{!FreeType W} {faces heap : W -> gset Z} (s s' : shim W) :
  font_books (faces := faces) (heap := heap) s -> font_books (faces := faces) (heap := heap) s' ->
  ft_blocks s' = ft_blocks s -> font_same (faces := faces) (heap := heap) s s'.
Proof.
  intros [A1 A2 A3] [B1 B2 B3] E. split; [done| |congruence].
  apply set_eq. intros x. by rewrite A2, B2, E.
Qed.

(** [aegir_ft_open] always returns, and leaks nothing on any of its error
    paths: a null result leaves FreeType's faces and the shim's blocks as they
    were; a handle is a fresh block that owns a fresh face, and
    [aegir_ft_close] of that handle restores both exactly. *)
Theorem font_open_close {W} `{!FreeType W} {faces heap : W -> gset Z}
    `{!FreeTypeLaws W faces heap} (data len px : Z) (s : shim W) :
  font_books (faces := faces) (heap := heap) s ->
  wp (aegir_ft_open data len px) (fun v s' =>
    if v =? 0 then font_same (faces := faces) (heap := heap) s s'
    else is_Some (ft_blocks s' !! v) /\ ft_blocks s !! v = None /\
         wp (aegir_ft_close v)
           (fun _ s'' => font_same (faces := faces) (heap := heap) s s'') s') s.
Proof.
  intros HB. eapply wp_mono; [|by apply open_spec]. intros v s' [HB' Ho].
  destruct (v =? 0) eqn:Ev; [by apply books_determined|]. bool_to_prop.
  destruct Ho as (face & Hn & E).
  assert (Hv : ft_blocks s' !! v = Some face) by (rewrite E; apply lookup_insert_eq).
  split; [by exists face|]. split; [done|].
  eapply wp_mono; [|by eapply (close_spec v s' face)]. intros _ s'' [HB'' E''].
  apply books_determined; [done..|]. by rewrite E'', E, delete_insert_id.
Qed.

(** Over any sequence of calls of the shim with null or live handles, the
    faces FreeType holds open are exactly those of the live handles: when
    every handle has been closed, no face and no block is left. *)
Theorem font_no_leak {W} `{!FreeType W} {faces heap : W -> gset Z}
    `{!FreeTypeLaws W faces heap} (s s' : shim W) :
  font_books (faces := faces) (heap := heap) s -> rtc font_step s s' ->
  font_books (faces := faces) (heap := heap) s' /\
  (ft_blocks s' = ∅ -> faces (ft_world s') = ∅ /\ heap (ft_world s') = ∅).
Proof.
  intros HB Hr. assert (HB' : font_books (faces := faces) (heap := heap) s').
  { induction Hr as [|s1 s2 s3 H1 _ IH]; [done|]. by apply IH, (font_step_books s1). }
  split; [done|]. destruct HB' as [H1 H2 _]. intros E. rewrite E in *. split.
  - apply set_eq. intros x. rewrite H2. setoid_rewrite lookup_empty. set_solver.
  - by rewrite H1, dom_empty_L.
Qed.

(** ** A small FreeType

    One font: the printable ASCII characters at indices 3 and up, a kerning
    pair at the indices of A and V, and one between indices 200 and 201.
    Opening at 7 pixels fails. *)
Record toy_ft := ToyFt { tf_faces : gset Z; tf_heap : gset Z }.

Definition toy_fresh (l : gset Z) : Z := 1 + set_fold Z.max 0 l.

Lemma toy_fresh_new l : toy_fresh l ∉ l /\ toy_fresh l <> 0.
Proof.
  assert (forall x, x ∈ l -> x <= set_fold Z.max 0 l) as Hub.
  { apply (set_fold_ind_L (fun r X => forall x, x ∈ X -> x <= r)); [set_solver|].
    intros y X r Hy IH x Hx. apply elem_of_union in Hx as [Hx|Hx]; [|specialize (IH x Hx); lia].
    apply elem_of_singleton in Hx. lia. }
  assert (0 <= set_fold Z.max 0 l).
  { apply (set_fold_ind_L (fun r (_ : gset Z) => 0 <= r)); [lia|]. intros. lia. }
  unfold toy_fresh. split; [|lia]. intros H1%Hub. lia.
Qed.

#[export] Instance toy_freetype : FreeType toy_ft := {|
  FT_LOAD_DEFAULT := 0; FT_RENDER_MODE_NORMAL := 0; FT_PIXEL_MODE_GRAY := 2;
  FT_KERNING_DEFAULT := 0;
  FT_Init_FreeType w := ((0, Some 1), w);
  FT_New_Memory_Face lib d l i w :=
    let f := toy_fresh (tf_faces w) in ((0, f), ToyFt ({[f]} ∪ tf_faces w) (tf_heap w));
  FT_Set_Pixel_Sizes f x y w := (if y =? 7 then 23 else 0, w);
  FT_Done_Face f w := ToyFt (tf_faces w ∖ {[f]}) (tf_heap w);
  FT_Get_Postscript_Name w f := None;
  size_ascender w f := 800;
  size_descender w f := -200;
  FT_Get_Char_Index w f cp := if (32 <=? cp) && (cp <? 127) then cp - 29 else 0;
  FT_Load_Glyph f i l w := (0, w);
  FT_Render_Glyph f l w := (0, w);
  glyph_advance_x w f := 512;
  glyph_slot w f := Slot 2 0 10 8 10 8 0x7000;
  FT_Get_Kerning w f l r mode :=
    (0, if (l =? 36) && (r =? 57) then -128
        else if (l =? 200) && (r =? 201) then 64 else 0);
  ft_malloc n w :=
    let a := toy_fresh (tf_heap w) in (a, ToyFt (tf_faces w) ({[a]} ∪ tf_heap w));
  ft_free a w := ToyFt (tf_faces w) (tf_heap w ∖ {[a]})
|}.

#[export] Instance toy_ft_laws : FreeTypeLaws toy_ft tf_faces tf_heap.
Proof.
  split; try done.
  - intros lib d l i w e f w' [= <- <- <-]. cbn. split; [done|]. split; [|done].
    apply toy_fresh_new.
  - intros n w a w' [= <- <-]. cbn [tf_faces tf_heap]. split; [done|].
    destruct (toy_fresh_new (tf_heap w)) as [H1 H2].
    rewrite (proj2 (Z.eqb_neq _ _) H2). done.
Qed.

Definition toy_shim : shim toy_ft := Shim 0 ∅ (ToyFt ∅ ∅).

Lemma toy_books : font_books (faces := tf_faces) (heap := tf_heap) toy_shim.
Proof. split; [done| |done]. intros face. cbn. setoid_rewrite lookup_empty. set_solver. Qed.

Lemma font_open_close_witness :
  font_books (faces := tf_faces) (heap := tf_heap) toy_shim /\
  (exists s, aegir_ft_open 0x1000 64 7 toy_shim = Done 0 s) /\
  (exists s, aegir_ft_open 0x1000 64 12 toy_shim = Done 1 s) /\
  wp (aegir_ft_open 0x1000 64 12) (fun v s' =>
    if v =? 0 then font_same (faces := tf_faces) (heap := tf_heap) toy_shim s'
    else is_Some (ft_blocks s' !! v) /\ ft_blocks toy_shim !! v = None /\
         wp (aegir_ft_close v)
           (fun _ s'' => font_same (faces := tf_faces) (heap := tf_heap) toy_shim s'') s') toy_shim.
Proof.
  split; [exact toy_books|]. split; [eexists; vm_compute; reflexivity|].
  split; [eexists; vm_compute; reflexivity|].
  exact (font_open_close 0x1000 64 12 toy_shim toy_books).
Defined.

Lemma font_no_leak_witness :
  exists s s', aegir_ft_open 0x1000 64 12 toy_shim = Done 1 s /\
    aegir_ft_close 1 s = Done tt s' /\ rtc font_step toy_shim s' /\
    tf_faces (ft_world s') = ∅ /\ tf_heap (ft_world s') = ∅.
Proof.
  eexists. eexists. split; [vm_compute; reflexivity|]. split; [vm_compute; reflexivity|].
  match goal with |- rtc _ _ ?x /\ _ => assert (Hr : rtc font_step toy_shim x) end.
  { eapply rtc_l; [apply (font_step_call _ (COpen 0x1000 64 12)); [done|vm_compute; reflexivity]|].
    apply rtc_once. apply (font_step_call _ (CClose 1)); [|vm_compute; reflexivity].
    right. vm_compute. by eexists. }
  split; [exact Hr|].
  exact (proj2 (font_no_leak (faces := tf_faces) (heap := tf_heap) toy_shim _ toy_books Hr) eq_refl).
Defined.

(** [aegir_ft_kerning] hands its code points to FreeType where FreeType
    takes glyph indices.  With a font whose A (U+41) and V (U+56) have the
    indices 36 and 57 and a kerning of -2 pixels, the shim answers 0 for the
    pair; for the code points 200 and 201, which the font does not have, it
    answers the kerning of the glyphs at indices 200 and 201. *)
Theorem kerning_takes_code_points :
  exists v s, aegir_ft_open 0x1000 64 12 toy_shim = Done v s /\
    let face := face_of v s in
    FT_Get_Char_Index (ft_world s) face 0x41 = 36 /\
    FT_Get_Char_Index (ft_world s) face 0x56 = 57 /\
    px_of_26_6 (FT_Get_Kerning (ft_world s) face 36 57 FT_KERNING_DEFAULT).2 = -2 /\
    aegir_ft_kerning v 0x41 0x56 s = Done 0 s /\
    aegir_ft_has v 200 s = Done 0 s /\ aegir_ft_kerning v 200 201 s = Done 1 s.
Proof. eexists. eexists. split; [vm_compute; reflexivity|]. vm_compute. tauto. Qed.
