(* ===== verification/RtGlue.v ===== *)
(** * Runtime glue: time, exit, environment, arguments

    [gnat_user/aegir_nanosleep.c], [gnat_user/aegir_glue.c],
    [lwip/port/sys_arch.c], and the two vendored files of the command line and
    the environment as they are configured here ([gnat_full/env.c] with
    [AKERNEL_ENV_FILES], [gnat_full/argv.c]).

    [Machine]: the time counter, the yield and the exit system calls.
    [EnvFiles]: the three exports of [Aegir_User.Gloss] behind which
    environment variables are files. *)
From S2P Require Import Prelude CInt.

Class Machine (W : Type) := {
  rdtime : W -> Z * W;
  sys_yield : W -> W;
  sys_exit : Z -> W -> W;
  register_frame : Z -> W -> W;
  EH_FRAME_BEGIN : Z
}.

Class EnvFiles (W : Type) := {
  (* the count and the bytes written at the buffer *)
  aegir_env_get : list Z -> Z -> W -> (Z * list Z) * W;
  aegir_env_set : list Z -> list Z -> W -> Z * W;
  aegir_env_unset : list Z -> W -> Z * W
}.

(** ** Time and exit *)

Section machine.
Context {W : Type} `{!Machine W}.

(** [nanosleep (req, rem)]; [req] is null or seconds and nanoseconds. *)
Definition nanosleep (fuel : nat) (req : option (Z * Z)) : M W Z :=
  match req with
  | None => retM 0
  | Some (tv_sec, tv_nsec) =>
    if (tv_sec =? 0) && (tv_nsec =? 0) then retM 0 else
    let ticks := u64 (u64 (u64 tv_sec * 10000000) + u64 tv_nsec / 100) in
    let* start := liftM rdtime in
    iterM fuel (fun _ : unit =>
      let* now := liftM rdtime in
      if ticks <=? u64 (now - start) then retM (inr 0)
      else modifyM sys_yield;; retM (inl tt)) tt
  end.

(** lwIP's millisecond clock. *)
Definition sys_now : M W Z :=
  let* t := liftM rdtime in retM (u32 (t / 10000)).

(** The call never returns. *)
Definition gnat_exit (status : Z) : M W unit := fun w =>
  Blocked (sys_exit (u64 status) w).

Definition aegir_register_frames : M W unit := modifyM (register_frame EH_FRAME_BEGIN).

End machine.

(** ** Environment: env.c *)

(** [static char env_buf[4096]] and the world. *)
Record env_state (W : Type) := EnvState { env_buf : list Z; env_world : W }.
Arguments EnvState {W} _ _.
Arguments env_buf {W} _.
Arguments env_world {W} _.

Definition env_buf_size : Z := 4096.

Section env.
Context {W : Type} `{!EnvFiles W}.
Notation E := (M (env_state W)).

(** What the callee stores at the front of the buffer. *)
Definition overlay (data buf : list Z) : list Z := data ++ drop (length data) buf.

(** [*len] and [*value], the value being null or the static buffer. *)
Definition gnat_getenv (name : list Z) : E (Z * bool) := fun s =>
  let '((n, data), w) := aegir_env_get name (env_buf_size - 1) (env_world s) in
  let buf := overlay data (env_buf s) in
  if n <? 0 then Done (0, false) (EnvState buf w)
  else Done (n, true) (EnvState (<[Z.to_nat n := 0]> buf) w).

Definition gnat_setenv (name value : list Z) : E unit := fun s =>
  Done tt (EnvState (env_buf s) (aegir_env_set name value (env_world s)).2).

Definition gnat_unsetenv (name : list Z) : E unit := fun s =>
  Done tt (EnvState (env_buf s) (aegir_env_unset name (env_world s)).2).

Definition gnat_clearenv : E unit := retM tt.

End env.

(** ** Arguments: argv.c

    A vector of C strings, or null.  [None] is a result the C code does not
    define: an index outside the vector, a walk of a null vector. *)
Record arg_vectors := ArgVectors {
  gnat_argc : Z; gnat_argv : option (list (list Z)); gnat_envp : option (list (list Z)) }.

Definition gnat_arg_count (v : arg_vectors) : Z := gnat_argc v.

(** [strlen (vec[i])], 0 for a null vector, as an [int]. *)
Definition len_at (vec : option (list (list Z))) (i : Z) : option Z :=
  match vec with
  | None => Some 0
  | Some l => s ← (if i <? 0 then None else l !! Z.to_nat i); Some (i32 (Z.of_nat (length s)))
  end.

(** [memcpy (a, vec[i], strlen (vec[i]))] into the buffer [a]. *)
Definition fill_at (vec : option (list (list Z))) (a : list Z) (i : Z) : option (list Z) :=
  match vec with
  | None => Some a
  | Some l => s ← (if i <? 0 then None else l !! Z.to_nat i);
              if (Z.of_nat (length a) <? Z.of_nat (length s)) then None
              else Some (overlay s a)
  end.

Definition gnat_len_arg (v : arg_vectors) (arg_num : Z) : option Z := len_at (gnat_argv v) arg_num.
Definition gnat_fill_arg (v : arg_vectors) (a : list Z) (i : Z) : option (list Z) :=
  fill_at (gnat_argv v) a i.

(** The walk to the null pointer that ends [gnat_envp]. *)
Definition gnat_env_count (v : arg_vectors) : option Z :=
  l ← gnat_envp v; Some (Z.of_nat (length l)).
Definition gnat_len_env (v : arg_vectors) (env_num : Z) : option Z := len_at (gnat_envp v) env_num.
Definition gnat_fill_env (v : arg_vectors) (a : list Z) (i : Z) : option (list Z) :=
  fill_at (gnat_envp v) a i.

(** ** Theorems on time *)

(** [clock w]: the 64-bit counter.  It never runs backwards, and a yield
    takes at least a tick (until the counter would wrap, in 58000 years). *)
Class MachineLaws (W : Type) `{!Machine W} (clock : W -> Z) : Prop := {
  mclock_u64 w : in_u64 (clock w);
  mclock_read w : (rdtime w).1 = clock w;
  mclock_world w : clock w <= clock (rdtime w).2;
  mclock_yield w : Z.min (clock w + 1) (2 ^ 64 - 1) <= clock (sys_yield w)
}.

(** The ticks of 100 ns in a request. *)
Definition req_ticks (sec nsec : Z) : Z := sec * 10000000 + nsec / 100.

(** [nanosleep] returns 0 and does not return early: for a valid request
    whose end is within the range of the counter, at least the requested time
    (whole ticks of 100 ns) has passed when it returns; one round of its loop
    per tick is enough. *)
Theorem nanosleep_sleeps {W} `{!Machine W} {clock : W -> Z} `{!MachineLaws W clock}
    (sec nsec : Z) (fuel : nat) (w : W) :
  0 <= sec -> 0 <= nsec < 1000000000 -> clock w + req_ticks sec nsec < 2 ^ 64 ->
  (Z.to_nat (req_ticks sec nsec) < fuel)%nat ->
  wp (nanosleep fuel (Some (sec, nsec)))
    (fun r w' => r = 0 /\ clock w + req_ticks sec nsec <= clock w') w.
Proof.
  intros Hs Hn Hc Hf. unfold nanosleep. pose proof (mclock_u64 w) as Hu.
  destruct ((sec =? 0) && (nsec =? 0)) eqn:E0.
  { bool_to_prop. subst. change (req_ticks 0 0) with 0. split; [done|lia]. }
  assert (Ht : u64 (u64 (u64 sec * 10000000) + u64 nsec / 100) = req_ticks sec nsec).
  { unfold req_ticks in *. int_lia. }
  rewrite Ht. set (T := req_ticks sec nsec) in *.
  assert (0 <= T) by (subst T; unfold req_ticks; zlia).
  apply wp_bind. pose proof (mclock_read w) as Hr. pose proof (mclock_world w) as Hw.
  unfold wp at 1, liftM. destruct (rdtime w) as [start w1]. cbn [fst snd] in *. subst start.
  apply (iter_terminates _ (fun _ s => clock w <= clock s)
           (fun r s => r = 0 /\ clock w + T <= clock s)
           (fun _ s => Z.to_nat (clock w + T - clock s))); [|lia|lia].
  intros _ s Hs'. apply wp_bind. pose proof (mclock_read s) as Hr. pose proof (mclock_world s) as Hw'.
  pose proof (mclock_u64 s) as Hus. unfold wp at 1.
  destruct (rdtime s) as [now s1]. cbn [fst snd] in *. subst now.
  rewrite u64_id by (unfold in_u64 in *; lia).
  destruct (T <=? clock s - clock w) eqn:E; bool_to_prop; [cbn; split; [done|lia]|].
  apply wp_bind. cbn [wp modifyM retM]. pose proof (mclock_yield s1).
  change (2 ^ 64) with 18446744073709551616 in *. lia.
Qed.

(** lwIP's clock wraps but measures time: between two readings the 32-bit
    difference of [sys_now] is the difference of the millisecond counts, as
    long as that is below 2^32 ms (49 days). *)
Theorem sys_now_elapsed {W} `{!Machine W} {clock : W -> Z} `{!MachineLaws W clock} (w w' : W) :
  clock w <= clock w' -> clock w' / 10000 - clock w / 10000 < 2 ^ 32 ->
  wp sys_now (fun a _ => wp sys_now (fun b _ =>
    u32 (b - a) = clock w' / 10000 - clock w / 10000) w') w.
Proof.
  intros H1 H2. unfold sys_now, wp, bindM, liftM, retM.
  pose proof (mclock_read w). pose proof (mclock_read w').
  destruct (rdtime w), (rdtime w'). cbn [fst] in *. subst. int_lia.
Qed.

(** ** Theorems on the environment *)

(** The files behind the variables, in the states of [inv] and for names in
    [valid].  An empty file reads as no variable. *)
Class EnvLaws (W : Type) `{!EnvFiles W} (inv : W -> Prop) (valid : list Z -> Prop)
    (store : W -> list Z -> option (list Z)) : Prop := {
  env_get_ok name sz w :
    inv w -> valid name -> 0 < sz < env_buf_size ->
    (aegir_env_get name sz w).1 =
      match store w name with
      | Some (b :: v) => (Z.min sz (Z.of_nat (length (b :: v))), take (Z.to_nat sz) (b :: v))
      | _ => (-1, [])
      end /\
    inv (aegir_env_get name sz w).2 /\ forall n, store (aegir_env_get name sz w).2 n = store w n;
  env_set_ok name value w :
    inv w -> valid name ->
    inv (aegir_env_set name value w).2 /\
    ((aegir_env_set name value w).1 = 0 ->
     forall n, store (aegir_env_set name value w).2 n =
       if decide (n = name) then Some value else store w n);
  env_unset_ok name w :
    inv w -> valid name ->
    inv (aegir_env_unset name w).2 /\
    ((aegir_env_unset name w).1 = 0 ->
     forall n, store (aegir_env_unset name w).2 n = if decide (n = name) then None else store w n)
}.

Lemma overlay_length data buf :
  (length data <= length buf)%nat -> length (overlay data buf) = length buf.
Proof. intros H. unfold overlay. rewrite length_app, length_drop. lia. Qed.

Section env_spec.
Context {W : Type} `{!EnvFiles W} {inv : W -> Prop} {valid : list Z -> Prop}
  {store : W -> list Z -> option (list Z)} `{!EnvLaws W inv valid store}.

(** What [*len], [*value] and the static buffer say of a variable. *)
Definition env_answer (v : option (list Z)) (r : Z * bool) (buf : list Z) : Prop :=
  match v with
  | Some (b :: v) =>
      r = (Z.min 4095 (Z.of_nat (length (b :: v))), true) /\
      take (Z.to_nat r.1) buf = take 4095 (b :: v) /\ buf !! Z.to_nat r.1 = Some 0
  | _ => r = (0, false)
  end.

Lemma getenv_spec name s :
  length (env_buf s) = Z.to_nat env_buf_size -> inv (env_world s) -> valid name ->
  wp (gnat_getenv name) (fun r s' =>
    length (env_buf s') = Z.to_nat env_buf_size /\
    env_answer (store (env_world s) name) r (env_buf s')) s.
Proof.
  intros Hb Hi Hv. unfold wp, gnat_getenv. change (env_buf_size - 1) with 4095.
  destruct (env_get_ok name 4095 (env_world s) Hi Hv) as [H1 _]; [unfold env_buf_size; lia|].
  destruct (aegir_env_get name 4095 (env_world s)) as [[n data] w]. cbn [fst snd] in *.
  change (Z.to_nat env_buf_size) with 4096%nat in *.
  destruct (store (env_world s) name) as [[|b v]|];
    pose proof (f_equal fst H1) as Hn; pose proof (f_equal snd H1) as Hd;
    cbn [fst snd] in Hn, Hd; clear H1; subst n data; [done| |done].
  rewrite (proj2 (Z.ltb_ge _ _)) by (cbn [length]; lia). cbn [env_buf env_world].
  assert (Hl : length (take (Z.to_nat 4095) (b :: v)) =
               Z.to_nat (Z.min 4095 (Z.of_nat (length (b :: v))))).
  { rewrite length_take. lia. }
  rewrite length_insert, overlay_length by lia. split; [done|].
  split; [done|]. cbn [fst]. split.
  - rewrite take_insert_ge by lia. unfold overlay. rewrite <- Hl, take_app_length. done.
  - rewrite list_lookup_insert_eq; [done|]. rewrite overlay_length; lia.
Qed.

End env_spec.

(** Environment variables round-trip through their files: after a
    [__gnat_setenv] that the file server accepted, [__gnat_getenv] of that
    name delivers the value, cut to 4095 bytes and terminated inside the
    static buffer (an empty value reads as no variable), every other name
    answers as before, and after [__gnat_unsetenv] the name has no value. *)
Theorem env_roundtrip {W} `{!EnvFiles W} {inv : W -> Prop} {valid : list Z -> Prop}
    {store : W -> list Z -> option (list Z)} `{!EnvLaws W inv valid store}
    (name value other : list Z) (s : env_state W) :
  length (env_buf s) = Z.to_nat env_buf_size -> inv (env_world s) ->
  valid name -> valid other -> other <> name ->
  (aegir_env_set name value (env_world s)).1 = 0 ->
  wp (gnat_setenv name value) (fun _ s1 =>
    wp (gnat_getenv name) (fun r s2 => env_answer (Some value) r (env_buf s2)) s1 /\
    wp (gnat_getenv other)
      (fun r s2 => env_answer (store (env_world s) other) r (env_buf s2)) s1 /\
    ((aegir_env_unset name (env_world s1)).1 = 0 ->
     wp (gnat_unsetenv name) (fun _ s2 =>
       wp (gnat_getenv name) (fun r s3 => r = (0, false)) s2) s1)) s.
Proof.
  intros Hb Hi Hv Hvo Hne Hset. unfold gnat_setenv, wp at 1. set (s1 := EnvState _ _).
  destruct (env_set_ok name value (env_world s) Hi Hv) as [Hi1 Hst]. specialize (Hst Hset).
  split; [|split].
  - eapply wp_mono; [|by apply (getenv_spec (store := store) name s1)]. intros r s2 [_ H].
    unfold s1 in H. cbn [env_world] in H. by rewrite Hst, decide_True in H.
  - eapply wp_mono; [|by apply (getenv_spec (store := store) other s1)]. intros r s2 [_ H].
    unfold s1 in H. cbn [env_world] in H. by rewrite Hst, decide_False in H.
  - intros Hun. unfold gnat_unsetenv, wp at 1. set (s2 := EnvState _ _).
    destruct (env_unset_ok name (env_world s1) Hi1 Hv) as [Hi2 Hu]. specialize (Hu Hun).
    eapply wp_mono; [|by apply (getenv_spec (store := store) name s2)]. intros r s3 [_ H].
    unfold s2 in H. cbn [env_world] in H. by rewrite Hu, decide_True in H.
Qed.

(** ** Theorems on arguments *)

(** The two steps by which Ada fetches an argument agree: for an index of
    the vector, [__gnat_len_arg] is the length of the string, and
    [__gnat_fill_arg] into a buffer of at least that length stores exactly the
    string, without its terminator and without touching the rest. *)
Theorem argv_fetch (v : arg_vectors) (l : list (list Z)) (arg a : list Z) (i : nat) :
  gnat_argv v = Some l -> l !! i = Some arg -> Z.of_nat (length arg) < 2 ^ 31 ->
  (length arg <= length a)%nat ->
  gnat_len_arg v (Z.of_nat i) = Some (Z.of_nat (length arg)) /\
  exists a', gnat_fill_arg v a (Z.of_nat i) = Some a' /\ length a' = length a /\
    take (length arg) a' = arg /\ drop (length arg) a' = drop (length arg) a.
Proof.
  intros Hv Hi Hl Ha. unfold gnat_len_arg, gnat_fill_arg, len_at, fill_at. rewrite Hv.
  rewrite (proj2 (Z.ltb_ge _ _)), Nat2Z.id, Hi by lia. cbn -[Z.of_nat i32 overlay].
  rewrite i32_id by (unfold in_i32; lia). split; [done|].
  rewrite (proj2 (Z.ltb_ge _ _)) by lia. eexists. split; [done|].
  rewrite overlay_length by done. unfold overlay. by rewrite take_app_length, drop_app_length.
Qed.

(** ** Instances to run on: a counter, and a map of variables *)

Record toy_machine := ToyMachine { tm_clock : Z; tm_exit : option Z }.

Definition toy_clock (w : toy_machine) : Z := Z.max 0 (Z.min (2 ^ 64 - 1) (tm_clock w)).

#[export] Instance toy_machine_ops : Machine toy_machine := {|
  rdtime w := (toy_clock w, w);
  sys_yield w := ToyMachine (toy_clock w + 1) (tm_exit w);
  sys_exit c w := ToyMachine (tm_clock w) (Some c);
  register_frame _ w := w;
  EH_FRAME_BEGIN := 0x80000 |}.

#[export] Instance toy_machine_laws : MachineLaws toy_machine toy_clock.
Proof. split; intros; unfold toy_clock; cbn; try done; unfold in_u64, toy_clock; lia. Qed.

Lemma nanosleep_sleeps_witness :
  req_ticks 0 2500 = 25 /\
  wp (nanosleep 40 (Some (0, 2500))) (fun r w' => r = 0 /\ toy_clock (ToyMachine 100 None)
       + req_ticks 0 2500 <= toy_clock w') (ToyMachine 100 None).
Proof.
  split; [reflexivity|].
  apply (nanosleep_sleeps 0 2500 40 (ToyMachine 100 None));
    first [vm_compute; congruence | split; vm_compute; congruence | vm_compute; lia].
Defined.

Lemma sys_now_elapsed_witness :
  wp sys_now (fun a _ => wp sys_now (fun b _ => a = 4294967295 /\ b = 4)
    (ToyMachine 42949673000000 None)) (ToyMachine 42949672950000 None) /\
  wp sys_now (fun a _ => wp sys_now (fun b _ => u32 (b - a) =
    toy_clock (ToyMachine 42949673000000 None) / 10000
    - toy_clock (ToyMachine 42949672950000 None) / 10000)
    (ToyMachine 42949673000000 None)) (ToyMachine 42949672950000 None).
Proof.
  split; [vm_compute; split; reflexivity|].
  apply (sys_now_elapsed (ToyMachine 42949672950000 None) (ToyMachine 42949673000000 None));
    vm_compute; congruence.
Defined.

#[export] Instance toy_env : EnvFiles (gmap (list Z) (list Z)) := {|
  aegir_env_get name sz w :=
    (match w !! name with
     | Some (b :: v) => (Z.min sz (Z.of_nat (length (b :: v))), take (Z.to_nat sz) (b :: v))
     | _ => (-1, [])
     end, w);
  aegir_env_set name value w := (0, <[name := value]> w);
  aegir_env_unset name w := (0, delete name w) |}.

#[export] Instance toy_env_laws :
  EnvLaws (gmap (list Z) (list Z)) (fun _ => True) (fun _ => True) (fun w n => w !! n).
Proof.
  split; [done| |].
  - intros name value w _ _. split; [done|]. intros _ n. cbn.
    case_decide; subst; [by rewrite lookup_insert_eq | by rewrite lookup_insert_ne].
  - intros name w _ _. split; [done|]. intros _ n. cbn.
    case_decide; subst; [by rewrite lookup_delete_eq | by rewrite lookup_delete_ne].
Qed.

(** PATH=Sys: *)
Definition demo_env : env_state (gmap (list Z) (list Z)) := EnvState (repeat 0 4096) ∅.

Lemma env_roundtrip_witness :
  wp (gnat_setenv [80; 65; 84; 72] [83; 121; 115; 58]) (fun _ s1 =>
    wp (gnat_getenv [80; 65; 84; 72])
      (fun r s2 => env_answer (Some [83; 121; 115; 58]) r (env_buf s2)) s1 /\
    wp (gnat_getenv [67]) (fun r s2 => env_answer (env_world demo_env !! [67]) r (env_buf s2)) s1 /\
    ((aegir_env_unset [80; 65; 84; 72] (env_world s1)).1 = 0 ->
     wp (gnat_unsetenv [80; 65; 84; 72]) (fun _ s2 =>
       wp (gnat_getenv [80; 65; 84; 72]) (fun r s3 => r = (0, false)) s2) s1)) demo_env.
Proof.
  apply (env_roundtrip (store := fun w n => w !! n) [80; 65; 84; 72] [83; 121; 115; 58] [67] demo_env);
    first [exact I | discriminate | vm_compute; reflexivity].
Defined.

Lemma argv_fetch_witness :
  gnat_len_arg (ArgVectors 2 (Some [[108; 115]; [45; 108]]) None) 1 = Some 2 /\
  exists a', gnat_fill_arg (ArgVectors 2 (Some [[108; 115]; [45; 108]]) None) [7; 7; 7] 1 = Some a' /\
    length a' = 3%nat /\ take 2 a' = [45; 108] /\ drop 2 a' = [7].
Proof.
  apply (argv_fetch (ArgVectors 2 (Some [[108; 115]; [45; 108]]) None) [[108; 115]; [45; 108]]
    [45; 108] [7; 7; 7] 1); first [reflexivity | vm_compute; congruence | cbn; lia].
Defined.
