(* ===== verification/Gloss.v ===== *)
(** * The system-call layer: Aegir_User.Gloss

    [userspace/rts/aegir/aegir_user-gloss.adb], the package that gives newlib
    and the vendored GNAT C files their POSIX names.  Descriptors are slots of
    a table over paths, directories are slots with a path and an index, the
    working directory is the variable [ENV:CWD].

    The package stands on the file service ([Aegir_User.Files], documented in
    aegir_user-files.ads), the console and the table arena: class [FileServ]
    over a world [W].  Diagnostic lines ([Debug_Put_Line]) are not modelled.
    A [String (1 .. 256)] with its length is the list of its characters. *)
From S2P Require Import Prelude CInt CStr.

(** ** The file service *)

Definition Status_Ok : Z := 0.
Definition Status_Not_Found : Z := 1.
Definition Status_Not_Ready : Z := 2.
Definition Status_Bad_Args : Z := 3.
Definition Status_Out_Of_Range : Z := 4.

Class FileServ (W : Type) := {
  (* Endpoint = 0 is [false]; Bind (2) *)
  f_endpoint : W -> bool;
  f_bind : W -> W;
  (* status, size, is_dir *)
  f_stat_ex : list Z -> W -> (Z * Z * bool) * W;
  f_stat : list Z -> W -> (Z * Z) * W;
  f_open : list Z -> W -> (Z * Z) * W;
  (* path, offset, length: status and the bytes stored at the destination *)
  f_read : list Z -> Z -> Z -> W -> (Z * list Z) * W;
  (* path, offset, bytes: status and count *)
  f_write : list Z -> Z -> list Z -> W -> (Z * Z) * W;
  f_truncate : list Z -> W -> Z * W;
  f_delete : list Z -> W -> Z * W;
  f_mkdir : list Z -> W -> Z * W;
  f_rmdir : list Z -> W -> Z * W;
  f_close : list Z -> W -> Z * W;
  f_rename : list Z -> list Z -> W -> Z * W;
  (* path, index: status and words 3 to 5 of the reply *)
  f_readdir : list Z -> Z -> W -> (Z * list Z) * W;
  (* index: status and "NAME: target" *)
  f_assign_list : Z -> W -> (Z * list Z) * W;
  console_bind : W -> W;
  console_put : list Z -> W -> W;
  (* a table chunk is there or was reserved *)
  arena_grow : W -> bool * W
}.

(** ** Constants *)

Definition EPERM : Z := 1.
Definition ENOENT : Z := 2.
Definition EIO : Z := 5.
Definition EBADF : Z := 9.
Definition EAGAIN : Z := 11.
Definition EEXIST : Z := 17.
Definition EINVAL : Z := 22.
Definition EMFILE : Z := 24.
Definition EFBIG : Z := 27.
Definition ENOSYS : Z := 88.

Definition O_RDONLY : Z := 0.
Definition O_WRONLY : Z := 1.
Definition O_RDWR : Z := 2.
Definition O_ACCMODE : Z := 3.
Definition O_APPEND : Z := 0x0008.
Definition O_CREAT : Z := 0x0200.
Definition O_TRUNC : Z := 0x0400.
Definition O_EXCL : Z := 0x0800.

Definition SEEK_SET : Z := 0.
Definition SEEK_CUR : Z := 1.
Definition SEEK_END : Z := 2.

(** Modes in octal: 0020000, 0040000, 0100000 and 0000700. *)
Definition S_IFCHR : Z := 0x2000.
Definition S_IFDIR : Z := 0x4000.
Definition S_IFREG : Z := 0x8000.
Definition S_IRWXU : Z := 0x1c0.

Definition First_File_FD : Z := 3.

(** ** State *)

(** The fields of [struct stat] that are read on this side. *)
Record stat_rec := Stat_Rec {
  st_mode : Z; st_nlink : Z; st_size : Z; st_atim : Z * Z; st_mtim : Z * Z }.

Record FD_Rec := Fd_Rec {
  Used : bool; Readable : bool; Writable : bool; Offset : Z; Size : Z; Path : list Z }.

Record Dir_Rec := DirRec { DUsed : bool; DPath : list Z; DNext : Z }.

(** Tables are indexed from 1: slot [i] is element [i - 1]. *)
Record gloss (W : Type) := GlossSt {
  g_errno : Z; g_bound : bool; g_fds : list FD_Rec; g_dirs : list Dir_Rec; g_world : W }.
Arguments GlossSt {W} _ _ _ _ _.
Arguments g_errno {W} _.
Arguments g_bound {W} _.
Arguments g_fds {W} _.
Arguments g_dirs {W} _.
Arguments g_world {W} _.

Definition zero_fd : FD_Rec := Fd_Rec false false false 0 0 [].
Definition zero_dir : Dir_Rec := DirRec false [] 0.

Section gloss.
Context {W : Type} `{!FileServ W}.
Notation G := (M (gloss W)).

Definition set_fds (l : list FD_Rec) (s : gloss W) : gloss W :=
  GlossSt (g_errno s) (g_bound s) l (g_dirs s) (g_world s).
Definition set_dirs (l : list Dir_Rec) (s : gloss W) : gloss W :=
  GlossSt (g_errno s) (g_bound s) (g_fds s) l (g_world s).
Definition set_world (w : W) (s : gloss W) : gloss W :=
  GlossSt (g_errno s) (g_bound s) (g_fds s) (g_dirs s) w.

(** A call of the service. *)
Definition serv {A} (f : W -> A * W) : G A := fun s =>
  let '(a, w) := f (g_world s) in Done a (set_world w s).

Definition Fail (e : Z) : G unit :=
  modifyM (fun s => GlossSt e (g_bound s) (g_fds s) (g_dirs s) (g_world s)).

(** [Fail (e); return r]. *)
Definition fail_with {A} (e : Z) (r : A) : G A := Fail e;; retM r.

Definition Ensure_Bound : G unit := modifyM (fun s =>
  if g_bound s then s else
  let w := if f_endpoint (g_world s) then g_world s else f_bind (g_world s) in
  GlossSt (g_errno s) true (g_fds s) (g_dirs s) (console_bind w)).

(** ** The working directory *)

Definition path_cwd : list Z := bytes "ENV:CWD".

Definition Get_CWD : G (list Z) :=
  let* r := serv (f_open path_cwd) in
  if fst r =? Status_Ok then
    let* r := serv (f_read path_cwd 0 (Z.min (snd r) 256)) in
    if (fst r =? Status_Ok) && (0 <? Z.of_nat (length (snd r))) then retM (snd r)
    else retM (bytes "Sys:")
  else retM (bytes "Sys:").

(** [T (T'First .. J - 1)] at the last ['/'] of [T]. *)
Fixpoint before_last_slash (t : list Z) : option (list Z) :=
  match t with
  | [] => None
  | c :: t' =>
    match before_last_slash t' with
    | Some d => Some (c :: d)
    | None => if c =? ch_slash then Some [] else None
    end
  end.

(** The loop of [CLI.Ensure_Env_Dir] over [n] entries of the assign list. *)
Fixpoint env_dir_scan (n : nat) (i : Z) : G unit :=
  match n with
  | O => retM tt
  | S n' =>
    let* r := serv (f_assign_list i) in
    let txt := snd r in
    if negb (fst r =? Status_Ok) then retM tt
    else if (6 <=? Z.of_nat (length txt)) && bool_decide (take 5 txt = bytes "ENV: ") then
      let t := drop 5 txt in
      match before_last_slash t with
      | Some d => serv (f_mkdir d);; serv (f_mkdir t);; retM tt
      | None => serv (f_mkdir t);; retM tt
      end
    else env_dir_scan n' (i + 1)
  end.

Definition Ensure_Env_Dir : G unit :=
  let* r := serv (f_stat (bytes "ENV:")) in
  if negb (fst r =? Status_Not_Found) then retM tt else env_dir_scan 16 0.

(** [CLI.Set_Env] on a variable of the environment directory. *)
Definition Set_Env (name value : list Z) : G Z :=
  Ensure_Env_Dir;;
  serv (f_truncate (bytes "ENV:" ++ name));;
  let* r := serv (f_write (bytes "ENV:" ++ name) 0 value) in
  retM (fst r).

Definition Set_CWD (v : list Z) : G Z :=
  if (Z.of_nat (length v) =? 0) || (256 <? Z.of_nat (length v)) then retM Status_Bad_Args
  else Set_Env (bytes "CWD") v.

Definition has_colon (p : list Z) : bool := existsb (Z.eqb ch_colon) p.

(** A name below a working directory. *)
Definition below (cwd p : list Z) : list Z :=
  if bool_decide (last cwd = Some ch_colon) then cwd ++ p else cwd ++ ch_slash :: p.

Definition Qualify (p : list Z) : G (list Z) :=
  if has_colon p then retM p else let* cwd := Get_CWD in retM (below cwd p).

(** ** Environment variables: files below [ENV:] *)

Definition env_path (name : list Z) : list Z := bytes "ENV:" ++ name.

(** The result and the bytes stored at [Buf]. *)
Definition Aegir_Env_Get (name : list Z) (bufsz : Z) : G (Z * list Z) :=
  Ensure_Bound;;
  let* r := serv (f_open (env_path name)) in
  if negb (fst r =? Status_Ok) then retM (-1, []) else
  let* r := serv (f_read (env_path name) 0 (Z.min (snd r) bufsz)) in
  if negb (fst r =? Status_Ok) || (Z.of_nat (length (snd r)) =? 0) then retM (-1, snd r)
  else retM (i32 (Z.of_nat (length (snd r))), snd r).

Definition Aegir_Env_Set (name value : list Z) : G Z :=
  Ensure_Bound;;
  if 1024 <? Z.of_nat (length value) then fail_with EINVAL (-1) else
  serv (f_truncate (env_path name));;
  let* r := serv (f_write (env_path name) 0 value) in
  if negb (fst r =? Status_Ok) then fail_with EPERM (-1) else retM 0.

Definition Aegir_Env_Unset (name : list Z) : G Z :=
  Ensure_Bound;;
  let* st := serv (f_delete (env_path name)) in
  if negb (st =? Status_Ok) && negb (st =? Status_Not_Found) then fail_with EPERM (-1)
  else retM 0.

(** ** Directory walks *)

(** The first element of a table that is not in use, as a slot. *)
Fixpoint first_free {A} (used : A -> bool) (l : list A) (i : Z) : option Z :=
  match l with
  | [] => None
  | x :: l' => if used x then first_free used l' (i + 1) else Some i
  end.

(** [Append]: the new slot, 0 when the arena is exhausted. *)
Definition dir_append : G Z :=
  let* ok := serv arena_grow in
  if ok : bool then
    let* l := getsM g_dirs in
    modifyM (set_dirs (l ++ [zero_dir]));; retM (Z.of_nat (length l) + 1)
  else retM 0.

Definition set_dir (slot : Z) (d : Dir_Rec) : G unit :=
  modifyM (fun s => set_dirs (<[Z.to_nat (slot - 1) := d]> (g_dirs s)) s).

Definition aegir_opendir (name : list Z) : G Z :=
  let* p := Qualify name in
  Ensure_Bound;;
  if (Z.of_nat (length p) =? 0) || (256 <? Z.of_nat (length p)) then retM (-1) else
  let* l := getsM g_dirs in
  match first_free DUsed l 1 with
  | Some i => set_dir i (DirRec true p 0);; retM (i32 (i - 1))
  | None =>
    let* slot := dir_append in
    if slot =? 0 then retM (-1)
    else set_dir slot (DirRec true p 0);; retM (i32 (slot - 1))
  end.

(** Character [P] of an entry name in words 3 to 5 of a reply. *)
Definition name_byte (words : list Z) (p : Z) : Z :=
  Z.land (nth (Z.to_nat (p / 8)) words 0 / Z.shiftl 1 (p mod 8 * 8)) 0xFF.

(** The loop over the 24 characters of the reply, from [P] on with [n] rounds
    left; [room] is [Out_Name'Length]. *)
Fixpoint read_name (words : list Z) (room : Z) (n : nat) (p : Z) : list Z :=
  match n with
  | O => []
  | S n' =>
    if room <=? p then [] else
    let ch := name_byte words p in
    if ch =? 0 then [] else ch :: read_name words room n' (p + 1)
  end.

(** [Files.Read_Dir]: the status and the name stored in a buffer of [room]
    characters. *)
Definition Read_Dir (name : list Z) (index room : Z) : G (Z * list Z) :=
  let* a := serv (f_readdir name index) in
  retM (fst a, if fst a =? Status_Ok then read_name (snd a) room 24 0 else []).

(** The result and the bytes stored at [Buf], the terminator included. *)
Definition aegir_readdir (d bufsz : Z) : G (Z * list Z) :=
  let* l := getsM g_dirs in
  if (d <? 0) || (Z.of_nat (length l) <=? d) then retM (-1, []) else
  match l !! Z.to_nat d with
  | None => retM (-1, [])
  | Some r =>
    if negb (DUsed r) then retM (-1, []) else
    let* a := Read_Dir (DPath r) (DNext r) 256 in
    let ent := snd a in
    let ent_l := Z.of_nat (length ent) in
    if negb (fst a =? Status_Ok) || (ent_l =? 0) || (bufsz <? ent_l + 1) then retM (-1, [])
    else
      set_dir (d + 1) (DirRec true (DPath r) (u64 (DNext r + 1)));;
      retM (i32 ent_l, ent ++ [0])
  end.

Definition aegir_closedir (d : Z) : G Z :=
  let* l := getsM g_dirs in
  if (d <? 0) || (Z.of_nat (length l) <=? d) then retM (-1) else
  modifyM (fun s => set_dirs
    (alter (fun r => DirRec false (DPath r) (DNext r)) (Z.to_nat d) (g_dirs s)) s);;
  retM 0.

(** ** Descriptors *)

(** [FD > Last or else not FDs (FD).Used] fails: the entry.  For descriptors
    from 3 on. *)
Definition fd_entry (s : gloss W) (fd : Z) : option FD_Rec :=
  if Z.of_nat (length (g_fds s)) <? fd then None
  else r ← g_fds s !! Z.to_nat (fd - 1); if Used r then Some r else None.

Definition set_fd (fd : Z) (r : FD_Rec) : G unit :=
  modifyM (fun s => set_fds (<[Z.to_nat (fd - 1) := r]> (g_fds s)) s).

Definition fd_append : G Z :=
  let* ok := serv arena_grow in
  if ok : bool then
    let* l := getsM g_fds in
    modifyM (set_fds (l ++ [zero_fd]));; retM (Z.of_nat (length l) + 1)
  else retM 0.

(** [while FD_Tab.Last < First_File_FD - 1]: at most [n] rounds. *)
Fixpoint pad_slots (n : nat) : G bool :=
  let* l := getsM g_fds in
  if Z.of_nat (length l) <? First_File_FD - 1 then
    match n with
    | O => retM true
    | S n' => let* i := fd_append in if i =? 0 then retM false else pad_slots n'
    end
  else retM true.

(** The slot an open will use; 0 when there is none. *)
Definition find_slot : G Z :=
  let* l := getsM g_fds in
  match first_free Used (drop 2 l) First_File_FD with
  | Some i => retM i
  | None => let* ok := pad_slots 2 in if ok : bool then fd_append else retM 0
  end.

(** The errno of a failed creation. *)
Definition create_errno (st : Z) : Z :=
  if st =? Status_Bad_Args then EINVAL
  else if st =? Status_Out_Of_Range then EFBIG
  else if st =? Status_Not_Ready then EAGAIN
  else EIO.

Definition flag (flags bit : Z) : bool := negb (Z.land (u32 flags) bit =? 0).

(** Creation by a one-byte write that is truncated away, then the open. *)
Definition create_file (p : list Z) : G (option (Z * Z)) :=
  let* w := serv (f_write p 0 [0]) in
  if negb (fst w =? Status_Ok) then fail_with (create_errno (fst w)) None else
  let* t := serv (f_truncate p) in
  if negb (t =? Status_Ok) then fail_with (create_errno t) None else
  let* r := serv (f_open p) in retM (Some r).

(** The end of [Gloss_Open]: status and size of the file are known. *)
Definition open_finish (p : list Z) (flags slot : Z) (existed : bool) (st size : Z) : G Z :=
  if negb (st =? Status_Ok) then fail_with (if existed then EIO else ENOENT) (-1) else
  if existed && flag flags O_CREAT && flag flags O_EXCL then fail_with EEXIST (-1) else
  let* size' :=
    (if flag flags O_TRUNC && flag flags O_ACCMODE then
       let* t := serv (f_truncate p) in retM (if t =? Status_Ok then 0 else size)
     else retM size) in
  set_fd slot (Fd_Rec true (negb (Z.land (u32 flags) O_ACCMODE =? O_WRONLY))
                 (flag flags O_ACCMODE)
                 (if flag flags O_APPEND then size' else 0) size' p);;
  retM (i32 slot).

Definition Gloss_Open (path : list Z) (flags : Z) : G Z :=
  let* p := Qualify path in
  if (Z.of_nat (length p) =? 0) || (256 <? Z.of_nat (length p)) then fail_with EINVAL (-1) else
  let* slot := find_slot in
  if slot =? 0 then fail_with EMFILE (-1) else
  Ensure_Bound;;
  let* r := serv (f_open p) in
  let existed := fst r =? Status_Ok in
  if negb existed && flag flags O_CREAT then
    let* c := create_file p in
    match c with
    | None => retM (-1)
    | Some r' => open_finish p flags slot existed (fst r') (snd r')
    end
  else open_finish p flags slot existed (fst r) (snd r).

Definition Gloss_Close (fd : Z) : G Z :=
  if fd <? First_File_FD then retM 0 else
  let* e := getsM (fun s => fd_entry s fd) in
  match e with
  | None => fail_with EBADF (-1)
  | Some f =>
    serv (f_close (Path f));;
    set_fd fd (Fd_Rec false (Readable f) (Writable f) (Offset f) (Size f) (Path f));;
    retM 0
  end.

(** The count and the bytes stored at [Buf]. *)
Definition Gloss_Read (fd n : Z) : G (Z * list Z) :=
  Ensure_Bound;;
  if fd <? First_File_FD then retM (0, []) else
  let* e := getsM (fun s => fd_entry s fd) in
  match e with
  | None => fail_with EBADF (-1, [])
  | Some f =>
    if negb (Readable f) then fail_with EBADF (-1, []) else
    let* r := serv (f_read (Path f) (Offset f) n) in
    if fst r =? Status_Out_Of_Range then retM (0, [])
    else if negb (fst r =? Status_Ok) then fail_with ENOENT (-1, [])
    else
      let count := Z.of_nat (length (snd r)) in
      set_fd fd (Fd_Rec (Used f) (Readable f) (Writable f) (u64 (Offset f + count)) (Size f) (Path f));;
      retM (i32 count, snd r)
  end.

(** Console output in chunks of 1024 bytes. *)
Fixpoint Write_Console (fuel : nat) (buf : list Z) : G unit :=
  match fuel, buf with
  | S n, _ :: _ => modifyM (fun s => set_world (console_put (take 1024 buf) (g_world s)) s);;
                   Write_Console n (drop 1024 buf)
  | _, _ => retM tt
  end.

Definition write_errno (st : Z) : Z :=
  if st =? Status_Not_Found then ENOENT
  else if st =? Status_Bad_Args then EINVAL
  else if st =? Status_Not_Ready then EAGAIN
  else if st =? Status_Out_Of_Range then EFBIG
  else EIO.

(** One round of the loop of [Gloss_Write]; [done_] is the [Done] of the
    source. *)
Definition write_round (fd : Z) (buf : list Z) (done_ : Z) : G (Z + Z) :=
  let n := Z.of_nat (length buf) in
  if negb (done_ <? n) then retM (inr (i32 done_)) else
  let* e := getsM (fun s => g_fds s !! Z.to_nat (fd - 1)) in
  match e with
  | None => retM (inr (-1))
  | Some f =>
    let chunk := Z.min (n - done_) 0x8000 in
    let* r := serv (f_write (Path f) (Offset f)
                      (take (Z.to_nat chunk) (drop (Z.to_nat done_) buf))) in
    let count := snd r in
    if negb (fst r =? Status_Ok) || (count =? 0) then
      Fail (write_errno (fst r));;
      retM (inr (if done_ =? 0 then -1 else i32 done_))
    else
      let off := u64 (Offset f + count) in
      set_fd fd (Fd_Rec (Used f) (Readable f) (Writable f) off (Z.max (Size f) off) (Path f));;
      retM (inl (u64 (done_ + count)))
  end.

Definition Gloss_Write (fuel : nat) (fd : Z) (buf : list Z) : G Z :=
  Ensure_Bound;;
  let n := Z.of_nat (length buf) in
  if (fd =? 1) || (fd =? 2) then Write_Console (length buf) buf;; retM (i32 n) else
  if fd <? First_File_FD then fail_with EBADF (-1) else
  let* e := getsM (fun s => fd_entry s fd) in
  match e with
  | None => fail_with EBADF (-1)
  | Some f =>
    if negb (Writable f) then fail_with EBADF (-1)
    else iterM fuel (write_round fd buf) 0
  end.

(** The size is refreshed from the service when it answers. *)
Definition fresh_size (f : FD_Rec) : G Z :=
  let* r := serv (f_stat (Path f)) in
  retM (if fst r =? Status_Ok then snd r else Size f).

Definition Gloss_Lseek (fd off whence : Z) : G Z :=
  if fd <? First_File_FD then fail_with EBADF (u64 (-1)) else
  let* e := getsM (fun s => fd_entry s fd) in
  match e with
  | None => fail_with EBADF (u64 (-1))
  | Some f =>
    let finish (base size : Z) : G Z :=
      let o := u64 (base + off) in
      set_fd fd (Fd_Rec (Used f) (Readable f) (Writable f) o size (Path f));; retM o in
    if whence =? SEEK_SET then finish 0 (Size f)
    else if whence =? SEEK_CUR then finish (Offset f) (Size f)
    else if whence =? SEEK_END then let* sz := fresh_size f in finish sz sz
    else fail_with EINVAL (u64 (-1))
  end.

(** ** The stat family *)

(** The unsigned size of the service is an [off_t] in [struct stat]. *)
Definition Fill_Stat (size : Z) (is_tty is_dir : bool) : stat_rec :=
  Stat_Rec ((if is_tty then S_IFCHR else if is_dir then S_IFDIR else S_IFREG) + S_IRWXU)
    1 (i64 size) (0, 0) (0, 0).

(** The record is written only on success.  A negative descriptor would index
    the table below its first slot: the call does not return a result. *)
Definition Gloss_Fstat (fd : Z) : G (Z * option stat_rec) :=
  if fd <? 0 then fun s => Blocked s else
  if fd <? First_File_FD then retM (0, Some (Fill_Stat 0 true false)) else
  let* e := getsM (fun s => fd_entry s fd) in
  match e with
  | None => fail_with EBADF (-1, None)
  | Some f =>
    let* sz := fresh_size f in
    set_fd fd (Fd_Rec (Used f) (Readable f) (Writable f) (Offset f) sz (Path f));;
    retM (0, Some (Fill_Stat sz false false))
  end.

Definition Gloss_Stat (path : list Z) : G (Z * option stat_rec) :=
  let* p := Qualify path in
  Ensure_Bound;;
  let* r := serv (f_stat_ex p) in
  let '(st, sz, is_d) := r in
  if st =? Status_Ok then retM (0, Some (Fill_Stat sz false is_d)) else
  let* d := Read_Dir p 0 32 in
  if fst d =? Status_Ok then retM (0, Some (Fill_Stat 0 false true))
  else fail_with ENOENT (-1, None).

Definition Gloss_Isatty (fd : Z) : Z := if (0 <=? fd) && (fd <? First_File_FD) then 1 else 0.

(** The calls that hand one qualified path to the service. *)
Definition path_call (op : list Z -> W -> Z * W) (e : Z) (path : list Z) : G Z :=
  Ensure_Bound;;
  let* p := Qualify path in
  let* st := serv (op p) in
  if negb (st =? Status_Ok) then fail_with e (-1) else retM 0.

Definition Gloss_Unlink : list Z -> G Z := path_call f_delete ENOENT.
Definition Gloss_Mkdir (path : list Z) (mode : Z) : G Z := path_call f_mkdir ENOENT path.
Definition Gloss_Rmdir : list Z -> G Z := path_call f_rmdir ENOENT.
Definition Gloss_Access (path : list Z) (mode : Z) : G Z :=
  path_call (fun p w => let '(r, w') := f_stat p w in (fst r, w')) ENOENT path.

Definition Gloss_Rename (old_path new_path : list Z) : G Z :=
  Ensure_Bound;;
  let* o := Qualify old_path in
  let* n := Qualify new_path in
  let* st := serv (f_rename o n) in
  if negb (st =? Status_Ok) then fail_with EPERM (-1) else retM 0.

(** The string stored at [Buf], or null. *)
Definition Gloss_Getcwd (size : Z) : G (option (list Z)) :=
  Ensure_Bound;;
  let* cwd := Get_CWD in
  if size <? Z.of_nat (length cwd) + 1 then fail_with EINVAL None else retM (Some cwd).

Definition Gloss_Chdir (path : list Z) : G Z :=
  let* p := Qualify path in
  Ensure_Bound;;
  let* st := Set_CWD p in
  if negb (st =? Status_Ok) then fail_with ENOENT (-1) else retM 0.

Definition Gloss_Fcntl (fd : Z) : G Z :=
  if fd <? First_File_FD then retM 0 else
  let* e := getsM (fun s => fd_entry s fd) in
  match e with Some _ => retM 0 | None => fail_with EBADF (-1) end.

(** Answers that need no service. *)
Definition Gloss_Chmod (path : list Z) (mode : Z) : G Z := retM 0.
Definition Gloss_Utimensat (path : list Z) : G Z := retM 0.
Definition Gloss_Sysconf (name : Z) : G Z := retM 4096.
Definition Gloss_Getpid : G Z := retM 1.
Definition Gloss_Getppid : G Z := retM 1.

(** The stubs: [ENOSYS] and -1. *)
Definition enosys : G Z := fail_with ENOSYS (-1).
Definition Gloss_Link (old_path new_path : list Z) : G Z := enosys.
Definition Gloss_Fork : G Z := enosys.
Definition Gloss_Execv (path : list Z) : G Z := enosys.
Definition Gloss_Kill (pid sig : Z) : G Z := enosys.
Definition Gloss_Dup (a : Z) : G Z := enosys.
Definition Gloss_Dup2 (a b : Z) : G Z := enosys.
Definition Gloss_Readlink (path : list Z) : G Z := enosys.
Definition Gloss_Symlink (old_path new_path : list Z) : G Z := enosys.

(** The result and [*Status]. *)
Definition Gloss_Waitpid (pid options : Z) : G (Z * Z) := fail_with ENOSYS (-1, 0).

End gloss.
