(* ===== verification/GlossLaws.v ===== *)
(** * What the file service promises

    The documented behaviour of [Aegir_User.Files] (aegir_user-files.ads) on
    ordinary volumes, as laws over an abstract store, and a service that keeps
    them, on which the witnesses run. *)
From S2P Require Import Prelude CInt CStr Gloss.

(** [b] over [c] from position [off] on. *)
Definition splice (off : nat) (b c : list Z) : list Z := take off c ++ b ++ drop (off + length b) c.

Lemma splice_nil off c : splice off [] c = c.
Proof. unfold splice. by rewrite app_nil_l, Nat.add_0_r, take_drop. Qed.

(** Two writes one behind the other are one. *)
Lemma splice_splice off b1 b2 c : (off <= length c)%nat ->
  splice (off + length b1) b2 (splice off b1 c) = splice off (b1 ++ b2) c.
Proof.
  intros H. unfold splice. rewrite length_app, (app_assoc (take off c)).
  assert (Hl : length (take off c ++ b1) = (off + length b1)%nat)
    by (rewrite length_app, length_take; lia).
  rewrite <- Hl, take_app_length, drop_app_add, Hl, drop_drop, <- !app_assoc.
  do 3 f_equal. f_equal. lia.
Qed.

Lemma splice_length off b c : (off <= length c)%nat ->
  length (splice off b c) = Nat.max (length c) (off + length b).
Proof. intros H. unfold splice. rewrite !length_app, length_take, length_drop. lia. Qed.

(** What was written is there. *)
Lemma splice_read off b c : (off <= length c)%nat ->
  take (length b) (drop off (splice off b c)) = b.
Proof.
  intros H. unfold splice.
  rewrite drop_app_length' by (rewrite length_take; lia). by rewrite take_app_length.
Qed.

(** ** Entry names in a reply

    The protocol's [name[24]] in words 3 to 5: eight characters in a word, the
    first in the lowest byte, padded with NUL. *)
Definition name_word (n : list Z) (k : nat) : Z :=
  foldr (fun c w => c + 256 * w) 0 (take 8 (drop (8 * k) n)).
Definition name_words (n : list Z) : list Z := [name_word n 0; name_word n 1; name_word n 2].

(** A character of a name on the wire. *)
Definition name_char (c : Z) : Prop := 0 < c < 256.

Lemma word_byte l : Forall name_char l -> forall j,
  Z.land (foldr (fun c w => c + 256 * w) 0 l / Z.shiftl 1 (Z.of_nat j * 8)) 0xFF = nth j l 0.
Proof.
  intros H j. change 0xFF with (Z.ones 8). rewrite Z.land_ones, Z.shiftl_1_l by lia. change (2 ^ 8) with 256.
  revert j. induction H as [|c l Hc Hl IH]; intros j; cbn [foldr].
  - rewrite Z.div_0_l by lia. by destruct j.
  - unfold name_char in Hc. destruct j as [|j]; cbn [nth].
    + rewrite Z.div_1_r, Z.mul_comm, Z.mod_add, Z.mod_small by lia. done.
    + rewrite <- IH. replace (Z.of_nat (S j) * 8) with (8 + Z.of_nat j * 8) by lia.
      rewrite Z.pow_add_r by lia. change (2 ^ 8) with 256.
      rewrite <- Z.div_div, (Z.mul_comm 256), Z.div_add, (Z.div_small c) by lia. done.
Qed.

Lemma name_byte_words n p : Forall name_char n -> 0 <= p < 24 ->
  name_byte (name_words n) p = nth (Z.to_nat p) n 0.
Proof.
  intros H Hp. unfold name_byte. set (q := Z.to_nat (p / 8)). set (j := Z.to_nat (p mod 8)).
  pose proof (Z.div_mod p 8 ltac:(lia)) as Hd. pose proof (Z.mod_pos_bound p 8 ltac:(lia)) as Hm.
  assert (Hq : (q < 3)%nat) by (unfold q; lia).
  assert (nth q (name_words n) 0 = name_word n q) as -> by (do 3 (destruct q as [|q]; [done|]); lia).
  replace (p mod 8) with (Z.of_nat j) by (unfold j; lia).
  unfold name_word. rewrite word_byte by (by apply Forall_take, Forall_drop).
  rewrite !nth_lookup, lookup_take_lt by (unfold j; lia). rewrite lookup_drop.
  do 2 f_equal. unfold q, j. lia.
Qed.

(** A name goes over the wire as its first 24 characters. *)
Lemma read_name_words n room : Forall name_char n -> 24 <= room ->
  read_name (name_words n) room 24 0 = take 24 n.
Proof.
  intros H Hr. enough (Hgen : forall m p, 0 <= p -> p + Z.of_nat m <= 24 ->
    read_name (name_words n) room m p = take m (drop (Z.to_nat p) n)) by (by rewrite Hgen).
  induction m as [|m IH]; intros p Hp Hm; cbn [read_name]; [by rewrite take_0|].
  rewrite (proj2 (Z.leb_gt _ _)), name_byte_words, nth_lookup by (done || lia).
  destruct (n !! Z.to_nat p) as [c|] eqn:E; cbn [default from_option id].
  - pose proof (proj1 (Forall_lookup _ _) H _ _ E) as Hc. unfold name_char in Hc.
    rewrite (proj2 (Z.eqb_neq c 0)) by lia.
    rewrite (drop_S _ _ _ E), IH by lia. cbn. by rewrite (Z2Nat.inj_add p 1), Nat.add_1_r by lia.
  - apply lookup_ge_None in E. by rewrite drop_ge, take_nil by done.
Qed.

(** Bytes of one request: eight pages. *)
Definition Buf_Bytes : Z := 0x8000.

Section laws.
Context (W : Type) `{!FileServ W}.
Context (files : W -> gmap (list Z) (list Z)) (entries : W -> list Z -> list (list Z)).

(** Binding, contents and directories are as before. *)
Definition same_fs (w' w : W) : Prop :=
  f_endpoint w' = f_endpoint w /\ files w' = files w /\ entries w' = entries w.

(** Between two states the arena had no room for a chunk, and nothing else
    happened since. *)
Definition arena_refused (w' w : W) : Prop :=
  exists w0, same_fs w0 w /\ (arena_grow w0).1 = false /\ w' = (arena_grow w0).2.

(** [regular_path]: names of files on ordinary volumes (no pipe, no
    directory), one name for a file. *)
Class FileLaws (regular_path : list Z -> Prop) : Prop := {
  (* before the endpoint is bound, nothing is found *)
  unbound_open p w : f_endpoint w = false -> f_open p w = ((Status_Bad_Args, 0), w);
  bind_law w : f_endpoint (f_bind w) = true /\ files (f_bind w) = files w /\
               entries (f_bind w) = entries w;
  console_bind_law w : same_fs (console_bind w) w;
  console_put_law b w : same_fs (console_put b w) w;
  arena_law w : same_fs (arena_grow w).2 w;
  open_law p w : regular_path p -> f_endpoint w = true ->
    (f_open p w).1 = match files w !! p with
                     | Some c => (Status_Ok, Z.of_nat (length c))
                     | None => (Status_Not_Found, 0)
                     end /\ same_fs (f_open p w).2 w;
  fstat_size_law p w : regular_path p -> f_endpoint w = true ->
    (f_stat p w).1 = match files w !! p with
                     | Some c => (Status_Ok, Z.of_nat (length c))
                     | None => (Status_Not_Found, 0)
                     end /\ same_fs (f_stat p w).2 w;
  read_law p off n w c : regular_path p -> f_endpoint w = true -> files w !! p = Some c ->
    0 <= off -> 0 < n ->
    same_fs (f_read p off n w).2 w /\
    (if off <? Z.of_nat (length c)
     then (f_read p off n w).1 =
            (Status_Ok, take (Z.to_nat (Z.min n Buf_Bytes)) (drop (Z.to_nat off) c))
     else (f_read p off n w).1 = (Status_Ok, []) \/
          (f_read p off n w).1 = (Status_Out_Of_Range, []));
  (* an empty request is refused by the client side *)
  read_nothing p off w : (f_read p off 0 w).1 = (Status_Bad_Args, []) /\ same_fs (f_read p off 0 w).2 w;
  write_nothing p off w :
    f_write p off [] w = ((Status_Bad_Args, 0), w);
  (* the file is created when it is missing; there are no holes *)
  write_law p off b w : regular_path p -> f_endpoint w = true -> b <> [] ->
    0 <= off <= Z.of_nat (length (default [] (files w !! p))) ->
    let '((st, n), w') := f_write p off b w in
    f_endpoint w' = true /\
    ((st = Status_Ok /\ 0 <= n <= Z.of_nat (length b) /\
      files w' = <[p := splice (Z.to_nat off) (take (Z.to_nat n) b) (default [] (files w !! p))]>
                   (files w)) \/
     (st <> Status_Ok /\ files w' = files w));
  truncate_law p w : regular_path p -> f_endpoint w = true ->
    let '(st, w') := f_truncate p w in
    f_endpoint w' = true /\
    ((st = Status_Ok /\ is_Some (files w !! p) /\ files w' = <[p := []]> (files w)) \/
     (st <> Status_Ok /\ files w' = files w));
  (* a volume that refuses to truncate a file refuses to write it *)
  read_only_law p w off b : regular_path p -> f_endpoint w = true -> is_Some (files w !! p) ->
    (f_truncate p w).1 <> Status_Ok -> (f_write p off b (f_truncate p w).2).1.1 <> Status_Ok;
  delete_law p w : regular_path p -> f_endpoint w = true ->
    let '(st, w') := f_delete p w in
    f_endpoint w' = true /\
    ((st = Status_Ok /\ files w' = delete p (files w)) \/
     (st <> Status_Ok /\ files w' = files w /\ (st = Status_Not_Found -> files w !! p = None)));
  close_law p w : same_fs (f_close p w).2 w;
  (* the environment directory: probing and making it touches no file *)
  stat_any_law p w : f_endpoint w = true -> same_fs (f_stat p w).2 w;
  assign_law i w : f_endpoint w = true -> same_fs (f_assign_list i w).2 w;
  mkdir_law p w : f_endpoint w = true ->
    f_endpoint (f_mkdir p w).2 = true /\ files (f_mkdir p w).2 = files w;
  stat_ex_law p w : f_endpoint w = true -> same_fs (f_stat_ex p w).2 w;
  stat_ex_file_law p w c : regular_path p -> f_endpoint w = true -> files w !! p = Some c ->
    (f_stat_ex p w).1 = (Status_Ok, Z.of_nat (length c), false);
  (* the by-index walk; the end is [Not_Found] *)
  readdir_law p i w : f_endpoint w = true -> 0 <= i ->
    (f_readdir p i w).1 = match entries w p !! Z.to_nat i with
                          | Some n => (Status_Ok, name_words n)
                          | None => (Status_Not_Found, [])
                          end /\ same_fs (f_readdir p i w).2 w
}.

(** A write of at most one buffer that succeeds is complete. *)
Class WholeWrites : Prop := {
  whole_write p off b w : Z.of_nat (length b) <= Buf_Bytes ->
    (f_write p off b w).1.1 = Status_Ok -> (f_write p off b w).1.2 = Z.of_nat (length b)
}.

End laws.
Arguments same_fs {W _} _ _ _ _.
Arguments arena_refused {W _} _ _ _ _.

(** ** A service that keeps them

    Files by name, directories as lists of names; a write takes at most one
    buffer. *)
Record toy_fs := ToyFs {
  tf_bound : bool;
  tf_files : gmap (list Z) (list Z);
  tf_dirs : gmap (list Z) (list (list Z));
  tf_out : list Z }.

Definition tf_set_files (m : gmap (list Z) (list Z)) (w : toy_fs) : toy_fs :=
  ToyFs (tf_bound w) m (tf_dirs w) (tf_out w).
Definition tf_entries (w : toy_fs) (p : list Z) : list (list Z) := default [] (tf_dirs w !! p).

Definition tf_size (w : toy_fs) (p : list Z) : Z * Z :=
  if tf_bound w then
    match tf_files w !! p with
    | Some c => (Status_Ok, Z.of_nat (length c))
    | None => (Status_Not_Found, 0)
    end
  else (Status_Bad_Args, 0).

(** A change of one file, on a bound endpoint. *)
Definition tf_change (w : toy_fs) (f : gmap (list Z) (list Z) -> option (gmap (list Z) (list Z)))
    : Z * toy_fs :=
  if tf_bound w then
    match f (tf_files w) with
    | Some m => (Status_Ok, tf_set_files m w)
    | None => (Status_Not_Found, w)
    end
  else (Status_Bad_Args, w).

#[export] Instance toy_serv : FileServ toy_fs := {|
  f_endpoint := tf_bound;
  f_bind w := ToyFs true (tf_files w) (tf_dirs w) (tf_out w);
  f_stat_ex p w :=
    (let '(st, n) := tf_size w p in
     match tf_dirs w !! p with
     | Some _ => if st =? Status_Not_Found then (Status_Ok, 0, true) else (st, n, false)
     | None => (st, n, false)
     end, w);
  f_stat p w := (tf_size w p, w);
  f_open p w := (tf_size w p, w);
  f_read p off n w :=
    (if negb (tf_bound w) || (n <=? 0) then (Status_Bad_Args, []) else
     match tf_files w !! p with
     | Some c => if off <? Z.of_nat (length c)
                 then (Status_Ok, take (Z.to_nat (Z.min n Buf_Bytes)) (drop (Z.to_nat off) c))
                 else (Status_Out_Of_Range, [])
     | None => (Status_Not_Found, [])
     end, w);
  f_write p off b w :=
    let c := default [] (tf_files w !! p) in
    let n := Z.min (Z.of_nat (length b)) Buf_Bytes in
    if negb (tf_bound w) || bool_decide (b = []) || (Z.of_nat (length c) <? off)
    then ((Status_Bad_Args, 0), w)
    else ((Status_Ok, n),
          tf_set_files (<[p := splice (Z.to_nat off) (take (Z.to_nat n) b) c]> (tf_files w)) w);
  f_truncate p w := tf_change w (fun m => _ ← m !! p; Some (<[p := []]> m));
  f_delete p w := tf_change w (fun m => _ ← m !! p; Some (delete p m));
  f_mkdir p w := (Status_Ok, ToyFs (tf_bound w) (tf_files w)
                               (if tf_bound w then <[p := []]> (tf_dirs w) else tf_dirs w) (tf_out w));
  f_rmdir p w := (Status_Ok, ToyFs (tf_bound w) (tf_files w) (delete p (tf_dirs w)) (tf_out w));
  f_close p w := (Status_Ok, w);
  f_rename p q w := tf_change w (fun m => c ← m !! p; Some (<[q := c]> (delete p m)));
  f_readdir p i w :=
    (if tf_bound w then
       match tf_entries w p !! Z.to_nat i with
       | Some n => (Status_Ok, name_words n)
       | None => (Status_Not_Found, [])
       end
     else (Status_Bad_Args, []), w);
  f_assign_list i w := ((Status_Not_Found, []), w);
  console_bind w := w;
  console_put b w := ToyFs (tf_bound w) (tf_files w) (tf_dirs w) (tf_out w ++ b);
  arena_grow w := (true, w)
|}.

#[export] Instance toy_file_laws : FileLaws toy_fs tf_files tf_entries (fun _ => True).
Proof.
  split; try done.
  - intros p w H. cbn in *. unfold tf_size. by rewrite H.
  - intros p w _ H. cbn in *. unfold tf_size. rewrite H. by destruct (_ !! p).
  - intros p w _ H. cbn in *. unfold tf_size. rewrite H. by destruct (_ !! p).
  - intros p off n w c _ H Hc Hoff Hn. cbn in *. rewrite H, Hc.
    replace (n <=? 0) with false by (symmetry; by apply Z.leb_gt). cbn.
    destruct (off <? _); [done|]. split; [done | by right].
  - intros p off w. cbn. by rewrite orb_true_r.
  - intros p off w. cbn. by rewrite orb_true_r.
  - intros p off b w _ H Hb Hoff. cbn in *. rewrite H, (bool_decide_eq_false_2 _ Hb).
    replace (_ <? off) with false by (symmetry; apply Z.ltb_ge; lia). cbn. split; [done|].
    left. split; [done|]. split; [|done]. unfold Buf_Bytes. lia.
  - intros p w _ H. cbn in *. unfold tf_change. rewrite H.
    destruct (tf_files w !! p) eqn:E; cbn; [|by auto]. split; [done|]. left. by eauto.
  - intros p w off b _ H [c Hc] Ht. exfalso. apply Ht. cbn in *. unfold tf_change.
    by rewrite H, Hc.
  - intros p w _ H. cbn in *. unfold tf_change. rewrite H.
    destruct (tf_files w !! p) eqn:E; cbn; (split; [done|]); [by left | by right].
  - intros p w c _ H Hc. cbn [f_stat_ex toy_serv]. change (tf_bound w = true) in H. unfold tf_size.
    rewrite H, Hc. by destruct (tf_dirs w !! p).
  - intros p i w H Hi. cbn in *. rewrite H. by destruct (_ !! _).
Qed.

#[export] Instance toy_whole_writes : WholeWrites toy_fs.
Proof.
  split. intros p off b w Hl. cbn.
  destruct (negb (tf_bound w) || bool_decide (b = []) || _); [done|]. cbn. lia.
Qed.

(** A text file, two directories and a working directory. *)
Definition demo_fs : toy_fs := ToyFs true
  {[ bytes "Sys:a.txt" := bytes "hello"; bytes "ENV:CWD" := bytes "Sys:C" ]}
  {[ bytes "Sys:" := [bytes "a.txt"; bytes "C"]; bytes "Sys:C" := [bytes "Dir"; bytes "List"] ]} [].
Definition demo_gloss : gloss toy_fs := GlossSt 0 true [] [] demo_fs.
