(* ===== verification/Posix.v ===== *)
(** * The system interface of the vendored GNAT files

    The POSIX and newlib names that adaint.c, cstreams.c and mkdir.c call, as
    a class over a state [S], and its instance on [Aegir_User.Gloss].  The
    newlib entries without a hook of their own ([getenv] on [environ], [time],
    [mktemp], [tmpnam]) are the class [Newlib]. *)
From S2P Require Import Prelude CInt CStr Gloss.

Class Posix (S : Type) := {
  px_errno : S -> Z;
  (* the result, and the record when the call filled it *)
  px_stat : list Z -> M S (Z * option stat_rec);
  px_fstat : Z -> M S (Z * option stat_rec);
  px_access : list Z -> Z -> M S Z;
  px_chmod : list Z -> Z -> M S Z;
  px_utimensat : list Z -> Z * Z -> Z * Z -> M S Z;
  (* path, flags, permissions *)
  px_open : list Z -> Z -> Z -> M S Z;
  px_close : Z -> M S Z;
  px_lseek : Z -> Z -> Z -> M S Z;
  px_fcntl : Z -> Z -> Z -> M S Z;
  px_dup : Z -> M S Z;
  px_dup2 : Z -> Z -> M S Z;
  px_link : list Z -> list Z -> M S Z;
  px_symlink : list Z -> list Z -> M S Z;
  (* path and size: the result and the bytes stored *)
  px_readlink : list Z -> Z -> M S (Z * list Z);
  px_unlink : list Z -> M S Z;
  px_rename : list Z -> list Z -> M S Z;
  px_mkdir : list Z -> Z -> M S Z;
  px_rmdir : list Z -> M S Z;
  px_chdir : list Z -> M S Z;
  px_getcwd : Z -> M S (option (list Z));
  px_opendir : list Z -> M S Z;
  px_readdir : Z -> Z -> M S (Z * list Z);
  px_closedir : Z -> M S Z;
  px_fork : M S Z;
  px_execv : list Z -> list (list Z) -> M S Z;
  (* the process ends *)
  px_exit : Z -> S -> S;
  px_waitpid : Z -> Z -> M S (Z * Z);
  px_kill : Z -> Z -> M S Z;
  px_getpid : M S Z;
  px_getppid : M S Z;
  px_sysconf : Z -> M S Z;
  px_ttyname : Z -> M S (list Z);
  px_getenv : list Z -> S -> option (list Z);
  px_time : M S Z;
  px_mktemp : list Z -> M S (option (list Z));
  px_tmpnam : M S (list Z)
}.

Class Newlib (W : Type) := {
  nl_getenv : list Z -> W -> option (list Z);
  nl_time : W -> Z * W;
  nl_mktemp : list Z -> W -> option (list Z) * W;
  nl_tmpnam : W -> list Z * W;
  nl_exit : Z -> W -> W
}.

#[export] Instance gloss_posix {W} `{!FileServ W, !Newlib W} : Posix (gloss W) := {|
  px_errno := g_errno;
  px_stat := Gloss_Stat;
  px_fstat := Gloss_Fstat;
  px_access := Gloss_Access;
  px_chmod := Gloss_Chmod;
  px_utimensat path _ _ := Gloss_Utimensat path;
  px_open path flags _ := Gloss_Open path flags;
  px_close := Gloss_Close;
  px_lseek fd off whence := let* r := Gloss_Lseek fd (u64 off) whence in retM (i64 r);
  px_fcntl fd _ _ := Gloss_Fcntl fd;
  px_dup := Gloss_Dup;
  px_dup2 := Gloss_Dup2;
  px_link := Gloss_Link;
  px_symlink := Gloss_Symlink;
  px_readlink path _ := let* r := Gloss_Readlink path in retM (r, []);
  px_unlink := Gloss_Unlink;
  px_rename := Gloss_Rename;
  px_mkdir := Gloss_Mkdir;
  px_rmdir := Gloss_Rmdir;
  px_chdir := Gloss_Chdir;
  px_getcwd := Gloss_Getcwd;
  px_opendir := aegir_opendir;
  px_readdir := aegir_readdir;
  px_closedir := aegir_closedir;
  px_fork := Gloss_Fork;
  px_execv path _ := Gloss_Execv path;
  px_exit status s := set_world (nl_exit status (g_world s)) s;
  px_waitpid := Gloss_Waitpid;
  px_kill := Gloss_Kill;
  px_getpid := Gloss_Getpid;
  px_getppid := Gloss_Getppid;
  px_sysconf := Gloss_Sysconf;
  px_ttyname _ := retM (bytes "console");
  px_getenv name s := nl_getenv name (g_world s);
  px_time := serv nl_time;
  px_mktemp t := serv (nl_mktemp t);
  px_tmpnam := serv nl_tmpnam
|}.

(** An empty [environ] and a clock that stands still. *)
#[export] Instance still_newlib (W : Type) : Newlib W := {|
  nl_getenv _ _ := None;
  nl_time w := (0, w);
  nl_mktemp t w := (Some t, w);
  nl_tmpnam w := (bytes "T", w);
  nl_exit _ w := w
|}.
