(* ===== verification/FileAttr.v ===== *)
(** * File attributes: adaint.c

    The lazy cache [struct file_attributes] (adaint.h), the one routine that
    fills it from [stat] or [fstat], the queries on it with their one-shot
    forms, the permission setters and the time stamps, as this configuration
    builds them (newlib: not Windows, not VxWorks, no [utime]). *)
From S2P Require Import Prelude CInt CStr Gloss Posix.

(** ** Modes, newlib's sys/stat.h *)

Definition S_IFMT : Z := 0xf000.
Definition S_IRUSR : Z := 0x100.
Definition S_IWUSR : Z := 0x80.
Definition S_IXUSR : Z := 0x40.
Definition S_IXGRP : Z := 0x8.
Definition S_IXOTH : Z := 0x1.
Definition S_IREAD : Z := S_IRUSR.
Definition R_OK : Z := 4.
Definition W_OK : Z := 2.

Definition S_ISREG (m : Z) : bool := Z.land m S_IFMT =? S_IFREG.
Definition S_ISDIR (m : Z) : bool := Z.land m S_IFMT =? S_IFDIR.

(** C truth values as integers. *)
Definition c_bool (b : bool) : Z := if b then 1 else 0.

(** ** The cache *)

Definition ATTR_UNSET : Z := 127.

Record file_attributes := Attr {
  error : Z; exists_ : Z;
  writable : Z; readable : Z; executable : Z;
  symbolic_link : Z; regular : Z; directory : Z;
  timestamp : Z; file_length : Z }.

(** Every field is assigned: the old contents do not matter. *)
Definition gnat_reset_attributes : file_attributes :=
  Attr EINVAL ATTR_UNSET ATTR_UNSET ATTR_UNSET ATTR_UNSET ATTR_UNSET ATTR_UNSET ATTR_UNSET (-2) (-1).

Definition gnat_error_attributes (attr : file_attributes) : Z := error attr.

Definition set_symbolic_link (v : Z) (a : file_attributes) : file_attributes :=
  Attr (error a) (exists_ a) (writable a) (readable a) (executable a) v (regular a) (directory a)
    (timestamp a) (file_length a).

(** The record after a [stat] with error code [err] that filled [sb], or
    failed.  [symbolic_link] is not touched. *)
Definition fill_attr (err : Z) (sb : option stat_rec) (a : file_attributes) : file_attributes :=
  let mode_test (f : Z -> bool) := match sb with Some st => f (st_mode st) | None => false end in
  let bit (b : Z) := c_bool (mode_test (fun m => negb (Z.land m b =? 0))) in
  let reg := mode_test S_ISREG in
  Attr (if (err =? 0) || (err =? ENOENT) then 0 else err)
    (match sb with Some _ => 1 | None => 0 end)
    (bit S_IWUSR) (bit S_IRUSR) (bit S_IXUSR) (symbolic_link a)
    (c_bool reg) (c_bool (mode_test S_ISDIR))
    (match sb with Some st => fst (st_mtim st) | None => -1 end)
    (match sb with Some st => if reg then st_size st else 0 | None => 0 end).

Section attr.
Context {S : Type} `{!Posix S}.

(** A run that reads an object no call has filled: it has no result. *)
Definition undefined {A} : M S A := fun s => Blocked s.

(** 0 or the errno of a failed [stat]. *)
Definition gnat_stat (name : list Z) : M S (Z * option stat_rec) :=
  let* r := px_stat name in
  if fst r =? 0 then retM (0, snd r)
  else let* e := getsM px_errno in retM (e, snd r).

(** [ret] and [error] of the two branches; [name] is null or a string. *)
Definition gnat_stat_to_attr (fd : Z) (name : option (list Z)) (attr : file_attributes)
    : M S file_attributes :=
  if negb (fd =? -1) then
    let* r := px_fstat fd in
    if fst r =? 0 then
      match snd r with Some st => retM (fill_attr 0 (Some st) attr) | None => undefined end
    else let* e := getsM px_errno in retM (fill_attr e None attr)
  else
    match name with
    | None => undefined
    | Some n =>
      let* r := gnat_stat n in
      if fst r =? 0 then
        match snd r with Some st => retM (fill_attr 0 (Some st) attr) | None => undefined end
      else retM (fill_attr (fst r) None attr)
    end.

(** ** Queries: the value and the cache after the call *)

(** [if (cached) fill; return field]. *)
Definition cached_query (stale : file_attributes -> bool) (field : file_attributes -> Z)
    (fd : Z) (name : option (list Z)) (attr : file_attributes) : M S (Z * file_attributes) :=
  let* a := (if stale attr then gnat_stat_to_attr fd name attr else retM attr) in
  retM (field a, a).

Definition gnat_file_length_attr (fd : Z) (name : option (list Z)) :
    file_attributes -> M S (Z * file_attributes) :=
  cached_query (fun a => file_length a =? -1) file_length fd name.

Definition gnat_file_time_name_attr (name : list Z) :
    file_attributes -> M S (Z * file_attributes) :=
  cached_query (fun a => timestamp a =? -2) timestamp (-1) (Some name).

Definition gnat_file_time_fd_attr (fd : Z) : file_attributes -> M S (Z * file_attributes) :=
  cached_query (fun a => timestamp a =? -2) timestamp fd None.

Definition gnat_file_exists_attr (name : list Z) :
    file_attributes -> M S (Z * file_attributes) :=
  cached_query (fun a => exists_ a =? ATTR_UNSET) exists_ (-1) (Some name).

Definition gnat_is_regular_file_attr (name : list Z) :
    file_attributes -> M S (Z * file_attributes) :=
  cached_query (fun a => regular a =? ATTR_UNSET) regular (-1) (Some name).

Definition gnat_is_directory_attr (name : list Z) :
    file_attributes -> M S (Z * file_attributes) :=
  cached_query (fun a => directory a =? ATTR_UNSET) directory (-1) (Some name).

Definition gnat_is_readable_file_attr (name : list Z) :
    file_attributes -> M S (Z * file_attributes) :=
  cached_query (fun a => readable a =? ATTR_UNSET) readable (-1) (Some name).

Definition gnat_is_writable_file_attr (name : list Z) :
    file_attributes -> M S (Z * file_attributes) :=
  cached_query (fun a => writable a =? ATTR_UNSET) writable (-1) (Some name).

(** [attr->regular && attr->executable]. *)
Definition gnat_is_executable_file_attr (name : list Z) :
    file_attributes -> M S (Z * file_attributes) :=
  cached_query (fun a => executable a =? ATTR_UNSET)
    (fun a => c_bool (negb (regular a =? 0) && negb (executable a =? 0))) (-1) (Some name).

(** No system call in this configuration. *)
Definition gnat_is_symbolic_link_attr (name : list Z) (attr : file_attributes) :
    M S (Z * file_attributes) :=
  let a := if symbolic_link attr =? ATTR_UNSET then set_symbolic_link 0 attr else attr in
  retM (symbolic_link a, a).

(** The one-shot forms: a local record, reset, then the query. *)
Definition one_shot (q : file_attributes -> M S (Z * file_attributes)) : M S Z :=
  let* r := q gnat_reset_attributes in retM (fst r).

Definition gnat_file_length (fd : Z) : M S Z := one_shot (gnat_file_length_attr fd None).
Definition gnat_file_length_long (fd : Z) : M S Z :=
  let* r := one_shot (gnat_file_length_attr fd None) in retM (i64 r).
Definition gnat_named_file_length (name : list Z) : M S Z :=
  one_shot (gnat_file_length_attr (-1) (Some name)).
Definition gnat_file_time_name (name : list Z) : M S Z := one_shot (gnat_file_time_name_attr name).
Definition gnat_file_time_fd (fd : Z) : M S Z := one_shot (gnat_file_time_fd_attr fd).
Definition gnat_file_exists (name : list Z) : M S Z := one_shot (gnat_file_exists_attr name).
Definition gnat_is_regular_file (name : list Z) : M S Z := one_shot (gnat_is_regular_file_attr name).
Definition gnat_is_directory (name : list Z) : M S Z := one_shot (gnat_is_directory_attr name).
Definition gnat_is_readable_file (name : list Z) : M S Z := one_shot (gnat_is_readable_file_attr name).
Definition gnat_is_writable_file (name : list Z) : M S Z := one_shot (gnat_is_writable_file_attr name).
Definition gnat_is_executable_file (name : list Z) : M S Z :=
  one_shot (gnat_is_executable_file_attr name).
Definition gnat_is_symbolic_link (name : list Z) : M S Z := one_shot (gnat_is_symbolic_link_attr name).

Definition gnat_is_regular_file_fd (fd : Z) : M S Z :=
  let* r := px_fstat fd in
  if fst r =? 0 then
    match snd r with Some st => retM (c_bool (S_ISREG (st_mode st))) | None => undefined end
  else retM 0.

Definition gnat_is_read_accessible_file (name : list Z) : M S Z :=
  let* r := px_access name R_OK in retM (c_bool (r =? 0)).
Definition gnat_is_write_accessible_file (name : list Z) : M S Z :=
  let* r := px_access name W_OK in retM (c_bool (r =? 0)).

(** ** Permissions *)

(** [if (stat succeeds) chmod (name, f (mode))]. *)
Definition change_mode (f : Z -> Z) (name : list Z) : M S unit :=
  let* r := px_stat name in
  if fst r =? 0 then
    match snd r with
    | Some st => px_chmod name (f (st_mode st));; retM tt
    | None => undefined
    end
  else retM tt.

Definition gnat_set_writable : list Z -> M S unit := change_mode (fun m => Z.lor m S_IWUSR).

Definition S_OWNER : Z := 1.
Definition S_GROUP : Z := 2.
Definition S_OTHERS : Z := 4.

Definition executable_mode (mode m : Z) : Z :=
  let m := if negb (Z.land mode S_OWNER =? 0) then Z.lor m S_IXUSR else m in
  let m := if negb (Z.land mode S_GROUP =? 0) then Z.lor m S_IXGRP else m in
  if negb (Z.land mode S_OTHERS =? 0) then Z.lor m S_IXOTH else m.

Definition gnat_set_executable (name : list Z) (mode : Z) : M S unit :=
  change_mode (executable_mode mode) name.

(** Octal 07577. *)
Definition gnat_set_non_writable : list Z -> M S unit := change_mode (fun m => Z.land m 0xf7f).
Definition gnat_set_readable : list Z -> M S unit := change_mode (fun m => Z.lor m S_IREAD).
Definition gnat_set_non_readable : list Z -> M S unit :=
  change_mode (fun m => Z.land m (Z.lnot S_IREAD)).

(** The [utimensat] branch; [mode] is 0, 1 or 2. *)
Definition gnat_copy_attribs (from to_ : list Z) (mode : Z) : M S Z :=
  let* r := px_stat from in
  if fst r =? -1 then retM (-1) else
  match snd r with
  | None => undefined
  | Some fbuf =>
    let* u := (if negb (mode =? 2) then px_utimensat to_ (st_atim fbuf) (st_mtim fbuf)
               else retM 0) in
    if u =? -1 then retM (-1) else
    if mode =? 0 then retM 0 else
    let* c := px_chmod to_ (st_mode fbuf) in
    if c =? -1 then retM (-1) else retM 0
  end.

(** Volumes keep no time stamps: the call does nothing. *)
Definition gnat_set_file_time_name (name : list Z) (time_stamp : Z) : M S unit := retM tt.

(** ** Nanoseconds since 2150 *)

Definition LLONG_MIN : Z := - 2 ^ 63.
Definition ada_epoch_offset : Z := (136 * 365 + 44 * 366) * 86400.

(** [__builtin_s*ll_overflow]: the exact result, when it is a [long long]. *)
Definition checked (x : Z) : option Z :=
  if (- 2 ^ 63 <=? x) && (x <? 2 ^ 63) then Some x else None.

Definition ada_time (sec nsec : Z) : Z :=
  from_option id LLONG_MIN
    (r ← checked (sec - ada_epoch_offset); r ← checked (r * 1000000000); checked (r + nsec)).

Definition gnat_file_time (name : option (list Z)) : M S Z :=
  match name with
  | None => retM LLONG_MIN
  | Some n =>
    let* r := px_stat n in
    if negb (fst r =? 0) then retM LLONG_MIN else
    match snd r with
    | Some sb => retM (ada_time (fst (st_mtim sb)) (snd (st_mtim sb)))
    | None => undefined
    end
  end.

End attr.
