(* ===== verification/FileAttrSpec.v ===== *)
(** * Theorems on the attribute cache

    The queries as operations on one cache record, the invariant of the
    record, that a series of queries performs one [stat] and answers like the
    one-shot forms, the modes the setters hand to [chmod], and the range of
    the nanosecond time stamps. *)
From S2P Require Import Prelude CInt CStr Gloss GlossLaws Posix FileAttr.

(** ** The invariant *)

Definition is_flag (x : Z) : Prop := x = 0 \/ x = 1.

(** No system call has filled the record. *)
Definition attr_fresh (a : file_attributes) : Prop :=
  error a = EINVAL /\ exists_ a = ATTR_UNSET /\ writable a = ATTR_UNSET /\
  readable a = ATTR_UNSET /\ executable a = ATTR_UNSET /\ regular a = ATTR_UNSET /\
  directory a = ATTR_UNSET /\ timestamp a = -2 /\ file_length a = -1.

(** One has: the flags are 0 or 1, a file is not both regular and a
    directory, only a regular file has a length, and a file that does not
    exist has no attribute at all. *)
Definition attr_filled (a : file_attributes) : Prop :=
  is_flag (exists_ a) /\ is_flag (writable a) /\ is_flag (readable a) /\
  is_flag (executable a) /\ is_flag (regular a) /\ is_flag (directory a) /\
  (regular a = 1 -> directory a = 0) /\
  (regular a = 0 -> file_length a = 0) /\
  (exists_ a = 0 -> writable a = 0 /\ readable a = 0 /\ executable a = 0 /\
                    regular a = 0 /\ directory a = 0 /\ timestamp a = -1) /\
  (error a <> 0 -> exists_ a = 0) /\ error a <> ENOENT.

Definition attr_wf (a : file_attributes) : Prop :=
  (attr_fresh a \/ attr_filled a) /\ (symbolic_link a = ATTR_UNSET \/ symbolic_link a = 0).

Lemma c_bool_flag b : is_flag (c_bool b).
Proof. destruct b; [by right|by left]. Qed.
#[export] Hint Resolve c_bool_flag : aegir.

Lemma isreg_not_isdir m : S_ISREG m = true -> S_ISDIR m = false.
Proof.
  unfold S_ISREG, S_ISDIR. intros H%Z.eqb_eq. rewrite H. reflexivity.
Qed.

Lemma fill_attr_filled err sb a :
  (err = 0 <-> is_Some sb) -> attr_filled (fill_attr err sb a).
Proof.
  intros Herr. unfold attr_filled, fill_attr. cbn [error exists_ writable readable executable
    regular directory timestamp file_length].
  destruct sb as [st|].
  - rewrite (proj2 Herr) by eauto.
    assert (Hd : c_bool (S_ISREG (st_mode st)) = 1 -> c_bool (S_ISDIR (st_mode st)) = 0).
    { destruct (S_ISREG (st_mode st)) eqn:E; [by rewrite isreg_not_isdir | done]. }
    assert (Hf : c_bool (S_ISREG (st_mode st)) = 0 ->
                 (if S_ISREG (st_mode st) then st_size st else 0) = 0).
    { by destruct (S_ISREG (st_mode st)). }
    split; [by right|]. repeat split; auto with aegir; done.
  - assert (He : (if (err =? 0) || (err =? ENOENT) then 0 else err) <> ENOENT).
    { destruct ((err =? 0) || (err =? ENOENT)) eqn:E; [done|]. by bool_to_prop. }
    repeat split; auto with aegir; by left.
Qed.

Lemma fill_attr_symlink err sb a : symbolic_link (fill_attr err sb a) = symbolic_link a.
Proof. done. Qed.

Lemma fresh_wf : attr_wf gnat_reset_attributes.
Proof. split; [left; by repeat split | by left]. Qed.

(** ** Queries as data *)

Inductive attr_query :=
| Q_exists | Q_regular | Q_directory | Q_readable | Q_writable | Q_executable
| Q_symlink | Q_length | Q_time
| Q_length_fd (fd : Z) | Q_time_fd (fd : Z).

(** What [stat] and [fstat] promise: a record, or -1 and an errno. *)
Definition stat_answer {S} `{!Posix S} (r : Z * option stat_rec) (s : S) : Prop :=
  (r.1 = 0 /\ is_Some r.2) \/ (r.1 = -1 /\ r.2 = None /\ px_errno s <> 0).

Class StatLaws (S : Type) `{!Posix S} : Prop := {
  stat_law name s : wlp (px_stat name) stat_answer (fun _ => True) s;
  fstat_law fd s : wlp (px_fstat fd) stat_answer (fun _ => True) s
}.

Section spec.
Context {S : Type} `{!Posix S, !StatLaws S}.

Definition run_query (name : list Z) (q : attr_query) (a : file_attributes) :
    M S (Z * file_attributes) :=
  match q with
  | Q_exists => gnat_file_exists_attr name a
  | Q_regular => gnat_is_regular_file_attr name a
  | Q_directory => gnat_is_directory_attr name a
  | Q_readable => gnat_is_readable_file_attr name a
  | Q_writable => gnat_is_writable_file_attr name a
  | Q_executable => gnat_is_executable_file_attr name a
  | Q_symlink => gnat_is_symbolic_link_attr name a
  | Q_length => gnat_file_length_attr (-1) (Some name) a
  | Q_time => gnat_file_time_name_attr name a
  | Q_length_fd fd => gnat_file_length_attr fd None a
  | Q_time_fd fd => gnat_file_time_fd_attr fd a
  end.

Fixpoint run_queries (name : list Z) (qs : list attr_query) (a : file_attributes) :
    M S (list Z * file_attributes) :=
  match qs with
  | [] => retM ([], a)
  | q :: qs' =>
    let* r := run_query name q a in
    let* rs := run_queries name qs' (snd r) in
    retM (fst r :: fst rs, snd rs)
  end.

(** A query leaves the cache as it is, fills it once, or notes that the file
    is no link. *)
Lemma stat_to_attr_wf fd name a s :
  attr_wf a -> wlp (gnat_stat_to_attr fd name a) (fun a' _ => attr_wf a') (fun _ => True) s.
Proof.
  intros [_ Hl]. unfold gnat_stat_to_attr, gnat_stat, undefined.
  assert (Hw : forall err sb, (err = 0 <-> is_Some sb) -> attr_wf (fill_attr err sb a)).
  { intros err sb H. split; [right; by apply fill_attr_filled | done]. }
  unfold wlp, bindM, getsM, retM. destruct (negb (fd =? -1)).
  - pose proof (fstat_law fd s) as Hs. unfold wlp in Hs.
    destruct (px_fstat fd s) as [[r sb] s'|]; [|done].
    destruct Hs as [[Hr [st ->]]|(Hr & -> & He)]; cbn [fst snd] in *; subst r; cbn -[attr_wf];
      apply Hw; naive_solver.
  - destruct name as [n|]; [|done].
    pose proof (stat_law n s) as Hs. unfold wlp in Hs.
    destruct (px_stat n s) as [[r sb] s'|]; [|done].
    destruct Hs as [[Hr [st ->]]|(Hr & -> & He)]; cbn [fst snd] in *; subst r; cbn -[attr_wf].
    + apply Hw; naive_solver.
    + destruct (px_errno s' =? 0) eqn:E; bool_to_prop; [done|]. apply Hw; naive_solver.
Qed.

Lemma cached_query_wf stale field fd name a s :
  attr_wf a ->
  wlp (cached_query stale field fd name a) (fun r _ => attr_wf r.2) (fun _ => True) s.
Proof.
  intros Ha. unfold cached_query. apply wlp_bind. destruct (stale a); [|done].
  pose proof (stat_to_attr_wf fd name a s Ha) as H. unfold wlp in *.
  by destruct (gnat_stat_to_attr fd name a s).
Qed.

(** C38. Typing of the attribute cache: whatever queries are made on a cache
    record, by name or by descriptor, in any order and for any answers of the
    system, the record is either as [__gnat_reset_attributes] left it or filled
    consistently: its flags are 0 or 1, no file is both regular and a
    directory, only a regular file has a length, a file that does not exist
    has no attribute and the time stamp -1, and an error other than a missing
    file means that nothing is known. *)
Theorem attr_cache_typed (name : list Z) (qs : list attr_query) (s : S) :
  wlp (run_queries name qs gnat_reset_attributes) (fun r _ => attr_wf r.2) (fun _ => True) s.
Proof.
  assert (H : forall qs a s, attr_wf a ->
    wlp (run_queries name qs a) (fun r _ => attr_wf r.2) (fun _ => True) s);
    [|apply H, fresh_wf].
  clear qs s. induction qs as [|q qs IH]; intros a s Ha; [done|].
  cbn [run_queries]. apply wlp_bind.
  assert (Hq : wlp (run_query name q a) (fun r _ => attr_wf r.2) (fun _ => True) s).
  { destruct q; cbn [run_query]; try by apply cached_query_wf.
    unfold gnat_is_symbolic_link_attr. destruct (symbolic_link a =? ATTR_UNSET); [|exact Ha].
    split; [apply Ha | by right]. }
  unfold wlp at 1. unfold wlp at 1 in Hq. destruct (run_query name q a s) as [r s'|]; [|done].
  apply wlp_bind. specialize (IH r.2 s' Hq). unfold wlp in *.
  by destruct (run_queries name qs r.2 s').
Qed.

(** ** One system call per cache *)

Definition by_name (q : attr_query) : bool :=
  match q with Q_length_fd _ | Q_time_fd _ => false | _ => true end.
Definition needs_stat (q : attr_query) : bool := match q with Q_symlink => false | _ => true end.

(** The function without a cache that answers the same question. *)
Definition one_shot_form (name : list Z) (q : attr_query) : M S Z :=
  match q with
  | Q_exists => gnat_file_exists name
  | Q_regular => gnat_is_regular_file name
  | Q_directory => gnat_is_directory name
  | Q_readable => gnat_is_readable_file name
  | Q_writable => gnat_is_writable_file name
  | Q_executable => gnat_is_executable_file name
  | Q_symlink => gnat_is_symbolic_link name
  | Q_length => gnat_named_file_length name
  | Q_time => gnat_file_time_name name
  | Q_length_fd fd => gnat_file_length fd
  | Q_time_fd fd => gnat_file_time_fd fd
  end.

(** Equal but for [symbolic_link], which no other query touches. *)
Definition same_stat (a b : file_attributes) : Prop := set_symbolic_link 0 a = set_symbolic_link 0 b.

(** The field a query reads. *)
Definition query_field (q : attr_query) (a : file_attributes) : Z :=
  match q with
  | Q_exists => exists_ a
  | Q_regular => regular a
  | Q_directory => directory a
  | Q_readable => readable a
  | Q_writable => writable a
  | Q_executable => c_bool (negb (regular a =? 0) && negb (executable a =? 0))
  | Q_symlink => 0
  | Q_length | Q_length_fd _ => file_length a
  | Q_time | Q_time_fd _ => timestamp a
  end.

(** No value of the record is one of the marks for "not known". *)
Definition no_mark (a : file_attributes) : Prop :=
  exists_ a <> ATTR_UNSET /\ regular a <> ATTR_UNSET /\ directory a <> ATTR_UNSET /\
  readable a <> ATTR_UNSET /\ writable a <> ATTR_UNSET /\ executable a <> ATTR_UNSET /\
  file_length a <> -1 /\ timestamp a <> -2.

Lemma filled_no_mark err sb a :
  (forall st, sb = Some st -> fst (st_mtim st) <> -2 /\ st_size st <> -1) ->
  no_mark (fill_attr err sb a).
Proof.
  intros H. unfold no_mark, fill_attr, c_bool, ATTR_UNSET.
  cbn [exists_ regular directory readable writable executable file_length timestamp].
  destruct sb as [st|]; [destruct (H st eq_refl)|]; repeat split; try done; repeat case_match; done.
Qed.

Lemma query_hit name q a s :
  by_name q = true -> no_mark a -> (symbolic_link a = ATTR_UNSET \/ symbolic_link a = 0) ->
  exists a', run_query name q a s = Done (query_field q a, a') s /\ same_stat a' a /\
    (symbolic_link a' = ATTR_UNSET \/ symbolic_link a' = 0).
Proof.
  intros Hq (H1 & H2 & H3 & H4 & H5 & H6 & H7 & H8) Hl.
  apply Z.eqb_neq in H1, H2, H3, H4, H5, H6, H7, H8.
  destruct q; try done; cbn [run_query];
    try (unfold gnat_file_exists_attr, gnat_is_regular_file_attr, gnat_is_directory_attr,
           gnat_is_readable_file_attr, gnat_is_writable_file_attr, gnat_is_executable_file_attr,
           gnat_file_length_attr, gnat_file_time_name_attr, cached_query;
         rewrite ?H1, ?H2, ?H3, ?H4, ?H5, ?H6, ?H7, ?H8; by eexists).
  unfold gnat_is_symbolic_link_attr. destruct Hl as [Hl|Hl]; rewrite Hl.
  - exists (set_symbolic_link 0 a). split; [done|]. split; [done | by right].
  - exists a. split; [unfold retM; cbn; by rewrite Hl|]. split; [done | by right].
Qed.

(** The record a successful or failed [stat] leaves behind. *)
Definition stat_attr (r : Z * option stat_rec) (s : S) (a : file_attributes) : file_attributes :=
  match r.2 with Some st => fill_attr 0 (Some st) a | None => fill_attr (px_errno s) None a end.

Lemma stat_to_attr_done name a s r s1 :
  px_stat name s = Done r s1 ->
  gnat_stat_to_attr (-1) (Some name) a s = Done (stat_attr r s1 a) s1.
Proof.
  intros Hs. pose proof (stat_law name s) as Hl. unfold wlp in Hl. rewrite Hs in Hl.
  unfold gnat_stat_to_attr, gnat_stat, stat_attr, bindM, retM, getsM.
  change (-1 =? -1) with true. cbv beta iota delta [negb]. rewrite Hs.
  destruct r as [r sb], Hl as [[Hr [st Hst]]|(Hr & Hst & He)]; cbn [fst snd] in *; subst r sb;
    cbn [fst snd Z.eqb]; [done|].
  apply Z.eqb_neq in He. by rewrite He.
Qed.

Lemma query_miss name q a s r s1 :
  by_name q = true -> needs_stat q = true -> same_stat a gnat_reset_attributes ->
  px_stat name s = Done r s1 ->
  run_query name q a s = Done (query_field q (stat_attr r s1 a), stat_attr r s1 a) s1.
Proof.
  intros Hq Hn Ha Hs. pose proof (stat_to_attr_done name a s r s1 Hs) as H.
  unfold same_stat in Ha. destruct a; cbn in Ha; injection Ha as -> -> -> -> -> -> -> -> ->.
  destruct q; try done; cbn [run_query];
    unfold gnat_file_exists_attr, gnat_is_regular_file_attr, gnat_is_directory_attr,
      gnat_is_readable_file_attr, gnat_is_writable_file_attr, gnat_is_executable_file_attr,
      gnat_file_length_attr, gnat_file_time_name_attr, cached_query;
    cbn [exists_ regular directory readable writable executable file_length timestamp];
    unfold bindM; rewrite ?Z.eqb_refl; cbv beta iota; rewrite H; reflexivity.
Qed.

Lemma stat_attr_symlink r s a : symbolic_link (stat_attr r s a) = symbolic_link a.
Proof. unfold stat_attr. by destruct r.2. Qed.

Lemma query_field_same q a b : same_stat a b -> query_field q a = query_field q b.
Proof.
  unfold same_stat. destruct a, b. cbn. intros H. injection H as -> -> -> -> -> -> -> -> ->.
  by destruct q.
Qed.

Lemma stat_attr_same r s a b : same_stat (stat_attr r s a) (stat_attr r s b).
Proof. unfold stat_attr. by destruct r.2. Qed.

(** A record that differs from a filled one in the link field answers alike. *)
Lemma no_mark_same a b : same_stat a b -> no_mark b -> no_mark a.
Proof.
  unfold same_stat. destruct a, b. cbn. intros H. injection H as -> -> -> -> -> -> -> -> ->. done.
Qed.

(** The answers of a run from a filled record: no system call is made. *)
Lemma queries_hit name qs b : no_mark b -> Forall (fun q => by_name q = true) qs ->
  forall a s, same_stat a b -> (symbolic_link a = ATTR_UNSET \/ symbolic_link a = 0) ->
  exists a', run_queries name qs a s = Done ((fun q => query_field q b) <$> qs, a') s.
Proof.
  intros Hb. induction 1 as [|q qs Hq Hqs IH]; intros a s Hab Hl; [by eexists|].
  destruct (query_hit name q a s Hq) as (a1 & E & H1 & Hl1); [by eapply no_mark_same|done|].
  assert (H2 : same_stat a1 b) by (unfold same_stat in *; congruence).
  destruct (IH a1 s H2 Hl1) as [a2 E2]. exists a2. cbn [run_queries]. unfold bindM.
  rewrite E. cbn [fst snd]. rewrite E2, (query_field_same q a b Hab). done.
Qed.

(** C26. A cache record costs one system call: let the queries made on a reset
    record be any list of queries by name.  They perform one [stat], at the
    first query that needs it and none if no query does, and each of them
    answers what the function without a cache would have answered at that
    moment.  (The file's time stamp must not be -2 and its size not -1, the
    marks the record uses for "not known".) *)
Theorem attr_cache_one_stat (name : list Z) (qs : list attr_query) (s s1 : S)
    (r : Z * option stat_rec) :
  px_stat name s = Done r s1 ->
  (forall st, r.2 = Some st -> fst (st_mtim st) <> -2 /\ st_size st <> -1) ->
  Forall (fun q => by_name q = true) qs ->
  exists (ans : attr_query -> Z) (a : file_attributes),
    (forall q, by_name q = true ->
       one_shot_form name q s = Done (ans q) (if needs_stat q then s1 else s)) /\
    run_queries name qs gnat_reset_attributes s =
      Done (ans <$> qs, a) (if existsb needs_stat qs then s1 else s).
Proof.
  intros Hs Hmark Hqs. set (b := stat_attr r s1 gnat_reset_attributes).
  assert (Hb : no_mark b).
  { unfold b, stat_attr. destruct r.2 eqn:E; apply filled_no_mark; [by intros st' [= <-]; apply Hmark | done]. }
  exists (fun q => query_field q b).
  cut (forall qs, Forall (fun q => by_name q = true) qs -> forall a,
    same_stat a gnat_reset_attributes -> (symbolic_link a = ATTR_UNSET \/ symbolic_link a = 0) ->
    exists a', run_queries name qs a s =
      Done ((fun q => query_field q b) <$> qs, a') (if existsb needs_stat qs then s1 else s)).
  { intros H. destruct (H qs Hqs gnat_reset_attributes) as [a' E]; [done|by left|].
    exists a'. split; [|done]. clear a' E. intros q Hq.
    destruct (H [q] (Forall_cons_2 _ _ _ Hq (Forall_nil_2 _)) gnat_reset_attributes)
      as [a' E]; [done|by left|].
    cbn in E. rewrite orb_false_r in E. unfold bindM, retM in E.
    assert (Ho : one_shot_form name q s = bindM (run_query name q gnat_reset_attributes)
      (fun r => retM (fst r)) s) by (destruct q; done).
    rewrite Ho. unfold bindM, retM. destruct (run_query name q gnat_reset_attributes s); [|done].
    congruence. }
  clear qs Hqs. induction 1 as [|q qs Hq Hqs IH]; intros a Ha Hl; [by eexists|].
  destruct (needs_stat q) eqn:Hn; cbn [existsb run_queries]; rewrite Hn; cbn [orb]; unfold bindM.
  - rewrite (query_miss name q a s r s1 Hq Hn Ha Hs). cbn [fst snd].
    destruct (queries_hit name qs b Hb Hqs (stat_attr r s1 a) s1) as [a' E].
    { apply stat_attr_same. } { by rewrite stat_attr_symlink. }
    rewrite E. exists a'. cbn. by rewrite (query_field_same q _ b (stat_attr_same r s1 a _)).
  - destruct q; try done. cbn [run_query]. unfold gnat_is_symbolic_link_attr, retM at 1.
    assert (Hz : symbolic_link (if symbolic_link a =? ATTR_UNSET then set_symbolic_link 0 a else a) = 0).
    { destruct Hl as [Hl|Hl]; rewrite Hl; done. }
    destruct (IH (if symbolic_link a =? ATTR_UNSET then set_symbolic_link 0 a else a)) as [a' E].
    { by destruct (symbolic_link a =? ATTR_UNSET). } { by right. }
    exists a'. cbn [fst snd]. rewrite E. cbn. by rewrite Hz.
Qed.

(** ** Permissions *)

Inductive perm_change :=
| P_writable | P_non_writable | P_readable | P_non_readable | P_executable (mode : Z).

Definition run_change (p : perm_change) (name : list Z) : M S unit :=
  match p with
  | P_writable => gnat_set_writable name
  | P_non_writable => gnat_set_non_writable name
  | P_readable => gnat_set_readable name
  | P_non_readable => gnat_set_non_readable name
  | P_executable mode => gnat_set_executable name mode
  end.

(** Bit [i] of the mode after the change, [b] being the bit before it.  The
    three classes of [S_OWNER], [S_GROUP], [S_OTHERS] are bits 0, 1, 2 of the
    argument and bits 6, 3, 0 of the mode. *)
Definition bit_after (p : perm_change) (i : Z) (b : bool) : bool :=
  match p with
  | P_writable => b || (i =? 7)
  | P_non_writable => b && (i <? 12) && negb (i =? 7)
  | P_readable => b || (i =? 8)
  | P_non_readable => b && negb (i =? 8)
  | P_executable mode =>
      b || ((i =? 6) && Z.testbit mode 0) || ((i =? 3) && Z.testbit mode 1)
        || ((i =? 0) && Z.testbit mode 2)
  end.

Lemma test_pow2 k i : 0 <= k -> Z.testbit (2 ^ k) i = (i =? k).
Proof. intros Hk. rewrite Z.pow2_bits_eqb by done. apply Z.eqb_sym. Qed.

Lemma land_pow2 m k : 0 <= k -> negb (Z.land m (2 ^ k) =? 0) = Z.testbit m k.
Proof.
  intros Hk. destruct (Z.testbit m k) eqn:E.
  - apply negb_true_iff, Z.eqb_neq. intros H. apply (f_equal (fun x => Z.testbit x k)) in H.
    by rewrite Z.land_spec, test_pow2, Z.eqb_refl, E, Z.bits_0 in H.
  - apply negb_false_iff, Z.eqb_eq. apply Z.bits_inj'. intros i Hi.
    rewrite Z.land_spec, test_pow2, Z.bits_0 by done.
    destruct (i =? k) eqn:Ei; [|by rewrite andb_false_r]. apply Z.eqb_eq in Ei. by subst; rewrite E.
Qed.

Definition new_mode (p : perm_change) (m : Z) : Z :=
  match p with
  | P_writable => Z.lor m S_IWUSR
  | P_non_writable => Z.land m 0xf7f
  | P_readable => Z.lor m S_IREAD
  | P_non_readable => Z.land m (Z.lnot S_IREAD)
  | P_executable mode => executable_mode mode m
  end.

Lemma new_mode_bits p m i : 0 <= i -> Z.testbit (new_mode p m) i = bit_after p i (Z.testbit m i).
Proof.
  intros Hi. destruct p as [| | | |mode]; cbn [new_mode bit_after].
  - change S_IWUSR with (2 ^ 7). by rewrite Z.lor_spec, test_pow2.
  - change 0xf7f with (Z.ldiff (Z.ones 12) (2 ^ 7)).
    rewrite Z.land_spec, Z.ldiff_spec, Z.testbit_ones, test_pow2 by done.
    replace (0 <=? i) with true by (symmetry; by apply Z.leb_le).
    by rewrite andb_true_l, andb_assoc.
  - change S_IREAD with (2 ^ 8). by rewrite Z.lor_spec, test_pow2.
  - change S_IREAD with (2 ^ 8). by rewrite Z.land_spec, Z.lnot_spec, test_pow2.
  - unfold executable_mode.
    change S_OWNER with (2 ^ 0). change S_GROUP with (2 ^ 1). change S_OTHERS with (2 ^ 2).
    rewrite !land_pow2 by done.
    change S_IXUSR with (2 ^ 6). change S_IXGRP with (2 ^ 3). change S_IXOTH with (2 ^ 0).
    destruct (Z.testbit mode 0), (Z.testbit mode 1), (Z.testbit mode 2);
      rewrite ?Z.lor_spec, ?test_pow2 by done; rewrite ?andb_true_r, ?andb_false_r, ?orb_false_r;
      done.
Qed.

(** The permission setters change the permissions they name and nothing
    else: after a [stat] that found the file, each of them makes exactly one
    [chmod] of that file, with the mode of the [stat] in which the owner's
    write, read or the chosen execute bits are set or cleared and every other
    bit is as it was (making a file read-only also drops the bits of the file
    type); when the [stat] fails nothing is called. *)
Theorem set_modes_exact (p : perm_change) (name : list Z) (s s1 : S) (r : Z * option stat_rec) :
  px_stat name s = Done r s1 ->
  match r.2 with
  | None => run_change p name s = Done tt s1
  | Some st =>
    exists m, run_change p name s = bindM (px_chmod name m) (fun _ => retM tt) s1 /\
      forall i, 0 <= i -> Z.testbit m i = bit_after p i (Z.testbit (st_mode st) i)
  end.
Proof.
  intros Hs. pose proof (stat_law name s) as Hl. unfold wlp in Hl. rewrite Hs in Hl.
  assert (Hr : run_change p name = change_mode (new_mode p) name) by (by destruct p).
  rewrite Hr.
  assert (Hc : change_mode (new_mode p) name s =
    (if fst r =? 0 then match snd r with
       | Some st => px_chmod name (new_mode p (st_mode st));; retM tt
       | None => undefined end else retM tt) s1).
  { unfold change_mode. unfold bindM at 1. by rewrite Hs. }
  rewrite Hc.
  destruct r as [r sb], Hl as [[H0 [st H1]]|(H0 & H1 & He)]; cbn [fst snd] in *; subst r sb;
    cbn [Z.eqb]; [|done].
  exists (new_mode p (st_mode st)). split; [done|]. intros i Hi. by apply new_mode_bits.
Qed.

(** ** Time stamps *)

(** C39. [__gnat_file_time] is exact or says so: it delivers the file's
    modification time in nanoseconds since 2150 whenever the whole seconds of
    that distance and the result fit in 64 bits, which is the case for every
    time from 1857 to 2442, and the smallest [long long] otherwise, so that no
    overflow is ever delivered as a time; a missing file or a null name gives
    that value too. *)
Theorem file_time_exact (name : list Z) (s s1 : S) (r : Z * option stat_rec) :
  px_stat name s = Done r s1 ->
  gnat_file_time None s = Done LLONG_MIN s /\
  match r.2 with
  | None => gnat_file_time (Some name) s = Done LLONG_MIN s1
  | Some st =>
    let sec := fst (st_mtim st) in let nsec := snd (st_mtim st) in
    let ns := (sec - ada_epoch_offset) * 1000000000 + nsec in
    in_i64 sec -> 0 <= nsec < 1000000000 ->
    exists t, gnat_file_time (Some name) s = Done t s1 /\ in_i64 t /\
      (LLONG_MIN <= (sec - ada_epoch_offset) * 1000000000 /\ ns < 2 ^ 63 -> t = ns) /\
      (~ (LLONG_MIN <= (sec - ada_epoch_offset) * 1000000000 /\ ns < 2 ^ 63) -> t = LLONG_MIN) /\
      (ada_epoch_offset - 9223372036 <= sec < ada_epoch_offset + 9223372036 -> t = ns)
  end.
Proof.
  intros Hs. split; [done|]. pose proof (stat_law name s) as Hl. unfold wlp in Hl. rewrite Hs in Hl.
  unfold gnat_file_time, bindM. rewrite Hs.
  destruct r as [r sb], Hl as [[H0 [st H1]]|(H0 & H1 & He)]; cbn [fst snd] in *; subst r sb;
    cbn [Z.eqb negb]; [|done].
  destruct (st_mtim st) as [sec nsec]. cbn [fst snd]. intros Hsec Hnsec.
  exists (ada_time sec nsec). split; [done|]. unfold ada_time, checked, in_i64, LLONG_MIN in *.
  change ada_epoch_offset with 5680281600.
  change (2 ^ 63) with 9223372036854775808.
  repeat (match goal with |- context [if ?c then _ else _] => destruct c eqn:? end;
          cbn [mbind option_bind from_option id]);
    repeat match goal with H : _ && _ = false |- _ => apply andb_false_iff in H; destruct H end;
    bool_to_prop; lia.
Qed.

End spec.

(** ** The interface on Aegir *)

Lemma wlp_then {S A B} (c : M S A) (k : A -> M S B) Q s :
  (forall a s', wlp (k a) Q (fun _ => True) s') -> wlp (bindM c k) Q (fun _ => True) s.
Proof. intros H. apply wlp_bind. unfold wlp. destruct (c s); [apply H | done]. Qed.

#[export] Instance gloss_stat_laws {W} `{!FileServ W, !Newlib W} : StatLaws (gloss W).
Proof.
  split; [intros name s | intros fd s]; cbn [px_stat px_fstat gloss_posix].
  - unfold Gloss_Stat. do 2 (apply wlp_then; intros ? ?). apply wlp_then; intros [[st sz] d] ?.
    case_match; [left; split; by eauto|].
    apply wlp_then; intros ? ?. case_match; [left; split; by eauto | right; by repeat split].
  - unfold Gloss_Fstat. case_match; [done|]. case_match; [left; split; by eauto|].
    apply wlp_then; intros ? ?. case_match; [|right; by repeat split].
    do 2 (apply wlp_then; intros ? ?). left; split; by eauto.
Qed.

(** ** Witnesses: a text file and a directory on a small service *)

Lemma attr_cache_typed_witness :
  wlp (run_queries (bytes "Sys:a.txt") [Q_symlink; Q_length; Q_time_fd 7; Q_directory]
         gnat_reset_attributes) (fun r _ => attr_wf r.2) (fun _ => True) demo_gloss.
Proof.
  apply (attr_cache_typed (bytes "Sys:a.txt") [Q_symlink; Q_length; Q_time_fd 7; Q_directory] demo_gloss).
Defined.

Lemma attr_cache_one_stat_witness :
  exists (ans : attr_query -> Z) (a : file_attributes),
    (forall q, by_name q = true ->
       one_shot_form (bytes "Sys:a.txt") q demo_gloss =
         Done (ans q) (if needs_stat q then demo_gloss else demo_gloss)) /\
    run_queries (bytes "Sys:a.txt") [Q_regular; Q_length; Q_symlink; Q_executable]
      gnat_reset_attributes demo_gloss =
      Done (ans <$> [Q_regular; Q_length; Q_symlink; Q_executable], a) demo_gloss.
Proof.
  apply (attr_cache_one_stat (bytes "Sys:a.txt") [Q_regular; Q_length; Q_symlink; Q_executable]
    demo_gloss demo_gloss (0, Some (Fill_Stat 5 false false))).
  - vm_compute. reflexivity.
  - intros st [= <-]. vm_compute. split; congruence.
  - repeat constructor.
Defined.

Lemma set_modes_exact_witness :
  exists m, run_change P_non_writable (bytes "Sys:C") demo_gloss =
      bindM (px_chmod (bytes "Sys:C") m) (fun _ => retM tt) demo_gloss /\
    forall i, 0 <= i ->
      Z.testbit m i = bit_after P_non_writable i (Z.testbit (S_IFDIR + S_IRWXU) i).
Proof.
  apply (set_modes_exact P_non_writable (bytes "Sys:C") demo_gloss demo_gloss
    (0, Some (Fill_Stat 0 false true))). vm_compute. reflexivity.
Defined.

Lemma file_time_exact_witness :
  gnat_file_time (S := gloss toy_fs) None demo_gloss = Done LLONG_MIN demo_gloss /\
  exists t, gnat_file_time (Some (bytes "Sys:a.txt")) demo_gloss = Done t demo_gloss /\
    t = -5680281600000000000.
Proof.
  destruct (file_time_exact (bytes "Sys:a.txt") demo_gloss demo_gloss
    (0, Some (Fill_Stat 5 false false))) as [H1 H2]; [vm_compute; reflexivity|].
  split; [exact H1|]. cbn [snd] in H2.
  destruct H2 as (t & Ht & _ & _ & _ & Hr);
    [vm_compute; split; congruence | vm_compute; split; congruence |].
  exists t. split; [exact Ht|]. apply Hr. vm_compute. split; congruence.
Defined.
