(* ===== verification/Paths.v ===== *)
(** * Path names: adaint.c and cstreams.c

    Absolute names, the search of a file along a path, the working directory
    and full names.  Buffers are lists of bytes of their allocated size; an
    access outside one leaves the run without a result ([undefined]). *)
From S2P Require Import Prelude CInt CStr Gloss Posix FileAttr.

(** ** Buffers *)

Definition buf_get (b : list Z) (i : Z) : option Z :=
  if i <? 0 then None else b !! Z.to_nat i.

Definition buf_set (b : list Z) (i v : Z) : option (list Z) :=
  if (i <? 0) || (Z.of_nat (length b) <=? i) then None else Some (<[Z.to_nat i := v]> b).

(** Stores at positions [i], [i + 1], ... *)
Fixpoint buf_put (b : list Z) (i : Z) (str : list Z) : option (list Z) :=
  match str with
  | [] => Some b
  | c :: str' => b' ← buf_set b i c; buf_put b' (i + 1) str'
  end.

(** [strcpy (b + i, str)]. *)
Definition buf_strcpy (b : list Z) (i : Z) (str : list Z) : option (list Z) :=
  buf_put b i (str ++ [0]).

Definition IS_DIRECTORY_SEPARATOR (c : Z) : bool := c =? ch_slash.
Definition PATH_SEPARATOR : Z := ch_colon.
Definition DIR_SEPARATOR : Z := ch_slash.

(** ** Absolute names: a volume label or a leading slash *)

(** The loop over [index < length]; [n] rounds are left. *)
Fixpoint absolute_scan (name : list Z) (index : Z) (n : nat) : option Z :=
  match n with
  | O => Some 0
  | S n' =>
    c ← buf_get name index;
    if c =? ch_colon then Some 1
    else if c =? ch_slash then Some 0
    else absolute_scan name (index + 1) n'
  end.

(** [name] is the memory behind the pointer. *)
Definition gnat_is_absolute_path (name : list Z) (len : Z) : option Z :=
  c ← buf_get name 0;
  if c =? ch_slash then Some 1 else absolute_scan name 0 (Z.to_nat len).

(** ** The search along a path *)

(** The bytes before the next separator, and the rest from it on. *)
Fixpoint copy_dir (path_val : list Z) : list Z * list Z :=
  match path_val with
  | [] => ([], [])
  | c :: r => if c =? PATH_SEPARATOR then ([], path_val)
              else let '(d, r') := copy_dir r in (c :: d, r')
  end.

Definition skip_quote (l : list Z) : list Z :=
  match l with c :: r => if c =? ch_quote then r else l | [] => l end.

Definition strlen (str : list Z) : Z := Z.of_nat (length str).

(** A separator behind position [ptr] unless there is one, then the name. *)
Definition append_name (file_name b : list Z) (ptr : Z) : option (list Z) :=
  c ← buf_get b ptr;
  if IS_DIRECTORY_SEPARATOR c then buf_strcpy b (ptr + 1) file_name
  else b' ← buf_set b (ptr + 1) DIR_SEPARATOR; buf_strcpy b' (ptr + 2) file_name.

(** The name [file_name] below the directory [dir], in the buffer: an empty
    directory is the current one, a quote at the end is dropped. *)
Definition dir_path (file_name file_path dir : list Z) : option (list Z) :=
  b ← buf_put file_path 0 dir;
  if strlen dir =? 0 then b' ← buf_set b 0 ch_dot; append_name file_name b' 0
  else
    c ← buf_get b (strlen dir - 1);
    append_name file_name b (if c =? ch_quote then strlen dir - 2 else strlen dir - 1).

Section paths.
Context {S : Type} `{!Posix S}.
Context (garbage : Z).

(** A value, or an access outside a buffer. *)
Definition access {A} (o : option A) : M S A :=
  match o with Some a => retM a | None => undefined end.

Definition alloca (n : Z) : list Z := repeat garbage (Z.to_nat n).

(** One round of the loop over the directories: the buffer and the rest of
    the path, or the end of the search. *)
Definition try_dir (file_name : list Z) (predicate : list Z -> M S Z) (x : list Z * list Z)
    : M S ((list Z * list Z) + option (list Z)) :=
  let '(file_path, path_val) := x in
  let '(dir, rest) := copy_dir (skip_quote path_val) in
  let* b := access (dir_path file_name file_path dir) in
  let* r := predicate (cstr b) in
  if negb (r =? 0) then retM (inr (Some (cstr b)))
  else match rest with
       | [] => retM (inr None)
       | _ :: rest' => retM (inl (b, rest'))
       end.

(** Every round consumes a separator: [1 + strlen (path_val)] are enough. *)
Definition search_dirs (file_name path_val : list Z) (predicate : list Z -> M S Z)
    : M S (option (list Z)) :=
  iterM (Datatypes.S (length path_val)) (try_dir file_name predicate)
    (alloca (strlen path_val + strlen file_name + 2), path_val).

(** [path_val] is null or a string; the result is null or a copy. *)
Definition gnat_locate_file_with_predicate (file_name : list Z) (path_val : option (list Z))
    (predicate : list Z -> M S Z) : M S (option (list Z)) :=
  if strlen file_name =? 0 then retM None else
  let* fp := access (buf_strcpy (alloca (strlen file_name + 1)) 0 (skip_quote file_name)) in
  let ptr := strlen (cstr fp) - 1 in
  let* c := access (buf_get fp ptr) in
  let* fp := (if c =? ch_quote then access (buf_set fp ptr 0) else retM fp) in
  let* absolute := access (gnat_is_absolute_path fp (strlen file_name)) in
  if negb (absolute =? 0) then
    let* r := predicate (cstr fp) in
    retM (if negb (r =? 0) then Some (cstr fp) else None)
  else
    let* hit :=
      (if existsb IS_DIRECTORY_SEPARATOR file_name then
         let* r := predicate file_name in retM (negb (r =? 0))
       else retM false) in
    if hit : bool then retM (Some file_name) else
    match path_val with
    | None => retM None
    | Some p => search_dirs file_name p predicate
    end.

Definition gnat_locate_executable_file (file_name : list Z) (path_val : option (list Z)) :
    M S (option (list Z)) :=
  gnat_locate_file_with_predicate file_name path_val gnat_is_executable_file.

Definition gnat_locate_regular_file (file_name : list Z) (path_val : option (list Z)) :
    M S (option (list Z)) :=
  gnat_locate_file_with_predicate file_name path_val gnat_is_regular_file.

(** The executable suffix is empty. *)
Definition gnat_locate_exec (exec_name : list Z) (path_val : option (list Z)) :
    M S (option (list Z)) :=
  gnat_locate_executable_file exec_name path_val.

Definition gnat_locate_exec_on_path (exec_name : list Z) : M S (option (list Z)) :=
  let* path_val := getsM (px_getenv (bytes "PATH")) in
  gnat_locate_exec exec_name (Some (default [] path_val)).

(** ** The working directory and full names *)

(** The buffer of the caller and [*length], before and after. *)
Definition gnat_get_current_dir (dir : list Z) (len : Z) : M S (list Z * Z) :=
  let* result := px_getcwd len in
  match result with
  | None => retM (dir, 0)
  | Some cwd =>
    let* b := access (buf_strcpy dir 0 cwd) in
    let n := strlen (cstr b) in
    let* c := access (buf_get b (n - 1)) in
    let* '(b, n) :=
      (if c =? DIR_SEPARATOR then retM (b, n)
       else let* b := access (buf_set b n DIR_SEPARATOR) in retM (b, n + 1)) in
    let* b := access (buf_set b n 0) in
    retM (b, n)
  end.

(** The result is null or the buffer. *)
Definition gnat_full_name (max_path_len : Z) (nam buffer : list Z) : M S (bool * list Z) :=
  if bool_decide (head nam = Some ch_slash) then
    let* b := access (buf_strcpy buffer 0 nam) in retM (true, b)
  else
    let* p := px_getcwd max_path_len in
    match p with
    | None => let* b := access (buf_set buffer 0 0) in retM (false, b)
    | Some cwd =>
      let* b := access (buf_strcpy buffer 0 cwd) in
      let* c := access (buf_get b 0) in
      let* b :=
        (if c =? ch_slash then access (buf_strcpy b (strlen (cstr b)) [ch_slash]) else retM b) in
      let* b := access (buf_strcpy b (strlen (cstr b)) nam) in
      retM (true, b)
    end.

(** ** Names handed through *)

Definition gnat_os_filename (filename : list Z) : list Z * Z * Z := (filename, strlen filename, 0).
Definition gnat_get_object_suffix_ptr : Z * list Z := (strlen (bytes ".o"), bytes ".o").
Definition gnat_get_executable_suffix_ptr : Z * list Z := (strlen [], []).
Definition gnat_get_debuggable_suffix_ptr : Z * list Z := (strlen [], []).
Definition gnat_to_canonical_dir_spec (dirspec : list Z) (prefixflag : Z) : list Z := dirspec.
Definition gnat_to_canonical_file_spec (filespec : list Z) : list Z := filespec.
Definition gnat_to_canonical_path_spec (pathspec : list Z) : list Z := pathspec.
Definition gnat_to_host_dir_spec (dirspec : list Z) (prefixflag : Z) : list Z := dirspec.
Definition gnat_to_host_file_spec (filespec : list Z) : list Z := filespec.
Definition gnat_to_canonical_file_list_init (dirspec : list Z) (onlydirs : Z) : Z := 0.
Definition gnat_to_canonical_file_list_next : list Z := [].

End paths.
