(* ===== verification/PathsSpec.v ===== *)
(** * Theorems on path names

    The search along a path equals a reference search over a list of
    candidates, on every input and including the runs that leave a buffer;
    which inputs do; what the working directory and full names are, and how
    they fit the names the system resolves. *)
From S2P Require Import Prelude CInt CStr Gloss GlossLaws Posix FileAttr Paths.

(** ** Buffers *)

Lemma splice_within off b c :
  (off + length b <= length c)%nat -> length (splice off b c) = length c.
Proof. intros H. rewrite splice_length; lia. Qed.

Lemma splice_cons off x b c :
  (off < length c)%nat -> splice off (x :: b) c = splice (S off) b (<[off := x]> c).
Proof.
  intros H. unfold splice. cbn [length app].
  rewrite drop_insert_lt, (take_S_r _ _ x), take_insert_ge, <- app_assoc by
    (rewrite ?list_lookup_insert_eq; (lia || done)).
  cbn [app]. by rewrite Nat.add_succ_r.
Qed.

Lemma buf_put_ok str : forall b i,
  0 <= i -> i + Z.of_nat (length str) <= Z.of_nat (length b) ->
  buf_put b i str = Some (splice (Z.to_nat i) str b).
Proof.
  induction str as [|c str IH]; intros b i Hi Hl; cbn [buf_put length] in *.
  - by rewrite splice_nil.
  - unfold buf_set. rewrite (proj2 (Z.ltb_ge _ _)), (proj2 (Z.leb_gt _ _)) by lia.
    cbn [orb mbind option_bind]. rewrite IH by (rewrite ?length_insert; lia).
    rewrite splice_cons by lia. by rewrite Z2Nat.inj_add by lia; rewrite Nat.add_1_r.
Qed.

Lemma buf_put_over str : forall b i,
  0 <= i -> Z.of_nat (length b) < i + Z.of_nat (length str) -> str <> [] ->
  buf_put b i str = None.
Proof.
  induction str as [|c str IH]; intros b i Hi Hl Hne; [done|]. cbn [buf_put length] in *.
  unfold buf_set. destruct ((i <? 0) || (Z.of_nat (length b) <=? i)) eqn:E; [done|].
  bool_to_prop. cbn [mbind option_bind].
  destruct str as [|c' str]; [cbn in Hl; lia|].
  apply IH; [lia | rewrite length_insert; cbn [length] in *; lia | done].
Qed.

Lemma cstr_app_str l r : no_nul l -> cstr (l ++ 0 :: r) = l.
Proof. intros H. apply cstr_app_nul. by rewrite <- Forall_forall. Qed.

(** A string stored behind a prefix that is in the buffer. *)
Lemma strcpy_behind b l str :
  no_nul l -> no_nul str -> take (length l) b = l ->
  Z.of_nat (length l + length str + 1) <= Z.of_nat (length b) ->
  exists b', buf_strcpy b (Z.of_nat (length l)) str = Some b' /\
    length b' = length b /\ cstr b' = l ++ str.
Proof.
  intros Hl Hs Ht Hb. unfold buf_strcpy.
  rewrite buf_put_ok by (rewrite ?length_app; cbn [length]; lia). rewrite Nat2Z.id.
  eexists. split; [done|]. split.
  - apply splice_within. rewrite length_app. cbn [length]. lia.
  - unfold splice. rewrite Ht, <- !app_assoc, app_assoc. cbn [app].
    apply cstr_app_str, Forall_app. done.
Qed.

Lemma strcpy_over b i str :
  0 <= i -> Z.of_nat (length b) < i + Z.of_nat (length str) + 1 -> buf_strcpy b i str = None.
Proof.
  intros Hi Hb. apply buf_put_over; [done | rewrite length_app; cbn [length]; lia |].
  by destruct str.
Qed.

(** ** The reference search *)

(** The directories of a path. *)
Fixpoint split_path (p : list Z) : list (list Z) :=
  match p with
  | [] => [[]]
  | c :: r => if c =? PATH_SEPARATOR then [] :: split_path r
              else match split_path r with d :: ds => (c :: d) :: ds | [] => [[c]] end
  end.

(** A directory as it is written in a path: quotes around it do not count,
    an empty one is the current one.  A pair of quotes with nothing between
    them has no meaning. *)
Definition clean_dir (seg : list Z) : option (list Z) :=
  let d := skip_quote seg in
  if bool_decide (d = []) then Some [ch_dot] else
  let d' := if bool_decide (last d = Some ch_quote) then removelast d else d in
  if bool_decide (d' = []) then None else Some d'.

Definition with_slash (d : list Z) : list Z :=
  if bool_decide (last d = Some ch_slash) then d else d ++ [ch_slash].

(** The name tried for a directory, if it has a meaning and fits. *)
Definition candidate (room : Z) (file seg : list Z) : option (list Z) :=
  d ← clean_dir seg;
  if Z.of_nat (length (with_slash d ++ file)) + 1 <=? room then Some (with_slash d ++ file) else None.

Lemma last_lookup_Z (l : list Z) c :
  last l = Some c -> l !! (length l - 1)%nat = Some c.
Proof. rewrite last_lookup. by replace (pred (length l)) with (length l - 1)%nat by lia. Qed.

Lemma buf_get_prefix b l :
  take (length l) b = l -> l <> [] -> buf_get b (strlen l - 1) = last l.
Proof.
  intros Ht Hl. unfold buf_get, strlen.
  destruct l as [|x l] using rev_ind; [done|]. rewrite last_snoc, length_app in *. cbn [length] in *.
  rewrite (proj2 (Z.ltb_ge _ _)) by lia.
  replace (Z.to_nat _) with (length l) by lia.
  rewrite <- (lookup_take_lt b (length l + 1)) by lia. rewrite Ht.
  by rewrite lookup_app_r, Nat.sub_diag by lia.
Qed.

Lemma append_name_spec file b d :
  no_nul d -> no_nul file -> d <> [] -> take (length d) b = d -> (length d < length b)%nat ->
  match append_name file b (strlen d - 1) with
  | Some b' => length b' = length b /\ cstr b' = with_slash d ++ file /\
               Z.of_nat (length (with_slash d ++ file)) + 1 <= Z.of_nat (length b)
  | None => Z.of_nat (length b) < Z.of_nat (length (with_slash d ++ file)) + 1
  end.
Proof.
  intros Hd Hf Hne Ht Hb. unfold append_name, with_slash, IS_DIRECTORY_SEPARATOR.
  rewrite buf_get_prefix by done.
  destruct (last d) as [c|] eqn:El; [|by apply last_None in El].
  cbn [mbind option_bind]. destruct (c =? ch_slash) eqn:Ec.
  - apply Z.eqb_eq in Ec. subst c. rewrite bool_decide_eq_true_2 by done.
    replace (strlen d - 1 + 1) with (Z.of_nat (length d)) by (unfold strlen; lia).
    destruct (decide (Z.of_nat (length d + length file + 1) <= Z.of_nat (length b))).
    + destruct (strcpy_behind b d file) as (b' & E & Hl & Hc); try done.
      rewrite E, length_app. repeat split; (done || lia).
    + rewrite strcpy_over by lia. rewrite length_app. lia.
  - apply Z.eqb_neq in Ec. rewrite bool_decide_eq_false_2 by congruence.
    replace (strlen d - 1 + 1) with (Z.of_nat (length d)) by (unfold strlen; lia).
    replace (strlen d - 1 + 2) with (Z.of_nat (length (d ++ [ch_slash]))) by
      (unfold strlen; rewrite length_app; cbn [length]; lia).
    unfold buf_set. rewrite (proj2 (Z.ltb_ge _ _)), (proj2 (Z.leb_gt _ _)), Nat2Z.id by lia.
    cbn [orb mbind option_bind].
    assert (Ht' : take (length (d ++ [ch_slash])) (<[length d := DIR_SEPARATOR]> b) = d ++ [ch_slash]).
    { rewrite length_app. cbn [length]. rewrite Nat.add_1_r, (take_S_r _ _ DIR_SEPARATOR).
      - by rewrite take_insert_ge, Ht by lia.
      - by apply list_lookup_insert_eq. }
    destruct (decide (Z.of_nat (length (d ++ [ch_slash]) + length file + 1) <= Z.of_nat (length b))).
    + destruct (strcpy_behind (<[length d := DIR_SEPARATOR]> b) (d ++ [ch_slash]) file)
        as (b' & E & Hl & Hc); try done.
      { apply Forall_app. split; [done|]. by repeat constructor. }
      { by rewrite length_insert. }
      rewrite E, Hl, length_insert, length_app. repeat split; (done || lia).
    + rewrite strcpy_over by (rewrite ?length_insert; lia). rewrite length_app. lia.
Qed.

Lemma removelast_snoc {A} (l : list A) x : removelast (l ++ [x]) = l.
Proof. rewrite removelast_app by done. cbn. by rewrite app_nil_r. Qed.

Lemma skip_quote_no_nul l : no_nul l -> no_nul (skip_quote l).
Proof. unfold skip_quote. intros H. destruct l as [|c l]; [done|]. inversion H. by case_match. Qed.

Lemma skip_quote_length l : (length (skip_quote l) <= length l)%nat.
Proof. destruct l as [|c l]; [done|]. cbn [skip_quote]. destruct (c =? ch_quote); cbn [length]; lia. Qed.

(** What the buffer holds after one round is the candidate. *)
Lemma append_candidate file b d seg ptr :
  clean_dir seg = Some d -> ptr = strlen d - 1 ->
  no_nul d -> no_nul file -> d <> [] -> take (length d) b = d -> (length d < length b)%nat ->
  match append_name file b ptr with
  | Some b' => length b' = length b /\ candidate (Z.of_nat (length b)) file seg = Some (cstr b')
  | None => candidate (Z.of_nat (length b)) file seg = None
  end.
Proof.
  intros Hc -> Hd Hf Hne Ht Hb. pose proof (append_name_spec file b d Hd Hf Hne Ht Hb) as H.
  unfold candidate. rewrite Hc. cbn [mbind option_bind].
  destruct (append_name file b (strlen d - 1)) as [b'|].
  - destruct H as (Hl & Hs & Hr). split; [done|]. rewrite (proj2 (Z.leb_le _ _)) by done. by rewrite Hs.
  - by rewrite (proj2 (Z.leb_gt _ _)).
Qed.

Lemma dir_path_spec file b seg :
  no_nul seg -> no_nul file -> (length (skip_quote seg) < length b)%nat -> (2 <= length b)%nat ->
  match dir_path file b (skip_quote seg) with
  | Some b' => length b' = length b /\ candidate (Z.of_nat (length b)) file seg = Some (cstr b')
  | None => candidate (Z.of_nat (length b)) file seg = None
  end.
Proof.
  intros Hs%skip_quote_no_nul Hf Hb Hb2. unfold dir_path.
  rewrite buf_put_ok by lia. cbn [mbind option_bind]. change (Z.to_nat 0) with 0%nat.
  set (b1 := splice 0 _ b).
  assert (Hl1 : length b1 = length b) by (apply splice_within; lia).
  assert (Ht1 : take (length (skip_quote seg)) b1 = skip_quote seg).
  { unfold b1, splice. rewrite take_0, app_nil_l. apply take_app_length. }
  destruct (skip_quote seg) as [|x d] eqn:Ed using rev_ind.
  - change (strlen [] =? 0) with true. cbv iota. unfold buf_set.
    rewrite (proj2 (Z.leb_gt _ _)) by lia. cbn [Z.ltb Z.compare orb mbind option_bind].
    change (Z.to_nat 0) with 0%nat.
    rewrite <- Hl1, <- (length_insert b1 0 ch_dot).
    apply append_candidate with (d := [ch_dot]); try done.
    + unfold clean_dir. rewrite Ed. by rewrite bool_decide_eq_true_2.
    + by repeat constructor.
    + destruct b1; [cbn in *; lia | done].
    + rewrite length_insert. cbn. lia.
  - replace (strlen (d ++ [x]) =? 0) with false by
      (symmetry; apply Z.eqb_neq; unfold strlen; rewrite length_app; cbn; lia). cbv iota.
    rewrite buf_get_prefix, last_snoc by (done || by destruct d). cbn [mbind option_bind].
    rewrite <- Hl1. apply Forall_app in Hs as [Hd Hx].
    assert (Hlen : length (d ++ [x]) = S (length d)) by (rewrite length_app; cbn; lia).
    destruct (x =? ch_quote) eqn:Ex.
    + apply Z.eqb_eq in Ex. subst x. destruct (decide (d = [])) as [->|Hne].
      * unfold candidate, clean_dir. rewrite Ed. cbn [app].
        rewrite bool_decide_eq_false_2 by done. rewrite (bool_decide_eq_true_2 (last _ = _)) by done.
        by rewrite bool_decide_eq_true_2.
      * apply append_candidate with (d := d); try done.
        -- unfold clean_dir. rewrite Ed, bool_decide_eq_false_2 by (by destruct d).
           rewrite (bool_decide_eq_true_2 (last _ = _)) by apply last_snoc.
           rewrite removelast_snoc. by rewrite bool_decide_eq_false_2.
        -- unfold strlen. lia.
        -- unfold b1, splice. rewrite take_0, app_nil_l, <- app_assoc. apply take_app_length.
        -- lia.
    + apply Z.eqb_neq in Ex. apply append_candidate with (d := d ++ [x]); try done.
      * unfold clean_dir. rewrite Ed, bool_decide_eq_false_2 by (by destruct d).
        rewrite (bool_decide_eq_false_2 (last _ = _)) by (rewrite last_snoc; congruence).
        rewrite bool_decide_eq_false_2; [done | by destruct d].
      * apply Forall_app. done.
      * by destruct d.
      * lia.
Qed.

Lemma copy_dir_split p d rest :
  copy_dir p = (d, rest) ->
  p = d ++ rest /\
  split_path p = d :: match rest with [] => [] | _ :: r => split_path r end.
Proof.
  revert d rest. induction p as [|c p IH]; intros d rest; cbn [copy_dir split_path].
  - by intros [= <- <-].
  - destruct (c =? PATH_SEPARATOR); [by intros [= <- <-]|].
    destruct (copy_dir p) as [d' r'] eqn:E. intros [= <- <-].
    destruct (IH d' r' eq_refl) as [Hp Hs]. split; [cbn; by rewrite Hp at 1|]. by rewrite Hs.
Qed.

Lemma copy_dir_skip p d rest :
  copy_dir p = (d, rest) -> copy_dir (skip_quote p) = (skip_quote d, rest).
Proof.
  destruct p as [|c p]; cbn [copy_dir skip_quote]; [by intros [= <- <-]|].
  destruct (c =? ch_quote) eqn:E.
  - apply Z.eqb_eq in E. subst c. change (ch_quote =? PATH_SEPARATOR) with false. cbv iota.
    destruct (copy_dir p). intros [= <- <-]. done.
  - cbn [copy_dir]. destruct (c =? PATH_SEPARATOR) eqn:Ec; [by intros [= <- <-]|].
    destruct (copy_dir p). intros [= <- <-]. cbn [skip_quote]. by rewrite E.
Qed.

Lemma drop_repeat {A} (x : A) n m : drop n (repeat x m) = repeat x (m - n).
Proof. revert m. induction n as [|n IH]; intros [|m]; cbn; [done..|apply IH]. Qed.

(** ** Absolute names *)

(** The name has a volume label: a colon, and no slash before it. *)
Definition has_volume (l : list Z) : Prop :=
  exists v r, l = v ++ ch_colon :: r /\ ch_slash ∉ v.

Fixpoint volume_first (l : list Z) : bool :=
  match l with
  | [] => false
  | c :: r => if c =? ch_colon then true else if c =? ch_slash then false else volume_first r
  end.

Lemma volume_first_iff l : volume_first l = true <-> has_volume l.
Proof.
  induction l as [|c l IH]; cbn [volume_first].
  - split; [done|]. intros (v & r & E & _). by destruct v.
  - destruct (c =? ch_colon) eqn:Ec; [|destruct (c =? ch_slash) eqn:Es].
    + apply Z.eqb_eq in Ec. subst c. split; [|done]. intros _. exists [], l. split; [done|].
      apply not_elem_of_nil.
    + apply Z.eqb_eq in Es. subst c. split; [done|]. intros (v & r & E & Hn).
      destruct v as [|x v]; [done|]. injection E as <- _. by destruct Hn; left.
    + rewrite IH. apply Z.eqb_neq in Ec, Es. split.
      * intros (v & r & -> & Hn). exists (c :: v), r. split; [done|].
        rewrite not_elem_of_cons. done.
      * intros (v & r & E & Hn). destruct v as [|x v]; [by injection E as ->|].
        injection E as <- ->. exists v, r. split; [done|]. by apply not_elem_of_cons in Hn as [_ Hn].
Qed.

Definition absolute_name (l : list Z) : bool :=
  bool_decide (head l = Some ch_slash) || volume_first l.

(** The scan of a string with zeros behind it. *)
Lemma absolute_scan_spec l : forall pre m t k, (k <= m)%nat ->
  absolute_scan (pre ++ l ++ repeat 0 m ++ t) (Z.of_nat (length pre)) (length l + k) =
  Some (c_bool (volume_first l)).
Proof.
  induction l as [|c l IH]; intros pre m t k Hk; cbn [length Nat.add].
  - revert pre m Hk. induction k as [|k IHk]; intros pre m Hk; [done|]. cbn [absolute_scan].
    unfold buf_get. rewrite (proj2 (Z.ltb_ge _ _)), Nat2Z.id by lia.
    destruct m as [|m]; [lia|]. cbn [repeat app].
    rewrite lookup_app_r, Nat.sub_diag by lia. cbn.
    specialize (IHk (pre ++ [0]) m ltac:(lia)). rewrite length_app in IHk. cbn [length] in IHk.
    rewrite Nat2Z.inj_add, <- app_assoc in IHk. exact IHk.
  - cbn [absolute_scan volume_first]. unfold buf_get.
    rewrite (proj2 (Z.ltb_ge _ _)), Nat2Z.id by lia.
    rewrite lookup_app_r, Nat.sub_diag by lia. cbn [lookup list_lookup app mbind option_bind].
    destruct (c =? ch_colon); [done|]. destruct (c =? ch_slash); [done|].
    specialize (IH (pre ++ [c]) m t k Hk). rewrite length_app in IH. cbn [length] in IH.
    rewrite Nat2Z.inj_add, <- app_assoc in IH. exact IH.
Qed.

Lemma is_absolute_spec l m t n :
  no_nul l -> (0 < m)%nat -> (length l <= n)%nat -> (n <= length l + m)%nat ->
  gnat_is_absolute_path (l ++ repeat 0 m ++ t) (Z.of_nat n) = Some (c_bool (absolute_name l)).
Proof.
  intros Hl Hm Hn1 Hn2. unfold gnat_is_absolute_path, absolute_name.
  rewrite Nat2Z.id. pose proof (absolute_scan_spec l [] m t (n - length l) ltac:(lia)) as H.
  cbn [app length] in H. change (Z.of_nat 0) with 0 in H.
  replace (length l + (n - length l))%nat with n in H by lia. rewrite H.
  destruct l as [|c l].
  - destruct m as [|m]; [lia|]. done.
  - change (buf_get ((c :: l) ++ repeat 0 m ++ t) 0) with (Some c). cbn [mbind option_bind head].
    destruct (c =? ch_slash) eqn:E; bool_to_prop.
    + subst c. done.
    + rewrite bool_decide_eq_false_2 by congruence. done.
Qed.

(** A name is absolute for [__gnat_is_absolute_path] exactly when it
    begins with a slash or with a volume label, that is, a colon with no slash
    before it; the call reads the string and its terminator and nothing
    behind them. *)
Theorem absolute_path_iff (name rest : list Z) :
  no_nul name ->
  exists r, gnat_is_absolute_path (name ++ 0 :: rest) (strlen name) = Some r /\
    (r = 0 \/ r = 1) /\
    (r = 1 <-> head name = Some ch_slash \/ has_volume name) /\
    gnat_is_absolute_path (name ++ [0]) (strlen name) = Some r.
Proof.
  intros Hn. exists (c_bool (absolute_name name)).
  pose proof (is_absolute_spec name 1 rest (length name) Hn ltac:(lia) ltac:(lia) ltac:(lia)) as H1.
  pose proof (is_absolute_spec name 1 [] (length name) Hn ltac:(lia) ltac:(lia) ltac:(lia)) as H2.
  split; [exact H1|]. split; [destruct (absolute_name name); cbn; auto|]. split; [|exact H2].
  unfold absolute_name. rewrite <- volume_first_iff.
  destruct (bool_decide_reflect (head name = Some ch_slash)), (volume_first name); cbn;
    naive_solver.
Qed.

Section spec.
Context {S : Type} `{!Posix S}.

(** The first name of a list that the predicate accepts; the run has no
    result when it comes to a name that is missing. *)
Fixpoint first_match (predicate : list Z -> M S Z) (l : list (option (list Z)))
    : M S (option (list Z)) :=
  match l with
  | [] => retM None
  | None :: _ => undefined
  | Some c :: l' =>
    let* r := predicate c in
    if negb (r =? 0) then retM (Some c) else first_match predicate l'
  end.

Lemma search_loop file room pred : no_nul file ->
  forall n rest b s, no_nul rest -> length b = Z.to_nat room -> (2 <= length b)%nat ->
  (length rest < n)%nat -> (length rest < length b)%nat ->
  iterM n (try_dir file pred) (b, rest) s =
  first_match pred (candidate room file <$> split_path rest) s.
Proof.
  intros Hf. induction n as [|n IH]; intros rest b s Hr Hb Hb2 Hn Hlt; [lia|].
  cbn [iterM]. unfold try_dir. destruct (copy_dir rest) as [d rest'] eqn:E.
  pose proof (copy_dir_split _ _ _ E) as [Hp Hsp]. rewrite (copy_dir_skip _ _ _ E), Hsp.
  assert (Hnd : no_nul d /\ no_nul rest') by (rewrite Hp in Hr; by apply Forall_app).
  assert (Hlen : length rest = (length d + length rest')%nat) by (rewrite Hp; apply length_app).
  pose proof (skip_quote_length d) as Hsk.
  pose proof (dir_path_spec file b d (proj1 Hnd) Hf ltac:(lia) Hb2) as Hd.
  replace (Z.of_nat (length b)) with room in Hd by lia.
  cbn [fmap list_fmap]. unfold bindM at 1 2. unfold access.
  destruct (dir_path file b (skip_quote d)) as [b'|]; [|rewrite Hd; by destruct rest'].
  destruct Hd as [Hl' ->]. cbn [first_match]. unfold retM at 1. unfold bindM.
  destruct (pred (cstr b') s) as [r s'|]; [|done]. destruct (negb (r =? 0)); [done|].
  destruct rest' as [|c rest']; [done|]. cbn [length] in *.
  apply IH; [|lia..]. destruct Hnd as [_ Hn']. by inversion Hn'.
Qed.

(** The names the search tries, in order.  A name that is quoted is tried
    without its quotes only if that makes it absolute. *)
Definition search_list (file : list Z) (path : option (list Z)) : list (option (list Z)) :=
  if bool_decide (file = []) then [] else
  let f := skip_quote file in
  if bool_decide (f = []) then [None] else
  let u := if bool_decide (last f = Some ch_quote) then removelast f else f in
  if absolute_name u then [Some u] else
  (if existsb IS_DIRECTORY_SEPARATOR file then [Some file] else []) ++
  match path with
  | None => []
  | Some p => candidate (strlen p + strlen file + 2) file <$> split_path p
  end.

Lemma search_dirs_spec g file p pred s :
  no_nul file -> no_nul p -> file <> [] ->
  search_dirs g file p pred s =
  first_match pred (candidate (strlen p + strlen file + 2) file <$> split_path p) s.
Proof.
  intros Hf Hp Hne. unfold search_dirs, alloca, strlen.
  assert (0 < length file)%nat by (destruct file; [done | cbn; lia]).
  apply search_loop; rewrite ?repeat_length; (done || lia).
Qed.

(** The stripped copy of the name, in its buffer. *)
Lemma strip_quotes g (file : list Z) f :
  no_nul file -> f = skip_quote file -> f <> [] ->
  exists u t m, u = (if bool_decide (last f = Some ch_quote) then removelast f else f) /\
    no_nul u /\ (0 < m)%nat /\ (length u <= length file <= length u + m)%nat /\
    forall (A : Type) (k : list Z -> M S A) s,
    (let* fp := access (buf_strcpy (alloca g (strlen file + 1)) 0 f) in
     let ptr := strlen (cstr fp) - 1 in
     let* c := access (buf_get fp ptr) in
     let* fp := (if c =? ch_quote then access (buf_set fp ptr 0) else retM fp) in k fp) s =
    k (u ++ repeat 0 m ++ t) s.
Proof.
  intros Hn -> Hne. set (f := skip_quote file) in *.
  assert (Hf : no_nul f) by (by apply skip_quote_no_nul).
  assert (Hl : (length f <= length file <= length f + 1)%nat).
  { unfold f. destruct file as [|c l]; [done|]. cbn [skip_quote].
    destruct (c =? ch_quote); cbn [length]; lia. }
  assert (Hb : buf_strcpy (alloca g (strlen file + 1)) 0 f =
               Some (f ++ 0 :: repeat g (length file - length f))).
  { unfold buf_strcpy, alloca, strlen. rewrite buf_put_ok by
      (rewrite ?repeat_length, ?length_app; cbn [length]; lia).
    unfold splice. change (Z.to_nat 0) with 0%nat. rewrite take_0, app_nil_l, <- app_assoc.
    cbn [app]. do 3 f_equal. rewrite drop_repeat, length_app. cbn [length]. f_equal. lia. }
  destruct f as [|x f'] eqn:Ef using rev_ind; [done|]. clear IHf'. rewrite last_snoc.
  assert (Hx : buf_get ((f' ++ [x]) ++ 0 :: repeat g (length file - length (f' ++ [x])))
                 (strlen (f' ++ [x]) - 1) = Some x).
  { rewrite buf_get_prefix; [apply last_snoc | apply take_app_length | intros E].
    by apply app_nil in E as [_ ?]. }
  assert (Hf' : no_nul f') by (by apply Forall_app in Hf as [? _]).
  assert (Hlen : length (f' ++ [x]) = (length f' + 1)%nat) by (rewrite length_app; cbn; lia).
  destruct (bool_decide_reflect (Some x = Some ch_quote)) as [Hq|Hq].
  - injection Hq as ->. exists f', (repeat g (length file - length (f' ++ [ch_quote]))), 2%nat.
    rewrite removelast_snoc. split; [done|]. split; [done|]. split; [lia|]. split; [lia|].
    intros A k s. rewrite Hb. unfold access at 1, retM at 1, bindM. rewrite cstr_app_str by done.
    rewrite Hx. unfold access at 1, retM at 1. rewrite Z.eqb_refl.
    assert (Hs : buf_set ((f' ++ [ch_quote]) ++ 0 :: repeat g (length file - length (f' ++ [ch_quote])))
                   (strlen (f' ++ [ch_quote]) - 1) 0 =
                 Some (f' ++ repeat 0 2 ++ repeat g (length file - length (f' ++ [ch_quote])))).
    { unfold buf_set, strlen. rewrite (proj2 (Z.ltb_ge _ _)), (proj2 (Z.leb_gt _ _)) by
        (rewrite ?length_app; cbn [length]; lia). cbn [orb]. f_equal.
      replace (Z.to_nat _) with (length f' + 0)%nat by lia.
      rewrite <- app_assoc, insert_app_r. done. }
    by rewrite Hs.
  - exists (f' ++ [x]), (repeat g (length file - length (f' ++ [x]))), 1%nat.
    split; [done|]. split; [done|]. split; [lia|]. split; [lia|].
    intros A k s. rewrite Hb. unfold access at 1, retM at 1, bindM. rewrite cstr_app_str by done.
    rewrite Hx. unfold access at 1, retM at 1.
    rewrite (proj2 (Z.eqb_neq x ch_quote)) by congruence. done.
Qed.

Lemma locate_spec g file path (pred : list Z -> M S Z) s :
  no_nul file -> (forall p, path = Some p -> no_nul p) ->
  gnat_locate_file_with_predicate g file path pred s = first_match pred (search_list file path) s.
Proof.
  intros Hf Hp. unfold gnat_locate_file_with_predicate, search_list.
  destruct (decide (file = [])) as [->|Hne]; [done|].
  rewrite (bool_decide_eq_false_2 (file = [])) by done.
  replace (strlen file =? 0) with false by
    (symmetry; apply Z.eqb_neq; unfold strlen; destruct file; [done|cbn [length]; lia]).
  destruct (decide (skip_quote file = [])) as [E|E].
  { rewrite E, bool_decide_eq_true_2 by done.
    assert (file = [ch_quote]) as ->.
    { destruct file as [|c [|]]; cbn in E; repeat case_match; bool_to_prop; naive_solver. }
    done. }
  rewrite bool_decide_eq_false_2 by done.
  destruct (strip_quotes g file _ Hf eq_refl E) as (u & t & m & Hu & Hn & Hm & Hl & Hk).
  rewrite Hk, <- Hu. clear Hk. unfold strlen at 1.
  rewrite (is_absolute_spec u m t (length file)) by (done || lia).
  unfold access at 1. unfold bindM at 1, retM at 1.
  destruct (absolute_name u); cbn [c_bool Z.eqb negb].
  - destruct m as [|m]; [lia|]. cbn [repeat app]. rewrite cstr_app_str by done.
    cbn [first_match]. unfold bindM. by destruct (pred u s) as [r s'|]; [destruct (negb (r =? 0))|].
  - assert (Hd : forall s, match path with
      | None => retM None | Some p => search_dirs g file p pred end s =
      first_match pred match path with
        | None => []
        | Some p => candidate (strlen p + strlen file + 2) file <$> split_path p end s).
    { intros s'. destruct path as [p|]; [|done]. apply search_dirs_spec; auto. }
    destruct (existsb IS_DIRECTORY_SEPARATOR file); [|apply Hd].
    cbn [app first_match]. unfold bindM. destruct (pred file s) as [r s'|]; [|done].
    unfold retM at 1. destruct (negb (r =? 0)); [done | apply Hd].
Qed.

(** C27. [__gnat_locate_file_with_predicate] is a search for the first
    match: for every name, path and predicate it does what the reference
    search does over the list of names to try, in the same order of calls and
    with the same effects: an absolute name (quotes removed) is tried alone,
    another name is tried as it is if it has a directory, and then below each
    directory of the path from left to right, where quotes around a directory
    are dropped and an empty directory is the current one.  It also leaves its
    buffers exactly where the reference says a name is missing. *)
Theorem locate_first_match (g : Z) (file : list Z) (path : option (list Z))
    (pred : list Z -> M S Z) (s : S) :
  no_nul file -> (forall p, path = Some p -> no_nul p) ->
  gnat_locate_file_with_predicate g file path pred s = first_match pred (search_list file path) s.
Proof. apply locate_spec. Qed.

(** ** When the search stays in its buffers *)

Lemma split_path_length p d : d ∈ split_path p -> (length d <= length p)%nat.
Proof.
  revert d. induction p as [|c p IH]; intros d; cbn [split_path].
  - intros ->%list_elem_of_singleton. done.
  - destruct (c =? PATH_SEPARATOR).
    + intros [->|H]%elem_of_cons; [cbn; lia|]. apply IH in H. cbn. lia.
    + destruct (split_path p) as [|d' ds] eqn:E.
      * intros ->%list_elem_of_singleton. cbn. lia.
      * intros [->|H]%elem_of_cons; cbn [length].
        -- specialize (IH d' ltac:(by left)). lia.
        -- specialize (IH d ltac:(by right)). lia.
Qed.

Lemma clean_dir_missing seg : clean_dir seg = None <-> seg = [ch_quote; ch_quote].
Proof.
  unfold clean_dir. split; [|by intros ->].
  destruct seg as [|c d]; [done|]. cbn [skip_quote].
  assert (Hs : forall e : list Z, e <> [] ->
    (if bool_decide (e = []) then Some [ch_dot]
     else if bool_decide ((if bool_decide (last e = Some ch_quote) then removelast e else e) = [])
          then None
          else Some (if bool_decide (last e = Some ch_quote) then removelast e else e)) = None ->
    e = [ch_quote]).
  { intros e He. rewrite bool_decide_eq_false_2 by done.
    induction e as [|x e' _] using rev_ind; [done|]. rewrite last_snoc, removelast_snoc.
    destruct (bool_decide_reflect (Some x = Some ch_quote)) as [Hx|Hx].
    - injection Hx as ->. destruct (decide (e' = [])) as [->|Hn]; [done|].
      by rewrite bool_decide_eq_false_2.
    - by rewrite bool_decide_eq_false_2. }
  destruct (c =? ch_quote) eqn:E.
  - apply Z.eqb_eq in E. subst c. destruct d as [|x d]; [done|].
    intros H. apply Hs in H; [|done]. by rewrite H.
  - intros H. apply Hs in H; [|done]. injection H as -> ->. done.
Qed.

Lemma clean_dir_length seg d : clean_dir seg = Some d -> (length d <= Nat.max 1 (length seg))%nat.
Proof.
  unfold clean_dir. pose proof (skip_quote_length seg) as Hl.
  destruct (skip_quote seg) as [|x d'] eqn:E using rev_ind.
  - rewrite bool_decide_eq_true_2 by done. intros [= <-]. cbn. lia.
  - rewrite bool_decide_eq_false_2 by (by destruct d'). rewrite removelast_snoc.
    rewrite length_app in Hl. cbn in Hl.
    intros H. assert (Hd : d = d' \/ d = d' ++ [x]) by (repeat case_bool_decide; naive_solver).
    destruct Hd as [-> | ->]; rewrite ?length_app; cbn; lia.
Qed.

Lemma with_slash_length d : (length (with_slash d) <= length d + 1)%nat.
Proof. unfold with_slash. case_bool_decide; rewrite ?length_app; cbn; lia. Qed.

Lemma candidate_missing p file seg : seg ∈ split_path p -> p <> [] ->
  candidate (strlen p + strlen file + 2) file seg = None <-> seg = [ch_quote; ch_quote].
Proof.
  intros Hin Hp. rewrite <- clean_dir_missing. unfold candidate, strlen.
  destruct (clean_dir seg) as [d|] eqn:E; [|done]. cbn [mbind option_bind].
  apply clean_dir_length in E. apply split_path_length in Hin.
  pose proof (with_slash_length d). assert (0 < length p)%nat by (destruct p; [done|cbn; lia]).
  rewrite (proj2 (Z.leb_le _ _)) by (rewrite length_app; lia). done.
Qed.

(** A search in which no name matches comes to every name of the list. *)
Lemma first_match_rejects (pred : list Z -> M S Z) l s :
  (forall c s, pred c s = Done 0 s) ->
  (exists r s', first_match pred l s = Done r s') <-> Forall is_Some l.
Proof.
  intros Hp. induction l as [|[c|] l IH]; cbn [first_match].
  - split; [constructor | by eexists _, _].
  - unfold bindM. rewrite Hp. cbn [Z.eqb negb]. rewrite IH. split; [constructor; eauto|].
    by inversion 1.
  - split; [by intros (? & ? & ?)|]. inversion 1 as [|? ? [? ?]]. done.
Qed.

(** C28. The search stays inside its two buffers in every case but three: the
    name is a single quote, a directory of the path is an empty pair of
    quotes, or the path is the empty string and the name is not absolute.  (In
    those cases, and when no earlier name matches, it reads the byte before a
    buffer or writes the byte behind the end of one; the predicate here
    rejects every name, so that the search runs to its end.) *)
Theorem locate_in_bounds (g : Z) (file p : list Z) (pred : list Z -> M S Z) (s : S) :
  no_nul file -> no_nul p -> file <> [] -> (forall c s, pred c s = Done 0 s) ->
  (exists r s', gnat_locate_file_with_predicate g file (Some p) pred s = Done r s') <->
  file <> [ch_quote] /\
  (absolute_name (let f := skip_quote file in
                  if bool_decide (last f = Some ch_quote) then removelast f else f) = true \/
   p <> [] /\ [ch_quote; ch_quote] ∉ split_path p).
Proof.
  intros Hf Hp Hne Hpred. rewrite locate_spec by (done || congruence).
  rewrite first_match_rejects by done. unfold search_list. cbv zeta.
  rewrite (bool_decide_eq_false_2 (file = [])) by done.
  assert (Hq : skip_quote file = [] <-> file = [ch_quote]).
  { split; [|by intros ->]. destruct file as [|c [|]]; cbn; repeat case_match; bool_to_prop; naive_solver. }
  destruct (decide (skip_quote file = [])) as [E|E].
  { rewrite bool_decide_eq_true_2 by done. split; [by inversion 1 as [|? ? [? ?]]|].
    intros [H _]. by apply Hq in E. }
  rewrite (bool_decide_eq_false_2 (skip_quote file = [])) by done.
  destruct (absolute_name _).
  { split; [split; [by rewrite <- Hq | by left] | by repeat constructor; eauto]. }
  assert (Hc : Forall is_Some (candidate (strlen p + strlen file + 2) file <$> split_path p) <->
               p <> [] /\ [ch_quote; ch_quote] ∉ split_path p).
  { rewrite Forall_fmap, Forall_forall. destruct (decide (p = [])) as [->|Hpn].
    - split; [|by intros [? _]]. intros H. exfalso. specialize (H [] ltac:(by left)). revert H.
      unfold compose, candidate. change (clean_dir []) with (Some [ch_dot]).
      cbn [mbind option_bind]. change (with_slash [ch_dot]) with [ch_dot; ch_slash].
      rewrite (proj2 (Z.leb_gt _ _)); [by intros [? ?]|]. unfold strlen. cbn [app length]. lia.
    - split.
      + intros H. split; [done|]. intros Hin. specialize (H _ Hin). unfold compose in H.
        rewrite (proj2 (candidate_missing p file _ Hin Hpn)) in H by done. by destruct H.
      + intros [_ Hn] x Hx. unfold compose. apply not_eq_None_Some. intros Hc.
        apply candidate_missing in Hc; [|done..]. by subst. }
  rewrite Forall_app, Hc, <- Hq. split; [naive_solver|]. intros [_ [?|?]]; [done|].
  split; [destruct (existsb _ file); by repeat constructor; eauto | done].
Qed.

(** A name without directory, volume or quotes. *)
Definition plain_name (file : list Z) : Prop :=
  file <> [] /\ no_nul file /\ ch_slash ∉ file /\ ch_colon ∉ file /\ ch_quote ∉ file.

Lemma plain_search file path : plain_name file ->
  search_list file path =
  match path with
  | None => []
  | Some p => candidate (strlen p + strlen file + 2) file <$> split_path p
  end.
Proof.
  intros (Hne & _ & Hs & Hc & Hq). unfold search_list.
  rewrite (bool_decide_eq_false_2 (file = [])) by done.
  assert (Hk : skip_quote file = file).
  { destruct file as [|c l]; [done|]. cbn [skip_quote].
    rewrite (proj2 (Z.eqb_neq c ch_quote)); [done|]. intros ->. by destruct Hq; left. }
  rewrite Hk, (bool_decide_eq_false_2 (file = [])) by done.
  rewrite (bool_decide_eq_false_2 (last file = _)).
  2: { rewrite last_Some. intros [l' E]. destruct Hq. rewrite E.
       apply elem_of_app. right. by left. }
  replace (absolute_name file) with false; [|symmetry; unfold absolute_name].
  - assert (He : existsb IS_DIRECTORY_SEPARATOR file = false).
    { apply not_true_iff_false. rewrite existsb_exists. intros (c & Hin & E).
      unfold IS_DIRECTORY_SEPARATOR in E. apply Z.eqb_eq in E. subst c.
      apply Hs. by apply list_elem_of_In. }
    by rewrite He.
  - apply orb_false_iff. split.
    + apply bool_decide_eq_false_2. intros E. destruct file as [|c l]; [done|].
      injection E as ->. by destruct Hs; left.
    + apply not_true_iff_false. rewrite volume_first_iff. intros (v & r & E & _).
      destruct Hc. rewrite E. apply elem_of_app. right. by left.
Qed.

(** Without a [PATH] variable, [__gnat_locate_exec_on_path] writes behind
    the end of its buffer for every plain command name: the buffer has room
    for two bytes more than the name, and ["./"], the name and the terminator
    are three more.  The variables of this system are files, so newlib's
    [getenv] finds no [PATH]. *)
Theorem exec_on_path_overflows (g : Z) (name : list Z) (s : S) :
  px_getenv (bytes "PATH") s = None -> plain_name name ->
  gnat_locate_exec_on_path g name s = Blocked s.
Proof.
  intros Hp Hn. unfold gnat_locate_exec_on_path, bindM, getsM. rewrite Hp.
  unfold gnat_locate_exec, gnat_locate_executable_file. destruct (Hn) as (Hne & Hnn & _).
  rewrite locate_spec, plain_search by (done || by intros p [= <-]; constructor).
  cbn [default split_path fmap list_fmap]. unfold candidate. change (clean_dir []) with (Some [ch_dot]).
  cbn [mbind option_bind]. change (with_slash [ch_dot]) with [ch_dot; ch_slash].
  rewrite (proj2 (Z.leb_gt _ _)); [done|]. unfold strlen. cbn [app length]. lia.
Qed.

Lemma split_path_no_sep p d : d ∈ split_path p -> ch_colon ∉ d.
Proof.
  revert d. induction p as [|c p IH]; intros d; cbn [split_path].
  - intros ->%list_elem_of_singleton. apply not_elem_of_nil.
  - destruct (c =? PATH_SEPARATOR) eqn:E.
    + intros [->|H]%elem_of_cons; [apply not_elem_of_nil|]. by apply IH.
    + apply Z.eqb_neq in E. destruct (split_path p) as [|d' ds] eqn:Es.
      * intros ->%list_elem_of_singleton. by intros ?%list_elem_of_singleton.
      * intros [->|H]%elem_of_cons; [|apply IH; by right].
        rewrite not_elem_of_cons. split; [done|]. apply IH. by left.
Qed.

Lemma clean_dir_incl seg d c : clean_dir seg = Some d -> c ∈ d -> c ∈ seg \/ c = ch_dot.
Proof.
  unfold clean_dir. intros H Hc.
  assert (Hk : forall x, x ∈ skip_quote seg -> x ∈ seg).
  { intros x. destruct seg as [|y seg]; [done|]. cbn [skip_quote].
    destruct (y =? ch_quote); [intros ?; by right|done]. }
  destruct (skip_quote seg) as [|x d'] eqn:E using rev_ind.
  - injection H as <-. apply list_elem_of_singleton in Hc. by right.
  - left. apply Hk. clear Hk. rewrite bool_decide_eq_false_2 in H by (by destruct d').
    rewrite removelast_snoc in H. apply elem_of_app.
    assert (Hd : d = d' \/ d = d' ++ [x]) by (repeat case_bool_decide; naive_solver).
    destruct Hd as [-> | ->]; [by left | by apply elem_of_app in Hc].
Qed.

Lemma candidate_no_volume room file p c :
  Some c ∈ (candidate room file <$> split_path p) -> exists d, c = d ++ file /\ ch_colon ∉ d.
Proof.
  intros (seg & Hc & Hin)%list_elem_of_fmap. unfold candidate in Hc.
  destruct (clean_dir seg) as [d|] eqn:E; [|done]. cbn [mbind option_bind] in Hc.
  case_match; [|done]. injection Hc as ->. exists (with_slash d). split; [done|].
  assert (Hd : ch_colon ∉ d).
  { intros Hx. destruct (clean_dir_incl _ _ _ E Hx) as [Hs|]; [|done].
    by apply split_path_no_sep in Hin. }
  unfold with_slash. case_bool_decide; [done|]. rewrite elem_of_app, list_elem_of_singleton. naive_solver.
Qed.

Lemma first_match_in (pred : list Z -> M S Z) l s c s' :
  first_match pred l s = Done (Some c) s' -> Some c ∈ l.
Proof.
  revert s. induction l as [|[x|] l IH]; intros s; cbn [first_match]; [done| |done].
  unfold bindM. destruct (pred x s) as [r s1|]; [|done]. destruct (negb (r =? 0)).
  - intros [= <- <-]. by left.
  - intros H. right. by eapply IH.
Qed.

(** The search cannot use a path of this system: its directories begin
    with a volume ("Sys:C"), but a colon separates the directories of a path
    for [__gnat_locate_file_with_predicate], so that no directory it searches
    for a plain name contains one. *)
Theorem path_volumes_lost (g : Z) (name p : list Z) (pred : list Z -> M S Z) (s : S) :
  plain_name name -> no_nul p ->
  wlp (gnat_locate_file_with_predicate g name (Some p) pred)
    (fun r _ => forall c, r = Some c -> exists d, c = d ++ name /\ ch_colon ∉ d) (fun _ => True) s.
Proof.
  intros Hn Hp. unfold wlp. rewrite locate_spec, plain_search by (done || apply Hn || congruence).
  destruct (first_match _ _ s) as [r s'|] eqn:E; [|done]. intros c ->.
  apply first_match_in in E. by eapply candidate_no_volume.
Qed.

(** ** The working directory *)

(** The end of [__gnat_get_current_dir]: the slash, unless there is one, and
    the terminator. *)
Definition end_slash (cwd b : list Z) (c : Z) : M S (list Z * Z) :=
  bindM (if c =? ch_slash then retM (b, strlen cwd)
         else let* b' := access (buf_set b (strlen cwd) ch_slash) in retM (b', strlen cwd + 1))
    (fun x => match x with (b', n) => let* b'' := access (buf_set b' n 0) in retM (b'', n) end).

Lemma end_slash_spec cwd b c s1 :
  last cwd = Some c -> no_nul cwd -> take (length cwd) b = cwd -> (length cwd < length b)%nat ->
  if Z.of_nat (length (with_slash cwd)) + 1 <=? Z.of_nat (length b) then
    exists b', end_slash cwd b c s1 = Done (b', strlen (with_slash cwd)) s1 /\
      length b' = length b /\ cstr b' = with_slash cwd
  else end_slash cwd b c s1 = Blocked s1.
Proof.
  intros El Hn Ht Hl. unfold end_slash, with_slash. rewrite El.
  assert (Hset : forall x, buf_set b (strlen cwd) x = Some (<[length cwd := x]> b)).
  { intros x. unfold buf_set, strlen.
    by rewrite (proj2 (Z.ltb_ge _ _)), (proj2 (Z.leb_gt _ _)), Nat2Z.id by lia. }
  destruct (c =? ch_slash) eqn:Ec.
  - apply Z.eqb_eq in Ec. subst c. rewrite bool_decide_eq_true_2 by done.
    rewrite (proj2 (Z.leb_le _ _)) by lia.
    exists (<[length cwd := 0]> b). split; [|rewrite length_insert; split; [done|]].
    + unfold bindM, retM. by rewrite Hset.
    + rewrite insert_take_drop by lia. rewrite Ht. by apply cstr_app_str.
  - apply Z.eqb_neq in Ec. rewrite bool_decide_eq_false_2 by congruence.
    set (b1 := <[length cwd := ch_slash]> b).
    assert (Hb1 : length b1 = length b) by (unfold b1; by rewrite length_insert).
    rewrite (bindM_done _ _ s1 (b1, strlen cwd + 1) s1) by (unfold bindM; by rewrite Hset).
    rewrite length_app. cbn [length].
    destruct (Z.of_nat (length cwd + 1) + 1 <=? Z.of_nat (length b)) eqn:Eb; bool_to_prop.
    + exists (<[(length cwd + 1)%nat := 0]> b1). split; [|rewrite length_insert; split; [done|]].
      * unfold buf_set, strlen. rewrite (proj2 (Z.ltb_ge _ _)), (proj2 (Z.leb_gt _ _)) by lia.
        rewrite length_app, Nat2Z.inj_add. cbn [length].
        by replace (Z.to_nat (Z.of_nat (length cwd) + 1)) with (length cwd + 1)%nat by lia.
      * rewrite insert_take_drop, Nat.add_1_r, (take_S_r _ _ ch_slash) by
          (rewrite ?Hb1; unfold b1; (apply list_lookup_insert_eq || idtac); lia).
        unfold b1. rewrite take_insert_ge, Ht by lia. apply cstr_app_str. apply Forall_app.
        split; [done | by repeat constructor].
    + unfold buf_set, strlen. by rewrite (proj2 (Z.ltb_ge _ _)), (proj2 (Z.leb_le _ _)) by lia.
Qed.

(** [__gnat_get_current_dir] delivers the working directory with a slash
    at its end, its length, and a terminator, in a buffer that has room for
    them; it writes behind a buffer that has not (the room announced to
    [getcwd] does not count the slash); without a working directory the length
    is 0. *)
Theorem current_dir_spec (dir : list Z) (len : Z) (s s1 : S) (r : option (list Z)) :
  px_getcwd len s = Done r s1 ->
  (forall cwd, r = Some cwd -> no_nul cwd /\ cwd <> [] /\ Z.of_nat (length cwd) + 1 <= len) ->
  len <= Z.of_nat (length dir) ->
  match r with
  | None => gnat_get_current_dir dir len s = Done (dir, 0) s1
  | Some cwd =>
    if Z.of_nat (length (with_slash cwd)) + 1 <=? Z.of_nat (length dir) then
      exists b, gnat_get_current_dir dir len s = Done (b, strlen (with_slash cwd)) s1 /\
        length b = length dir /\ cstr b = with_slash cwd
    else gnat_get_current_dir dir len s = Blocked s1
  end.
Proof.
  intros Hs Hr Hlen.
  destruct r as [cwd|];
    [|unfold gnat_get_current_dir; by rewrite (bindM_done _ _ _ _ _ Hs)].
  destruct (Hr cwd eq_refl) as (Hn & Hne & Hl).
  destruct (strcpy_behind dir [] cwd) as (b & E & Hbl & Hbc); [constructor|done|done|cbn; lia|].
  change (Z.of_nat (length [])) with 0 in E. cbn [app] in Hbc.
  assert (Ht : take (length cwd) b = cwd).
  { unfold buf_strcpy in E. rewrite buf_put_ok in E by (rewrite ?length_app; cbn [length]; lia).
    injection E as <-. unfold splice. change (Z.to_nat 0) with 0%nat.
    rewrite take_0, app_nil_l, <- app_assoc. apply take_app_length. }
  destruct (last cwd) as [c|] eqn:El; [|by apply last_None in El].
  assert (Hrun : gnat_get_current_dir dir len s = end_slash cwd b c s1).
  { unfold gnat_get_current_dir. rewrite (bindM_done _ _ _ _ _ Hs).
    rewrite (bindM_done _ _ s1 b s1) by (by rewrite E). rewrite Hbc.
    rewrite (bindM_done _ _ s1 c s1); [done|]. by rewrite buf_get_prefix, El. }
  rewrite Hrun, <- Hbl. apply end_slash_spec; [done|done|done|lia].
Qed.

End spec.

(** ** Full names on this system *)

Section aegir.
Context {W : Type} `{!FileServ W, !Newlib W}.

Lemma has_colon_iff p : has_colon p = true <-> ch_colon ∈ p.
Proof.
  unfold has_colon. rewrite existsb_exists. split.
  - intros (c & Hin & E). apply Z.eqb_eq in E. subst c. by apply list_elem_of_In.
  - intros H. exists ch_colon. split; [by apply list_elem_of_In | by apply Z.eqb_refl].
Qed.

(** [__gnat_full_name] of a relative name is the working directory
    followed by the name with nothing between them.  That is the name the
    system opens for it exactly when the working directory is the root of a
    volume and the name has no volume of its own: in any other directory, and
    for a name with a volume, the full name is the name of another file. *)
Theorem full_name_vs_open (max_path_len : Z) (nam buffer cwd : list Z) (s s1 : gloss W) :
  g_bound s = true -> Get_CWD s = Done cwd s1 ->
  no_nul cwd -> cwd <> [] -> head cwd <> Some ch_slash -> Z.of_nat (length cwd) < max_path_len ->
  no_nul nam -> nam <> [] -> head nam <> Some ch_slash ->
  (length cwd + length nam < length buffer)%nat ->
  exists b q s2, gnat_full_name max_path_len nam buffer s = Done (true, b) s1 /\
    Qualify nam s = Done q s2 /\ cstr b = cwd ++ nam /\
    (cstr b = q <-> last cwd = Some ch_colon /\ ch_colon ∉ nam).
Proof.
  intros Hb Hc Hcn Hce Hcs Hmax Hnn Hne Hns Hbuf.
  destruct (strcpy_behind buffer [] cwd) as (b1 & E1 & Hl1 & Hc1); [constructor|done|done|cbn; lia|].
  change (Z.of_nat (length [])) with 0 in E1. cbn [app] in Hc1.
  assert (Ht1 : take (length cwd) b1 = cwd).
  { unfold buf_strcpy in E1. rewrite buf_put_ok in E1 by (rewrite ?length_app; cbn [length]; lia).
    injection E1 as <-. unfold splice. change (Z.to_nat 0) with 0%nat.
    rewrite take_0, app_nil_l, <- app_assoc. apply take_app_length. }
  destruct (strcpy_behind b1 cwd nam) as (b & E & Hl & Hbc); [done|done|done|lia|].
  assert (Hcwd : px_getcwd max_path_len s = Done (Some cwd) s1).
  { cbn [px_getcwd gloss_posix]. unfold Gloss_Getcwd.
    assert (He : Ensure_Bound s = Done tt s).
    { unfold Ensure_Bound, modifyM. rewrite Hb. by destruct s. }
    rewrite (bindM_done _ _ _ _ _ He), (bindM_done _ _ _ _ _ Hc).
    by rewrite (proj2 (Z.ltb_ge _ _)) by lia. }
  destruct cwd as [|c0 cwd0] eqn:Ecwd; [done|]. rewrite <- Ecwd in *.
  assert (Hfull : gnat_full_name max_path_len nam buffer s = Done (true, b) s1).
  { unfold gnat_full_name. rewrite bool_decide_eq_false_2 by done.
    rewrite (bindM_done _ _ _ _ _ Hcwd). rewrite (bindM_done _ _ s1 b1 s1) by (by rewrite E1).
    rewrite (bindM_done _ _ s1 c0 s1).
    - rewrite (proj2 (Z.eqb_neq c0 ch_slash)) by (intros ->; by rewrite Ecwd in Hcs).
      rewrite (bindM_done _ _ s1 b1 s1), (bindM_done _ _ s1 b s1) by
        (unfold strlen; rewrite ?Hc1, ?E; done). done.
    - unfold buf_get. cbn [Z.ltb Z.compare]. change (Z.to_nat 0) with 0%nat.
      rewrite <- (lookup_take_lt b1 (length cwd)) by (rewrite Ecwd; cbn; lia).
      by rewrite Ht1, Ecwd. }
  assert (Hq : exists s2, Qualify nam s =
    Done (if has_colon nam then nam else below cwd nam) s2).
  { unfold Qualify. destruct (has_colon nam); [by eexists|].
    rewrite (bindM_done _ _ _ _ _ Hc). by eexists. }
  destruct Hq as [s2 Hq]. exists b, (if has_colon nam then nam else below cwd nam), s2.
  split; [done|]. split; [done|]. split; [done|]. rewrite Hbc, <- has_colon_iff.
  destruct (has_colon nam).
  - split; [|by intros [_ ?]]. intros H. apply (f_equal length) in H.
    rewrite length_app, Ecwd in H. cbn in H. lia.
  - unfold below. case_bool_decide as Hlast; [by split|]. split; [|by intros [? _]].
    intros H%app_inv_head. apply (f_equal length) in H. cbn in H. lia.
Qed.

End aegir.

(** ** Witnesses *)

Definition reject_all (c : list Z) : M (gloss toy_fs) Z := retM 0.

Lemma absolute_path_iff_witness :
  exists r, gnat_is_absolute_path (bytes "BD0:System" ++ 0 :: bytes "/x") 10 = Some r /\
    (r = 0 \/ r = 1) /\
    (r = 1 <-> head (bytes "BD0:System") = Some ch_slash \/ has_volume (bytes "BD0:System")) /\
    gnat_is_absolute_path (bytes "BD0:System" ++ [0]) 10 = Some r.
Proof.
  apply (absolute_path_iff (bytes "BD0:System") (bytes "/x")). apply (bool_decide_unpack _).
  vm_compute. exact I.
Defined.

Ltac no_nul_compute := apply (bool_decide_unpack _); vm_compute; exact I.

Lemma locate_first_match_witness :
  gnat_locate_file_with_predicate 170 (bytes "Dir") (Some (bytes "Sys:'C':x"))
    (gnat_is_regular_file (S := gloss toy_fs)) demo_gloss =
  first_match gnat_is_regular_file
    (search_list (bytes "Dir") (Some (bytes "Sys:'C':x"))) demo_gloss.
Proof.
  apply (locate_first_match 170 (bytes "Dir") (Some (bytes "Sys:'C':x")) gnat_is_regular_file
    demo_gloss); [no_nul_compute | intros p [= <-]; no_nul_compute].
Defined.

Lemma locate_in_bounds_witness :
  (exists r s', gnat_locate_file_with_predicate 170 (bytes "Dir") (Some []) reject_all demo_gloss
     = Done r s') <->
  bytes "Dir" <> [ch_quote] /\
  (absolute_name (bytes "Dir") = true \/
   ([] : list Z) <> [] /\ [ch_quote; ch_quote] ∉ split_path []).
Proof.
  apply (locate_in_bounds 170 (bytes "Dir") [] reject_all demo_gloss);
    [no_nul_compute | no_nul_compute | discriminate | reflexivity].
Defined.

Lemma plain_dir : plain_name (bytes "Dir").
Proof. repeat split; no_nul_compute || discriminate. Qed.

Lemma exec_on_path_overflows_witness :
  gnat_locate_exec_on_path (S := gloss toy_fs) 170 (bytes "Dir") demo_gloss = Blocked demo_gloss.
Proof. apply (exec_on_path_overflows 170 (bytes "Dir") demo_gloss); [reflexivity | apply plain_dir]. Defined.

Lemma path_volumes_lost_witness :
  wlp (gnat_locate_file_with_predicate 170 (bytes "Dir") (Some (bytes "Sys:C:x")) reject_all)
    (fun r _ => forall c, r = Some c -> exists d, c = d ++ bytes "Dir" /\ ch_colon ∉ d)
    (fun _ => True) demo_gloss.
Proof.
  apply (path_volumes_lost 170 (bytes "Dir") (bytes "Sys:C:x") reject_all demo_gloss);
    [apply plain_dir | no_nul_compute].
Defined.

Lemma current_dir_spec_witness :
  exists b, gnat_get_current_dir (S := gloss toy_fs) (repeat 170 8) 7 demo_gloss =
      Done (b, 6) demo_gloss /\
    length b = 8%nat /\ cstr b = bytes "Sys:C/".
Proof.
  apply (current_dir_spec (repeat 170 8) 7 demo_gloss demo_gloss (Some (bytes "Sys:C"))).
  - vm_compute. reflexivity.
  - intros cwd [= <-]. split; [no_nul_compute|]. split; [discriminate | vm_compute; discriminate].
  - vm_compute. discriminate.
Defined.

(** In [Sys:C], the full name of [Dir] is [Sys:CDir]. *)
Lemma full_name_vs_open_witness :
  exists b q s2, gnat_full_name (S := gloss toy_fs) 1024 (bytes "Dir") (repeat 170 20) demo_gloss =
      Done (true, b) demo_gloss /\
    Qualify (bytes "Dir") demo_gloss = Done q s2 /\ cstr b = bytes "Sys:C" ++ bytes "Dir" /\
    (cstr b = q <-> last (bytes "Sys:C") = Some ch_colon /\ ch_colon ∉ bytes "Dir").
Proof.
  apply (full_name_vs_open 1024 (bytes "Dir") (repeat 170 20) (bytes "Sys:C") demo_gloss demo_gloss);
    first [reflexivity | no_nul_compute | discriminate | vm_compute; lia].
Defined.
