(* ===== verification/Calendar.v ===== *)
(** * Calendar time: adaint.c, cal.c, sysdep.c

    [time_t] to broken-down time and back, as Ada.Calendar and GNAT.OS_Lib use
    them.  The C library's [gmtime] and [mktime] are the Gregorian calendar in
    UTC (no time zone is configured); years are counted from March inside, so
    that the leap day is the last of a year. *)
From S2P Require Import Prelude CInt CStr.

(** [struct tm]: years since 1900, months from 0, days from 1. *)
Record tm := Tm {
  tm_year : Z; tm_mon : Z; tm_mday : Z; tm_hour : Z; tm_min : Z; tm_sec : Z }.

(** Days since 1970-01-01 of a day of the year that begins in March [y]. *)
Definition days_of_year (y : Z) : Z := 365 * y + y / 4 - y / 100 + y / 400 - 719468.

(** Day of a March year on which its month [mp] begins. *)
Definition days_of_month (mp : Z) : Z := (153 * mp + 2) / 5.

(** Seconds since the epoch; months outside 0..11 carry into the year. *)
Definition mktime_utc (v : tm) : Z :=
  let y := tm_year v + 1900 + tm_mon v / 12 in
  let m := tm_mon v mod 12 in
  let my := if m <? 2 then y - 1 else y in
  let mp := if m <? 2 then m + 10 else m - 2 in
  let days := days_of_year my + days_of_month mp + tm_mday v - 1 in
  ((days * 24 + tm_hour v) * 60 + tm_min v) * 60 + tm_sec v.

(** The March year, the month in it and the day in that, of a day. *)
Definition civil (days : Z) : Z * Z * Z :=
  let z := days + 719468 in
  let era := z / 146097 in
  let doe := z mod 146097 in
  let yoe := (doe - doe / 1460 + doe / 36524 - doe / 146096) / 365 in
  let doy := doe - (365 * yoe + yoe / 4 - yoe / 100) in
  let mp := (5 * doy + 2) / 153 in
  (yoe + era * 400, mp, doy - days_of_month mp).

Definition gmtime_utc (t : Z) : tm :=
  let days := t / 86400 in
  let rem := t mod 86400 in
  let '(y, mp, d) := civil days in
  let m := if mp <? 10 then mp + 2 else mp - 10 in
  Tm ((if m <? 2 then y + 1 else y) - 1900) m (d + 1) (rem / 3600) (rem / 60 mod 60) (rem mod 60).

(** Null when the year is no [int]. *)
Definition gmtime (t : Z) : option tm :=
  let v := gmtime_utc t in
  if (- 2 ^ 31 <=? tm_year v) && (tm_year v <? 2 ^ 31) then Some v else None.

(** newlib refuses years more than 10000 away from 1900. *)
Definition mktime (v : tm) : Z :=
  if (10000 <? tm_year v) || (tm_year v <? -10000) then -1 else i64 (mktime_utc v).

Lemma mktime_id v : -10000 <= tm_year v <= 10000 -> in_i64 (mktime_utc v) -> mktime v = mktime_utc v.
Proof.
  intros Hy Hr. unfold mktime. rewrite !(proj2 (Z.ltb_ge _ _)) by lia. by apply i64_id.
Qed.

(** ** adaint.c *)

(** The six variables of the caller. *)
Definition gnat_to_gm_time (p_time : Z) : Z * Z * Z * Z * Z * Z :=
  match gmtime p_time with
  | Some v => (tm_year v, tm_mon v, tm_mday v, tm_hour v, tm_min v, tm_sec v)
  | None => (0, 0, 0, 0, 0, 0)
  end.

(** [*p_time]. *)
Definition gnat_to_os_time (year month day hours mins secs : Z) : Z :=
  mktime (Tm year month day hours mins secs).

(** [n] decimal digits of a number. *)
Fixpoint digits (n : nat) (x : Z) : list Z :=
  match n with
  | O => []
  | S n' => digits n' (x / 10) ++ [48 + x mod 10]
  end.

(** The five conversions of the format for a year of four digits. *)
Definition strftime_iso (v : tm) : list Z :=
  digits 4 (tm_year v + 1900) ++ bytes "-" ++ digits 2 (tm_mon v + 1) ++ bytes "-" ++
  digits 2 (tm_mday v) ++ bytes " " ++ digits 2 (tm_hour v) ++ bytes ":" ++
  digits 2 (tm_min v) ++ bytes ":" ++ digits 2 (tm_sec v).

(** The buffer after the call: [strftime] stores its text and a terminator,
    the terminator is then overwritten.  No result when the buffer is too
    small, and for years that do not have four digits, which are left out. *)
Definition gnat_current_time_string (now : Z) (result : list Z) : option (list Z) :=
  let v := gmtime_utc now in
  let text := strftime_iso v in
  let b := (text ++ [0]) ++ drop (length text + 1) result in
  if (1000 <=? tm_year v + 1900) && (tm_year v + 1900 <=? 9999) && (22 <=? Z.of_nat (length result))
  then Some (<[21%nat := 48]> (<[20%nat := 48]> (<[19%nat := 46]> b)))
  else None.

(** ** cal.c: [struct timeval] has 64-bit fields *)

Definition gnat_timeval_to_duration (t : Z * Z) : Z * Z := (fst t, snd t).
Definition gnat_duration_to_timeval (sec usec : Z) : Z * Z := (i64 sec, i64 usec).

(** ** sysdep.c: all time values are in GMT *)

Definition gnat_localtime_tzoff (timer is_historic : Z) : Z := 0.

(** ** Theorems *)

(** The day is found again: the March year and month of a day. *)
Lemma year_of_era doe : 0 <= doe < 146097 ->
  let yoe := (doe - doe / 1460 + doe / 36524 - doe / 146096) / 365 in
  0 <= yoe < 400 /\
  0 <= doe - (365 * yoe + yoe / 4 - yoe / 100) < 366.
Proof. intros H. cbv zeta. zlia. Qed.

Lemma civil_spec days : let '(y, mp, d) := civil days in
  days = days_of_year y + days_of_month mp + d /\ 0 <= mp < 12 /\ 0 <= d < 31.
Proof.
  unfold civil. pose proof (Z.mod_pos_bound (days + 719468) 146097 ltac:(lia)) as Hdoe.
  pose proof (Z.div_mod (days + 719468) 146097 ltac:(lia)) as Hz.
  set (era := (days + 719468) / 146097) in *. set (doe := (days + 719468) mod 146097) in *.
  pose proof (year_of_era doe Hdoe) as [Hy Hd].
  set (yoe := (doe - doe / 1460 + doe / 36524 - doe / 146096) / 365) in *.
  unfold days_of_year, days_of_month. clearbody yoe era. clear Hdoe.
  assert (H4 : (yoe + era * 400) / 4 = yoe / 4 + era * 100) by zlia.
  assert (H100 : (yoe + era * 400) / 100 = yoe / 100 + era * 4) by zlia.
  assert (H400 : (yoe + era * 400) / 400 = era) by zlia.
  rewrite H4, H100, H400. set (doy := doe - _) in *.
  assert (Hdays : days = 146097 * era + doe - 719468) by lia.
  assert (Hdoe : doe = doy + (365 * yoe + yoe / 4 - yoe / 100)) by (unfold doy; lia).
  clearbody doy doe. split; [lia|]. clear -Hd. zlia.
Qed.

(** Days of the month [mp] of the year that begins in March [y]; the last one
    is February of the year [y + 1]. *)
Definition month_length (y mp : Z) : Z :=
  if mp <? 11 then days_of_month (mp + 1) - days_of_month mp
  else if ((y + 1) mod 4 =? 0) && (negb ((y + 1) mod 100 =? 0) || ((y + 1) mod 400 =? 0))
       then 29 else 28.

Lemma era_of_year yoe doy : 0 <= yoe < 400 -> 0 <= doy < 366 ->
  (doy = 365 -> (yoe + 1) mod 4 = 0 /\ ((yoe + 1) mod 100 <> 0 \/ yoe = 399)) ->
  let doe := 365 * yoe + yoe / 4 - yoe / 100 + doy in
  0 <= doe < 146097 /\ (doe - doe / 1460 + doe / 36524 - doe / 146096) / 365 = yoe.
Proof. intros Hy Hd Hl. cbv zeta. split; zlia. Qed.

Lemma civil_unique y mp d : 0 <= mp < 12 -> 0 <= d < month_length y mp ->
  civil (days_of_year y + days_of_month mp + d) = (y, mp, d).
Proof.
  intros Hm Hd. set (doy := days_of_month mp + d).
  assert (Hdoy : 0 <= doy < 366 /\ (5 * doy + 2) / 153 = mp /\
    (doy = 365 -> (y + 1) mod 4 = 0 /\ ((y + 1) mod 100 <> 0 \/ (y + 1) mod 400 = 0))).
  { unfold doy, month_length, days_of_month in *.
    destruct (mp <? 11) eqn:E; bool_to_prop; [repeat split; intros; zlia|].
    assert (mp = 11) as -> by lia. change ((153 * 11 + 2) / 5) with 337 in *.
    destruct ((y + 1) mod 4 =? 0) eqn:E4, ((y + 1) mod 100 =? 0) eqn:E100,
      ((y + 1) mod 400 =? 0) eqn:E400; cbn [andb orb negb] in Hd; bool_to_prop;
      (split; [lia|]; split; [zlia|intros; lia || auto]). }
  destruct Hdoy as (H1 & H2 & H3).
  set (era := y / 400). set (yoe := y mod 400).
  assert (Hy : y = 400 * era + yoe) by (unfold era, yoe; apply Z.div_mod; lia).
  assert (Hyoe : 0 <= yoe < 400) by (apply Z.mod_pos_bound; lia).
  destruct (era_of_year yoe doy Hyoe H1) as [Hdoe Hyear].
  { intros E. destruct (H3 E) as [Ha Hb]. clear -Ha Hb Hy Hyoe. rewrite Hy in Ha, Hb. zlia. }
  unfold civil.
  replace (days_of_year y + days_of_month mp + d + 719468)
    with ((365 * yoe + yoe / 4 - yoe / 100 + doy) + era * 146097) by
    (unfold days_of_year; fold doy; clear -Hy Hyoe; subst doy; rewrite Hy; zlia).
  rewrite Z.div_add, Z.mod_add by lia.
  rewrite (Z.div_small _ 146097), (Z.mod_small _ 146097) by lia. cbv zeta in Hyear.
  rewrite Hyear. cbv zeta.
  replace (365 * yoe + yoe / 4 - yoe / 100 + doy - (365 * yoe + yoe / 4 - yoe / 100)) with doy by lia.
  rewrite H2. f_equal; [f_equal; lia | unfold doy; lia].
Qed.

(** ** The calendar of everyday use *)

Definition leap_year (y : Z) : bool :=
  (y mod 4 =? 0) && (negb (y mod 100 =? 0) || (y mod 400 =? 0)).

(** Months from 0. *)
Definition days_in_month (y m : Z) : Z :=
  if m =? 1 then (if leap_year y then 29 else 28)
  else if (m =? 3) || (m =? 5) || (m =? 8) || (m =? 10) then 30 else 31.

(** A date and time of day as Ada has them: [year] counts from 1900. *)
Definition valid_time (year month day hours mins secs : Z) : Prop :=
  0 <= month < 12 /\ 1 <= day <= days_in_month (year + 1900) month /\
  0 <= hours < 24 /\ 0 <= mins < 60 /\ 0 <= secs < 60.

Lemma month_length_spec y m : 0 <= m < 12 ->
  month_length (if m <? 2 then y - 1 else y) (if m <? 2 then m + 10 else m - 2) = days_in_month y m.
Proof.
  intros H. assert (Hc : m = 0 \/ m = 1 \/ m = 2 \/ m = 3 \/ m = 4 \/ m = 5 \/ m = 6 \/ m = 7 \/
    m = 8 \/ m = 9 \/ m = 10 \/ m = 11) by lia.
  unfold month_length, days_in_month, leap_year.
  destruct Hc as [->|[->|[->|[->|[->|[->|[->|[->|[->|[->|[->| ->]]]]]]]]]]]; try reflexivity.
  cbn [Z.ltb Z.compare Pos.compare Pos.compare_cont]. by replace (y - 1 + 1) with y by lia.
Qed.

Lemma gmtime_mktime v :
  valid_time (tm_year v) (tm_mon v) (tm_mday v) (tm_hour v) (tm_min v) (tm_sec v) ->
  gmtime_utc (mktime_utc v) = v.
Proof.
  destruct v as [year mon day h mi sc]. cbn [tm_year tm_mon tm_mday tm_hour tm_min tm_sec].
  intros (Hm & Hd & Hh & Hmi & Hs). unfold mktime_utc, gmtime_utc.
  cbn [tm_year tm_mon tm_mday tm_hour tm_min tm_sec].
  rewrite (Z.div_small mon 12), (Z.mod_small mon 12), Z.add_0_r by lia.
  set (my := if mon <? 2 then year + 1900 - 1 else year + 1900).
  set (mp := if mon <? 2 then mon + 10 else mon - 2).
  set (days := days_of_year my + days_of_month mp + day - 1).
  assert (Hq : (((days * 24 + h) * 60 + mi) * 60 + sc) / 86400 = days) by (clearbody days; zlia).
  assert (Hr : (((days * 24 + h) * 60 + mi) * 60 + sc) mod 86400 = (h * 60 + mi) * 60 + sc)
    by (clearbody days; zlia).
  rewrite Hq, Hr. replace days with (days_of_year my + days_of_month mp + (day - 1)) by (unfold days; lia).
  pose proof (month_length_spec (year + 1900) mon Hm) as Hl. fold my mp in Hl.
  rewrite civil_unique; [|unfold mp; case_match; bool_to_prop; lia | lia].
  clear Hq Hr days Hl. unfold my, mp. clear my mp Hd.
  destruct (mon <? 2) eqn:E; bool_to_prop.
  - replace (mon + 10 <? 10) with false by (symmetry; apply Z.ltb_ge; lia).
    replace (mon + 10 - 10) with mon by lia.
    replace (mon <? 2) with true by (symmetry; apply Z.ltb_lt; lia). f_equal; zlia.
  - replace (mon - 2 <? 10) with true by (symmetry; apply Z.ltb_lt; lia).
    replace (mon - 2 + 2) with mon by lia.
    replace (mon <? 2) with false by (symmetry; apply Z.ltb_ge; lia). f_equal; zlia.
Qed.

Lemma mktime_gmtime t : mktime_utc (gmtime_utc t) = t.
Proof.
  unfold mktime_utc, gmtime_utc. pose proof (civil_spec (t / 86400)) as H.
  destruct (civil (t / 86400)) as [[y mp] d]. destruct H as (Hd & Hm & _).
  cbn [tm_year tm_mon tm_mday tm_hour tm_min tm_sec].
  assert (Ht : t = t / 86400 * 86400 + t mod 86400) by zlia.
  pose proof (Z.mod_pos_bound t 86400 ltac:(lia)) as Hr.
  set (rem := t mod 86400) in *. clearbody rem. set (q := t / 86400) in *. clearbody q.
  assert (Hrem : (rem / 3600 * 60 + rem / 60 mod 60) * 60 + rem mod 60 = rem) by zlia.
  destruct (mp <? 10) eqn:E; bool_to_prop.
  - replace (mp + 2 <? 2) with false by (symmetry; apply Z.ltb_ge; lia).
    rewrite (Z.div_small (mp + 2)), (Z.mod_small (mp + 2)) by lia.
    replace (mp + 2 <? 2) with false by (symmetry; apply Z.ltb_ge; lia).
    replace (y - 1900 + 1900 + 0) with y by lia. replace (mp + 2 - 2) with mp by lia. lia.
  - replace (mp - 10 <? 2) with true by (symmetry; apply Z.ltb_lt; lia).
    rewrite (Z.div_small (mp - 10)), (Z.mod_small (mp - 10)) by lia.
    replace (mp - 10 <? 2) with true by (symmetry; apply Z.ltb_lt; lia).
    replace (y + 1 - 1900 + 1900 + 0 - 1) with y by lia. replace (mp - 10 + 10) with mp by lia. lia.
Qed.

Lemma days_of_year_range y : -2147483648 <= y <= 2147487648 ->
  -1000000000000 <= days_of_year y <= 1000000000000.
Proof. intros H. unfold days_of_year. zlia. Qed.

Lemma days_of_month_range mp : 0 <= mp < 12 -> 0 <= days_of_month mp <= 337.
Proof. intros H. unfold days_of_month. zlia. Qed.

(** Calendar conversions are inverse to each other: a time that
    [__gnat_to_gm_time] splits is put together again by [__gnat_to_os_time],
    and a valid date and time of day (leap years as in the Gregorian
    calendar) comes back from its time in seconds, for every year that
    [mktime] takes. *)
Theorem calendar_roundtrip (t year month day hours mins secs : Z) :
  in_i64 t -> -10000 <= tm_year (gmtime_utc t) <= 10000 ->
  valid_time year month day hours mins secs -> -10000 <= year <= 10000 ->
  (let '(y, mo, d, h, mi, s) := gnat_to_gm_time t in gnat_to_os_time y mo d h mi s = t) /\
  gnat_to_gm_time (gnat_to_os_time year month day hours mins secs) =
    (year, month, day, hours, mins, secs).
Proof.
  intros Ht Hty Hv Hy. split.
  - unfold gnat_to_gm_time, gmtime.
    rewrite (proj2 (Z.leb_le _ _)), (proj2 (Z.ltb_lt _ _)) by (change (2 ^ 31) with 2147483648; lia).
    cbn [andb]. unfold gnat_to_os_time.
    replace (Tm _ _ _ _ _ _) with (gmtime_utc t) by (by destruct (gmtime_utc t)).
    by rewrite mktime_id; rewrite ?mktime_gmtime.
  - unfold gnat_to_os_time.
    assert (Hr : in_i64 (mktime_utc (Tm year month day hours mins secs))).
    { destruct Hv as (Hm & Hd & Hh & Hmi & Hs).
      assert (day <= 31) by (unfold days_in_month, leap_year in Hd; repeat case_match; lia).
      unfold mktime_utc, in_i64 in *.
      cbn [tm_year tm_mon tm_mday tm_hour tm_min tm_sec].
      rewrite (Z.div_small month 12), (Z.mod_small month 12) by lia.
      set (my := if month <? 2 then _ else _). set (mp := if month <? 2 then _ else _).
      assert (-2147483648 <= my <= 2147487648) by (unfold my; case_match; bool_to_prop; lia).
      assert (0 <= mp < 12) by (unfold mp; case_match; bool_to_prop; lia).
      pose proof (days_of_year_range my ltac:(lia)). pose proof (days_of_month_range mp ltac:(lia)).
      lia. }
    rewrite mktime_id by done. unfold gnat_to_gm_time, gmtime. rewrite gmtime_mktime by done.
    cbn [tm_year tm_mon tm_mday tm_hour tm_min tm_sec].
    by rewrite (proj2 (Z.leb_le _ _)), (proj2 (Z.ltb_lt _ _)) by (change (2 ^ 31) with 2147483648; lia).
Qed.

(** The first second of 2150, and the leap day of 2000. *)
Lemma calendar_roundtrip_witness :
  (let '(y, mo, d, h, mi, s) := gnat_to_gm_time 5680281600 in gnat_to_os_time y mo d h mi s = 5680281600) /\
  gnat_to_gm_time (gnat_to_os_time 100 1 29 23 59 59) = (100, 1, 29, 23, 59, 59).
Proof.
  apply (calendar_roundtrip 5680281600 100 1 29 23 59 59);
    first [vm_compute; repeat split; congruence].
Defined.

Lemma digits_length n x : length (digits n x) = n.
Proof. revert x. induction n as [|n IH]; intros x; [done|]. cbn [digits]. rewrite length_app, IH. cbn. lia. Qed.

Lemma strftime_length v : length (strftime_iso v) = 19%nat.
Proof. unfold strftime_iso. by rewrite !length_app, !digits_length. Qed.

(** [__gnat_current_time_string] fills exactly 22 bytes of its buffer: the
    date and time in ISO form, then [".00"] over the terminator that
    [strftime] left.  The byte behind them is not written, so the string has
    no terminator although the 23 bytes of the buffer are meant for one. *)
Theorem current_time_string_layout (now : Z) (result : list Z) :
  (22 <= length result)%nat -> 1000 <= tm_year (gmtime_utc now) + 1900 <= 9999 ->
  gnat_current_time_string now result =
    Some (strftime_iso (gmtime_utc now) ++ bytes ".00" ++ drop 22 result).
Proof.
  intros Hl Hy. unfold gnat_current_time_string. cbv zeta.
  rewrite !(proj2 (Z.leb_le _ _)) by lia. cbn [andb]. f_equal. pose proof (strftime_length (gmtime_utc now)) as H.
  set (text := strftime_iso _) in *. rewrite H. rewrite <- app_assoc. cbn [app].
  rewrite !(insert_app_r_alt text) by lia. rewrite H. cbn [Nat.sub].
  f_equal. change (19 + 1)%nat with 20%nat.
  assert (E : exists a b, drop 20 result = a :: b :: drop 22 result).
  { destruct (drop 20 result) as [|a [|b l]] eqn:E;
      apply (f_equal length) in E as El; rewrite length_drop in El; cbn in El; try lia.
    exists a, b. change 22%nat with (20 + 2)%nat. by rewrite <- drop_drop, E. }
  destruct E as (a & b & ->). done.
Qed.

Lemma current_time_string_layout_witness :
  gnat_current_time_string 951868799 (repeat 7 23) =
    Some (bytes "2000-02-29 23:59:59" ++ bytes ".00" ++ [7]).
Proof.
  apply (current_time_string_layout 951868799 (repeat 7 23));
    [apply Nat.leb_le; reflexivity | vm_compute; split; discriminate].
Defined.
