(* ===== verification/OsLib.v ===== *)
(** * Files, directories and processes: adaint.c, cstreams.c, mkdir.c,
    sysdep.c, errno.c

    The thin operations of GNAT.OS_Lib and Ada.Directories over the system
    interface, as this configuration builds them: directories through the
    exports of [Aegir_User.Gloss] ([AKERNEL_NO_DIRENT]), [fork] and [execv]
    branches for processes, the [link] version of the file lock. *)
From S2P Require Import Prelude CInt CStr Gloss Posix FileAttr Paths.

(** Neither [O_BINARY] nor [O_TEXT] exists here; permissions are 0666. *)
Definition O_BINARY : Z := 0.
Definition O_TEXT : Z := 0.
Definition PERM : Z := 0x1b6.

(** [fd < 0 ? -1 : fd]. *)
Definition fd_or_minus1 (fd : Z) : Z := if fd <? 0 then -1 else fd.

Definition lor3 (a b c : Z) : Z := Z.lor (Z.lor a b) c.

(** [n] in decimal, for [%ld] of a process number. *)
Fixpoint decimal (fuel : nat) (n : Z) : list Z :=
  match fuel with
  | O => []
  | S f => (if n <? 10 then [] else decimal f (n / 10)) ++ [48 + n mod 10]
  end.

Section oslib.
Context {S : Type} `{!Posix S}.

(** ** Opening files *)

Definition open_mode (path : list Z) (flags fmode : Z) : M S Z :=
  let o_fmode := if negb (fmode =? 0) then O_TEXT else O_BINARY in
  let* fd := px_open path (Z.lor flags o_fmode) PERM in
  retM (fd_or_minus1 fd).

(** No permissions are passed; they are read only where a file is created. *)
Definition gnat_open_read (path : list Z) (fmode : Z) : M S Z :=
  let o_fmode := if negb (fmode =? 0) then O_TEXT else O_BINARY in
  let* fd := px_open path (Z.lor O_RDONLY o_fmode) 0 in
  retM (fd_or_minus1 fd).
Definition gnat_open_rw (path : list Z) (fmode : Z) : M S Z := open_mode path O_RDWR fmode.
Definition gnat_open_create (path : list Z) (fmode : Z) : M S Z :=
  open_mode path (lor3 O_WRONLY O_CREAT O_TRUNC) fmode.
Definition gnat_create_output_file (path : list Z) : M S Z :=
  let* fd := px_open path (Z.lor (lor3 O_WRONLY O_CREAT O_TRUNC) O_TEXT) PERM in
  retM (fd_or_minus1 fd).
Definition gnat_create_output_file_new (path : list Z) : M S Z :=
  let* fd := px_open path (lor3 (lor3 O_WRONLY O_CREAT O_TRUNC) O_TEXT O_EXCL) PERM in
  retM (fd_or_minus1 fd).
Definition gnat_open_append (path : list Z) (fmode : Z) : M S Z :=
  open_mode path (lor3 O_WRONLY O_CREAT O_APPEND) fmode.
Definition gnat_open_new (path : list Z) (fmode : Z) : M S Z :=
  open_mode path (lor3 O_WRONLY O_CREAT O_EXCL) fmode.

(** The descriptor and the name in the caller's buffer. *)
Definition gnat_open_new_temp (fmode : Z) : M S (Z * list Z) :=
  let* t := px_mktemp (bytes "GNAT-XXXXXX") in
  match t with
  | None => retM (-1, bytes "GNAT-XXXXXX")
  | Some path =>
    let* fd := open_mode path (lor3 O_WRONLY O_CREAT O_EXCL) fmode in
    retM (fd, path)
  end.

Definition gnat_open (path : list Z) (fmode : Z) : M S Z :=
  let* fd := px_open path fmode PERM in retM (fd_or_minus1 fd).

Definition gnat_tmp_name : M S (list Z) := px_tmpnam.

(** ** Directories: [DIR *] is the slot plus one *)

Definition AKERNEL_DIRENT_BUFSZ : Z := 280.

Definition gnat_opendir (name : list Z) : M S Z :=
  let* slot := px_opendir name in retM (if slot <? 0 then 0 else slot + 1).

(** Null, or the length and what was stored at the buffer. *)
Definition gnat_readdir (dirp : Z) : M S (option (Z * list Z)) :=
  let* r := px_readdir (i32 (i32 dirp - 1)) AKERNEL_DIRENT_BUFSZ in
  retM (if fst r <? 0 then None else Some r).

Definition gnat_closedir (dirp : Z) : M S Z := px_closedir (i32 (i32 dirp - 1)).

Definition gnat_readdir_is_thread_safe : Z := 0.

(** ** Names in the file system *)

Definition gnat_unlink (path : list Z) (encoding : Z) : M S Z := px_unlink path.
Definition gnat_rename (from to_ : list Z) : M S Z := px_rename from to_.
Definition gnat_chdir (path : list Z) : M S Z := px_chdir path.
Definition gnat_rmdir (path : list Z) : M S Z := px_rmdir path.
Definition gnat_mkdir (dir_name : list Z) (encoding : Z) : M S Z := px_mkdir dir_name 0x1ff.
Definition gnat_readlink (path : list Z) (bufsiz : Z) : M S (Z * list Z) := px_readlink path bufsiz.
Definition gnat_symlink (oldpath newpath : list Z) : M S Z := px_symlink oldpath newpath.

(** [sprintf] into a buffer of 256 bytes. *)
Definition sprintf256 (text : list Z) : M S (list Z) :=
  if 256 <? strlen text + 1 then undefined else retM text.

(** The version with [link]. *)
Definition gnat_try_lock (dir file : list Z) : M S Z :=
  let* full_path := sprintf256 (dir ++ [DIR_SEPARATOR] ++ file) in
  let* pid := px_getpid in
  let* ppid := px_getppid in
  let* temp_file := sprintf256 (dir ++ [DIR_SEPARATOR] ++ bytes "TMP-" ++ decimal 20 pid ++
                                bytes "-" ++ decimal 20 ppid) in
  let* fd := px_open temp_file (Z.lor O_CREAT O_WRONLY) 0x180 in
  if fd <? 0 then retM 0 else
  px_close fd;;
  px_link temp_file full_path;;
  let* st := gnat_stat temp_file in
  px_unlink temp_file;;
  match snd st with
  | Some stat_result => retM (c_bool (st_nlink stat_result =? 2))
  | None => undefined
  end.

(** ** Descriptors *)

Definition gnat_dup (oldfd : Z) : M S Z := px_dup oldfd.
Definition gnat_dup2 (oldfd newfd : Z) : M S Z := px_dup2 oldfd newfd.

(** The [off_t] is cut to an [int]. *)
Definition gnat_lseek (fd offset whence : Z) : M S Z :=
  let* r := px_lseek fd offset whence in retM (i32 r).

Definition F_GETFD : Z := 1.
Definition F_SETFD : Z := 2.
Definition FD_CLOEXEC : Z := 1.

Definition gnat_set_close_on_exec (fd close_on_exec_p : Z) : M S Z :=
  let* flags := px_fcntl fd F_GETFD 0 in
  if flags <? 0 then retM flags else
  px_fcntl fd F_SETFD
    (if negb (close_on_exec_p =? 0) then Z.lor flags FD_CLOEXEC
     else Z.land flags (Z.lnot FD_CLOEXEC)).

(** ** Processes *)

(** The child: [execv] returns only on error, then it ends. *)
Definition exec_child {A} (args : list (list Z)) : M S A :=
  let* _ := px_execv (default [] (head args)) args in
  fun s => Blocked (px_exit 1 s).

Definition WIFEXITED (w : Z) : bool := Z.land w 0xff =? 0.
Definition WEXITSTATUS (w : Z) : Z := Z.land (Z.shiftr w 8) 0xff.
Definition WNOHANG : Z := 1.

Definition gnat_portable_spawn (args : list (list Z)) : M S Z :=
  let* pid := px_fork in
  if pid <? 0 then retM (-1)
  else if pid =? 0 then exec_child args
  else
    let* w := px_waitpid pid 0 in
    if negb (fst w =? pid) || negb (WIFEXITED (snd w)) then retM (-1)
    else retM (WEXITSTATUS (snd w)).

Definition gnat_portable_no_block_spawn (args : list (list Z)) : M S Z :=
  let* pid := px_fork in
  if pid =? 0 then exec_child args else retM pid.

(** The process and its status. *)
Definition gnat_portable_wait : M S (Z * Z) :=
  let* w := px_waitpid (-1) 0 in retM (fst w, Z.land (snd w) 0xffff).

Definition gnat_portable_no_block_wait : M S (Z * Z) :=
  let* w := px_waitpid (-1) WNOHANG in retM (fst w, Z.land (snd w) 0xffff).

Definition gnat_os_exit {A} (status : Z) : M S A := fun s => Blocked (px_exit status s).
Definition gnat_current_process_id : M S Z := px_getpid.
Definition gnat_kill (pid sig : Z) : M S unit := px_kill pid sig;; retM tt.
Definition gnat_killprocesstree (pid sig_num : Z) : M S unit := gnat_kill pid sig_num.

Definition SC_NPROCESSORS_ONLN : Z := 10.

Definition gnat_number_of_cpus : M S Z :=
  let* n := px_sysconf SC_NPROCESSORS_ONLN in retM (i32 n).

(** ** Properties of the system *)

Definition gnat_current_time : M S Z := px_time.
Definition gnat_get_maximum_file_name_length : Z := -1.

(** The static cache of the answer, before and after. *)
Definition gnat_get_file_names_case_sensitive (cache : Z) : M S (Z * Z) :=
  if cache =? -1 then
    let* sensitive := getsM (px_getenv (bytes "GNAT_FILE_NAME_CASE_SENSITIVE")) in
    let v := match sensitive with
             | Some [c] => if (c =? 48) || (c =? 49) then c - 48 else 1
             | _ => 1
             end in
    retM (v, v)
  else retM (cache, cache).

Definition gnat_get_env_vars_case_sensitive : Z := 1.
Definition gnat_get_default_identifier_character_set : Z := 49.
Definition gnat_binder_supports_auto_init : Z := 1.
Definition gnat_sals_init_using_constructors : Z := 1.
Definition gnat_name_case_equivalence : Z := 1.

Definition gnat_is_file_not_found_error (errno_val : Z) : Z := c_bool (errno_val =? ENOENT).

Definition S_IFIFO : Z := 0x1000.

Definition gnat_is_fifo (path : list Z) : M S Z :=
  let* r := px_stat path in
  match snd r with
  | Some buf => if fst r =? 0 then retM (c_bool (Z.land (st_mode buf) S_IFMT =? S_IFIFO)) else retM 0
  | None => if fst r =? 0 then undefined else retM 0
  end.

Definition gnat_ttyname (filedes : Z) : M S (list Z) := px_ttyname filedes.
Definition gnat_set_binary_mode (handle : Z) : M S unit := retM tt.
Definition gnat_set_text_mode (handle : Z) : M S unit := retM tt.
Definition gnat_set_mode (handle mode : Z) : M S unit := retM tt.

Definition get_errno : M S Z := getsM px_errno.

End oslib.

(** ** Streams: cstreams.c and sysdep.c over newlib's stdio *)

(** A stream is a handle. *)
Class Stdio (S : Type) := {
  io_feof : Z -> S -> Z;
  io_ferror : Z -> S -> Z;
  io_fileno : Z -> S -> Z;
  io_fgetc : Z -> M S Z;
  io_fputc : Z -> Z -> M S Z;
  io_ftell : Z -> M S Z;
  io_fseek : Z -> Z -> Z -> M S Z;
  (* null or a stream *)
  io_fopen : list Z -> list Z -> M S (option Z);
  io_freopen : list Z -> list Z -> Z -> M S (option Z);
  io_stdin : Z;
  io_stdout : Z;
  io_stderr : Z
}.

Section streams.
Context {S : Type} `{!Stdio S}.

Definition gnat_feof (stream : Z) : M S Z := getsM (io_feof stream).
Definition gnat_ferror (stream : Z) : M S Z := getsM (io_ferror stream).
Definition gnat_fileno (stream : Z) : M S Z := getsM (io_fileno stream).
Definition gnat_constant_stderr : Z := io_stderr.
Definition gnat_constant_stdin : Z := io_stdin.
Definition gnat_constant_stdout : Z := io_stdout.
Definition gnat_fputwc (c stream : Z) : M S Z := io_fputc c stream.
Definition gnat_fopen (path mode : list Z) (encoding : Z) : M S (option Z) := io_fopen path mode.
Definition gnat_freopen (path mode : list Z) (stream encoding : Z) : M S (option Z) :=
  io_freopen path mode stream.

Definition gnat_ftell64 (stream : Z) : M S Z := let* r := io_ftell stream in retM (i64 r).

Definition gnat_fseek64 (stream offset origin : Z) : M S Z :=
  if i64 offset =? offset then io_fseek stream (i64 offset) origin else retM (-1).

(** [*ch], [*end_of_file] and [*avail]; this system has no terminal modes. *)
Definition getc_immediate_common (stream waiting : Z) : M S (Z * Z * Z) :=
  let* ch := io_fgetc stream in
  let* eof := getsM (io_feof stream) in
  if negb (eof =? 0) then retM (ch, 1, 0) else retM (ch, 0, 1).

Definition getc_immediate (stream : Z) : M S (Z * Z) :=
  let* r := getc_immediate_common stream 1 in retM (fst r).

Definition getc_immediate_nowait (stream : Z) : M S (Z * Z * Z) := getc_immediate_common stream 0.

End streams.
