(* ===== verification/GlossSpec.v ===== *)
(** * Theorems on the system-call layer

    The working directory, environment variables, directory walks and
    descriptors of [Aegir_User.Gloss] over a file service that keeps its
    promises ([FileLaws]). *)
From S2P Require Import Prelude CInt CStr Gloss GlossLaws.

Section gloss.
Context {W : Type} `{!FileServ W}.
Context {files : W -> gmap (list Z) (list Z)} {entries : W -> list Z -> list (list Z)}.
Context {regular_path : list Z -> Prop} `{!FileLaws W files entries regular_path}.
Notation same := (same_fs files entries).

(** ** States and calls *)

(** Once bound, the service is reachable. *)
Definition gloss_inv (s : gloss W) : Prop := g_bound s = true -> f_endpoint (g_world s) = true.

Definition ready (s : gloss W) : Prop := g_bound s = true /\ f_endpoint (g_world s) = true.

(** Only the service was asked: nothing the layer keeps has changed. *)
Definition quiet (s' s : gloss W) : Prop :=
  g_errno s' = g_errno s /\ g_bound s' = g_bound s /\ g_fds s' = g_fds s /\ g_dirs s' = g_dirs s /\
  same (g_world s') (g_world s).

Lemma quiet_refl s : quiet s s.
Proof. by repeat split. Qed.

Lemma quiet_trans s1 s2 s3 : quiet s2 s1 -> quiet s3 s2 -> quiet s3 s1.
Proof. unfold quiet, same_fs. intuition congruence. Qed.

Lemma quiet_stays_ready s' s : quiet s' s -> ready s -> ready s'.
Proof. unfold quiet, same_fs, ready. intuition congruence. Qed.

Lemma quiet_files s' s : quiet s' s -> files (g_world s') = files (g_world s).
Proof. unfold quiet, same_fs. tauto. Qed.

Lemma quiet_world s w : same w (g_world s) -> quiet (set_world w s) s.
Proof. intros H. by repeat split; try apply H. Qed.

Lemma serv_done {A} (f : W -> A * W) s :
  serv f s = Done (f (g_world s)).1 (set_world (f (g_world s)).2 s).
Proof. unfold serv. by destruct (f (g_world s)). Qed.

Lemma ensure_bound_ready s : ready s -> Ensure_Bound s = Done tt s.
Proof. intros [H _]. unfold Ensure_Bound, modifyM. rewrite H. by destruct s. Qed.

(** The first call binds the service and keeps everything else. *)
Lemma ensure_bound_binds s : gloss_inv s ->
  exists s', Ensure_Bound s = Done tt s' /\ ready s' /\ g_fds s' = g_fds s /\ g_dirs s' = g_dirs s /\
    g_errno s' = g_errno s /\ files (g_world s') = files (g_world s) /\
    entries (g_world s') = entries (g_world s).
Proof.
  intros Hi. unfold Ensure_Bound, modifyM. eexists. split; [done|].
  destruct (g_bound s) eqn:Eb; [by repeat split; auto|]. cbn.
  pose proof (console_bind_law W files entries
    (if f_endpoint (g_world s) then g_world s else f_bind (g_world s))) as (H1 & H2 & H3).
  pose proof (bind_law W files entries (g_world s)) as (H4 & H5 & H6).
  unfold ready. cbn. rewrite H1, H2, H3. destruct (f_endpoint (g_world s)) eqn:Ee;
    repeat split; congruence.
Qed.

(** ** The working directory *)

Definition cwd_of (m : gmap (list Z) (list Z)) : list Z :=
  match m !! path_cwd with
  | Some (c :: l) => take 256 (c :: l)
  | _ => bytes "Sys:"
  end.

Definition qualified (m : gmap (list Z) (list Z)) (p : list Z) : list Z :=
  if has_colon p then p else below (cwd_of m) p.

Lemma get_cwd_spec s : regular_path path_cwd -> ready s ->
  exists s', Get_CWD s = Done (cwd_of (files (g_world s))) s' /\ quiet s' s.
Proof.
  intros Hreg [Hb He]. unfold Get_CWD, cwd_of.
  destruct (open_law W files entries path_cwd (g_world s) Hreg He) as [Ho Hs].
  rewrite (bindM_done _ _ _ _ _ (serv_done _ s)). rewrite Ho.
  set (s1 := set_world _ s). assert (Hq : quiet s1 s) by (by apply quiet_world).
  destruct (files (g_world s) !! path_cwd) as [c|] eqn:Ec; cbn [fst snd]; [|by eexists].
  change (Status_Ok =? Status_Ok) with true. cbv iota.
  rewrite (bindM_done _ _ _ _ _ (serv_done _ s1)).
  assert (He1 : f_endpoint (g_world s1) = true) by (by apply (quiet_stays_ready s1 s)).
  assert (Hc1 : files (g_world s1) !! path_cwd = Some c) by (by rewrite (quiet_files s1 s)).
  set (s2 := set_world _ s1).
  destruct c as [|x c].
  - change (Z.min (Z.of_nat (length (@nil Z))) 256) with 0.
    destruct (read_nothing W files entries path_cwd 0 (g_world s1)) as [Hr Hs2].
    rewrite Hr. exists s2. split; [done|]. eapply quiet_trans; [done|]. by apply quiet_world.
  - set (n := Z.min _ 256).
    assert (Hn : 0 < n <= 256) by (unfold n; cbn [length]; lia).
    destruct (read_law W files entries path_cwd 0 n (g_world s1) (x :: c))
      as [Hs2 Hr]; [done|done|done|lia|lia|].
    rewrite (proj2 (Z.ltb_lt 0 _)) in Hr by (cbn [length]; lia). rewrite Hr. cbn [fst snd].
    change (Status_Ok =? Status_Ok) with true. rewrite drop_0.
    rewrite (proj2 (Z.ltb_lt 0 _)) by (rewrite length_take; unfold Buf_Bytes; cbn [length]; lia).
    exists s2. split; [|eapply quiet_trans; [done|]; by apply quiet_world].
    cbn [andb]. unfold retM. f_equal.
    replace (Z.to_nat (Z.min n Buf_Bytes)) with (Nat.min 256 (length (x :: c))) by
      (unfold n, Buf_Bytes; lia).
    by rewrite <- take_take, take_ge with (l := x :: c) (n := length (x :: c)) by lia.
Qed.

Lemma qualify_spec p s : regular_path path_cwd -> ready s ->
  exists s', Qualify p s = Done (qualified (files (g_world s)) p) s' /\ quiet s' s.
Proof.
  intros Hreg Hr. unfold Qualify, qualified. destruct (has_colon p).
  - exists s. split; [done | apply quiet_refl].
  - destruct (get_cwd_spec s Hreg Hr) as (s' & E & Hq).
    rewrite (bindM_done _ _ _ _ _ E). by exists s'.
Qed.

(** ** Writing variables *)

(** The layer's own state is kept and the service stays bound. *)
Definition kept (s' s : gloss W) : Prop :=
  g_errno s' = g_errno s /\ g_bound s' = g_bound s /\ g_fds s' = g_fds s /\ g_dirs s' = g_dirs s /\
  f_endpoint (g_world s') = f_endpoint (g_world s).

Lemma kept_trans s1 s2 s3 : kept s2 s1 -> kept s3 s2 -> kept s3 s1.
Proof. unfold kept. intuition congruence. Qed.

Lemma kept_ready s' s : kept s' s -> ready s -> ready s'.
Proof. unfold kept, ready. intuition congruence. Qed.

Lemma quiet_kept s' s : quiet s' s -> kept s' s.
Proof. unfold quiet, kept, same_fs. tauto. Qed.

Lemma kept_world s w : f_endpoint w = f_endpoint (g_world s) -> kept (set_world w s) s.
Proof. by repeat split. Qed.

(** Making the environment directory changes no file. *)
Definition harmless (s' s : gloss W) : Prop :=
  kept s' s /\ files (g_world s') = files (g_world s).

Lemma harmless_trans s1 s2 s3 : harmless s2 s1 -> harmless s3 s2 -> harmless s3 s1.
Proof. intros [? ?] [? ?]. split; [by eapply kept_trans | congruence]. Qed.

Lemma mkdir_harmless p s : ready s ->
  exists s', serv (f_mkdir p) s = Done (f_mkdir p (g_world s)).1 s' /\ harmless s' s /\ ready s'.
Proof.
  intros Hr. eexists. split; [apply serv_done|].
  destruct (mkdir_law W files entries p (g_world s) (proj2 Hr)) as [H1 H2].
  assert (Hk : kept (set_world (f_mkdir p (g_world s)).2 s) s) by
    (apply kept_world; rewrite H1; symmetry; apply Hr).
  split; [by split | by apply (kept_ready _ s)].
Qed.

Lemma env_dir_scan_harmless n : forall i s, ready s ->
  exists s', env_dir_scan n i s = Done tt s' /\ harmless s' s.
Proof.
  induction n as [|n IH]; intros i s Hr; cbn [env_dir_scan]; [by exists s|].
  rewrite (bindM_done _ _ _ _ _ (serv_done _ s)).
  pose proof (assign_law W files entries i (g_world s) (proj2 Hr)) as Ha.
  set (s1 := set_world _ s). assert (Hq : quiet s1 s) by (by apply quiet_world).
  assert (H1 : harmless s1 s) by (split; [by apply quiet_kept | by apply quiet_files]).
  assert (Hr1 : ready s1) by (by eapply quiet_stays_ready).
  destruct (negb _); [by exists s1|]. destruct (_ && _).
  - destruct (before_last_slash _) as [d|].
    + destruct (mkdir_harmless d s1 Hr1) as (s2 & E2 & H2 & Hr2).
      rewrite (bindM_done _ _ _ _ _ E2).
      destruct (mkdir_harmless (drop 5 (f_assign_list i (g_world s)).1.2) s2 Hr2) as (s3 & E3 & H3 & _).
      rewrite (bindM_done _ _ _ _ _ E3). exists s3. split; [done|].
      eapply harmless_trans; [exact H1|]. by eapply harmless_trans.
    + destruct (mkdir_harmless (drop 5 (f_assign_list i (g_world s)).1.2) s1 Hr1) as (s3 & E3 & H3 & _).
      rewrite (bindM_done _ _ _ _ _ E3). exists s3. split; [done|]. by eapply harmless_trans.
  - destruct (IH (i + 1) s1 Hr1) as (s' & E & H). exists s'. split; [done|].
    by eapply harmless_trans.
Qed.

Lemma ensure_env_dir_harmless s : ready s ->
  exists s', Ensure_Env_Dir s = Done tt s' /\ harmless s' s.
Proof.
  intros Hr. unfold Ensure_Env_Dir. rewrite (bindM_done _ _ _ _ _ (serv_done _ s)).
  pose proof (stat_any_law W files entries (bytes "ENV:") (g_world s) (proj2 Hr)) as Ha.
  set (s1 := set_world _ s). assert (Hq : quiet s1 s) by (by apply quiet_world).
  assert (H1 : harmless s1 s) by (split; [by apply quiet_kept | by apply quiet_files]).
  destruct (negb _); [by exists s1|].
  destruct (env_dir_scan_harmless 16 0 s1) as (s' & E & H); [by eapply quiet_stays_ready|].
  exists s'. split; [done|]. by eapply harmless_trans.
Qed.

(** Truncate, then write: the new contents, or a refusal that may have left
    the file empty. *)
Definition rewritten (p v : list Z) (st : Z) (s' s : gloss W) : Prop :=
  (st = Status_Ok /\ files (g_world s') = <[p := v]> (files (g_world s))) \/
  (st <> Status_Ok /\
   (files (g_world s') = files (g_world s) \/
    files (g_world s') = <[p := []]> (files (g_world s)))).

Lemma rewrite_file `{!WholeWrites W} p v s :
  regular_path p -> ready s -> Z.of_nat (length v) <= Buf_Bytes ->
  exists r s1 s', serv (f_truncate p) s = Done r s1 /\
    exists w, serv (f_write p 0 v) s1 = Done w s' /\ kept s' s /\ rewritten p v (fst w) s' s.
Proof.
  intros Hreg Hr Hl.
  pose proof (truncate_law W files entries p (g_world s) Hreg (proj2 Hr)) as Ht.
  pose proof (fun off b Hs => read_only_law W files entries p (g_world s) off b Hreg (proj2 Hr) Hs) as Hro.
  destruct (f_truncate p (g_world s)) as [t w1] eqn:Et. cbn [fst snd] in Hro.
  destruct Ht as [He1 Ht]. set (s1 := set_world w1 s).
  assert (Hk1 : kept s1 s) by (apply kept_world; rewrite He1; symmetry; apply Hr).
  exists t, s1, (set_world (f_write p 0 v w1).2 s1).
  split; [unfold serv; by rewrite Et|]. exists (f_write p 0 v w1).1.
  split; [apply serv_done|].
  destruct v as [|x v].
  { rewrite (write_nothing W files entries). split; [done|]. right. split; [done|].
    destruct Ht as [(_ & _ & H)|(_ & H)]; [by right | by left]. }
  pose proof (write_law W files entries p 0 (x :: v) w1 Hreg He1 ltac:(done) ltac:(lia)) as Hw.
  pose proof (whole_write W p 0 (x :: v) w1 Hl) as Hn.
  specialize (Hro 0 (x :: v)). destruct (f_write p 0 (x :: v) w1) as [[st n] w2].
  cbn [fst snd] in *. destruct Hw as [He2 Hw].
  split; [eapply kept_trans; [exact Hk1|]; apply kept_world; cbn; congruence|].
  destruct Hw as [(-> & _ & Hf)|(Hst & Hf)]; unfold rewritten; cbn [g_world set_world].
  - left. split; [done|]. rewrite Hf, Hn by done. rewrite Nat2Z.id, take_ge by done.
    unfold splice. change (Z.to_nat 0) with 0%nat. rewrite take_0, app_nil_l.
    destruct Ht as [(_ & [c Hc] & H1)|(Hne & H1)].
    + rewrite H1, lookup_insert_eq. cbn [default from_option id]. rewrite drop_nil, app_nil_r.
      by rewrite insert_insert_eq.
    + destruct (files (g_world s) !! p) as [c|] eqn:Ec.
      * exfalso. by apply Hro.
      * rewrite H1, Ec. cbn [default from_option id]. by rewrite drop_nil, app_nil_r.
  - right. split; [done|]. rewrite Hf.
    destruct Ht as [(_ & _ & H)|(_ & H)]; [by right | by left].
Qed.

Lemma set_env_spec `{!WholeWrites W} name v s :
  regular_path (bytes "ENV:" ++ name) -> ready s -> Z.of_nat (length v) <= Buf_Bytes ->
  exists st s', Set_Env name v s = Done st s' /\ kept s' s /\
    rewritten (bytes "ENV:" ++ name) v st s' s.
Proof.
  intros Hreg Hr Hl. unfold Set_Env.
  destruct (ensure_env_dir_harmless s Hr) as (s0 & E0 & Hk0 & Hf0).
  rewrite (bindM_done _ _ _ _ _ E0).
  destruct (rewrite_file (bytes "ENV:" ++ name) v s0) as (r & s1 & s' & E1 & w & E2 & Hk & Hrw);
    [done | by eapply kept_ready | done |].
  rewrite (bindM_done _ _ _ _ _ E1), (bindM_done _ _ _ _ _ E2).
  exists (fst w), s'. split; [done|]. split; [by eapply kept_trans|].
  unfold rewritten in *. by rewrite Hf0 in Hrw.
Qed.

(** [chdir] and [getcwd] agree: after a [chdir] that succeeded, [getcwd]
    delivers exactly the directory that was asked for, the name completed by
    the working directory of before if it has no volume, in every buffer that
    has room for it and its terminator; a name that completes to more than 256
    characters is refused.  Whether there is such a directory is not asked. *)
Theorem chdir_getcwd `{!WholeWrites W} (path : list Z) (size : Z) (s : gloss W) :
  regular_path path_cwd -> ready s ->
  let p := qualified (files (g_world s)) path in
  wp (Gloss_Chdir path) (fun r s1 =>
    (r = 0 \/ r = -1 /\ g_errno s1 = ENOENT) /\
    (p = [] \/ 256 < Z.of_nat (length p) -> r = -1) /\
    (r = 0 -> Z.of_nat (length p) < size ->
     wp (Gloss_Getcwd size) (fun cwd s2 => cwd = Some p) s1)) s.
Proof.
  intros Hreg Hr p. unfold wp, Gloss_Chdir.
  destruct (qualify_spec path s Hreg Hr) as (s1 & E1 & Hq1). fold p in E1.
  assert (Hr1 : ready s1) by (by eapply quiet_stays_ready).
  rewrite (bindM_done _ _ _ _ _ E1), (bindM_done _ _ _ _ _ (ensure_bound_ready s1 Hr1)).
  unfold Set_CWD. destruct ((Z.of_nat (length p) =? 0) || (256 <? Z.of_nat (length p))) eqn:El.
  { cbn. split; [by right|]. by split. }
  bool_to_prop.
  destruct (set_env_spec (bytes "CWD") p s1) as (st & s2 & E2 & Hk & Hrw);
    [done | done | unfold Buf_Bytes; lia |].
  rewrite (bindM_done _ _ _ _ _ E2).
  assert (Hpn : p <> []) by (intros E; by rewrite E in *).
  destruct Hrw as [[-> Hf]|[Hst _]].
  - change (negb (Status_Ok =? Status_Ok)) with false. cbv iota. cbn [retM].
    split; [by left|]. split; [intros [?|?]; [done|lia]|]. intros _ Hsz.
    assert (Hr2 : ready s2) by (by eapply kept_ready).
    unfold Gloss_Getcwd. rewrite (bindM_done _ _ _ _ _ (ensure_bound_ready s2 Hr2)).
    destruct (get_cwd_spec s2 Hreg Hr2) as (s3 & E3 & _). rewrite (bindM_done _ _ _ _ _ E3).
    assert (Hc : cwd_of (files (g_world s2)) = p).
    { unfold cwd_of. rewrite Hf. change (bytes "ENV:" ++ bytes "CWD") with path_cwd.
      rewrite lookup_insert_eq. destruct p as [|x p']; [done|]. apply take_ge. lia. }
    rewrite Hc. by rewrite (proj2 (Z.ltb_ge _ _)) by lia.
  - rewrite (proj2 (Z.eqb_neq st _)) by done. cbn. split; [by right|]. by split.
Qed.

(** The first relative name of a process is not looked up in the working
    directory: as long as nothing has bound the service, the calls that
    complete their name before they bind it ([stat], [open], [opendir] and
    [chdir]) cannot read the variable and do what they would do for the same
    name at the root of [Sys:], whatever the working directory is. *)
Theorem first_name_ignores_cwd (path : list Z) (flags : Z) (s : gloss W) :
  f_endpoint (g_world s) = false -> has_colon path = false ->
  let p := bytes "Sys:" ++ path in
  Gloss_Stat path s = Gloss_Stat p s /\ Gloss_Open path flags s = Gloss_Open p flags s /\
  aegir_opendir path s = aegir_opendir p s /\ Gloss_Chdir path s = Gloss_Chdir p s.
Proof.
  intros He Hc p.
  assert (H : Qualify path s = Qualify p s).
  { unfold Qualify. rewrite Hc. change (has_colon p) with true. unfold Get_CWD.
    rewrite (bindM_done _ _ s (bytes "Sys:") s); [done|].
    rewrite (bindM_done _ _ _ _ _ (serv_done _ s)).
    rewrite (unbound_open W files entries path_cwd (g_world s) He). by destruct s. }
  unfold Gloss_Stat, Gloss_Open, aegir_opendir, Gloss_Chdir, bindM. by rewrite H.
Qed.

End gloss.

(** ** Witnesses *)

Lemma demo_ready : ready demo_gloss.
Proof. by split. Defined.

Lemma chdir_getcwd_witness :
  let p := qualified (tf_files (g_world demo_gloss)) (bytes "Dir") in
  p = bytes "Sys:C/Dir" /\
  wp (Gloss_Chdir (bytes "Dir")) (fun r s1 =>
    (r = 0 \/ r = -1 /\ g_errno s1 = ENOENT) /\
    (p = [] \/ 256 < Z.of_nat (length p) -> r = -1) /\
    (r = 0 -> Z.of_nat (length p) < 64 -> wp (Gloss_Getcwd 64) (fun cwd _ => cwd = Some p) s1))
    demo_gloss.
Proof.
  split; [vm_compute; reflexivity|].
  exact (chdir_getcwd (bytes "Dir") 64 demo_gloss I demo_ready).
Defined.

(** A process that has not called the service. *)
Definition fresh_gloss : gloss toy_fs :=
  GlossSt 0 false [] [] (ToyFs false (tf_files demo_fs) (tf_dirs demo_fs) []).

Lemma first_name_ignores_cwd_witness :
  Gloss_Stat (bytes "Dir") fresh_gloss = Gloss_Stat (bytes "Sys:Dir") fresh_gloss /\
  Gloss_Open (bytes "Dir") O_RDONLY fresh_gloss = Gloss_Open (bytes "Sys:Dir") O_RDONLY fresh_gloss /\
  aegir_opendir (bytes "Dir") fresh_gloss = aegir_opendir (bytes "Sys:Dir") fresh_gloss /\
  Gloss_Chdir (bytes "Dir") fresh_gloss = Gloss_Chdir (bytes "Sys:Dir") fresh_gloss.
Proof. apply (first_name_ignores_cwd (bytes "Dir") O_RDONLY fresh_gloss); reflexivity. Defined.
