(* ===== verification/GlossEnv.v ===== *)
(** * Environment variables on Aegir

    [Aegir_User.Gloss] discharges the interface against which env.c is
    verified ([RtGlue.EnvLaws]): the composition of env.c, the system-call
    layer and the file service. *)
From S2P Require Import Prelude CInt CStr RtGlue Gloss GlossLaws GlossSpec.

(** A call that always returns, as a function. *)
Definition total {S A} (d : A) (c : M S A) (s : S) : A * S :=
  match c s with Done a s' => (a, s') | Blocked s' => (d, s') end.

#[export] Instance gloss_env {W} `{!FileServ W} : EnvFiles (gloss W) := {|
  aegir_env_get name sz := total (-1, []) (Aegir_Env_Get name sz);
  aegir_env_set name value := total (-1) (Aegir_Env_Set name value);
  aegir_env_unset name := total (-1) (Aegir_Env_Unset name)
|}.

Section env.
Context {W : Type} `{!FileServ W}.
Context {files : W -> gmap (list Z) (list Z)} {entries : W -> list Z -> list (list Z)}.
Context {regular_path : list Z -> Prop} `{!FileLaws W files entries regular_path, !WholeWrites W}.

(** The variables: the files below [ENV:]. *)
Definition env_store (s : gloss W) (name : list Z) : option (list Z) :=
  files (g_world s) !! env_path name.
Definition env_name (name : list Z) : Prop := regular_path (env_path name).

Lemma env_path_inj n m : env_path n = env_path m -> n = m.
Proof. unfold env_path. apply app_inv_head. Qed.

Lemma ready_inv (s : gloss W) : ready s -> gloss_inv s.
Proof. by intros [_ H] _. Qed.

Lemma env_get_run name sz s : gloss_inv s -> env_name name -> 0 < sz < env_buf_size ->
  exists s', Aegir_Env_Get name sz s =
    Done match env_store s name with
         | Some (b :: v) => (Z.min sz (Z.of_nat (length (b :: v))), take (Z.to_nat sz) (b :: v))
         | _ => (-1, [])
         end s' /\ ready s' /\ files (g_world s') = files (g_world s).
Proof.
  intros Hi Hn Hsz. unfold Aegir_Env_Get, env_store, env_buf_size in *.
  destruct (ensure_bound_binds (files := files) (entries := entries) s Hi) as (s1 & E1 & Hr1 & _ & _ & _ & Hf1 & _).
  rewrite (bindM_done _ _ _ _ _ E1), (bindM_done _ _ _ _ _ (serv_done _ s1)).
  destruct (open_law W files entries (env_path name) (g_world s1) Hn (proj2 Hr1)) as [Ho Hs].
  rewrite Ho, Hf1. set (s2 := set_world _ s1).
  assert (Hq2 : quiet (files := files) (entries := entries) s2 s1) by (by apply quiet_world).
  assert (Hr2 : ready s2) by (exact (quiet_stays_ready _ _ Hq2 Hr1)).
  assert (Hf2 : files (g_world s2) = files (g_world s)) by (by rewrite (quiet_files _ _ Hq2)).
  destruct (files (g_world s) !! env_path name) as [c|] eqn:Ec; cbn [fst snd]; [|by exists s2].
  change (negb (Status_Ok =? Status_Ok)) with false. cbv iota.
  rewrite (bindM_done _ _ _ _ _ (serv_done _ s2)).
  destruct c as [|x c].
  - change (Z.of_nat (length (@nil Z))) with 0. replace (Z.min 0 sz) with 0 by lia.
    set (s3 := set_world _ s2).
    destruct (read_nothing W files entries (env_path name) 0 (g_world s2)) as [Hr Hs3].
    assert (Hq3 : quiet (files := files) (entries := entries) s3 s2) by (by apply quiet_world).
    rewrite Hr. exists s3. split; [done|]. split; [exact (quiet_stays_ready _ _ Hq3 Hr2)|].
    by rewrite (quiet_files _ _ Hq3).
  - set (n := Z.min _ sz). set (s3 := set_world _ s2).
    assert (Hnr : 0 < n <= sz) by (unfold n; cbn [length]; lia).
    destruct (read_law W files entries (env_path name) 0 n (g_world s2) (x :: c))
      as [Hs3 Hr]; [done | apply Hr2 | by rewrite Hf2 | lia | lia |].
    assert (Hq3 : quiet (files := files) (entries := entries) s3 s2) by (by apply quiet_world).
    rewrite (proj2 (Z.ltb_lt 0 _)) in Hr by (cbn [length]; lia). rewrite Hr. cbn [fst snd].
    change (negb (Status_Ok =? Status_Ok)) with false. rewrite drop_0.
    assert (Hlen : Z.of_nat (length (take (Z.to_nat (Z.min n Buf_Bytes)) (x :: c))) = n).
    { rewrite length_take. unfold n, Buf_Bytes in *. lia. }
    rewrite Hlen, (proj2 (Z.eqb_neq n 0)) by lia. cbn [orb].
    exists s3. split; [|split; [exact (quiet_stays_ready _ _ Hq3 Hr2) | by rewrite (quiet_files _ _ Hq3)]].
    unfold retM. rewrite i32_id by (unfold in_i32; lia). do 2 f_equal; [unfold n; lia|].
    destruct (decide (sz <= Z.of_nat (length (x :: c)))).
    + f_equal. unfold n, Buf_Bytes. lia.
    + rewrite !take_ge; [done | lia | unfold n, Buf_Bytes; lia].
Qed.

Lemma env_set_run name value s : gloss_inv s -> env_name name ->
  exists r s', Aegir_Env_Set name value s = Done r s' /\ ready s' /\
    (r = 0 -> files (g_world s') = <[env_path name := value]> (files (g_world s))) /\
    (r <> 0 -> r = -1 /\ (files (g_world s') = files (g_world s) \/
                          files (g_world s') = <[env_path name := []]> (files (g_world s)))).
Proof.
  intros Hi Hn. unfold Aegir_Env_Set.
  destruct (ensure_bound_binds (files := files) (entries := entries) s Hi) as (s1 & E1 & Hr1 & _ & _ & _ & Hf1 & _).
  rewrite (bindM_done _ _ _ _ _ E1).
  destruct (1024 <? Z.of_nat (length value)) eqn:El.
  { eexists _, _. split; [reflexivity|]. split; [done|]. split; [done|]. cbn. auto. }
  bool_to_prop.
  destruct (rewrite_file (files := files) (entries := entries) (env_path name) value s1)
    as (t & s2 & s3 & E2 & w & E3 & Hk & Hrw); [done | done | unfold Buf_Bytes; lia |].
  rewrite (bindM_done _ _ _ _ _ E2), (bindM_done _ _ _ _ _ E3).
  assert (Hr3 : ready s3) by (exact (kept_ready _ _ Hk Hr1)).
  unfold rewritten in Hrw. rewrite Hf1 in Hrw. destruct Hrw as [[Hst Hf]|[Hst Hf]].
  - rewrite Hst. exists 0, s3. repeat split; (done || apply Hr3).
  - rewrite (proj2 (Z.eqb_neq _ _)) by done. eexists _, _. split; [reflexivity|].
    split; [done|]. split; [done|]. cbn. auto.
Qed.

Lemma env_unset_run name s : gloss_inv s -> env_name name ->
  exists r s', Aegir_Env_Unset name s = Done r s' /\ ready s' /\
    (r = 0 -> files (g_world s') = delete (env_path name) (files (g_world s))).
Proof.
  intros Hi Hn. unfold Aegir_Env_Unset.
  destruct (ensure_bound_binds (files := files) (entries := entries) s Hi) as (s1 & E1 & Hr1 & _ & _ & _ & Hf1 & _).
  rewrite (bindM_done _ _ _ _ _ E1), (bindM_done _ _ _ _ _ (serv_done _ s1)).
  pose proof (delete_law W files entries (env_path name) (g_world s1) Hn (proj2 Hr1)) as H.
  destruct (f_delete (env_path name) (g_world s1)) as [st w]. destruct H as [He H]. cbn [fst snd].
  assert (Hr2 : ready (set_world w s1)) by (split; [apply Hr1 | done]).
  rewrite Hf1 in H. destruct H as [[-> Hf]|(Hst & Hf & Hnf)].
  - exists 0, (set_world w s1). by repeat split; try apply Hr2.
  - rewrite (proj2 (Z.eqb_neq st _)) by done. cbn [negb andb].
    destruct (st =? Status_Not_Found) eqn:E.
    + apply Z.eqb_eq in E. exists 0, (set_world w s1). repeat split; try apply Hr2.
      intros _. cbn [g_world set_world]. by rewrite Hf, delete_id by auto.
    + eexists _, _. split; [reflexivity|]. split; [done|]. done.
Qed.

#[export] Instance gloss_env_laws : EnvLaws (gloss W) gloss_inv env_name env_store.
Proof.
  split.
  - intros name sz s Hi Hn Hsz. cbn [aegir_env_get gloss_env]. unfold total.
    destruct (env_get_run name sz s Hi Hn Hsz) as (s' & E & Hr & Hf). rewrite E. cbn [fst snd].
    split; [done|]. split; [by apply ready_inv|]. intros n. unfold env_store. by rewrite Hf.
  - intros name value s Hi Hn. cbn [aegir_env_set gloss_env]. unfold total.
    destruct (env_set_run name value s Hi Hn) as (r & s' & E & Hr & Hok & _). rewrite E. cbn [fst snd].
    split; [by apply ready_inv|]. intros H0 n. unfold env_store. rewrite Hok by done.
    case_decide; subst; [by rewrite lookup_insert_eq|].
    rewrite lookup_insert_ne; [done|]. by intros ?%env_path_inj.
  - intros name s Hi Hn. cbn [aegir_env_unset gloss_env]. unfold total.
    destruct (env_unset_run name s Hi Hn) as (r & s' & E & Hr & Hok). rewrite E. cbn [fst snd].
    split; [by apply ready_inv|]. intros H0 n. unfold env_store. rewrite Hok by done.
    case_decide; subst; [by rewrite lookup_delete_eq|].
    rewrite lookup_delete_ne; [done|]. by intros ?%env_path_inj.
Qed.

(** A variable cannot be set to the empty string: env.c ignores that the
    file service refuses the empty write, the old value is gone or kept
    depending on the truncation before it, and a variable without characters
    reads as no variable: after [__gnat_setenv (name, "")] no call of
    [__gnat_getenv] delivers an empty string. *)
Theorem setenv_empty_lost (name : list Z) (s : env_state (gloss W)) :
  gloss_inv (env_world s) -> env_name name -> length (env_buf s) = Z.to_nat env_buf_size ->
  (aegir_env_set name [] (env_world s)).1 = -1 /\
  wp (gnat_setenv name []) (fun _ s1 =>
    wp (gnat_getenv name) (fun r _ => r = (0, false) \/
      exists b v, env_store (env_world s) name = Some (b :: v) /\ 0 < r.1) s1) s.
Proof.
  intros Hi Hn Hb. destruct (env_set_run name [] (env_world s) Hi Hn) as (r & s' & E & Hr & Hok & Hko).
  assert (Hr1 : r = -1).
  { revert E. unfold Aegir_Env_Set.
    destruct (ensure_bound_binds (files := files) (entries := entries) (env_world s) Hi) as (s1 & E1 & _).
    rewrite (bindM_done _ _ _ _ _ E1). change (1024 <? Z.of_nat (length (@nil Z))) with false. cbv iota.
    rewrite (bindM_done _ _ _ _ _ (serv_done _ s1)). set (s2 := set_world _ s1).
    rewrite (bindM_done _ _ _ _ _ (serv_done _ s2)). rewrite (write_nothing W files entries).
    cbn. intros H. injection H as H _. by symmetry. }
  subst r. cbn [aegir_env_set gloss_env]. unfold total. rewrite E. split; [done|].
  unfold gnat_setenv, wp at 1. set (s1 := EnvState _ _).
  assert (Hw : env_world s1 = s') by (unfold s1; cbn; unfold total; by rewrite E).
  eapply wp_mono; [|apply (getenv_spec (store := env_store) name s1)].
  - intros x s2 [_ H]. rewrite Hw in H. unfold env_store in *.
    destruct (Hko ltac:(done)) as [_ [Hf|Hf]]; rewrite Hf in H.
    + destruct (files (g_world (env_world s)) !! env_path name) as [[|b v]|]; [by left| |by left].
      right. exists b, v. split; [done|]. destruct H as [-> _]. cbn [fst length]. lia.
    + rewrite lookup_insert_eq in H. by left.
  - done.
  - rewrite Hw. by apply ready_inv.
  - done.
Qed.

End env.

(** ** Witness *)

Definition demo_env : env_state (gloss toy_fs) := EnvState (repeat 0 (Z.to_nat env_buf_size)) demo_gloss.

Lemma setenv_empty_lost_witness :
  (aegir_env_set (bytes "CWD") [] (env_world demo_env)).1 = -1 /\
  wp (gnat_setenv (bytes "CWD") []) (fun _ s1 =>
    wp (gnat_getenv (bytes "CWD")) (fun r _ => r = (0, false) \/
      exists b v, env_store (files := tf_files) demo_gloss (bytes "CWD") = Some (b :: v) /\ 0 < r.1) s1)
    demo_env.
Proof.
  apply (setenv_empty_lost (bytes "CWD") demo_env); [done | exact I | vm_compute; reflexivity].
Defined.
