(* ===== verification/OsLibSpec.v ===== *)
(** * Theorems on files, directories and processes

    adaint.c composed with the system-call layer and a file service that keeps
    its promises: directory walks, opening files, locks, processes. *)
From S2P Require Import Prelude CInt CStr Gloss GlossLaws Posix FileAttr Paths OsLib GlossSpec.

(** ** Directory walks *)

Section walk.
Context {S : Type} `{!Posix S}.

(** [__gnat_readdir] until it answers null; the names in order. *)
Definition read_names (fuel : nat) (dirp : Z) : M S (list (list Z)) :=
  iterM fuel (fun acc : list (list Z) =>
    let* r := gnat_readdir dirp in
    retM (match r with
          | None => inr acc
          | Some (len, buffer) => inl (acc ++ [take (Z.to_nat len) buffer])
          end)) [].

(** The walk that Ada.Directories makes: null if the directory cannot be
    opened. *)
Definition walk (fuel : nat) (name : list Z) : M S (option (list (list Z))) :=
  let* dirp := gnat_opendir name in
  if dirp =? 0 then retM None else
  let* l := read_names fuel dirp in
  gnat_closedir dirp;; retM (Some l).

End walk.

Section gloss.
Context {W : Type} `{!FileServ W, !Newlib W}.
Context {files : W -> gmap (list Z) (list Z)} {entries : W -> list Z -> list (list Z)}.
Context {regular_path : list Z -> Prop} `{!FileLaws W files entries regular_path}.
Notation same := (same_fs files entries).

(** Slot [i] of the directory table is reading directory [p] and stands at
    entry [k]; the other slots are those of [dirs]. *)
Definition at_entry (dirs : list Dir_Rec) (i : nat) (p : list Z) (k : nat) (l : list (list Z))
    (s : gloss W) : Prop :=
  ready s /\ entries (g_world s) p = l /\ (i < length dirs)%nat /\
  g_dirs s = <[i := DirRec true p (Z.of_nat k)]> dirs.

(** Names a directory entry can hold. *)
Definition entry_name (e : list Z) : Prop := e <> [] /\ Forall name_char e.

Lemma at_entry_read dirs i p k l s :
  at_entry dirs i p k l s -> Z.of_nat i < 2 ^ 31 - 1 -> Forall entry_name l ->
  Z.of_nat (length l) < 2 ^ 63 ->
  match l !! k with
  | Some e => exists s', gnat_readdir (Z.of_nat i + 1) s =
        Done (Some (Z.of_nat (length (take 24 e)), take 24 e ++ [0])) s' /\
      at_entry dirs i p (S k) l s' /\ g_fds s' = g_fds s /\ files (g_world s') = files (g_world s)
  | None => exists s', gnat_readdir (Z.of_nat i + 1) s = Done None s' /\
      at_entry dirs i p k l s' /\ g_fds s' = g_fds s /\ files (g_world s') = files (g_world s)
  end.
Proof.
  intros (Hr & He & Hi & Hd) Hi31 Hl Hlen. unfold gnat_readdir. cbn [px_readdir gloss_posix].
  assert (Hslot : i32 (i32 (Z.of_nat i + 1) - 1) = Z.of_nat i).
  { rewrite (i32_id (Z.of_nat i + 1)) by (unfold in_i32; lia).
    rewrite i32_id; [lia|]. unfold in_i32. lia. }
  rewrite Hslot. clear Hslot.
  assert (Hrun : aegir_readdir (Z.of_nat i) AKERNEL_DIRENT_BUFSZ s =
    (let* a := Read_Dir p (Z.of_nat k) 256 in
     let ent := snd a in let ent_l := Z.of_nat (length ent) in
     if negb (fst a =? Status_Ok) || (ent_l =? 0) || (AKERNEL_DIRENT_BUFSZ <? ent_l + 1)
     then retM (-1, [])
     else set_dir (Z.of_nat i + 1) (DirRec true p (u64 (Z.of_nat k + 1)));; retM (i32 ent_l, ent ++ [0])) s).
  { unfold aegir_readdir. rewrite (bindM_done _ _ s (g_dirs s) s) by done.
    rewrite Hd, length_insert, (proj2 (Z.ltb_ge _ _)), (proj2 (Z.leb_gt _ _)) by lia.
    cbn [orb]. rewrite Nat2Z.id, list_lookup_insert_eq by done. done. }
  destruct (readdir_law W files entries p (Z.of_nat k) (g_world s) (proj2 Hr) ltac:(lia)) as [Ha Hs].
  rewrite He, Nat2Z.id in Ha.
  set (s1 := set_world (f_readdir p (Z.of_nat k) (g_world s)).2 s).
  assert (Hq : quiet (files := files) (entries := entries) s1 s) by (by apply quiet_world).
  assert (Hr1 : ready s1) by exact (quiet_stays_ready _ _ Hq Hr).
  assert (He1 : entries (g_world s1) p = l) by (destruct Hs as (_ & _ & Hs); unfold s1; cbn; by rewrite Hs).
  assert (Hat1 : at_entry dirs i p k l s1) by (by repeat split; try apply Hr1).
  assert (Hserv : serv (f_readdir p (Z.of_nat k)) s = Done (f_readdir p (Z.of_nat k) (g_world s)).1 s1)
    by apply serv_done.
  rewrite Ha in Hserv.
  assert (Hdir : Read_Dir p (Z.of_nat k) 256 s = Done (match l !! k with
      | Some e => (Status_Ok, take 24 e) | None => (Status_Not_Found, []) end) s1).
  { unfold Read_Dir. rewrite (bindM_done _ _ _ _ _ Hserv). destruct (l !! k) as [e|] eqn:Ek; [|done].
    pose proof (proj1 (Forall_lookup _ _) Hl _ _ Ek) as [_ Hc]. unfold retM. cbn [fst snd].
    by rewrite Z.eqb_refl, read_name_words by done. }
  clear Hserv. destruct (l !! k) as [e'|] eqn:Ek.
  - pose proof (proj1 (Forall_lookup _ _) Hl _ _ Ek) as [Hne _].
    assert (Hle : (0 < length (take 24 e') <= 24)%nat) by (rewrite length_take; destruct e'; [done | cbn [length]; lia]).
    apply lookup_lt_Some in Ek. set (e := take 24 e') in *.
    set (s2 := set_dirs (<[i := DirRec true p (Z.of_nat (S k))]> (g_dirs s1)) s1).
    exists s2. split; [|split; [|split; [done|by apply quiet_files in Hq]]].
    + rewrite (bindM_done _ _ s (Z.of_nat (length e), e ++ [0]) s2);
        [cbn [fst]; by rewrite (proj2 (Z.ltb_ge _ _)) by lia|].
      rewrite Hrun, (bindM_done _ _ _ _ _ Hdir). cbn [fst snd].
      change (negb (Status_Ok =? Status_Ok)) with false.
      rewrite (proj2 (Z.eqb_neq _ 0)) by lia.
      rewrite (proj2 (Z.ltb_ge _ _)) by (unfold AKERNEL_DIRENT_BUFSZ; lia). cbn [orb].
      unfold set_dir, bindM, modifyM, retM. rewrite i32_id by (unfold in_i32; lia).
      f_equal. unfold s2. f_equal.
      replace (Z.to_nat (Z.of_nat i + 1 - 1)) with i by lia. do 2 f_equal.
      rewrite u64_id by (unfold in_u64; lia). lia.
    + repeat split; try apply Hr1; [done | done |]. unfold s2. cbn [g_dirs set_dirs].
      change (g_dirs s1) with (g_dirs s). rewrite Hd. apply list_insert_insert_eq.
  - exists s1. split; [|split; [done|split; [done|by apply quiet_files in Hq]]].
    rewrite (bindM_done _ _ s (-1, []) s1); [done|].
    rewrite Hrun, (bindM_done _ _ _ _ _ Hdir). done.
Qed.

Lemma read_names_spec dirs i p l s fuel :
  at_entry dirs i p 0 l s -> Z.of_nat i < 2 ^ 31 - 1 -> Forall entry_name l ->
  Z.of_nat (length l) < 2 ^ 63 -> (length l < fuel)%nat ->
  wp (read_names fuel (Z.of_nat i + 1)) (fun r s' =>
    r = (take 24 <$> l) /\ (exists k, at_entry dirs i p k l s') /\ g_fds s' = g_fds s /\
    files (g_world s') = files (g_world s)) s.
Proof.
  intros Hat Hi Hl Hlen Hfuel. unfold read_names.
  apply (iter_terminates _
    (fun acc s' => exists k, (k <= length l)%nat /\ acc = (take 24 <$> take k l) /\ at_entry dirs i p k l s' /\
       g_fds s' = g_fds s /\ files (g_world s') = files (g_world s))
    _ (fun acc _ => length l - length acc)%nat); [|exists 0%nat; split; [lia|]; by split|cbn; lia].
  intros acc s1 (k & Hk & -> & Hat1 & Hf1 & Hfi1).
  pose proof (at_entry_read dirs i p k l s1 Hat1 Hi Hl Hlen) as H.
  destruct (l !! k) as [e|] eqn:Ek; destruct H as (s2 & E & Hat2 & Hf2 & Hfi2); unfold wp;
    rewrite (bindM_done _ _ _ _ _ E); unfold retM.
  - pose proof (lookup_lt_Some _ _ _ Ek). rewrite Nat2Z.id, take_app_length. split.
    + exists (S k). split; [lia|]. split; [by rewrite (take_S_r _ _ _ Ek), fmap_app|]. split; [done|]. split; congruence.
    + rewrite length_app, !length_fmap, !length_take. cbn. lia.
  - apply lookup_ge_None in Ek. split; [by rewrite take_ge|]. split; [by exists k|]. split; congruence.
Qed.

(** Opening a directory takes a slot that is not in use, or adds one. *)
Lemma first_free_spec {A} (used : A -> bool) l : forall j,
  match first_free used l j with
  | Some i => exists n x, i = j + Z.of_nat n /\ l !! n = Some x /\ used x = false
  | None => Forall (fun x => used x = true) l
  end.
Proof.
  induction l as [|x l IH]; intros j; cbn [first_free]; [constructor|].
  destruct (used x) eqn:E.
  - specialize (IH (j + 1)). destruct (first_free used l (j + 1)).
    + destruct IH as (n & y & -> & H). exists (S n), y. split; [lia | done].
    + by constructor.
  - exists 0%nat, x. split; [lia | done].
Qed.

(** A slot is taken: its walk stands at the first entry. *)
Lemma take_slot (i : nat) p (s : gloss W) : ready s -> (i < length (g_dirs s))%nat ->
  Z.of_nat i < 2 ^ 31 - 1 ->
  exists s', (set_dir (Z.of_nat i + 1) (DirRec true p 0);; retM (i32 (Z.of_nat i + 1 - 1))) s =
      Done (Z.of_nat i) s' /\ at_entry (g_dirs s) i p 0 (entries (g_world s) p) s' /\
    g_fds s' = g_fds s /\ g_world s' = g_world s.
Proof.
  intros Hr Hi Hb. exists (set_dirs (<[i := DirRec true p 0]> (g_dirs s)) s). split; [|by repeat split; try apply Hr].
  unfold set_dir, bindM, modifyM, retM. rewrite i32_id by (unfold in_i32; lia).
  f_equal; [lia|]. do 2 f_equal. lia.
Qed.

Lemma opendir_spec name s :
  regular_path path_cwd -> ready s -> Z.of_nat (length (g_dirs s)) < 2 ^ 31 - 1 ->
  let p := qualified (files (g_world s)) name in
  let l := entries (g_world s) p in
  exists r s', gnat_opendir name s = Done r s' /\ g_fds s' = g_fds s /\
    files (g_world s') = files (g_world s) /\
    ((r = 0 /\ g_dirs s' = g_dirs s /\
      (p = [] \/ 256 < Z.of_nat (length p) \/
       Forall (fun d => DUsed d = true) (g_dirs s) /\
       arena_refused files entries (g_world s') (g_world s))) \/
     exists i dirs, r = Z.of_nat i + 1 /\ Z.of_nat i < 2 ^ 31 - 1 /\ at_entry dirs i p 0 l s' /\
       (dirs = g_dirs s /\ (exists d, dirs !! i = Some d /\ DUsed d = false) \/
        dirs = g_dirs s ++ [zero_dir] /\ i = length (g_dirs s))).
Proof.
  intros Hreg Hr Hlen p l. unfold gnat_opendir. cbn [px_opendir gloss_posix].
  destruct (qualify_spec name s Hreg Hr) as (s1 & E1 & Hq1). fold p in E1.
  assert (Hr1 : ready s1) by exact (quiet_stays_ready _ _ Hq1 Hr).
  destruct (Hq1) as (_ & _ & Hfd1 & Hd1 & _ & Hf1 & He1).
  assert (Hrun : aegir_opendir name s =
    (if (Z.of_nat (length p) =? 0) || (256 <? Z.of_nat (length p)) then retM (-1) else
     match first_free DUsed (g_dirs s) 1 with
     | Some i => set_dir i (DirRec true p 0);; retM (i32 (i - 1))
     | None =>
       let* slot := dir_append in
       if slot =? 0 then retM (-1)
       else set_dir slot (DirRec true p 0);; retM (i32 (slot - 1))
     end) s1).
  { unfold aegir_opendir. rewrite (bindM_done _ _ _ _ _ E1).
    rewrite (bindM_done _ _ _ _ _ (ensure_bound_ready s1 Hr1)).
    destruct (_ || _); [done|]. rewrite (bindM_done _ _ s1 (g_dirs s1) s1) by done. by rewrite Hd1. }
  destruct ((Z.of_nat (length p) =? 0) || (256 <? Z.of_nat (length p))) eqn:Ep.
  { exists 0, s1. rewrite (bindM_done _ _ s (-1) s1) by (by rewrite Hrun).
    split; [done|]. split; [done|]. split; [done|]. left. split; [done|]. split; [done|].
    apply orb_true_iff in Ep as [Ep|Ep]; bool_to_prop; [left; by destruct p | auto]. }
  pose proof (first_free_spec DUsed (g_dirs s) 1) as Hfree.
  destruct (first_free DUsed (g_dirs s) 1) as [j|].
  - destruct Hfree as (i & d & -> & Hi & Hu). pose proof (lookup_lt_Some _ _ _ Hi) as Hil.
    destruct (take_slot i p s1 Hr1) as (s2 & E2 & Hat & Hfd2 & Hw2); [by rewrite Hd1 | lia |].
    exists (Z.of_nat i + 1), s2. rewrite (Z.add_comm 1) in Hrun. rewrite E2 in Hrun.
    rewrite (bindM_done _ _ _ _ _ Hrun), (proj2 (Z.ltb_ge _ _)) by lia.
    split; [done|]. split; [congruence|]. split; [congruence|]. right.
    exists i, (g_dirs s). split; [done|]. split; [lia|]. split; [|by eauto].
    unfold l. by rewrite <- Hd1, <- He1.
  - destruct (arena_law W files entries (g_world s1)) as (Ha1 & Ha2 & Ha3).
    set (s2 := set_world (arena_grow (g_world s1)).2 s1).
    assert (Hr2 : ready s2) by (split; [apply Hr1 | cbn; rewrite Ha1; apply Hr1]).
    unfold dir_append in Hrun. unfold bindM at 1 in Hrun.
    rewrite (bindM_done _ _ _ _ _ (serv_done _ s1)) in Hrun.
    destruct (arena_grow (g_world s1)).1 eqn:Eg.
    + set (s3 := set_dirs (g_dirs s ++ [zero_dir]) s2). set (i := length (g_dirs s)).
      destruct (take_slot i p s3 Hr2) as (s4 & E4 & Hat & Hfd4 & Hw4);
        [cbn; rewrite length_app; unfold i; cbn; lia | unfold i; lia |].
      exists (Z.of_nat i + 1), s4.
      assert (Hrun' : aegir_opendir name s = Done (Z.of_nat i) s4).
      { rewrite Hrun, <- E4. change (g_dirs s2) with (g_dirs s1) in *. unfold bindM, getsM, modifyM, retM.
        cbn [g_dirs set_world]. rewrite Hd1, (proj2 (Z.eqb_neq _ 0)) by lia. done. }
      rewrite (bindM_done _ _ _ _ _ Hrun'), (proj2 (Z.ltb_ge _ _)) by lia.
      split; [done|]. split; [rewrite Hfd4; exact Hfd1|]. split; [rewrite Hw4; cbn; congruence|]. right.
      exists i, (g_dirs s ++ [zero_dir]). split; [done|]. split; [unfold i; lia|]. split; [|by right].
      unfold l. rewrite <- He1, <- Ha3. exact Hat.
    + exists 0, s2. rewrite (bindM_done _ _ s (-1) s2) by (by rewrite Hrun).
      split; [done|]. split; [done|]. split; [cbn; congruence|]. left.
      split; [done|]. split; [done|]. right; right. split; [done|]. exists (g_world s1). split; [|done].
      unfold quiet in Hq1. tauto.
Qed.

(** C25. A directory walk delivers the directory: [__gnat_opendir], calls of
    [__gnat_readdir] until it answers null, and [__gnat_closedir] return the
    first 24 characters of the name of every entry the file service has, in its
    order (the reply of the protocol holds no more of a name), for every
    directory whose entry names are not empty and have no NUL; the walk ends
    after one call more than there are entries.  The slot it used is free
    again, other open walks are where they were, and nothing in the file system
    has changed.  The walk is not opened only for a name that is empty or
    longer than 256 bytes, or when every slot is in use and the arena refused
    to grow the table. *)
Theorem dir_walk_lists (name : list Z) (fuel : nat) (s : gloss W) :
  regular_path path_cwd -> ready s -> Z.of_nat (length (g_dirs s)) < 2 ^ 31 - 1 ->
  let p := qualified (files (g_world s)) name in
  let l := entries (g_world s) p in
  Forall entry_name l -> Z.of_nat (length l) < 2 ^ 63 -> (length l < fuel)%nat ->
  wp (walk fuel name) (fun r s' =>
    (r = Some (take 24 <$> l) \/
     r = None /\ (p = [] \/ 256 < Z.of_nat (length p) \/
                  Forall (fun d => DUsed d = true) (g_dirs s) /\
                  arena_refused files entries (g_world s') (g_world s))) /\
    (forall i d, DUsed d = true -> g_dirs s' !! i = Some d <-> g_dirs s !! i = Some d) /\
    g_fds s' = g_fds s /\ files (g_world s') = files (g_world s)) s.
Proof.
  intros Hreg Hr Hlen p l Hl Hl63 Hfuel. unfold walk.
  destruct (opendir_spec name s Hreg Hr Hlen) as (r & s1 & E1 & Hfd1 & Hf1 & H). fold p l in H.
  apply wp_bind. unfold wp at 1. rewrite E1. destruct H as [(-> & Hd & Hwhy)|H].
  { cbn. split; [by right|]. split; [by rewrite Hd | done]. }
  destruct H as (i & dirs & -> & Hi & Hat & Hslot).
  rewrite (proj2 (Z.eqb_neq _ 0)) by lia. apply wp_bind.
  eapply wp_mono; [|by apply (read_names_spec dirs i p l s1 fuel)].
  intros x s2 (-> & (k & Hr2 & _ & Hil & Hd2) & Hfd2 & Hf2).
  unfold wp, gnat_closedir. cbn [px_closedir gloss_posix].
  rewrite (i32_id (Z.of_nat i + 1)) by (unfold in_i32; lia).
  rewrite i32_id by (unfold in_i32; lia). replace (Z.of_nat i + 1 - 1) with (Z.of_nat i) by lia.
  unfold aegir_closedir, bindM, getsM, modifyM, retM. rewrite Hd2, length_insert.
  rewrite (proj2 (Z.ltb_ge _ 0)), (proj2 (Z.leb_gt _ _)) by lia. cbn [orb g_fds g_dirs g_world set_dirs].
  split; [by left|]. split; [|split; congruence]. rewrite Nat2Z.id.
  intros j d Hdu. rewrite ?Hd2, list_lookup_alter_decide. destruct (decide (i = j)) as [<-|Hij].
  - rewrite list_lookup_insert_eq by done. cbn. split; [by intros [= <-]|]. intros Hj.
    destruct Hslot as [(-> & d' & Hd' & Hu')|(-> & ->)]; [congruence|].
    apply lookup_lt_Some in Hj. lia.
  - rewrite list_lookup_insert_ne by done.
    destruct Hslot as [(-> & _)|(-> & ->)]; [done|].
    destruct (decide (j < length (g_dirs s))%nat); [by rewrite lookup_app_l by lia|].
    rewrite lookup_app_r by lia. rewrite (lookup_ge_None_2 (g_dirs s)) by lia.
    split; [|done]. destruct (j - length (g_dirs s))%nat eqn:E; [lia|]. done.
Qed.

End gloss.

(** ** Witness *)

(** A drawer with a short and a long name. *)
Definition long_gloss : gloss toy_fs :=
  GlossSt 0 true [] [] (ToyFs true (tf_files demo_fs)
    (<[bytes "Sys:L" := [bytes "List"; bytes "abcdefghijklmnopqrstuvwxyz"]]> (tf_dirs demo_fs)) []).

Lemma dir_walk_lists_witness :
  let p := qualified (tf_files (g_world long_gloss)) (bytes "Sys:L") in
  let l := tf_entries (g_world long_gloss) p in
  (walk 3 (bytes "Sys:L") long_gloss =
     Done (Some [bytes "List"; bytes "abcdefghijklmnopqrstuvwx"])
       (set_dirs [DirRec false (bytes "Sys:L") 2] long_gloss)) /\
  wp (walk 3 (bytes "Sys:L")) (fun r s' =>
    (r = Some (take 24 <$> l) \/
     r = None /\ (p = [] \/ 256 < Z.of_nat (length p) \/
                  Forall (fun d => DUsed d = true) (g_dirs long_gloss) /\
                  arena_refused tf_files tf_entries (g_world s') (g_world long_gloss))) /\
    (forall i d, DUsed d = true -> g_dirs s' !! i = Some d <-> g_dirs long_gloss !! i = Some d) /\
    g_fds s' = g_fds long_gloss /\ tf_files (g_world s') = tf_files (g_world long_gloss)) long_gloss.
Proof.
  split; [vm_compute; reflexivity|].
  refine (dir_walk_lists (bytes "Sys:L") 3 long_gloss I _ _ _ _ _).
  - by split.
  - reflexivity.
  - vm_compute. repeat constructor; discriminate.
  - vm_compute. reflexivity.
  - apply Nat.ltb_lt. vm_compute. reflexivity.
Defined.
