(* ===== verification/GlossFd.v ===== *)
(** * Theorems on descriptors

    [open], [read], [write], [lseek] and [close] of [Aegir_User.Gloss], and the
    ways adaint.c opens files. *)
From S2P Require Import Prelude CInt CStr Gloss GlossLaws Posix FileAttr Paths OsLib GlossSpec OsLibSpec.

Section fd.
Context {W : Type} `{!FileServ W, !Newlib W}.
Context {files : W -> gmap (list Z) (list Z)} {entries : W -> list Z -> list (list Z)}.
Context {regular_path : list Z -> Prop} `{!FileLaws W files entries regular_path}.

(** Tables and binding are kept; errno and the files may differ. *)
Definition held (s' s : gloss W) : Prop :=
  g_bound s' = g_bound s /\ g_fds s' = g_fds s /\ g_dirs s' = g_dirs s /\
  f_endpoint (g_world s') = f_endpoint (g_world s).

Lemma held_trans s1 s2 s3 : held s2 s1 -> held s3 s2 -> held s3 s1.
Proof. unfold held. intuition congruence. Qed.
Lemma held_refl s : held s s.
Proof. by repeat split. Qed.
Lemma held_ready s' s : held s' s -> ready s -> ready s'.
Proof. unfold held, ready. intuition congruence. Qed.
Lemma quiet_held s' s : quiet (files := files) (entries := entries) s' s -> held s' s.
Proof. unfold quiet, held, same_fs. tauto. Qed.
Lemma world_held w s : f_endpoint w = f_endpoint (g_world s) -> held (set_world w s) s.
Proof. by repeat split. Qed.
Lemma fail_held {A} e (r : A) s : exists s', fail_with e r s = Done r s' /\ held s' s /\
  g_errno s' = e /\ g_world s' = g_world s.
Proof. eexists. split; [reflexivity|]. by repeat split. Qed.

(** ** Allocation of a slot *)

(** The descriptor table grew by unused slots. *)
Definition grown (s' s : gloss W) : Prop :=
  g_errno s' = g_errno s /\ g_bound s' = g_bound s /\ g_dirs s' = g_dirs s /\
  same_fs files entries (g_world s') (g_world s) /\
  exists n, g_fds s' = g_fds s ++ repeat zero_fd n.

Lemma grown_refl s : grown s s.
Proof. repeat split. exists 0%nat. by rewrite app_nil_r. Qed.

Lemma grown_trans s1 s2 s3 : grown s2 s1 -> grown s3 s2 -> grown s3 s1.
Proof.
  intros (A1 & A2 & A3 & H1 & n & H2) (B1 & B2 & B3 & H3 & m & H4).
  split; [congruence|]. split; [congruence|]. split; [congruence|].
  split; [unfold same_fs in *; intuition congruence|].
  exists (n + m)%nat. by rewrite H4, H2, <- app_assoc, repeat_app.
Qed.

(** The last thing that happened is that the arena had no room. *)
Definition no_room (s' s : gloss W) : Prop :=
  arena_refused files entries (g_world s') (g_world s).

Lemma no_room_grown s1 s2 s3 : grown s2 s1 -> no_room s3 s2 -> no_room s3 s1.
Proof. intros (_ & _ & _ & Hs & _) (w & Hw & H). exists w. split; [unfold same_fs in *; intuition congruence|done]. Qed.

Lemma fd_append_spec s :
  exists r s', fd_append s = Done r s' /\ grown s' s /\
    (r = 0 /\ g_fds s' = g_fds s /\ no_room s' s \/
     r = Z.of_nat (length (g_fds s)) + 1 /\ g_fds s' = g_fds s ++ [zero_fd]).
Proof.
  unfold fd_append. rewrite (bindM_done _ _ _ _ _ (serv_done _ s)).
  pose proof (arena_law W files entries (g_world s)) as Ha.
  destruct (arena_grow (g_world s)).1 eqn:Eg.
  - eexists _, _. split; [reflexivity|]. split; [|by right].
    split; [done|]. split; [done|]. split; [done|]. split; [done|]. by exists 1%nat.
  - eexists _, _. split; [reflexivity|]. split; [|left; split_and!; [done..|by exists (g_world s)]].
    split; [done|]. split; [done|]. split; [done|]. split; [done|].
    exists 0%nat. cbn. by rewrite app_nil_r.
Qed.

Lemma pad_slots_spec n : forall s,
  exists r s', pad_slots n s = Done r s' /\ grown s' s /\
    (length (g_fds s') <= Nat.max 2 (length (g_fds s)))%nat /\ (r = false -> no_room s' s) /\
    (r = true -> (length (g_fds s) + n >= 2)%nat -> (2 <= length (g_fds s'))%nat).
Proof.
  induction n as [|n IH]; intros s; cbn [pad_slots];
    rewrite (bindM_done _ _ s (g_fds s) s) by done; unfold First_File_FD;
    destruct (Z.of_nat (length (g_fds s)) <? 3 - 1) eqn:E; bool_to_prop.
  - exists true, s. split; [done|]. split; [apply grown_refl|]. split_and!; [lia|done|lia].
  - exists true, s. split; [done|]. split; [apply grown_refl|]. split_and!; [lia|done|lia].
  - destruct (fd_append_spec s) as (r & s1 & E1 & Hg & Hr). rewrite (bindM_done _ _ _ _ _ E1).
    destruct Hr as [(-> & Hf & Hn)|[-> Hf]].
    + exists false, s1. split; [done|]. split; [done|]. split_and!; [|done|done].
      rewrite Hf. lia.
    + rewrite (proj2 (Z.eqb_neq _ 0)) by lia. destruct (IH s1) as (r & s2 & E2 & Hg2 & Hm & Hn & H2).
      rewrite Hf, length_app in Hm, H2. cbn in Hm, H2.
      exists r, s2. split; [done|]. split; [by eapply grown_trans|]. split; [lia|].
      split; [intros Hr; by eapply no_room_grown, Hn|]. intros Hr Hl. apply H2; [done|]. lia.
  - exists true, s. split; [done|]. split; [apply grown_refl|]. split_and!; [lia|done|lia].
Qed.

(** Slot [i] of the table is free. *)
Definition free_slot (s : gloss W) (i : Z) : Prop :=
  3 <= i <= Z.of_nat (length (g_fds s)) /\
  exists f, g_fds s !! Z.to_nat (i - 1) = Some f /\ Used f = false.

Lemma find_slot_spec s :
  exists i s', find_slot s = Done i s' /\ grown s' s /\
    (i = 0 /\ Forall (fun f => Used f = true) (drop 2 (g_fds s)) /\ no_room s' s \/
     free_slot s' i /\ i <= Z.max 3 (Z.of_nat (length (g_fds s)) + 1)).
Proof.
  unfold find_slot. rewrite (bindM_done _ _ s (g_fds s) s) by done.
  pose proof (first_free_spec Used (drop 2 (g_fds s)) First_File_FD) as Hf.
  destruct (first_free Used (drop 2 (g_fds s)) First_File_FD) as [j|].
  - destruct Hf as (n & x & -> & Hx & Hu). rewrite lookup_drop in Hx.
    pose proof (lookup_lt_Some _ _ _ Hx). exists (First_File_FD + Z.of_nat n), s.
    split; [done|]. split; [apply grown_refl|]. right. unfold First_File_FD. split; [|lia]. split; [lia|].
    exists x. split; [|done]. by replace (Z.to_nat (3 + Z.of_nat n - 1)) with (2 + n)%nat by lia.
  - destruct (pad_slots_spec 2 s) as (ok & s1 & E1 & Hg1 & Hm & Hn & H1). rewrite (bindM_done _ _ _ _ _ E1).
    destruct ok.
    + destruct (fd_append_spec s1) as (r & s2 & E2 & Hg2 & Hr). exists r, s2.
      split; [done|]. split; [by eapply grown_trans|]. destruct Hr as [(-> & _ & Hr)|[-> Hfd]]; [left; split_and!; [done..|by eapply no_room_grown]|].
      right. specialize (H1 eq_refl ltac:(lia)). split; [|lia]. unfold free_slot. rewrite Hfd. split; [rewrite length_app; cbn; lia|].
      exists zero_fd. split; [|done].
      replace (Z.to_nat _) with (length (g_fds s1)) by lia.
      by rewrite lookup_app_r, Nat.sub_diag by lia.
    + exists 0, s1. split; [done|]. split; [done|]. left. split_and!; [done..|by apply Hn].
Qed.

(** Open descriptors survive the growth of the table. *)
Lemma grown_entry s' s fd f : grown s' s -> 1 <= fd -> fd_entry s' fd = Some f <-> fd_entry s fd = Some f.
Proof.
  intros (_ & _ & _ & _ & n & Hf) Hfd. unfold fd_entry. rewrite Hf, length_app, repeat_length.
  destruct (decide (fd <= Z.of_nat (length (g_fds s)))).
  - rewrite !(proj2 (Z.ltb_ge _ _)) by lia. by rewrite lookup_app_l by lia.
  - rewrite (proj2 (Z.ltb_lt (Z.of_nat (length (g_fds s))) _)) by lia.
    case_match; [done|]. rewrite lookup_app_r by lia.
    destruct (repeat zero_fd n !! _) as [x|] eqn:E; [|done].
    apply list_elem_of_lookup_2 in E. apply list_elem_of_In, repeat_spec in E. by subst x.
Qed.

(** ** Opening *)

(** The last thing that happened is that the service refused the write that
    creates the file, or the truncation behind it. *)
Definition create_refused (p : list Z) (s' s : gloss W) : Prop :=
  exists w, same_fs files entries w (g_world s) /\
    let '((st, n), w1) := f_write p 0 [0] w in
    (st <> Status_Ok /\ g_errno s' = create_errno st /\ g_world s' = w1) \/
    (st = Status_Ok /\ (f_truncate p w1).1 <> Status_Ok /\ g_errno s' = create_errno (f_truncate p w1).1 /\
     g_world s' = (f_truncate p w1).2).

Lemma create_refused_same p s' s1 s :
  create_refused p s' s1 -> same_fs files entries (g_world s1) (g_world s) -> create_refused p s' s.
Proof. intros (w & Hw & H) Hs. exists w. split; [unfold same_fs in *; intuition congruence|done]. Qed.

Lemma create_file_spec p s : regular_path p -> ready s -> files (g_world s) !! p = None ->
  exists o s', create_file p s = Done o s' /\ held s' s /\
    match o with
    | Some r => r = (Status_Ok, 0) /\ files (g_world s') = <[p := []]> (files (g_world s))
    | None => create_refused p s' s /\
              delete p (files (g_world s')) = delete p (files (g_world s))
    end.
Proof.
  intros Hreg Hr Hnone. unfold create_file.
  pose proof (write_law W files entries p 0 [0] (g_world s) Hreg (proj2 Hr) ltac:(done) ltac:(lia)) as Hw.
  rewrite (bindM_done _ _ _ _ _ (serv_done _ s)). rewrite Hnone in Hw. cbn [default from_option id] in Hw.
  destruct (f_write p 0 [0] (g_world s)) as [[st n] w1] eqn:Ew. destruct Hw as [He1 Hw]. cbn [fst snd].
  set (s1 := set_world w1 s).
  assert (Hh1 : held s1 s) by (apply world_held; rewrite He1; symmetry; apply Hr).
  destruct Hw as [(-> & _ & Hf1)|(Hst & Hf1)].
  2: { rewrite (proj2 (Z.eqb_neq st _)) by done. cbn [negb].
       destruct (fail_held (create_errno st) (@None (Z * Z)) s1) as (s2 & E2 & Hh2 & He2 & Hw2).
       exists None, s2. split; [done|]. split; [by eapply held_trans|].
       split; [exists (g_world s); rewrite Ew; split; [done|by left]|]. rewrite Hw2. unfold s1. cbn. by rewrite Hf1. }
  change (negb (Status_Ok =? Status_Ok)) with false. cbv iota.
  rewrite (bindM_done _ _ _ _ _ (serv_done _ s1)).
  pose proof (truncate_law W files entries p (g_world s1) Hreg He1) as Ht.
  destruct (f_truncate p (g_world s1)) as [t w2] eqn:Etr. destruct Ht as [He2 Ht]. cbn [fst snd].
  set (s2 := set_world w2 s1).
  assert (Hh2 : held s2 s) by (eapply held_trans; [exact Hh1|]; apply world_held; cbn; congruence).
  change (g_world s1) with w1 in *. rewrite Hf1 in Ht.
  destruct Ht as [(-> & _ & Hf2)|(Hst & Hf2)].
  2: { rewrite (proj2 (Z.eqb_neq t _)) by done. cbn [negb].
       destruct (fail_held (create_errno t) (@None (Z * Z)) s2) as (s3 & E3 & Hh3 & He3 & Hw3).
       exists None, s3. split; [done|]. split; [by eapply held_trans|].
       split; [exists (g_world s); rewrite Ew; split; [done|]; right; change (g_world s1) with w1 in Etr; rewrite Etr; by split_and!|].
       rewrite Hw3. unfold s2. cbn.
       by rewrite Hf2, delete_insert_eq. }
  change (negb (Status_Ok =? Status_Ok)) with false. cbv iota.
  rewrite insert_insert_eq in Hf2.
  rewrite (bindM_done _ _ _ _ _ (serv_done _ s2)).
  destruct (open_law W files entries p (g_world s2) Hreg He2) as [Ho Hs].
  eexists _, _. split; [reflexivity|].
  change (g_world s2) with w2 in *. rewrite Ho, Hf2, lookup_insert_eq.
  split; [eapply held_trans; [exact Hh2|]; by apply world_held, Hs|].
  split; [done|]. cbn. destruct Hs as (_ & Hs & _). by rewrite Hs.
Qed.

(** What an open descriptor of a new file entry looks like. *)
Definition opened (flags : Z) (p c : list Z) : FD_Rec :=
  Fd_Rec true (negb (Z.land (u32 flags) O_ACCMODE =? O_WRONLY)) (flag flags O_ACCMODE)
    (if flag flags O_APPEND then Z.of_nat (length c) else 0) (Z.of_nat (length c)) p.

Definition truncates (flags : Z) : bool := flag flags O_TRUNC && flag flags O_ACCMODE.

(** The last thing that happened is that the service refused to truncate the
    file. *)
Definition no_truncate (p : list Z) (s' s : gloss W) : Prop :=
  exists w, same_fs files entries w (g_world s) /\ (f_truncate p w).1 <> Status_Ok /\ g_world s' = (f_truncate p w).2.

Lemma no_truncate_same p s' s1 s :
  no_truncate p s' s1 -> same_fs files entries (g_world s1) (g_world s) -> no_truncate p s' s.
Proof. intros (w & Hw & H) Hs. exists w. split; [|done]. unfold same_fs in *. intuition congruence. Qed.

Lemma set_fd_entry s i f : 1 <= i -> free_slot s i \/ is_Some (g_fds s !! Z.to_nat (i - 1)) ->
  Used f = true ->
  exists s', set_fd i f s = Done tt s' /\ g_world s' = g_world s /\ g_errno s' = g_errno s /\
    g_bound s' = g_bound s /\ g_dirs s' = g_dirs s /\
    length (g_fds s') = length (g_fds s) /\ fd_entry s' i = Some f /\
    forall j g, 1 <= j -> j <> i -> fd_entry s' j = Some g <-> fd_entry s j = Some g.
Proof.
  intros Hi Hslot Hu.
  assert (Hl : (Z.to_nat (i - 1) < length (g_fds s))%nat).
  { destruct Hslot as [[? _]|[x Hx]]; [lia | by apply lookup_lt_Some in Hx]. }
  eexists. split; [reflexivity|]. split; [done|]. split; [done|]. split; [done|]. split; [done|].
  split; [apply length_insert|]. split.
  - unfold fd_entry. cbn [g_fds set_fds]. rewrite length_insert, (proj2 (Z.ltb_ge _ _)) by lia.
    rewrite list_lookup_insert_eq by done. cbn [mbind option_bind]. by rewrite Hu.
  - intros j g Hj Hne. unfold fd_entry. cbn [g_fds set_fds]. rewrite length_insert.
    by rewrite list_lookup_insert_ne by lia.
Qed.

(** The file is there: it is truncated when the flags say so and the volume
    allows it, and the slot gets its descriptor. *)
Lemma open_finish_spec p flags slot existed c s :
  regular_path p -> ready s -> free_slot s slot -> slot < 2 ^ 31 ->
  files (g_world s) !! p = Some c ->
  existed && flag flags O_CREAT && flag flags O_EXCL = false ->
  exists s' c', open_finish p flags slot existed Status_Ok (Z.of_nat (length c)) s = Done slot s' /\
    g_dirs s' = g_dirs s /\ ready s' /\ files (g_world s') = <[p := c']> (files (g_world s)) /\
    (c' = (if truncates flags then [] else c) \/ c' = c /\ no_truncate p s' s) /\
    fd_entry s' slot = Some (opened flags p c') /\
    forall j g, 1 <= j -> j <> slot -> fd_entry s' j = Some g <-> fd_entry s j = Some g.
Proof.
  intros Hreg Hr Hfree Hslot Hc Hex. unfold open_finish.
  change (negb (Status_Ok =? Status_Ok)) with false. cbv iota. rewrite Hex.
  assert (Hfin : forall s1 c', held s1 s -> files (g_world s1) = <[p := c']> (files (g_world s)) ->
    exists s', (set_fd slot (opened flags p c');; retM (i32 slot)) s1 = Done slot s' /\
      g_dirs s' = g_dirs s /\ ready s' /\ files (g_world s') = <[p := c']> (files (g_world s)) /\
      g_world s' = g_world s1 /\ fd_entry s' slot = Some (opened flags p c') /\
      forall j g, 1 <= j -> j <> slot -> fd_entry s' j = Some g <-> fd_entry s j = Some g).
  { intros s1 c' Hh Hf. destruct (Hh) as (Hb & Hfd & Hd & He). pose proof (proj1 Hfree) as Hrange.
    destruct (set_fd_entry s1 slot (opened flags p c')) as (s2 & E2 & Hw2 & _ & Hb2 & Hd2 & _ & Hent & Hoth);
      [lia | left; unfold free_slot in *; by rewrite Hfd | done |].
    exists s2. rewrite (bindM_done _ _ _ _ _ E2). rewrite i32_id by (unfold in_i32; lia).
    split; [done|]. split; [congruence|].
    split; [split; [rewrite Hb2, Hb; apply Hr | rewrite Hw2, He; apply Hr]|].
    split; [by rewrite Hw2|]. split; [done|]. split; [done|]. intros j g Hj Hne. rewrite Hoth by done.
    unfold fd_entry. by rewrite Hfd. }
  unfold truncates. destruct (flag flags O_TRUNC && flag flags O_ACCMODE) eqn:Et.
  - pose proof (truncate_law W files entries p (g_world s) Hreg (proj2 Hr)) as Ht.
    destruct (f_truncate p (g_world s)) as [t w1] eqn:Etr. destruct Ht as [He1 Ht].
    assert (Hh1 : held (set_world w1 s) s) by (apply world_held; rewrite He1; symmetry; apply Hr).
    assert (Hrun : (let* t := serv (f_truncate p) in
      retM (if t =? Status_Ok then 0 else Z.of_nat (length c))) s =
      Done (if t =? Status_Ok then 0 else Z.of_nat (length c)) (set_world w1 s)).
    { unfold serv, bindM, retM. by rewrite Etr. }
    rewrite (bindM_done _ _ _ _ _ Hrun). destruct Ht as [(-> & _ & Hf)|(Hne & Hf)].
    + destruct (Hfin (set_world w1 s) [] Hh1 Hf) as (s' & E & H). exists s', []. split; [exact E|].
      split; [apply H|]. split; [apply H|]. split; [apply H|]. split; [by left | apply H].
    + rewrite (proj2 (Z.eqb_neq t _)) by done.
      destruct (Hfin (set_world w1 s) c Hh1) as (s' & E & H);
        [by rewrite insert_id|]. exists s', c. split; [exact E|].
      split; [apply H|]. split; [apply H|]. split; [apply H|]. split; [|apply H].
      right. split; [done|]. exists (g_world s). rewrite Etr. split_and!; [done|done|apply H].
  - rewrite (bindM_done _ _ s (Z.of_nat (length c)) s) by done.
    destruct (Hfin s c (held_refl s)) as (s' & E & H); [by rewrite insert_id|].
    exists s', c. split; [exact E|].
    split; [apply H|]. split; [apply H|]. split; [apply H|]. split; [by left | apply H].
Qed.

Lemma held_fd_entry s' s j : held s' s -> fd_entry s' j = fd_entry s j.
Proof. intros (_ & H & _). unfold fd_entry. by rewrite H. Qed.

(** A free slot is no open descriptor. *)
Lemma free_slot_entry s i : free_slot s i -> fd_entry s i = None.
Proof.
  intros (Hr & f & Hf & Hu). unfold fd_entry. rewrite Hf. cbn [mbind option_bind]. rewrite Hu.
  by destruct (_ <? _).
Qed.

(** The contents an open leaves, from those it found. *)
Definition new_contents (flags : Z) (p c' : list Z) (s' s : gloss W) : Prop :=
  match files (g_world s) !! p with
  | None => flag flags O_CREAT = true /\ c' = []
  | Some c => flag flags O_CREAT && flag flags O_EXCL = false /\
              (c' = (if truncates flags then [] else c) \/ c' = c /\ no_truncate p s' s)
  end.

(** A new descriptor on the file. *)
Definition open_ok (r flags : Z) (p : list Z) (s' s : gloss W) : Prop :=
  3 <= r /\ fd_entry s r = None /\
  exists c', files (g_world s') = <[p := c']> (files (g_world s)) /\
    fd_entry s' r = Some (opened flags p c') /\ new_contents flags p c' s' s.

(** Why there is none, and the errno. *)
Definition refusal (flags : Z) (p : list Z) (s' s : gloss W) : Prop :=
  let e := g_errno s' in
  (e = EINVAL /\ (p = [] \/ 256 < Z.of_nat (length p))) \/
  (e = EMFILE /\ Forall (fun f => Used f = true) (drop 2 (g_fds s)) /\ no_room s' s) \/
  match files (g_world s) !! p with
  | Some _ => e = EEXIST /\ flag flags O_CREAT && flag flags O_EXCL = true
  | None => if flag flags O_CREAT then create_refused p s' s else e = ENOENT
  end.

Definition open_no (r flags : Z) (p : list Z) (s' s : gloss W) : Prop :=
  r = -1 /\ refusal flags p s' s /\
  delete p (files (g_world s')) = delete p (files (g_world s)) /\
  (is_Some (files (g_world s) !! p) -> files (g_world s') = files (g_world s)).

(** The other descriptors are as they were. *)
Definition others_kept (r : Z) (s' s : gloss W) : Prop :=
  forall j g, 1 <= j -> j <> r -> fd_entry s' j = Some g <-> fd_entry s j = Some g.

Lemma held_others r s' s : held s' s -> others_kept r s' s.
Proof. intros H j g _ _. by rewrite (held_fd_entry _ _ _ H). Qed.

Lemma others_trans r s1 s2 s3 : others_kept r s2 s1 -> others_kept r s3 s2 -> others_kept r s3 s1.
Proof. intros H1 H2 j g Hj Hne. etransitivity; [by apply H2 | by apply H1]. Qed.

Lemma grown_others r s' s : grown s' s -> others_kept r s' s.
Proof. intros H j g Hj _. by apply grown_entry. Qed.

(** The part of [Gloss_Open] after the slot was found. *)
Definition open_at (p : list Z) (flags slot : Z) : M (gloss W) Z :=
  let* r := serv (f_open p) in
  let existed := fst r =? Status_Ok in
  if negb existed && flag flags O_CREAT then
    let* c := create_file p in
    match c with
    | None => retM (-1)
    | Some r' => open_finish p flags slot existed (fst r') (snd r')
    end
  else open_finish p flags slot existed (fst r) (snd r).

Lemma open_at_spec p flags slot s :
  regular_path p -> ready s -> free_slot s slot -> slot < 2 ^ 31 ->
  exists r s', open_at p flags slot s = Done r s' /\ ready s' /\ others_kept r s' s /\
    (open_ok r flags p s' s \/ open_no r flags p s' s).
Proof.
  intros Hreg Hr Hfree Hslot. unfold open_at.
  destruct (open_law W files entries p (g_world s) Hreg (proj2 Hr)) as [Ho Hs].
  rewrite (bindM_done _ _ _ _ _ (serv_done _ s)). rewrite Ho.
  set (s1 := set_world _ s). assert (Hq : quiet (files := files) (entries := entries) s1 s) by (by apply quiet_world).
  pose proof (quiet_held _ _ Hq) as Hh1. pose proof (quiet_files _ _ Hq) as Hf1.
  assert (Hr1 : ready s1) by (by eapply held_ready). assert (Hfree1 : free_slot s1 slot) by done.
  destruct (files (g_world s) !! p) as [c|] eqn:Ec; cbn [fst snd].
  - change (Status_Ok =? Status_Ok) with true. cbn [negb andb].
    destruct (flag flags O_CREAT && flag flags O_EXCL) eqn:Ex.
    + unfold open_finish. change (negb (Status_Ok =? Status_Ok)) with false. cbv iota.
      cbn [andb]. rewrite Ex.
      destruct (fail_held EEXIST (-1) s1) as (s2 & E2 & Hh2 & He2 & Hw2).
      exists (-1), s2. split; [done|]. split; [by eapply held_ready|].
      split; [apply held_others; by eapply held_trans|]. right.
      split; [done|]. unfold refusal. rewrite Ec, Hw2, Hf1. split; [by right; right|]. by split.
    + destruct (open_finish_spec p flags slot true c s1) as (s2 & c' & E2 & _ & Hr2 & Hf2 & Hc' & Hent & Hoth);
        [done..| by rewrite Hf1 | by cbn [andb] |].
      exists slot, s2. split; [exact E2|]. split; [done|]. split; [exact Hoth|].
      left. split; [apply Hfree|]. split; [by apply free_slot_entry|]. exists c'.
      rewrite <- Hf1. split; [done|]. split; [done|]. unfold new_contents. rewrite Ec. split; [done|].
      destruct Hc' as [?|[? Hn]]; [by left | right]. split; [done|].
      apply (no_truncate_same _ _ _ _ Hn), Hs.
  - change (Status_Not_Found =? Status_Ok) with false. cbn [negb andb].
    destruct (flag flags O_CREAT) eqn:Ecr.
    + destruct (create_file_spec p s1) as (o & s2 & E2 & Hh2 & H2); [done|done|by rewrite Hf1|].
      rewrite (bindM_done _ _ _ _ _ E2).
      assert (Hh : held s2 s) by (by eapply held_trans). destruct o as [r|].
      * destruct H2 as [-> Hf2]. cbn [fst snd].
        destruct (open_finish_spec p flags slot false [] s2) as (s3 & c' & E3 & _ & Hr3 & Hf3 & Hc' & Hent & Hoth);
          [done | by eapply held_ready | by unfold free_slot in *; destruct Hh as (_ & -> & _) | done
          | rewrite Hf2; apply lookup_insert_eq | done |].
        exists slot, s3. split; [exact E3|]. split; [done|].
        split; [exact (others_trans _ _ _ _ (held_others _ _ _ Hh) Hoth)|]. left.
        split; [apply Hfree|]. split; [by apply free_slot_entry|]. exists c'.
        rewrite Hf3, Hf2, insert_insert_eq, Hf1. split; [done|]. split; [done|].
        unfold new_contents. rewrite Ec. split; [done|]. destruct Hc' as [->|[-> _]]; [by destruct (truncates flags) | done].
      * destruct H2 as [He2 Hf2]. exists (-1), s2. split; [done|]. split; [by eapply held_ready|].
        split; [by apply held_others|]. right. split; [done|]. unfold refusal. rewrite Ec, Ecr.
        split; [right; right; by apply (create_refused_same p s2 s1 s)|]. rewrite Hf2, Hf1. split; [done|]. by intros [? ?].
    + destruct (fail_held ENOENT (-1) s1) as (s2 & E2 & Hh2 & He2 & Hw2).
      exists (-1), s2. split; [done|]. split; [by eapply held_ready|].
      split; [apply held_others; by eapply held_trans|]. right.
      split; [done|]. unfold refusal. rewrite Ec, Ecr, Hw2, Hf1. split; [by right; right|]. by split.
Qed.

Lemma gloss_open_spec path flags s :
  regular_path path_cwd -> ready s -> Z.of_nat (length (g_fds s)) < 2 ^ 31 - 1 ->
  let p := qualified (files (g_world s)) path in
  regular_path p ->
  exists r s', Gloss_Open path flags s = Done r s' /\ ready s' /\ others_kept r s' s /\
    (open_ok r flags p s' s \/ open_no r flags p s' s).
Proof.
  intros Hcwd Hr Hlen p Hreg. unfold Gloss_Open.
  destruct (qualify_spec path s Hcwd Hr) as (s1 & E1 & Hq1). fold p in E1.
  rewrite (bindM_done _ _ _ _ _ E1).
  pose proof (quiet_held _ _ Hq1) as Hh1. pose proof (quiet_files _ _ Hq1) as Hf1.
  assert (Hr1 : ready s1) by (by eapply held_ready).
  destruct ((Z.of_nat (length p) =? 0) || (256 <? Z.of_nat (length p))) eqn:El.
  { destruct (fail_held EINVAL (-1) s1) as (s2 & E2 & Hh2 & He2 & Hw2).
    exists (-1), s2. split; [done|]. split; [by eapply held_ready|].
    split; [apply held_others; by eapply held_trans|]. right. split; [done|].
    split; [|by rewrite Hw2, Hf1]. left. split; [done|].
    apply orb_true_iff in El as [El|El]; bool_to_prop; [left; by destruct p | by right]. }
  destruct (find_slot_spec s1) as (i & s2 & E2 & Hg2 & Hi). rewrite (bindM_done _ _ _ _ _ E2).
  destruct (Hh1) as (_ & Hfd1 & _). rewrite Hfd1 in Hi.
  destruct (Hg2) as (_ & Hb2 & _ & (Hep2 & Hf2 & _) & n & Hfd2).
  assert (Hr2 : ready s2) by (unfold ready in *; by rewrite Hb2, Hep2).
  pose proof (others_trans (-1) _ _ _ (held_others _ _ _ Hh1) (grown_others _ _ _ Hg2)) as Hno.
  destruct Hi as [(-> & Hall & Hroom)|[Hfree Hi]].
  { destruct (fail_held EMFILE (-1) s2) as (s3 & E3 & Hh3 & He3 & Hw3).
    exists (-1), s3. split; [done|]. split; [by eapply held_ready|].
    split; [exact (others_trans _ _ _ _ Hno (held_others _ _ _ Hh3))|]. right. split; [done|].
    split; [right; left; split_and!; [done..|]|by rewrite Hw3, Hf2, Hf1].
    destruct Hroom as (w & Hw & Hg). exists w. rewrite Hw3. split; [|done].
    destruct Hq1 as (_ & _ & _ & _ & Hq1). unfold same_fs in *. intuition congruence. }
  pose proof (proj1 Hfree) as Hpos. rewrite (proj2 (Z.eqb_neq i 0)) by lia.
  rewrite (bindM_done _ _ _ _ _ (ensure_bound_ready s2 Hr2)).
  destruct (open_at_spec p flags i s2) as (r & s3 & E3 & Hr3 & Ho3 & H3); [done|done|done|lia|].
  exists r, s3. split; [exact E3|]. split; [done|].
  pose proof (fun r => others_trans r _ _ _ (held_others _ _ _ Hh1) (grown_others _ _ _ Hg2)) as Hg.
  split; [exact (others_trans _ _ _ _ (Hg r) Ho3)|].
  assert (Hs : same_fs files entries (g_world s2) (g_world s)).
  { destruct Hq1 as (_ & _ & _ & _ & Hq1), Hg2 as (_ & _ & _ & Hg2 & _). unfold same_fs in *.
    intuition congruence. }
  unfold open_ok, open_no, refusal, new_contents in *. rewrite Hf2, Hf1 in H3.
  destruct H3 as [(Hr3' & He & c' & Hf & Hent & H)|(-> & Hwhy & H)].
  - left. split; [done|]. split; [|exists c'; split; [done|]; split; [done|];
      destruct (files (g_world s) !! p); [|done];
      split; [apply H|]; destruct H as [_ [?|[? Hn]]]; [by left|];
      right; split; [done|]; by apply (no_truncate_same _ _ _ _ Hn)].
    destruct (fd_entry s r) as [g|] eqn:Eg; [|done].
    apply (Hg 0 r g) in Eg; [congruence | lia | lia].
  - right. split; [done|]. split; [|done]. destruct Hwhy as [?|[(He & Hall & Hroom)|Hwhy]]; [by left | |].
    + right. left. split; [done|]. rewrite Hfd2, Hfd1, drop_app in Hall. split; [by apply Forall_app in Hall as [? _]|].
      destruct Hroom as (w & Hw & Hroom). exists w. split; [unfold same_fs in *; intuition congruence|done].
    + right. right. destruct (files (g_world s) !! p); [done|]. destruct (flag flags O_CREAT); [|done].
      by eapply create_refused_same.
Qed.

(** ** The ways adaint.c opens a file *)

Inductive open_kind := Open_Read | Open_RW | Open_Create | Open_Append | Open_New
  | Output_File | Output_File_New.

Definition run_open (k : open_kind) (path : list Z) (fmode : Z) : M (gloss W) Z :=
  match k with
  | Open_Read => gnat_open_read path fmode
  | Open_RW => gnat_open_rw path fmode
  | Open_Create => gnat_open_create path fmode
  | Open_Append => gnat_open_append path fmode
  | Open_New => gnat_open_new path fmode
  | Output_File => gnat_create_output_file path
  | Output_File_New => gnat_create_output_file_new path
  end.

(** What GNAT.OS_Lib says of them. *)
Definition k_reads (k : open_kind) : bool := match k with Open_Read | Open_RW => true | _ => false end.
Definition k_writes (k : open_kind) : bool := match k with Open_Read => false | _ => true end.
Definition k_creates (k : open_kind) : bool := match k with Open_Read | Open_RW => false | _ => true end.
Definition k_exclusive (k : open_kind) : bool :=
  match k with Open_New | Output_File_New => true | _ => false end.
Definition k_empties (k : open_kind) : bool :=
  match k with Open_Create | Output_File => true | _ => false end.

(** A descriptor on contents [c]. *)
Definition k_descriptor (k : open_kind) (p c : list Z) : FD_Rec :=
  Fd_Rec true (k_reads k) (k_writes k)
    (match k with Open_Append => Z.of_nat (length c) | _ => 0 end) (Z.of_nat (length c)) p.

(** Reasons for a refusal, as errno tells them. *)
Definition k_refusal (k : open_kind) (p : list Z) (s' s : gloss W) : Prop :=
  let e := g_errno s' in
  (e = EINVAL /\ (p = [] \/ 256 < Z.of_nat (length p))) \/
  (e = EMFILE /\ Forall (fun f => Used f = true) (drop 2 (g_fds s)) /\ no_room s' s) \/
  match files (g_world s) !! p with
  | Some _ => e = EEXIST /\ k_exclusive k = true
  | None => if k_creates k then create_refused p s' s else e = ENOENT
  end.

Definition k_flags (k : open_kind) : Z :=
  match k with
  | Open_Read => O_RDONLY
  | Open_RW => O_RDWR
  | Open_Create | Output_File => 0x601
  | Open_Append => 0x209
  | Open_New => 0xa01
  | Output_File_New => 0xe01
  end.

Lemma run_open_flags k path fmode s :
  run_open k path fmode s = (let* fd := Gloss_Open path (k_flags k) in retM (fd_or_minus1 fd)) s.
Proof.
  destruct k; cbn [run_open]; try reflexivity;
    unfold gnat_open_read, gnat_open_rw, gnat_open_create, gnat_open_append, gnat_open_new, open_mode;
    by destruct (negb (fmode =? 0)).
Qed.

(** C24. Each way of opening a file does what its name says, on Aegir's
    system-call layer: the call returns -1 or a descriptor from 3 on that was
    not open before.  With a descriptor: a file that was missing is now there
    and empty, which only the creating ways do; a file that was there keeps its
    contents, or is emptied by [__gnat_open_create] and
    [__gnat_create_output_file], unless the service was asked to truncate it
    and refused, and the exclusive ways have not opened it.  The descriptor reads and writes as
    the way says and stands at the start of the file, for
    [__gnat_open_append] at its end.  With -1, errno gives the reason: a name
    that is empty or too long; no free slot in the table when the arena was
    asked for another and had none; a missing file; an existing file opened
    exclusively; a creation that the service was asked for and refused, with
    the errno of its status.  No file that was there has changed then, and no
    other file and no other descriptor changes ever. *)
Theorem open_kinds (k : open_kind) (path : list Z) (fmode : Z) (s : gloss W) :
  regular_path path_cwd -> ready s -> Z.of_nat (length (g_fds s)) < 2 ^ 31 - 1 ->
  let p := qualified (files (g_world s)) path in
  regular_path p ->
  wp (run_open k path fmode) (fun r s' =>
    others_kept r s' s /\
    delete p (files (g_world s')) = delete p (files (g_world s)) /\
    (3 <= r /\ fd_entry s r = None /\
     (exists c', files (g_world s') !! p = Some c' /\ fd_entry s' r = Some (k_descriptor k p c') /\
       match files (g_world s) !! p with
       | None => k_creates k = true /\ c' = []
       | Some c => k_exclusive k = false /\ 
                    (c' = (if k_empties k then [] else c) \/ c' = c /\ no_truncate p s' s)
       end)
     \/
     r = -1 /\ (is_Some (files (g_world s) !! p) -> files (g_world s') = files (g_world s)) /\
     k_refusal k p s' s)) s.
Proof.
  intros Hcwd Hr Hlen p Hreg.
  destruct (gloss_open_spec path (k_flags k) s Hcwd Hr Hlen Hreg) as (r & s' & E & _ & Ho & H).
  fold p in H. unfold wp. rewrite run_open_flags, (bindM_done _ _ _ _ _ E). unfold fd_or_minus1, retM.
  destruct H as [(Hr3 & Hnew & c' & Hf & He & Hc)|(-> & Hwhy & Hd & Hk)].
  - rewrite (proj2 (Z.ltb_ge r 0)) by lia. split; [done|]. split; [by rewrite Hf, delete_insert_eq|].
    left. split; [done|]. split; [done|]. exists c'. rewrite Hf, lookup_insert_eq. split; [done|].
    split; [by destruct k|]. unfold new_contents in Hc. destruct (files (g_world s) !! p), k; by first [exact Hc | destruct Hc].
  - cbn [Z.ltb]. split; [done|]. split; [done|]. right. split; [done|]. split; [done|].
    unfold refusal in Hwhy. unfold k_refusal. destruct (files (g_world s) !! p); by destruct k.
Qed.

End fd.

(** ** Witness *)

(** The name is completed by the working directory; the file is made and gets
    descriptor 3. *)
Lemma open_kinds_witness :
  let p := bytes "Sys:C/New" in
  (match run_open Open_Create (bytes "New") 0 demo_gloss with
   | Done r s' => r = 3 /\ tf_files (g_world s') !! p = Some [] /\ fd_entry s' 3 = Some (k_descriptor Open_Create p [])
   | Blocked _ => False
   end) /\
  wp (run_open Open_Create (bytes "New") 0) (fun r s' =>
    others_kept r s' demo_gloss /\ delete p (tf_files (g_world s')) = tf_files (g_world demo_gloss)) demo_gloss.
Proof.
  split; [vm_compute; repeat split; reflexivity|].
  pose proof (open_kinds Open_Create (bytes "New") 0 demo_gloss I demo_ready eq_refl I) as H.
  unfold wp in *. destruct (run_open _ _ _ _) as [r s'|]; [|exact H]. destruct H as (H1 & H2 & _). split; [exact H1|].
  etransitivity; [exact H2|]. vm_compute. reflexivity.
Defined.
