(* ===== verification/GlossIo.v ===== *)
(** * Theorems on reading and writing

    [write], [lseek], [read] and [close] of [Aegir_User.Gloss] on an open
    descriptor, over a file service that keeps its promises. *)
From S2P Require Import Prelude CInt CStr Gloss GlossLaws GlossSpec GlossFd.

Section io.
Context {W : Type} `{!FileServ W}.
Context {files : W -> gmap (list Z) (list Z)} {entries : W -> list Z -> list (list Z)}.
Context {regular_path : list Z -> Prop} `{!FileLaws W files entries regular_path}.

(** A descriptor with another position and size. *)
Definition at_offset (f : FD_Rec) (off size : Z) : FD_Rec :=
  Fd_Rec (Used f) (Readable f) (Writable f) off size (Path f).

Lemma fd_entry_slot (s : gloss W) fd f : fd_entry s fd = Some f ->
  g_fds s !! Z.to_nat (fd - 1) = Some f /\ Used f = true.
Proof.
  unfold fd_entry. destruct (_ <? fd); [done|].
  destruct (g_fds s !! _) as [g|]; [|done]. cbn. destruct (Used g) eqn:E; [|done]. by intros [= <-].
Qed.

Lemma set_fd_run (s : gloss W) fd f g : 3 <= fd -> fd_entry s fd = Some f -> Used g = true ->
  exists s', set_fd fd g s = Done tt s' /\ g_world s' = g_world s /\ g_bound s' = g_bound s /\
    fd_entry s' fd = Some g /\ others_kept fd s' s.
Proof.
  intros Hfd He Hu. destruct (fd_entry_slot _ _ _ He) as [Hs _].
  destruct (set_fd_entry s fd g) as (s' & E & Hw & _ & Hb & _ & _ & Hent & Hoth);
    [lia | right; by eexists | done |].
  exists s'. split; [done|]. split; [done|]. split; [done|]. by split.
Qed.

(** ** Writing *)

Definition size_after (f : FD_Rec) (n : Z) : Z := if n =? 0 then Size f else Z.max (Size f) (Offset f + n).

(** After [n] bytes of [buf] were written through [fd], which stood at
    [f]. *)
Definition wrote (fd : Z) (f : FD_Rec) (c buf : list Z) (s : gloss W) (n : Z) (s' : gloss W) : Prop :=
  0 <= n <= Z.of_nat (length buf) /\ ready s' /\ others_kept fd s' s /\
  fd_entry s' fd = Some (at_offset f (Offset f + n) (size_after f n)) /\
  files (g_world s') =
    <[Path f := splice (Z.to_nat (Offset f)) (take (Z.to_nat n) buf) c]> (files (g_world s)).

(** The last thing that happened is that the service, asked to write what is
    left of [buf] behind the [n] bytes already written, refused or wrote
    nothing. *)
Definition refused (f : FD_Rec) (buf : list Z) (n : Z) (s' : gloss W) : Prop :=
  exists w, files w = files (g_world s') /\
    let '((st, k), w') := f_write (Path f) (Offset f + n)
          (take (Z.to_nat (Z.min (Z.of_nat (length buf) - n) 0x8000)) (drop (Z.to_nat n) buf)) w in
    (st <> Status_Ok \/ k = 0) /\ g_errno s' = write_errno st /\ g_world s' = w'.

Lemma others_refl r (s : gloss W) : others_kept r s s.
Proof. by intros j g _ _. Qed.

Lemma write_round_spec fd f c buf s n s1 :
  3 <= fd -> Used f = true -> regular_path (Path f) -> 0 <= Offset f <= Z.of_nat (length c) ->
  Offset f + Z.of_nat (length buf) < 2 ^ 31 ->
  wrote fd f c buf s n s1 ->
  wp (write_round fd buf n) (fun r s2 =>
    match r with
    | inl n' => n < n' /\ wrote fd f c buf s n' s2
    | inr r => wrote fd f c buf s n s2 /\
        (r = n /\ n = Z.of_nat (length buf) \/
         n < Z.of_nat (length buf) /\ r = (if n =? 0 then -1 else n) /\ refused f buf n s2)
    end) s1.
Proof.
  intros Hfd Hu Hreg Hoff Hbound Hwr. destruct (Hwr) as (Hn & Hr & Ho & He & Hf).
  unfold write_round. destruct (n <? Z.of_nat (length buf)) eqn:En; bool_to_prop; cbn [negb].
  2: { unfold wp, retM. rewrite i32_id by (unfold in_i32; lia). split; [done|]. left. lia. }
  destruct (fd_entry_slot _ _ _ He) as [Hslot _]. unfold wp.
  rewrite (bindM_done _ _ s1 (Some (at_offset f (Offset f + n) (size_after f n))) s1) by (unfold getsM; by rewrite Hslot).
  rewrite (bindM_done _ _ _ _ _ (serv_done _ s1)). cbn [Path Offset Used Readable Writable Size at_offset].
  set (piece := take _ (drop _ buf)).
  assert (Hp : (0 < length piece <= length buf - Z.to_nat n)%nat) by
    (unfold piece; rewrite length_take, length_drop; lia).
  assert (Hold : files (g_world s1) !! Path f = Some (splice (Z.to_nat (Offset f)) (take (Z.to_nat n) buf) c))
    by (rewrite Hf; apply lookup_insert_eq).
  pose proof (write_law W files entries (Path f) (Offset f + n) piece (g_world s1) Hreg (proj2 Hr)) as Hw.
  rewrite Hold in Hw. cbn [default from_option id] in Hw.
  assert (Htl : length (take (Z.to_nat n) buf) = Z.to_nat n) by (rewrite length_take; lia).
  specialize (Hw ltac:(intros E; rewrite E in Hp; cbn in Hp; lia)
    ltac:(rewrite splice_length, Htl by lia; lia)).
  destruct (f_write (Path f) (Offset f + n) piece (g_world s1)) as [[st k] w2] eqn:Ewr. cbn [fst snd].
  destruct Hw as [He2 Hw].
  destruct (negb (st =? Status_Ok) || (k =? 0)) eqn:Eok.
  { assert (Hf2 : files w2 = files (g_world s1)).
    { destruct Hw as [(-> & _ & Hf2)|(_ & Hf2)]; [|done].
      apply orb_true_iff in Eok as [Eok|Eok]; [done|]. bool_to_prop. subst k.
      rewrite Hf2. change (Z.to_nat 0) with 0%nat. rewrite take_0, splice_nil. by apply insert_id. }
    rewrite (bindM_done _ _ _ tt (GlossSt (write_errno st) (g_bound s1) (g_fds s1) (g_dirs s1) w2)) by done.
    unfold retM. split; [|right; split; [lia|]; split].
    - split; [done|]. split; [by split; [apply Hr|]|]. split; [done|]. split; [done|].
      cbn. by rewrite Hf2.
    - by rewrite i32_id by (unfold in_i32; lia).
    - exists (g_world s1). fold piece. rewrite Ewr. cbn. split; [done|]. split; [|done].
      apply orb_true_iff in Eok as [Eok|Eok]; bool_to_prop; [by left|by right]. }
  apply orb_false_iff in Eok as [Eok Ek]. apply negb_false_iff in Eok. bool_to_prop.
  destruct Hw as [(_ & Hk & Hf2)|(Hst & _)]; [|done].
  rewrite !u64_id by (unfold in_u64; lia). set (s2 := set_world w2 s1).
  destruct (set_fd_run s2 fd (at_offset f (Offset f + n) (size_after f n))
    (Fd_Rec (Used f) (Readable f) (Writable f) (Offset f + n + k) (Z.max (size_after f n) (Offset f + n + k)) (Path f)))
    as (s3 & E3 & Hw3 & Hb3 & He3 & Ho3); [done|done|done|].
  rewrite (bindM_done _ _ _ _ _ E3). unfold retM. split; [lia|]. split; [lia|].
  split; [split; [rewrite Hb3; apply Hr | by rewrite Hw3]|].
  split; [intros j g Hj Hne; etransitivity; [by apply Ho3 | by apply Ho]|].
  split; [rewrite He3; unfold at_offset; do 2 f_equal; [lia | unfold size_after; repeat case_match; bool_to_prop; lia]|].
  rewrite Hw3. cbn [g_world set_world s2]. rewrite Hf2, Hf, insert_insert_eq. f_equal.
  replace (Z.to_nat (Offset f + n)) with (Z.to_nat (Offset f) + length (take (Z.to_nat n) buf))%nat by lia.
  rewrite splice_splice by lia. f_equal. unfold piece. rewrite take_take.
  replace (Z.to_nat (n + k)) with (Z.to_nat n + Z.to_nat k)%nat by lia.
  rewrite take_take_drop. f_equal. unfold piece in Hk. rewrite length_take in Hk. lia.
Qed.

Lemma gloss_write_spec fd f c buf s :
  3 <= fd -> ready s -> fd_entry s fd = Some f -> Writable f = true -> regular_path (Path f) ->
  files (g_world s) !! Path f = Some c -> 0 <= Offset f <= Z.of_nat (length c) ->
  Offset f + Z.of_nat (length buf) < 2 ^ 31 ->
  wp (Gloss_Write (S (length buf)) fd buf) (fun r s' =>
    exists n, wrote fd f c buf s n s' /\
      (r = n /\ n = Z.of_nat (length buf) \/
       n < Z.of_nat (length buf) /\ r = (if n =? 0 then -1 else n) /\ refused f buf n s')) s.
Proof.
  intros Hfd Hr He Hw Hreg Hc Hoff Hb. destruct (fd_entry_slot _ _ _ He) as [_ Hu].
  unfold Gloss_Write, wp. rewrite (bindM_done _ _ _ _ _ (ensure_bound_ready s Hr)).
  rewrite (proj2 (Z.eqb_neq fd 1)), (proj2 (Z.eqb_neq fd 2)) by lia. cbn [orb].
  unfold First_File_FD. rewrite (proj2 (Z.ltb_ge fd 3)) by lia.
  rewrite (bindM_done _ _ s (Some f) s) by (unfold getsM; by rewrite He). rewrite Hw. cbn [negb].
  eapply (iter_terminates (write_round fd buf) (wrote fd f c buf s) _
    (fun n _ => length buf - Z.to_nat n)%nat).
  - intros n s1 Hwr. eapply wp_mono; [|by apply (write_round_spec fd f c buf s n s1)].
    intros [n'|r] s2; [|by intros [? ?]; exists n]. intros [Hlt Hwr']. split; [done|].
    destruct Hwr as (? & _), Hwr' as (? & _). lia.
  - split; [lia|]. split; [done|]. split; [apply others_refl|].
    split; [rewrite He; unfold at_offset, size_after; cbn; rewrite Z.add_0_r; by destruct f|].
    change (Z.to_nat 0) with 0%nat. rewrite take_0, splice_nil. symmetry. by apply insert_id.
  - lia.
Qed.

(** ** Positioning and reading *)

Lemma lseek_set_spec fd f off s : 3 <= fd -> fd_entry s fd = Some f -> 0 <= off < 2 ^ 63 ->
  exists s', Gloss_Lseek fd off SEEK_SET s = Done off s' /\ g_world s' = g_world s /\
    g_bound s' = g_bound s /\ fd_entry s' fd = Some (at_offset f off (Size f)) /\ others_kept fd s' s.
Proof.
  intros Hfd He Hoff. unfold Gloss_Lseek, First_File_FD. rewrite (proj2 (Z.ltb_ge fd 3)) by lia.
  rewrite (bindM_done _ _ s (Some f) s) by (unfold getsM; by rewrite He).
  change (SEEK_SET =? SEEK_SET) with true. cbv iota. rewrite u64_id by (unfold in_u64; lia).
  destruct (fd_entry_slot _ _ _ He) as [_ Hu].
  destruct (set_fd_run s fd f (at_offset f off (Size f))) as (s' & E & H); [done|done|done|].
  exists s'. unfold at_offset in E. by rewrite Z.add_0_l, (bindM_done _ _ _ _ _ E).
Qed.

Lemma gloss_read_spec fd f c n s :
  3 <= fd -> ready s -> fd_entry s fd = Some f -> Readable f = true -> regular_path (Path f) ->
  files (g_world s) !! Path f = Some c -> 0 <= Offset f < 2 ^ 63 -> 0 < n ->
  exists s', Gloss_Read fd n s =
      Done (let b := take (Z.to_nat (Z.min n Buf_Bytes)) (drop (Z.to_nat (Offset f)) c) in
            (Z.of_nat (length b), b)) s' /\
    ready s' /\ files (g_world s') = files (g_world s) /\ others_kept fd s' s.
Proof.
  intros Hfd Hr He Hrd Hreg Hc Hoff Hn. destruct (fd_entry_slot _ _ _ He) as [_ Hu].
  unfold Gloss_Read, First_File_FD. rewrite (bindM_done _ _ _ _ _ (ensure_bound_ready s Hr)).
  rewrite (proj2 (Z.ltb_ge fd 3)) by lia.
  rewrite (bindM_done _ _ s (Some f) s) by (unfold getsM; by rewrite He). rewrite Hrd. cbn [negb].
  destruct (read_law W files entries (Path f) (Offset f) n (g_world s) c) as [Hs Hread];
    [done | apply Hr | done | lia | done |].
  rewrite (bindM_done _ _ _ _ _ (serv_done _ s)). set (s1 := set_world _ s).
  assert (Hq : quiet (files := files) (entries := entries) s1 s) by (by apply quiet_world).
  pose proof (quiet_stays_ready _ _ Hq Hr) as Hr1. pose proof (quiet_files _ _ Hq) as Hf1.
  assert (Hfin : forall b : list Z, Z.of_nat (length b) < 2 ^ 31 ->
    exists s', (set_fd fd (Fd_Rec (Used f) (Readable f) (Writable f)
       (u64 (Offset f + Z.of_nat (length b))) (Size f) (Path f));;
       retM (i32 (Z.of_nat (length b)), b)) s1 = Done (Z.of_nat (length b), b) s' /\
    ready s' /\ files (g_world s') = files (g_world s) /\ others_kept fd s' s).
  { intros b Hb. destruct (set_fd_run s1 fd f (Fd_Rec (Used f) (Readable f) (Writable f)
       (u64 (Offset f + Z.of_nat (length b))) (Size f) (Path f))) as (s' & E & Hw & Hb' & _ & Ho);
      [done|done|done|]. exists s'. rewrite (bindM_done _ _ _ _ _ E).
    unfold retM. rewrite i32_id by (unfold in_i32; lia). split; [done|].
    split; [split; [rewrite Hb'; apply Hr1 | rewrite Hw; apply Hr1]|]. by rewrite Hw. }
  rewrite Hrd in Hfin. destruct (Offset f <? Z.of_nat (length c)) eqn:Eo; bool_to_prop.
  - rewrite Hread. cbn [fst snd]. change (Status_Ok =? Status_Out_Of_Range) with false.
    change (negb (Status_Ok =? Status_Ok)) with false. cbv iota. apply Hfin.
    rewrite length_take. unfold Buf_Bytes. lia.
  - rewrite drop_ge, take_nil by lia. destruct Hread as [->| ->]; cbn [fst snd].
    + change (Status_Ok =? Status_Out_Of_Range) with false.
      change (negb (Status_Ok =? Status_Ok)) with false. cbv iota. by apply (Hfin []).
    + exists s1. split; [done|]. split; [done|]. split; [done|]. by intros j g _ _.
Qed.

(** C23. Written bytes are read back: [write] on a descriptor open for writing
    returns, after at most one round of the service per byte, having put a
    prefix of the buffer at the position of the descriptor, over what was
    there, the rest of the file being kept; it is the whole buffer, and the
    result its length, unless the service was asked to write the rest and
    refused or wrote nothing, in which case errno is that of its status and
    the result is the length of the prefix, -1 if nothing was written.  The position has moved behind the prefix, no other
    file and no other descriptor has changed, and a descriptor that is also open for reading
    delivers, after [lseek] back to where it stood, the bytes that were
    written, up to 32 KiB in a call. *)
Theorem write_read_back (fd : Z) (f : FD_Rec) (c buf : list Z) (s : gloss W) :
  3 <= fd -> ready s -> fd_entry s fd = Some f -> Writable f = true -> regular_path (Path f) ->
  files (g_world s) !! Path f = Some c -> 0 <= Offset f <= Z.of_nat (length c) ->
  Offset f + Z.of_nat (length buf) < 2 ^ 31 ->
  wp (Gloss_Write (S (length buf)) fd buf) (fun r s1 =>
    exists n, 0 <= n <= Z.of_nat (length buf) /\
      (r = n /\ n = Z.of_nat (length buf) \/
       n < Z.of_nat (length buf) /\ r = (if n =? 0 then -1 else n) /\ refused f buf n s1) /\
      files (g_world s1) =
        <[Path f := splice (Z.to_nat (Offset f)) (take (Z.to_nat n) buf) c]> (files (g_world s)) /\
      fd_entry s1 fd = Some (at_offset f (Offset f + n) (size_after f n)) /\
      others_kept fd s1 s /\
      (Readable f = true -> 0 < n ->
       wp (let* _ := Gloss_Lseek fd (Offset f) SEEK_SET in Gloss_Read fd n) (fun a s2 =>
         let k := Z.min n Buf_Bytes in
         a = (k, take (Z.to_nat k) buf) /\ files (g_world s2) = files (g_world s1)) s1)) s.
Proof.
  intros Hfd Hr He Hw Hreg Hc Hoff Hb.
  eapply wp_mono; [|by apply (gloss_write_spec fd f c buf s)].
  intros r s1 (n & (Hn & Hr1 & Ho & He1 & Hf) & Hres). exists n. do 5 (split; [done|]).
  intros Hrd Hpos. unfold wp.
  destruct (lseek_set_spec fd _ (Offset f) s1 Hfd He1 ltac:(lia)) as (s2 & E2 & Hw2 & Hb2 & He2 & _).
  rewrite (bindM_done _ _ _ _ _ E2).
  destruct (gloss_read_spec fd (at_offset f (Offset f) (size_after f n)) (splice (Z.to_nat (Offset f)) (take (Z.to_nat n) buf) c) n s2 Hfd)
    as (s3 & E3 & _ & Hf3 & _); [| exact He2 | done | done | | cbn; lia | done |].
  { unfold ready in *. by rewrite Hb2, Hw2. }
  { rewrite Hw2, Hf. apply lookup_insert_eq. }
  rewrite E3. split; [|by rewrite Hf3, Hw2]. cbv zeta. cbn [Offset at_offset].
  set (k := Z.min n Buf_Bytes). assert (Hk : 0 <= k <= n) by (unfold k, Buf_Bytes; lia).
  assert (Hb' : take (Z.to_nat k) (drop (Z.to_nat (Offset f))
      (splice (Z.to_nat (Offset f)) (take (Z.to_nat n) buf) c)) = take (Z.to_nat k) buf).
  { replace (Z.to_nat k) with (Nat.min (Z.to_nat k) (length (take (Z.to_nat n) buf)))
      by (rewrite length_take; lia).
    rewrite <- take_take, splice_read, take_take by lia. f_equal. rewrite length_take. lia. }
  rewrite Hb'. f_equal. rewrite length_take. lia.
Qed.

End io.

(** ** Witness *)

Definition demo_file : FD_Rec := Fd_Rec true true true 2 5 (bytes "Sys:a.txt").
Definition demo_open : gloss toy_fs := GlossSt 0 true [zero_fd; zero_fd; demo_file] [] demo_fs.

(** Four bytes over the end of hello: all are written and read back. *)
Lemma write_read_back_witness :
  exists s1, Gloss_Write 5 3 (bytes "LLOW") demo_open = Done 4 s1 /\
    tf_files (g_world s1) !! bytes "Sys:a.txt" = Some (bytes "heLLOW") /\
    wp (let* _ := Gloss_Lseek 3 2 SEEK_SET in Gloss_Read 3 4) (fun a s2 =>
      a = (4, bytes "LLOW") /\ tf_files (g_world s2) = tf_files (g_world s1)) s1.
Proof.
  pose (s1 := out_state (Gloss_Write 5 3 (bytes "LLOW") demo_open)).
  assert (E : Gloss_Write 5 3 (bytes "LLOW") demo_open = Done 4 s1) by (vm_compute; reflexivity).
  exists s1. split; [exact E|]. split; [vm_compute; reflexivity|].
  assert (H : wp (Gloss_Write 5 3 (bytes "LLOW")) (fun r s' => exists n, 0 <= n <= 4 /\
      (r = n /\ n = 4 \/ n < 4 /\ r = (if n =? 0 then -1 else n) /\ refused (files := tf_files) demo_file (bytes "LLOW") n s') /\
      (Readable demo_file = true -> 0 < n ->
       wp (let* _ := Gloss_Lseek 3 2 SEEK_SET in Gloss_Read 3 n) (fun a s2 =>
         let k := Z.min n Buf_Bytes in
         a = (k, take (Z.to_nat k) (bytes "LLOW")) /\ tf_files (g_world s2) = tf_files (g_world s')) s')) demo_open).
  { eapply wp_mono; [|refine (write_read_back 3 demo_file (bytes "hello") (bytes "LLOW") demo_open _ _ _ _ I _ _ _)].
    - intros r s' (n & H1 & H2 & _ & _ & _ & H3). exists n. split; [exact H1|]. split; [exact H2|exact H3].
    - discriminate.
    - split; reflexivity.
    - reflexivity.
    - reflexivity.
    - vm_compute. reflexivity.
    - vm_compute. split; discriminate.
    - vm_compute. reflexivity. }
  unfold wp at 1 in H. rewrite E in H. destruct H as (n & Hn & Hres & Hback).
  assert (En : n = 4).
  { destruct Hres as [[_ En]|(Hlt & Hr & _)]; [exact En|]. destruct n; [discriminate Hr|exact (eq_sym Hr)|discriminate Hr]. }
  rewrite En in Hback. exact (Hback eq_refl eq_refl).
Defined.
