(* ===== verification/ProcSpec.v ===== *)
(** * Theorems on file locks and processes

    What GNAT's file locks and process calls do on Aegir, where there is no
    [link], [fork], [execv], [waitpid] or [kill]. *)
From S2P Require Import Prelude CInt CStr Gloss GlossLaws Posix FileAttr Paths OsLib GlossSpec GlossFd GlossIo.

Section proc.
Context {W : Type} `{!FileServ W, !Newlib W}.
Context {files : W -> gmap (list Z) (list Z)} {entries : W -> list Z -> list (list Z)}.
Context {regular_path : list Z -> Prop} `{!FileLaws W files entries regular_path}.

Lemma gloss_close_spec fd f s : 3 <= fd -> ready s -> fd_entry s fd = Some f ->
  exists s', Gloss_Close fd s = Done 0 s' /\ ready s' /\ files (g_world s') = files (g_world s) /\
    others_kept fd s' s /\ fd_entry s' fd = None.
Proof.
  intros Hfd Hr He. unfold Gloss_Close, First_File_FD. rewrite (proj2 (Z.ltb_ge fd 3)) by lia.
  rewrite (bindM_done _ _ s (Some f) s) by (unfold getsM; by rewrite He).
  rewrite (bindM_done _ _ _ _ _ (serv_done _ s)).
  destruct (close_law W files entries (Path f) (g_world s)) as (H1 & H2 & _).
  eexists. split; [reflexivity|].
  split; [split; [apply Hr | cbn; rewrite H1; apply Hr]|]. split; [exact H2|].
  unfold others_kept, fd_entry. cbn [g_fds set_fds set_world]. rewrite length_insert. split.
  - intros j g Hj Hne. by rewrite list_lookup_insert_ne by lia.
  - destruct (fd_entry_slot _ _ _ He) as [Hs _]. apply lookup_lt_Some in Hs.
    rewrite list_lookup_insert_eq by done. cbn. by destruct (_ <? _).
Qed.

Lemma gloss_stat_file path c s : regular_path path_cwd -> ready s ->
  let p := qualified (files (g_world s)) path in
  regular_path p -> files (g_world s) !! p = Some c ->
  exists s', Gloss_Stat path s = Done (0, Some (Fill_Stat (Z.of_nat (length c)) false false)) s' /\
    ready s' /\ g_fds s' = g_fds s /\ files (g_world s') = files (g_world s).
Proof.
  intros Hcwd Hr p Hreg Hc. unfold Gloss_Stat.
  destruct (qualify_spec path s Hcwd Hr) as (s1 & E1 & Hq). fold p in E1.
  pose proof (quiet_stays_ready _ _ Hq Hr) as Hr1. pose proof (quiet_files _ _ Hq) as Hf1.
  rewrite (bindM_done _ _ _ _ _ E1), (bindM_done _ _ _ _ _ (ensure_bound_ready s1 Hr1)).
  rewrite (bindM_done _ _ _ _ _ (serv_done _ s1)).
  destruct (stat_ex_law W files entries p (g_world s1) (proj2 Hr1)) as (H1 & H2 & _).
  rewrite (stat_ex_file_law W files entries p (g_world s1) c Hreg (proj2 Hr1)) by (by rewrite Hf1).
  eexists. split; [reflexivity|]. split; [split; [apply Hr1 | cbn; rewrite H1; apply Hr1]|].
  split; [apply Hq | cbn; congruence].
Qed.

Lemma gloss_unlink_spec path s : regular_path path_cwd -> ready s ->
  let p := qualified (files (g_world s)) path in
  regular_path p ->
  exists r s', Gloss_Unlink path s = Done r s' /\ ready s' /\ g_fds s' = g_fds s /\
    (r = 0 /\ files (g_world s') = delete p (files (g_world s)) \/
     r = -1 /\ g_errno s' = ENOENT /\ files (g_world s') = files (g_world s)).
Proof.
  intros Hcwd Hr p Hreg. unfold Gloss_Unlink, path_call.
  rewrite (bindM_done _ _ _ _ _ (ensure_bound_ready s Hr)).
  destruct (qualify_spec path s Hcwd Hr) as (s1 & E1 & Hq). fold p in E1.
  pose proof (quiet_stays_ready _ _ Hq Hr) as Hr1. pose proof (quiet_files _ _ Hq) as Hf1.
  rewrite (bindM_done _ _ _ _ _ E1), (bindM_done _ _ _ _ _ (serv_done _ s1)).
  pose proof (delete_law W files entries p (g_world s1) Hreg (proj2 Hr1)) as Hd.
  destruct (f_delete p (g_world s1)) as [st w]. cbn [fst snd]. destruct Hd as [He [[-> Hf]|(Hst & Hf & _)]].
  - eexists _, _. split; [reflexivity|]. split; [split; [apply Hr1 | done]|].
    split; [apply Hq|]. left. split; [done|].
    cbn. by rewrite Hf, Hf1.
  - rewrite (proj2 (Z.eqb_neq st _)) by done. eexists _, _. split; [reflexivity|].
    split; [split; [apply Hr1 | done]|]. split; [apply Hq|]. right. split; [done|]. split; [done|]. cbn. by rewrite Hf, Hf1.
Qed.

(** ** File locks *)

Definition lock_temp (dir : list Z) : list Z := dir ++ bytes "/TMP-1-1".

(** The temporary file of a lock is not the variable of the working
    directory. *)
Lemma lock_temp_not_cwd m dir : qualified m (lock_temp dir) <> path_cwd.
Proof.
  assert (H : forall d, d ++ lock_temp dir <> path_cwd).
  { intros d E. apply (f_equal last) in E. unfold lock_temp in E. rewrite app_assoc, last_app in E.
    vm_compute in E. done. }
  unfold qualified, below. repeat case_match; [by apply (H []) | apply H |].
  intros E. apply (H (cwd_of m ++ [ch_slash])). by rewrite <- app_assoc.
Qed.

Lemma qualified_same m m' path : m' !! path_cwd = m !! path_cwd -> qualified m' path = qualified m path.
Proof. intros H. unfold qualified, cwd_of. by rewrite H. Qed.

(** The call with its names made: process and parent are 1. *)
Lemma try_lock_run dir file (s : gloss W) :
  strlen dir + 1 + strlen file < 256 -> strlen dir + 8 < 256 ->
  gnat_try_lock dir file s =
    (let* fd := Gloss_Open (lock_temp dir) 0x201 in
     if fd <? 0 then retM 0 else
     Gloss_Close fd;; Gloss_Link (lock_temp dir) (dir ++ [DIR_SEPARATOR] ++ file);;
     let* st := gnat_stat (lock_temp dir) in
     Gloss_Unlink (lock_temp dir);;
     match snd st with
     | Some stat_result => retM (c_bool (st_nlink stat_result =? 2))
     | None => undefined
     end) s.
Proof.
  unfold strlen. intros Hb1 Hb2. unfold gnat_try_lock, sprintf256, strlen.
  rewrite (proj2 (Z.ltb_ge 256 _)) by (rewrite length_app; cbn [length app]; lia).
  assert (Hn : Z.of_nat (length (dir ++ [DIR_SEPARATOR] ++ bytes "TMP-" ++ decimal 20 1 ++ bytes "-" ++
    decimal 20 1)) = Z.of_nat (length dir) + 8) by (rewrite length_app, Nat2Z.inj_add; by vm_compute).
  unfold bindM at 1 2 3 4. cbn [px_getpid px_getppid gloss_posix Gloss_Getpid Gloss_Getppid].
  unfold Gloss_Getpid, Gloss_Getppid, retM at 1 2 3. by rewrite Hn, (proj2 (Z.ltb_ge 256 _)) by lia.
Qed.

(** A lock file is never obtained: [__gnat_try_lock] counts the links of
    its temporary file after [link], but [link] is refused on Aegir and [stat]
    reports one link, so the call answers 0 for every directory and file, also
    when nobody holds the lock.  It leaves the descriptors and all files but
    its temporary one as they were. *)
Theorem try_lock_never (dir file : list Z) (s : gloss W) :
  regular_path path_cwd -> ready s -> Z.of_nat (length (g_fds s)) < 2 ^ 31 - 1 ->
  strlen dir + 1 + strlen file < 256 -> strlen dir + 8 < 256 ->
  let p := qualified (files (g_world s)) (lock_temp dir) in
  regular_path p ->
  wp (gnat_try_lock dir file) (fun r s' =>
    r = 0 /\ delete p (files (g_world s')) = delete p (files (g_world s)) /\
    forall j g, 1 <= j -> fd_entry s' j = Some g <-> fd_entry s j = Some g) s.
Proof.
  intros Hcwd Hr Hlen Hb1 Hb2 p Hreg.
  unfold wp. rewrite try_lock_run by done.
  destruct (gloss_open_spec (lock_temp dir) 0x201 s Hcwd Hr Hlen Hreg) as (r & s1 & E1 & Hr1 & Ho1 & H1).
  fold p in H1. rewrite (bindM_done _ _ _ _ _ E1).
  destruct H1 as [(Hr3 & Hnew & c & Hf1 & He1 & _)|(-> & _ & Hd & _)].
  2: { cbn [Z.ltb Z.compare retM]. split; [done|]. split; [done|]. intros j g Hj. apply Ho1; lia. }
  rewrite (proj2 (Z.ltb_ge r 0)) by lia.
  destruct (gloss_close_spec r _ s1 Hr3 Hr1 He1) as (s2 & E2 & Hr2 & Hf2 & Ho2 & He2).
  rewrite (bindM_done _ _ _ _ _ E2).
  set (s3 := GlossSt ENOSYS (g_bound s2) (g_fds s2) (g_dirs s2) (g_world s2)).
  rewrite (bindM_done _ _ s2 (-1) s3) by done.
  assert (Hfd : forall j g, 1 <= j -> fd_entry s2 j = Some g <-> fd_entry s j = Some g).
  { intros j g Hj. destruct (decide (j = r)) as [->|Hne]; [by rewrite He2, Hnew|].
    rewrite (Ho2 j g Hj Hne). by apply Ho1. }
  assert (Hf3 : files (g_world s3) = <[p := c]> (files (g_world s))) by (cbn; congruence).
  assert (Hp3 : qualified (files (g_world s3)) (lock_temp dir) = p).
  { apply qualified_same. rewrite Hf3. apply lookup_insert_ne, lock_temp_not_cwd. }
  destruct (gloss_stat_file (lock_temp dir) c s3 Hcwd Hr2) as (s4 & E4 & Hr4 & Hd4 & Hf4);
    [by rewrite Hp3 | rewrite Hp3, Hf3; apply lookup_insert_eq |].
  rewrite (bindM_done _ _ s3 (0, Some (Fill_Stat (Z.of_nat (length c)) false false)) s4)
    by (unfold gnat_stat; cbn [px_stat gloss_posix]; by rewrite (bindM_done _ _ _ _ _ E4)).
  assert (Hp4 : qualified (files (g_world s4)) (lock_temp dir) = p) by (by rewrite Hf4).
  destruct (gloss_unlink_spec (lock_temp dir) s4 Hcwd Hr4) as (q & s5 & E5 & _ & Hd5 & H5); [by rewrite Hp4|].
  rewrite (bindM_done _ _ _ _ _ E5). rewrite Hp4, Hf4, Hf3 in H5. split; [done|]. split.
  - destruct H5 as [[_ ->]|(_ & _ & ->)]; by rewrite ?delete_delete_eq, delete_insert_eq.
  - intros j g Hj. rewrite <- (Hfd j g Hj). unfold fd_entry. rewrite Hd5, Hd4. done.
Qed.

(** ** Processes *)

(** The state with errno [ENOSYS]. *)
Definition unsupported (s : gloss W) : gloss W :=
  GlossSt ENOSYS (g_bound s) (g_fds s) (g_dirs s) (g_world s).

(** No process is ever started, awaited or signalled: the calls return -1 with
    errno [ENOSYS] and change nothing else; in particular the parent never
    runs the child's branch.  Whatever is asked, [sysconf] answers the page
    size, which is then the number of processors. *)
Lemma processes_refused (args : list (list Z)) (pid sig : Z) (s : gloss W) :
  gnat_portable_spawn args s = Done (-1) (unsupported s) /\
  gnat_portable_no_block_spawn args s = Done (-1) (unsupported s) /\
  (exists st, gnat_portable_wait s = Done (-1, st) (unsupported s)) /\
  (exists st, gnat_portable_no_block_wait s = Done (-1, st) (unsupported s)) /\
  gnat_killprocesstree pid sig s = Done tt (unsupported s) /\
  gnat_number_of_cpus s = Done 4096 s.
Proof. repeat split; by eexists. Qed.

End proc.

(** ** Witness *)

Lemma try_lock_never_witness :
  let p := qualified (tf_files (g_world demo_gloss)) (lock_temp (bytes "Sys:C")) in
  p = bytes "Sys:C/TMP-1-1" /\
  wp (gnat_try_lock (bytes "Sys:C") (bytes "x.lock")) (fun r s' =>
    r = 0 /\ delete p (tf_files (g_world s')) = delete p (tf_files (g_world demo_gloss)) /\
    forall j g, 1 <= j -> fd_entry s' j = Some g <-> fd_entry demo_gloss j = Some g) demo_gloss.
Proof.
  split; [vm_compute; reflexivity|].
  exact (try_lock_never (bytes "Sys:C") (bytes "x.lock") demo_gloss I demo_ready eq_refl eq_refl eq_refl I).
Defined.
