(* ===== verification/Prog.v ===== *)
(** * Programs that share memory

    The client library [Aegir_User.Sockets] and the network server run on
    different harts and share the ring pages of a socket.  Their subprograms
    are written here as trees of the externally visible actions they take
    ([ev]: a byte or word access, a fence, a system call, a call of the lwIP
    glue, with the answer passed to the continuation), so that one definition
    has two readings:

    - [exec]: the program alone, over a world that answers each action;
    - [cstep]: two programs interleaved action by action on one page of
      memory, every other action answered arbitrarily.

    [rg] is a rely-guarantee logic for the second reading: a program keeps
    its guarantee at every action, whatever a peer that keeps the rely did in
    between; [rg_sound] is its soundness. *)
From S2P Require Import Prelude CInt.

(** ** Actions *)

(** The part of the IPC message buffer the programs use: label, words, caps. *)
Record msg := Msg { m_label : Z; m_words : list Z; m_caps : list Z }.

Definition word (m : msg) (i : nat) : Z := nth i (m_words m) 0.

(** Calls of the lwIP glue ([Aknet_*]); pcbs are addresses, 0 is null. *)
Inductive glue_op : Type :=
  | Udp_New (id : Z) | Udp_Bind (pcb port : Z) | Udp_Connect (pcb ip port : Z)
  | Udp_Send (pcb ip port : Z) (data : list Z) | Udp_Del (pcb : Z)
  | Udp_Port_Open (port : Z) | Raw_Send (pcb ip : Z) (data : list Z)
  | Arp_Resolved (ip : Z) | Dns_Resolve (name : list Z) (slot : Z)
  | Tcp_New (id : Z) | Tcp_Bind (pcb port : Z) | Tcp_Listen (pcb id : Z)
  | Tcp_Attach (pcb id : Z) | Tcp_Connect (pcb ip port : Z)
  | Tcp_Write (pcb : Z) (data : list Z) | Tcp_Output (pcb : Z)
  | Tcp_Kick (pcb : Z) | Tcp_Close (pcb id : Z) | Tcp_Peer (pcb : Z)
  | Tcp_Remote_Ip (pcb : Z) | Tcp_Remote_Port (pcb : Z)
  | Hairpin_Drain | Check_Timeouts | Rx_Frame (data : list Z)
  | Dhcp_Bound | Get_Addr.

(** The callbacks of the glue into netserv ([aknet_on_*]). *)
Inductive callback : Type :=
  | On_Udp_Rx (id ip port : Z) (buf : list Z) (len : Z)
  | On_Icmp_Rx (ip : Z) (data : list Z)
  | On_Dns_Reply (slot ip : Z)
  | On_Tcp_Accept (id pcb : Z)
  | On_Tcp_Connected (id err : Z)
  | On_Tcp_Rx (id : Z) (chain : list Z)
  | On_Tcp_Eof (id : Z)
  | On_Tcp_Sent (id len : Z)
  | On_Tcp_Err (id err : Z).

Inductive ev : Type -> Type :=
  | Ld8 (va : Z) : ev Z
  | St8 (va v : Z) : ev unit
  | Ld64 (va : Z) : ev Z
  | St64 (va v : Z) : ev unit
  | Fence : ev unit
  | Read_Time : ev Z
  | Sleep_Until (d : Z) : ev Z
  | Mem_Alloc (pages : Z) : ev Z
  | Ntfn_Create : ev Z
  | Ntfn_Signal (cap bits : Z) : ev Z
  | Mem_Map (cap va off len flags : Z) : ev Z
  | Mem_Unmap (va len : Z) : ev Z
  | Cap_Mint (src rights badge : Z) : ev Z
  | Cap_Delete (cap : Z) : ev Z
  | IPC_Call (cap : Z) (m : msg) : ev (Z * msg)
  | Tab_Append : ev bool
  | IPC_Reply (cap : Z) (m : msg) : ev Z
  | Glue (g : glue_op) : ev (Z * (Z * Z))
  | Next_Callback (r : Z) : ev (option callback).

(** A program: it returns, it acts and goes on with the answer, it raises
    (an index check fails), or its loop bound is used up. *)
Inductive prog (A : Type) : Type :=
  | Ret (a : A)
  | Vis (X : Type) (e : ev X) (k : X -> prog A)
  | Raise
  | Spin.
Arguments Ret {A} a.
Arguments Vis {A X} e k.
Arguments Raise {A}.
Arguments Spin {A}.

Fixpoint bindP {A B} (p : prog A) (f : A -> prog B) : prog B :=
  match p with
  | Ret a => f a
  | Vis e k => Vis e (fun x => bindP (k x) f)
  | Raise => Raise
  | Spin => Spin
  end.

Definition act {X} (e : ev X) : prog X := Vis e Ret.

#[export] Instance prog_ret : MRet prog := fun A a => Ret a.
#[export] Instance prog_bind : MBind prog := fun A B f p => bindP p f.

(** [for I in 0 .. n - 1 loop ... end loop], the index as a number. *)
Fixpoint forP (n : nat) (i : Z) (body : Z -> prog unit) : prog unit :=
  match n with
  | O => mret tt
  | S n' => body i ≫= fun _ => forP n' (i + 1) body
  end.

(** The same, collecting what the body yields. *)
Fixpoint collectP {A} (n : nat) (i : Z) (body : Z -> prog A) : prog (list A) :=
  match n with
  | O => mret []
  | S n' => body i ≫= fun a => collectP n' (i + 1) body ≫= fun l => mret (a :: l)
  end.

(** [mapP] runs a program for each element, in order. *)
Fixpoint mapP {A B} (f : A -> prog B) (l : list A) : prog (list B) :=
  match l with
  | [] => mret []
  | a :: l' => f a ≫= fun b => mapP f l' ≫= fun bs => mret (b :: bs)
  end.

Lemma mapP_cons {A B} (f : A -> prog B) a l :
  mapP f (a :: l) = f a ≫= fun b => mapP f l ≫= fun bs => mret (b :: bs).
Proof. done. Qed.

(** A loop whose body decides whether to go round again. *)
Fixpoint iterP {X A} (fuel : nat) (body : X -> prog (X + A)) (x : X) : prog A :=
  match fuel with
  | O => Spin
  | S n => body x ≫= fun r => match r with inl x' => iterP n body x' | inr a => mret a end
  end.

(** ** The program alone *)

Class Machine (W : Type) := answer : forall X, ev X -> W -> X * W.
Arguments answer {W _ X}.

Inductive result (A : Type) : Type :=
  | Returned (a : A)
  | Raised
  | Looping.
Arguments Returned {A} a.
Arguments Raised {A}.
Arguments Looping {A}.

Fixpoint exec {W A} `{Machine W} (p : prog A) (w : W) : result A * W :=
  match p with
  | Ret a => (Returned a, w)
  | Vis e k => let '(x, w') := answer e w in exec (k x) w'
  | Raise => (Raised, w)
  | Spin => (Looping, w)
  end.

Lemma exec_bind {W A B} `{Machine W} (p : prog A) (f : A -> prog B) w :
  exec (p ≫= f) w =
  match exec p w with
  | (Returned a, w') => exec (f a) w'
  | (Raised, w') => (Raised, w')
  | (Looping, w') => (Looping, w')
  end.
Proof.
  revert w. induction p as [a|X e k IH| |]; intros w; cbn; try done.
  destruct (answer e w) as [x w']. apply IH.
Qed.

Lemma exec_act {W X} `{Machine W} (e : ev X) w :
  exec (act e) w = let '(x, w') := answer e w in (Returned x, w').
Proof. done. Qed.

(** ** A shared page *)

(** The page of memory two programs share, by offset. *)
Definition mem : Type := Z -> Z.

Definition page : Z := 4096.
Definition in_page (o n : Z) : bool := (0 <=? o) && (o + n <=? page).

Definition byte_of (v i : Z) : Z := (v / 256 ^ i) mod 256.

(** A little-endian 64-bit word at [o]. *)
Definition ld64 (m : mem) (o : Z) : Z :=
  m o + m (o + 1) * 256 + m (o + 2) * 256 ^ 2 + m (o + 3) * 256 ^ 3
  + m (o + 4) * 256 ^ 4 + m (o + 5) * 256 ^ 5 + m (o + 6) * 256 ^ 6
  + m (o + 7) * 256 ^ 7.

Definition st8 (m : mem) (o v : Z) : mem := fun x => if x =? o then v else m x.

Definition st64 (m : mem) (o v : Z) : mem :=
  fun x => if (o <=? x) && (x <? o + 8) then byte_of v (x - o) else m x.

(** Whether an action stays inside the page mapped at [base]; actions that
    are not memory accesses always do. *)
Definition ev_ok {X} (base : Z) (e : ev X) : bool :=
  match e with
  | Ld8 va | St8 va _ => in_page (va - base) 1
  | Ld64 va | St64 va _ => in_page (va - base) 8
  | _ => true
  end.

(** What an action may answer and leave in memory: accesses are determined,
    everything else answers anything and leaves the page alone. *)
Definition ev_post {X} (base : Z) (e : ev X) : mem -> X -> mem -> Prop :=
  match e in ev X return mem -> X -> mem -> Prop with
  | Ld8 va => fun m x m' => x = m (va - base) /\ m' = m
  | St8 va v => fun m _ m' => m' = st8 m (va - base) v
  | Ld64 va => fun m x m' => x = ld64 m (va - base) /\ m' = m
  | St64 va v => fun m _ m' => m' = st64 m (va - base) v
  | _ => fun m _ m' => m' = m
  end.

(** ** Two programs interleaved *)

Record config (A B : Type) := Config {
  c_left : prog A; c_right : prog B; c_mem : mem }.
Arguments Config {A B}.
Arguments c_left {A B}.
Arguments c_right {A B}.
Arguments c_mem {A B}.

(** One action of one of the two; the page is mapped at [lb] for the left
    program and at [rb] for the right one. *)
Inductive cstep {A B} (lb rb : Z) : config A B -> config A B -> Prop :=
  | step_left X (e : ev X) k q m x m' :
      ev_ok lb e = true -> ev_post lb e m x m' ->
      cstep lb rb (Config (Vis e k) q m) (Config (k x) q m')
  | step_right X (e : ev X) p k m x m' :
      ev_ok rb e = true -> ev_post rb e m x m' ->
      cstep lb rb (Config p (Vis e k) m) (Config p (k x) m').

(** A program about to leave the page, or that raised. *)
Definition faulty {A} (base : Z) (p : prog A) : bool :=
  match p with
  | Vis e _ => negb (ev_ok base e)
  | Raise => true
  | _ => false
  end.

(** ** A schedule

    A run in which every system call succeeds, chosen by a list that says
    which side moves next; for concrete executions. *)
Definition ev_run {X} (base : Z) (e : ev X) : mem -> X * mem :=
  match e in ev X return mem -> X * mem with
  | Ld8 va => fun m => (m (va - base), m)
  | St8 va v => fun m => (tt, st8 m (va - base) v)
  | Ld64 va => fun m => (ld64 m (va - base), m)
  | St64 va v => fun m => (tt, st64 m (va - base) v)
  | Fence => fun m => (tt, m)
  | IPC_Call _ _ => fun m => ((0, Msg 0 [] []), m)
  | Tab_Append => fun m => (true, m)
  | Glue _ => fun m => ((0, (0, 0)), m)
  | Next_Callback _ => fun m => (None, m)
  | Read_Time | Sleep_Until _ | Mem_Alloc _ | Ntfn_Create | Ntfn_Signal _ _
  | Mem_Map _ _ _ _ _ | Mem_Unmap _ _ | Cap_Mint _ _ _ | Cap_Delete _
  | IPC_Reply _ _ => fun m => (0, m)
  end.

Lemma ev_run_post {X} base (e : ev X) m : ev_post base e m (ev_run base e m).1 (ev_run base e m).2.
Proof. by destruct e. Qed.

Definition move {A} (base : Z) (p : prog A) (m : mem) : prog A * mem :=
  match p with
  | Vis e k =>
      if ev_ok base e then let '(x, m') := ev_run base e m in (k x, m') else (p, m)
  | _ => (p, m)
  end.

Fixpoint schedule {A B} (lb rb : Z) (l : list bool) (c : config A B) : config A B :=
  match l with
  | [] => c
  | true :: l' =>
      let '(p, m) := move lb (c_left c) (c_mem c) in
      schedule lb rb l' (Config p (c_right c) m)
  | false :: l' =>
      let '(q, m) := move rb (c_right c) (c_mem c) in
      schedule lb rb l' (Config (c_left c) q m)
  end.

Lemma schedule_steps {A B} lb rb l (c : config A B) : rtc (cstep lb rb) c (schedule lb rb l c).
Proof.
  revert c. induction l as [|b l IH]; intros [p q m]; [done|]. destruct b; cbn [schedule c_left c_right c_mem].
  - destruct p as [a|X e k| |]; cbn [move]; try apply IH.
    destruct (ev_ok lb e) eqn:E; [|apply IH].
    pose proof (ev_run_post lb e m) as Hp. destruct (ev_run lb e m) as [x m'].
    eapply rtc_l; [by apply step_left|apply IH].
  - destruct q as [a|X e k| |]; cbn [move]; try apply IH.
    destruct (ev_ok rb e) eqn:E; [|apply IH].
    pose proof (ev_run_post rb e m) as Hp. destruct (ev_run rb e m) as [x m'].
    eapply rtc_l; [by apply step_right|apply IH].
Qed.

(** ** Rely and guarantee *)

Section logic.
(** Memory with a ghost component. *)
Context {G : Type}.
Definition gst : Type := mem * G.
Implicit Types R : gst -> gst -> Prop.

(** From [g], whatever the environment does within [R], the program stays
    in its page, its actions stay within [T], and it returns as [Q] says. *)
Fixpoint rg {A} (base : Z) (R T : gst -> gst -> Prop) (p : prog A)
    (Q : A -> gst -> Prop) (g : gst) : Prop :=
  match p with
  | Ret a => forall g', R g g' -> Q a g'
  | Vis e k =>
      forall g', R g g' ->
        ev_ok base e = true /\
        forall x m', ev_post base e g'.1 x m' ->
          exists h, T g' (m', h) /\ rg base R T (k x) Q (m', h)
  | Raise => False
  | Spin => True
  end.

Context (R T : gst -> gst -> Prop) `{!PreOrder R}.

Lemma rg_stable {A} base (p : prog A) Q g g' :
  rg base R T p Q g -> R g g' -> rg base R T p Q g'.
Proof.
  intros H HR. destruct p as [a|X e k| |]; cbn in *; try done;
    intros g2 H2; apply H; by etrans.
Qed.

Lemma rg_bind {A B} base (p : prog A) (f : A -> prog B) Q g :
  rg base R T p (fun a => rg base R T (f a) Q) g -> rg base R T (p ≫= f) Q g.
Proof.
  revert g. induction p as [a|X e k IH| |]; intros g; cbn; try done.
  - intros H. apply H. reflexivity.
  - intros H g' Hg. destruct (H g' Hg) as [Hok HS]. split; [done|].
    intros x m' Hp. destruct (HS x m' Hp) as (h & HT & Hr). eauto.
Qed.

Lemma rg_mono {A} base (p : prog A) (Q Q' : A -> gst -> Prop) g :
  rg base R T p Q g -> (forall a g', Q a g' -> Q' a g') -> rg base R T p Q' g.
Proof.
  intros H HQ. revert g H.
  induction p as [a|X e k IH| |]; intros g; cbn; try done.
  - intros H g' Hg. apply HQ, H, Hg.
  - intros H g' Hg. destruct (H g' Hg) as [Hok HS]. split; [done|].
    intros x m' Hp. destruct (HS x m' Hp) as (h & HT & Hr). eauto.
Qed.

(** A program in tail position. *)
Lemma rg_tail {A} base (p : prog A) Q g :
  rg base R T (p ≫= fun a => mret a) Q g -> rg base R T p Q g.
Proof.
  revert g. induction p as [a|X e k IH| |]; intros g; cbn; try done.
  intros H g' Hg. destruct (H g' Hg) as [Hok HS]. split; [done|].
  intros x m' Hp. destruct (HS x m' Hp) as (h & HT & Hr).
  exists h. split; [done|]. by apply IH.
Qed.

(** [P] is stable: no action of the environment breaks it. *)
Definition stable (P : gst -> Prop) : Prop := forall g g', P g -> R g g' -> P g'.

Lemma rg_ret {A} base (a : A) (Q : A -> gst -> Prop) (P : gst -> Prop) g :
  stable P -> P g -> (forall g', P g' -> Q a g') -> rg base R T (mret a) Q g.
Proof. intros HS HP HQ g' Hg. apply HQ. by eapply HS. Qed.

(** One action, from a stable description of the state. *)
Lemma rg_act {A X} base (e : ev X) (k : X -> prog A) Q (P : gst -> Prop) g :
  stable P -> P g ->
  (forall g', P g' ->
     ev_ok base e = true /\
     forall x m', ev_post base e g'.1 x m' ->
       exists h, T g' (m', h) /\ rg base R T (k x) Q (m', h)) ->
  rg base R T (act e ≫= k) Q g.
Proof. intros HS HP H g' Hg. apply H. by eapply HS. Qed.

(** An action that does not touch memory. *)
Lemma rg_quiet {A X} base (e : ev X) (k : X -> prog A) Q (P : gst -> Prop) g :
  Reflexive T ->
  ev_ok base e = true -> (forall m x m', ev_post base e m x m' -> m' = m) ->
  stable P -> P g ->
  (forall x g', P g' -> rg base R T (k x) Q g') ->
  rg base R T (act e ≫= k) Q g.
Proof.
  intros HT Hok Hq HS HP H. eapply rg_act; [done..|].
  intros [m h] Hg. split; [done|]. intros x m' ->%Hq. exists h. eauto.
Qed.
End logic.
Arguments rg : simpl never.

(** Soundness for two programs: the pair is described by one ghost, and each
    keeps the other's rely. *)
Section sound.
Context {G : Type} {A B : Type} (lb rb : Z).
Context (Rl Rr : @gst G -> @gst G -> Prop) `{!PreOrder Rl, !PreOrder Rr}.
Context (Ql : A -> @gst G -> Prop) (Qr : B -> @gst G -> Prop).

Definition described (c : config A B) : Prop :=
  exists h, rg lb Rl Rr (c_left c) Ql (c_mem c, h) /\
            rg rb Rr Rl (c_right c) Qr (c_mem c, h).

Lemma described_step c c' : cstep lb rb c c' -> described c -> described c'.
Proof.
  destruct 1 as [X e k q m x m' Hok Hp|X e p k m x m' Hok Hp];
    intros (h & Hl & Hr); cbn in *.
  - destruct (Hl (m, h)) as [_ HS]; [reflexivity|].
    destruct (HS x m' Hp) as (h' & HT & Hk). exists h'. split; cbn; [done|].
    eapply rg_stable; eauto.
  - destruct (Hr (m, h)) as [_ HS]; [reflexivity|].
    destruct (HS x m' Hp) as (h' & HT & Hk). exists h'. split; cbn; [|done].
    eapply rg_stable; eauto.
Qed.

Lemma described_steps c c' : rtc (cstep lb rb) c c' -> described c -> described c'.
Proof. induction 1; eauto using described_step. Qed.

Lemma described_safe c :
  described c -> faulty lb (c_left c) = false /\ faulty rb (c_right c) = false.
Proof.
  intros (h & Hl & Hr). destruct c as [p q m]; cbn in *. split.
  - destruct p as [|X e k| |]; cbn in *; try done.
    destruct (Hl (m, h)) as [-> _]; [reflexivity|done].
  - destruct q as [|X e k| |]; cbn in *; try done.
    destruct (Hr (m, h)) as [-> _]; [reflexivity|done].
Qed.

Lemma described_ret a b m :
  described (Config (Ret a) (Ret b) m) -> exists h, Ql a (m, h) /\ Qr b (m, h).
Proof. intros (h & Hl & Hr). exists h. split; [apply Hl|apply Hr]; reflexivity. Qed.
End sound.

(** Programs are finite trees: no interleaving runs for ever. *)
Definition child {A} (q p : prog A) : Prop :=
  match p with
  | Vis _ k => exists x, q = k x
  | _ => False
  end.

Lemma child_wf {A} (p : prog A) : Acc child p.
Proof.
  induction p as [a|X e k IH| |]; constructor; cbn.
  2: intros q [x ->]; apply IH.
  all: intros q [].
Qed.

Lemma cstep_child {A B} lb rb (c c' : config A B) :
  cstep lb rb c c' ->
  child (c_left c') (c_left c) \/
  c_left c' = c_left c /\ child (c_right c') (c_right c).
Proof.
  destruct 1; cbn; [left|right; split]; [eexists|..|eexists]; reflexivity.
Qed.

Lemma cstep_terminates {A B} lb rb (c : config A B) : Acc (flip (cstep lb rb)) c.
Proof.
  destruct c as [p q m]. revert q m.
  induction (child_wf p) as [p _ IHp]. intros q.
  induction (child_wf q) as [q _ IHq]. intros m. constructor.
  intros [p' q' m'] Hs%cstep_child. cbn in Hs.
  destruct Hs as [Hc|[-> Hc]]; eauto.
Qed.

(** ** Programs that stay in their page whatever is in it

    A confined program works on one ring: it accesses its page, fences and
    signals, and no answer, and so no content of memory and no behaviour of a
    peer, makes it leave the page or raise. *)
Definition ring_ev {X} (base : Z) (e : ev X) : bool :=
  match e with
  | Ld8 va | St8 va _ => in_page (va - base) 1
  | Ld64 va | St64 va _ => in_page (va - base) 8
  | Fence | Ntfn_Signal _ _ => true
  | _ => false
  end.

Lemma ring_ev_ok {X} base (e : ev X) : ring_ev base e = true -> ev_ok base e = true.
Proof. by destruct e. Qed.

Fixpoint confined {A} (base : Z) (p : prog A) : Prop :=
  match p with
  | Ret _ => True
  | Vis e k => ring_ev base e = true /\ forall x, confined base (k x)
  | Raise => False
  | Spin => True
  end.
Arguments confined : simpl never.

Lemma confined_bind {A B} base (p : prog A) (f : A -> prog B) :
  confined base p -> (forall a, confined base (f a)) -> confined base (p ≫= f).
Proof.
  intros Hp Hf. induction p as [a|X e k IH| |]; cbn; [apply Hf| |done|done].
  destruct Hp as [Hok Hk]. split; [done|]. intros x. apply IH, Hk.
Qed.

Lemma confined_ret {A} base (a : A) : confined base (mret a).
Proof. done. Qed.

Lemma confined_act {A X} base (e : ev X) (k : X -> prog A) :
  ring_ev base e = true -> (forall x, confined base (k x)) -> confined base (act e ≫= k).
Proof. done. Qed.

Lemma confined_forP base n i body :
  (forall x, i <= x < i + Z.of_nat n -> confined base (body x)) ->
  confined base (forP n i body).
Proof.
  revert i. induction n as [|n IH]; intros i H; [done|]. cbn [forP].
  apply confined_bind; [apply H; lia|]. intros _. apply IH. intros x Hx. apply H. lia.
Qed.

Lemma confined_iterP {X A} base fuel (body : X -> prog (X + A)) x :
  (forall x, confined base (body x)) -> confined base (iterP fuel body x).
Proof.
  intros H. revert x. induction fuel as [|n IH]; intros x; [done|]. cbn [iterP].
  apply confined_bind; [apply H|]. intros [x'|a]; [apply IH|done].
Qed.

(** Beside any program at all. *)
Lemma confined_safe {A B} lb rb (c c' : config A B) :
  confined lb (c_left c) -> rtc (cstep lb rb) c c' -> faulty lb (c_left c') = false.
Proof.
  intros Hc Hs. assert (Hc' : confined lb (c_left c')).
  { induction Hs as [|c1 c2 c3 H12 _ IH]; [done|]. apply IH. clear IH.
    destruct H12; cbn in *; [by apply Hc|done]. }
  destruct c' as [[a|X e k| |] q m]; cbn in *; [done| |done|done].
  destruct Hc' as [->%ring_ev_ok _]. done.
Qed.
