(* ===== verification/Ring.v ===== *)
(** * The socket ring

    A socket's client and netserv share two pages: page 0 is the RX ring
    (netserv puts, the client takes), page 1 the TX ring.  A page has a
    header of 64-bit words (head, tail, dropped), and at offset 64 four slots
    of 1008 bytes: length and flags (16 bits, little-endian), address and
    port (32 bits, big-endian), payload.  Head and tail count slots modulo
    2^64; only the putting side stores the head, only the taking side the
    tail.

    Here are the subprograms that touch a ring, as programs over [ev]:
    [Enqueue_Rx], [Store_Tcp_Rx] and [Enqueue_Eof] of [netserv_engine.adb],
    and the ring part of [Send_To] and [Recv_From] of
    [aegir_user-sockets.adb] (SockBridge.v has the calls around them).  The
    Ada code is compiled with its checks: an index outside a [Byte_Span]
    raises.  Console output on a failed signal is not modelled. *)
From S2P Require Import Prelude CInt Prog.

Definition Slots : Z := 4.
Definition Slot_Size : Z := 1008.
Definition Max_Payload : Z := 996.
Definition Slot_Base : Z := 64.
Definition Wait_Slice : Z := 50000.
Definition Page_Size : Z := 4096.
Definition Slot_Flag_Eof : Z := 1.

Definition Status_Ok : Z := 0.
Definition Status_Timeout : Z := 1.
Definition Status_Not_Ready : Z := 2.
Definition Status_Bad_Args : Z := 3.
Definition Status_Error : Z := 4.
Definition Op_Kick : Z := 23.

(** Slot number [n] of the ring at [base]. *)
Definition slot_at (base n : Z) : Z := base + Slot_Base + (n mod Slots) * Slot_Size.

(** [Mem (i)] of the overlay [Mem : Byte_Span (0 .. Slot_Size - 1)]. *)
Definition Mem_set (slot i v : Z) : prog unit :=
  if i <? Slot_Size then act (St8 (slot + i) v) else Raise.

Definition Mem_get (slot i : Z) : prog Z :=
  if i <? Slot_Size then act (Ld8 (slot + i)) else Raise.

(** Byte [i] of a 32-bit field, most significant first. *)
Definition be_byte (v i : Z) : Z := Z.land (Z.shiftr v (24 - i * 8)) 255.

(** The twelve header bytes of a slot, in the order of the code. *)
Definition slot_header (slot n ip port : Z) : prog unit :=
  _ ← Mem_set slot 0 (n mod 256);
  _ ← Mem_set slot 1 (n / 256);
  _ ← Mem_set slot 2 0;
  _ ← Mem_set slot 3 0;
  forP 4 0 (fun i =>
    _ ← Mem_set slot (4 + i) (be_byte ip i);
    Mem_set slot (8 + i) (be_byte port i)).

(** [for I in 0 .. Last loop Mem (12 + I) := Src (I); end loop], the bound
    taken modulo 2^64 as the code computes it; the index check stops the loop
    after at most one slot, so a slot's size is fuel enough. *)
Fixpoint copy_in (fuel : nat) (slot i last : Z) (src : list Z) : prog unit :=
  match fuel with
  | O => Spin
  | S n =>
      if last <? i then mret tt
      else
        _ ← Mem_set slot (12 + i) (nth (Z.to_nat i) src 0);
        copy_in n slot (i + 1) last src
  end.

Definition slot_fuel : nat := Z.to_nat Slot_Size.

(** ** The server's side *)

(** [Enqueue_Rx]: [va] is the socket's ring window, [ntfn] its notification,
    [src] the bytes at [Src_VA]. *)
Definition Enqueue_Rx (va ntfn src_ip src_port : Z) (src : list Z) (len : Z)
    : prog unit :=
  head ← act (Ld64 va);
  tail ← act (Ld64 (va + 8));
  if Slots <=? u64 (head - tail) then
    dropped ← act (Ld64 (va + 16));
    act (St64 (va + 16) (u64 (dropped + 1)))
  else
    let n := Z.min len Max_Payload in
    let slot := slot_at va head in
    _ ← slot_header slot n src_ip src_port;
    _ ← copy_in slot_fuel slot 0 (u64 (n - 1)) src;
    _ ← act Fence;
    _ ← act (St64 va (u64 (head + 1)));
    _ ← act (Ntfn_Signal ntfn 1);
    mret tt.

(** The store loop of [Store_Tcp_Rx]; it yields the new head. *)
Definition store_chain (va peer_ip peer_port : Z) (chain : list Z) (total : Z)
    (st : Z * Z) : prog ((Z * Z) + Z) :=
  let '(off, head) := st in
  if off <? total then
    let n := Z.min (total - off) Max_Payload in
    let slot := slot_at va head in
    _ ← slot_header slot n peer_ip peer_port;
    _ ← forP (Z.to_nat n) 0 (fun i =>
          act (St8 (slot + 12 + i) (nth (Z.to_nat (off + i)) chain 0)));
    mret (inl (off + n, u64 (head + 1)))
  else mret (inr head).

(** [Store_Tcp_Rx]: a pbuf chain of [total] bytes, whole or not at all.
    [Aknet_Pbuf_Copy] copies bytes of the chain into the slot. *)
Definition Store_Tcp_Rx (va ntfn peer_ip peer_port : Z) (chain : list Z)
    (total : Z) : prog bool :=
  head ← act (Ld64 va);
  tail ← act (Ld64 (va + 8));
  if Slots * Max_Payload <? u64 (u64 (u64 (head - tail) * Max_Payload) + total)
  then mret false
  else
    head' ← iterP (S (Z.to_nat total))
              (store_chain va peer_ip peer_port chain total) (0, head);
    _ ← act Fence;
    _ ← act (St64 va head');
    _ ← act (Ntfn_Signal ntfn 1);
    mret true.

(** [Enqueue_Eof]: the zero-length marker slot; [false] when the ring is
    full. *)
Definition Enqueue_Eof (va ntfn : Z) : prog bool :=
  head ← act (Ld64 va);
  tail ← act (Ld64 (va + 8));
  if Slots <=? u64 (head - tail) then mret false
  else
    let slot := slot_at va head in
    _ ← Mem_set slot 0 0;
    _ ← Mem_set slot 1 0;
    _ ← Mem_set slot 2 Slot_Flag_Eof;
    _ ← Mem_set slot 3 0;
    _ ← act Fence;
    _ ← act (St64 va (u64 (head + 1)));
    _ ← act (Ntfn_Signal ntfn 1);
    mret true.

(** ** The client's side *)

(** The wait loop of [Send_To]: head once a slot is free, or the status to
    return. *)
Definition send_wait (base deadline : Z) (_ : unit) : prog (unit + (Z + Z)) :=
  head ← act (Ld64 base);
  tail ← act (Ld64 (base + 8));
  if u64 (head - tail) <? Slots then mret (inr (inl head))
  else
    now ← act Read_Time;
    if deadline <=? now then mret (inr (inr Status_Not_Ready))
    else
      now' ← act Read_Time;
      r ← act (Sleep_Until (u64 (now' + Wait_Slice)));
      if r =? 0 then mret (inl tt) else mret (inr (inr Status_Error)).

(** [Send_To] past its argument checks: [va] is the socket's window, [len] is
    between 1 and [Max_Payload]. *)
Definition send_ring (fuel : nat) (handle va : Z) (src : list Z) (len ip port : Z)
    : prog Z :=
  let base := va + Page_Size in
  t ← act Read_Time;
  let deadline := u64 (t + Wait_Slice * 100) in
  w ← iterP fuel (send_wait base deadline) tt;
  match w with
  | inr st => mret st
  | inl head =>
      let slot := slot_at base head in
      _ ← slot_header slot len ip port;
      _ ← copy_in slot_fuel slot 0 (u64 (len - 1)) src;
      _ ← act Fence;
      _ ← act (St64 base (u64 (head + 1)));
      r ← act (IPC_Call handle (Msg Op_Kick [] []));
      if r.1 =? 0 then mret (word r.2 0) else mret Status_Error
  end.

(** What [Recv_From] leaves in its out parameters. *)
Record taken := Taken {
  tk_status : Z; tk_ip : Z; tk_port : Z; tk_data : list Z; tk_count : Z }.

(** The slot reads of [Recv_From], up to the tail store. *)
Definition take_slot (base tail max : Z) : prog taken :=
  let slot := slot_at base tail in
  l0 ← Mem_get slot 0; l1 ← Mem_get slot 1;
  f0 ← Mem_get slot 2; f1 ← Mem_get slot 3;
  let len := l0 + l1 * 256 in
  let flags := f0 + f1 * 256 in
  bs ← collectP 4 0 (fun i =>
         a ← Mem_get slot (4 + i); b ← Mem_get slot (8 + i); mret (a, b));
  let ip := fold_left (fun v b => u32 (v * 256 + b.1)) bs 0 in
  let port := fold_left (fun v b => u64 (v * 256 + b.2)) bs 0 in
  let count := Z.min len max in
  data ← collectP (Z.to_nat count) 0 (fun i => Mem_get slot (12 + i));
  _ ← act (St64 (base + 8) (u64 (tail + 1)));
  mret (Taken Status_Ok ip port data
          (if Z.land flags 1 =? 0 then count else 0)).

(** One round of [Recv_From]'s loop. *)
Definition recv_round (base max timeout deadline : Z) (_ : unit)
    : prog (unit + taken) :=
  head ← act (Ld64 base);
  tail ← act (Ld64 (base + 8));
  if negb (tail =? head) then
    _ ← act Fence;
    r ← take_slot base tail max;
    mret (inr r)
  else
    now ← act Read_Time;
    if (timeout =? 0) || (deadline <=? now) then
      mret (inr (Taken Status_Timeout 0 0 [] 0))
    else
      r ← act (Sleep_Until (Z.min deadline (u64 (now + Wait_Slice))));
      if r =? 0 then mret (inl tt) else mret (inr (Taken Status_Error 0 0 [] 0)).

(** [Recv_From] past its handle check. *)
Definition recv_ring (fuel : nat) (va max timeout : Z) : prog taken :=
  t ← act Read_Time;
  iterP fuel (recv_round va max timeout (u64 (t + timeout))) tt.
