(* ===== verification/RingInv.v ===== *)
(** * The ring's invariant and the two sides' contracts

    The ghost state of a ring is the list of items put so far and the list of
    items taken so far.  [ring_inv] ties it to the page: what was put is what
    was taken and at most four more, head and tail are the two counts modulo
    2^64, and each item put and not yet taken is in its slot.  [by_taker] is
    what the taking side may do to the page (all the putting side relies on),
    [by_putter] what the putting side may do.

    The lemmas give each side's rules: the putting side owns the free slots
    and sees them as private memory; the taking side may read the oldest
    item. *)
From S2P Require Import Prelude CInt Prog Ring.

(** ** Words and bytes in memory *)

Lemma byte_of_range v i : in_u8 (byte_of v i).
Proof. unfold byte_of, in_u8. zlia. Qed.

Lemma ld64_ext (m n : mem) o :
  (forall x, o <= x < o + 8 -> m x = n x) -> ld64 m o = ld64 n o.
Proof. intros H. unfold ld64. rewrite !H by lia. done. Qed.

Lemma ld64_st64 m o v : in_u64 v -> ld64 (st64 m o v) o = v.
Proof.
  intros Hv. unfold ld64, st64.
  repeat match goal with
  | |- context [(o <=? ?x) && (?x <? o + 8)] =>
      replace ((o <=? x) && (x <? o + 8)) with true
        by (symmetry; apply andb_true_intro; split; [apply Z.leb_le|apply Z.ltb_lt]; lia)
  end.
  replace (o - o) with 0 by lia.
  repeat match goal with
  | |- context [o + ?k - o] => replace (o + k - o) with k by lia
  end.
  unfold byte_of, in_u64 in *. change (256 ^ 0) with 1. zlia.
Qed.

Lemma ld64_st64_ne m o o' v : o + 8 <= o' \/ o' + 8 <= o ->
  ld64 (st64 m o v) o' = ld64 m o'.
Proof.
  intros H. apply ld64_ext. intros x Hx. unfold st64.
  destruct ((o <=? x) && (x <? o + 8)) eqn:E; [|done]. bool_to_prop. lia.
Qed.

Lemma ld64_st8 m o v o' : ~ (o' <= o < o' + 8) -> ld64 (st8 m o v) o' = ld64 m o'.
Proof.
  intros H. apply ld64_ext. intros x Hx. unfold st8.
  destruct (x =? o) eqn:E; [|done]. bool_to_prop. lia.
Qed.

Lemma st8_eq m o v x : x = o -> st8 m o v x = v.
Proof. intros ->. unfold st8. by rewrite Z.eqb_refl. Qed.

Lemma st8_ne m o v x : x <> o -> st8 m o v x = m x.
Proof. intros H. unfold st8. destruct (x =? o) eqn:E; [|done]. bool_to_prop. lia. Qed.

Lemma st64_ne m o v x : ~ (o <= x < o + 8) -> st64 m o v x = m x.
Proof.
  intros H. unfold st64. destruct ((o <=? x) && (x <? o + 8)) eqn:E; [|done].
  bool_to_prop. lia.
Qed.

(** ** Items *)

(** What travels through a ring: a datagram or a piece of a stream with the
    peer's address, or the end-of-stream marker. *)
Inductive item : Type :=
  | Data (ip port : Z) (bytes : list Z)
  | Eof.

Definition be32 (v : Z) : list Z := [be_byte v 0; be_byte v 1; be_byte v 2; be_byte v 3].

(** The bytes an item has in its slot. *)
Definition item_bytes (it : item) : list Z :=
  match it with
  | Data ip port bs =>
      [Z.of_nat (length bs) mod 256; Z.of_nat (length bs) / 256; 0; 0]
        ++ be32 ip ++ be32 port ++ bs
  | Eof => [0; 0; Slot_Flag_Eof; 0]
  end.

Definition item_ok (it : item) : Prop :=
  match it with
  | Data ip port bs => in_u32 ip /\ in_u32 port /\ Z.of_nat (length bs) <= Max_Payload
  | Eof => True
  end.

Definition holds (m : mem) (o : Z) (bs : list Z) : Prop :=
  forall i b, bs !! i = Some b -> m (o + Z.of_nat i) = b.

(** ** The invariant *)

(** Items put, items taken. *)
Definition history : Type := list item * list item.
Notation rst := (@gst history).
Definition puts (g : rst) : list item := g.2.1.
Definition takes (g : rst) : list item := g.2.2.

Definition count {A} (l : list A) : Z := Z.of_nat (length l).

Record ring_inv (g : rst) : Prop := {
  inv_queue : exists q, puts g = takes g ++ q /\ count q <= Slots /\
    forall i it, q !! i = Some it ->
      item_ok it /\ holds g.1 (slot_at 0 (count (takes g) + Z.of_nat i)) (item_bytes it);
  inv_head : ld64 g.1 0 = u64 (count (puts g));
  inv_tail : ld64 g.1 8 = u64 (count (takes g))
}.

(** What the taking side may do. *)
Definition by_taker (g g' : rst) : Prop :=
  (ring_inv g -> ring_inv g') /\ puts g' = puts g /\
  takes g `prefix_of` takes g' /\
  (forall x, ~ (8 <= x < 16) -> g'.1 x = g.1 x).

(** What the putting side may do. *)
Definition by_putter (g g' : rst) : Prop :=
  (ring_inv g -> ring_inv g') /\ takes g' = takes g /\
  puts g `prefix_of` puts g'.

#[export] Instance by_taker_preorder : PreOrder by_taker.
Proof.
  split; [by intros g|]. intros g1 g2 g3 (I1&P1&T1&M1) (I2&P2&T2&M2).
  split_and!; [tauto|congruence|by etrans|]. intros x Hx. by rewrite M2, M1.
Qed.

#[export] Instance by_putter_preorder : PreOrder by_putter.
Proof.
  split; [by intros g|]. intros g1 g2 g3 (I1&P1&T1) (I2&P2&T2).
  split_and!; [tauto|congruence|by etrans].
Qed.

(** An empty page is an empty ring. *)
Lemma ring_inv_empty m :
  ld64 m 0 = 0 -> ld64 m 8 = 0 -> ring_inv (m, ([], [])).
Proof.
  intros H0 H8. split; cbn; [|done..].
  exists []. split_and!; [done|unfold count, Slots; cbn; lia|done].
Qed.

(** ** Slots *)

Lemma slot_at_base b n : slot_at b n = b + slot_at 0 n.
Proof. unfold slot_at. lia. Qed.

Lemma slot_at_mod b n : slot_at b (u64 n) = slot_at b n.
Proof. unfold slot_at, u64, Slots. f_equal. f_equal. zlia. Qed.

Lemma slot_at_bounds n : 64 <= slot_at 0 n <= page - Slot_Size.
Proof. unfold slot_at, Slot_Base, Slots, Slot_Size, page. zlia. Qed.

(** Slots whose numbers are less than four apart are disjoint. *)
Lemma slots_apart a d : 0 < d < Slots ->
  slot_at 0 a + Slot_Size <= slot_at 0 (a + d) \/
  slot_at 0 (a + d) + Slot_Size <= slot_at 0 a.
Proof. unfold slot_at, Slots, Slot_Size. intros H. zlia. Qed.

Lemma item_bytes_fit it : item_ok it -> count (item_bytes it) <= Slot_Size.
Proof.
  unfold count, Slot_Size. destruct it as [ip port bs|]; cbn; [|lia].
  unfold Max_Payload. lia.
Qed.

Lemma holds_ext (m n : mem) o bs :
  (forall x, o <= x < o + count bs -> m x = n x) -> holds n o bs -> holds m o bs.
Proof.
  intros H Hn i b Hi. rewrite H; [by apply Hn|].
  apply lookup_lt_Some in Hi. unfold count. lia.
Qed.

Lemma u64_diff a b : 0 <= a - b < 2 ^ 64 -> u64 (u64 a - u64 b) = a - b.
Proof. intros H. unfold u64 in *. zlia. Qed.

(** ** The putting side

    [putting s k n g]: the items put are [s], at least [k] slots past the
    last of them are free and stay free, and all of the page but the tail
    word is as in [n]. *)
Record putting (s : list item) (k : Z) (n : mem) (g : rst) : Prop := {
  pt_inv : ring_inv g;
  pt_puts : puts g = s;
  pt_room : count s + k <= count (takes g) + Slots;
  pt_mem : forall x, ~ (8 <= x < 16) -> g.1 x = n x
}.

Lemma putting_stable s k n : stable by_taker (putting s k n).
Proof.
  intros g g' [Hi Hp Hr Hm] (I & P & T & M). split; [tauto|congruence| |].
  - apply prefix_length in T. unfold count in *. lia.
  - intros x Hx. by rewrite M, Hm.
Qed.

Lemma putting_start m g : ring_inv g -> g.1 = m -> putting (puts g) 0 m g.
Proof.
  intros Hi <-. split; [done..| |done].
  destruct (inv_queue g Hi) as (q & Hq & Hl & _). rewrite Hq.
  unfold count in *. rewrite length_app. lia.
Qed.

Lemma putting_weaken s k k' n g : k' <= k -> putting s k n g -> putting s k' n g.
Proof. intros Hk []. split; [done..|lia|done]. Qed.

(** An offset in one of the [k] free slots behind [s]. *)
Definition free_off (s : list item) (k o : Z) : Prop :=
  exists j, 0 <= j < k /\
    slot_at 0 (count s + j) <= o < slot_at 0 (count s + j) + Slot_Size.

(** A store to a free slot keeps the invariant: no item waits there. *)
Lemma ring_inv_free s k n g o v :
  putting s k n g -> free_off s k o -> ring_inv (st8 g.1 o v, g.2).
Proof.
  intros [Hi Hp Hr Hm] (j & Hj & Ho).
  pose proof (slot_at_bounds (count s + j)) as Hb.
  destruct (inv_queue g Hi) as (q & Hq & Hl & Hh).
  split; cbn.
  - exists q. split_and!; [done..|]. intros i it Hit.
    destruct (Hh i it Hit) as [Hok Hold]. split; [done|].
    eapply holds_ext; [|done]. intros x Hx. apply st8_ne. intros ->.
    apply item_bytes_fit in Hok. apply lookup_lt_Some in Hit.
    assert (Hs : count s = count (takes g) + count q)
      by (rewrite <- Hp, Hq; unfold count; rewrite length_app; lia).
    destruct (slots_apart (count (takes g) + Z.of_nat i) (count q - Z.of_nat i + j));
      [unfold count in *; lia|..];
      replace (count (takes g) + Z.of_nat i + (count q - Z.of_nat i + j))
        with (count s + j) in * by lia;
      change (takes (_, _)) with (takes g) in *; lia.
  - rewrite ld64_st8 by lia. apply Hi.
  - rewrite ld64_st8 by lia. apply Hi.
Qed.

Lemma putting_free s k n g o v :
  putting s k n g -> free_off s k o ->
  putting s k (st8 n o v) (st8 g.1 o v, g.2) /\ by_putter g (st8 g.1 o v, g.2).
Proof.
  intros H Ho. pose proof (ring_inv_free _ _ _ _ _ v H Ho) as Hi'.
  destruct H as [Hi Hp Hr Hm]. split.
  - split; [done..|]. intros x Hx. unfold st8; cbn. by rewrite Hm.
  - split_and!; [done|done|]. by cbn.
Qed.

Section putter.
Context {A : Type} (va : Z) (Q : A -> rst -> Prop).
Notation rgp := (rg va by_taker by_putter).

Lemma rg_store s k n g o v (c : unit -> prog A) :
  putting s k n g -> free_off s k o ->
  (forall g', putting s k (st8 n o v) g' -> rgp (c tt) Q g') ->
  rgp (act (St8 (va + o) v) ≫= c) Q g.
Proof.
  intros HP Ho Hk. eapply rg_act; [apply putting_stable|done|].
  intros [m h] Hg. cbn. replace (va + o - va) with o by lia. split.
  - destruct Ho as (j & Hj & Ho). pose proof (slot_at_bounds (count s + j)).
    unfold in_page. apply andb_true_intro; split; apply Z.leb_le; lia.
  - intros [] m' ->. exists h.
    destruct (putting_free _ _ _ _ _ v Hg Ho) as [Hp Hb]. eauto.
Qed.

(** A store of the slot overlay. *)
Lemma rg_Mem_set s k n g j i v (c : unit -> prog A) :
  putting s k n g -> 0 <= j < k -> 0 <= i < Slot_Size ->
  (forall g', putting s k (st8 n (slot_at 0 (count s + j) + i) v) g' ->
     rgp (c tt) Q g') ->
  rgp (Mem_set (slot_at va (count s + j)) i v ≫= c) Q g.
Proof.
  intros HP Hj Hi Hk. unfold Mem_set.
  replace (i <? Slot_Size) with true by (symmetry; apply Z.ltb_lt; lia).
  rewrite slot_at_base, <- Z.add_assoc. eapply rg_store; [done| |done].
  exists j. split; [done|lia].
Qed.

(** Actions that leave memory alone. *)
Lemma rg_put_quiet {X} s k n g (e : ev X) (c : X -> prog A) :
  ev_ok va e = true -> (forall m x m', ev_post va e m x m' -> m' = m) ->
  putting s k n g ->
  (forall x g', putting s k n g' -> rgp (c x) Q g') ->
  rgp (act e ≫= c) Q g.
Proof.
  intros Hok Hq HP Hk.
  eapply rg_quiet; [apply _|done|done|apply putting_stable|done|done].
Qed.

(** Loading head and tail: the head is exact, the tail a lower bound of the
    present one. *)
Lemma rg_put_load s n g (c : Z -> Z -> prog A) :
  putting s 0 n g ->
  (forall t g', 0 <= count s - t <= Slots ->
     putting s (Slots - (count s - t)) n g' ->
     rgp (c (u64 (count s)) (u64 t)) Q g') ->
  rgp (head ← act (Ld64 va); tail ← act (Ld64 (va + 8)); c head tail) Q g.
Proof.
  intros HP Hk. eapply rg_act; [apply putting_stable|done|].
  intros [m h] Hg. cbn. replace (va - va) with 0 by lia. split; [done|].
  intros x m' [-> ->]. exists h. split; [reflexivity|].
  pose proof (inv_head _ (pt_inv _ _ _ _ Hg)) as Hh. cbn in Hh. rewrite Hh.
  rewrite (pt_puts _ _ _ _ Hg). clear Hh.
  eapply (rg_act _ _ _ (Ld64 (va + 8))); [apply putting_stable|exact Hg|].
  clear g HP m h Hg. intros [m h] Hg. cbn.
  replace (va + 8 - va) with 8 by lia. split; [done|].
  intros x m' [-> ->]. exists h. split; [reflexivity|].
  pose proof (inv_tail _ (pt_inv _ _ _ _ Hg)) as Ht. cbn in Ht. rewrite Ht.
  destruct (inv_queue _ (pt_inv _ _ _ _ Hg)) as (q & Hq & Hl & _).
  pose proof (pt_puts _ _ _ _ Hg) as Hp. rewrite Hp in Hq.
  assert (Hs : count s = count (takes (m, h)) + count q)
    by (rewrite Hq; unfold count; rewrite length_app; lia).
  apply Hk; [unfold count in *; lia|].
  destruct Hg as [Hi _ Hr Hm]. split; [done..|lia|done].
Qed.
End putter.

(** Publishing: the head store makes the prepared items visible. *)
Lemma ring_inv_publish s k n g its :
  putting s k n g -> count its <= k ->
  (forall j it, its !! j = Some it ->
     item_ok it /\ holds n (slot_at 0 (count s + Z.of_nat j)) (item_bytes it)) ->
  ring_inv (st64 g.1 0 (u64 (count s + count its)), (s ++ its, takes g)).
Proof.
  intros [Hi Hp Hr Hm] Hk Hits.
  destruct (inv_queue g Hi) as (q & Hq & Hl & Hh). rewrite Hp in Hq.
  assert (Hs : count s = count (takes g) + count q)
    by (rewrite Hq; unfold count; rewrite length_app; lia).
  split; cbn.
  - exists (q ++ its). split_and!; [by rewrite Hq, app_assoc| |].
    + unfold count in *. rewrite length_app. lia.
    + intros i it Hit. rewrite lookup_app in Hit.
      destruct (q !! i) as [it'|] eqn:E.
      1: injection Hit as ->.
      * destruct (Hh i it E) as [Hok Hold]. split; [done|].
        eapply holds_ext; [|done]. intros x Hx. apply st64_ne.
        pose proof (slot_at_bounds (count (takes g) + Z.of_nat i)).
        change (takes (_, _)) with (takes g) in *. lia.
      * destruct (Hits _ it Hit) as [Hok Hold]. split; [done|].
        apply lookup_ge_None in E.
        replace (count (takes g) + Z.of_nat i) with (count s + Z.of_nat (i - length q))
          by (unfold count in *; lia).
        eapply holds_ext; [|done]. intros x Hx.
        pose proof (slot_at_bounds (count s + Z.of_nat (i - length q))).
        rewrite st64_ne by lia. apply Hm. lia.
  - rewrite ld64_st64 by apply u64_range. unfold puts, count; cbn.
    rewrite length_app. f_equal. lia.
  - rewrite ld64_st64_ne by lia. apply Hi.
Qed.

Lemma rg_publish {A} va (Q : A -> rst -> Prop) s k n g its h (c : unit -> prog A) :
  putting s k n g -> count its <= k -> h = u64 (count s + count its) ->
  (forall j it, its !! j = Some it ->
     item_ok it /\ holds n (slot_at 0 (count s + Z.of_nat j)) (item_bytes it)) ->
  (forall g', putting (s ++ its) (k - count its) (st64 n 0 h) g' ->
     rg va by_taker by_putter (c tt) Q g') ->
  rg va by_taker by_putter (act (St64 va h) ≫= c) Q g.
Proof.
  intros HP Hk -> Hits Hc. eapply rg_act; [apply putting_stable|exact HP|].
  clear g HP. intros g Hg. cbn. replace (va - va) with 0 by lia.
  split; [done|]. intros [] m' ->. exists (s ++ its, takes g).
  pose proof (ring_inv_publish _ _ _ _ _ Hg Hk Hits) as Hi'.
  destruct Hg as [Hi Hp Hr Hm]. split.
  - split_and!; [done|done|]. rewrite Hp. by apply prefix_app_r.
  - apply Hc. split; [done|done| |].
    + unfold count in *. rewrite length_app. cbn. lia.
    + intros x Hx. cbn. unfold st64. by rewrite Hm.
Qed.

(** ** The taking side

    [taking r s g]: the items taken are [r], and at least [s] have been put. *)
Record taking (r s : list item) (g : rst) : Prop := {
  tk_inv : ring_inv g;
  tk_takes : takes g = r;
  tk_puts : s `prefix_of` puts g
}.

Lemma taking_stable r s : stable by_putter (taking r s).
Proof.
  intros g g' [Hi Ht Hp] (I & T & P). split; [tauto|congruence|by etrans].
Qed.

(** The oldest waiting item is in its slot. *)
Lemma taking_holds r it g :
  taking r (r ++ [it]) g ->
  item_ok it /\ holds g.1 (slot_at 0 (count r)) (item_bytes it).
Proof.
  intros [Hi Ht [l Hp]]. destruct (inv_queue g Hi) as (q & Hq & _ & Hh).
  rewrite Ht in Hq. rewrite Hp, <- app_assoc in Hq. apply app_inv_head in Hq.
  specialize (Hh 0%nat it). subst q.
  rewrite Ht, Z.add_0_r in Hh. by apply Hh.
Qed.

(** Taking it: the tail store. *)
Lemma ring_inv_take r it g :
  taking r (r ++ [it]) g ->
  ring_inv (st64 g.1 8 (u64 (count r + 1)), (puts g, r ++ [it])).
Proof.
  intros [Hi Ht [l Hp]]. destruct (inv_queue g Hi) as (q & Hq & Hl & Hh).
  rewrite Ht in *. pose proof Hq as Hq'. rewrite Hp, <- app_assoc in Hq'.
  apply app_inv_head in Hq'. cbn in Hq'. subst q. split; cbn.
  - exists l. split_and!; [by rewrite <- app_assoc| |].
    + unfold count in *. cbn in Hl. lia.
    + intros i it' Hit. destruct (Hh (S i) it' Hit) as [Hok Hold]. split; [done|].
      unfold takes; cbn. replace (count (r ++ [it]) + Z.of_nat i)
        with (count r + Z.of_nat (S i)) by (unfold count; rewrite length_app; cbn; lia).
      eapply holds_ext; [|done]. intros x Hx. apply st64_ne.
      pose proof (slot_at_bounds (count r + Z.of_nat (S i))). lia.
  - rewrite ld64_st64_ne by lia. apply Hi.
  - rewrite ld64_st64 by apply u64_range. unfold takes, count; cbn.
    rewrite length_app. f_equal. cbn. lia.
Qed.

Section taker.
Context {A : Type} (va : Z) (Q : A -> rst -> Prop).
Notation rgt := (rg va by_putter by_taker).

Lemma rg_take_quiet {X} r s g (e : ev X) (c : X -> prog A) :
  ev_ok va e = true -> (forall m x m', ev_post va e m x m' -> m' = m) ->
  taking r s g ->
  (forall x g', taking r s g' -> rgt (c x) Q g') ->
  rgt (act e ≫= c) Q g.
Proof.
  intros Hok Hq HP Hk.
  eapply rg_quiet; [apply _|done|done|apply taking_stable|done|done].
Qed.

(** Loading head and tail: the tail is exact; when they differ there is an
    item. *)
Lemma rg_take_load r s g (c : Z -> Z -> prog A) :
  taking r s g ->
  (forall s' g', taking r (r ++ s') g' -> count s' <= Slots ->
     rgt (c (u64 (count r + count s')) (u64 (count r))) Q g') ->
  rgt (head ← act (Ld64 va); tail ← act (Ld64 (va + 8)); c head tail) Q g.
Proof.
  intros HP Hk. eapply rg_act; [apply taking_stable|exact HP|].
  clear g HP. intros [m h] Hg. cbn. replace (va - va) with 0 by lia.
  split; [done|]. intros x m' [-> ->]. exists h. split; [reflexivity|].
  pose proof (inv_head _ (tk_inv _ _ _ Hg)) as Hh. cbn in Hh. rewrite Hh. clear Hh.
  destruct (inv_queue _ (tk_inv _ _ _ Hg)) as (q & Hq & Hl & _).
  pose proof (tk_takes _ _ _ Hg) as Ht. rewrite Ht in Hq. rewrite Hq.
  assert (HP : taking r (r ++ q) (m, h))
    by (destruct Hg; split; [done..|by rewrite Hq]).
  replace (count (r ++ q)) with (count r + count q)
    by (unfold count; rewrite length_app; lia).
  clear Hg Hq Ht. eapply (rg_act _ _ _ (Ld64 (va + 8))); [apply taking_stable|exact HP|].
  clear HP m h. intros [m h] Hg. cbn.
  replace (va + 8 - va) with 8 by lia. split; [done|].
  intros x m' [-> ->]. exists h. split; [reflexivity|].
  pose proof (inv_tail _ (tk_inv _ _ _ Hg)) as Ht. cbn in Ht. rewrite Ht.
  rewrite (tk_takes _ _ _ Hg). by apply Hk.
Qed.

(** Reading a byte of the oldest item's slot. *)
Lemma rg_Mem_get r it g i (c : Z -> prog A) :
  taking r (r ++ [it]) g -> 0 <= i < Slot_Size ->
  (forall x g', taking r (r ++ [it]) g' ->
     (forall b, item_bytes it !! Z.to_nat i = Some b -> x = b) ->
     rgt (c x) Q g') ->
  rgt (Mem_get (slot_at va (count r)) i ≫= c) Q g.
Proof.
  intros HP Hi Hk. unfold Mem_get.
  replace (i <? Slot_Size) with true by (symmetry; apply Z.ltb_lt; lia).
  eapply rg_act; [apply taking_stable|exact HP|].
  clear g HP. intros [m h] Hg. cbn. rewrite slot_at_base.
  replace (va + slot_at 0 (count r) + i - va) with (slot_at 0 (count r) + i) by lia.
  split.
  - pose proof (slot_at_bounds (count r)).
    unfold in_page. apply andb_true_intro; split; apply Z.leb_le; lia.
  - intros x m' [-> ->]. exists h. split; [reflexivity|]. apply Hk; [done|].
    intros b Hb. destruct (taking_holds _ _ _ Hg) as [_ Hh].
    apply Hh in Hb. by rewrite Z2Nat.id in Hb by lia.
Qed.

Lemma rg_take_done r it g (c : unit -> prog A) :
  taking r (r ++ [it]) g ->
  (forall g', taking (r ++ [it]) [] g' -> rgt (c tt) Q g') ->
  rgt (act (St64 (va + 8) (u64 (u64 (count r) + 1))) ≫= c) Q g.
Proof.
  intros HP Hc. eapply rg_act; [apply taking_stable|exact HP|].
  clear g HP. intros g Hg. cbn. replace (va + 8 - va) with 8 by lia.
  split; [done|]. intros [] m' ->. exists (puts g, r ++ [it]).
  replace (u64 (u64 (count r) + 1)) with (u64 (count r + 1)) by (unfold u64; zlia).
  pose proof (ring_inv_take _ _ _ Hg) as Hi'.
  split.
  - destruct Hg as [Hi Ht Hp]. split_and!; [done|done| |].
    + rewrite Ht. by apply prefix_app_r.
    + intros x Hx. cbn. apply st64_ne. lia.
  - apply Hc. split; [done|done|apply prefix_nil].
Qed.
End taker.
