(* ===== verification/RingSpec.v ===== *)
(** * The ring is a bounded FIFO, under every interleaving

    Each subprogram of Ring.v against the invariant of RingInv.v, then the
    theorems on two programs running at once: what the client takes is what
    the server put, in order, untorn, nothing twice and nothing lost but what
    the dropped counter says. *)
From S2P Require Import Prelude CInt Prog Ring RingInv.

(** ** Bytes of an item *)

Definition header_bytes (len ip port : Z) : list Z :=
  [len mod 256; len / 256; 0; 0] ++ be32 ip ++ be32 port.

Lemma item_bytes_data ip port bs :
  item_bytes (Data ip port bs) = header_bytes (count bs) ip port ++ bs.
Proof. done. Qed.

Lemma holds_app m o l1 l2 :
  holds m o (l1 ++ l2) <-> holds m o l1 /\ holds m (o + count l1) l2.
Proof.
  unfold holds, count. split.
  - intros H. split; intros i b Hi.
    + apply H. by apply lookup_app_l_Some.
    + replace (o + Z.of_nat (length l1) + Z.of_nat i)
        with (o + Z.of_nat (length l1 + i)) by lia.
      apply H. rewrite lookup_app_r by lia. by replace (length l1 + i - length l1)%nat with i by lia.
  - intros [H1 H2] i b Hi. apply lookup_app_Some in Hi as [Hi|[Hge Hi]]; [by apply H1|].
    apply H2 in Hi. rewrite <- Hi. f_equal. lia.
Qed.

Lemma be_byte_range v i : in_u8 (be_byte v i).
Proof.
  unfold be_byte, in_u8. change 255 with (Z.ones 8).
  rewrite Z.land_ones by lia. zlia.
Qed.

Lemma be_byte_div v i : 0 <= i <= 3 -> be_byte v i = v / 2 ^ (24 - i * 8) mod 256.
Proof.
  intros H. unfold be_byte. change 255 with (Z.ones 8).
  rewrite Z.land_ones by lia. by rewrite Z.shiftr_div_pow2 by lia.
Qed.

(** The big-endian field reads back as its low 32 bits. *)
Lemma be32_fold v :
  fold_left (fun a b => a * 256 + b) (be32 v) 0 = u32 v.
Proof.
  unfold be32. cbn. rewrite !be_byte_div by lia.
  change (2 ^ (24 - 0 * 8)) with 16777216. change (2 ^ (24 - 1 * 8)) with 65536.
  change (2 ^ (24 - 2 * 8)) with 256. change (2 ^ (24 - 3 * 8)) with 1.
  unfold u32. zlia.
Qed.

Lemma be_byte_u32 v i : 0 <= i <= 3 -> be_byte (u32 v) i = be_byte v i.
Proof.
  intros H. rewrite !be_byte_div by lia. unfold u32.
  assert (i = 0 \/ i = 1 \/ i = 2 \/ i = 3) as [-> | [-> | [-> | ->]]] by lia; zlia.
Qed.

Lemma be32_u32 v : be32 (u32 v) = be32 v.
Proof. unfold be32. rewrite !be_byte_u32 by lia. done. Qed.

(** ** Writing a slot *)

Ltac bytes :=
  repeat first [rewrite st8_eq by lia | rewrite st8_ne by lia].

Lemma holds_nil m o : holds m o [].
Proof. by intros i b. Qed.

Lemma holds_cons m o b l : m o = b -> holds m (o + 1) l -> holds m o (b :: l).
Proof.
  intros Hb Hl [|i] c; cbn; intros H; simplify_eq.
  - by rewrite Z.add_0_r.
  - apply Hl in H. rewrite <- H. f_equal. lia.
Qed.

Section put.
Context (va : Z).
Notation rgp := (rg va by_taker by_putter).

(** The program has written [bs] at [off] of slot [j] behind [s], and only
    that. *)
Definition wrote (s : list item) (k : Z) (n : mem) (j off : Z) (bs : list Z)
    (g : rst) : Prop :=
  exists n', putting s k n' g /\
    holds n' (slot_at 0 (count s + j) + off) bs /\
    forall x, ~ (slot_at 0 (count s + j) + off <= x
                 < slot_at 0 (count s + j) + off + count bs) -> n' x = n x.

Lemma rg_slot_header s k n g j len ip port :
  putting s k n g -> 0 <= j < k ->
  rgp (slot_header (slot_at va (count s + j)) len ip port)
    (fun _ => wrote s k n j 0 (header_bytes len ip port)) g.
Proof.
  intros HP Hj. unfold slot_header.
  do 4 (eapply rg_Mem_set; [eassumption|done|done|]; intros ? ?).
  cbn [forP].
  do 4 (apply rg_bind; [apply _|];
        eapply rg_Mem_set; [eassumption|done|done|]; intros ? ?;
        apply rg_tail; eapply rg_Mem_set; [eassumption|done|done|]; intros ? ?;
        eapply rg_ret; [apply putting_stable|eassumption|]; intros ? ?).
  eapply rg_ret; [apply putting_stable|eassumption|].
  intros gz Hz. eexists. split; [exact Hz|]. split; clear;
    generalize (slot_at 0 (count s + j)); intros o.
  - unfold header_bytes, be32. cbn [app].
    repeat (apply holds_cons; [bytes; reflexivity|]). apply holds_nil.
  - intros x Hx. unfold count in Hx. cbn in Hx. by bytes.
Qed.

Lemma wrote_app s k n n1 j off l1 l2 g :
  holds n1 (slot_at 0 (count s + j) + off) l1 ->
  (forall x, ~ (slot_at 0 (count s + j) + off <= x
                < slot_at 0 (count s + j) + off + count l1) -> n1 x = n x) ->
  wrote s k n1 j (off + count l1) l2 g -> wrote s k n j off (l1 ++ l2) g.
Proof.
  intros Hh Hn (n2 & Hp & H2 & Hn2). exists n2. split; [done|].
  rewrite Z.add_assoc in *. unfold count in *. split.
  - apply holds_app. split; [|exact H2].
    eapply holds_ext; [|exact Hh]. intros x Hx. apply Hn2. unfold count in *. lia.
  - intros x Hx. rewrite length_app in Hx. rewrite Hn2 by lia. apply Hn. lia.
Qed.

(** [len] bytes of [src] from [i] on. *)
Definition slice (src : list Z) (i len : nat) : list Z :=
  (fun x => nth x src 0) <$> seq i len.

Lemma rg_copy_in s k n g j src len fuel i :
  putting s k n g -> 0 <= j < k -> (i + len <= 996)%nat -> (len < fuel)%nat ->
  rgp (copy_in fuel (slot_at va (count s + j)) (Z.of_nat i) (Z.of_nat (i + len) - 1) src)
    (fun _ => wrote s k n j (12 + Z.of_nat i) (slice src i len)) g.
Proof.
  revert n g len i. induction fuel as [|fuel IH]; intros n g len i HP Hj Hi Hf; [lia|].
  cbn [copy_in]. destruct len as [|len].
  - replace (Z.of_nat (i + 0) - 1 <? Z.of_nat i) with true
      by (symmetry; apply Z.ltb_lt; lia).
    eapply rg_ret; [apply putting_stable|exact HP|]. intros g' Hg'.
    exists n. split; [done|]. split; [apply holds_nil|done].
  - replace (Z.of_nat (i + S len) - 1 <? Z.of_nat i) with false
      by (symmetry; apply Z.ltb_ge; lia).
    eapply rg_Mem_set; [exact HP|done|unfold Slot_Size; lia|]. intros g' Hg'.
    replace (Z.of_nat i + 1) with (Z.of_nat (S i)) by lia.
    replace (Z.of_nat (i + S len)) with (Z.of_nat (S i + len)) by lia.
    eapply rg_mono; [apply IH; [exact Hg'|done|lia..]|].
    intros [] g2 H2. rewrite Nat2Z.id in H2. change (slice src i (S len))
      with ([nth i src 0] ++ slice src (S i) len).
    eapply wrote_app.
    3: { unfold count. cbn [length]. replace (12 + Z.of_nat i + Z.of_nat 1)
           with (12 + Z.of_nat (S i)) by lia. exact H2. }
    + apply holds_cons; [apply st8_eq; lia|apply holds_nil].
    + intros x Hx. apply st8_ne. unfold count in *. cbn [length] in Hx. lia.
Qed.

(** The same loop as [Aknet_Pbuf_Copy] runs it. *)
Lemma rg_pbuf_copy s k n g j src off len i :
  putting s k n g -> 0 <= j < k -> (i + len <= 996)%nat ->
  rgp (forP len (Z.of_nat i) (fun x =>
         act (St8 (slot_at va (count s + j) + 12 + x)
                (nth (Z.to_nat (Z.of_nat off + x)) src 0))))
    (fun _ => wrote s k n j (12 + Z.of_nat i) (slice src (off + i) len)) g.
Proof.
  revert n g i. induction len as [|len IH]; intros n g i HP Hj Hi; cbn [forP].
  - eapply rg_ret; [apply putting_stable|exact HP|]. intros g' Hg'.
    exists n. split; [done|]. split; [apply holds_nil|done].
  - rewrite slot_at_base. replace (va + slot_at 0 (count s + j) + 12 + Z.of_nat i)
      with (va + (slot_at 0 (count s + j) + (12 + Z.of_nat i))) by lia.
    eapply rg_store; [exact HP| |].
    { exists j. split; [done|]. unfold Slot_Size. lia. }
    intros g' Hg'. rewrite <- slot_at_base.
    replace (Z.of_nat i + 1) with (Z.of_nat (S i)) by lia.
    eapply rg_mono; [apply IH; [exact Hg'|done|lia]|].
    intros [] g2 H2. change (slice src (off + i) (S len))
      with ([nth (off + i) src 0] ++ slice src (S (off + i)) len).
    replace (Z.to_nat (Z.of_nat off + Z.of_nat i)) with (off + i)%nat in H2 by lia.
    replace (S (off + i)) with (off + S i)%nat by lia.
    eapply wrote_app.
    3: { unfold count. cbn [length]. replace (12 + Z.of_nat i + Z.of_nat 1)
           with (12 + Z.of_nat (S i)) by lia. exact H2. }
    + apply holds_cons; [apply st8_eq; lia|apply holds_nil].
    + intros x Hx. apply st8_ne. unfold count in *. cbn [length] in Hx. lia.
Qed.
(** The first [len] bytes of [src], as one item. *)
Definition piece (ip port : Z) (src : list Z) (i len : nat) : item :=
  Data (u32 ip) (u32 port) (slice src i len).

Lemma piece_ok ip port src i len : (len <= 996)%nat -> item_ok (piece ip port src i len).
Proof.
  intros H. split_and!; [apply u32_range..|]. unfold slice, Max_Payload.
  rewrite length_fmap, length_seq. lia.
Qed.

Lemma piece_bytes ip port src i len :
  item_bytes (piece ip port src i len)
  = header_bytes (Z.of_nat len) ip port ++ slice src i len.
Proof.
  unfold piece. rewrite item_bytes_data. unfold header_bytes, count, slice.
  by rewrite length_fmap, length_seq, !be32_u32.
Qed.

(** Header and payload together: slot [j] holds the item. *)
Definition filled (s : list item) (k : Z) (n : mem) (j : Z) (it : item) (g : rst)
    : Prop :=
  exists n', putting s k n' g /\
    holds n' (slot_at 0 (count s + j)) (item_bytes it) /\
    forall x, ~ (slot_at 0 (count s + j) <= x < slot_at 0 (count s + j) + Slot_Size) ->
      n' x = n x.

Lemma wrote_filled s k n j it g :
  item_ok it -> wrote s k n j 0 (item_bytes it) g -> filled s k n j it g.
Proof.
  intros Hok (n' & HP & Hh & Hn). exists n'. rewrite Z.add_0_r in *.
  split_and!; [done..|]. intros x Hx. apply Hn.
  pose proof (item_bytes_fit it Hok). lia.
Qed.

Lemma rg_fill {A} (Q : A -> rst -> Prop) s k n g j ip port src off len (body : prog unit) c :
  putting s k n g -> 0 <= j < k -> (len <= 996)%nat ->
  (forall n1 g1, putting s k n1 g1 ->
     rgp body (fun _ => wrote s k n1 j 12 (slice src off len)) g1) ->
  (forall g', filled s k n j (piece ip port src off len) g' -> rgp (c tt) Q g') ->
  rgp (slot_header (slot_at va (count s + j)) (Z.of_nat len) ip port ≫= fun _ => body ≫= c) Q g.
Proof.
  intros HP Hj Hlen Hb Hc. apply rg_bind; [apply _|].
  eapply rg_mono; [by apply rg_slot_header|].
  intros [] g1 (n1 & HP1 & Hh & Hn1). apply rg_bind; [apply _|].
  eapply rg_mono; [by apply Hb|].
  intros [] g2 Hw. apply Hc, wrote_filled; [by apply piece_ok|].
  rewrite piece_bytes. by eapply wrote_app.
Qed.

(** The dropped word belongs to the putting side. *)
Lemma putting_dropped s k n g v :
  putting s k n g ->
  putting s k (st64 n 16 v) (st64 g.1 16 v, g.2) /\
  by_putter g (st64 g.1 16 v, g.2).
Proof.
  intros [Hi Hp Hr Hm].
  assert (Hi' : ring_inv (st64 g.1 16 v, g.2)).
  { destruct (inv_queue g Hi) as (q & Hq & Hl & Hh). split; cbn.
    - exists q. split_and!; [done..|]. intros i it Hit.
      destruct (Hh i it Hit) as [Hok Hold]. split; [done|].
      eapply holds_ext; [|exact Hold]. intros x Hx. apply st64_ne.
      pose proof (slot_at_bounds (count (takes g) + Z.of_nat i)).
      change (takes (_, _)) with (takes g) in *. lia.
    - rewrite ld64_st64_ne by lia. apply Hi.
    - rewrite ld64_st64_ne by lia. apply Hi. }
  split.
  - split; [done..|]. intros x Hx. unfold st64; cbn. by rewrite Hm.
  - split_and!; [done|done|]. by cbn.
Qed.

Lemma rg_bump_dropped s k n g :
  putting s k n g ->
  rgp (d ← act (Ld64 (va + 16)); act (St64 (va + 16) (u64 (d + 1))))
    (fun _ => putting s k (st64 n 16 (u64 (ld64 n 16 + 1)))) g.
Proof.
  intros HP. eapply rg_act; [apply putting_stable|exact HP|].
  clear g HP. intros [m h] Hg. cbn. replace (va + 16 - va) with 16 by lia.
  split; [done|]. intros x m' [-> ->]. exists h. split; [reflexivity|].
  rewrite (ld64_ext m n) by (intros x Hx; apply (pt_mem _ _ _ _ Hg); lia).
  apply rg_tail. eapply rg_act; [apply putting_stable|exact Hg|].
  clear m h Hg. intros [m h] Hg. cbn. replace (va + 16 - va) with 16 by lia.
  split; [done|]. intros [] m' ->. exists h.
  destruct (putting_dropped _ _ _ _ (u64 (ld64 n 16 + 1)) Hg) as [Hp Hb].
  split; [exact Hb|]. intros g' Hg'. by eapply putting_stable.
Qed.
End put.

(** ** What each putting subprogram does *)

Lemma drop_word_free (s : list item) j (n' n : mem) :
  (forall x, ~ (slot_at 0 (count s + j) <= x < slot_at 0 (count s + j) + Slot_Size) ->
     n' x = n x) -> ld64 n' 16 = ld64 n 16.
Proof.
  intros H. apply ld64_ext. intros x Hx. apply H.
  pose proof (slot_at_bounds (count s + j)). lia.
Qed.

(** The state after a put: [s'] is put, the dropped word is [d], and the
    putting side is idle. *)
Definition idle (s : list item) (d : Z) (g : rst) : Prop :=
  exists n, putting s 0 n g /\ ld64 n 16 = d.

Lemma idle_stable s d : stable by_taker (idle s d).
Proof. intros g g' (n & HP & Hd) HR. exists n. split; [|done]. by eapply putting_stable. Qed.

Section server.
Context (va ntfn : Z).
Notation rgp := (rg va by_taker by_putter).

(** Fence, head store and signal after slot 0 behind [s] is filled. *)
Lemma rg_publish_one {A} s k n g it h (a : A) :
  filled s k n 0 it g -> item_ok it -> 1 <= k -> h = u64 (count s + 1) ->
  rgp (_ ← act Fence; _ ← act (St64 va h); _ ← act (Ntfn_Signal ntfn 1); mret a)
    (fun a' g' => a' = a /\ idle (s ++ [it]) (ld64 n 16) g') g.
Proof.
  intros (n' & HP & Hh & Hn) Hok Hk ->.
  eapply rg_put_quiet; [done|by intros ???|exact HP|]. intros _ g1 H1.
  eapply (rg_publish _ _ _ _ _ _ [it]); [exact H1|change (count [it]) with 1; lia|done| |].
  { intros j it' Hj. apply list_lookup_singleton_Some in Hj as [-> <-].
    by rewrite Z.add_0_r in *. }
  intros g2 H2. eapply rg_put_quiet; [done|by intros ???|exact H2|].
  intros _ g3 H3. eapply rg_ret; [apply putting_stable|exact H3|].
  intros g4 H4. split; [done|]. eexists. split.
  - eapply putting_weaken; [|exact H4]. change (count [it]) with 1. lia.
  - rewrite ld64_st64_ne by lia. by eapply drop_word_free.
Qed.

Lemma rg_Enqueue_Rx s d g ip port src len :
  idle s d g -> 0 < len ->
  rgp (Enqueue_Rx va ntfn ip port src len)
    (fun _ g' =>
       idle (s ++ [piece ip port src 0 (Z.to_nat (Z.min len Max_Payload))]) d g' \/
       idle s (u64 (d + 1)) g') g.
Proof.
  intros (n & HP & Hd) Hlen. unfold Enqueue_Rx.
  eapply rg_put_load; [exact HP|]. intros t g1 Ht H1.
  rewrite u64_diff by (unfold Slots in *; lia).
  destruct (Slots <=? count s - t) eqn:E; bool_to_prop.
  - eapply rg_mono; [by apply rg_bump_dropped|]. intros [] g2 H2. right.
    eexists. split; [eapply putting_weaken; [|exact H2]; lia|].
    rewrite ld64_st64 by apply u64_range. by rewrite Hd.
  - set (N := Z.to_nat (Z.min len Max_Payload)).
    replace (Z.min len Max_Payload) with (Z.of_nat N)
      by (unfold N, Max_Payload; lia).
    assert (HN : (0 < N <= 996)%nat) by (unfold N, Max_Payload; lia). clearbody N.
    rewrite slot_at_mod, <- (Z.add_0_r (count s)) at 1.
    eapply rg_fill; [exact H1|lia|lia| |].
    { intros n1 g2 H2. rewrite (u64_id (Z.of_nat N - 1)) by (unfold in_u64; lia).
      rewrite slot_at_mod. replace (slot_at va (count s)) with (slot_at va (count s + 0))
        by (f_equal; lia).
      apply (rg_copy_in va s _ n1 g2 0 src N slot_fuel 0); [done|lia|lia|].
      unfold slot_fuel, Slot_Size. lia. }
    intros g2 H2. eapply rg_mono; [eapply rg_publish_one; [exact H2|..]|].
    + apply piece_ok; lia.
    + lia.
    + unfold u64. zlia.
    + intros [] g3 [_ H3]. left. by rewrite Hd in H3.
Qed.

Lemma rg_Enqueue_Eof s d g :
  idle s d g ->
  rgp (Enqueue_Eof va ntfn)
    (fun b g' => if b : bool then idle (s ++ [Eof]) d g' else idle s d g') g.
Proof.
  intros (n & HP & Hd). unfold Enqueue_Eof.
  eapply rg_put_load; [exact HP|]. intros t g1 Ht H1.
  rewrite u64_diff by (unfold Slots in *; lia).
  destruct (Slots <=? count s - t) eqn:E; bool_to_prop.
  - eapply rg_ret; [apply putting_stable|exact H1|]. intros g2 H2.
    exists n. split; [|done]. eapply putting_weaken; [|exact H2]. lia.
  - rewrite slot_at_mod. replace (slot_at va (count s))
      with (slot_at va (count s + 0)) by (f_equal; lia).
    do 4 (eapply rg_Mem_set; [eassumption|lia|done|]; intros ? ?).
    eapply rg_mono; [eapply (rg_publish_one s _ n _ Eof)|].
    + eapply wrote_filled; [done|]. eexists. split; [eassumption|]. clear.
      generalize (slot_at 0 (count s + 0)); intros o. split.
      * repeat (apply holds_cons; [bytes; reflexivity|]). apply holds_nil.
      * intros x Hx. unfold count in Hx. cbn in Hx. by bytes.
    + done.
    + lia.
    + unfold u64. zlia.
    + intros b gz [-> Hz]. by rewrite <- Hd.
Qed.

(** The pieces of a chain of [L] bytes: as many full slots as fit, then the
    rest. *)
Definition pieces_of (L : nat) : nat := (L + 995) / 996.
Definition nth_piece (ip port : Z) (chain : list Z) (L j : nat) : item :=
  piece ip port chain (996 * j) (Nat.min 996 (L - 996 * j)).
Definition pieces (ip port : Z) (chain : list Z) (L : nat) : list item :=
  nth_piece ip port chain L <$> seq 0 (pieces_of L).

(** After [j] rounds of the store loop the first [j] pieces are in place. *)
Definition stored (s : list item) (k d : Z) ip port chain (L j : nat) (g : rst) : Prop :=
  exists n, putting s k n g /\ ld64 n 16 = d /\
    forall i, (i < j)%nat ->
      holds n (slot_at 0 (count s + Z.of_nat i)) (item_bytes (nth_piece ip port chain L i)).

Lemma stored_more s k d ip port chain L j g n n' :
  (j < Z.to_nat k)%nat -> k <= Slots ->
  ld64 n 16 = d ->
  (forall i, (i < j)%nat ->
     holds n (slot_at 0 (count s + Z.of_nat i)) (item_bytes (nth_piece ip port chain L i))) ->
  putting s k n' g ->
  holds n' (slot_at 0 (count s + Z.of_nat j)) (item_bytes (nth_piece ip port chain L j)) ->
  (forall x, ~ (slot_at 0 (count s + Z.of_nat j) <= x
                < slot_at 0 (count s + Z.of_nat j) + Slot_Size) -> n' x = n x) ->
  stored s k d ip port chain L (S j) g.
Proof.
  intros Hj Hk Hd Hall HP Hh Hn. exists n'. split; [done|]. split.
  - by rewrite (drop_word_free s (Z.of_nat j) n' n).
  - intros i Hi. destruct (decide (i = j)) as [->|Hne]; [done|].
    eapply holds_ext; [|apply Hall; lia]. intros x Hx. apply Hn.
    assert (Hok : item_ok (nth_piece ip port chain L i)) by (apply piece_ok; lia).
    apply item_bytes_fit in Hok.
    destruct (slots_apart (count s + Z.of_nat i) (Z.of_nat j - Z.of_nat i)) as [H|H];
      [lia|..];
      replace (count s + Z.of_nat i + (Z.of_nat j - Z.of_nat i))
        with (count s + Z.of_nat j) in H by lia; lia.
Qed.

Lemma rg_store_chain s k d ip port chain L fuel j g :
  stored s k d ip port chain L j g ->
  (pieces_of L <= Z.to_nat k)%nat -> k <= Slots ->
  (j <= pieces_of L)%nat -> (pieces_of L - j < fuel)%nat ->
  rgp (iterP fuel (store_chain va ip port chain (Z.of_nat L))
         (Z.of_nat (Nat.min L (996 * j)), u64 (count s + Z.of_nat j)))
    (fun h g' => h = u64 (count s + Z.of_nat (pieces_of L)) /\
       stored s k d ip port chain L (pieces_of L) g') g.
Proof.
  revert j g. induction fuel as [|fuel IH]; intros j g Hst HC Hk Hj Hf; [lia|].
  pose proof (Nat.div_mod_eq (L + 995) 996) as Hdiv.
  pose proof (Nat.mod_upper_bound (L + 995) 996 ltac:(lia)) as Hmod.
  fold (pieces_of L) in Hdiv. destruct Hst as (n & HP & Hd & Hall).
  apply rg_bind; [apply _|]. unfold store_chain.
  destruct (Z.of_nat (Nat.min L (996 * j)) <? Z.of_nat L) eqn:E; bool_to_prop.
  - replace (Z.of_nat (Nat.min L (996 * j))) with (Z.of_nat (996 * j)) in * by lia.
    replace (Z.min (Z.of_nat L - Z.of_nat (996 * j)) Max_Payload)
      with (Z.of_nat (Nat.min 996 (L - 996 * j))) by (unfold Max_Payload; lia).
    rewrite slot_at_mod.
    eapply rg_fill; [exact HP|lia|lia| |].
    { intros n1 g1 H1. rewrite Nat2Z.id.
      replace (996 * j)%nat with (996 * j + 0)%nat at 3 by lia.
      apply (rg_pbuf_copy va s k n1 g1 (Z.of_nat j) chain (996 * j) _ 0); [done|lia|lia]. }
    intros g2 (n2 & HP2 & Hh2 & Hn2). rewrite Nat.add_0_r in Hh2.
    eapply (rg_ret _ _ _ _ _ (stored s k d ip port chain L (S j))).
    { intros g3 g4 (n3 & ? & ?) HR. exists n3. split; [|done]. by eapply putting_stable. }
    { eapply stored_more; [lia|done|exact Hd|exact Hall|exact HP2|exact Hh2|exact Hn2]. }
    intros g3 H3.
    replace (u64 (u64 (count s + Z.of_nat j) + 1)) with (u64 (count s + Z.of_nat (S j)))
      by (unfold u64; zlia).
    replace (Z.of_nat (996 * j) + Z.of_nat (Nat.min 996 (L - 996 * j)))
      with (Z.of_nat (Nat.min L (996 * S j))) by lia.
    apply IH; [done..|lia|lia].
  - assert (j = pieces_of L) as -> by lia.
    eapply rg_ret; [apply putting_stable|exact HP|]. intros g1 H1.
    eapply rg_ret; [apply putting_stable|exact H1|]. intros g2 H2.
    split; [done|]. by exists n.
Qed.

Lemma rg_Store_Tcp_Rx s d g ip port chain L :
  idle s d g -> Z.of_nat L < 2 ^ 32 ->
  rgp (Store_Tcp_Rx va ntfn ip port chain (Z.of_nat L))
    (fun b g' => if b : bool then idle (s ++ pieces ip port chain L) d g'
                 else idle s d g') g.
Proof.
  intros (n & HP & Hd) HL. unfold Store_Tcp_Rx.
  eapply rg_put_load; [exact HP|]. intros t g1 Ht H1.
  rewrite u64_diff by (unfold Slots in *; lia).
  rewrite (u64_id (_ * _)) by (unfold in_u64, Slots, Max_Payload in *; lia).
  rewrite (u64_id (_ + Z.of_nat L)) by (unfold in_u64, Slots, Max_Payload in *; lia).
  destruct (_ <? _) eqn:E; bool_to_prop.
  - eapply rg_ret; [apply putting_stable|exact H1|]. intros g2 H2.
    exists n. split; [|done]. eapply putting_weaken; [|exact H2]. lia.
  - rewrite Nat2Z.id.
    pose proof (Nat.div_mod_eq (L + 995) 996) as Hdiv.
    pose proof (Nat.mod_upper_bound (L + 995) 996 ltac:(lia)) as Hmod.
    fold (pieces_of L) in Hdiv.
    assert (HC : (pieces_of L <= Z.to_nat (Slots - (count s - t)))%nat)
      by (unfold Slots, Max_Payload in *; lia).
    apply rg_bind; [apply _|]. eapply rg_mono.
    { replace (u64 (count s)) with (u64 (count s + Z.of_nat 0)) by (f_equal; lia).
      replace 0 with (Z.of_nat (Nat.min L (996 * 0))) by lia.
      apply (rg_store_chain s (Slots - (count s - t)) d ip port chain L); [|lia..].
      exists n. split_and!; [done|done|lia]. }
    intros h g2 (-> & n2 & H2 & Hd2 & Hall).
    eapply rg_put_quiet; [done|by intros ???|exact H2|]. intros _ g3 H3.
    eapply (rg_publish _ _ _ _ _ _ (pieces ip port chain L)); [exact H3|..].
    + unfold count, pieces. rewrite length_fmap, length_seq. unfold count in *. lia.
    + unfold count, pieces. by rewrite length_fmap, length_seq.
    + intros i it Hi. unfold pieces in Hi.
      apply list_lookup_fmap_Some in Hi as (i' & -> & Hi).
      apply lookup_seq in Hi as [-> Hi]. split; [apply piece_ok; lia|]. by apply Hall.
    + intros g4 H4. eapply rg_put_quiet; [done|by intros ???|exact H4|].
      intros _ g5 H5. eapply rg_ret; [apply putting_stable|exact H5|].
      intros g6 H6. eexists. split.
      * eapply putting_weaken; [|exact H6]. unfold count, pieces.
        rewrite length_fmap, length_seq. unfold count in *. lia.
      * rewrite ld64_st64_ne by lia. exact Hd2.
Qed.
End server.

(** ** Taking *)

(** What [Recv_From] reports of an item, into a buffer of [max] bytes. *)
Definition taken_as (max : Z) (it : item) (t : taken) : Prop :=
  match it with
  | Data ip port bs =>
      t = Taken Status_Ok ip port (take (Z.to_nat max) bs) (Z.min (count bs) max)
  | Eof => tk_status t = Status_Ok /\ tk_data t = [] /\ tk_count t = 0
  end.

Lemma data_byte ip port bs i :
  item_bytes (Data ip port bs) !! (12 + i)%nat = bs !! i.
Proof. done. Qed.

Section client.
Context (va : Z).
Notation rgt := (rg va by_putter by_taker).

Lemma rg_read_data r ip port bs n i g :
  taking r (r ++ [Data ip port bs]) g -> item_ok (Data ip port bs) ->
  (i + n <= length bs)%nat ->
  rgt (collectP n (Z.of_nat i) (fun x => Mem_get (slot_at va (count r)) (12 + x)))
    (fun l g' => taking r (r ++ [Data ip port bs]) g' /\ l = take n (drop i bs)) g.
Proof.
  intros HP Hok. revert i g HP. induction n as [|n IH]; intros i g HP Hi; cbn [collectP].
  - eapply rg_ret; [apply taking_stable|exact HP|]. done.
  - destruct Hok as (_ & _ & Hlen). unfold Max_Payload in Hlen.
    eapply rg_Mem_get; [exact HP|unfold Slot_Size; lia|]. intros x g1 H1 Hx.
    replace (Z.of_nat i + 1) with (Z.of_nat (S i)) by lia.
    apply rg_bind; [apply _|]. eapply rg_mono; [apply IH; [exact H1|lia]|].
    intros l g2 [H2 ->]. eapply rg_ret; [apply taking_stable|exact H2|].
    intros g3 H3. split; [done|].
    destruct (lookup_lt_is_Some_2 bs i) as [b Hb]; [lia|].
    rewrite (drop_S bs b i Hb). cbn. f_equal. apply Hx.
    replace (Z.to_nat (12 + Z.of_nat i)) with (12 + i)%nat by lia.
    by rewrite data_byte.
Qed.

(** The address loop, on a datagram. *)
Lemma rg_read_addr r it g :
  taking r (r ++ [it]) g ->
  rgt (collectP 4 0 (fun i =>
         a ← Mem_get (slot_at va (count r)) (4 + i);
         b ← Mem_get (slot_at va (count r)) (8 + i); mret (a, b)))
    (fun bs g' => taking r (r ++ [it]) g' /\
       match it with
       | Data ip port _ => bs = zip (be32 ip) (be32 port)
       | Eof => True
       end) g.
Proof.
  intros HP. cbn [collectP].
  do 4 (apply rg_bind; [apply _|];
        eapply rg_Mem_get; [eassumption|done|]; intros ? ? ? ?;
        eapply rg_Mem_get; [eassumption|done|]; intros ? ? ? ?;
        eapply rg_ret; [apply taking_stable|eassumption|]; intros ? ?;
        apply rg_bind; [apply _|]).
  eapply rg_ret; [apply taking_stable|eassumption|]. intros ? ?.
  do 4 (eapply rg_ret; [apply taking_stable|eassumption|]; intros ? ?).
  split; [done|]. destruct it as [ip port bs|]; [|done].
  repeat match goal with
  | H : forall b, _ = Some b -> ?x = b |- _ =>
      specialize (H _ eq_refl); subst x
  end. done.
Qed.

Lemma be32_reads ip port :
  in_u32 ip -> in_u32 port ->
  fold_left (fun v b => u32 (v * 256 + b.1)) (zip (be32 ip) (be32 port)) 0 = ip /\
  fold_left (fun v b => u64 (v * 256 + b.2)) (zip (be32 ip) (be32 port)) 0 = port.
Proof.
  intros Hip Hport. pose proof (be32_fold ip) as Ei. pose proof (be32_fold port) as Ep.
  rewrite u32_id in Ei, Ep by done. unfold be32 in *. cbn in *. split.
  - pose proof (be_byte_range ip 0). pose proof (be_byte_range ip 1).
    pose proof (be_byte_range ip 2). pose proof (be_byte_range ip 3).
    unfold u32, in_u8 in *. zlia.
  - pose proof (be_byte_range port 0). pose proof (be_byte_range port 1).
    pose proof (be_byte_range port 2). pose proof (be_byte_range port 3).
    unfold u64, in_u8 in *. zlia.
Qed.

Lemma rg_take_slot r it max g :
  taking r (r ++ [it]) g -> 0 <= max ->
  rgt (take_slot va (u64 (count r)) max)
    (fun t g' => taking (r ++ [it]) [] g' /\ taken_as max it t) g.
Proof.
  intros HP Hmax. destruct (taking_holds _ _ _ HP) as [Hok _].
  unfold take_slot. rewrite slot_at_mod.
  eapply rg_Mem_get; [exact HP|done|]. intros l0 g0 H0 E0.
  eapply rg_Mem_get; [exact H0|done|]. intros l1 g1 H1 E1.
  eapply rg_Mem_get; [exact H1|done|]. intros f0 g2 H2 E2.
  eapply rg_Mem_get; [exact H2|done|]. intros f1 g3 H3 E3.
  apply rg_bind; [apply _|]. eapply rg_mono; [by apply rg_read_addr|].
  intros bs g4 [H4 E4]. apply rg_bind; [apply _|].
  destruct it as [ip port data|]; cbn in E0, E1, E2, E3;
    specialize (E0 _ eq_refl); specialize (E1 _ eq_refl);
    specialize (E2 _ eq_refl); specialize (E3 _ eq_refl); subst l0 l1 f0 f1.
  - subst bs. replace (_ mod 256 + _ / 256 * 256) with (count data)
      by (unfold count; zlia).
    eapply rg_mono.
    { apply (rg_read_data _ ip port data _ 0); [exact H4|exact Hok|unfold count; lia]. }
    intros l g5 [H5 ->]. eapply rg_take_done; [exact H5|]. intros g6 H6.
    eapply rg_ret; [apply taking_stable|exact H6|]. intros g7 H7. split; [done|].
    destruct Hok as (Hip & Hport & Hlen).
    destruct (be32_reads ip port Hip Hport) as [-> ->]. cbn.
    replace (take (Z.to_nat (Z.min (count data) max)) (drop 0 data))
      with (take (Z.to_nat max) data); [done|].
    rewrite drop_0. unfold count. destruct (decide (Z.of_nat (length data) <= max)).
    + rewrite !take_ge by lia. done.
    + f_equal. lia.
  - replace (Z.to_nat (Z.min (0 + 0 * 256) max)) with 0%nat by lia. cbn [collectP].
    eapply rg_ret; [apply taking_stable|exact H4|]. intros g5 H5.
    eapply rg_take_done; [exact H5|]. intros g6 H6.
    eapply rg_ret; [apply taking_stable|exact H6|]. done.
Qed.

(** [Recv_From]: an item, or none. *)
Lemma rg_recv_ring r fuel max timeout g :
  taking r [] g -> 0 <= max ->
  rgt (recv_ring fuel va max timeout)
    (fun t g' =>
       (exists it, taking (r ++ [it]) [] g' /\ taken_as max it t) \/
       taking r [] g' /\ tk_status t <> Status_Ok /\ tk_data t = []) g.
Proof.
  intros HP Hmax. unfold recv_ring.
  eapply rg_take_quiet; [done|by intros ???|exact HP|]. intros t g1 H1. clear HP.
  generalize (u64 (t + timeout)). intros deadline. clear t g.
  revert g1 H1. induction fuel as [|fuel IH]; intros g H; [done|]. cbn [iterP].
  apply rg_bind; [apply _|]. unfold recv_round.
  eapply rg_take_load; [exact H|]. intros s' g1 H1 Hs.
  destruct (u64 (count r) =? u64 (count r + count s')) eqn:E; cbn [negb]; bool_to_prop.
  - assert (s' = []) as ->.
    { destruct s' as [|it s']; [done|exfalso]. unfold u64, count, Slots in *.
      cbn [length] in *. zlia. }
    rewrite app_nil_r in H1. assert (H1' : taking r [] g1).
    { destruct H1; split; [done..|apply prefix_nil]. } clear H1.
    eapply rg_take_quiet; [done|by intros ???|exact H1'|]. intros now g2 H2.
    destruct (_ || _).
    + eapply rg_ret; [apply taking_stable|exact H2|]. intros g3 H3.
      eapply rg_ret; [apply taking_stable|exact H3|]. intros g4 H4. right.
      by split_and!.
    + eapply rg_take_quiet; [done|by intros ???|exact H2|]. intros x g3 H3.
      destruct (x =? 0); (eapply rg_ret; [apply taking_stable|exact H3|]); intros g4 H4.
      * by apply IH.
      * eapply rg_ret; [apply taking_stable|exact H4|]. intros g5 H5. right.
        by split_and!.
  - destruct s' as [|it s']; [exfalso; apply E; cbn; f_equal; unfold count; cbn; lia|].
    assert (H1' : taking r (r ++ [it]) g1).
    { destruct H1 as [? ? Hp]. split; [done..|]. etrans; [|exact Hp].
      exists s'. by rewrite <- app_assoc. }
    eapply rg_take_quiet; [done|by intros ???|exact H1'|]. intros _ g2 H2.
    apply rg_bind; [apply _|]. eapply rg_mono; [by apply rg_take_slot|].
    intros t g3 [H3 Ht]. eapply rg_ret; [apply taking_stable|exact H3|].
    intros g4 H4. eapply rg_ret; [apply taking_stable|exact H4|].
    intros g5 H5. left. by exists it.
Qed.
End client.
