(* ===== verification/RingConc.v ===== *)
(** * Client and server on one ring, interleaved

    Whole runs: the server's thread puts a series of datagrams (or of stream
    chains and end-of-stream markers) while the client's thread takes, action
    by action in any order, with every system call answered arbitrarily. *)
From S2P Require Import Prelude CInt Prog Ring RingInv RingSpec.

(** ** The two threads *)

(** A datagram as [aknet_on_udp_rx] hands it over: source, the receive buffer
    and the length. *)
Record dgram := Dgram { dg_ip : Z; dg_port : Z; dg_buf : list Z; dg_len : Z }.

Definition udp_server (va ntfn : Z) (ds : list dgram) : prog (list unit) :=
  mapP (fun d => Enqueue_Rx va ntfn (dg_ip d) (dg_port d) (dg_buf d) (dg_len d)) ds.

(** What a stream delivers: a pbuf chain, or the end. *)
Inductive segment := Chain (bytes : list Z) | Fin.

Definition tcp_server (va ntfn ip port : Z) (l : list segment) : prog (list bool) :=
  mapP (fun sg =>
    match sg with
    | Chain bs => Store_Tcp_Rx va ntfn ip port bs (Z.of_nat (length bs))
    | Fin => Enqueue_Eof va ntfn
    end) l.

(** A client that calls [Recv_From] with these buffer sizes and timeouts. *)
Definition receiver (fuel : nat) (va : Z) (reqs : list (Z * Z)) : prog (list taken) :=
  mapP (fun r => recv_ring fuel va r.1 r.2) reqs.

(** ** What the answers say *)

(** The answers that are [Status_Ok] report these items, in order. *)
Inductive reports : list (Z * Z) -> list taken -> list item -> Prop :=
  | reports_nil : reports [] [] []
  | reports_item rq t it rqs ts its :
      taken_as rq.1 it t -> reports rqs ts its ->
      reports (rq :: rqs) (t :: ts) (it :: its)
  | reports_none rq t rqs ts its :
      tk_status t <> Status_Ok -> tk_data t = [] -> reports rqs ts its ->
      reports (rq :: rqs) (t :: ts) its.

(** The item a datagram becomes: at most a slot's payload of it. *)
Definition dgram_item (d : dgram) : item :=
  piece (dg_ip d) (dg_port d) (dg_buf d) 0 (Z.to_nat (Z.min (dg_len d) Max_Payload)).

(** The items of the segments the server reported as stored. *)
Fixpoint stored_items (ip port : Z) (l : list segment) (ok : list bool) : list item :=
  match l, ok with
  | Chain bs :: l', true :: ok' =>
      pieces ip port bs (length bs) ++ stored_items ip port l' ok'
  | Fin :: l', true :: ok' => Eof :: stored_items ip port l' ok'
  | _ :: l', _ :: ok' => stored_items ip port l' ok'
  | _, _ => []
  end.

(** ** Each thread against the invariant *)

Section threads.
Context (sva cva ntfn : Z).

Lemma rg_udp_server ds s d g :
  idle s (u64 d) g -> Forall (fun x => 0 < dg_len x) ds ->
  rg sva by_taker by_putter (udp_server sva ntfn ds)
    (fun _ g' => exists l k,
       idle (s ++ l) (u64 (d + Z.of_nat k)) g' /\
       l `sublist_of` (dgram_item <$> ds) /\ (length l + k = length ds)%nat) g.
Proof.
  intros HP Hds. revert s d g HP. induction Hds as [|x ds Hx Hds IH]; intros s d g HP.
  - eapply rg_ret; [apply idle_stable|exact HP|]. intros g' H'. exists [], 0%nat.
    rewrite app_nil_r, Z.add_0_r. by split_and!.
  - unfold udp_server. rewrite mapP_cons. fold (udp_server sva ntfn ds).
    apply rg_bind; [apply _|].
    eapply rg_mono; [by apply rg_Enqueue_Rx|].
    intros [] g1 H1. apply rg_bind; [apply _|].
    assert (HQ : forall s1 d1 (l0 : list item) k0,
      idle s1 (u64 d1) g1 -> s1 = s ++ l0 -> d1 = d + Z.of_nat k0 ->
      l0 `sublist_of` [dgram_item x] -> (length l0 + k0 = 1)%nat ->
      rg sva by_taker by_putter (udp_server sva ntfn ds)
        (fun a => rg sva by_taker by_putter (mret (tt :: a))
           (fun _ g' => exists l k,
              idle (s ++ l) (u64 (d + Z.of_nat k)) g' /\
              l `sublist_of` (dgram_item <$> x :: ds) /\
              (length l + k = length (x :: ds))%nat)) g1).
    { intros s1 d1 l0 k0 Hi -> -> Hs Hl. eapply rg_mono; [apply IH, Hi|].
      intros us g2 (l & k & H2 & Hsub & Hlen).
      eapply rg_ret; [apply idle_stable|exact H2|]. intros g3 H3.
      exists (l0 ++ l), (k0 + k)%nat. rewrite app_assoc. split_and!.
      - by replace (d + Z.of_nat (k0 + k)) with (d + Z.of_nat k0 + Z.of_nat k) by lia.
      - rewrite fmap_cons. change (?a :: ?b) with ([a] ++ b). by apply sublist_app.
      - rewrite length_app. cbn. lia. }
    destruct H1 as [H1|H1].
    + eapply (HQ _ _ [dgram_item x] 0%nat); [exact H1|done|lia|done|done].
    + eapply (HQ _ (d + 1) [] 1%nat); [|by rewrite app_nil_r|lia|apply sublist_nil_l|done].
      replace (u64 (d + 1)) with (u64 (u64 d + 1)) by (unfold u64; zlia). exact H1.
Qed.

Lemma rg_tcp_server ip port l s d g :
  idle s d g -> Forall (fun x => if x is Chain bs then count bs < 2 ^ 32 else True) l ->
  rg sva by_taker by_putter (tcp_server sva ntfn ip port l)
    (fun ok g' => idle (s ++ stored_items ip port l ok) d g' /\ length ok = length l) g.
Proof.
  intros HP Hl. revert s g HP. induction Hl as [|x l Hx Hl IH]; intros s g HP.
  - eapply rg_ret; [apply idle_stable|exact HP|]. intros g' H'.
    by rewrite app_nil_r.
  - unfold tcp_server. rewrite mapP_cons. fold (tcp_server sva ntfn ip port l).
    apply rg_bind; [apply _|].
    eapply (rg_mono _ _ _ _ (fun b g' =>
      idle (s ++ stored_items ip port [x] [b]) d g')).
    { destruct x as [bs|].
      - eapply rg_mono; [by apply rg_Store_Tcp_Rx|].
        intros [] g1 H1; cbn; by rewrite ?app_nil_r.
      - eapply rg_mono; [by apply rg_Enqueue_Eof|].
        intros [] g1 H1; cbn; by rewrite ?app_nil_r. }
    intros b g1 H1. apply rg_bind; [apply _|]. eapply rg_mono; [apply IH, H1|].
    intros ok g2 [H2 Hlen]. eapply rg_ret; [apply idle_stable|exact H2|].
    intros g3 H3. split; [|cbn; lia].
    destruct x, b; cbn in *; rewrite ?app_nil_r, <- ?app_assoc in *; exact H3.
Qed.

Lemma rg_receiver fuel reqs r g :
  taking r [] g -> Forall (fun q => 0 <= q.1) reqs ->
  rg cva by_putter by_taker (receiver fuel cva reqs)
    (fun ts g' => exists its, taking (r ++ its) [] g' /\ reports reqs ts its) g.
Proof.
  intros HP Hq. revert r g HP. induction Hq as [|x reqs Hx Hq IH]; intros r g HP.
  - eapply rg_ret; [apply taking_stable|exact HP|]. intros g' H'. exists [].
    rewrite app_nil_r. split; [done|constructor].
  - unfold receiver. rewrite mapP_cons. fold (receiver fuel cva reqs).
    apply rg_bind; [apply _|].
    eapply rg_mono; [by apply rg_recv_ring|].
    intros t g1 H1. apply rg_bind; [apply _|].
    destruct H1 as [(it & H1 & Ht)|(H1 & Ht & Hd)]; (eapply rg_mono; [apply IH, H1|]);
      intros ts g2 (its & H2 & Hr); (eapply rg_ret; [apply taking_stable|exact H2|]);
      intros g3 H3.
    + exists (it :: its). rewrite <- app_assoc in H3. split; [done|by constructor].
    + exists its. split; [done|by constructor].
Qed.
End threads.

(** ** The theorems *)

(** A page whose header is zero, as [Socket] leaves it. *)
Definition fresh_page (m : mem) : Prop :=
  ld64 m 0 = 0 /\ ld64 m 8 = 0 /\ ld64 m 16 = 0.

(** Two threads that keep the ring's contracts, from a fresh page: neither
    leaves the page nor raises, and their results speak of one history. *)
Lemma fresh_sound {A B} sva cva (p : prog A) (q : prog B) m Ql Qr c :
  fresh_page m ->
  (forall g, idle [] 0 g -> rg sva by_taker by_putter p Ql g) ->
  (forall g, taking [] [] g -> rg cva by_putter by_taker q Qr g) ->
  rtc (cstep sva cva) (Config p q m) c ->
  faulty sva (c_left c) = false /\ faulty cva (c_right c) = false /\
  forall a b, c_left c = Ret a -> c_right c = Ret b ->
    exists h, Ql a (c_mem c, h) /\ Qr b (c_mem c, h).
Proof.
  intros (H0 & H8 & H16) Hp Hq Hs. pose proof (ring_inv_empty m H0 H8) as Hi.
  assert (HD : described sva cva by_taker by_putter Ql Qr c).
  { eapply described_steps; [apply _..|exact Hs|]. exists ([], []). split; cbn.
    - apply Hp. exists m. split; [|done]. by apply (putting_start m (m, ([], []))).
    - apply Hq. split; [done|done|apply prefix_nil]. }
  destruct (described_safe _ _ _ _ _ _ _ HD) as [Hl Hr]. split_and!; [done..|].
  intros a b El Er. destruct c as [p' q' m']; cbn in *; subst p' q'.
  apply described_ret in HD; [done|apply _..].
Qed.

(** What is left in the ring, from its header words. *)
Lemma waiting_count s d r m h :
  idle s d (m, h) -> taking r [] (m, h) ->
  exists q, s = r ++ q /\ count q <= Slots /\
    u64 (ld64 m 0 - ld64 m 8) = count q /\ ld64 m 16 = d.
Proof.
  intros (n & HP & Hd) HT. destruct HP as [Hi Hp _ Hm].
  destruct (inv_queue _ Hi) as (q & Hq & Hl & _).
  rewrite Hp, (tk_takes _ _ _ HT) in Hq. exists q. split_and!; [done..| |].
  - pose proof (inv_head _ Hi) as Hh. pose proof (inv_tail _ Hi) as Ht. cbn in Hh, Ht.
    rewrite Hh, Ht, Hp, (tk_takes _ _ _ HT), Hq. unfold count in *.
    rewrite length_app. rewrite u64_diff; [lia|]. unfold Slots in *. lia.
  - rewrite <- Hd. apply ld64_ext. intros x Hx. apply (Hm x). lia.
Qed.

(** C14. The datagram ring under every interleaving.  The server's thread
    enqueues any series of nonempty datagrams while the client's thread makes
    any series of receives, action by action in any order, with every system
    call answered arbitrarily: neither side ever leaves the page or raises,
    and once both are done the client has been given a subsequence of the
    datagrams, in order and untorn (cut to its buffer), the header words count
    exactly the at most four that still wait, and the dropped word counts
    exactly the rest. *)
Theorem udp_ring_fifo sva cva ntfn ds fuel reqs m c :
  fresh_page m -> Forall (fun d => 0 < dg_len d) ds ->
  Forall (fun q => 0 <= q.1) reqs ->
  rtc (cstep sva cva) (Config (udp_server sva ntfn ds) (receiver fuel cva reqs) m) c ->
  faulty sva (c_left c) = false /\ faulty cva (c_right c) = false /\
  forall us ts, c_left c = Ret us -> c_right c = Ret ts ->
    exists got waiting,
      reports reqs ts got /\
      (got ++ waiting) `sublist_of` (dgram_item <$> ds) /\
      u64 (ld64 (c_mem c) 0 - ld64 (c_mem c) 8) = count waiting /\
      count waiting <= Slots /\
      ld64 (c_mem c) 16 = u64 (count ds - count got - count waiting).
Proof.
  intros Hm Hds Hq Hs.
  destruct (fresh_sound _ _ _ _ _ _ _ _ Hm
    (fun g Hg => rg_udp_server sva ntfn ds [] 0 g Hg Hds)
    (fun g Hg => rg_receiver cva fuel reqs [] g Hg Hq) Hs) as (Hl & Hr & HQ).
  split_and!; [done..|]. intros us ts El Er.
  destruct (HQ us ts El Er) as (h & (l & k & HI & Hsub & Hlen) & (its & HT & Hrep)).
  destruct (waiting_count _ _ _ _ _ HI HT) as (w & Hst & Hw & Hc & Hd).
  cbn in Hst. subst l. exists its, w. split_and!; [done..|]. rewrite Hd. f_equal. unfold count.
  rewrite length_app in Hlen. lia.
Qed.

(** A page of zeros; two datagrams and three receives, the sides taking turns,
    the server first ahead by nine actions. *)
Definition zero_page : mem := fun _ => 0.
Definition demo_dgrams : list dgram :=
  [Dgram 167772687 53 [7; 8; 9] 3; Dgram 167772674 4660 [65; 66; 67; 68] 2].
Definition demo_turns : list bool :=
  replicate 9 true ++ concat (replicate 60 [true; false; false]).
Definition demo_udp : config (list unit) (list taken) :=
  schedule 0 8192 demo_turns
    (Config (udp_server 0 5 demo_dgrams) (receiver 1 8192 [(1500, 0); (1, 0); (1500, 0)]) zero_page).
Definition demo_taken : list taken := Eval vm_compute in
  match c_right demo_udp with Ret ts => ts | _ => [] end.

Lemma udp_ring_fifo_witness :
  length demo_taken = 3%nat /\
  exists got waiting,
    reports [(1500, 0); (1, 0); (1500, 0)] demo_taken got /\
    (got ++ waiting) `sublist_of` (dgram_item <$> demo_dgrams) /\
    u64 (ld64 (c_mem demo_udp) 0 - ld64 (c_mem demo_udp) 8) = count waiting.
Proof.
  split; [reflexivity|].
  destruct (udp_ring_fifo 0 8192 5 demo_dgrams 1 [(1500, 0); (1, 0); (1500, 0)] zero_page demo_udp)
    as (_ & _ & H).
  - repeat split.
  - repeat constructor.
  - repeat constructor; cbn; lia.
  - apply schedule_steps.
  - destruct (H [tt; tt] demo_taken) as (got & waiting & Hr & Hs & Hc & _);
      [vm_compute; reflexivity|vm_compute; reflexivity|].
    exists got, waiting. split; [exact Hr|]. split; [exact Hs|exact Hc].
Defined.

(** ** Streams *)

Definition item_data (it : item) : list Z :=
  match it with Data _ _ bs => bs | Eof => [] end.

(** The bytes of the chains the server reported as stored. *)
Fixpoint stored_bytes (l : list segment) (ok : list bool) : list Z :=
  match l, ok with
  | Chain bs :: l', true :: ok' => bs ++ stored_bytes l' ok'
  | _ :: l', _ :: ok' => stored_bytes l' ok'
  | _, _ => []
  end.

Lemma slice_take_drop src i len :
  (i + len <= length src)%nat -> slice src i len = take len (drop i src).
Proof.
  revert i. induction len as [|len IH]; intros i H; [done|].
  destruct (lookup_lt_is_Some_2 src i) as [b Hb]; [lia|].
  change (slice src i (S len)) with (nth i src 0 :: slice src (S i) len).
  rewrite IH, (drop_S src b i Hb) by lia. cbn. f_equal.
  apply nth_lookup_Some with (d := 0) in Hb. done.
Qed.

Lemma pieces_data ip port bs :
  concat (item_data <$> pieces ip port bs (length bs)) = bs.
Proof.
  unfold pieces. set (L := length bs).
  pose proof (Nat.div_mod_eq (L + 995) 996) as Hdiv.
  pose proof (Nat.mod_upper_bound (L + 995) 996 ltac:(lia)) as Hmod.
  fold (pieces_of L) in Hdiv.
  assert (H : forall n a, (a + n = pieces_of L)%nat ->
    concat (item_data <$> (nth_piece ip port bs L <$> seq a n)) = drop (996 * a) bs).
  { induction n as [|n IH]; intros a Ha; cbn [seq].
    - cbn. rewrite drop_ge; [done|]. fold L. lia.
    - rewrite !fmap_cons. cbn [concat]. rewrite IH by lia. cbn [item_data nth_piece piece].
      unfold nth_piece, piece. cbn [item_data].
      rewrite slice_take_drop by (fold L; lia).
      replace (996 * S a)%nat with (996 * a + 996)%nat by lia. rewrite <- drop_drop.
      destruct (decide (996 <= L - 996 * a)%nat) as [Hc|Hc].
      + rewrite Nat.min_l by lia. by rewrite take_drop.
      + rewrite Nat.min_r by lia. rewrite take_ge by (rewrite length_drop; fold L; lia).
        rewrite (drop_ge (drop _ _)) by (rewrite length_drop; fold L; lia).
        by rewrite app_nil_r. }
  rewrite (H _ 0%nat) by lia. done.
Qed.

Lemma stored_items_data ip port l ok :
  concat (item_data <$> stored_items ip port l ok) = stored_bytes l ok.
Proof.
  revert ok. induction l as [|[bs|] l IH]; intros [|[] ok];
    cbn [stored_items stored_bytes]; try done; try apply IH.
  rewrite fmap_app, concat_app, pieces_data. by rewrite IH.
Qed.

Lemma stored_items_ok ip port l ok : Forall item_ok (stored_items ip port l ok).
Proof.
  revert ok. induction l as [|[bs|] l IH]; intros [|[] ok]; cbn [stored_items];
    try apply IH; try done.
  2: { constructor; [done|apply IH]. }
  apply Forall_app. split; [|apply IH].
  unfold pieces. apply Forall_fmap, Forall_forall. intros j _. apply piece_ok. lia.
Qed.

Lemma reports_data reqs ts its :
  reports reqs ts its -> Forall (fun q => Max_Payload <= q.1) reqs ->
  Forall item_ok its -> concat (tk_data <$> ts) = concat (item_data <$> its).
Proof.
  induction 1 as [|rq t it rqs ts its Ht Hr IH|rq t rqs ts its Ht Hd Hr IH];
    intros Hq Hi; [done|..]; apply Forall_cons in Hq as [Hx Hq]; rewrite !fmap_cons; cbn [concat].
  - apply Forall_cons in Hi as [Hi1 Hi2]. f_equal; [|by apply IH].
    destruct it as [ip port bs|].
    + rewrite Ht. cbn. destruct Hi1 as (_ & _ & Hlen). apply take_ge. lia.
    + by destruct Ht as (_ & -> & _).
  - rewrite Hd. by apply IH.
Qed.

(** C4. The stream ring under every interleaving.  The server stores pbuf
    chains (each whole or not at all) and end-of-stream markers while the
    client receives into buffers of a slot's payload or more: neither side
    leaves the page or raises, and once both are done the bytes received,
    followed by those of the at most four slots that still wait, are exactly
    the bytes of the chains the server reported as stored, in order; an
    end-of-stream marker keeps its place in that order. *)
Theorem tcp_ring_fifo sva cva ntfn ip port l fuel reqs m c :
  fresh_page m ->
  Forall (fun x => if x is Chain bs then count bs < 2 ^ 32 else True) l ->
  Forall (fun q => Max_Payload <= q.1) reqs ->
  rtc (cstep sva cva) (Config (tcp_server sva ntfn ip port l) (receiver fuel cva reqs) m) c ->
  faulty sva (c_left c) = false /\ faulty cva (c_right c) = false /\
  forall ok ts, c_left c = Ret ok -> c_right c = Ret ts ->
    exists got waiting,
      reports reqs ts got /\
      stored_items ip port l ok = got ++ waiting /\
      stored_bytes l ok = concat (tk_data <$> ts) ++ concat (item_data <$> waiting) /\
      u64 (ld64 (c_mem c) 0 - ld64 (c_mem c) 8) = count waiting /\
      count waiting <= Slots.
Proof.
  intros Hm Hl Hq Hs.
  assert (Hq0 : Forall (fun q => 0 <= q.1) reqs)
    by (eapply Forall_impl; [exact Hq|]; unfold Max_Payload; intros; lia).
  destruct (fresh_sound _ _ _ _ _ _ _ _ Hm
    (fun g Hg => rg_tcp_server sva ntfn ip port l [] 0 g Hg Hl)
    (fun g Hg => rg_receiver cva fuel reqs [] g Hg Hq0) Hs) as (Hfl & Hfr & HQ).
  split_and!; [done..|]. intros ok ts El Er.
  destruct (HQ ok ts El Er) as (h & (HI & Hlen) & (its & HT & Hrep)).
  destruct (waiting_count _ _ _ _ _ HI HT) as (w & Hst & Hw & Hc & Hd). cbn in Hst.
  exists its, w. split_and!; [done..| |done|done].
  pose proof (stored_items_ok ip port l ok) as Hok. rewrite Hst in Hok.
  apply Forall_app in Hok as [Hok _].
  rewrite <- (stored_items_data ip port), Hst, fmap_app, concat_app.
  by rewrite (reports_data _ _ _ Hrep).
Qed.

(** Two chains and the end of the stream, three receives, the server first
    ahead by half a put. *)
Definition demo_segments : list segment := [Chain [71; 69; 84; 32; 47]; Chain [13; 10]; Fin].
Definition demo_tcp : config (list bool) (list taken) :=
  schedule 0 8192 (replicate 12 true ++ concat (replicate 70 [true; false]))
    (Config (tcp_server 0 5 167772687 80 demo_segments)
       (receiver 1 8192 (replicate 3 (996, 0))) zero_page).
Definition demo_stream : list taken := Eval vm_compute in
  match c_right demo_tcp with Ret ts => ts | _ => [] end.

Lemma tcp_ring_fifo_witness :
  concat (tk_data <$> demo_stream) = [71; 69; 84; 32; 47] /\
  exists got waiting,
    reports (replicate 3 (996, 0)) demo_stream got /\
    [71; 69; 84; 32; 47; 13; 10]
      = concat (tk_data <$> demo_stream) ++ concat (item_data <$> waiting).
Proof.
  split; [reflexivity|].
  destruct (tcp_ring_fifo 0 8192 5 167772687 80 demo_segments 1 (replicate 3 (996, 0))
    zero_page demo_tcp) as (_ & _ & H).
  - repeat split.
  - repeat constructor.
  - repeat constructor; cbn; discriminate.
  - apply schedule_steps.
  - destruct (H [true; true; true] demo_stream) as (got & waiting & Hr & _ & Hb & _);
      [vm_compute; reflexivity|vm_compute; reflexivity|].
    exists got, waiting. split; [exact Hr|exact Hb].
Defined.
