(* ===== verification/RingSafe.v ===== *)
(** * The ring against a peer that does not keep the protocol

    The client's half of the ring is memory the client may fill with
    anything.  The server's subprograms stay inside the page and raise
    nothing whatever the header words say, beside any client program; the one
    exception is an empty datagram, on which [Enqueue_Rx] always raises. *)
From S2P Require Import Prelude CInt Prog Ring RingInv.

Section confined.
Context (va : Z).

Lemma slot_ok h i n : 0 <= i -> i + n <= Slot_Size -> 0 <= n ->
  in_page (slot_at va h + i - va) n = true.
Proof.
  intros Hi Hn H0. rewrite slot_at_base. pose proof (slot_at_bounds h).
  unfold in_page. apply andb_true_intro; split; apply Z.leb_le; lia.
Qed.

Lemma confined_Mem_set h i v : 0 <= i < Slot_Size -> confined va (Mem_set (slot_at va h) i v).
Proof.
  intros Hi. unfold Mem_set.
  replace (i <? Slot_Size) with true by (symmetry; apply Z.ltb_lt; lia).
  split; [|done]. cbn. apply slot_ok; lia.
Qed.

Lemma hdr_ok o : 0 <= o <= page - 8 -> in_page (va + o - va) 8 = true.
Proof. intros H. unfold in_page. apply andb_true_intro; split; apply Z.leb_le; lia. Qed.

Lemma hdr0_ok : in_page (va - va) 8 = true.
Proof. by rewrite Z.sub_diag. Qed.

Lemma confined_slot_header h n ip port :
  confined va (slot_header (slot_at va h) n ip port).
Proof.
  unfold slot_header.
  do 4 (apply confined_bind; [by apply confined_Mem_set|intros _]).
  apply confined_forP. intros x Hx.
  apply confined_bind; [|intros _]; apply confined_Mem_set; unfold Slot_Size; lia.
Qed.

Lemma confined_copy_in h fuel i last src :
  0 <= i -> last < Max_Payload ->
  confined va (copy_in fuel (slot_at va h) i last src).
Proof.
  intros Hi Hl. revert i Hi. induction fuel as [|n IH]; intros i Hi; [done|].
  cbn [copy_in]. destruct (last <? i) eqn:E; [done|]. bool_to_prop.
  apply confined_bind; [|intros _; apply IH; lia].
  apply confined_Mem_set. unfold Slot_Size, Max_Payload in *. lia.
Qed.

Lemma confined_Enqueue_Rx ntfn ip port src len :
  0 < len -> confined va (Enqueue_Rx va ntfn ip port src len).
Proof.
  intros Hlen. unfold Enqueue_Rx.
  apply confined_act; [apply hdr0_ok|intros head].
  apply confined_act; [by apply hdr_ok|intros tail].
  destruct (_ <=? _).
  - apply confined_act; [by apply hdr_ok|intros d]. split; [by apply hdr_ok|done].
  - apply confined_bind; [apply confined_slot_header|intros _].
    apply confined_bind; [|intros _].
    + apply confined_copy_in; [lia|]. unfold u64, Max_Payload. zlia.
    + apply confined_act; [done|intros _]. apply confined_act; [apply hdr0_ok|done].
Qed.

Lemma confined_Store_Tcp_Rx ntfn ip port chain total :
  confined va (Store_Tcp_Rx va ntfn ip port chain total).
Proof.
  unfold Store_Tcp_Rx.
  apply confined_act; [apply hdr0_ok|intros head].
  apply confined_act; [by apply hdr_ok|intros tail].
  destruct (_ <? _); [done|].
  apply confined_bind.
  - apply confined_iterP. intros [off h]. unfold store_chain.
    destruct (off <? total) eqn:E; [|done]. bool_to_prop.
    apply confined_bind; [apply confined_slot_header|intros _].
    apply confined_bind; [|done]. apply confined_forP. intros x Hx. split; [|done].
    cbn. rewrite <- Z.add_assoc. apply slot_ok; unfold Slot_Size, Max_Payload in *; lia.
  - intros h. apply confined_act; [done|intros _]. apply confined_act; [apply hdr0_ok|done].
Qed.

Lemma confined_Enqueue_Eof ntfn : confined va (Enqueue_Eof va ntfn).
Proof.
  unfold Enqueue_Eof.
  apply confined_act; [apply hdr0_ok|intros head].
  apply confined_act; [by apply hdr_ok|intros tail].
  destruct (_ <=? _); [done|].
  do 4 (apply confined_bind; [by apply confined_Mem_set|intros _]).
  apply confined_act; [done|intros _]. apply confined_act; [apply hdr0_ok|done].
Qed.
End confined.

(** Any series of puts by the server. *)
Inductive put_op :=
  | PutDgram (ip port : Z) (buf : list Z) (len : Z)
  | PutChain (ip port : Z) (chain : list Z) (total : Z)
  | PutEof.

Definition put (va ntfn : Z) (o : put_op) : prog bool :=
  match o with
  | PutDgram ip port buf len => _ ← Enqueue_Rx va ntfn ip port buf len; mret true
  | PutChain ip port chain total => Store_Tcp_Rx va ntfn ip port chain total
  | PutEof => Enqueue_Eof va ntfn
  end.

Definition nonempty (o : put_op) : Prop :=
  match o with PutDgram _ _ _ len => 0 < len | _ => True end.

(** The server is safe from its clients: beside any client program
    whatever, from any content of the shared page and under every
    interleaving, a series of puts (nonempty datagrams, pbuf chains of any
    length, end markers) never accesses memory outside the page and never
    raises. *)
Theorem server_confined {B} va cva ntfn ops (client : prog B) m c :
  Forall nonempty ops ->
  rtc (cstep va cva) (Config (mapP (put va ntfn) ops) client m) c ->
  faulty va (c_left c) = false.
Proof.
  intros Hops. apply confined_safe. cbn [c_left].
  induction Hops as [|o ops Ho Hops IH]; [done|]. rewrite mapP_cons.
  apply confined_bind; [|intros b; by apply confined_bind].
  destruct o as [ip port buf len|ip port chain total|]; cbn [put].
  - apply confined_bind; [by apply confined_Enqueue_Rx|done].
  - apply confined_Store_Tcp_Rx.
  - apply confined_Enqueue_Eof.
Qed.

(** A client that stores wild header words while the server puts. *)
Definition rogue : prog unit :=
  _ ← act (St64 8192 (2 ^ 64 - 3));
  _ ← act (St64 8200 12345678901234567);
  act (St64 8192 77).

Lemma server_confined_witness :
  faulty 0 (c_left (schedule 0 8192 (concat (replicate 40 [true; false; true]))
    (Config (mapP (put 0 5) [PutDgram 1 2 [3; 4; 5] 3; PutChain 1 2 [9; 9] 2; PutEof])
       rogue (fun o => o mod 256)))) = false.
Proof.
  apply (server_confined 0 8192 5 [PutDgram 1 2 [3; 4; 5] 3; PutChain 1 2 [9; 9] 2; PutEof]
    rogue (fun o => o mod 256)).
  - repeat constructor.
  - apply schedule_steps.
Defined.

(** ** The empty datagram *)

Lemma copy_in_overruns {W} `{Machine W} slot fuel i last src w :
  0 <= i <= Max_Payload -> Max_Payload <= last -> Max_Payload - i < Z.of_nat fuel ->
  (exec (copy_in fuel slot i last src) w).1 = Raised.
Proof.
  revert i w. induction fuel as [|n IH]; intros i w Hi Hl Hf; [lia|]. cbn [copy_in].
  replace (last <? i) with false by (symmetry; apply Z.ltb_ge; lia).
  rewrite exec_bind. unfold Mem_set. destruct (12 + i <? Slot_Size) eqn:E; bool_to_prop.
  - cbn. destruct (answer _ w) as [[] w']. apply IH; unfold Slot_Size, Max_Payload in *; lia.
  - done.
Qed.

(** Stores only return, alone on any machine. *)
Lemma Mem_set_returns {W} `{Machine W} slot i v w :
  i < Slot_Size -> exists w', exec (Mem_set slot i v) w = (Returned tt, w').
Proof.
  intros Hi. unfold Mem_set.
  replace (i <? Slot_Size) with true by (symmetry; apply Z.ltb_lt; lia).
  cbn. destruct (answer _ w) as [[] w']. by exists w'.
Qed.

Ltac step_store :=
  rewrite ?exec_bind;
  match goal with
  | |- context [exec (Mem_set ?s ?i ?v) ?w] =>
      destruct (Mem_set_returns s i v w) as [? ->]; [done|]
  end.

Lemma slot_header_returns {W} `{Machine W} slot n ip port w :
  exists w', exec (slot_header slot n ip port) w = (Returned tt, w').
Proof. unfold slot_header. do 4 step_store. cbn [forP]. do 8 step_store. by eexists. Qed.

(** An empty datagram brings netserv down: when the ring has a free slot,
    [Enqueue_Rx] with length 0 runs its copy loop to [0 - 1] modulo 2^64 and
    raises at the end of the slot, on any machine and from any state. *)
Theorem enqueue_rx_empty {W} `{Machine W} va ntfn ip port src w head w1 tail w2 :
  answer (Ld64 va) w = (head, w1) -> answer (Ld64 (va + 8)) w1 = (tail, w2) ->
  u64 (head - tail) < Slots ->
  (exec (Enqueue_Rx va ntfn ip port src 0) w).1 = Raised.
Proof.
  intros Hh Ht Hroom. unfold Enqueue_Rx.
  rewrite exec_bind, (exec_act (Ld64 va)), Hh.
  rewrite exec_bind, (exec_act (Ld64 (va + 8))), Ht.
  replace (Slots <=? u64 (head - tail)) with false by (symmetry; apply Z.leb_gt; lia).
  change (Z.min 0 Max_Payload) with 0. change (u64 (0 - 1)) with (2 ^ 64 - 1).
  rewrite exec_bind.
  destruct (slot_header_returns (slot_at va head) 0 ip port w2) as [w3 ->].
  rewrite exec_bind.
  pose proof (copy_in_overruns (slot_at va head) slot_fuel 0 (2 ^ 64 - 1) src w3) as HR.
  destruct (exec (copy_in _ _ _ _ _) w3) as [r w4]; cbn in HR.
  rewrite HR; [done|unfold Max_Payload, slot_fuel, Slot_Size; lia..].
Qed.

#[local] Instance page_machine : Machine mem := fun X e => ev_run 0 e.

Lemma enqueue_rx_empty_witness :
  (exec (Enqueue_Rx 0 5 167772687 53 [] 0) (fun _ => 0)).1 = Raised.
Proof.
  apply (enqueue_rx_empty 0 5 167772687 53 [] (fun _ => 0) 0 (fun _ => 0) 0 (fun _ => 0)).
  - reflexivity.
  - reflexivity.
  - reflexivity.
Defined.
