(* ===== verification/SockBridge.v ===== *)
(** * Aegir_User.Sockets: the socket bridge

    The Ada package below [aegir_gsocket.c]: a table of client sockets, each
    with a badged capability on netserv's endpoint, a two-page ring object
    and a notification.  The package state is the record [client] and is
    passed explicitly; every system call, message and memory access is an
    action of [ev].  A call yields its results and the new state.

    [Client_Tab.Append] is the action [Tab_Append] (false when the arena is
    exhausted); a fresh element is all zero. *)
From S2P Require Import Prelude CInt Prog Ring.

Definition Syscall_Failed : Z := 2 ^ 64 - 1.
Definition IPC_Ok : Z := 0.
Definition Right_Read : Z := 1.
Definition Right_Write : Z := 2.
Definition Right_Map : Z := 8.
Definition Right_Send : Z := 16.
Definition Right_Transfer : Z := 256.

Definition AF_INET : Z := 2.
Definition SOCK_STREAM : Z := 1.
Definition SOCK_DGRAM : Z := 2.
Definition IPPROTO_ICMP : Z := 1.
Definition IPPROTO_TCP : Z := 6.
Definition IPPROTO_UDP : Z := 17.

Definition Op_Socket : Z := 20.
Definition Op_Bind : Z := 21.
Definition Op_Connect : Z := 22.
Definition Op_Poll : Z := 24.
Definition Op_Close : Z := 25.
Definition Op_Listen : Z := 26.
Definition Op_Accept : Z := 27.
Definition Op_Resolve : Z := 28.

Definition Ring_Pages : Z := 2.
Definition Ring_Bytes : Z := Ring_Pages * Page_Size.
Definition Ring_VA_Base : Z := 0x4A000000.
Definition Ring_VA_Stride : Z := 0x10000.
Definition Resolve_VA : Z := 0x51000000.
Definition Max_Client_Socks : Z := (Resolve_VA - Ring_VA_Base) / Ring_VA_Stride.

Record Client_Sock := ClientSock {
  Used : bool; Sock_Cap : Z; Ring_Cap : Z; Ntfn_Cap : Z; VA : Z }.

Definition no_sock : Client_Sock := ClientSock false 0 0 0 0.

(** The table ([Socks (I)] is element [I - 1]) and [Net_EP]. *)
Record client := Client { Socks : list Client_Sock; Net_EP : Z }.

Definition Attach (net_cap : Z) (c : client) : client := Client (Socks c) net_cap.

Definition Endpoint (c : client) : Z := Net_EP c.

(** The index of the first element that satisfies [f], from 1; 0 for none. *)
Fixpoint first_index {A} (f : A -> bool) (l : list A) : nat :=
  match l with
  | [] => 0
  | x :: l' => if f x then 1 else match first_index f l' with O => 0 | n => S n end
  end.

Definition Find (c : client) (handle : Z) : nat :=
  first_index (fun s => Used s && (Sock_Cap s =? handle)) (Socks c).

Definition sock (c : client) (i : nat) : Client_Sock := nth (i - 1) (Socks c) no_sock.

Definition put_sock (i : nat) (s : Client_Sock) (c : client) : client :=
  Client (<[(i - 1)%nat := s]> (Socks c)) (Net_EP c).

(** The free element [Socket] and [Accept_Connection] look for, appended when
    there is none and the window has room; 0 for none. *)
Definition free_sock (c : client) : prog (nat * client) :=
  match first_index (fun s => negb (Used s)) (Socks c) with
  | O =>
      if Z.of_nat (length (Socks c)) <? Max_Client_Socks then
        ok ← act Tab_Append;
        if ok : bool
        then mret (S (length (Socks c)), Client (Socks c ++ [no_sock]) (Net_EP c))
        else mret (0%nat, c)
      else mret (0%nat, c)
  | i => mret (i, c)
  end.

(** [Hdr := (others => 0)] *)
Definition zero_header (va : Z) : prog unit :=
  forP 4 0 (fun i => act (St64 (va + 8 * i) 0)).

(** The ring pair and the notification of element [i], mapped and reset;
    [None] when one of the three system calls fails. *)
Definition ring_setup (i : nat) (c : client) : prog (option unit * client) :=
  let va := Ring_VA_Base + Z.of_nat (i - 1) * Ring_VA_Stride in
  ring ← act (Mem_Alloc Ring_Pages);
  ntfn ← act Ntfn_Create;
  let s := sock c i in
  let c' := put_sock i (ClientSock (Used s) (Sock_Cap s) ring ntfn va) c in
  if (ring =? Syscall_Failed) || (ntfn =? Syscall_Failed) then mret (None, c')
  else
    r ← act (Mem_Map ring va 0 Ring_Bytes 3);
    if negb (r =? 0) then mret (None, c')
    else
      _ ← zero_header va;
      _ ← zero_header (va + Page_Size);
      mret (Some tt, c').

(** Mint the two transfer copies, call [ep], delete them: the status and the
    reply. *)
Definition transfer (ep label : Z) (words : list Z) (s : Client_Sock) : prog (Z * msg) :=
  ring_mint ← act (Cap_Mint (Ring_Cap s)
                     (Right_Map + Right_Read + Right_Write + Right_Transfer) 0);
  ntfn_mint ← act (Cap_Mint (Ntfn_Cap s) (Right_Write + Right_Transfer) 0);
  if (ring_mint =? Syscall_Failed) || (ntfn_mint =? Syscall_Failed)
  then mret (Status_Error, Msg label words [])
  else
    r ← act (IPC_Call ep (Msg label words [ring_mint; ntfn_mint]));
    let st := if r.1 =? IPC_Ok then word r.2 0 else Status_Error in
    d1 ← act (Cap_Delete ring_mint);
    if negb (d1 =? 0) then mret (Status_Error, r.2)
    else
      d2 ← act (Cap_Delete ntfn_mint);
      mret (if d2 =? 0 then st else Status_Error, r.2).

(** The failure exit: unmap, delete both capabilities, clear the fields. *)
Definition teardown (i : nat) (saved : Z) (c : client) : prog (Z * client) :=
  let s := sock c i in
  _ ← act (Mem_Unmap (VA s) Ring_Bytes);
  _ ← act (Cap_Delete (Ring_Cap s));
  _ ← act (Cap_Delete (Ntfn_Cap s));
  mret (if saved =? Status_Ok then Status_Error else saved,
        put_sock i (ClientSock (Used s) (Sock_Cap s) 0 0 0) c).

(** Mint the badged socket capability; [None] when that fails. *)
Definition sock_mint (i : nat) (id : Z) (c : client) : prog (option Z * client) :=
  cap ← act (Cap_Mint (Net_EP c) Right_Send id);
  let s := sock c i in
  if cap =? Syscall_Failed
  then mret (None, put_sock i (ClientSock (Used s) cap (Ring_Cap s) (Ntfn_Cap s) (VA s)) c)
  else mret (Some cap, put_sock i (ClientSock true cap (Ring_Cap s) (Ntfn_Cap s) (VA s)) c).

(** [Socket]: status and handle. *)
Definition Socket (proto : Z) (c : client) : prog (Z * Z * client) :=
  if (Net_EP c =? 0)
     || negb (proto =? IPPROTO_UDP) && negb (proto =? IPPROTO_ICMP)
        && negb (proto =? IPPROTO_TCP)
  then mret (Status_Bad_Args, 0, c)
  else
    '(i, c1) ← free_sock c;
    if (i =? 0)%nat then mret (Status_Not_Ready, 0, c1)
    else
      '(ok, c2) ← ring_setup i c1;
      match ok with
      | None => mret (Status_Error, 0, c2)
      | Some _ =>
          '(st, rep) ← transfer (Net_EP c2) Op_Socket
             [AF_INET; if proto =? IPPROTO_TCP then SOCK_STREAM else SOCK_DGRAM; proto]
             (sock c2 i);
          if st =? Status_Ok then
            '(h, c3) ← sock_mint i (word rep 1) c2;
            match h with
            | Some cap => mret (Status_Ok, cap, c3)
            | None => '(r, c4) ← teardown i Status_Error c3; mret (r, 0, c4)
            end
          else '(r, c3) ← teardown i st c2; mret (r, 0, c3)
      end.

(** A call on the socket's own capability: transport failure is
    [Status_Error]. *)
Definition sock_call (handle label : Z) (words : list Z)
    : prog (option msg) :=
  r ← act (IPC_Call handle (Msg label words []));
  mret (if r.1 =? IPC_Ok then Some r.2 else None).

Definition Bind (handle port : Z) (c : client) : prog (Z * Z) :=
  if (Find c handle =? 0)%nat then mret (Status_Bad_Args, 0)
  else
    r ← sock_call handle Op_Bind [port];
    mret match r with Some m => (word m 0, word m 1) | None => (Status_Error, 0) end.

Definition Connect (handle ip port : Z) (c : client) : prog Z :=
  if (Find c handle =? 0)%nat then mret Status_Bad_Args
  else
    r ← sock_call handle Op_Connect [ip; port];
    mret match r with Some m => word m 0 | None => Status_Error end.

Definition Listen (handle backlog : Z) (c : client) : prog Z :=
  if (Find c handle =? 0)%nat then mret Status_Bad_Args
  else
    r ← sock_call handle Op_Listen [backlog];
    mret match r with Some m => word m 0 | None => Status_Error end.

(** What [Accept_Connection] leaves in its out parameters. *)
Record accepted := Accepted { ac_status : Z; ac_handle : Z; ac_ip : Z; ac_port : Z }.

(** [Accept_Connection]; the conversion of the peer's address to 32 bits is
    checked. *)
Definition Accept_Connection (handle : Z) (c : client) : prog (accepted * client) :=
  if (Find c handle =? 0)%nat then mret (Accepted Status_Bad_Args 0 0 0, c)
  else
    '(i, c1) ← free_sock c;
    if (i =? 0)%nat then mret (Accepted Status_Not_Ready 0 0 0, c1)
    else
      '(ok, c2) ← ring_setup i c1;
      match ok with
      | None => mret (Accepted Status_Error 0 0 0, c2)
      | Some _ =>
          '(st, rep) ← transfer handle Op_Accept [] (sock c2 i);
          if st =? Status_Ok then
            if 2 ^ 32 <=? word rep 2 then Raise
            else
              let ip := word rep 2 in
              let port := word rep 3 in
              '(h, c3) ← sock_mint i (word rep 1) c2;
              match h with
              | Some cap => mret (Accepted Status_Ok cap ip port, c3)
              | None =>
                  '(r, c4) ← teardown i Status_Error c3;
                  mret (Accepted r 0 ip port, c4)
              end
          else '(r, c3) ← teardown i st c2; mret (Accepted r 0 0 0, c3)
      end.

Definition Send_To (fuel : nat) (handle : Z) (src : list Z) (len ip port : Z)
    (c : client) : prog Z :=
  let i := Find c handle in
  if (i =? 0)%nat || (len =? 0) || (Max_Payload <? len) then mret Status_Bad_Args
  else send_ring fuel handle (VA (sock c i)) src len ip port.

Definition Recv_From (fuel : nat) (handle max timeout : Z) (c : client) : prog taken :=
  let i := Find c handle in
  if (i =? 0)%nat then mret (Taken Status_Bad_Args 0 0 [] 0)
  else recv_ring fuel (VA (sock c i)) max timeout.

(** [Poll]: status, RX level, free TX slots, sticky error. *)
Definition Poll (handle : Z) (c : client) : prog (Z * Z * Z * Z) :=
  if (Find c handle =? 0)%nat then mret (Status_Bad_Args, 0, 0, 0)
  else
    r ← sock_call handle Op_Poll [];
    mret match r with
         | Some m => (word m 0, word m 1, word m 2, word m 3)
         | None => (Status_Error, 0, 0, 0)
         end.

Definition Close (handle : Z) (c : client) : prog (Z * client) :=
  let i := Find c handle in
  if (i =? 0)%nat then mret (Status_Bad_Args, c)
  else
    let s := sock c i in
    r ← sock_call handle Op_Close [];
    let st := match r with Some m => word m 0 | None => Status_Error end in
    _ ← act (Mem_Unmap (VA s) Ring_Bytes);
    _ ← act (Cap_Delete (Ring_Cap s));
    _ ← act (Cap_Delete (Ntfn_Cap s));
    _ ← act (Cap_Delete (Sock_Cap s));
    mret (st, put_sock i no_sock c).

(** [Resolve]: the name travels in a one-page object.  Status and address. *)
Definition Resolve (name : list Z) (c : client) : prog (Z * Z) :=
  if (Net_EP c =? 0) || (Z.of_nat (length name) =? 0) || (255 <? Z.of_nat (length name))
  then mret (Status_Bad_Args, 0)
  else
    cap ← act (Mem_Alloc 1);
    if cap =? Syscall_Failed then mret (Status_Error, 0)
    else
      r ← act (Mem_Map cap Resolve_VA 0 Page_Size 3);
      if negb (r =? 0) then mret (Status_Error, 0)
      else
        _ ← forP (length name) 0 (fun i =>
              act (St8 (Resolve_VA + i) (nth (Z.to_nat i) name 0)));
        mint ← act (Cap_Mint cap (Right_Map + Right_Read + Right_Transfer) 0);
        '(st, ip) ← (if mint =? Syscall_Failed then mret (Status_Error, 0)
          else
            r ← act (IPC_Call (Net_EP c)
                       (Msg Op_Resolve [Z.of_nat (length name)] [mint]));
            let st := if r.1 =? IPC_Ok then word r.2 0 else Status_Error in
            let ip := if (r.1 =? IPC_Ok) && (st =? Status_Ok) then word r.2 1 else 0 in
            if 2 ^ 32 <=? ip then Raise
            else
              d ← act (Cap_Delete mint);
              mret (if d =? 0 then st else Status_Error, ip));
        u ← act (Mem_Unmap Resolve_VA Page_Size);
        bad ← (if negb (u =? 0) then mret true
               else d ← act (Cap_Delete cap); mret (negb (d =? 0)));
        mret (if (bad : bool) && (st =? Status_Ok) then Status_Error else st, ip).

Definition Resolve_C (name : list Z) (len : Z) (c : client) : prog (Z * Z) :=
  if (len =? 0) || (4096 <? len) then mret (Status_Bad_Args, 0)
  else Resolve (take (Z.to_nat len) name) c.
