(* ===== verification/SockBridgeSpec.v ===== *)
(** * The socket bridge and the kernel's capabilities

    Against the documented behaviour of the capability system calls
    ([Kernel]): the bridge holds three live capabilities per open socket, all
    distinct; [Socket] and [Accept_Connection] hand out a handle that was not
    in use; [Close] gives back exactly what the socket held. *)
From S2P Require Import Prelude CInt Prog Ring SockBridge.

(** ** The kernel, as the bridge relies on it *)

(** A call that creates a capability: a fresh handle, or failure. *)
Definition creates {M} (caps : M -> gset Z) (w : M) (r : Z * M) : Prop :=
  if r.1 =? Syscall_Failed then caps r.2 = caps w
  else r.1 ∉ caps w /\ caps r.2 = {[r.1]} ∪ caps w.

(** The actions that neither create nor delete a capability; the replies of
    netserv carry none. *)
Definition cap_neutral {X} (e : ev X) : Prop :=
  match e with
  | Mem_Alloc _ | Ntfn_Create | Cap_Mint _ _ _ | Cap_Delete _ => False
  | _ => True
  end.

Class Kernel (M : Type) `{Machine M} (caps : M -> gset Z) : Prop := {
  k_alloc n w : creates caps w (answer (Mem_Alloc n) w);
  k_ntfn w : creates caps w (answer Ntfn_Create w);
  k_mint s r b w : creates caps w (answer (Cap_Mint s r b) w);
  k_delete c w : c ∈ caps w ->
    (answer (Cap_Delete c) w).1 = 0 /\ caps (answer (Cap_Delete c) w).2 = caps w ∖ {[c]};
  k_undelete c w : c ∉ caps w ->
    (answer (Cap_Delete c) w).1 <> 0 /\ caps (answer (Cap_Delete c) w).2 = caps w;
  k_neutral X (e : ev X) w : cap_neutral e -> caps (answer e w).2 = caps w
}.

(** A failure of the machine as the bridge sees it: a call that creates a
    capability or changes a mapping does not succeed, or netserv answers with
    a word that does not fit the 32 bits it is converted to. *)
Definition fails {X} (e : ev X) : X -> Prop :=
  match e with
  | Mem_Alloc _ | Ntfn_Create | Cap_Mint _ _ _ => fun r => r = Syscall_Failed
  | Mem_Map _ _ _ _ _ | Mem_Unmap _ _ => fun r => r <> 0
  | IPC_Call _ _ => fun r => 2 ^ 32 <= word r.2 1 \/ 2 ^ 32 <= word r.2 2
  | _ => fun _ => False
  end.

(** Whether there has been one so far. *)
Class Faults (M : Type) `{Machine M} := {
  failed : M -> bool;
  f_failed X (e : ev X) w : failed (answer e w).2 = true <-> failed w = true \/ fails e (answer e w).1
}.

(** ** What the bridge holds *)

Definition held (s : Client_Sock) : list Z :=
  if Used s then [Sock_Cap s; Ring_Cap s; Ntfn_Cap s] else [].

Definition handle_of (s : Client_Sock) : list Z := if Used s then [Sock_Cap s] else [].

Definition gather (f : Client_Sock -> list Z) (c : client) : list Z :=
  concat (f <$> Socks c).

(** All capabilities of the open sockets, and their handles. *)
Definition all_held : client -> list Z := gather held.
Definition open_handles (c : client) : gset Z := list_to_set (gather handle_of c).

Record holds_caps (c : client) (k : gset Z) : Prop := {
  hc_nodup : NoDup (all_held c);
  hc_live : list_to_set (all_held c) ⊆ k
}.

Lemma holds_caps_mono c k k' : k ⊆ k' -> holds_caps c k -> holds_caps c k'.
Proof. intros Hk [Hn Hl]. split; [done|set_solver]. Qed.

Lemma concat_Permutation {A} (l l' : list (list A)) : l ≡ₚ l' -> concat l ≡ₚ concat l'.
Proof.
  induction 1; cbn; [done|by f_equiv| |by etrans].
  rewrite !app_assoc. f_equiv. apply Permutation_app_comm.
Qed.

Lemma gather_at f c i s : Socks c !! i = Some s ->
  gather f c ≡ₚ f s ++ concat (f <$> delete i (Socks c)).
Proof.
  intros Hi. unfold gather.
  apply (concat_Permutation _ (f s :: (f <$> delete i (Socks c)))).
  rewrite <- fmap_cons. by rewrite <- delete_Permutation.
Qed.

Lemma delete_insert_list {A} (l : list A) i x : delete i (<[i := x]> l) = delete i l.
Proof. revert i. induction l as [|y l IH]; intros [|i]; cbn; [done..|]. by f_equal. Qed.

Lemma gather_put f c i s : (i - 1 < length (Socks c))%nat ->
  gather f (put_sock i s c) ≡ₚ f s ++ concat (f <$> delete (i - 1)%nat (Socks c)).
Proof.
  intros Hi. rewrite (gather_at f _ (i - 1) s) by by apply list_lookup_insert_eq.
  cbn. by rewrite delete_insert_list.
Qed.

Lemma sock_lookup c i : (1 <= i <= length (Socks c))%nat ->
  Socks c !! (i - 1)%nat = Some (sock c i).
Proof.
  intros Hi. destruct (lookup_lt_is_Some_2 (Socks c) (i - 1)) as [s Hs]; [lia|].
  rewrite Hs. unfold sock. by rewrite (nth_lookup_Some _ _ _ _ Hs).
Qed.

(** An element that contributed nothing is replaced. *)
Lemma gather_fill f c i s : (1 <= i <= length (Socks c))%nat -> f (sock c i) = [] ->
  gather f (put_sock i s c) ≡ₚ f s ++ gather f c.
Proof.
  intros Hi Hu. rewrite gather_put by lia. f_equiv.
  by rewrite (gather_at f _ _ _ (sock_lookup c i Hi)), Hu.
Qed.

(** An element is emptied. *)
Lemma gather_clear f c i s : (1 <= i <= length (Socks c))%nat -> f s = [] ->
  gather f c ≡ₚ f (sock c i) ++ gather f (put_sock i s c).
Proof.
  intros Hi Hu. rewrite gather_put, Hu by lia.
  by rewrite (gather_at f _ _ _ (sock_lookup c i Hi)).
Qed.

Lemma gather_elem f c x :
  x ∈ gather f c <-> exists s, s ∈ Socks c /\ x ∈ f s.
Proof.
  unfold gather. rewrite list_elem_of_In, in_concat. setoid_rewrite <- list_elem_of_In.
  setoid_rewrite list_elem_of_fmap. naive_solver.
Qed.

Lemma open_handles_elem c h :
  h ∈ open_handles c <-> exists s, s ∈ Socks c /\ Used s = true /\ Sock_Cap s = h.
Proof.
  unfold open_handles. rewrite elem_of_list_to_set, gather_elem.
  unfold handle_of. split.
  - intros (s & Hs & Hh). exists s. destruct (Used s); set_solver.
  - intros (s & Hs & Hu & <-). exists s. rewrite Hu. set_solver.
Qed.

Lemma open_handles_held c : open_handles c ⊆ list_to_set (all_held c).
Proof.
  intros h (s & Hs & Hu & <-)%open_handles_elem.
  rewrite elem_of_list_to_set. apply gather_elem. exists s. split; [done|].
  unfold held. rewrite Hu. by left.
Qed.

(** ** Finding elements *)

Lemma first_index_0 {A} (f : A -> bool) l :
  first_index f l = 0%nat <-> Forall (fun x => f x = false) l.
Proof.
  induction l as [|x l IH]; cbn; [split; [constructor|done]|].
  rewrite Forall_cons. destruct (f x) eqn:E; [naive_solver|].
  destruct (first_index f l); naive_solver.
Qed.

Lemma first_index_S {A} (f : A -> bool) l i d :
  first_index f l = i -> i <> 0%nat ->
  (1 <= i <= length l)%nat /\ f (nth (i - 1) l d) = true /\
  exists x, l !! (i - 1)%nat = Some x.
Proof.
  revert i. induction l as [|x l IH]; intros i; cbn; [congruence|].
  destruct (f x) eqn:E.
  - intros <- _. cbn. split_and!; [lia..|done|by exists x].
  - destruct (first_index f l) as [|n] eqn:En; [congruence|].
    intros <- _. destruct (IH (S n) eq_refl) as (Hl & Hf & y & Hy); [done|].
    cbn in *. rewrite Nat.sub_0_r in *. split_and!; [lia..|done|]. by exists y.
Qed.

Lemma Find_spec c h : Find c h <> 0%nat <-> h ∈ open_handles c.
Proof.
  rewrite open_handles_elem. unfold Find. split.
  - intros H. destruct (first_index_S _ _ _ no_sock eq_refl H) as (Hl & Hf & s & Hs).
    rewrite (nth_lookup_Some _ _ _ _ Hs) in Hf. apply andb_true_iff in Hf as [Hu He].
    exists s. split_and!; [by eapply list_elem_of_lookup_2|done|]. by apply Z.eqb_eq.
  - intros (s & Hs & Hu & <-) H. rewrite first_index_0, Forall_forall in H.
    specialize (H s Hs). rewrite Hu, Z.eqb_refl in H. done.
Qed.

Lemma Find_sock c h : Find c h <> 0%nat ->
  (1 <= Find c h <= length (Socks c))%nat /\
  Used (sock c (Find c h)) = true /\ Sock_Cap (sock c (Find c h)) = h.
Proof.
  intros H. destruct (first_index_S _ _ _ no_sock eq_refl H) as (Hl & Hf & s & Hs).
  fold (Find c h) in *. fold (sock c (Find c h)) in Hf.
  apply andb_true_iff in Hf as [Hu He]. split_and!; [lia..|done|]. by apply Z.eqb_eq.
Qed.

(** ** Running a program over the kernel *)

Section run.
Context {M : Type} `{HM : Machine M} (caps : M -> gset Z) `{!Kernel M caps} `{!Faults M}.

Lemma failing {X} (e : ev X) w x w' : answer e w = (x, w') -> fails e x -> failed w' = true.
Proof. intros E Hf. pose proof (proj2 (f_failed X e w)) as H. rewrite E in H. by apply H; right. Qed.

Lemma exec_failed {A} (p : prog A) w : failed w = true -> failed (exec p w).2 = true.
Proof.
revert w. induction p as [a|X e k IH| |]; intros w Hw; cbn; [done| |done|done].
pose proof (proj2 (f_failed X e w) (or_introl Hw)) as H. destruct (answer e w) as [x w']. by apply IH.
Qed.

(** The results of [p] from [w]: [Q] when it returns, [E] otherwise. *)
Definition outs {A} (p : prog A) (w : M) (Q : A -> M -> Prop) (E : M -> Prop) : Prop :=
match exec p w with
| (Returned a, w') => Q a w'
| (_, w') => E w'
end.

Lemma outs_bind {A B} (p : prog A) (f : A -> prog B) w Q E :
outs p w (fun a w' => outs (f a) w' Q E) E -> outs (p ≫= f) w Q E.
Proof.
unfold outs. rewrite exec_bind. by destruct (exec p w) as [[] w'].
Qed.

Lemma outs_mono {A} (p : prog A) w Q Q' E E' :
outs p w Q E -> (forall a w', Q a w' -> Q' a w') -> (forall w', E w' -> E' w') ->
outs p w Q' E'.
Proof. unfold outs. destruct (exec p w) as [[] w']; auto. Qed.

(** Failures are not forgotten. *)
Lemma outs_log {A} (p : prog A) w Q E :
outs p w Q E ->
outs p w (fun a w' => Q a w' /\ (failed w = true -> failed w' = true)) (fun w' => E w' /\ (failed w = true -> failed w' = true)).
Proof.
unfold outs. pose proof (exec_failed p w) as H. destruct (exec p w) as [[] w']; by split.
Qed.

Lemma outs_ret {A} (a : A) w (Q : A -> M -> Prop) E : Q a w -> outs (mret a) w Q E.
Proof. done. Qed.

Lemma outs_act {A X} (e : ev X) (k : X -> prog A) w Q E :
(forall x w', answer e w = (x, w') -> outs (k x) w' Q E) -> outs (act e ≫= k) w Q E.
Proof.
intros H. apply outs_bind. unfold outs at 1. cbn.
destruct (answer e w) as [x w'] eqn:E'. by apply H.
Qed.

Lemma outs_neutral {A X} (e : ev X) (k : X -> prog A) w Q E :
cap_neutral e ->
(forall x w', caps w' = caps w -> outs (k x) w' Q E) -> outs (act e ≫= k) w Q E.
Proof.
intros He HQ. apply outs_act. intros x w' Hx. apply HQ.
pose proof (k_neutral _ e w He) as Hn. by rewrite Hx in Hn.
Qed.

(** A creating call. *)
Lemma outs_create {A} (e : ev Z) (k : Z -> prog A) w Q E :
creates caps w (answer e w) ->
(forall w', caps w' = caps w -> answer e w = (Syscall_Failed, w') ->
   outs (k Syscall_Failed) w' Q E) ->
(forall x w', x <> Syscall_Failed -> x ∉ caps w -> caps w' = {[x]} ∪ caps w ->
   outs (k x) w' Q E) ->
outs (act e ≫= k) w Q E.
Proof.
intros Hc Hf Ho. apply outs_act. intros x w' Hx. rewrite Hx in Hc.
unfold creates in Hc. cbn in Hc. destruct (x =? Syscall_Failed) eqn:Ex; bool_to_prop.
- subst x. by apply Hf.
- apply Ho; [done|apply Hc..].
Qed.

Lemma outs_delete {A} c (k : Z -> prog A) w Q E :
c ∈ caps w ->
(forall w', caps w' = caps w ∖ {[c]} -> outs (k 0) w' Q E) ->
outs (act (Cap_Delete c) ≫= k) w Q E.
Proof.
intros Hc HQ. apply outs_act. intros x w' Hx.
destruct (k_delete c w Hc) as [H0 H1]. rewrite Hx in H0, H1. cbn in *. subst x.
by apply HQ.
Qed.

(** A run of stores. *)
Lemma outs_stores n i (f : Z -> ev unit) w (Q : unit -> M -> Prop) E :
(forall x, cap_neutral (f x)) ->
(forall w', caps w' = caps w -> Q tt w') ->
outs (forP n i (fun x => act (f x))) w Q E.
Proof.
intros Hf. revert i w. induction n as [|n IH]; intros i w HQ; [by apply HQ|].
cbn [forP]. apply outs_neutral; [done|]. intros _ w' Hw'. apply IH.
intros w2 H2. apply HQ. congruence.
Qed.

(** ** The pieces of [Socket] and [Accept_Connection] *)

Definition unused (i : nat) (c : client) : Prop :=
(1 <= i <= length (Socks c))%nat /\ Used (sock c i) = false.

Lemma sock_put i s c : (1 <= i <= length (Socks c))%nat -> sock (put_sock i s c) i = s.
Proof.
intros Hi. unfold sock, put_sock; cbn.
erewrite nth_lookup_Some; [done|]. apply list_lookup_insert_eq. lia.
Qed.

Lemma put_length i s c : length (Socks (put_sock i s c)) = length (Socks c).
Proof. apply length_insert. Qed.

(** Two tables with the same contribution of the open sockets. *)
Definition same_open (c c' : client) : Prop :=
all_held c' ≡ₚ all_held c /\ open_handles c' = open_handles c /\ Net_EP c' = Net_EP c.

#[global] Instance same_open_refl : Reflexive same_open.
Proof. by intros c. Qed.
#[global] Instance same_open_trans : Transitive same_open.
Proof. intros a b c (?&?&?) (?&?&?). split_and!; [by etrans|congruence..]. Qed.

Lemma same_open_holds c c' k : same_open c c' -> holds_caps c k -> holds_caps c' k.
Proof.
intros (Hp & _ & _) [Hn Hl]. split; [by rewrite Hp|].
by rewrite (list_to_set_perm_L _ _ Hp).
Qed.

Lemma open_handles_fill i s c :
unused i c -> open_handles (put_sock i s c) = list_to_set (handle_of s) ∪ open_handles c.
Proof.
intros [Hi Hu]. unfold open_handles.
erewrite (list_to_set_perm_L (C := gset Z)).
2: { apply gather_fill; [done|]. unfold handle_of. by rewrite Hu. }
apply list_to_set_app_L.
Qed.

Lemma put_unused i s c : unused i c -> Used s = false -> same_open c (put_sock i s c).
Proof.
intros [Hi Hu] Hs. split_and!; [| |done].
- unfold all_held. rewrite (gather_fill held) by (done || unfold held; by rewrite Hu).
  unfold held at 1. by rewrite Hs.
- rewrite open_handles_fill by done. unfold handle_of. rewrite Hs. set_solver +.
Qed.

Lemma unused_put i s c : unused i c -> Used s = false -> unused i (put_sock i s c).
Proof.
intros [Hi Hu] Hs. split; [by rewrite put_length|]. by rewrite sock_put.
Qed.

Lemma free_sock_outs c w E :
outs (free_sock c) w
  (fun r w' => caps w' = caps w /\ same_open c r.2 /\
               (r.1 <> 0%nat -> unused r.1 r.2)) E.
Proof.
unfold free_sock.
destruct (first_index (fun s => negb (Used s)) (Socks c)) as [|n] eqn:Ef.
- destruct (_ <? _); [|by apply outs_ret].
  apply outs_neutral; [done|]. intros [] w' Hw; apply outs_ret; [|done].
  split_and!; [done| |].
  + split_and!; [| |done]; unfold all_held, open_handles, gather; cbn [Socks snd].
    * by rewrite fmap_app, concat_app, app_nil_r.
    * by rewrite fmap_app, concat_app, app_nil_r.
  + intros _. split; cbn [Socks fst snd]; [rewrite length_app; cbn; lia|].
    unfold sock; cbn. rewrite Nat.sub_0_r, app_nth2, Nat.sub_diag by lia. done.
- apply outs_ret. split_and!; [done..|]. intros _. cbn [fst snd].
  destruct (first_index_S _ _ _ no_sock Ef) as (Hl & Hf & _); [done|].
  split; [lia|]. unfold sock. by apply negb_true_iff.
Qed.

Lemma zero_header_outs va w (Q : unit -> M -> Prop) E :
(forall w', caps w' = caps w -> Q tt w') -> outs (zero_header va) w Q E.
Proof. intros HQ. by apply outs_stores. Qed.

(** The ring object and the notification of an element. *)
Definition owns (s : Client_Sock) (k k' : gset Z) : Prop :=
Ring_Cap s <> Ntfn_Cap s /\ Ring_Cap s ∉ k /\ Ntfn_Cap s ∉ k /\
k' = {[Ring_Cap s; Ntfn_Cap s]} ∪ k.

Lemma ring_setup_outs i c w :
unused i c ->
outs (ring_setup i c) w
  (fun r w' => caps w ⊆ caps w' /\ same_open c r.2 /\ unused i r.2 /\
     match r.1 with
     | Some _ => owns (sock r.2 i) (caps w) (caps w')
     | None => failed w' = true
     end)
  (fun _ => False).
Proof.
intros Hu. unfold ring_setup.
set (va := Ring_VA_Base + _).
assert (Hput : forall ring ntfn, let s := ClientSock (Used (sock c i)) (Sock_Cap (sock c i)) ring ntfn va in
  same_open c (put_sock i s c) /\ unused i (put_sock i s c)).
{ intros ring ntfn. cbv zeta. destruct Hu as [Hi Hu].
  split; [apply put_unused|apply unused_put]; done. }
apply outs_create; [apply k_alloc| |].
{ intros w1 H1 Hf. apply outs_act. intros ntfn w2 H2. cbn [orb].
  apply outs_ret. cbn [fst snd]. destruct (Hput Syscall_Failed ntfn).
  pose proof (k_ntfn w1) as Hn. unfold creates in Hn. rewrite H2 in Hn. cbn in Hn.
  split_and!; [destruct (_ =? _); set_solver|done|done|].
  pose proof (exec_failed (act Ntfn_Create) w1 (failing _ _ _ _ Hf eq_refl)) as Hx. cbn in Hx. by rewrite H2 in Hx. }
intros ring w1 Hr Hrw H1. apply outs_create; [apply k_ntfn| |].
{ intros w2 H2 Hf. rewrite orb_true_r. apply outs_ret. cbn [fst snd].
  destruct (Hput ring Syscall_Failed). split_and!; [set_solver|done|done|].
  exact (failing _ _ _ _ Hf eq_refl). }
intros ntfn w2 Hn Hnw H2. destruct (Hput ring ntfn) as [Hs Hu'].
rewrite !(proj2 (Z.eqb_neq _ _)) by done. cbn [orb].
apply outs_act. intros x w3 H3.
pose proof (k_neutral _ (Mem_Map ring va 0 Ring_Bytes 3) w2 I) as Hmm.
rewrite H3 in Hmm. cbn [snd] in Hmm. destruct (x =? 0) eqn:Ex; cbn [negb]; bool_to_prop.
- apply outs_bind, zero_header_outs. intros w4 H4.
  apply outs_bind, zero_header_outs. intros w5 H5. apply outs_ret. cbn [fst snd].
  assert (Hw : caps w5 = {[ntfn]} ∪ ({[ring]} ∪ caps w)) by congruence.
  rewrite Hw. clear H5 H4 Hmm H3 Hw. rewrite H1 in Hnw.
  split_and!; [set_solver +|done|done|]. destruct Hu as [Hi Hu].
  rewrite sock_put by done. unfold owns; cbn [Ring_Cap Ntfn_Cap].
  split_and!; [set_solver + Hnw|done|set_solver + Hnw|set_solver +].
- apply outs_ret. cbn [fst snd].
  split_and!; [rewrite Hmm, H2, H1; set_solver +|done|done|].
  exact (failing _ _ _ _ H3 Ex).
Qed.

Lemma transfer_outs ep label words s w :
outs (transfer ep label words s) w
  (fun r w' => caps w ⊆ caps w' /\
     (caps w' = caps w \/ r.1 <> Status_Ok /\ failed w' = true) /\
     (r.1 = Status_Ok -> failed w' = false -> word r.2 2 < 2 ^ 32))
  (fun _ => False).
Proof.
unfold transfer. apply outs_create; [apply k_mint| |].
{ intros w1 H1 Hf. apply outs_act. intros x w2 H2. cbn [orb]. apply outs_ret.
  pose proof (k_mint (Ntfn_Cap s) (Right_Write + Right_Transfer) 0 w1) as Hm.
  unfold creates in Hm. rewrite H2 in Hm. cbn in Hm.
  split_and!; [destruct (_ =? _); set_solver| |done]. right. split; [done|].
  pose proof (exec_failed (act (Cap_Mint (Ntfn_Cap s) (Right_Write + Right_Transfer) 0)) w1 (failing _ _ _ _ Hf eq_refl)) as Hx.
  cbn in Hx. by rewrite H2 in Hx. }
intros rm w1 Hr Hrw H1. apply outs_create; [apply k_mint| |].
{ intros w2 H2 Hf. rewrite orb_true_r. apply outs_ret. split_and!; [set_solver| |done].
  right. split; [done|]. exact (failing _ _ _ _ Hf eq_refl). }
intros nm w2 Hn Hnw H2. rewrite !(proj2 (Z.eqb_neq _ _)) by done. cbn [orb].
apply outs_act. intros r w3 Hr3.
pose proof (k_neutral _ (IPC_Call ep (Msg label words [rm; nm])) w2 I) as H3.
rewrite Hr3 in H3. cbn [snd] in H3.
assert (word r.2 2 < 2 ^ 32 \/ failed w3 = true) as Hw.
{ destruct (Z.lt_ge_cases (word r.2 2) (2 ^ 32)); [by left|right]. apply (failing _ _ _ _ Hr3). by right. }
eapply outs_mono; [apply (outs_log _ _ (fun a w' => caps w' = caps w /\ a.2 = r.2) (fun _ => False))| |by intros ? [[] _]].
- apply outs_delete; [set_solver|]. intros w4 H4. cbn [negb Z.eqb].
  apply outs_delete; [set_solver|]. intros w5 H5.
  apply outs_ret. split; [|done].
  rewrite H5, H4, H3, H2, H1. set_solver.
- intros [st m] w' [[Hc Hm] Hlog]. cbn [fst snd] in *. rewrite Hc, Hm. split_and!; [done|by left|].
  intros _ Hnf. destruct Hw as [?|Hw]; [done|]. apply Hlog in Hw. congruence.
Qed.

Lemma teardown_outs i saved c w :
unused i c -> Ring_Cap (sock c i) <> Ntfn_Cap (sock c i) ->
Ring_Cap (sock c i) ∈ caps w -> Ntfn_Cap (sock c i) ∈ caps w ->
outs (teardown i saved c) w
  (fun r w' => r.1 <> Status_Ok /\ same_open c r.2 /\
     caps w' = caps w ∖ {[Ring_Cap (sock c i); Ntfn_Cap (sock c i)]})
  (fun _ => False).
Proof.
intros Hu Hne Hr Hn. unfold teardown.
apply outs_neutral; [done|]. intros _ w1 H1.
apply outs_delete; [by rewrite H1|]. intros w2 H2.
apply outs_delete; [rewrite H2, H1; set_solver|]. intros w3 H3.
apply outs_ret. cbn [fst snd]. split_and!.
- destruct (saved =? Status_Ok) eqn:E; bool_to_prop; done.
- destruct Hu as [Hi Hu']. by apply put_unused.
- rewrite H3, H2, H1. set_solver.
Qed.

(** [sock_mint] over an element that is set up. *)
Lemma sock_mint_outs i id c w :
unused i c ->
outs (sock_mint i id c) w
  (fun r w' =>
     match r.1 with
     | Some cap => cap ∉ caps w /\ caps w' = {[cap]} ∪ caps w /\
         r.2 = put_sock i (ClientSock true cap (Ring_Cap (sock c i))
                             (Ntfn_Cap (sock c i)) (VA (sock c i))) c
     | None => caps w' = caps w /\ same_open c r.2 /\ unused i r.2 /\ failed w' = true /\
         Ring_Cap (sock r.2 i) = Ring_Cap (sock c i) /\
         Ntfn_Cap (sock r.2 i) = Ntfn_Cap (sock c i)
     end)
  (fun _ => False).
Proof.
intros Hu. unfold sock_mint. apply outs_create; [apply k_mint| |].
- intros w1 H1 Hf. cbn. apply outs_ret. cbn [fst snd].
  destruct Hu as [Hi Hu]. split_and!; [done|by apply put_unused|by apply unused_put| |..].
  + exact (failing _ _ _ _ Hf eq_refl).
  + by rewrite sock_put.
  + by rewrite sock_put.
- intros cap w1 Hc Hcw H1. rewrite (proj2 (Z.eqb_neq _ _)) by done. by apply outs_ret.
Qed.

(** What opening a socket does to the table and the capabilities; [bad] says
  whether a system call has failed. *)
Definition opened (c : client) (k : gset Z) (st h : Z) (c' : client) (k' : gset Z) (bad : bool)
  : Prop :=
if st =? Status_Ok then
  exists ring ntfn,
    NoDup [h; ring; ntfn] /\ h ∉ k /\ ring ∉ k /\ ntfn ∉ k /\
    k' = {[h; ring; ntfn]} ∪ k /\
    all_held c' ≡ₚ h :: ring :: ntfn :: all_held c /\
    open_handles c' = {[h]} ∪ open_handles c /\ Net_EP c' = Net_EP c
else same_open c c' /\ k ⊆ k' /\ (bad = false -> k' = k).

Lemma opened_fail c k st h c' k' bad :
st <> Status_Ok -> same_open c c' -> k ⊆ k' -> (bad = false -> k' = k) ->
opened c k st h c' k' bad.
Proof. intros Hst. unfold opened. by rewrite (proj2 (Z.eqb_neq _ _) Hst). Qed.

Lemma opened_ok c k c2 i h k1 k' bad :
same_open c c2 -> unused i c2 -> owns (sock c2 i) k k1 -> h ∉ k1 ->
k' = {[h]} ∪ k1 ->
opened c k Status_Ok h
  (put_sock i (ClientSock true h (Ring_Cap (sock c2 i)) (Ntfn_Cap (sock c2 i))
                 (VA (sock c2 i))) c2) k' bad.
Proof.
intros (Hh & Ho & Hn) [Hi Hu] (Hne & Hr & Hnt & ->) Hk ->.
exists (Ring_Cap (sock c2 i)), (Ntfn_Cap (sock c2 i)).
split_and!; [|set_solver + Hk|done|done|set_solver +| | |done].
- rewrite !NoDup_cons. split_and!; [set_solver + Hk|set_solver + Hne| |by apply NoDup_nil].
  set_solver +.
- unfold all_held. rewrite (gather_fill held) by (done || unfold held; by rewrite Hu).
  cbn. by rewrite Hh.
- rewrite open_handles_fill, Ho by done. cbn. set_solver +.
Qed.

(** [Socket] and [Accept_Connection] differ in the message they send and in
  their out parameters; [v] reads status, handle and table off a result. *)
Section opening.
Context {A : Type} (v : A -> Z * Z * client) (c : client) (w : M).

Definition good_open (a : A) (w' : M) : Prop :=
  opened c (caps w) (v a).1.1 (v a).1.2 (v a).2 (caps w') (failed w').
Definition bad_open (w' : M) : Prop := caps w ⊆ caps w' /\ failed w' = true.

Lemma start_outs (full err : client -> A) (rest : nat -> client -> prog A) :
  (forall c', (v (full c')).1.1 <> Status_Ok /\ (v (full c')).2 = c') ->
  (forall c', (v (err c')).1.1 <> Status_Ok /\ (v (err c')).2 = c') ->
  (forall i c2 w2, same_open c c2 -> unused i c2 ->
     owns (sock c2 i) (caps w) (caps w2) -> outs (rest i c2) w2 good_open bad_open) ->
  outs ('(i, c1) ← free_sock c;
        if (i =? 0)%nat then mret (full c1)
        else '(ok, c2) ← ring_setup i c1;
             match ok with None => mret (err c2) | Some _ => rest i c2 end)
    w good_open bad_open.
Proof.
  intros Hfull Herr Hrest. apply outs_bind.
  eapply outs_mono; [apply (free_sock_outs _ _ (fun _ => False))| |done].
  intros [i c1] w1 (H1 & Hs1 & Hu1). cbn [fst snd] in *.
  destruct (i =? 0)%nat eqn:Ei.
  { destruct (Hfull c1) as [Hst Hc].
    apply outs_ret, opened_fail; [done|by rewrite Hc|by rewrite H1|done]. }
  apply Nat.eqb_neq in Ei. specialize (Hu1 Ei). apply outs_bind.
  eapply outs_mono; [by apply ring_setup_outs| |done].
  intros [[[]|] c2] w2 (H2 & Hs2 & Hu2 & Ho2); cbn [fst snd] in *.
  - apply Hrest; [by etrans|done|by rewrite <- H1].
  - destruct (Herr c2) as [Hst Hc].
    apply outs_ret, opened_fail; [done|rewrite Hc; by etrans|by rewrite <- H1|congruence].
Qed.

Lemma teardown_opened i saved c2 c3 w3 k1 (out : Z * client -> A) :
  (forall r c', v (out (r, c')) = (r, 0, c')) ->
  same_open c c2 -> same_open c2 c3 -> unused i c3 -> owns (sock c2 i) (caps w) k1 ->
  k1 ⊆ caps w3 -> (failed w3 = false -> caps w3 = k1) ->
  Ring_Cap (sock c3 i) = Ring_Cap (sock c2 i) ->
  Ntfn_Cap (sock c3 i) = Ntfn_Cap (sock c2 i) ->
  outs ('(r, c4) ← teardown i saved c3; mret (out (r, c4))) w3 good_open bad_open.
Proof.
  intros Hv H02 H2 Hu (Hne & Hr & Hn & Hk) Hsub Hnf ER EN. apply outs_bind.
  eapply outs_mono; [apply outs_log, teardown_outs; [done|..]|..].
  - by rewrite ER, EN.
  - apply Hsub. rewrite ER, Hk. set_solver +.
  - apply Hsub. rewrite EN, Hk. set_solver +.
  - intros [r c4] w' [(Hst & Hs & Hw') Hlog]. cbn [fst snd] in *. apply outs_ret.
    rewrite ER, EN in Hw'. unfold good_open. rewrite Hv. cbn [fst snd].
    apply opened_fail; [done|etrans; [exact H02|by etrans]|..]; rewrite Hw'.
    + rewrite Hk in Hsub. clear -Hr Hn Hsub. set_solver.
    + intros HN. rewrite Hnf, Hk by (destruct (failed w3); [by rewrite Hlog in HN|done]). clear -Hr Hn. set_solver.
  - by intros w' [[] _].
Qed.

Lemma claim_outs i id c2 w2 (okf : Z -> client -> A) (out : Z * client -> A) :
  (forall h c', v (okf h c') = (Status_Ok, h, c')) ->
  (forall r c', v (out (r, c')) = (r, 0, c')) ->
  same_open c c2 -> unused i c2 -> owns (sock c2 i) (caps w) (caps w2) ->
  outs ('(h, c3) ← sock_mint i id c2;
        match h with
        | Some cap => mret (okf cap c3)
        | None => '(r, c4) ← teardown i Status_Error c3; mret (out (r, c4))
        end) w2 good_open bad_open.
Proof.
  intros Hok Hout Hs Hu Ho. apply outs_bind.
  eapply outs_mono; [by apply sock_mint_outs| |done].
  intros [[cap|] c3] w4; cbn [fst snd].
  - intros (Hcap & Hw4 & ->). apply outs_ret. unfold good_open. rewrite Hok.
    by eapply opened_ok.
  - intros (Hw4 & Hs3 & Hu3 & HN & ER & EN).
    eapply (teardown_opened i _ c2 c3 w4 (caps w2)); try done; by rewrite Hw4.
Qed.

(** From the transfer on. *)
Lemma transfer_rest i c2 w2 ep label words (rest : msg -> prog A) out :
  (forall r c', v (out (r, c')) = (r, 0, c')) ->
  same_open c c2 -> unused i c2 -> owns (sock c2 i) (caps w) (caps w2) ->
  (forall rep w3, caps w3 = caps w2 -> (failed w3 = false -> word rep 2 < 2 ^ 32) ->
     outs (rest rep) w3 good_open bad_open) ->
  outs ('(st, rep) ← transfer ep label words (sock c2 i);
        if st =? Status_Ok then rest rep
        else '(r, c3) ← teardown i st c2; mret (out (r, c3))) w2 good_open bad_open.
Proof.
  intros Hout Hs Hu Ho Hrest.
  assert (Hk2 : caps w ⊆ caps w2) by (destruct Ho as (_ & _ & _ & ->); set_solver +).
  apply outs_bind. eapply outs_mono; [apply transfer_outs| |done].
  intros [st rep] w3 (H3 & Hor & Hrep); cbn [fst snd] in *.
  destruct (st =? Status_Ok) eqn:Est; bool_to_prop.
  - apply Hrest; [by destruct Hor as [Hw3|[? _]]|auto].
  - eapply (teardown_opened i st c2 c2 w3 (caps w2)); try done.
    intros HN. destruct Hor as [->|[_ ?]]; congruence.
Qed.
End opening.

Lemma Socket_outs proto c w :
outs (Socket proto c) w
  (fun r w' => opened c (caps w) r.1.1 r.1.2 r.2 (caps w') (failed w'))
  (fun w' => caps w ⊆ caps w' /\ failed w' = true).
Proof.
unfold Socket. destruct (_ || _); [by apply outs_ret|].
apply (start_outs (fun r => r) c w (fun c1 => (Status_Not_Ready, 0, c1))
         (fun c1 => (Status_Error, 0, c1))); [done|done|].
intros i c2 w2 Hs Hu Ho.
apply (transfer_rest (fun r => r) c w i c2 w2 _ _ _ _ (fun rc => (rc.1, 0, rc.2)));
  [done..|].
intros rep w3 H3 _. apply (claim_outs (fun r => r) c w i _ c2 w3
  (fun h c' => (Status_Ok, h, c')) (fun rc => (rc.1, 0, rc.2))); [done..|].
by rewrite H3.
Qed.

Lemma Accept_outs handle c w :
outs (Accept_Connection handle c) w
  (fun r w' => opened c (caps w) (ac_status r.1) (ac_handle r.1) r.2 (caps w') (failed w'))
  (fun w' => caps w ⊆ caps w' /\ failed w' = true).
Proof.
unfold Accept_Connection. destruct (_ =? _)%nat; [by apply outs_ret|].
set (v := fun r : accepted * client => (ac_status r.1, ac_handle r.1, r.2)).
apply (start_outs v c w (fun c1 => (Accepted Status_Not_Ready 0 0 0, c1))
         (fun c1 => (Accepted Status_Error 0 0 0, c1))); [done|done|].
intros i c2 w2 Hs Hu Ho.
apply (transfer_rest v c w i c2 w2 _ _ _ _ (fun rc => (Accepted rc.1 0 0 0, rc.2)));
  [done..|].
intros rep w3 H3 Hrep. destruct (_ <=? _) eqn:E; bool_to_prop.
- unfold outs, bad_open; cbn. rewrite H3. split.
  + destruct Ho as (_ & _ & _ & ->). set_solver +.
  + destruct (failed w3); [done|]. specialize (Hrep eq_refl). lia.
- apply (claim_outs v c w i _ c2 w3
    (fun h c' => (Accepted Status_Ok h (word rep 2) (word rep 3), c'))
    (fun rc => (Accepted rc.1 0 (word rep 2) (word rep 3), rc.2))); [done..|].
  by rewrite H3.
Qed.

(** ** [Close] *)

Lemma held_of_open c h k :
holds_caps c k -> h ∈ open_handles c ->
let s := sock c (Find c h) in
NoDup [h; Ring_Cap s; Ntfn_Cap s] /\ {[h; Ring_Cap s; Ntfn_Cap s]} ⊆ k /\
all_held c ≡ₚ h :: Ring_Cap s :: Ntfn_Cap s :: all_held (put_sock (Find c h) no_sock c).
Proof.
intros [Hn Hl] Ho. apply Find_spec, Find_sock in Ho as (Hi & Hu & Hh).
cbv zeta. pose proof (gather_clear held c _ no_sock Hi eq_refl) as Hp.
fold (all_held c) in Hp. unfold held at 1 in Hp. rewrite Hu, Hh in Hp. cbn in Hp.
split_and!.
- rewrite Hp in Hn. rewrite !NoDup_cons in *. destruct Hn as (H1 & H2 & _).
  split_and!; [set_solver + H1|set_solver + H2|set_solver +|by apply NoDup_nil_2].
- rewrite (list_to_set_perm_L (C := gset Z) _ _ Hp) in Hl. cbn in Hl. set_solver + Hl.
- exact Hp.
Qed.

Lemma open_handles_close c h k :
holds_caps c k -> h ∈ open_handles c ->
open_handles (put_sock (Find c h) no_sock c) = open_handles c ∖ {[h]}.
Proof.
intros Hc Ho. destruct (held_of_open c h k Hc Ho) as (_ & _ & Hp).
assert (Hn : h ∉ open_handles (put_sock (Find c h) no_sock c)).
{ intros Hin%open_handles_held. apply hc_nodup in Hc. rewrite Hp in Hc.
  apply NoDup_cons in Hc as [Hc _]. set_solver. }
apply Find_spec, Find_sock in Ho as (Hi & Hu & Hh).
pose proof (gather_clear handle_of c _ no_sock Hi eq_refl) as Hg.
unfold handle_of at 2 in Hg. rewrite Hu, Hh in Hg.
assert (open_handles c = {[h]} ∪ open_handles (put_sock (Find c h) no_sock c)) as ->.
{ unfold open_handles. rewrite (list_to_set_perm_L (C := gset Z) _ _ Hg).
  rewrite list_to_set_app_L. cbn. set_solver +. }
set_solver + Hn.
Qed.

Lemma Close_outs h c w :
holds_caps c (caps w) ->
outs (Close h c) w
  (fun r w' =>
     open_handles r.2 = open_handles c ∖ {[h]} /\ holds_caps r.2 (caps w') /\
     if decide (h ∈ open_handles c) then
       exists ring ntfn,
         all_held c ≡ₚ h :: ring :: ntfn :: all_held r.2 /\
         caps w' = caps w ∖ {[h; ring; ntfn]}
     else r.1 = Status_Bad_Args /\ r.2 = c /\ caps w' = caps w)
  (fun _ => False).
Proof.
intros Hc. unfold Close. destruct (Find c h =? 0)%nat eqn:E.
- apply Nat.eqb_eq in E. assert (Hn : h ∉ open_handles c)
    by (rewrite <- Find_spec; lia).
  apply outs_ret. cbn [fst snd]. rewrite decide_False by done.
  split_and!; [set_solver + Hn|done..].
- apply Nat.eqb_neq in E. pose proof (proj1 (Find_spec c h) E) as Ho.
  destruct (held_of_open c h _ Hc Ho) as (Hnd & Hsub & Hp).
  destruct (Find_sock c h E) as (Hi & Hu & Hh). set (s := sock c (Find c h)) in *.
  apply outs_bind. unfold sock_call. apply outs_neutral; [done|]. intros r w1 H1.
  apply outs_ret. apply outs_neutral; [done|]. intros _ w2 H2.
  rewrite !NoDup_cons in Hnd. destruct Hnd as (Hn1 & Hn2 & _).
  apply outs_delete; [rewrite H2, H1; set_solver + Hsub|]. intros w3 H3.
  apply outs_delete; [rewrite H3, H2, H1; set_solver + Hsub Hn2|]. intros w4 H4.
  rewrite Hh.
  apply outs_delete; [rewrite H4, H3, H2, H1; set_solver + Hsub Hn1|]. intros w5 H5.
  apply outs_ret. cbn [fst snd]. rewrite decide_True by done.
  assert (Hw : caps w5 = caps w ∖ {[h; Ring_Cap s; Ntfn_Cap s]})
    by (rewrite H5, H4, H3, H2, H1; set_solver +).
  split_and!; [by eapply open_handles_close| |by exists (Ring_Cap s), (Ntfn_Cap s)].
  destruct Hc as [Hcn Hcl]. rewrite Hp in Hcn. rewrite !NoDup_cons in Hcn.
  destruct Hcn as (Hc1 & Hc2 & Hc3 & Hc4). split; [done|]. rewrite Hw.
  rewrite (list_to_set_perm_L (C := gset Z) _ _ Hp) in Hcl. cbn in Hcl.
  intros x Hx%elem_of_list_to_set. clear -Hx Hcl Hc1 Hc2 Hc3. set_solver.
Qed.

(** ** Calls that touch no capability *)

Fixpoint all_neutral {A} (p : prog A) : Prop :=
match p with
| Vis e k => cap_neutral e /\ forall x, all_neutral (k x)
| _ => True
end.

Lemma neutral_bind {A B} (p : prog A) (f : A -> prog B) :
all_neutral p -> (forall a, all_neutral (f a)) -> all_neutral (p ≫= f).
Proof.
intros Hp Hf. induction p as [a|X e k IH| |]; cbn; [apply Hf| |done|done].
destruct Hp as [He Hk]. split; [done|]. intros x. apply IH, Hk.
Qed.

Lemma neutral_act {A X} (e : ev X) (k : X -> prog A) :
cap_neutral e -> (forall x, all_neutral (k x)) -> all_neutral (act e ≫= k).
Proof. done. Qed.

Lemma neutral_exec {A} (p : prog A) w : all_neutral p -> caps (exec p w).2 = caps w.
Proof.
revert w. induction p as [a|X e k IH| |]; intros w Hp; cbn; [done| |done|done].
destruct Hp as [He Hk]. pose proof (k_neutral _ e w He) as Hn.
destruct (answer e w) as [x w']. rewrite IH by apply Hk. exact Hn.
Qed.

Lemma neutral_iter {X A} fuel (body : X -> prog (X + A)) x :
(forall x, all_neutral (body x)) -> all_neutral (iterP fuel body x).
Proof.
intros H. revert x. induction fuel as [|n IH]; intros x; [done|]. cbn [iterP].
apply neutral_bind; [apply H|]. intros [x'|a]; [apply IH|done].
Qed.

Lemma neutral_collect {A} n i (body : Z -> prog A) :
(forall x, all_neutral (body x)) -> all_neutral (collectP n i body).
Proof.
intros H. revert i. induction n as [|n IH]; intros i; [done|]. cbn [collectP].
apply neutral_bind; [apply H|]. intros a. apply neutral_bind; [apply IH|done].
Qed.

Lemma neutral_forP n i (body : Z -> prog unit) :
(forall x, all_neutral (body x)) -> all_neutral (forP n i body).
Proof.
intros H. revert i. induction n as [|n IH]; intros i; [done|]. cbn [forP].
apply neutral_bind; [apply H|]. intros a. apply IH.
Qed.
End run.
