(* ===== verification/BridgeInst.v ===== *)
(** * The socket layer on the bridge on the kernel

    [Aegir_User.Sockets] over a kernel is an instance of the interface
    [Bridge] that [aegir_gsocket.c] calls, and satisfies its laws.  A world of
    the instance is the package state and the machine, with the invariant
    that the open sockets hold live, distinct capabilities; every call keeps
    it.  A call that raises ends the program; the instance answers it with
    [Status_Error] and keeps the table.

    The loops of [Send_To] and [Recv_From] get the fuel their deadlines
    allow: a round that does not return sleeps a slice, so a send of half a
    second has at most 101 rounds, a receive one per slice of its timeout. *)
From S2P Require Import Prelude CInt Bridge FdTable TableInv Api Prog Ring SockBridge SockBridgeSpec.

Definition send_fuel : nat := 102.
Definition recv_fuel (timeout : Z) : nat := Z.to_nat (timeout / Wait_Slice + 2).

(** ** Calls that leave the capabilities alone *)

Lemma neutral_Mem_set slot i v : all_neutral (Mem_set slot i v).
Proof. unfold Mem_set. by destruct (_ <? _). Qed.
Lemma neutral_Mem_get slot i : all_neutral (Mem_get slot i).
Proof. unfold Mem_get. by destruct (_ <? _). Qed.

Lemma neutral_slot_header slot n ip port : all_neutral (slot_header slot n ip port).
Proof.
  unfold slot_header. do 4 (apply neutral_bind; [apply neutral_Mem_set|intros _]).
  apply neutral_forP. intros x.
  apply neutral_bind; [|intros _]; apply neutral_Mem_set.
Qed.

Lemma neutral_copy_in fuel slot i last src : all_neutral (copy_in fuel slot i last src).
Proof.
  revert i. induction fuel as [|n IH]; intros i; [done|]. cbn [copy_in].
  destruct (_ <? _); [done|]. apply neutral_bind; [apply neutral_Mem_set|]. intros _. apply IH.
Qed.

Ltac neutral_step :=
  lazymatch goal with
  | |- all_neutral (act _ ≫= _) => apply neutral_act; [done|intros ?]
  | |- all_neutral (Mem_set _ _ _ ≫= _) => apply neutral_bind; [apply neutral_Mem_set|intros ?]
  | |- all_neutral (Mem_get _ _ ≫= _) => apply neutral_bind; [apply neutral_Mem_get|intros ?]
  | |- all_neutral (slot_header _ _ _ _ ≫= _) =>
      apply neutral_bind; [apply neutral_slot_header|intros ?]
  | |- all_neutral (copy_in _ _ _ _ _ ≫= _) =>
      apply neutral_bind; [apply neutral_copy_in|intros ?]
  | |- all_neutral (if ?b then _ else _) => destruct b
  | |- all_neutral (mret _) => exact I
  | |- all_neutral (_ ≫= _) => apply neutral_bind; [|intros ?]
  | |- all_neutral (iterP _ _ _) => apply neutral_iter; intros ?
  | |- all_neutral (collectP _ _ _) => apply neutral_collect; intros ?
  | |- all_neutral (Mem_get _ _) => apply neutral_Mem_get
  | |- all_neutral (match ?x with _ => _ end) => destruct x
  end.

Lemma neutral_send_ring fuel h va src len ip port :
  all_neutral (send_ring fuel h va src len ip port).
Proof. unfold send_ring, send_wait. repeat neutral_step. Qed.

Lemma neutral_recv_ring fuel va max timeout : all_neutral (recv_ring fuel va max timeout).
Proof. unfold recv_ring, recv_round, take_slot. cbv zeta. repeat neutral_step. Qed.

Section instance.
Context {M : Type} `{HM : Machine M} (caps : M -> gset Z) `{!Kernel M caps} `{!Faults M}.

(** The query itself: the transfer copy is gone when it returns. *)
Lemma query_outs w0 k0 mint ep m :
  mint ∉ k0 -> caps w0 = {[mint]} ∪ k0 ->
  outs (r ← act (IPC_Call ep m);
        let st := if r.1 =? IPC_Ok then word r.2 0 else Status_Error in
        let ip := if (r.1 =? IPC_Ok) && (st =? Status_Ok) then word r.2 1 else 0 in
        if 2 ^ 32 <=? ip then Raise
        else d ← act (Cap_Delete mint);
             mret (if d =? 0 then st else Status_Error, ip)) w0
    (fun _ w' => caps w' = k0) (fun w' => k0 ⊆ caps w' /\ failed w' = true).
Proof.
  intros Hm H0. apply outs_act. intros r w1 Hr.
  pose proof (k_neutral _ (IPC_Call ep m) w0 I) as H1. rewrite Hr in H1. cbn in H1.
  cbv zeta. destruct (_ <=? _) eqn:E; bool_to_prop.
  - unfold outs; cbn. rewrite H1, H0. split; [set_solver +|]. apply (failing _ _ _ _ Hr). left.
    destruct ((_ =? _) && _); lia.
  - apply (outs_delete caps); [rewrite H1, H0; set_solver +|]. intros w2 H2.
    apply outs_ret. rewrite H2, H1, H0. set_solver + Hm.
Qed.

(** Capabilities a call leaves behind: none that was there is lost, and none
    is added if no system call failed. *)
Definition keeps (w w' : M) : Prop :=
  caps w ⊆ caps w' /\ (failed w' = false -> caps w' = caps w).

Lemma keeps_eq w w' : caps w' = caps w -> keeps w w'.
Proof. intros E. split; [by rewrite E|done]. Qed.

Lemma Resolve_end w w5 cap st (ip : Z) :
  cap ∉ caps w -> caps w5 = {[cap]} ∪ caps w ->
  outs (u ← act (Mem_Unmap Resolve_VA Page_Size);
        bad ← (if negb (u =? 0) then mret true
               else d ← act (Cap_Delete cap); mret (negb (d =? 0)));
        mret (if (bad : bool) && (st =? Status_Ok) then Status_Error else st, ip)) w5
    (fun _ => keeps w) (keeps w).
Proof.
  intros Hcw H5. apply outs_act. intros u w6 Hu.
  pose proof (k_neutral _ (Mem_Unmap Resolve_VA Page_Size) w5 I) as H6.
  rewrite Hu in H6. cbn in H6. apply outs_bind. destruct (u =? 0) eqn:E; cbn [negb]; bool_to_prop.
  - apply (outs_delete caps); [rewrite H6, H5; set_solver +|]. intros w7 H7.
    apply outs_ret, outs_ret. apply keeps_eq. rewrite H7, H6, H5. set_solver + Hcw.
  - apply outs_ret, outs_ret. split; [rewrite H6, H5; set_solver +|].
    intros HN. rewrite (failing _ _ _ _ Hu E) in HN. done.
Qed.

Lemma Resolve_outs name c w : outs (Resolve name c) w (fun _ => keeps w) (keeps w).
Proof.
  unfold Resolve. destruct (_ || _); [by apply outs_ret, keeps_eq|].
  apply (outs_create caps); [apply k_alloc|intros w1 H1 _; by apply outs_ret, keeps_eq|].
  intros cap w1 Hc Hcw H1. rewrite (proj2 (Z.eqb_neq _ _)) by done.
  apply outs_act. intros r w2 Hr.
  pose proof (k_neutral _ (Mem_Map cap Resolve_VA 0 Page_Size 3) w1 I) as H2.
  rewrite Hr in H2. cbn in H2. destruct (r =? 0) eqn:E; cbn [negb]; bool_to_prop.
  2: { apply outs_ret. split; [rewrite H2, H1; set_solver +|].
       intros HN. rewrite (failing _ _ _ _ Hr E) in HN. done. }
  apply outs_bind, (outs_stores caps); [done|]. intros w3 H3.
  assert (Hw3 : caps w3 = {[cap]} ∪ caps w) by congruence. clear H1 H2 H3 Hr.
  apply (outs_create caps); [apply k_mint| |].
  - intros w4 H4 _. apply outs_bind, outs_ret. apply Resolve_end; [done|by rewrite H4].
  - intros mint w4 Hm Hmw H4. rewrite (proj2 (Z.eqb_neq _ _)) by done.
    apply outs_bind. eapply outs_mono; [by apply (query_outs w4 (caps w3))|..].
    + intros [st ip] w5 H5. apply Resolve_end; [done|by rewrite H5].
    + intros w5 [H5 HN]. split; [|congruence]. rewrite Hw3 in H5. set_solver + H5.
Qed.

Lemma Resolve_grows name c w : keeps w (exec (Resolve name c) w).2.
Proof.
  pose proof (Resolve_outs name c w) as H. unfold outs in H.
  by destruct (exec _ w) as [[] ?].
Qed.

(** ** Worlds and calls *)

(** The capabilities of the process that are not the package's. *)
Context (base : gset Z).

Definition ok_world (cw : client * M) : Prop :=
  holds_caps cw.1 (caps cw.2) /\ base ## list_to_set (all_held cw.1) /\
  base ⊆ caps cw.2 /\
  (failed cw.2 = false -> caps cw.2 = base ∪ list_to_set (all_held cw.1)).
Definition bworld : Type := { cw : client * M | ok_world cw }.

(** A call that may change the package state. *)
Definition run_upd {A} (p : client -> prog (A * client)) (d : A) (cw : client * M)
    : A * (client * M) :=
  match exec (p cw.1) cw.2 with
  | (Returned (a, c'), w') => (a, (c', w'))
  | (_, w') => (d, (cw.1, w'))
  end.

(** A call that does not. *)
Definition run_get {A} (p : client -> prog A) (d : A) (cw : client * M)
    : A * (client * M) :=
  match exec (p cw.1) cw.2 with
  | (Returned a, w') => (a, (cw.1, w'))
  | (_, w') => (d, (cw.1, w'))
  end.

Definition lift {A} (f : client * M -> A * (client * M))
    (H : forall cw, ok_world cw -> ok_world (f cw).2) (w : bworld) : A * bworld :=
  ((f (proj1_sig w)).1, exist _ (f (proj1_sig w)).2 (H _ (proj2_sig w))).

Lemma unfailed {A} (p : prog A) w : failed (exec p w).2 = false -> failed w = false.
Proof. pose proof (exec_failed p w). destruct (failed w); [|done]. intuition congruence. Qed.

Lemma run_get_ok {A} (p : client -> prog A) d :
  (forall c w, keeps w (exec (p c) w).2) ->
  forall cw, ok_world cw -> ok_world (run_get p d cw).2.
Proof.
  intros Hp [c w] (Hok & Hd & Hb & Hx). specialize (Hp c w).
  assert (H : ok_world (c, (exec (p c) w).2)).
  { destruct Hp as [Hk Hnf]. split_and!; cbn [fst snd]; [by eapply holds_caps_mono|done|by etrans|].
    intros HN. rewrite (Hnf HN). apply Hx. by eapply unfailed. }
  unfold run_get; cbn [fst snd]. by destruct (exec (p c) w) as [[] w'].
Qed.

Lemma neutral_grows {A} (p : client -> prog A) :
  (forall c, all_neutral (p c)) -> forall c w, keeps w (exec (p c) w).2.
Proof. intros Hp c w. apply keeps_eq, (neutral_exec caps), Hp. Qed.

(** An opening call keeps the invariant. *)
Lemma opened_ok_world c w st h c' w' :
  ok_world (c, w) -> (failed w' = false -> failed w = false) -> opened c (caps w) st h c' (caps w') (failed w') -> ok_world (c', w').
Proof.
  intros (Hc & Hd & Hb & Hx) Hf. cbn [fst snd] in *. unfold opened.
  destruct (st =? Status_Ok).
  - intros (ring & ntfn & Hnd & Hh & Hr & Hn & Hk & Hp & _). unfold ok_world; cbn [fst snd].
    rewrite (list_to_set_perm_L (C := gset Z) _ _ Hp), Hk. cbn.
    split_and!; [|set_solver + Hd Hb Hh Hr Hn|set_solver + Hb|].
    2: { intros HN. rewrite (Hx (Hf HN)). set_solver +. }
    destruct Hc as [Hcn Hcl]. split.
    + rewrite Hp. change (?a :: ?b :: ?d :: ?l) with ([a; b; d] ++ l).
      apply NoDup_app. split_and!; [done| |done].
      intros x Hx1 Hx2. assert (x ∈ caps w) by (apply Hcl; by rewrite elem_of_list_to_set).
      set_solver.
    + rewrite (list_to_set_perm_L (C := gset Z) _ _ Hp). cbn. set_solver + Hcl.
  - intros (Hs & Hk & Hnf). unfold ok_world; cbn [fst snd].
    pose proof Hs as (Hp & _). rewrite (list_to_set_perm_L (C := gset Z) _ _ Hp).
    split_and!; [|done|by etrans|intros HN; rewrite (Hnf HN); by apply Hx, Hf].
    eapply holds_caps_mono; [exact Hk|]. by eapply same_open_holds.
Qed.

(** What a call that opens a socket guarantees. *)
Definition opens {A} (p : client -> prog (A * client)) (st h : A -> Z) : Prop :=
  forall c w, outs (p c) w
    (fun r w' => opened c (caps w) (st r.1) (h r.1) r.2 (caps w') (failed w'))
    (fun w' => caps w ⊆ caps w' /\ failed w' = true).

Lemma run_open_ok {A} (p : client -> prog (A * client)) (st h : A -> Z) d :
  opens p st h -> forall cw, ok_world cw -> ok_world (run_upd p d cw).2.
Proof.
  intros Hp [c w] Hok. unfold run_upd. cbn [fst snd] in *.
  specialize (Hp c w). unfold outs in Hp.
  pose proof (unfailed (p c) w) as Hf.
  assert (HE : forall w', caps w ⊆ caps w' /\ failed w' = true -> ok_world (c, w')).
  { intros w' [Hk HN]. destruct Hok as (Hc & Hd & Hb & _).
    split_and!; [by eapply holds_caps_mono|done|by etrans|cbn; congruence]. }
  destruct (exec (p c) w) as [[[a c']| |] w']; cbn in *; [by eapply opened_ok_world|auto..].
Qed.

(** Handles after an opening call. *)
Lemma run_open_live {A} (p : client -> prog (A * client)) (st h : A -> Z) d cw a cw' :
  opens p st h -> st d <> Status_Ok -> ok_world cw -> run_upd p d cw = (a, cw') ->
  if st a =? Status_Ok
  then (h a ∉ open_handles cw.1) /\ (open_handles cw'.1 = {[h a]} ∪ open_handles cw.1)
  else open_handles cw'.1 = open_handles cw.1.
Proof.
  intros Hp Hd (Hok & _). destruct cw as [c w]. unfold run_upd in *. cbn [fst snd] in *.
  specialize (Hp c w). unfold outs in Hp.
  destruct (exec (p c) w) as [[[a1 c']| |] w']; cbn in *; intros [= <- <-]; cbn [fst].
  - unfold opened in Hp. destruct (st a1 =? Status_Ok).
    + destruct Hp as (ring & ntfn & _ & Hh & _ & _ & _ & _ & Ho & _). split; [|done].
      intros Hin%open_handles_held. apply Hh. by apply Hok.
    + apply Hp.
  - by rewrite (proj2 (Z.eqb_neq _ _) Hd).
  - by rewrite (proj2 (Z.eqb_neq _ _) Hd).
Qed.

Lemma Close_ok h d cw : ok_world cw -> ok_world (run_upd (Close h) d cw).2.
Proof.
  destruct cw as [c w]. unfold run_upd. cbn [fst snd]. intros (Hok & Hd & Hb & Hx).
  pose proof (Close_outs caps h c w Hok) as Hc. pose proof (unfailed (Close h c) w) as Hf. unfold outs in Hc. cbn [fst snd] in *.
  destruct (exec (Close h c) w) as [[[a c']| |] w']; [|done..].
  destruct Hc as (_ & Hc & Hif). cbn [fst snd] in *.
  destruct (decide _); [|by destruct Hif as (_ & -> & Hw); split_and!; cbn [fst snd]; rewrite ?Hw; auto].
  destruct Hif as (ring & ntfn & Hp & Hw).
  rewrite (list_to_set_perm_L (C := gset Z) _ _ Hp) in Hd, Hx. cbn in Hd, Hx.
  split_and!; cbn [fst snd]; [done|set_solver + Hd|rewrite Hw; set_solver + Hd Hb|].
  intros HN. rewrite Hw, (Hx (Hf HN)).
  pose proof (hc_nodup _ _ Hok) as Hnd. rewrite Hp, !NoDup_cons in Hnd.
  destruct Hnd as (H1 & H2 & H3 & _). clear -Hd H1 H2 H3.
  assert (H1' : h ∉ (list_to_set (all_held c') : gset Z)) by set_solver.
  assert (H2' : ring ∉ (list_to_set (all_held c') : gset Z)) by set_solver.
  assert (H3' : ntfn ∉ (list_to_set (all_held c') : gset Z)) by set_solver.
  set_solver + Hd H1' H2' H3'.
Qed.

Lemma Close_live h d cw :
  ok_world cw -> open_handles (run_upd (Close h) d cw).2.1 = open_handles cw.1 ∖ {[h]}.
Proof.
  destruct cw as [c w]. unfold run_upd. cbn [fst snd]. intros (Hok & _).
  pose proof (Close_outs caps h c w Hok) as Hc. unfold outs in Hc.
  destruct (exec (Close h c) w) as [[[a c']| |] w']; [apply Hc|done..].
Qed.

Lemma run_get_live {A} (p : client -> prog A) d cw : (run_get p d cw).2.1 = cw.1.
Proof. unfold run_get. by destruct (exec _ _) as [[] ?]. Qed.

Lemma sock_call_neutral h l ws : all_neutral (sock_call h l ws).
Proof. done. Qed.

Lemma Bind_grows h p c w : keeps w (exec (Bind h p c) w).2.
Proof. apply (neutral_grows (Bind h p)). intros c'. unfold Bind. by repeat neutral_step. Qed.
Lemma Connect_grows h i p c w : keeps w (exec (Connect h i p c) w).2.
Proof. apply (neutral_grows (Connect h i p)). intros c'. unfold Connect. by repeat neutral_step. Qed.
Lemma Listen_grows h b c w : keeps w (exec (Listen h b c) w).2.
Proof. apply (neutral_grows (Listen h b)). intros c'. unfold Listen. by repeat neutral_step. Qed.
Lemma Poll_grows h c w : keeps w (exec (Poll h c) w).2.
Proof. apply (neutral_grows (Poll h)). intros c'. unfold Poll. by repeat neutral_step. Qed.
Lemma Send_grows f h s l i p c w : keeps w (exec (Send_To f h s l i p c) w).2.
Proof.
  apply (neutral_grows (Send_To f h s l i p)). intros c'. unfold Send_To. cbv zeta.
  destruct (_ || _); [done|]. apply neutral_send_ring.
Qed.
Lemma Recv_grows f h m t c w : keeps w (exec (Recv_From f h m t c) w).2.
Proof.
  apply (neutral_grows (Recv_From f h m t)). intros c'. unfold Recv_From. cbv zeta.
  destruct (_ =? _)%nat; [done|]. apply neutral_recv_ring.
Qed.
Lemma Resolve_C_grows n l c w : keeps w (exec (Resolve_C n l c) w).2.
Proof. unfold Resolve_C. destruct (_ || _); [by apply keeps_eq|]. apply Resolve_grows. Qed.
Lemma act_grows {X} (e : ev X) (_ : client) w :
  cap_neutral e -> keeps w (exec (act e) w).2.
Proof. intros He. by apply keeps_eq, (neutral_exec caps). Qed.

Lemma Attach_ok n cw : ok_world cw -> ok_world (Attach n cw.1, cw.2).
Proof. intros ([Hn Hl] & Hd & Hb & Hx). by split_and!. Qed.

#[export] Instance ada_bridge : Bridge bworld := {|
  aknet_sock_attach n w := exist _ _ (Attach_ok n (proj1_sig w) (proj2_sig w));
  aknet_sock_endpoint w := Endpoint (proj1_sig w).1;
  aknet_sock_socket p :=
    lift (run_upd (Socket p) (Status_Error, 0))
      (run_open_ok (Socket p) fst snd _ (Socket_outs caps p));
  aknet_sock_bind h p :=
    lift (run_get (Bind h p) (Status_Error, 0)) (run_get_ok _ _ (Bind_grows h p));
  aknet_sock_connect h i p :=
    lift (run_get (Connect h i p) Status_Error) (run_get_ok _ _ (Connect_grows h i p));
  aknet_sock_listen h b :=
    lift (run_get (Listen h b) Status_Error) (run_get_ok _ _ (Listen_grows h b));
  aknet_sock_accept h w :=
    let '(a, w') :=
      lift (run_upd (Accept_Connection h) (Accepted Status_Error 0 0 0))
        (run_open_ok (Accept_Connection h) ac_status ac_handle _ (Accept_outs caps h)) w in
    (AcceptReply (ac_status a) (ac_handle a) (ac_ip a) (ac_port a), w');
  aknet_sock_sendto h d l i p :=
    lift (run_get (Send_To send_fuel h d l i p) Status_Error)
      (run_get_ok _ _ (Send_grows send_fuel h d l i p));
  aknet_sock_recvfrom h m t w :=
    let '(a, w') :=
      lift (run_get (Recv_From (recv_fuel t) h m t) (Taken Status_Error 0 0 [] 0))
        (run_get_ok _ _ (Recv_grows (recv_fuel t) h m t)) w in
    (RecvReply (tk_status a) (tk_data a) (tk_ip a) (tk_port a) (tk_count a), w');
  aknet_sock_poll h w :=
    let '(a, w') :=
      lift (run_get (Poll h) (Status_Error, 0, 0, 0)) (run_get_ok _ _ (Poll_grows h)) w in
    (PollReply a.1.1.1 a.1.1.2 a.1.2 a.2, w');
  aknet_sock_close h := lift (run_upd (Close h) Status_Error) (Close_ok h _);
  aknet_sock_resolve n l :=
    lift (run_get (Resolve_C n l) (Status_Error, 0)) (run_get_ok _ _ (Resolve_C_grows n l));
  aegir_sys_sleep_until d :=
    lift (run_get (fun _ => act (Sleep_Until d)) 1)
      (run_get_ok _ _ (fun c w => act_grows (Sleep_Until d) c w I));
  aegir_rdtime :=
    lift (run_get (fun _ => act Read_Time) 0)
      (run_get_ok _ _ (fun c w => act_grows Read_Time c w I))
|}.

Definition live_of (w : bworld) : gset Z := open_handles (proj1_sig w).1.

(** The package meets the contract the C layer's theorems assume. *)
#[export] Instance ada_bridge_laws : BridgeLaws bworld live_of.
Proof.
  split.
  - done.
  - intros p [cw Hok] st h w' [= E <-]. cbn [proj1_sig] in E.
    apply (run_open_live (Socket p) fst snd (Status_Error, 0) cw (st, h));
      [exact (Socket_outs caps p)|done|done|].
    rewrite <- E. apply surjective_pairing.
  - intros h [cw Hok] r w' [= <- <-]. unfold live_of; cbn.
    apply (run_open_live (Accept_Connection h) ac_status ac_handle
      (Accepted Status_Error 0 0 0) cw); [exact (Accept_outs caps h)|done|done|].
    apply surjective_pairing.
  - intros h [cw Hok]. by apply Close_live.
  - intros h p [cw Hok]. unfold live_of; cbn. by rewrite run_get_live.
  - intros h i p [cw Hok]. unfold live_of; cbn. by rewrite run_get_live.
  - intros h b [cw Hok]. unfold live_of; cbn. by rewrite run_get_live.
  - intros h d l i p [cw Hok]. unfold live_of; cbn. by rewrite run_get_live.
  - intros h m t [cw Hok]. unfold live_of; cbn. by rewrite run_get_live.
  - intros h [cw Hok]. unfold live_of; cbn. by rewrite run_get_live.
  - intros n l [cw Hok]. unfold live_of; cbn. by rewrite run_get_live.
  - intros d [cw Hok]. unfold live_of; cbn. by rewrite run_get_live.
  - intros [cw Hok]. unfold live_of; cbn. by rewrite run_get_live.
Qed.
End instance.
