(* ===== verification/BridgeTime.v ===== *)
(** * The bridge and the clock

    Against a monotone tick counter: the waits of [Send_To] and [Recv_From]
    end within their deadlines, and the bridge meets the clock laws the
    waiting calls of [aegir_gsocket.c] rely on. *)
From S2P Require Import Prelude CInt Bridge Prog Ring RingSafe SockBridge SockBridgeSpec BridgeInst.

Class Clock (M : Type) `{Machine M} (clock : M -> Z) : Prop := {
  c_range w : in_u64 (clock w);
  c_read w : (answer Read_Time w).1 = clock w;
  c_mono X (e : ev X) w : clock w <= clock (answer e w).2;
  c_sleep d w : in_u64 d -> d <= clock (answer (Sleep_Until d) w).2
}.

Section time.
Context {M : Type} `{HM : Machine M} (clock : M -> Z) `{!Clock M clock}.

Lemma exec_mono {A} (p : prog A) w : clock w <= clock (exec p w).2.
Proof.
  revert w. induction p as [a|X e k IH| |]; intros w; cbn; [lia| |lia|lia].
  pose proof (c_mono X e w). destruct (answer e w) as [x w']. cbn in *.
  specialize (IH x w'). lia.
Qed.

(** [ends p w]: the program does not use up its loop bound. *)
Definition ends {A} (p : prog A) (w : M) : Prop := (exec p w).1 <> Looping.

Lemma ends_bind {A B} (p : prog A) (f : A -> prog B) w :
  ends p w -> (forall a w', exec p w = (Returned a, w') -> ends (f a) w') ->
  ends (p ≫= f) w.
Proof.
  unfold ends. rewrite exec_bind. destruct (exec p w) as [[a| |] w'] eqn:E; cbn; [|done..].
  intros _ H. by apply (H a w').
Qed.

(** A program with no bounded loop in it. *)
Fixpoint loop_free {A} (p : prog A) : Prop :=
  match p with
  | Vis _ k => forall x, loop_free (k x)
  | Spin => False
  | _ => True
  end.

Lemma loop_free_ends {A} (p : prog A) w : loop_free p -> ends p w.
Proof.
  unfold ends. revert w. induction p as [a|X e k IH| |]; intros w H; cbn; try done.
  destruct (answer e w) as [x w']. apply IH, H.
Qed.

Lemma loop_free_bind {A B} (p : prog A) (f : A -> prog B) :
  loop_free p -> (forall a, loop_free (f a)) -> loop_free (p ≫= f).
Proof.
  intros Hp Hf. induction p as [a|X e k IH| |]; cbn in *; [apply Hf| |done|done].
  intros x. apply IH, Hp.
Qed.

Lemma loop_free_act {A X} (e : ev X) (k : X -> prog A) :
  (forall x, loop_free (k x)) -> loop_free (act e ≫= k).
Proof. done. Qed.

Lemma loop_free_collect {A} n i (body : Z -> prog A) :
  (forall x, loop_free (body x)) -> loop_free (collectP n i body).
Proof.
  intros H. revert i. induction n as [|n IH]; intros i; [done|]. cbn [collectP].
  apply loop_free_bind; [apply H|]. intros a. apply loop_free_bind; [apply IH|done].
Qed.

(** A loop each of whose rounds ends, and that comes closer to a deadline by
    a slice whenever it goes round again. *)
Lemma iter_ends {X A} (body : X -> prog (X + A)) (deadline : Z) n x w :
  (forall x w, ends (body x) w) ->
  (forall x w x' w', exec (body x) w = (Returned (inl x'), w') ->
     clock w < deadline /\ Z.min deadline (clock w + Wait_Slice) <= clock w') ->
  deadline - clock w <= Z.of_nat n * Wait_Slice ->
  ends (iterP (S n) body x) w.
Proof.
  intros Hb Hr. revert x w. induction n as [|n IH]; intros x w Hd;
    (apply ends_bind; [apply Hb|]); intros [x'|a] w' E; try done;
    destruct (Hr _ _ _ _ E) as [H1 H2].
  - lia.
  - apply IH. unfold Wait_Slice in *. lia.
Qed.

Lemma loop_free_Mem_get slot i : loop_free (Mem_get slot i).
Proof. unfold Mem_get. by destruct (_ <? _). Qed.

Lemma loop_free_take_slot base tail max : loop_free (take_slot base tail max).
Proof.
  unfold take_slot. do 4 (apply loop_free_bind; [apply loop_free_Mem_get|intros ?]).
  apply loop_free_bind.
  { apply loop_free_collect. intros x.
    do 2 (apply loop_free_bind; [apply loop_free_Mem_get|intros ?]). done. }
  intros bs. apply loop_free_bind; [|done].
  apply loop_free_collect. intros x. apply loop_free_Mem_get.
Qed.

(** A time read, and a sleep that was asked for. *)
Lemma exec_read {A} (k : Z -> prog A) w :
  exists w', exec (act Read_Time ≫= k) w = exec (k (clock w)) w' /\ clock w <= clock w'.
Proof.
  rewrite exec_bind, exec_act. pose proof (c_read w) as Hr. pose proof (c_mono _ Read_Time w) as Hm.
  destruct (answer Read_Time w) as [x w']. cbn in *. subst x. by exists w'.
Qed.

Lemma exec_load {A} (va : Z) (k : Z -> prog A) w :
  exists v w', exec (act (Ld64 va) ≫= k) w = exec (k v) w' /\ clock w <= clock w'.
Proof.
  rewrite exec_bind, exec_act. pose proof (c_mono _ (Ld64 va) w) as Hm.
  destruct (answer (Ld64 va) w) as [x w']. cbn in *. by exists x, w'.
Qed.

Lemma send_wait_round base deadline u w u' w' :
  deadline + Wait_Slice <= 2 ^ 64 ->
  exec (send_wait base deadline u) w = (Returned (inl u'), w') ->
  clock w < deadline /\ Z.min deadline (clock w + Wait_Slice) <= clock w'.
Proof.
  intros Hd. unfold send_wait.
  destruct (exec_load base (fun head => tail ← act (Ld64 (base + 8));
    if u64 (head - tail) <? Slots then mret (inr (inl head))
    else now ← act Read_Time;
         if deadline <=? now then mret (inr (inr Status_Not_Ready))
         else now' ← act Read_Time; r ← act (Sleep_Until (u64 (now' + Wait_Slice)));
              if r =? 0 then mret (inl tt) else mret (inr (inr Status_Error))) w)
    as (head & w1 & -> & H1).
  match goal with |- exec (act ?e ≫= ?k) w1 = _ -> _ =>
    destruct (exec_load (base + 8) k w1) as (tail & w2 & -> & H2) end.
  destruct (_ <? Slots); [done|].
  match goal with |- exec (act ?e ≫= ?k) w2 = _ -> _ =>
    destruct (exec_read k w2) as (w3 & -> & H3) end.
  destruct (deadline <=? clock w2) eqn:E; [done|]. bool_to_prop.
  match goal with |- exec (act ?e ≫= ?k) w3 = _ -> _ =>
    destruct (exec_read k w3) as (w4 & -> & H4) end.
  rewrite exec_bind, exec_act.
  pose proof (c_sleep (u64 (clock w3 + Wait_Slice)) w4 (u64_range _)) as Hs.
  pose proof (c_mono _ (Sleep_Until (u64 (clock w3 + Wait_Slice))) w4) as Hm.
  destruct (answer _ w4) as [r w5]. cbn in Hs, Hm.
  destruct (r =? 0); [|done]. intros [= _ <-]. split; [lia|].
  pose proof (c_range w3) as Hr. unfold in_u64, u64, Wait_Slice in *. zlia.
Qed.

Lemma recv_round_round base max timeout deadline u w u' w' :
  in_u64 deadline -> deadline + Wait_Slice <= 2 ^ 64 ->
  exec (recv_round base max timeout deadline u) w = (Returned (inl u'), w') ->
  clock w < deadline /\ Z.min deadline (clock w + Wait_Slice) <= clock w'.
Proof.
  intros Hu Hd. unfold recv_round.
  match goal with |- exec (act ?e ≫= ?k) w = _ -> _ =>
    destruct (exec_load base k w) as (head & w1 & -> & H1) end.
  match goal with |- exec (act ?e ≫= ?k) w1 = _ -> _ =>
    destruct (exec_load (base + 8) k w1) as (tail & w2 & -> & H2) end.
  destruct (negb (tail =? head)).
  - rewrite exec_bind. destruct (exec (act Fence) w2) as [[?| |] w3]; [|done..].
    rewrite exec_bind. by destruct (exec (take_slot _ _ _) w3) as [[?| |] w4].
  - match goal with |- exec (act ?e ≫= ?k) w2 = _ -> _ =>
      destruct (exec_read k w2) as (w3 & -> & H3) end.
    destruct ((timeout =? 0) || (deadline <=? clock w2)) eqn:E; [done|]. bool_to_prop.
    pose proof (c_range w2) as Hr.
    assert (Hrange : in_u64 (Z.min deadline (u64 (clock w2 + Wait_Slice))))
      by (unfold in_u64, u64, Wait_Slice in *; zlia).
    rewrite exec_bind, exec_act.
    pose proof (c_sleep _ w3 Hrange) as Hs.
    pose proof (c_mono _ (Sleep_Until (Z.min deadline (u64 (clock w2 + Wait_Slice)))) w3) as Hm.
    destruct (answer _ w3) as [r w5]. cbn in Hs, Hm.
    destruct (r =? 0); [|done]. intros [= _ <-].
    split; [lia|]. unfold in_u64, u64, Wait_Slice in *. zlia.
Qed.

(** The copy loop ends: the index check stops it at the slot's end. *)
Lemma copy_in_ends slot fuel i last src w :
  0 <= i <= Max_Payload -> Max_Payload - i < Z.of_nat fuel ->
  ends (copy_in fuel slot i last src) w.
Proof.
  revert i w. induction fuel as [|n IH]; intros i w Hi Hf; [lia|]. cbn [copy_in].
  destruct (last <? i); [done|]. unfold Mem_set.
  destruct (12 + i <? Slot_Size) eqn:E; [|done]. bool_to_prop.
  apply ends_bind; [by apply loop_free_ends|]. intros _ w' _.
  apply IH; unfold Slot_Size, Max_Payload in *; lia.
Qed.

Lemma send_wait_ends base deadline u w : ends (send_wait base deadline u) w.
Proof.
  apply loop_free_ends. unfold send_wait. do 2 (apply loop_free_act; intros ?).
  destruct (_ <? _); [done|]. apply loop_free_act; intros now. destruct (_ <=? _); [done|].
  do 2 (apply loop_free_act; intros ?). by destruct (_ =? _).
Qed.

Lemma recv_round_ends base max timeout deadline u w :
  ends (recv_round base max timeout deadline u) w.
Proof.
  apply loop_free_ends. unfold recv_round. do 2 (apply loop_free_act; intros ?).
  destruct (negb _); apply loop_free_act; intros ?.
  - apply loop_free_bind; [apply loop_free_take_slot|done].
  - destruct (_ || _); [done|]. apply loop_free_act; intros r. by destruct (r =? 0).
Qed.

Lemma send_ring_ends handle va src len ip port w :
  clock w + 101 * Wait_Slice <= 2 ^ 64 ->
  ends (send_ring send_fuel handle va src len ip port) w.
Proof.
  intros Hw. unfold send_ring, ends.
  match goal with |- (exec (act ?e ≫= ?k) w).1 <> _ =>
    destruct (exec_read k w) as (w1 & -> & H1) end.
  pose proof (c_range w) as Hr.
  rewrite (u64_id (clock w + Wait_Slice * 100)) by (unfold in_u64, Wait_Slice in *; lia).
  apply ends_bind.
  - apply (iter_ends _ (clock w + Wait_Slice * 100)).
    + intros x w'. apply send_wait_ends.
    + intros x w2 x' w2'. apply send_wait_round. unfold Wait_Slice in *. lia.
    + unfold Wait_Slice in *. lia.
  - intros [head|st] w2 _; [|done].
    apply ends_bind; [|intros _ w3 _].
    { destruct (slot_header_returns (slot_at (va + Page_Size) head) len ip port w2)
        as [w3 E]. unfold ends. by rewrite E. }
    apply ends_bind; [|intros _ w4 _].
    { apply copy_in_ends; unfold slot_fuel, Slot_Size, Max_Payload; lia. }
    apply loop_free_ends. intros [] [] r. cbn. by destruct (r.1 =? 0).
Qed.

Lemma recv_ring_ends va max timeout w :
  0 <= timeout -> clock w + timeout + Wait_Slice <= 2 ^ 64 ->
  ends (recv_ring (recv_fuel timeout) va max timeout) w.
Proof.
  intros Ht Hw. unfold recv_ring, ends.
  match goal with |- (exec (act ?e ≫= ?k) w).1 <> _ =>
    destruct (exec_read k w) as (w1 & -> & H1) end.
  pose proof (c_range w) as Hr.
  rewrite u64_id by (unfold in_u64, Wait_Slice in *; lia).
  unfold recv_fuel. replace (Z.to_nat (timeout / Wait_Slice + 2))
    with (S (Z.to_nat (timeout / Wait_Slice + 1))) by (unfold Wait_Slice; zlia).
  apply (iter_ends _ (clock w + timeout)).
  - intros x w'. apply recv_round_ends.
  - intros x w2 x' w2'. apply recv_round_round; unfold in_u64, Wait_Slice in *; lia.
  - unfold Wait_Slice. zlia.
Qed.
End time.

