(* ===== verification/BridgeApi.v ===== *)
(** * The C socket layer down to the kernel's capabilities

    A concrete kernel for witnesses, the clock laws of the bridge, and the
    theorems on the composition: whatever sequence of C calls a program
    makes, the capabilities the process holds for sockets are exactly three
    per open descriptor. *)
From S2P Require Import Prelude CInt Bridge FdTable TableInv Api Prog Ring SockBridge SockBridgeSpec BridgeInst BridgeTime.

(** ** A kernel to run on

    Capabilities are numbers above every one in use; memory is a function of
    the address; calls on an endpoint answer from a list (the last answer
    repeats); [kn_maps] is what [Mem_Map] answers; [kn_failed] tells whether a
    call has failed. *)
Record kern := Kern {
  kn_caps : gset Z; kn_clock : Z; kn_mem : Z -> Z; kn_replies : list (Z * msg);
  kn_maps : Z; kn_failed : bool }.

Definition kern_fresh (w : kern) : Z := 1 + set_fold Z.max 0 (kn_caps w).

Definition kern_with (k : gset Z) (w : kern) : kern :=
  Kern k (kn_clock w) (kn_mem w) (kn_replies w) (kn_maps w) (kn_failed w).

(** Note a failure. *)
Definition kern_note (b : bool) (w : kern) : kern :=
  Kern (kn_caps w) (kn_clock w) (kn_mem w) (kn_replies w) (kn_maps w) (kn_failed w || b).

Definition kern_create (w : kern) : Z * kern :=
  let h := kern_fresh w in
  if h =? Syscall_Failed then (Syscall_Failed, kern_note true w)
  else (h, kern_with ({[h]} ∪ kn_caps w) w).

Definition kern_clock (w : kern) : Z := Z.max 0 (Z.min (2 ^ 64 - 1) (kn_clock w)).

Definition kern_at (t : Z) (w : kern) : kern :=
  Kern (kn_caps w) t (kn_mem w) (kn_replies w) (kn_maps w) (kn_failed w).

Definition kern_store (m : Z -> Z) (w : kern) : kern :=
  Kern (kn_caps w) (kn_clock w) m (kn_replies w) (kn_maps w) (kn_failed w).

#[export] Instance kern_machine : Machine kern := fun X e =>
  match e in ev X return kern -> X * kern with
  | Ld8 va => fun w => (kn_mem w va, w)
  | St8 va v => fun w => (tt, kern_store (st8 (kn_mem w) va v) w)
  | Ld64 va => fun w => (ld64 (kn_mem w) va, w)
  | St64 va v => fun w => (tt, kern_store (st64 (kn_mem w) va v) w)
  | Fence => fun w => (tt, w)
  | Read_Time => fun w => (kern_clock w, kern_at (kn_clock w + 1) w)
  | Sleep_Until d => fun w => (0, kern_at (Z.max (kn_clock w) d) w)
  | Mem_Alloc _ => kern_create
  | Ntfn_Create => kern_create
  | Ntfn_Signal _ _ => fun w => (0, w)
  | Mem_Map _ _ _ _ _ => fun w => (kn_maps w, kern_note (negb (kn_maps w =? 0)) w)
  | Mem_Unmap _ _ => fun w => (0, w)
  | Cap_Mint _ _ _ => kern_create
  | Cap_Delete c => fun w =>
      if decide (c ∈ kn_caps w) then (0, kern_with (kn_caps w ∖ {[c]}) w) else (Syscall_Failed, w)
  | IPC_Call _ _ => fun w =>
      let '(r, l) := next_of (1, Msg 0 [] []) (kn_replies w) in
      (r, Kern (kn_caps w) (kn_clock w) (kn_mem w) l (kn_maps w)
            (kn_failed w || (2 ^ 32 <=? word r.2 1) || (2 ^ 32 <=? word r.2 2)))
  | Tab_Append => fun w => (true, w)
  | IPC_Reply _ _ => fun w => (0, w)
  | Glue _ => fun w => ((0, (0, 0)), w)
  | Next_Callback _ => fun w => (None, w)
  end.

Lemma kern_creates w : creates kn_caps w (kern_create w).
Proof.
  unfold creates, kern_create. destruct (kern_fresh w =? Syscall_Failed) eqn:E; cbn.
  - done.
  - rewrite E. split; [|done]. unfold kern_fresh. intros H%max_fold_ub. lia.
Qed.

#[export] Instance kern_kernel : Kernel kern kn_caps.
Proof.
  split; try (intros; apply kern_creates).
  - intros c w Hc. cbn. by rewrite decide_True.
  - intros c w Hc. cbn. by rewrite decide_False.
  - intros X e w He. destruct e; try done. cbn. by destruct (next_of _ _).
Qed.

#[export] Program Instance kern_faults : Faults kern := {| failed := kn_failed |}.
Next Obligation.
  intros X e w.
  assert (kn_failed (kern_create w).2 = true <-> kn_failed w = true \/ (kern_create w).1 = Syscall_Failed) as Hc.
  { unfold kern_create. destruct (Z.eqb_spec (kern_fresh w) Syscall_Failed); cbn [fst snd kern_note kern_with kn_failed]; [|tauto].
    rewrite orb_true_r. tauto. }
  destruct e; cbn [answer kern_machine fails fst snd kern_store kern_at kn_failed]; try exact Hc; try tauto.
  - cbn. rewrite orb_true_iff, negb_true_iff, Z.eqb_neq. done.
  - destruct (decide _); cbn [fst snd kern_with kn_failed]; tauto.
  - destruct (next_of _ _) as [r l]. cbn [fst snd kn_failed]. rewrite !orb_true_iff, !Z.leb_le. tauto.
Qed.

#[export] Instance kern_time : Clock kern kern_clock.
Proof.
  split.
  - intros w. unfold kern_clock. int_lia.
  - done.
  - intros X e w. unfold kern_clock. destruct e; cbn; try lia;
      try (unfold kern_create; destruct (_ =? _); cbn; lia).
    + destruct (decide _); cbn; lia.
    + destruct (next_of _ _); cbn; lia.
  - intros d w Hd. unfold kern_clock. cbn. int_lia.
Qed.

(** ** The clock laws of the bridge *)

Section clock.
Context {M : Type} `{HM : Machine M} (caps : M -> gset Z) `{!Kernel M caps} `{!Faults M}.
Context (clock : M -> Z) `{!Clock M clock} (base : gset Z).

Lemma run_get_clock {A} (p : client -> prog A) d cw :
  clock cw.2 <= clock (run_get p d cw).2.2.
Proof.
  unfold run_get. pose proof (exec_mono clock (p cw.1) cw.2).
  by destruct (exec _ _) as [[] ?].
Qed.

#[export] Instance ada_clock_laws :
  ClockLaws (bworld caps base) (fun w => clock (proj1_sig w).2).
Proof.
  split.
  - intros w. apply c_range.
  - intros [[c w] Hok]. cbn. unfold run_get; cbn. pose proof (c_read w) as Hr.
    by destruct (answer Read_Time w).
  - intros [cw Hok]. apply run_get_clock.
  - intros h [cw Hok]. apply run_get_clock.
  - intros d [[c w] Hok] Hd. cbn. unfold run_get; cbn.
    pose proof (c_sleep d w Hd) as Hs. pose proof (c_mono _ (Sleep_Until d) w) as Hm.
    destruct (answer (Sleep_Until d) w). cbn in *. lia.
Qed.
End clock.

(** ** Waits end *)

(** C29. A send gives up after half a second and a receive after its timeout,
    whatever the peer does: over any machine whose clock does not run
    backwards and whose sleeps reach their deadline, [Send_To] needs at most
    102 rounds of its wait loop and [Recv_From] one per 5 ms of its timeout
    and two more. *)
Theorem bridge_waits_end {M} `{Machine M} (clock : M -> Z) `{!Clock M clock}
    c handle src len ip port max timeout w :
  0 <= timeout -> clock w + Z.max timeout (100 * Wait_Slice) + Wait_Slice <= 2 ^ 64 ->
  (exec (Send_To send_fuel handle src len ip port c) w).1 <> Looping /\
  (exec (Recv_From (recv_fuel timeout) handle max timeout c) w).1 <> Looping.
Proof.
  intros Ht Hw. unfold Wait_Slice in *. split.
  - unfold Send_To. destruct (_ || _); [done|]. apply (send_ring_ends clock).
    unfold Wait_Slice. lia.
  - unfold Recv_From. destruct (_ =? _)%nat; [done|]. apply (recv_ring_ends clock); [done|].
    unfold Wait_Slice. lia.
Qed.

Definition demo_kern : kern := Kern {[6]} 0 (fun _ => 0) [(0, Msg 0 [0; 1] [])] 0 false.
Definition demo_client : client := Client [ClientSock true 7 8 9 Ring_VA_Base] 6.

Lemma bridge_waits_end_witness :
  (exec (Send_To send_fuel 7 [1; 2] 2 0 0 demo_client) demo_kern).1 <> Looping /\
  (exec (Recv_From (recv_fuel 200000) 7 1500 200000 demo_client) demo_kern).1 <> Looping.
Proof.
  refine (bridge_waits_end kern_clock demo_client 7 [1; 2] 2 0 0 1500 200000 demo_kern _ _);
    vm_compute; discriminate.
Defined.

(** ** Three capabilities per open descriptor *)

Definition open_fds (t : list ak_sock) : list ak_sock := filter is_open t.

Lemma held_length c : length (all_held c) = (3 * length (gather handle_of c))%nat.
Proof.
  unfold all_held, gather. induction (Socks c) as [|s l IH]; [done|].
  rewrite !fmap_cons. cbn [concat]. rewrite !length_app, IH.
  unfold held, handle_of. destruct (Used s); cbn [length]; lia.
Qed.

Lemma handles_nodup c : NoDup (all_held c) -> NoDup (gather handle_of c).
Proof.
  intros Hn. refine (sublist_NoDup _ _ Hn _). unfold all_held, gather. clear Hn.
  induction (Socks c) as [|s l IH]; [done|]. rewrite !fmap_cons. cbn [concat].
  apply sublist_app; [|done]. unfold held, handle_of. destruct (Used s); [|done].
  apply sublist_skip, sublist_nil_l.
Qed.

Lemma open_fds_nodup t :
  (forall i j e e', t !! i = Some e -> t !! j = Some e' -> is_open e -> is_open e' ->
     handle e = handle e' -> i = j) ->
  NoDup (handle <$> open_fds t).
Proof.
  unfold open_fds. induction t as [|e t IH]; intros Hi; [constructor|].
  assert (Ht : NoDup (handle <$> filter is_open t)).
  { apply IH. intros i j e1 e2 H1 H2 O1 O2 Hh.
    assert (S i = S j); [by eapply (Hi (S i) (S j))|lia]. }
  rewrite filter_cons. destruct (decide (is_open e)) as [Ho|]; [|done].
  rewrite fmap_cons. apply NoDup_cons. split; [|done].
  intros (e' & He & [Ho' Hin]%list_elem_of_filter)%list_elem_of_fmap.
  apply list_elem_of_lookup in Hin as [j Hj].
  assert (0%nat = S j); [by eapply (Hi 0%nat (S j))|lia].
Qed.

Lemma open_fds_handles t L : acct t L -> list_to_set (handle <$> open_fds t) = L.
Proof.
  intros [Hs Hc Hi]. apply set_eq. intros h.
  rewrite elem_of_list_to_set, list_elem_of_fmap. unfold open_fds. split.
  - intros (e & -> & [Ho Hin]%list_elem_of_filter).
    apply list_elem_of_lookup in Hin as [i Hi']. by eapply Hs.
  - intros (i & e & He & Ho & <-)%Hc. exists e. split; [done|].
    apply list_elem_of_filter. split; [done|]. by eapply list_elem_of_lookup_2.
Qed.

Section accounting.
Context {M : Type} `{HM : Machine M} (caps : M -> gset Z) `{!Kernel M caps} `{!Faults M}.
Context (base : gset Z) `{!Libc (bworld caps base)}.
Hypothesis malloc_keeps : forall n w, live_of caps base (malloc_ok n w).2 = live_of caps base w.
Hypothesis read_keeps : forall n m w, live_of caps base (read_file n m w).2 = live_of caps base w.

(** C10. The C socket layer on top of the Ada bridge loses no kernel
    capability.  After any sequence of socket calls, the handles of the
    table's open sockets are exactly the bridge's open sockets; the bridge
    owns three distinct capabilities for each of them, all alive in the
    kernel; and if in this run no call that creates a capability or changes a
    mapping has failed and no answer of netserv was out of range, the process
    has exactly those capabilities and the ones it started with. *)
Theorem kernel_caps_accounted w0 s :
  live_of caps base w0 = ∅ -> reachable w0 s ->
  let c := (proj1_sig (world s)).1 in
  let m := (proj1_sig (world s)).2 in
  list_to_set (handle <$> open_fds (ak_fds s)) = open_handles c /\
  length (all_held c) = (3 * length (open_fds (ak_fds s)))%nat /\
  NoDup (all_held c) /\
  list_to_set (all_held c) ⊆ caps m /\
  (failed m = false -> caps m = base ∪ list_to_set (all_held c)).
Proof.
  intros H0 Hr. cbv zeta.
  assert (Hinv : table_inv (live_of caps base) s).
  { pose proof (init_inv (live_of caps base) malloc_keeps read_keeps w0 H0) as Hi. unfold reachable in Hr.
    revert Hi. induction Hr as [|s1 s2 s3 H12 _ IH]; [done|]. intros Hi. apply IH.
    destruct H12 as [fuel c Hok Hrun].
    pose proof (run_call_inv _ malloc_keeps read_keeps fuel c s1 Hi Hok) as Hw.
    unfold wlp in Hw. by rewrite Hrun in Hw. }
  destruct Hinv as [Hwf Ha]. pose proof (open_fds_handles _ _ Ha) as Hh.
  destruct (world s) as [[c m] Hok] eqn:Ew. cbn [proj1_sig fst snd].
  unfold live_of in Hh. cbn in Hh. pose proof Hok as ([Hnd Hsub] & _ & _ & Hx).
  cbn [fst snd] in *. split_and!; [done| |done|done|done].
  rewrite held_length. f_equal.
  rewrite <- (length_fmap handle (open_fds _)).
  rewrite <- (size_list_to_set (C := gset Z) (handle <$> _)) by (apply open_fds_nodup, Ha).
  rewrite Hh. unfold open_handles. by rewrite size_list_to_set by by apply handles_nodup.
Qed.
End accounting.

(** A process that starts with its network capability (handle 6), opens a
    stream socket, then a datagram socket, and closes the first. *)
Definition start_kern : kern :=
  Kern {[6]} 0 (fun _ => 0) [(0, Msg 0 [0; 1] []); (0, Msg 0 [0; 2] []); (0, Msg 0 [0] [])] 0 false.

Lemma start_ok : ok_world kn_caps {[6]} (Client [] 0, start_kern).
Proof.
  split_and!; cbn.
  - split; cbn; [constructor|set_solver].
  - set_solver.
  - done.
  - set_solver.
Qed.

Definition start_world : bworld kn_caps {[6]} := exist _ _ start_ok.

#[local] Instance start_libc : Libc (bworld kn_caps {[6]}) := {|
  malloc_ok _ w := (true, w);
  read_file _ _ w := (None, w)
|}.

Definition outcome_done {S A} (o : outcome S A) : bool :=
  match o with Done _ _ => true | Blocked _ => false end.

Definition after (c : gcall) (s : gs (bworld kn_caps {[6]})) : gs (bworld kn_caps {[6]}) :=
  out_state (run_call 1 c s).

Definition demo_run : gs (bworld kn_caps {[6]}) :=
  after (C_close 3)
    (after (C_socket AK_AF_INET AK_SOCK_DGRAM 0)
       (after (C_socket AK_AF_INET AK_SOCK_STREAM 0) (gs_init start_world))).

Lemma after_step c s :
  call_allowed c s -> outcome_done (run_call 1 c s) = true -> step s (after c s).
Proof.
  intros Hc Hd. apply (step_return _ _ 1 c); [done|]. unfold after.
  destruct (run_call 1 c s) as [[] s'|s']; [done|discriminate].
Qed.

Lemma kernel_caps_accounted_witness :
  let c := (proj1_sig (world demo_run)).1 in
  length (all_held c) = 3%nat /\
  (length (all_held c) = (3 * length (open_fds (ak_fds demo_run)))%nat /\
   NoDup (all_held c) /\ kn_caps (proj1_sig (world demo_run)).2 = {[6]} ∪ list_to_set (all_held c)).
Proof.
  assert (Hr : reachable start_world demo_run).
  { eapply rtc_l; [apply (after_step (C_socket AK_AF_INET AK_SOCK_STREAM 0)); [done|vm_compute; reflexivity]|].
    eapply rtc_l; [apply (after_step (C_socket AK_AF_INET AK_SOCK_DGRAM 0)); [done|vm_compute; reflexivity]|].
    apply rtc_once, after_step; [done|vm_compute; reflexivity]. }
  pose proof (kernel_caps_accounted kn_caps {[6]} (fun n w => eq_refl) (fun n m w => eq_refl)
    start_world demo_run eq_refl Hr) as (_ & Hl & Hn & _ & Hk).
  split; [vm_compute; reflexivity|]. split; [exact Hl|]. split; [exact Hn|]. apply Hk. vm_compute. reflexivity.
Defined.

(** ** The exit that does not tear down *)

(** When the ring object and the notification were created but the ring
    cannot be mapped, [Socket] reports an error with no socket opened, and
    the process keeps both capabilities: the exit skips the teardown that
    every later failure runs. *)
Theorem socket_map_failure_leaks {M} `{Machine M} (caps : M -> gset Z) `{!Kernel M caps}
    proto c w i ring w1 ntfn w2 :
  Net_EP c <> 0 -> proto ∈ [IPPROTO_UDP; IPPROTO_ICMP; IPPROTO_TCP] ->
  first_index (fun s => negb (Used s)) (Socks c) = S i ->
  answer (Mem_Alloc Ring_Pages) w = (ring, w1) -> ring <> Syscall_Failed ->
  answer Ntfn_Create w1 = (ntfn, w2) -> ntfn <> Syscall_Failed ->
  (answer (Mem_Map ring (Ring_VA_Base + Z.of_nat i * Ring_VA_Stride) 0 Ring_Bytes 3) w2).1 <> 0 ->
  exists c' w',
    exec (Socket proto c) w = (Returned (Status_Error, 0, c'), w') /\ same_open c c' /\
    ring <> ntfn /\ ring ∉ caps w /\ ntfn ∉ caps w /\ caps w' = {[ring; ntfn]} ∪ caps w.
Proof.
  intros Hep Hpr Ei Ha Hr Hn Hnn Hm. unfold Socket.
  assert (Hg : (Net_EP c =? 0) || negb (proto =? IPPROTO_UDP) && negb (proto =? IPPROTO_ICMP)
    && negb (proto =? IPPROTO_TCP) = false).
  { apply orb_false_intro; [by apply Z.eqb_neq|].
    assert (proto = IPPROTO_UDP \/ proto = IPPROTO_ICMP \/ proto = IPPROTO_TCP)
      as [-> | [-> | ->]] by set_solver; done. }
  rewrite Hg. clear Hg Hpr Hep.
  assert (Hu : unused (S i) c).
  { destruct (first_index_S _ _ _ no_sock Ei) as (Hl & Hf & _); [done|].
    split; [lia|]. unfold sock. by apply negb_true_iff. }
  pose proof (k_alloc Ring_Pages w) as Ka. pose proof (k_ntfn w1) as Kn.
  unfold creates in Ka, Kn. rewrite Ha in Ka. rewrite Hn in Kn. cbn [fst snd] in *.
  rewrite (proj2 (Z.eqb_neq _ _) Hr) in Ka. rewrite (proj2 (Z.eqb_neq _ _) Hnn) in Kn.
  destruct Ka as [Ka1 Ka2], Kn as [Kn1 Kn2].
  unfold free_sock. rewrite Ei, exec_bind. cbn [exec mret prog_ret Nat.eqb].
  rewrite exec_bind. unfold ring_setup. replace (S i - 1)%nat with i by lia.
  rewrite exec_bind, exec_act, Ha, exec_bind, exec_act, Hn.
  rewrite (proj2 (Z.eqb_neq _ _) Hr), (proj2 (Z.eqb_neq _ _) Hnn). cbn [orb].
  rewrite exec_bind, exec_act.
  pose proof (k_neutral _ (Mem_Map ring (Ring_VA_Base + Z.of_nat i * Ring_VA_Stride)
    0 Ring_Bytes 3) w2 I) as Hk.
  destruct (answer _ w2) as [x w3]. cbn [fst snd] in *.
  rewrite (proj2 (Z.eqb_neq _ _) Hm). cbn [negb exec mret prog_ret].
  eexists _, w3. split; [reflexivity|]. split.
  - destruct Hu as [Hi Hu]. by apply (put_unused (S i)).
  - rewrite Ka2 in Kn1. split_and!; [set_solver + Kn1|done|set_solver + Kn1|].
    rewrite Hk, Kn2, Ka2. set_solver +.
Qed.

Definition no_map_kern : kern := Kern {[6]} 0 (fun _ => 0) [] 1 false.

Lemma socket_map_failure_leaks_witness :
  exists c' w', exec (Socket IPPROTO_UDP (Client [no_sock] 6)) no_map_kern
    = (Returned (Status_Error, 0, c'), w') /\ kn_caps w' = {[7; 8]} ∪ kn_caps no_map_kern.
Proof.
  destruct (socket_map_failure_leaks kn_caps IPPROTO_UDP (Client [no_sock] 6) no_map_kern 0
    7 _ 8 _ ltac:(done) ltac:(by left) eq_refl eq_refl ltac:(done) eq_refl ltac:(done) ltac:(done))
    as (c' & w' & He & _ & _ & _ & _ & Hk).
  exists c', w'. split; [exact He|exact Hk].
Defined.
