(* ===== verification/AdaInet.v ===== *)
(** * Dotted addresses on the Ada side

    [Parse_IP] and [Ip_Image] of [aegir_user-sockets.adb] (netserv has the
    same two): the parser agrees with [ak_parse_dotted] of
    [aegir_gsocket.c] on every text without NUL, tab and space, and reads
    back what [Ip_Image] prints. *)
From S2P Require Import Prelude CInt Bridge FdTable Inet.

(** ** The two functions *)

(** The scan: the four parts, the part being read, whether it has a digit.
    [None] is an early [return False]; the end of the text and a line end
    leave the loop. *)
Fixpoint parse_ip_scan (text : list Z) (parts : list Z) (p : nat) (dig : bool)
    : option (list Z * nat * bool) :=
  match text with
  | [] => Some (parts, p, dig)
  | c :: text' =>
      if c =? 46 then
        if negb dig || (p =? 3)%nat then None
        else parse_ip_scan text' parts (S p) false
      else if is_digit c then
        let v := u32 (parts !!! p * 10 + (c - 48)) in
        if 255 <? v then None else parse_ip_scan text' (<[p := v]> parts) p true
      else if (c =? 10) || (c =? 13) then Some (parts, p, dig)
      else None
  end.

Definition be_value (l : list Z) : Z :=
  u32 (l !!! 0%nat * 2 ^ 24 + l !!! 1%nat * 2 ^ 16 + l !!! 2%nat * 2 ^ 8 + l !!! 3%nat).

Definition Parse_IP (text : list Z) : bool * Z :=
  match parse_ip_scan text [0; 0; 0; 0] 0 false with
  | Some (parts, p, dig) =>
      if negb (p =? 3)%nat || negb dig then (false, 0) else (true, be_value parts)
  | None => (false, 0)
  end.

(** The digits of [Dec], least significant first; ten are enough for 32
    bits. *)
Fixpoint dec_low (fuel : nat) (x : Z) : list Z :=
  match fuel with
  | O => []
  | S n => if x =? 0 then [] else (48 + x mod 10) :: dec_low n (x / 10)
  end.

Definition Dec (v : Z) : list Z := if v =? 0 then [48] else rev (dec_low 10 v).

Definition Ip_Image (ip : Z) : list Z :=
  Dec (ip / 2 ^ 24) ++ [46] ++ Dec ((ip / 2 ^ 16) mod 256) ++ [46]
  ++ Dec ((ip / 2 ^ 8) mod 256) ++ [46] ++ Dec (ip mod 256).

(** ** The parsers agree *)

(** Neither NUL, tab nor space: the characters only the C parser takes for
    the end of the address. *)
Definition plain (c : Z) : Prop := c <> 0 /\ c <> 9 /\ c <> 32.

Lemma insert_mid (dst l : list Z) v v' : <[length dst := v']> (dst ++ v :: l) = dst ++ v' :: l.
Proof. induction dst as [|x dst IH]; cbn; [done|by f_equal]. Qed.

Lemma lookup_mid (dst l : list Z) v : (dst ++ v :: l) !!! length dst = v.
Proof. induction dst; cbn; done. Qed.

(** One simulation: the parts are the bytes stored so far, the value being
    read, and zeros. *)
Lemma scan_sim text : forall dst val k,
  Forall plain text -> (length dst <= 3)%nat -> 0 <= val <= 255 -> 0 <= k ->
  (k = 0 -> val = 0) ->
  match parse_ip_scan text (dst ++ val :: replicate (3 - length dst) 0) (length dst) (0 <? k) with
  | Some (ps, p, dig) =>
      if negb (p =? 3)%nat || negb dig
      then (ak_parse_scan text dst (Z.of_nat (length dst)) val k).2 = 0
      else ak_parse_scan text dst (Z.of_nat (length dst)) val k = (ps, 1)
  | None => (ak_parse_scan text dst (Z.of_nat (length dst)) val k).2 = 0
  end.
Proof.
  induction text as [|c text IH]; intros dst val k Hp Hl Hv Hk Hkv.
  - cbn. destruct (0 <? k) eqn:Ek; cbn [negb]; [|by rewrite orb_true_r].
    rewrite orb_false_r. destruct (length dst =? 3)%nat eqn:E; cbn [negb].
    + apply Nat.eqb_eq in E. rewrite E. cbn. by rewrite u8_id by (unfold in_u8; lia).
    + apply Nat.eqb_neq in E. replace (Z.of_nat (length dst) + 1 =? 4) with false; [done|].
      symmetry. apply Z.eqb_neq. lia.
  - apply Forall_cons in Hp as [(Hc0 & Hc9 & Hc32) Hp]. cbn [parse_ip_scan ak_parse_scan].
    destruct (c =? 46) eqn:E46; bool_to_prop.
    + subst c. change (is_digit 46) with false. change (is_sep 46) with true.
      cbn [andb negb Z.eqb Pos.eqb].
      destruct (0 <? k) eqn:Ek; cbn [negb orb]; [|done].
      destruct (length dst =? 3)%nat eqn:E; bool_to_prop.
      * apply Nat.eqb_eq in E. rewrite E. done.
      * apply Nat.eqb_neq in E.
        replace (Z.of_nat (length dst) + 1 =? 4) with false by (symmetry; apply Z.eqb_neq; lia).
        rewrite u8_id by (unfold in_u8; lia).
        specialize (IH (dst ++ [val]) 0 0 Hp). rewrite length_app in IH. cbn [length] in IH.
        replace (Z.of_nat (length dst + 1)) with (Z.of_nat (length dst) + 1) in IH by lia.
        replace (length dst + 1)%nat with (S (length dst)) in IH by lia.
        rewrite <- app_assoc in IH. cbn [app] in IH.
        replace (3 - length dst)%nat with (S (3 - S (length dst)))%nat by lia.
        apply IH; lia.
    + destruct (is_digit c) eqn:Ed.
      * rewrite lookup_mid, insert_mid. unfold is_digit in Ed. bool_to_prop.
        rewrite u32_id by (unfold in_u32; lia).
        destruct (255 <? val * 10 + (c - 48)) eqn:Ev; bool_to_prop; [done|].
        specialize (IH dst (val * 10 + (c - 48)) (k + 1) Hp).
        replace (0 <? k + 1) with true in IH by (symmetry; apply Z.ltb_lt; lia).
        apply IH; lia.
      * unfold is_sep. rewrite (proj2 (Z.eqb_neq c 46)), (proj2 (Z.eqb_neq c 0)),
          (proj2 (Z.eqb_neq c 32)), (proj2 (Z.eqb_neq c 9)) by done.
        cbn [orb]. rewrite orb_false_r.
        destruct ((c =? 10) || (c =? 13)); [|done]. cbn [andb negb].
        destruct (0 <? k) eqn:Ek; cbn [negb]; [|by rewrite orb_true_r].
        rewrite orb_false_r. destruct (length dst =? 3)%nat eqn:E; cbn [negb].
        -- apply Nat.eqb_eq in E. rewrite E. cbn. by rewrite u8_id by (unfold in_u8; lia).
        -- apply Nat.eqb_neq in E. replace (Z.of_nat (length dst) + 1 =? 4) with false; [done|].
           symmetry. apply Z.eqb_neq. lia.
Qed.

(** ** Printing *)

Lemma Dec_fmt v : in_u8 v -> Dec v = fmt_u v.
Proof.
  assert (H : forallb (fun v => bool_decide (Dec v = fmt_u v)) (seqZ 0 256) = true)
    by (vm_compute; reflexivity).
  intros Hv. rewrite forallb_forall in H. specialize (H v).
  rewrite <- list_elem_of_In, elem_of_seqZ in H. unfold in_u8 in Hv.
  apply bool_decide_eq_true in H; [done|lia].
Qed.

(** The address as four bytes, most significant first. *)
Definition quad (ip : Z) : addr4 :=
  A4 (ip / 2 ^ 24) ((ip / 2 ^ 16) mod 256) ((ip / 2 ^ 8) mod 256) (ip mod 256).

Lemma quad_wf ip : in_u32 ip -> addr4_wf (quad ip).
Proof. intros H. unfold addr4_wf, quad, in_u8, in_u32 in *; cbn. zlia. Qed.

Lemma Ip_Image_fmt ip : in_u32 ip -> Ip_Image ip = fmt_dotted (quad ip).
Proof.
  intros H. destruct (quad_wf ip H) as (H0 & H1 & H2 & H3). cbn in *.
  unfold Ip_Image, fmt_dotted. cbn. by rewrite !Dec_fmt.
Qed.

Lemma quad_value ip : in_u32 ip -> be_value (addr4_bytes (quad ip)) = ip.
Proof. intros H. unfold be_value, u32, in_u32 in *. cbn. zlia. Qed.

Lemma dotted_plain n text vs : dotted n text vs ->
  (forall x, x ∈ text -> is_digit x = true \/ x = 46) -> Forall plain text.
Proof.
  intros _ H. apply Forall_forall. intros x Hx. unfold plain.
  destruct (H x Hx) as [Hd|Hd]; unfold is_digit in *; bool_to_prop; lia.
Qed.

Lemma fmt_u_digits v x : in_u8 v -> x ∈ fmt_u v -> is_digit x = true.
Proof.
  intros Hv Hx. destruct (fmt_u_octet v Hv) as [(_ & Hd & _) _].
  rewrite Forall_forall in Hd. auto.
Qed.

Lemma fmt_dotted_plain a : addr4_wf a -> Forall plain (fmt_dotted a).
Proof.
  intros Ha. destruct (fmt_dotted_spec a Ha) as [Hd _]. eapply dotted_plain; [exact Hd|].
  destruct Ha as (H0 & H1 & H2 & H3). intros x. unfold fmt_dotted.
  rewrite !elem_of_app, !list_elem_of_singleton.
  intros [?|[?|[?|[?|[?|[?|?]]]]]]; eauto using fmt_u_digits.
Qed.

Lemma parse_ip_as_c text :
  Forall plain text ->
  Parse_IP text =
    (if (ak_parse_dotted text).2 =? 1
     then (true, be_value (ak_parse_dotted text).1) else (false, 0)).
Proof.
  intros Hp. pose proof (scan_sim text [] 0 0 Hp) as H. cbn in H.
  specialize (H ltac:(lia) ltac:(lia) ltac:(lia) ltac:(done)).
  change (Z.of_nat 0) with 0 in H. unfold Parse_IP, ak_parse_dotted.
  destruct (parse_ip_scan text [0; 0; 0; 0] 0 false) as [[[ps p] dig]|].
  - destruct (negb (p =? 3)%nat || negb dig); rewrite H; done.
  - by rewrite H.
Qed.

(** The bridge's parser and the C layer's agree: on every text without
    NUL, tab and space [Parse_IP] succeeds exactly when [ak_parse_dotted]
    does, with the address whose bytes that one stored; and both read back
    every 32-bit address from what [Ip_Image] prints. *)
Theorem ip_text_agrees text ip :
  Forall plain text -> in_u32 ip ->
  Parse_IP text =
    (if (ak_parse_dotted text).2 =? 1
     then (true, be_value (ak_parse_dotted text).1) else (false, 0)) /\
  Parse_IP (Ip_Image ip) = (true, ip) /\
  ak_parse_dotted (Ip_Image ip) = (addr4_bytes (quad ip), 1).
Proof.
  intros Hp Hip. split; [by apply parse_ip_as_c|].
  pose proof (quad_wf ip Hip) as Hq. rewrite (Ip_Image_fmt ip Hip).
  destruct (fmt_dotted_spec _ Hq) as [Hd _].
  assert (Hc : ak_parse_dotted (fmt_dotted (quad ip)) = (addr4_bytes (quad ip), 1))
    by (apply (dotted_scan 4 _ _ Hd 0 []); lia).
  split; [|done]. rewrite parse_ip_as_c by by apply fmt_dotted_plain.
  rewrite Hc. cbn [snd fst Z.eqb Pos.eqb]. by rewrite quad_value.
Qed.

Lemma ip_text_agrees_witness :
  Parse_IP [49; 48; 46; 48; 46; 50; 46; 49; 53; 10] = (true, 167772687) /\
  Parse_IP (Ip_Image 3232235775) = (true, 3232235775).
Proof.
  destruct (ip_text_agrees [49; 48; 46; 48; 46; 50; 46; 49; 53; 10] 3232235775) as (H1 & H2 & _).
  - repeat constructor; discriminate.
  - split; [discriminate|reflexivity].
  - split; [|exact H2]. rewrite H1. vm_compute. reflexivity.
Defined.
