(* ===== verification/Engine.v ===== *)
(** * netserv's socket engine

    The socket part of [netserv_engine.adb]: the socket table, the pending-ARP
    and resolver tables, the operations on the service endpoint, the callbacks
    of the lwIP glue and the service loop.  The package variables are the
    record [eng]; a subprogram is a function of it that yields its result and
    the new state, its system calls, ring accesses and glue calls being
    actions of [ev].

    A glue call during which lwIP may call back ([Tcp_Kick],
    [Hairpin_Drain], [Check_Timeouts], [Rx_Frame]) is followed by the
    callbacks, one at a time, as [Next_Callback] names them; the action
    carries the value the previous callback returned.  [Tcp_Connect] and the
    sends are not among them: the glue queues what they send to the server's
    own address ([aknet_output]), and the wire answers later.  Bytes that a
    glue call reads through a pointer are loaded before the call.  Console
    output is not modelled, nor the start-up; the Net: volume is a parameter
    of the dispatcher. *)
From S2P Require Import Prelude CInt Prog Ring SockBridge.

(** ** Constants *)

Definition Op_Ping : Z := 40.
Definition Status_Not_Found : Z := 1.
Definition Ping_No_Reply : Z := 1.
Definition Tick_Hz : Z := 10000000.
Definition Arp_Timeout : Z := 2 * Tick_Hz.
Definition Ping_Timeout : Z := 5 * Tick_Hz.
Definition Tcp_Cx_Timeout : Z := 5 * Tick_Hz.
Definition Drv_Ring_VA : Z := 0x54000000.
Definition Drv_Ring_Bytes : Z := 5 * Page_Size.
Definition Sock_VA_Base : Z := 0x54200000.
Definition Sock_VA_Stride : Z := 0x10000.
Definition Buf_Win_VA : Z := 0x5B000000.
Definition Max_Sock_Ids : Z := (Buf_Win_VA - Sock_VA_Base) / Sock_VA_Stride.
Definition Signal_Rx : Z := 1.
Definition Signal_Tick : Z := 4.
Definition Proto_Icmp : Z := 1.
Definition Proto_Tcp : Z := 6.
Definition Proto_Udp : Z := 17.
Definition Conn_Idle : Z := 0.
Definition Conn_Connecting : Z := 1.
Definition Conn_Up : Z := 2.
Definition Conn_Failed : Z := 3.
Definition Err_Refused : Z := 4.
Definition Err_Cx_Timeout : Z := 5.
Definition Err_Reset : Z := 6.
Definition Ping_Ident : Z := 0x4E41.
Definition Notification_Label : Z := 2 ^ 64 - 1.

(** ** State *)

Record Sock_State := SockState {
  s_used : bool; s_proto : Z; s_bound : bool; s_connected : bool;
  s_local_port : Z; s_peer_ip : Z; s_peer_port : Z; s_error : Z;
  s_ring_cap : Z; s_ntfn_cap : Z; s_pcb : Z;
  s_listening : bool; s_claimed : bool; s_conn_state : Z; s_conn_fail : Z;
  s_conn_deadline : Z; s_reply_stash : Z; s_parent : Z;
  s_pend_eof : bool; s_eof_done : bool }.

(** The record's defaults, and the all-zero element of a fresh chunk. *)
Definition idle_sock : Sock_State :=
  SockState false 0 false false 0 0 0 0 0 0 0 false true 0 0 0 0 0 false false.
Definition zero_state : Sock_State :=
  SockState false 0 false false 0 0 0 0 0 0 0 false false 0 0 0 0 0 false false.

Definition with_error v s := SockState (s_used s) (s_proto s) (s_bound s) (s_connected s)
  (s_local_port s) (s_peer_ip s) (s_peer_port s) v (s_ring_cap s) (s_ntfn_cap s) (s_pcb s)
  (s_listening s) (s_claimed s) (s_conn_state s) (s_conn_fail s) (s_conn_deadline s)
  (s_reply_stash s) (s_parent s) (s_pend_eof s) (s_eof_done s).
Definition with_bound p s := SockState (s_used s) (s_proto s) true (s_connected s)
  p (s_peer_ip s) (s_peer_port s) (s_error s) (s_ring_cap s) (s_ntfn_cap s) (s_pcb s)
  (s_listening s) (s_claimed s) (s_conn_state s) (s_conn_fail s) (s_conn_deadline s)
  (s_reply_stash s) (s_parent s) (s_pend_eof s) (s_eof_done s).
Definition with_peer ip port s := SockState (s_used s) (s_proto s) (s_bound s) (s_connected s)
  (s_local_port s) ip port (s_error s) (s_ring_cap s) (s_ntfn_cap s) (s_pcb s)
  (s_listening s) (s_claimed s) (s_conn_state s) (s_conn_fail s) (s_conn_deadline s)
  (s_reply_stash s) (s_parent s) (s_pend_eof s) (s_eof_done s).
Definition with_connected s := SockState (s_used s) (s_proto s) (s_bound s) true
  (s_local_port s) (s_peer_ip s) (s_peer_port s) (s_error s) (s_ring_cap s) (s_ntfn_cap s) (s_pcb s)
  (s_listening s) (s_claimed s) (s_conn_state s) (s_conn_fail s) (s_conn_deadline s)
  (s_reply_stash s) (s_parent s) (s_pend_eof s) (s_eof_done s).
Definition with_pcb p s := SockState (s_used s) (s_proto s) (s_bound s) (s_connected s)
  (s_local_port s) (s_peer_ip s) (s_peer_port s) (s_error s) (s_ring_cap s) (s_ntfn_cap s) p
  (s_listening s) (s_claimed s) (s_conn_state s) (s_conn_fail s) (s_conn_deadline s)
  (s_reply_stash s) (s_parent s) (s_pend_eof s) (s_eof_done s).
Definition with_listening s := SockState (s_used s) (s_proto s) (s_bound s) (s_connected s)
  (s_local_port s) (s_peer_ip s) (s_peer_port s) (s_error s) (s_ring_cap s) (s_ntfn_cap s) (s_pcb s)
  true (s_claimed s) (s_conn_state s) (s_conn_fail s) (s_conn_deadline s)
  (s_reply_stash s) (s_parent s) (s_pend_eof s) (s_eof_done s).
Definition with_claim ring ntfn s := SockState (s_used s) (s_proto s) (s_bound s) (s_connected s)
  (s_local_port s) (s_peer_ip s) (s_peer_port s) (s_error s) ring ntfn (s_pcb s)
  (s_listening s) true (s_conn_state s) (s_conn_fail s) (s_conn_deadline s)
  (s_reply_stash s) (s_parent s) (s_pend_eof s) (s_eof_done s).
Definition with_conn st s := SockState (s_used s) (s_proto s) (s_bound s) (s_connected s)
  (s_local_port s) (s_peer_ip s) (s_peer_port s) (s_error s) (s_ring_cap s) (s_ntfn_cap s) (s_pcb s)
  (s_listening s) (s_claimed s) st (s_conn_fail s) (s_conn_deadline s)
  (s_reply_stash s) (s_parent s) (s_pend_eof s) (s_eof_done s).
Definition with_conn_fail v s := SockState (s_used s) (s_proto s) (s_bound s) (s_connected s)
  (s_local_port s) (s_peer_ip s) (s_peer_port s) (s_error s) (s_ring_cap s) (s_ntfn_cap s) (s_pcb s)
  (s_listening s) (s_claimed s) (s_conn_state s) v (s_conn_deadline s)
  (s_reply_stash s) (s_parent s) (s_pend_eof s) (s_eof_done s).
Definition with_deadline v s := SockState (s_used s) (s_proto s) (s_bound s) (s_connected s)
  (s_local_port s) (s_peer_ip s) (s_peer_port s) (s_error s) (s_ring_cap s) (s_ntfn_cap s) (s_pcb s)
  (s_listening s) (s_claimed s) (s_conn_state s) (s_conn_fail s) v
  (s_reply_stash s) (s_parent s) (s_pend_eof s) (s_eof_done s).
Definition with_stash v s := SockState (s_used s) (s_proto s) (s_bound s) (s_connected s)
  (s_local_port s) (s_peer_ip s) (s_peer_port s) (s_error s) (s_ring_cap s) (s_ntfn_cap s) (s_pcb s)
  (s_listening s) (s_claimed s) (s_conn_state s) (s_conn_fail s) (s_conn_deadline s)
  v (s_parent s) (s_pend_eof s) (s_eof_done s).
Definition with_parent v s := SockState (s_used s) (s_proto s) (s_bound s) (s_connected s)
  (s_local_port s) (s_peer_ip s) (s_peer_port s) (s_error s) (s_ring_cap s) (s_ntfn_cap s) (s_pcb s)
  (s_listening s) (s_claimed s) (s_conn_state s) (s_conn_fail s) (s_conn_deadline s)
  (s_reply_stash s) v (s_pend_eof s) (s_eof_done s).
Definition with_eof pend fin s := SockState (s_used s) (s_proto s) (s_bound s) (s_connected s)
  (s_local_port s) (s_peer_ip s) (s_peer_port s) (s_error s) (s_ring_cap s) (s_ntfn_cap s) (s_pcb s)
  (s_listening s) (s_claimed s) (s_conn_state s) (s_conn_fail s) (s_conn_deadline s)
  (s_reply_stash s) (s_parent s) pend fin.

Record Pend_Rec := PendRec { p_used : bool; p_sock : Z; p_ip : Z; p_deadline : Z }.
Record Resolve_Rec := ResolveRec { r_used : bool; r_done : bool; r_reply : Z; r_result : Z }.

Record eng := Eng {
  e_socks : list Sock_State;
  e_pend : list Pend_Rec;
  e_resolves : list Resolve_Rec;
  e_next_ephem : Z;
  e_my_ip : Z; e_gateway_ip : Z;
  e_raw_pcb : Z;
  e_reply_h : Z;
  e_ping_pending : bool; e_ping_seq : Z; e_ping_target : Z; e_ping_t0 : Z;
  e_ping_rtt : Z; e_ping_reply : Z; e_ping_limit : Z;
  e_dhcp_on : bool; e_dhcp_was_bound : bool;
  e_ring_slots : Z }.

Definition set_socks v e := Eng v (e_pend e) (e_resolves e) (e_next_ephem e) (e_my_ip e) (e_gateway_ip e)
  (e_raw_pcb e) (e_reply_h e) (e_ping_pending e) (e_ping_seq e) (e_ping_target e) (e_ping_t0 e)
  (e_ping_rtt e) (e_ping_reply e) (e_ping_limit e) (e_dhcp_on e) (e_dhcp_was_bound e)
  (e_ring_slots e).
Definition set_pend v e := Eng (e_socks e) v (e_resolves e) (e_next_ephem e) (e_my_ip e) (e_gateway_ip e)
  (e_raw_pcb e) (e_reply_h e) (e_ping_pending e) (e_ping_seq e) (e_ping_target e) (e_ping_t0 e)
  (e_ping_rtt e) (e_ping_reply e) (e_ping_limit e) (e_dhcp_on e) (e_dhcp_was_bound e)
  (e_ring_slots e).
Definition set_resolves v e := Eng (e_socks e) (e_pend e) v (e_next_ephem e) (e_my_ip e) (e_gateway_ip e)
  (e_raw_pcb e) (e_reply_h e) (e_ping_pending e) (e_ping_seq e) (e_ping_target e) (e_ping_t0 e)
  (e_ping_rtt e) (e_ping_reply e) (e_ping_limit e) (e_dhcp_on e) (e_dhcp_was_bound e)
  (e_ring_slots e).
Definition set_ephem v e := Eng (e_socks e) (e_pend e) (e_resolves e) v (e_my_ip e) (e_gateway_ip e)
  (e_raw_pcb e) (e_reply_h e) (e_ping_pending e) (e_ping_seq e) (e_ping_target e) (e_ping_t0 e)
  (e_ping_rtt e) (e_ping_reply e) (e_ping_limit e) (e_dhcp_on e) (e_dhcp_was_bound e)
  (e_ring_slots e).
Definition set_reply_h v e := Eng (e_socks e) (e_pend e) (e_resolves e) (e_next_ephem e) (e_my_ip e) (e_gateway_ip e)
  (e_raw_pcb e) v (e_ping_pending e) (e_ping_seq e) (e_ping_target e) (e_ping_t0 e)
  (e_ping_rtt e) (e_ping_reply e) (e_ping_limit e) (e_dhcp_on e) (e_dhcp_was_bound e)
  (e_ring_slots e).
Definition set_ping pending seq target t0 rtt reply limit e :=
  Eng (e_socks e) (e_pend e) (e_resolves e) (e_next_ephem e) (e_my_ip e) (e_gateway_ip e)
  (e_raw_pcb e) (e_reply_h e) pending seq target t0 rtt reply limit (e_dhcp_on e) (e_dhcp_was_bound e)
  (e_ring_slots e).
Definition set_lease bound ip gw e :=
  Eng (e_socks e) (e_pend e) (e_resolves e) (e_next_ephem e) ip gw
  (e_raw_pcb e) (e_reply_h e) (e_ping_pending e) (e_ping_seq e) (e_ping_target e) (e_ping_t0 e)
  (e_ping_rtt e) (e_ping_reply e) (e_ping_limit e) (e_dhcp_on e) bound
  (e_ring_slots e).

(** ** The state monad over programs *)

Definition EM (A : Type) : Type := eng -> prog (A * eng).

#[export] Instance em_ret : MRet EM := fun A a e => mret (a, e).
#[export] Instance em_bind : MBind EM := fun A B f c e => c e ≫= fun r => f r.1 r.2.

Definition io {X} (v : ev X) : EM X := fun e => x ← act v; mret (x, e).
Definition run {A} (p : prog A) : EM A := fun e => a ← p; mret (a, e).
Definition gets {A} (f : eng -> A) : EM A := fun e => mret (f e, e).
Definition modify (f : eng -> eng) : EM unit := fun e => mret (tt, f e).
Definition raise {A} : EM A := fun _ => Raise.
Definition glue_call (g : glue_op) : EM Z := r ← io (Glue g); mret r.1.

(** [Socks (I)], [I] from 1. *)
Definition sk (e : eng) (i : nat) : Sock_State := nth (i - 1) (e_socks e) zero_state.
Definition get_sk (i : nat) : EM Sock_State := gets (fun e => sk e i).
Definition upd_sk (i : nat) (f : Sock_State -> Sock_State) : EM unit :=
  modify (fun e => set_socks (alter f (i - 1)%nat (e_socks e)) e).

(** [for I in 1 .. Last loop ... end loop], the bound taken before. *)
Fixpoint for_each (n i : nat) (body : nat -> EM unit) : EM unit :=
  match n with
  | O => mret tt
  | S n' => body i ≫= fun _ => for_each n' (S i) body
  end.

Definition Sock_VA (id : nat) : Z := Sock_VA_Base + Z.of_nat (id - 1) * Sock_VA_Stride.

(** A loop whose body decides whether to go round again. *)
Fixpoint iterE (fuel : nat) (body : EM bool) : EM unit :=
  match fuel with
  | O => fun _ => Spin
  | S n => again ← body; if again : bool then iterE n body else mret tt
  end.

(** ** Helpers *)

Definition Reply_To (cap status a1 : Z) : EM unit :=
  _ ← io (IPC_Reply cap (Msg 0 [status; a1] [])); mret tt.

Definition Reply (status a1 : Z) : EM unit :=
  h ← gets e_reply_h; Reply_To h status a1.

Definition Reply4 (status a1 a2 a3 : Z) : EM unit :=
  h ← gets e_reply_h; _ ← io (IPC_Reply h (Msg 0 [status; a1; a2; a3] [])); mret tt.

Definition Cap_Delete' (c : Z) : EM unit := _ ← io (Cap_Delete c); mret tt.

Definition Alloc_Sock : EM nat :=
  e ← gets id;
  match first_index (fun s => negb (s_used s)) (e_socks e) with
  | O =>
      if Max_Sock_Ids <=? Z.of_nat (length (e_socks e)) then mret 0%nat
      else
        ok ← io Tab_Append;
        if ok : bool
        then _ ← modify (set_socks (e_socks e ++ [zero_state])); mret (S (length (e_socks e)))
        else mret 0%nat
  | i => mret i
  end.

Definition Flag_Error (id : nat) (code : Z) : EM unit :=
  _ ← upd_sk id (with_error code);
  s ← get_sk id;
  _ ← io (Ntfn_Signal (s_ntfn_cap s) 2); mret tt.

(** Ones-complement checksum of the big-endian words of [b]. *)
Fixpoint sum_words (b : list Z) : Z :=
  match b with
  | x :: y :: b' => x * 256 + y + sum_words b'
  | [x] => x * 256
  | [] => 0
  end.

Fixpoint fold_carry (fuel : nat) (sum : Z) : Z :=
  match fuel with
  | O => sum
  | S n => if 65535 <? sum then fold_carry n (Z.land sum 65535 + sum / 65536) else sum
  end.

Definition Checksum (b : list Z) : Z :=
  Z.land (u32 (- (fold_carry 4 (u32 (sum_words b))) - 1)) 65535.

Definition Find_Udp_Rx (dst_port src_ip src_port : Z) (e : eng) : nat :=
  first_index (fun s =>
    s_used s && (s_proto s =? Proto_Udp) && s_bound s && (s_local_port s =? dst_port)
    && (negb (s_connected s)
        || (s_peer_ip s =? src_ip) && (s_peer_port s =? src_port))) (e_socks e).

(** Whether [id] is in [1 .. Last]. *)
Definition id_ok (id : Z) (e : eng) : bool :=
  (1 <=? id) && (id <=? Z.of_nat (length (e_socks e))).

(** ** Pending ARP resolves *)

Definition Track_Pending (id : nat) (ip : Z) : EM unit :=
  e ← gets (fun e => e);
  t ← io Read_Time;
  let rec_ := PendRec true (Z.of_nat id) ip (u64 (t + Arp_Timeout)) in
  match first_index (fun p => p_used p && (p_sock p =? Z.of_nat id) && (p_ip p =? ip)) (e_pend e) with
  | O =>
      match first_index (fun p => negb (p_used p)) (e_pend e) with
      | O =>
          ok ← io Tab_Append;
          if ok : bool then modify (set_pend (e_pend e ++ [rec_])) else mret tt
      | i => modify (set_pend (<[(i - 1)%nat := rec_]> (e_pend e)))
      end
  | i => modify (set_pend (<[(i - 1)%nat := rec_]> (e_pend e)))
  end.

Definition drop_pend (i : nat) : EM unit :=
  modify (fun e => set_pend (alter (fun p => PendRec false (p_sock p) (p_ip p) (p_deadline p))
                               (i - 1)%nat (e_pend e)) e).

Definition Check_Pending : EM unit :=
  n ← gets (fun e => length (e_pend e));
  for_each n 1 (fun i =>
    p ← gets (fun e => nth (i - 1) (e_pend e) (PendRec false 0 0 0));
    if p_used p then
      r ← glue_call (Arp_Resolved (p_ip p));
      if negb (r =? 0) then drop_pend i
      else
        t ← io Read_Time;
        if p_deadline p <? t then
          _ ← drop_pend i;
          e ← gets (fun e => e);
          if id_ok (p_sock p) e && s_used (sk e (Z.to_nat (p_sock p)))
          then Flag_Error (Z.to_nat (p_sock p)) 2 else mret tt
        else mret tt
    else mret tt).

Definition Scrub_Pending (id : nat) : EM unit :=
  modify (fun e => set_pend
    ((fun p => if p_used p && (p_sock p =? Z.of_nat id)
               then PendRec false (p_sock p) (p_ip p) (p_deadline p) else p) <$> e_pend e) e).

(** ** Socket TX *)

Definition be32_at (slot i : Z) : prog Z :=
  a ← Mem_get slot i; b ← Mem_get slot (i + 1);
  c ← Mem_get slot (i + 2); d ← Mem_get slot (i + 3);
  mret (u32 (a * 2 ^ 24 + b * 2 ^ 16 + c * 2 ^ 8 + d)).

(** [n] bytes from [va] on, as a copy loop or the glue reads them. *)
Definition load_bytes (va n : Z) : prog (list Z) :=
  collectP (Z.to_nat n) 0 (fun i => act (Ld8 (va + i))).

Definition send_udp (id : nat) (slot len dst_ip dst_port : Z) : EM Z :=
  data ← run (load_bytes (slot + 12) len);
  s ← get_sk id;
  glue_call (Udp_Send (s_pcb s) dst_ip dst_port data).

(** After a send that was accepted: remember the address if ARP has not
    resolved it. *)
Definition track_unresolved (id : nat) (ip : Z) : EM unit :=
  r ← glue_call (Arp_Resolved ip);
  if r =? 0 then Track_Pending id ip else mret tt.

Definition drain_udp (id : nat) (slot len ip port : Z) : EM unit :=
  s ← get_sk id;
  if negb (s_bound s) then Flag_Error id 3
  else
    let dst_ip := if (ip =? 0) && s_connected s then s_peer_ip s else ip in
    let dst_port := if (port =? 0) && s_connected s then s_peer_port s else port in
    my_ip ← gets e_my_ip;
    if (dst_ip =? 0) || (dst_port =? 0) then Flag_Error id 3
    else if dst_ip =? my_ip then
      target ← gets (Find_Udp_Rx dst_port my_ip (s_local_port s));
      closed ← (if (target =? 0)%nat
                then r ← glue_call (Udp_Port_Open dst_port); mret (r =? 0) else mret false);
      if closed : bool then Flag_Error id 1
      else _ ← send_udp id slot len dst_ip dst_port; mret tt
    else
      rc ← send_udp id slot len dst_ip dst_port;
      if negb (rc =? 0) then mret tt else track_unresolved id dst_ip.

(** [false]: lwIP's send buffer is full and the slot stays queued. *)
Definition drain_tcp (id : nat) (slot len : Z) : EM bool :=
  s ← get_sk id;
  if negb (s_conn_state s =? Conn_Up) || (s_pcb s =? 0)
  then _ ← Flag_Error id 3; mret true
  else
    data ← run (load_bytes (slot + 12) len);
    rc ← glue_call (Tcp_Write (s_pcb s) data);
    if negb (rc =? 0) then mret false
    else _ ← glue_call (Tcp_Output (s_pcb s)); mret true.

(** The echo request of a ping socket: type, code, ident and checksum are the
    server's. *)
Definition echo_request (id : Z) (data : list Z) : list Z :=
  let csum := Checksum ([8; 0; 0; 0; id / 256; id mod 256] ++ drop 6 data) in
  [8; 0; csum / 256; csum mod 256; id / 256; id mod 256] ++ drop 6 data.

Definition drain_icmp (id : nat) (slot len ip : Z) : EM unit :=
  if len <? 8 then Flag_Error id 3
  else
    s ← get_sk id;
    let dst_ip := if (ip =? 0) && s_connected s then s_peer_ip s else ip in
    if dst_ip =? 0 then Flag_Error id 3
    else
      data ← run (load_bytes (slot + 12) len);
      raw ← gets e_raw_pcb;
      my_ip ← gets e_my_ip;
      rc ← glue_call (Raw_Send raw dst_ip (echo_request (Z.of_nat id) data));
      if negb (rc =? 0) then mret tt
      else if dst_ip =? my_ip then mret tt else track_unresolved id dst_ip.

(** One round of [Drain_Sock_Tx]; whether the loop goes on. *)
Definition drain_round (id : nat) : EM bool :=
  let base := Sock_VA id + Page_Size in
  head ← io (Ld64 base);
  tail ← io (Ld64 (base + 8));
  if tail =? head then mret false
  else
    _ ← io Fence;
    let slot := slot_at base tail in
    a ← run (Mem_get slot 0);
    b ← run (Mem_get slot 1);
    dst_ip ← run (be32_at slot 4);
    dst_port ← run (be32_at slot 8);
    let len := Z.min (a + b * 256) Max_Payload in
    s ← get_sk id;
    go ← (if s_proto s =? Proto_Udp then
            _ ← drain_udp id slot len dst_ip dst_port; mret true
          else if s_proto s =? Proto_Tcp then drain_tcp id slot len
          else _ ← drain_icmp id slot len dst_ip; mret true);
    if go : bool then _ ← io (St64 (base + 8) (u64 (tail + 1))); mret true
    else mret false.

Definition Drain_Sock_Tx (fuel : nat) (id : nat) : EM unit :=
  iterE fuel (drain_round id).

(** ** Callbacks of the glue *)

Definition Aknet_On_Udp_Rx (id ip port : Z) (buf : list Z) (len : Z) : EM unit :=
  e ← gets (fun e => e);
  let i := Z.to_nat id in
  if id_ok id e && s_used (sk e i) && (s_proto (sk e i) =? Proto_Udp)
  then run (Enqueue_Rx (Sock_VA i) (s_ntfn_cap (sk e i)) ip port buf len)
  else mret tt.

Definition be16_at (i : nat) (data : list Z) : Z := nth i data 0 * 256 + nth (S i) data 0.

Definition Aknet_On_Icmp_Rx (src_ip : Z) (data : list Z) : EM Z :=
  if (Z.of_nat (length data) <? 8) || negb (Checksum data =? 0) then mret 0
  else if negb (nth 0 data 0 =? 0) then mret 0
  else
    let ident := be16_at 4 data in
    let seq := be16_at 6 data in
    e ← gets (fun e => e);
    if e_ping_pending e && (ident =? Ping_Ident) && (seq =? e_ping_seq e)
       && (src_ip =? e_ping_target e)
    then
      t ← io Read_Time;
      _ ← modify (fun e => set_ping false (e_ping_seq e) (e_ping_target e) (e_ping_t0 e)
                    (u64 (t - e_ping_t0 e)) (e_ping_reply e) (e_ping_limit e) e);
      mret 1
    else
      let i := Z.to_nat ident in
      if id_ok ident e && s_used (sk e i) && (s_proto (sk e i) =? Proto_Icmp)
      then
        _ ← run (Enqueue_Rx (Sock_VA i) (s_ntfn_cap (sk e i)) src_ip 0 data
                   (Z.of_nat (length data)));
        mret 1
      else mret 0.

Definition no_resolve : Resolve_Rec := ResolveRec false false 0 0.

Definition Aknet_On_Dns_Reply (slot ip : Z) : EM unit :=
  modify (fun e =>
    let i := (Z.to_nat slot - 1)%nat in
    if (1 <=? slot) && (slot <=? Z.of_nat (length (e_resolves e)))
       && r_used (nth i (e_resolves e) no_resolve)
    then set_resolves (alter (fun r => ResolveRec (r_used r) true (r_reply r) ip) i
                         (e_resolves e)) e
    else e).

Definition Aknet_On_Tcp_Accept (id new_pcb : Z) : EM Z :=
  e ← gets (fun e => e);
  let listener := Z.to_nat id in
  if negb (id_ok id e) || negb (s_used (sk e listener)) || negb (s_listening (sk e listener))
  then mret 1
  else
    child ← Alloc_Sock;
    if (child =? 0)%nat then mret 1
    else
      l ← get_sk listener;
      ip ← glue_call (Tcp_Remote_Ip new_pcb);
      port ← glue_call (Tcp_Remote_Port new_pcb);
      _ ← upd_sk child (fun _ => SockState true Proto_Tcp true true (s_local_port l) ip port
             0 0 0 new_pcb false false Conn_Up 0 0 0 id false false);
      _ ← glue_call (Tcp_Attach new_pcb (Z.of_nat child));
      l ← get_sk listener;
      _ ← io (Ntfn_Signal (s_ntfn_cap l) 1);
      mret 0.

Definition Aknet_On_Tcp_Connected (id err : Z) : EM unit :=
  e ← gets (fun e => e);
  let i := Z.to_nat id in
  if negb (id_ok id e) || negb (s_used (sk e i)) || negb (s_proto (sk e i) =? Proto_Tcp)
     || negb (s_conn_state (sk e i) =? Conn_Connecting)
  then mret tt
  else if err =? 0 then upd_sk i (fun s => with_connected (with_conn Conn_Up s))
  else upd_sk i (fun s => with_conn_fail Err_Cx_Timeout (with_conn Conn_Failed s)).

Definition Aknet_On_Tcp_Rx (id : Z) (chain : list Z) : EM Z :=
  e ← gets (fun e => e);
  let i := Z.to_nat id in
  let s := sk e i in
  if negb (id_ok id e) || negb (s_used s) || negb (s_proto s =? Proto_Tcp)
     || negb (s_claimed s)
  then mret 0
  else
    ok ← run (Store_Tcp_Rx (Sock_VA i) (s_ntfn_cap s) (s_peer_ip s) (s_peer_port s)
                chain (Z.of_nat (length chain)));
    mret (if ok : bool then 1 else 0).

(** The marker goes into the ring, or is owed. *)
Definition eof_or_owe (i : nat) : EM unit :=
  _ ← upd_sk i (fun s => with_eof (s_pend_eof s) true s);
  s ← get_sk i;
  ok ← (if s_claimed s then run (Enqueue_Eof (Sock_VA i) (s_ntfn_cap s)) else mret false);
  if ok : bool then mret tt else upd_sk i (fun s => with_eof true (s_eof_done s) s).

Definition Aknet_On_Tcp_Eof (id : Z) : EM unit :=
  e ← gets (fun e => e);
  let i := Z.to_nat id in
  let s := sk e i in
  if negb (id_ok id e) || negb (s_used s) || negb (s_proto s =? Proto_Tcp) || s_eof_done s
  then mret tt
  else eof_or_owe i.

Definition Aknet_On_Tcp_Err (id err : Z) : EM unit :=
  e ← gets (fun e => e);
  let i := Z.to_nat id in
  if negb (id_ok id e) || negb (s_used (sk e i)) || negb (s_proto (sk e i) =? Proto_Tcp)
  then mret tt
  else
    _ ← upd_sk i (with_pcb 0);
    s ← get_sk i;
    if s_conn_state s =? Conn_Connecting then
      upd_sk i (fun s => with_conn_fail (if err =? -14 then Err_Refused else Err_Cx_Timeout)
                           (with_conn Conn_Failed s))
    else if s_conn_state s =? Conn_Up then
      if negb (s_reply_stash s =? 0) then
        upd_sk i (fun s => with_conn_fail Err_Reset (with_conn Conn_Failed s))
      else
        _ ← upd_sk i (with_conn Conn_Idle);
        _ ← Flag_Error i Err_Reset;
        if s_eof_done s then mret tt else eof_or_owe i
    else mret tt.

Definition Aknet_On_Tcp_Sent (fuel : nat) (id len : Z) : EM unit :=
  e ← gets (fun e => e);
  let s := sk e (Z.to_nat id) in
  if id_ok id e && s_used s && (s_proto s =? Proto_Tcp) && (s_conn_state s =? Conn_Up)
     && (0 <? len)
  then Drain_Sock_Tx fuel (Z.to_nat id) else mret tt.

(** What the glue calls; the value goes back to lwIP. *)
Definition on_callback (fuel : nat) (c : callback) : EM Z :=
  match c with
  | On_Udp_Rx id ip port buf len => _ ← Aknet_On_Udp_Rx id ip port buf len; mret 0
  | On_Icmp_Rx ip data => Aknet_On_Icmp_Rx ip data
  | On_Dns_Reply slot ip => _ ← Aknet_On_Dns_Reply slot ip; mret 0
  | On_Tcp_Accept id pcb => Aknet_On_Tcp_Accept id pcb
  | On_Tcp_Connected id err => _ ← Aknet_On_Tcp_Connected id err; mret 0
  | On_Tcp_Rx id chain => Aknet_On_Tcp_Rx id chain
  | On_Tcp_Eof id => _ ← Aknet_On_Tcp_Eof id; mret 0
  | On_Tcp_Sent id len => _ ← Aknet_On_Tcp_Sent fuel id len; mret 0
  | On_Tcp_Err id err => _ ← Aknet_On_Tcp_Err id err; mret 0
  end.

Fixpoint serve (fuel n : nat) (r : Z) : EM unit :=
  match n with
  | O => fun _ => Spin
  | S n' =>
      cb ← io (Next_Callback r);
      match cb with
      | None => mret tt
      | Some c => r' ← on_callback fuel c; serve fuel n' r'
      end
  end.

(** A glue call with the callbacks made during it. *)
Definition glue_cb (fuel : nat) (g : glue_op) : EM Z :=
  rc ← glue_call g; _ ← serve fuel fuel 0; mret rc.

(** ** Socket operations *)

Section ops.
Context (fuel : nat).

Definition Retry_Tcp (id : nat) : EM unit :=
  s ← get_sk id;
  if negb (s_claimed s) then mret tt
  else
    _ ← (if negb (s_pcb s =? 0) && (s_conn_state s =? Conn_Up)
         then glue_cb fuel (Tcp_Kick (s_pcb s)) else mret 0);
    s ← get_sk id;
    if s_pend_eof s then
      ok ← run (Enqueue_Eof (Sock_VA id) (s_ntfn_cap s));
      if ok : bool then upd_sk id (fun s => with_eof false (s_eof_done s) s) else mret tt
    else mret tt.

Definition Free_Pcb (proto pcb : Z) (id : nat) : EM unit :=
  if pcb =? 0 then mret tt
  else if proto =? Proto_Udp then _ ← glue_call (Udp_Del pcb); mret tt
  else if proto =? Proto_Tcp then _ ← glue_call (Tcp_Close pcb (Z.of_nat id)); mret tt
  else mret tt.

Definition drop_caps (ring ntf : Z) : EM unit :=
  _ ← (if ring =? 0 then mret tt else Cap_Delete' ring);
  if ntf =? 0 then mret tt else Cap_Delete' ntf.

(** The two header writes of a fresh ring pair, eight words each. *)
Definition reset_rings (va : Z) : prog unit :=
  _ ← forP 8 0 (fun i => act (St64 (va + 8 * i) 0));
  forP 8 0 (fun i => act (St64 (va + Page_Size + 8 * i) 0)).

Definition map_ring (ring : Z) (id : nat) : EM Z :=
  io (Mem_Map ring (Sock_VA id) 0 Ring_Bytes 3).

Definition Handle_Sock_Open (m : msg) : EM unit :=
  let pro := word m 2 in
  let ring := nth 0 (m_caps m) 0 in
  let ntf := nth 1 (m_caps m) 0 in
  let dgram_ok := (word m 1 =? SOCK_DGRAM) && ((pro =? Proto_Udp) || (pro =? Proto_Icmp)) in
  let stream_ok := (word m 1 =? SOCK_STREAM) && (pro =? Proto_Tcp) in
  if negb (word m 0 =? AF_INET) || (negb dgram_ok && negb stream_ok)
     || (ring =? 0) || (ntf =? 0)
  then _ ← drop_caps ring ntf; Reply Status_Bad_Args 0
  else
    id ← Alloc_Sock;
    if (id =? 0)%nat then _ ← drop_caps ring ntf; Reply Status_Not_Ready 0
    else
      pcb ← (if pro =? Proto_Udp then glue_call (Udp_New (Z.of_nat id))
             else if pro =? Proto_Tcp then glue_call (Tcp_New (Z.of_nat id)) else mret 0);
      if ((pro =? Proto_Udp) || (pro =? Proto_Tcp)) && (pcb =? 0)
      then _ ← drop_caps ring ntf; Reply Status_Not_Ready 0
      else
        r ← map_ring ring id;
        if negb (r =? 0) then
          _ ← Free_Pcb pro pcb id; _ ← drop_caps ring ntf; Reply Status_Not_Ready 0
        else
          _ ← run (reset_rings (Sock_VA id));
          _ ← Scrub_Pending id;
          _ ← upd_sk id (fun _ => SockState true pro false false 0 0 0 0 ring ntf pcb
                                    false true Conn_Idle 0 0 0 0 false false);
          Reply Status_Ok (Z.of_nat id).

Definition Port_In_Use (proto p : Z) (except : nat) (e : eng) : bool :=
  existsb (fun i => negb (i =? except)%nat && s_used (sk e i) && (s_proto (sk e i) =? proto)
                    && s_bound (sk e i) && (s_local_port (sk e i) =? p))
          (seq 1 (length (e_socks e))).

Definition next_port (p : Z) : Z := 49152 + (p - 49152 + 1) mod 0x4000.

(** The first port not in use, from [port] on, within [n] tries. *)
Fixpoint find_port (n : nat) (proto : Z) (id : nat) (e : eng) (port : Z) : option Z :=
  match n with
  | O => None
  | S n' => if Port_In_Use proto port id e then find_port n' proto id e (next_port port)
            else Some port
  end.

Definition bind_pcb (id : nat) (port : Z) : EM bool :=
  s ← get_sk id;
  rc ← (if s_proto s =? Proto_Udp then glue_call (Udp_Bind (s_pcb s) port)
        else glue_call (Tcp_Bind (s_pcb s) port));
  if rc =? 0 then _ ← upd_sk id (with_bound port); mret true else mret false.

Definition Bind_Ephemeral (id : nat) : EM bool :=
  e ← gets (fun e => e);
  match find_port (Z.to_nat 0x4000) (s_proto (sk e id)) id e (e_next_ephem e) with
  | None => mret false
  | Some port => _ ← modify (set_ephem (next_port port)); bind_pcb id port
  end.

Definition Handle_Sock_Bind (m : msg) (id : nat) : EM unit :=
  let p := word m 0 in
  s ← get_sk id;
  if (negb (s_proto s =? Proto_Udp) && negb (s_proto s =? Proto_Tcp))
     || s_bound s || s_listening s || (0xFFFF <? p)
  then Reply Status_Bad_Args 0
  else if p =? 0 then
    ok ← Bind_Ephemeral id;
    if ok : bool then s ← get_sk id; Reply Status_Ok (s_local_port s)
    else Reply Status_Not_Ready 0
  else
    used ← gets (Port_In_Use (s_proto s) p id);
    if used : bool then Reply Status_Not_Ready 0
    else
      ok ← bind_pcb id p;
      if ok : bool then Reply Status_Ok p else Reply Status_Not_Ready 0.

(** The TCP half of [Handle_Sock_Connect], the port known to be bound and
    the pcb to be there. *)
Definition start_connect (id : nat) (ip port : Z) : EM unit :=
  _ ← upd_sk id (fun s => with_conn Conn_Connecting (with_conn_fail 0 (with_peer ip port s)));
  t ← io Read_Time;
  _ ← upd_sk id (with_deadline (u64 (t + Tcp_Cx_Timeout)));
  s ← get_sk id;
  rc ← glue_call (Tcp_Connect (s_pcb s) ip port);
  if negb (rc =? 0) then _ ← upd_sk id (with_conn Conn_Idle); Reply Status_Not_Ready 0
  else
    h ← gets e_reply_h;
    _ ← upd_sk id (with_stash h);
    modify (set_reply_h 0).

Definition connect_tcp (id : nat) (ip port : Z) : EM unit :=
  s ← get_sk id;
  if s_listening s
     || (negb (s_conn_state s =? Conn_Idle) && negb (s_conn_state s =? Conn_Failed))
  then Reply Status_Bad_Args 0
  else
    ok ← (if s_bound s then mret true else Bind_Ephemeral id);
    if negb ok then Reply Status_Not_Ready 0
    else if negb (s_pcb s =? 0) then start_connect id ip port
    else
      pcb ← glue_call (Tcp_New (Z.of_nat id));
      _ ← upd_sk id (with_pcb pcb);
      if pcb =? 0 then Reply Status_Not_Ready 0
      else
        s ← get_sk id;
        rc ← glue_call (Tcp_Bind pcb (s_local_port s));
        if negb (rc =? 0) then Reply Status_Not_Ready 0 else start_connect id ip port.

Definition Handle_Sock_Connect (m : msg) (id : nat) : EM unit :=
  let ip := word m 0 in
  let port := word m 1 in
  s ← get_sk id;
  if (ip =? 0) || (0xFFFFFFFF <? ip)
     || (negb (s_proto s =? Proto_Icmp) && ((port =? 0) || (0xFFFF <? port)))
  then Reply Status_Bad_Args 0
  else if s_proto s =? Proto_Tcp then connect_tcp id ip port
  else
    rc ← (if s_proto s =? Proto_Udp then glue_call (Udp_Connect (s_pcb s) ip port) else mret 0);
    if negb (rc =? 0) then Reply Status_Not_Ready 0
    else
      _ ← upd_sk id (fun s => with_peer ip (Z.land port 0xFFFF) (with_connected s));
      Reply Status_Ok 0.

Definition Handle_Sock_Listen (id : nat) : EM unit :=
  s ← get_sk id;
  if negb (s_proto s =? Proto_Tcp) || negb (s_bound s) || s_listening s
     || negb (s_conn_state s =? Conn_Idle) || (s_pcb s =? 0)
  then Reply Status_Bad_Args 0
  else
    r ← io (Glue (Tcp_Listen (s_pcb s) (Z.of_nat id)));
    if negb (r.1 =? 0) then Reply Status_Not_Ready 0
    else
      _ ← upd_sk id (fun s => with_listening (with_pcb r.2.1 s));
      Reply Status_Ok 0.

(** A parked child of listener [id]. *)
Definition parked (id : nat) (s : Sock_State) : bool :=
  s_used s && (s_parent s =? Z.of_nat id) && negb (s_claimed s).

Definition Handle_Sock_Accept (m : msg) (id : nat) : EM unit :=
  let ring := nth 0 (m_caps m) 0 in
  let ntf := nth 1 (m_caps m) 0 in
  s ← get_sk id;
  if negb (s_listening s) || (ring =? 0) || (ntf =? 0)
  then _ ← drop_caps ring ntf; Reply Status_Bad_Args 0
  else
    child ← gets (fun e => first_index (parked id) (e_socks e));
    if (child =? 0)%nat then _ ← drop_caps ring ntf; Reply Status_Not_Ready 0
    else
      r ← map_ring ring child;
      if negb (r =? 0) then _ ← drop_caps ring ntf; Reply Status_Not_Ready 0
      else
        _ ← run (reset_rings (Sock_VA child));
        _ ← upd_sk child (with_claim ring ntf);
        s ← get_sk child;
        peer ← io (Glue (Tcp_Peer (s_pcb s)));
        _ ← (if peer.1 =? 0 then upd_sk child (with_peer peer.2.1 peer.2.2) else mret tt);
        _ ← Retry_Tcp child;
        s ← get_sk child;
        Reply4 Status_Ok (Z.of_nat child) (s_peer_ip s) (s_peer_port s).

Definition Handle_Sock_Poll (id : nat) : EM unit :=
  s ← get_sk id;
  if s_listening s then
    n ← gets (fun e => length (filter (fun s => parked id s = true) (e_socks e)));
    Reply4 Status_Ok (Z.of_nat n) 0 (s_error s)
  else
    _ ← Retry_Tcp id;
    let va := Sock_VA id in
    h0 ← io (Ld64 va);
    t0 ← io (Ld64 (va + 8));
    h1 ← io (Ld64 (va + Page_Size));
    t1 ← io (Ld64 (va + Page_Size + 8));
    s ← get_sk id;
    Reply4 Status_Ok (u64 (h0 - t0)) (u64 (Slots - u64 (h1 - t1))) (s_error s).

(** The children of a listener that closes: claimed ones live on. *)
Definition release_child (id i : nat) : EM unit :=
  s ← get_sk i;
  if s_used s && (s_parent s =? Z.of_nat id) then
    if s_claimed s then upd_sk i (with_parent 0)
    else _ ← Free_Pcb Proto_Tcp (s_pcb s) i; upd_sk i (fun _ => idle_sock)
  else mret tt.

Definition Handle_Sock_Close (id : nat) : EM unit :=
  s ← get_sk id;
  _ ← (if s_reply_stash s =? 0 then mret tt
       else _ ← Reply_To (s_reply_stash s) Err_Reset 0; upd_sk id (with_stash 0));
  _ ← (if s_listening s
       then n ← gets (fun e => length (e_socks e)); for_each n 1 (release_child id)
       else mret tt);
  s ← get_sk id;
  _ ← Free_Pcb (s_proto s) (s_pcb s) id;
  _ ← Scrub_Pending id;
  _ ← (if s_claimed s then _ ← io (Mem_Unmap (Sock_VA id) Ring_Bytes); mret tt else mret tt);
  _ ← drop_caps (s_ring_cap s) (s_ntfn_cap s);
  _ ← upd_sk id (fun _ => idle_sock);
  Reply Status_Ok 0.

End ops.

(** ** The tick, pings and lookups *)

Section loop.
Context (fuel : nat).

Definition expire_connect (i : nat) : EM unit :=
  s ← get_sk i;
  if s_conn_state s =? Conn_Connecting then
    t ← io Read_Time;
    if s_conn_deadline s <? t then
      _ ← Free_Pcb Proto_Tcp (s_pcb s) i;
      upd_sk i (fun s => with_conn_fail Err_Cx_Timeout (with_conn Conn_Failed (with_pcb 0 s)))
    else mret tt
  else mret tt.

Definition tick_sock (i : nat) : EM unit :=
  s ← get_sk i;
  if s_used s && (s_proto s =? Proto_Tcp) then
    _ ← expire_connect i;
    _ ← Retry_Tcp fuel i;
    s ← get_sk i;
    if (s_conn_state s =? Conn_Up) && s_claimed s then Drain_Sock_Tx fuel i else mret tt
  else mret tt.

Definition Tick_Tcp : EM unit :=
  n ← gets (fun e => length (e_socks e)); for_each n 1 tick_sock.

Definition Poll_Dhcp : EM unit :=
  on ← gets e_dhcp_on;
  if negb on then mret tt
  else
    b ← glue_call Dhcp_Bound;
    was ← gets e_dhcp_was_bound;
    let bound := negb (b =? 0) in
    if eqb bound was then mret tt
    else a ← io (Glue Get_Addr); modify (set_lease bound a.2.1 a.2.2).

(** The echo request of [Op_Ping]: the send time is its payload. *)
Definition ping_packet (seq t0 : Z) : list Z :=
  let body := [Ping_Ident / 256; Ping_Ident mod 256; Z.land (seq / 256) 255; seq mod 256]
    ++ map (fun i => Z.land (Z.shiftr t0 ((7 - i) * 8)) 255) [0; 1; 2; 3; 4; 5; 6; 7] in
  let csum := Checksum ([8; 0; 0; 0] ++ body) in
  [8; 0; csum / 256; csum mod 256] ++ body.

Definition Handle_Ping (m : msg) : EM unit :=
  let target := word m 0 in
  if (target =? 0) || (0xFFFFFFFF <? target) then Reply Status_Bad_Args 0
  else
    e ← gets (fun e => e);
    if target =? e_my_ip e then Reply Status_Ok 0
    else if e_ping_pending e then Reply Status_Not_Ready 0
    else
      t0 ← io Read_Time;
      let seq := u32 (e_ping_seq e + 1) in
      _ ← modify (set_ping true seq target t0 (e_ping_rtt e) (e_ping_reply e)
                    (u64 (t0 + Ping_Timeout)));
      rc ← glue_call (Raw_Send (e_raw_pcb e) target (ping_packet seq t0));
      if negb (rc =? 0) then
        _ ← modify (fun e => set_ping false (e_ping_seq e) (e_ping_target e) (e_ping_t0 e)
                      (e_ping_rtt e) (e_ping_reply e) (e_ping_limit e) e);
        Reply Ping_No_Reply 0
      else
        _ ← modify (fun e => set_ping (e_ping_pending e) (e_ping_seq e) (e_ping_target e)
                      (e_ping_t0 e) (e_ping_rtt e) (e_reply_h e) (e_ping_limit e) e);
        modify (set_reply_h 0).

(** A free entry of the lookup table, appended if there is none; 0: none. *)
Definition alloc_resolve : EM nat :=
  e ← gets (fun e => e);
  match first_index (fun r => negb (r_used r)) (e_resolves e) with
  | O =>
      ok ← io Tab_Append;
      if ok : bool then
        _ ← modify (set_resolves (e_resolves e ++ [no_resolve]));
        mret (S (length (e_resolves e)))
      else mret 0%nat
  | i => mret i
  end.

Definition put_resolve (i : nat) (f : Resolve_Rec -> Resolve_Rec) : EM unit :=
  modify (fun e => set_resolves (alter f (i - 1)%nat (e_resolves e)) e).

Definition Handle_Resolve (m : msg) : EM unit :=
  let len := word m 0 in
  let buf := nth 0 (m_caps m) 0 in
  if (buf =? 0) || (len =? 0) || (255 <? len)
  then _ ← (if buf =? 0 then mret tt else Cap_Delete' buf); Reply Status_Bad_Args 0
  else
    slot ← alloc_resolve;
    if (slot =? 0)%nat then _ ← Cap_Delete' buf; Reply Status_Not_Ready 0
    else
      r ← io (Mem_Map buf Buf_Win_VA 0 Page_Size 1);
      if negb (r =? 0) then _ ← Cap_Delete' buf; Reply Status_Not_Found 0
      else
        name ← run (load_bytes Buf_Win_VA len);
        _ ← io (Mem_Unmap Buf_Win_VA Page_Size);
        _ ← Cap_Delete' buf;
        _ ← put_resolve slot (fun _ => ResolveRec true false 0 0);
        rc ← io (Glue (Dns_Resolve name (Z.of_nat slot)));
        if 0 <? rc.1 then
          _ ← put_resolve slot (fun r => ResolveRec false (r_done r) (r_reply r) (r_result r));
          Reply Status_Ok rc.2.1
        else if rc.1 =? 0 then
          h ← gets e_reply_h;
          _ ← put_resolve slot (fun r => ResolveRec (r_used r) (r_done r) h (r_result r));
          modify (set_reply_h 0)
        else
          _ ← put_resolve slot (fun r => ResolveRec false (r_done r) (r_reply r) (r_result r));
          Reply Status_Not_Ready 0.

(** One frame of the driver's ring; whether the loop goes on. *)
Definition ring_round : EM bool :=
  head ← io (Ld64 Drv_Ring_VA);
  tail ← io (Ld64 (Drv_Ring_VA + 8));
  if tail =? head then mret false
  else
    _ ← io Fence;
    n ← gets e_ring_slots;
    let base := 4096 + (tail mod n) * 2048 in
    if Drv_Ring_Bytes <=? base + 1 then raise
    else
      a ← io (Ld8 (Drv_Ring_VA + base));
      b ← io (Ld8 (Drv_Ring_VA + base + 1));
      let len := a + b * 256 in
      _ ← (if (14 <=? len) && (len <=? 2046)
           then frame ← run (load_bytes (Drv_Ring_VA + base + 2) len);
                glue_cb fuel (Rx_Frame frame)
           else mret 0);
      _ ← io (St64 (Drv_Ring_VA + 8) (u64 (tail + 1)));
      mret true.

Definition Drain_Ring : EM unit := iterE fuel ring_round.

(** ** The service loop *)

(** What [IPC_Recv] delivers. *)
Record request := Request { rq_msg : msg; rq_badge : Z; rq_reply : Z }.

(** The deferred completions at the end of a round. *)
Definition complete_ping : EM unit :=
  e ← gets (fun e => e);
  if e_ping_reply e =? 0 then mret tt
  else
    let finish pending := modify (fun e => set_ping pending (e_ping_seq e) (e_ping_target e)
          (e_ping_t0 e) (e_ping_rtt e) 0 (e_ping_limit e) e) in
    if negb (e_ping_pending e) then
      _ ← Reply_To (e_ping_reply e) Status_Ok (e_ping_rtt e); finish false
    else
      t ← io Read_Time;
      if e_ping_limit e <? t
      then _ ← Reply_To (e_ping_reply e) Ping_No_Reply 0; finish false
      else mret tt.

Definition complete_connect (i : nat) : EM unit :=
  s ← get_sk i;
  if s_used s && negb (s_reply_stash s =? 0) then
    if s_conn_state s =? Conn_Up then
      _ ← Reply_To (s_reply_stash s) Status_Ok 0; upd_sk i (with_stash 0)
    else if s_conn_state s =? Conn_Failed then
      _ ← Reply_To (s_reply_stash s) (s_conn_fail s) 0; upd_sk i (with_stash 0)
    else mret tt
  else mret tt.

Definition complete_resolve (i : nat) : EM unit :=
  r ← gets (fun e => nth (i - 1) (e_resolves e) no_resolve);
  if r_used r && r_done r && negb (r_reply r =? 0) then
    _ ← (if negb (r_result r =? 0) then Reply_To (r_reply r) Status_Ok (r_result r)
         else Reply_To (r_reply r) Status_Not_Found 0);
    put_resolve i (fun r => ResolveRec false (r_done r) 0 (r_result r))
  else mret tt.

Definition completions : EM unit :=
  _ ← complete_ping;
  n ← gets (fun e => length (e_socks e));
  _ ← for_each n 1 complete_connect;
  k ← gets (fun e => length (e_resolves e));
  for_each k 1 complete_resolve.

Definition notified (bits : Z) : EM unit :=
  _ ← (if negb (Z.land bits Signal_Rx =? 0) then Drain_Ring else mret tt);
  if negb (Z.land bits Signal_Tick =? 0) then
    _ ← glue_cb fuel Check_Timeouts; _ ← Check_Pending; _ ← Tick_Tcp; Poll_Dhcp
  else mret tt.

Definition reply_if_owed (status : Z) : EM unit :=
  h ← gets e_reply_h; if h =? 0 then mret tt else Reply status 0.

(** An operation on socket [id]. *)
Definition sock_op (m : msg) (id : nat) : EM unit :=
  if m_label m =? Op_Bind then Handle_Sock_Bind m id
  else if m_label m =? Op_Connect then Handle_Sock_Connect m id
  else if m_label m =? Op_Kick then
    _ ← Drain_Sock_Tx fuel id; _ ← glue_cb fuel Hairpin_Drain; reply_if_owed Status_Ok
  else if m_label m =? Op_Poll then Handle_Sock_Poll fuel id
  else if m_label m =? Op_Listen then Handle_Sock_Listen id
  else if m_label m =? Op_Accept then Handle_Sock_Accept fuel m id
  else Handle_Sock_Close id.

(** The badge names a socket in use. *)
Definition badge_used (badge : Z) (e : eng) : bool :=
  id_ok badge e && s_used (sk e (Z.to_nat badge)).

Context (Handle_File_Op : msg -> EM unit).

Definition dispatch (q : request) : EM unit :=
  let m := rq_msg q in
  let l := m_label m in
  if l =? Notification_Label then notified (word m 0)
  else if l <=? 18 then Handle_File_Op m
  else if (l =? Op_Ping) && (rq_badge q =? 0) then Handle_Ping m
  else if (l =? Op_Socket) && (rq_badge q =? 0) then Handle_Sock_Open m
  else if (l =? Op_Resolve) && (rq_badge q =? 0) then Handle_Resolve m
  else
    used ← gets (badge_used (rq_badge q));
    if (Op_Bind <=? l) && (l <=? Op_Accept) && used
    then sock_op m (Z.to_nat (rq_badge q))
    else reply_if_owed Status_Bad_Args.

(** One round of the loop in [Run]: a request, the hairpin queue, the
    deferred completions. *)
Definition service_round (q : request) : EM unit :=
  _ ← modify (set_reply_h (rq_reply q));
  _ ← dispatch q;
  _ ← glue_cb fuel Hairpin_Drain;
  completions.

End loop.
