(* ===== verification/EngineLogic.v ===== *)
(** * A logic for the engine

    Every run of an engine subprogram is a trace of actions with their
    answers ([steps]).  [wpp] is a weakest precondition over all of them: it
    follows a ledger ([ghost]) of the replies sent, the capabilities deleted
    and the memory windows mapped, demands of every access that it lies in a
    mapped window and that no check fails, and assumes of the answers what
    [allowed] says.  The engine's invariant ([good]) and the frame that
    callbacks keep ([kept]) are stated here; the subprograms follow in the
    next files. *)
From S2P Require Import Prelude CInt Prog Ring RingInv RingSafe SockBridge Engine.

(** ** Traces *)

Inductive event : Type :=
  | Event (X : Type) (e : ev X) (x : X).
Arguments Event {X} e x.

Inductive steps {A} : prog A -> list event -> prog A -> Prop :=
  | steps_nil p : steps p [] p
  | steps_cons X (e : ev X) k x tr p :
      steps (k x) tr p -> steps (Vis e k) (Event e x :: tr) p.

(** The reply capabilities answered and the capabilities deleted. *)
Definition replies (tr : list event) : list Z :=
  omap (fun v => match v with Event (IPC_Reply c _) _ => Some c | _ => None end) tr.
Definition deletes (tr : list event) : list Z :=
  omap (fun v => match v with Event (Cap_Delete c) _ => Some c | _ => None end) tr.

(** The windows mapped, by address, with their length. *)
Definition windows_after {X} (e : ev X) : X -> gmap Z Z -> gmap Z Z :=
  match e in ev X return X -> gmap Z Z -> gmap Z Z with
  | Mem_Map _ va _ len _ => fun r w => if r =? 0 then <[va := len]> w else w
  | Mem_Unmap va _ => fun _ w => delete va w
  | _ => fun _ w => w
  end.

(** [n] bytes at [va] lie in a mapped window. *)
Definition mapped (w : gmap Z Z) (va n : Z) : Prop :=
  exists base len, w !! base = Some len /\ base <= va /\ va + n <= base + len.

Definition permitted {X} (w : gmap Z Z) (e : ev X) : Prop :=
  match e with
  | Ld8 va | St8 va _ => mapped w va 1
  | Ld64 va | St64 va _ => mapped w va 8
  | _ => True
  end.

(** What is assumed of lwIP's callbacks: no empty datagram is passed on, and
    [sent] is only reported for a socket whose rings are mapped (lwIP reports
    data the server wrote). *)
Definition callback_ok (w : gmap Z Z) (c : callback) : Prop :=
  match c with
  | On_Udp_Rx _ _ _ _ len => 0 < len
  | On_Tcp_Sent id len => 0 < len -> w !! Sock_VA (Z.to_nat id) = Some Ring_Bytes
  | _ => True
  end.

(** Bytes are bytes, the clock has reached [now], and callbacks keep the
    above. *)
Definition allowed {X} (now : Z) (w : gmap Z Z) (e : ev X) : X -> Prop :=
  match e in ev X return X -> Prop with
  | Ld8 _ => fun v => 0 <= v < 256
  | Read_Time => fun t => now <= t
  | Next_Callback _ => fun c => match c with Some c => callback_ok w c | None => True end
  | _ => fun _ => True
  end.

(** A trace whose answers are as assumed; the windows it leaves. *)
Fixpoint legal (now : Z) (w : gmap Z Z) (tr : list event) : Prop :=
  match tr with
  | [] => True
  | Event e x :: tr => allowed now w e x /\ legal now (windows_after e x w) tr
  end.
Fixpoint windows (w : gmap Z Z) (tr : list event) : gmap Z Z :=
  match tr with
  | [] => w
  | Event e x :: tr => windows (windows_after e x w) tr
  end.

(** ** The weakest precondition *)

Definition one (a b : Z) : Z := if a =? b then 1 else 0.

(** The ledger, for one reply capability and one other capability. *)
Record ghost := Ghost { g_replied : Z; g_deleted : Z; g_wins : gmap Z Z }.

Section logic.
Context (hnd cap now : Z).

Definition charge {X} (e : ev X) (x : X) (g : ghost) : ghost :=
  Ghost (g_replied g + match e with IPC_Reply c _ => one c hnd | _ => 0 end)
        (g_deleted g + match e with Cap_Delete c => one c cap | _ => 0 end)
        (windows_after e x (g_wins g)).

Fixpoint wpp {A} (p : prog A) (g : ghost) (Q : A -> ghost -> Prop) : Prop :=
  match p with
  | Ret a => Q a g
  | Vis e k => permitted (g_wins g) e /\
      forall x, allowed now (g_wins g) e x -> wpp (k x) (charge e x g) Q
  | Raise => False
  | Spin => True
  end.

Lemma wpp_mono {A} (p : prog A) g (Q Q' : A -> ghost -> Prop) :
  wpp p g Q -> (forall a g', Q a g' -> Q' a g') -> wpp p g Q'.
Proof.
  intros Hp HQ. revert g Hp. induction p as [a|X e k IH| |]; intros g; cbn; [apply HQ| |done|done].
  intros [Hok Hk]. split; [done|]. intros x Hx. apply IH, Hk, Hx.
Qed.

Lemma wpp_bind {A B} (p : prog A) (f : A -> prog B) g Q :
  wpp p g (fun a g' => wpp (f a) g' Q) -> wpp (p ≫= f) g Q.
Proof.
  revert g. induction p as [a|X e k IH| |]; intros g; cbn; try done.
  intros [Hok Hk]. split; [done|]. intros x Hx. apply IH, Hk, Hx.
Qed.

Lemma legal_app w tr1 tr2 : legal now w (tr1 ++ tr2) <-> legal now w tr1 /\ legal now (windows w tr1) tr2.
Proof.
  revert w. induction tr1 as [|[X e x] tr IH]; intros w; cbn; [tauto|]. rewrite IH. tauto.
Qed.

(** The ledger of a trace. *)
Definition tally (c : Z) (l : list Z) : Z := foldr (fun x n => one x c + n) 0 l.

Lemma tally_cons c x l : tally c (x :: l) = one x c + tally c l.
Proof. done. Qed.

Lemma replies_cons {X} (e : ev X) x tr :
  tally hnd (replies (Event e x :: tr)) =
  match e with IPC_Reply c _ => one c hnd | _ => 0 end + tally hnd (replies tr).
Proof. by destruct e. Qed.

Lemma deletes_cons {X} (e : ev X) x tr :
  tally cap (deletes (Event e x :: tr)) =
  match e with Cap_Delete c => one c cap | _ => 0 end + tally cap (deletes tr).
Proof. by destruct e. Qed.

Lemma wpp_steps {A} (p p' : prog A) g Q tr :
  steps p tr p' -> wpp p g Q -> legal now (g_wins g) tr ->
  wpp p' (Ghost (g_replied g + tally hnd (replies tr)) (g_deleted g + tally cap (deletes tr))
            (windows (g_wins g) tr)) Q.
Proof.
  intros Hs. revert g. induction Hs as [p|X e k x tr p Hs IH]; intros g Hp Hl.
  - cbn. rewrite !Z.add_0_r. by destruct g.
  - destruct Hp as [_ Hk]. destruct Hl as [Hx Hl]. specialize (IH _ (Hk x Hx) Hl).
    rewrite replies_cons, deletes_cons, !Z.add_assoc. apply IH.
Qed.

(** No step of a program with a precondition is a fault. *)
Definition faulty_in {A} (w : gmap Z Z) (p : prog A) : Prop :=
  match p with
  | Raise => True
  | Vis e _ => ~ permitted w e
  | _ => False
  end.

Lemma wpp_safe {A} (p : prog A) g Q : wpp p g Q -> ~ faulty_in (g_wins g) p.
Proof. destruct p; cbn; tauto. Qed.

(** ** Rules for the state monad *)

Definition ewp {A} (c : EM A) (e : eng) (g : ghost) (Q : A -> eng -> ghost -> Prop) : Prop :=
  wpp (c e) g (fun r g' => Q r.1 r.2 g').

Lemma ewp_mono {A} (c : EM A) e g (Q Q' : A -> eng -> ghost -> Prop) :
  ewp c e g Q -> (forall a e' g', Q a e' g' -> Q' a e' g') -> ewp c e g Q'.
Proof. intros Hc HQ. eapply wpp_mono; [exact Hc|]. intros [a e'] g'. apply HQ. Qed.

Lemma ewp_bind {A B} (c : EM A) (f : A -> EM B) e g Q :
  ewp c e g (fun a e' g' => ewp (f a) e' g' Q) -> ewp (c ≫= f) e g Q.
Proof. apply wpp_bind. Qed.

Lemma ewp_ret {A} (a : A) e g Q : Q a e g -> ewp (mret a) e g Q.
Proof. done. Qed.

Lemma ewp_io {X} (v : ev X) e g Q :
  permitted (g_wins g) v ->
  (forall x, allowed now (g_wins g) v x -> Q x e (charge v x g)) -> ewp (io v) e g Q.
Proof. done. Qed.

Lemma ewp_run {A} (p : prog A) e g Q :
  wpp p g (fun a g' => Q a e g') -> ewp (run p) e g Q.
Proof. intros H. apply wpp_bind. eapply wpp_mono; [exact H|done]. Qed.

Lemma ewp_gets {A} (f : eng -> A) e g Q : Q (f e) e g -> ewp (gets f) e g Q.
Proof. done. Qed.

Lemma ewp_modify f e g Q : Q tt (f e) g -> ewp (modify f) e g Q.
Proof. done. Qed.

Lemma charge_glue op x g : charge (Glue op) x g = g.
Proof. destruct g. unfold charge; cbn. by rewrite !Z.add_0_r. Qed.

Lemma ewp_glue op e g Q : (forall r, Q r e g) -> ewp (glue_call op) e g Q.
Proof.
  intros H. apply ewp_bind. apply ewp_io; [done|]. intros x _. rewrite charge_glue. apply ewp_ret, H.
Qed.

End logic.
