(* ===== verification/EngineInv.v ===== *)
(** * The engine's invariant and what callbacks leave alone

    [good]: every socket in use and claimed has its ring pair mapped in its
    window, and no other window is mapped; a parked child holds no capability
    and no reply; a free entry owes nothing; only a socket with a connect under way holds a reply.
    [kept] is what every callback, drain and retry preserves: the reply
    handles and capabilities stay where they are, no socket disappears, and
    none starts to connect. *)
From S2P Require Import Prelude CInt Prog Ring RingInv RingSafe SockBridge Engine EngineLogic.

(** ** The invariant *)

Record sock_ok (w : gmap Z Z) (i : nat) (s : Sock_State) : Prop := {
  so_live : s_used s = true -> s_claimed s = true -> w !! Sock_VA i = Some Ring_Bytes;
  so_parked : s_used s = true -> s_claimed s = false -> s_proto s = Proto_Tcp;
  so_none : s_used s && s_claimed s = false ->
    s_reply_stash s = 0 /\ s_ring_cap s = 0 /\ s_ntfn_cap s = 0 /\ w !! Sock_VA i = None;
  so_stash : s_reply_stash s <> 0 -> Conn_Connecting <= s_conn_state s <= Conn_Failed;
  so_conn : s_conn_state s = Conn_Connecting -> s_used s = true /\ s_proto s = Proto_Tcp }.

Definition res_ok (r : Resolve_Rec) : Prop := r_used r = false -> r_reply r = 0.

Record good (w : gmap Z Z) (e : eng) : Prop := {
  gd_socks : forall i, (0 < i)%nat -> sock_ok w i (sk e i);
  gd_len : Z.of_nat (length (e_socks e)) <= Max_Sock_Ids;
  gd_res : Forall res_ok (e_resolves e);
  gd_slots : 1 <= e_ring_slots e <= 8;
  gd_drv : w !! Drv_Ring_VA = Some Drv_Ring_Bytes }.

Record sock_kept (s s' : Sock_State) : Prop := {
  sp_used : s_used s = true -> s_used s' = true;
  sp_claimed : s_used s = true -> s_claimed s = true -> s_claimed s' = true;
  sp_proto : s_used s = true -> s_proto s' = s_proto s;
  sp_conn : s_conn_state s' = Conn_Connecting ->
    s_conn_state s = Conn_Connecting /\ s_conn_deadline s' = s_conn_deadline s;
  sp_stash : s_reply_stash s' = s_reply_stash s;
  sp_ring : s_ring_cap s' = s_ring_cap s;
  sp_ntfn : s_ntfn_cap s' = s_ntfn_cap s }.

Record kept (e e' : eng) : Prop := {
  kp_socks : forall i, sock_kept (sk e i) (sk e' i);
  kp_len : (length (e_socks e) <= length (e_socks e'))%nat;
  kp_res : r_reply <$> e_resolves e' = r_reply <$> e_resolves e;
  kp_reply : e_reply_h e' = e_reply_h e;
  kp_ping : e_ping_reply e' = e_ping_reply e }.

#[export] Instance sock_kept_preorder : PreOrder sock_kept.
Proof.
  split; [by split|]. intros s1 s2 s3 [A1 B1 P1 C1 D1 E1 F1] [A2 B2 P2 C2 D2 E2 F2].
  split; [auto|auto|intros H; by rewrite P2, P1 by auto| |congruence..].
  intros H. destruct (C2 H) as [H2 ->]. by apply C1.
Qed.

#[export] Instance kept_preorder : PreOrder kept.
Proof.
  split; [by split|]. intros e1 e2 e3 [A1 B1 C1 D1 E1] [A2 B2 C2 D2 E2].
  split; [|lia|congruence..]. intros i. by transitivity (sk e2 i).
Qed.

Definition live (i : nat) (e : eng) : Prop :=
  (0 < i)%nat /\ s_used (sk e i) = true /\ s_claimed (sk e i) = true.

Lemma live_kept i e e' : kept e e' -> live i e -> live i e'.
Proof.
  intros Hk (H0 & Hu & Hc). destruct (kp_socks _ _ Hk i). split; [done|]. auto.
Qed.

Lemma live_mapped w e i : good w e -> live i e -> w !! Sock_VA i = Some Ring_Bytes.
Proof. intros Hg (H0 & Hu & Hc). by apply (so_live _ _ _ (gd_socks _ _ Hg i H0)). Qed.

(** ** Table updates *)

Lemma sk_outside e i : (length (e_socks e) < i)%nat -> sk e i = zero_state.
Proof. intros H. apply nth_overflow. lia. Qed.

Definition put_sk (i : nat) (f : Sock_State -> Sock_State) (e : eng) : eng :=
  set_socks (alter f (i - 1)%nat (e_socks e)) e.

Lemma sk_put i f e j : (0 < i <= length (e_socks e))%nat -> (0 < j)%nat ->
  sk (put_sk i f e) j = if (j =? i)%nat then f (sk e i) else sk e j.
Proof.
  intros Hi Hj. unfold sk, put_sk, set_socks; cbn [e_socks]. rewrite !nth_lookup.
  destruct (Nat.eqb_spec j i) as [->|Hne].
  - rewrite list_lookup_alter_eq. destruct (lookup_lt_is_Some_2 (e_socks e) (i - 1)) as [s ->]; [lia|done].
  - by rewrite list_lookup_alter_ne by lia.
Qed.

Lemma sk_0 e : sk e 0 = sk e 1.
Proof. done. Qed.

Lemma put_outside i f e : (length (e_socks e) < i)%nat -> put_sk i f e = e.
Proof.
  intros Hi. unfold put_sk. replace (alter f (i - 1)%nat (e_socks e)) with (e_socks e).
  - by destruct e.
  - apply list_eq. intros j. destruct (decide (j = i - 1)%nat) as [->|].
    + by rewrite list_lookup_alter_eq, lookup_ge_None_2 by lia.
    + by rewrite list_lookup_alter_ne.
Qed.

Lemma put_good w i f e :
  good w e -> (0 < i)%nat -> (sock_ok w i (sk e i) -> sock_ok w i (f (sk e i))) -> good w (put_sk i f e).
Proof.
  intros Hg Hi Hf. destruct (decide (length (e_socks e) < i)%nat) as [Ho|Ho].
  { by rewrite put_outside. }
  destruct Hg as [Hs Hl Hr Hn Hd]. split; [|by cbn; rewrite length_alter|done..].
  intros j Hj. rewrite sk_put by lia. destruct (Nat.eqb_spec j i) as [->|]; auto.
Qed.

Lemma put_kept i f e :
  (0 < i)%nat -> sock_kept (sk e i) (f (sk e i)) -> kept e (put_sk i f e).
Proof.
  intros Hi Hf. destruct (decide (length (e_socks e) < i)%nat) as [Ho|Ho].
  { by rewrite put_outside. }
  split; [|by cbn; rewrite length_alter|done..].
  assert (H : forall j, (0 < j)%nat -> sock_kept (sk e j) (sk (put_sk i f e) j)).
  { intros j Hj. rewrite sk_put by lia. destruct (Nat.eqb_spec j i) as [->|]; done. }
  intros [|j]; [rewrite !sk_0|]; apply H; lia.
Qed.

(** ** Rules *)

Section rules.
Context (hnd cap now : Z).
#[local] Notation wpp := (wpp hnd cap now).
#[local] Notation ewp := (ewp hnd cap now).

(** [c] from [e] keeps the invariant, the frame and the ledger. *)
Definition keeps {A} (c : EM A) (e : eng) (g : ghost) : Prop :=
  good (g_wins g) e -> ewp c e g (fun _ e' g' => g' = g /\ good (g_wins g) e' /\ kept e e').

Lemma keeps_bind {A B} (c : EM A) (f : A -> EM B) e g :
  keeps c e g -> (forall a e', kept e e' -> keeps (f a) e' g) -> keeps (c ≫= f) e g.
Proof.
  intros Hc Hf Hg. apply ewp_bind. eapply ewp_mono; [apply Hc, Hg|].
  intros a e' g' (-> & Hg' & Hk). eapply ewp_mono; [by apply Hf|].
  intros b e2 g2 (-> & Hg2 & Hk2). split_and!; [done..|]. by transitivity e'.
Qed.

Lemma keeps_gets {A B} (f : eng -> A) (k : A -> EM B) e g :
  keeps (k (f e)) e g -> keeps (gets f ≫= k) e g.
Proof. done. Qed.

Lemma keeps_get_sk {B} i (k : Sock_State -> EM B) e g :
  keeps (k (sk e i)) e g -> keeps (get_sk i ≫= k) e g.
Proof. done. Qed.

Lemma keeps_ret {A} (a : A) e g : keeps (mret a) e g.
Proof. intros Hg. apply ewp_ret. by split_and!. Qed.

Lemma keeps_modify f e g :
  (good (g_wins g) e -> good (g_wins g) (f e)) -> kept e (f e) -> keeps (modify f) e g.
Proof. intros Hf Hk Hg. apply ewp_modify. split_and!; auto. Qed.

Lemma keeps_upd i f e g :
  (0 < i)%nat -> (sock_ok (g_wins g) i (sk e i) -> sock_ok (g_wins g) i (f (sk e i))) ->
  sock_kept (sk e i) (f (sk e i)) -> keeps (upd_sk i f) e g.
Proof. intros Hi Hf Hk. apply keeps_modify; [intros Hg; by apply put_good|by apply put_kept]. Qed.

(** Actions that the ledger ignores. *)
Definition unlisted {X} (v : ev X) : bool :=
  match v with
  | IPC_Reply _ _ | Cap_Delete _ | Mem_Map _ _ _ _ _ | Mem_Unmap _ _ => false
  | _ => true
  end.

Lemma charge_unlisted {X} (v : ev X) x g : unlisted v = true -> charge hnd cap v x g = g.
Proof. intros H. destruct g, v; try done; unfold charge; cbn; by rewrite !Z.add_0_r. Qed.

Lemma keeps_io {X B} (v : ev X) (k : X -> EM B) e g :
  unlisted v = true -> (good (g_wins g) e -> permitted (g_wins g) v) ->
  (forall x, allowed now (g_wins g) v x -> keeps (k x) e g) -> keeps (io v ≫= k) e g.
Proof.
  intros Hu Hp Hk Hg. apply ewp_bind, ewp_io; [auto|]. intros x Hx.
  rewrite charge_unlisted by done. by apply Hk.
Qed.

Lemma keeps_glue {B} op (k : Z -> EM B) e g :
  (forall r, keeps (k r) e g) -> keeps (glue_call op ≫= k) e g.
Proof. intros Hk Hg. apply ewp_bind, ewp_glue. intros r. by apply Hk. Qed.

Lemma keeps_glue_last op e g : keeps (glue_call op) e g.
Proof. intros Hg. apply ewp_glue. intros r. by split_and!. Qed.

(** Programs on memory: the ledger and the state stay. *)
Definition silent {A} (p : prog A) (g : ghost) (Q : A -> Prop) : Prop :=
  wpp p g (fun a g' => g' = g /\ Q a).

Lemma silent_mono {A} (p : prog A) g (Q Q' : A -> Prop) :
  silent p g Q -> (forall a, Q a -> Q' a) -> silent p g Q'.
Proof. intros Hp HQ. eapply wpp_mono; [exact Hp|]. intros a g' [-> Ha]. auto. Qed.

Lemma silent_bind {A B} (p : prog A) (f : A -> prog B) g Q Q' :
  silent p g Q -> (forall a, Q a -> silent (f a) g Q') -> silent (p ≫= f) g Q'.
Proof.
  intros Hp Hf. apply wpp_bind. eapply wpp_mono; [exact Hp|]. intros a g' [-> Ha]. by apply Hf.
Qed.

Lemma silent_act {X} (v : ev X) g (Q : X -> Prop) :
  unlisted v = true -> permitted (g_wins g) v ->
  (forall x, allowed now (g_wins g) v x -> Q x) -> silent (act v) g Q.
Proof. intros Hu Hp HQ. split; [done|]. intros x Hx. rewrite charge_unlisted by done. cbn. auto. Qed.

Lemma silent_collect {A} n i (body : Z -> prog A) g Q :
  (forall j, i <= j < i + Z.of_nat n -> silent (body j) g Q) ->
  silent (collectP n i body) g (fun _ => True).
Proof.
  revert i. induction n as [|n IH]; intros i Hb; [done|]. cbn [collectP].
  eapply silent_bind; [apply Hb; lia|]. intros a _.
  eapply silent_bind; [apply IH; intros j Hj; apply Hb; lia|]. intros l _. done.
Qed.

(** A program confined to a page of a mapped window. *)
Lemma confined_silent {A} (p : prog A) base g :
  confined base p ->
  (forall va n, 0 <= va - base -> va - base + n <= page -> mapped (g_wins g) va n) ->
  silent p g (fun _ => True).
Proof.
  intros Hc Hm. induction p as [a|X v k IH| |]; [done| |done|done].
  destruct Hc as [Hv Hk]. split.
  - destruct v; cbn in *; try done; unfold in_page in Hv; bool_to_prop; apply Hm; lia.
  - intros x _. rewrite charge_unlisted; [apply IH, Hk|]. by destruct v.
Qed.

Lemma keeps_run {A B} (p : prog A) (k : A -> EM B) e g Q :
  (good (g_wins g) e -> silent p g Q) -> (forall a, Q a -> keeps (k a) e g) ->
  keeps (run p ≫= k) e g.
Proof.
  intros Hp Hk Hg. apply ewp_bind, ewp_run. eapply wpp_mono; [by apply Hp|].
  intros a g' [-> Ha]. by apply Hk.
Qed.

Lemma keeps_run_last {A} (p : prog A) e g Q :
  (good (g_wins g) e -> silent p g Q) -> keeps (run p) e g.
Proof.
  intros Hp Hg. apply ewp_run. eapply wpp_mono; [by apply Hp|]. intros a g' [-> _]. by split_and!.
Qed.

(** Loops. *)
Lemma keeps_for_each n i body e g :
  (0 < i)%nat ->
  (forall j e', (0 < j)%nat -> kept e e' -> keeps (body j) e' g) -> keeps (for_each n i body) e g.
Proof.
  revert i e. induction n as [|n IH]; intros i e Hi Hb; [apply keeps_ret|]. cbn [for_each].
  apply keeps_bind; [by apply Hb|]. intros _ e' Hk. apply IH; [lia|].
  intros j e2 Hj Hk2. apply Hb; [done|]. by transitivity e'.
Qed.

Lemma keeps_iterE fuel (body : EM bool) e g :
  (forall e', kept e e' -> keeps body e' g) -> keeps (iterE fuel body) e g.
Proof.
  revert e. induction fuel as [|n IH]; intros e Hb; [done|]. cbn [iterE].
  apply keeps_bind; [by apply Hb|]. intros [] e' Hk; [|apply keeps_ret].
  apply IH. intros e2 Hk2. apply Hb. by transitivity e'.
Qed.

(** The ring pair of a live socket. *)
Lemma live_in_window w i e va n :
  good w e -> live i e -> Sock_VA i <= va -> va + n <= Sock_VA i + Ring_Bytes -> mapped w va n.
Proof. intros Hg Hl H1 H2. exists (Sock_VA i), Ring_Bytes. by rewrite (live_mapped w e). Qed.

Lemma live_rx {A} (p : prog A) i e g :
  confined (Sock_VA i) p -> live i e -> good (g_wins g) e -> silent p g (fun _ => True).
Proof.
  intros Hc Hl Hg. apply (confined_silent _ (Sock_VA i)); [done|]. intros va n H1 H2.
  apply (live_in_window _ i e); [done|done|lia|]. unfold page in H2. change Ring_Bytes with 8192. lia.
Qed.

Lemma live_ld64 i e g o :
  live i e -> good (g_wins g) e -> 0 <= o <= Ring_Bytes - 8 ->
  permitted (g_wins g) (Ld64 (Sock_VA i + o)).
Proof. intros Hl Hg Ho. cbn. apply (live_in_window _ i e); [done|done|lia|lia]. Qed.
End rules.

#[export] Hint Resolve keeps_ret keeps_glue_last : aegir.
