(* ===== verification/EngineKeep.v ===== *)
(** * Callbacks, drains and retries keep the invariant

    Every subprogram of the engine that runs inside a glue call, or drains a
    ring, keeps [good] and [kept] and sends no reply, deletes no capability
    and changes no mapping. *)
From S2P Require Import Prelude CInt Prog Ring RingInv RingSafe SockBridge SockBridgeSpec Engine EngineLogic EngineInv.

(** Updates of fields the invariant does not read. *)
Ltac sock_fields := first
  [ intros [? ? ? ? ?]; split; cbn; solve [auto]
  | split; cbn; solve [auto] ].

Section keep.
Context (hnd cap now : Z).
#[local] Notation keeps := (keeps hnd cap now).
#[local] Notation silent := (silent hnd cap now).
#[local] Notation ewp := (ewp hnd cap now).

Lemma keeps_Flag_Error i code e g : (0 < i)%nat -> keeps (Flag_Error i code) e g.
Proof.
  intros Hi. unfold Flag_Error. apply keeps_bind; [apply keeps_upd; [done|sock_fields..]|].
  intros _ e' _. apply keeps_get_sk. apply keeps_io; [done..|]. auto with aegir.
Qed.

(** ** Allocation *)

Lemma sk_app e l i :
  sk (set_socks (e_socks e ++ [zero_state]) l) i = sk e i.
Proof.
  unfold sk, set_socks; cbn [e_socks]. destruct (decide (i - 1 < length (e_socks e))%nat).
  - by rewrite app_nth1.
  - rewrite app_nth2, (nth_overflow (e_socks e)) by lia.
    by destruct (i - 1 - length (e_socks e))%nat as [|[|]].
Qed.

Lemma ewp_Alloc_Sock e g :
  good (g_wins g) e ->
  ewp Alloc_Sock e g (fun i e' g' => g' = g /\ good (g_wins g) e' /\ kept e e' /\
    (forall j, sk e' j = sk e j) /\
    (i <> 0%nat -> (0 < i <= length (e_socks e'))%nat /\ s_used (sk e' i) = false)).
Proof.
  intros Hg. unfold Alloc_Sock. apply ewp_bind, ewp_gets. unfold id.
  destruct (first_index _ _) as [|n] eqn:Ei.
  - destruct (_ <=? _) eqn:El; [by apply ewp_ret|]. bool_to_prop.
    apply ewp_bind, ewp_io; [done|]. intros [] _; rewrite charge_unlisted by done; [|by apply ewp_ret].
    apply ewp_bind, ewp_modify, ewp_ret.
    assert (Hsk : forall j, sk (set_socks (e_socks e ++ [zero_state]) e) j = sk e j) by apply sk_app.
    destruct Hg as [Hs Hl Hr Hn Hd]. split_and!; [done| | |done|].
    + split; [|cbn; rewrite length_app; cbn; lia|done..]. intros i Hi. rewrite Hsk. auto.
    + split; [|cbn; rewrite length_app; cbn; lia|done..]. intros i. by rewrite Hsk.
    + intros _. rewrite Hsk, sk_outside by lia. cbn. rewrite length_app; cbn. split; [lia|done].
  - apply ewp_ret. split_and!; [done..|]. intros _.
    destruct (first_index_S _ _ _ zero_state Ei) as (Hl & Hf & _); [done|].
    bool_to_prop. split; [lia|]. unfold sk. done.
Qed.

(** ** Pending ARP resolves *)

Lemma keeps_set_pend f e g : keeps (modify (fun e => set_pend (f e) e)) e g.
Proof. apply keeps_modify; [by intros []|by split]. Qed.

Lemma keeps_Scrub_Pending id e g : keeps (Scrub_Pending id) e g.
Proof. apply keeps_set_pend. Qed.

Lemma keeps_Track_Pending id ip e g : keeps (Track_Pending id ip) e g.
Proof.
  unfold Track_Pending. apply keeps_gets, keeps_io; [done..|]. intros t _. cbv zeta.
  assert (Hset : forall l, keeps (modify (set_pend l)) e g)
    by (intros l; apply (keeps_set_pend (fun _ => l))).
  destruct (first_index _ _); [|apply Hset]. destruct (first_index _ _); [|apply Hset].
  apply keeps_io; [done..|]. intros [] _; [apply Hset|apply keeps_ret].
Qed.

Lemma id_ok_pos id e : id_ok id e = true -> (0 < Z.to_nat id <= length (e_socks e))%nat.
Proof. unfold id_ok. intros H. bool_to_prop. lia. Qed.

Lemma keeps_Check_Pending e g : keeps Check_Pending e g.
Proof.
  unfold Check_Pending. apply keeps_gets, keeps_for_each; [lia|]. intros i e1 Hi _.
  apply keeps_gets. destruct (p_used _); [|apply keeps_ret].
  apply keeps_glue. intros r. destruct (negb _); [apply keeps_set_pend|].
  apply keeps_io; [done..|]. intros t _. destruct (_ <? _); [|apply keeps_ret].
  apply keeps_bind; [apply keeps_set_pend|]. intros _ e2 _. apply keeps_gets.
  destruct (_ && _) eqn:E; [|apply keeps_ret]. bool_to_prop.
  apply keeps_Flag_Error. by eapply id_ok_pos.
Qed.

(** ** Draining a TX ring *)

Lemma tx_mapped i e g va n :
  live i e -> good (g_wins g) e -> Sock_VA i + Page_Size <= va ->
  va + n <= Sock_VA i + Page_Size + page -> mapped (g_wins g) va n.
Proof.
  intros Hl Hg H1 H2. apply (live_in_window _ i e); [done|done|..];
    change Ring_Bytes with 8192; change Page_Size with 4096 in *; unfold page in *; lia.
Qed.

Lemma slot_mapped i e g tail o n :
  live i e -> good (g_wins g) e -> 0 <= o -> 0 <= n -> o + n <= Slot_Size ->
  mapped (g_wins g) (slot_at (Sock_VA i + Page_Size) tail + o) n.
Proof.
  intros Hl Hg Ho Hn Hs. rewrite slot_at_base. pose proof (slot_at_bounds tail).
  apply (tx_mapped i e); [done|done|lia..].
Qed.

Lemma silent_Mem_get i e g tail o :
  live i e -> good (g_wins g) e -> 0 <= o < Slot_Size ->
  silent (Mem_get (slot_at (Sock_VA i + Page_Size) tail) o) g (fun v => 0 <= v < 256).
Proof.
  intros Hl Hg Ho. unfold Mem_get.
  replace (o <? Slot_Size) with true by (symmetry; apply Z.ltb_lt; lia).
  apply silent_act; [done| |done]. cbn. apply (slot_mapped i e); [done|done|lia..].
Qed.

Lemma silent_be32_at i e g tail o :
  live i e -> good (g_wins g) e -> 0 <= o -> o + 3 < Slot_Size ->
  silent (be32_at (slot_at (Sock_VA i + Page_Size) tail) o) g (fun _ => True).
Proof.
  intros Hl Hg H0 Ho. unfold be32_at.
  do 4 (eapply silent_bind; [apply (silent_Mem_get i e); [done|done|lia]|intros ? _]). done.
Qed.

Lemma silent_payload i e g tail len :
  live i e -> good (g_wins g) e -> len <= Max_Payload ->
  silent (load_bytes (slot_at (Sock_VA i + Page_Size) tail + 12) len) g (fun _ => True).
Proof.
  intros Hl Hg Hn. apply (silent_collect _ _ _ _ _ _ _ (fun _ => True)). intros j Hj.
  apply silent_act; [done| |done]. cbn. rewrite <- Z.add_assoc.
  apply (slot_mapped i e); [done|done|unfold Max_Payload, Slot_Size in *; lia..].
Qed.

Section drain.
Context (i : nat) (g : ghost) (tail len : Z).
Context (Hlen : len <= Max_Payload).
#[local] Notation slot := (slot_at (Sock_VA i + Page_Size) tail).

Lemma keeps_track id ip e : keeps (track_unresolved id ip) e g.
Proof.
  apply keeps_glue. intros r. destruct (_ =? _); [apply keeps_Track_Pending|apply keeps_ret].
Qed.

Lemma keeps_send_udp ip port e : live i e -> keeps (send_udp i slot len ip port) e g.
Proof.
  intros Hl. unfold send_udp. eapply keeps_run; [intros Hg; by apply (silent_payload i e)|].
  intros data _. apply keeps_get_sk, keeps_glue_last.
Qed.

Lemma keeps_drain_udp ip port e : live i e -> keeps (drain_udp i slot len ip port) e g.
Proof.
  intros Hl. assert (Hf : forall c e', keeps (Flag_Error i c) e' g)
    by (intros; apply keeps_Flag_Error, Hl).
  unfold drain_udp. apply keeps_get_sk. destruct (negb _); [apply Hf|]. apply keeps_gets. cbv zeta.
  destruct (_ || _); [apply Hf|]. destruct (_ =? e_my_ip e).
  - apply keeps_gets. apply keeps_bind.
    + destruct (_ =? _)%nat; [|apply keeps_ret]. apply keeps_glue. intros r. apply keeps_ret.
    + intros [] e' Hk; [apply Hf|].
      apply keeps_bind; [by apply keeps_send_udp, (live_kept _ e)|]. intros. apply keeps_ret.
  - apply keeps_bind; [by apply keeps_send_udp|]. intros rc e' _.
    destruct (negb _); [apply keeps_ret|apply keeps_track].
Qed.

Lemma keeps_drain_tcp e : live i e -> keeps (drain_tcp i slot len) e g.
Proof.
  intros Hl. unfold drain_tcp. apply keeps_get_sk. destruct (_ || _).
  - apply keeps_bind; [apply keeps_Flag_Error, Hl|]. intros. apply keeps_ret.
  - eapply keeps_run; [intros Hg; by apply (silent_payload i e)|]. intros data _.
    apply keeps_glue. intros rc. destruct (negb _); [apply keeps_ret|].
    apply keeps_glue. intros. apply keeps_ret.
Qed.

Lemma keeps_drain_icmp ip e : live i e -> keeps (drain_icmp i slot len ip) e g.
Proof.
  intros Hl. unfold drain_icmp. destruct (_ <? _); [apply keeps_Flag_Error, Hl|].
  apply keeps_get_sk. cbv zeta. destruct (_ =? 0); [apply keeps_Flag_Error, Hl|].
  eapply keeps_run; [intros Hg; by apply (silent_payload i e)|]. intros data _.
  do 2 apply keeps_gets. apply keeps_glue. intros rc.
  destruct (negb _); [apply keeps_ret|]. destruct (_ =? _); [apply keeps_ret|apply keeps_track].
Qed.
End drain.

Lemma keeps_drain_round i e g : live i e -> keeps (drain_round i) e g.
Proof.
  intros Hl. unfold drain_round. cbv zeta.
  apply keeps_io; [done|intros Hg; apply (tx_mapped i e); [done|done|unfold page; lia..]|]. intros head _.
  apply keeps_io; [done|intros Hg; apply (tx_mapped i e); [done|done|unfold page; lia..]|]. intros tail _.
  destruct (_ =? _); [apply keeps_ret|]. apply keeps_io; [done..|]. intros _ _.
  eapply keeps_run; [intros Hg; by apply (silent_Mem_get i e)|]. intros a _.
  eapply keeps_run; [intros Hg; by apply (silent_Mem_get i e)|]. intros b _.
  do 2 (eapply keeps_run; [intros Hg; by apply (silent_be32_at i e)|]; intros ? _).
  apply keeps_get_sk. apply keeps_bind.
  - destruct (_ =? _); [|destruct (_ =? _)].
    + apply keeps_bind; [apply keeps_drain_udp; [lia|done]|]. intros. apply keeps_ret.
    + apply keeps_drain_tcp; [lia|done].
    + apply keeps_bind; [apply keeps_drain_icmp; [lia|done]|]. intros. apply keeps_ret.
  - intros [] e' Hk; [|apply keeps_ret].
    apply keeps_io; [done| |intros; apply keeps_ret].
    intros Hg. apply (tx_mapped i e'); [by eapply live_kept|done|unfold page; lia..].
Qed.

Lemma keeps_Drain_Sock_Tx fuel i e g : live i e -> keeps (Drain_Sock_Tx fuel i) e g.
Proof.
  intros Hl. apply keeps_iterE. intros e' Hk. apply keeps_drain_round. by eapply live_kept.
Qed.

(** ** Callbacks *)

Lemma live_of_used e i w :
  good w e -> (0 < i)%nat -> s_used (sk e i) = true ->
  s_proto (sk e i) <> Proto_Tcp -> live i e.
Proof.
  intros Hg Hi Hu Hp. split_and!; [done..|]. destruct (s_claimed (sk e i)) eqn:Ec; [done|].
  exfalso. by apply Hp, (so_parked _ _ _ (gd_socks _ _ Hg i Hi)).
Qed.

Lemma keeps_good {A} (c : EM A) e g : (good (g_wins g) e -> keeps c e g) -> keeps c e g.
Proof. intros H Hg. by apply H. Qed.

Lemma keeps_later {A} (c : EM A) e e1 g :
  kept e e1 -> good (g_wins g) e1 -> keeps c e1 g ->
  ewp c e1 g (fun _ e' g' => g' = g /\ good (g_wins g) e' /\ kept e e').
Proof.
  intros Hk Hg Hc. eapply ewp_mono; [by apply Hc|]. intros a e2 g2 (-> & Hg2 & Hk2).
  split_and!; [done..|]. by transitivity e1.
Qed.

Lemma keeps_On_Udp_Rx id ip port buf len e g :
  0 < len -> keeps (Aknet_On_Udp_Rx id ip port buf len) e g.
Proof.
  intros Hlen. unfold Aknet_On_Udp_Rx. apply keeps_gets. cbv zeta.
  destruct (_ && _) eqn:E; [|apply keeps_ret]. bool_to_prop.
  eapply keeps_run_last. intros Hg. apply (live_rx _ _ _ _ (Z.to_nat id) e); [|
    |done]; [by apply confined_Enqueue_Rx|].
  apply (live_of_used _ _ (g_wins g)); [done|by eapply id_ok_pos|done|].
  unfold Proto_Udp, Proto_Icmp, Proto_Tcp in *; lia.
Qed.

Lemma keeps_On_Icmp_Rx ip data e g : keeps (Aknet_On_Icmp_Rx ip data) e g.
Proof.
  unfold Aknet_On_Icmp_Rx. destruct (_ || _) eqn:E0; [apply keeps_ret|].
  destruct (negb (nth _ _ _ =? 0)); [apply keeps_ret|]. cbv zeta. apply keeps_gets. destruct (_ && _).
  - apply keeps_io; [done..|]. intros t _.
    apply keeps_bind; [apply keeps_modify; [by intros []|by split]|]. intros. apply keeps_ret.
  - destruct (_ && _) eqn:E; [|apply keeps_ret]. bool_to_prop.
    eapply keeps_run; [|intros; apply keeps_ret]. intros Hg.
    apply (live_rx _ _ _ _ (Z.to_nat (be16_at 4 data)) e); [|
      |done]; [apply confined_Enqueue_Rx; lia|].
    apply (live_of_used _ _ (g_wins g)); [done|by eapply id_ok_pos|done|].
  unfold Proto_Udp, Proto_Icmp, Proto_Tcp in *; lia.
Qed.

Lemma keeps_On_Dns_Reply slot ip e g : keeps (Aknet_On_Dns_Reply slot ip) e g.
Proof.
  unfold Aknet_On_Dns_Reply. apply keeps_modify; cbv zeta.
  - intros [Hs Hl Hr Hn Hd]. destruct (_ && _); [|by split]. split; [done|done| |done|done].
    cbn. by apply Forall_alter.
  - destruct (_ && _); [|done]. split; [done|done| |done|done]. cbn.
    apply list_eq. intros j. rewrite !list_lookup_fmap.
    destruct (decide (j = Z.to_nat slot - 1)%nat) as [->|].
    + rewrite list_lookup_alter_eq. by destruct (e_resolves e !! _).
    + by rewrite list_lookup_alter_ne.
Qed.

Lemma keeps_On_Tcp_Accept id pcb e g : keeps (Aknet_On_Tcp_Accept id pcb) e g.
Proof.
  unfold Aknet_On_Tcp_Accept. apply keeps_gets. cbv zeta. destruct (_ || _); [apply keeps_ret|].
  intros Hg. apply ewp_bind. eapply ewp_mono; [by apply ewp_Alloc_Sock|].
  intros child e1 g1 (-> & Hg1 & Hk1 & _ & Hc). destruct (Nat.eqb_spec child 0) as [_|Hne].
  { apply ewp_ret. by split_and!. }
  destruct (Hc Hne) as [Hin Hu]. apply keeps_later; [done..|].
  pose proof (so_none _ _ _ (gd_socks _ _ Hg1 child ltac:(lia))) as Hnone.
  rewrite Hu in Hnone. destruct (Hnone eq_refl) as (N1 & N2 & N3 & N4).
  apply keeps_get_sk. do 2 (apply keeps_glue; intros ?).
  apply keeps_bind; [apply keeps_upd; [lia| |]|].
  - intros _. by split.
  - split; cbn; [congruence..|done|done|done|done].
  - intros _ e2 _. apply keeps_glue. intros _. apply keeps_get_sk.
    apply keeps_io; [done..|]. intros _ _. apply keeps_ret.
Qed.

Lemma keeps_fail_conn i code e g :
  (0 < i)%nat -> keeps (upd_sk i (fun s => with_conn_fail code (with_conn Conn_Failed s))) e g.
Proof.
  intros Hi. apply keeps_upd; [done| |].
  - intros [H1 H2 H3 H4 H5]; split; cbn; auto; [intros _; unfold Conn_Connecting, Conn_Failed; lia|done].
  - split; cbn; auto; done.
Qed.

Lemma keeps_On_Tcp_Connected id err e g : keeps (Aknet_On_Tcp_Connected id err) e g.
Proof.
  unfold Aknet_On_Tcp_Connected. apply keeps_gets. cbv zeta.
  destruct (_ || _) eqn:E; [apply keeps_ret|]. bool_to_prop.
  destruct (id_ok_pos id e) as [Hi _]; [done|].
  destruct (_ =? 0); [|by apply keeps_fail_conn]. apply keeps_upd; [done| |].
  - intros [H1' H2' H3' H4' H5']; split; cbn; auto.
    intros _. unfold Conn_Connecting, Conn_Failed, Conn_Up. lia.
  - split; cbn; auto; done.
Qed.

Lemma keeps_On_Tcp_Rx id chain e g : keeps (Aknet_On_Tcp_Rx id chain) e g.
Proof.
  unfold Aknet_On_Tcp_Rx. apply keeps_gets. cbv zeta.
  destruct (_ || _) eqn:E; [apply keeps_ret|]. bool_to_prop.
  eapply keeps_run; [|intros; apply keeps_ret]. intros Hg.
  apply (live_rx _ _ _ _ (Z.to_nat id) e); [apply confined_Store_Tcp_Rx| |done].
  split; [by eapply id_ok_pos|done].
Qed.

Lemma keeps_eof_or_owe i e g :
  (0 < i)%nat -> s_used (sk e i) = true -> keeps (eof_or_owe i) e g.
Proof.
  intros Hi Hu. unfold eof_or_owe.
  apply keeps_bind; [apply keeps_upd; [done|sock_fields..]|]. intros _ e1 Hk1. apply keeps_get_sk.
  apply keeps_bind.
  - destruct (s_claimed _) eqn:Ec; [|apply keeps_ret]. eapply keeps_run_last. intros Hg.
    apply (live_rx _ _ _ _ i e1); [apply confined_Enqueue_Eof| |done].
    split_and!; [done| |done]. by apply (kp_socks _ _ Hk1).
  - intros [] e2 _; [apply keeps_ret|]. apply keeps_upd; [done|sock_fields..].
Qed.

Lemma keeps_On_Tcp_Eof id e g : keeps (Aknet_On_Tcp_Eof id) e g.
Proof.
  unfold Aknet_On_Tcp_Eof. apply keeps_gets. cbv zeta.
  destruct (_ || _) eqn:E; [apply keeps_ret|]. bool_to_prop.
  apply keeps_eof_or_owe; [by eapply id_ok_pos|done].
Qed.

Lemma keeps_On_Tcp_Err id err e g : keeps (Aknet_On_Tcp_Err id err) e g.
Proof.
  unfold Aknet_On_Tcp_Err. apply keeps_gets. cbv zeta.
  destruct (_ || _) eqn:E; [apply keeps_ret|]. bool_to_prop.
  destruct (id_ok_pos id e) as [Hi Hle]; [done|].
  apply keeps_bind; [apply keeps_upd; [done|sock_fields..]|]. intros _ e1 Hk1. apply keeps_get_sk.
  destruct (_ =? Conn_Connecting); [by apply keeps_fail_conn|].
  destruct (_ =? Conn_Up); [|apply keeps_ret]. destruct (negb _) eqn:Es; [by apply keeps_fail_conn|].
  bool_to_prop. assert (Hu1 : s_used (sk e1 (Z.to_nat id)) = true) by (by apply (kp_socks _ _ Hk1)).
  apply keeps_bind; [apply keeps_upd; [done| |]|].
  - intros [H1' H2' H3' H4' H5']; split; cbn; auto; [by rewrite Es|done].
  - split; cbn; auto; done.
  - intros _ e2 Hk2. apply keeps_bind; [by apply keeps_Flag_Error|]. intros _ e3 Hk3.
    destruct (s_eof_done _); [apply keeps_ret|]. apply keeps_eof_or_owe; [done|].
    by apply (kp_socks _ _ Hk3), (kp_socks _ _ Hk2).
Qed.

Lemma keeps_On_Tcp_Sent fuel id len e g :
  (0 < len -> g_wins g !! Sock_VA (Z.to_nat id) = Some Ring_Bytes) ->
  keeps (Aknet_On_Tcp_Sent fuel id len) e g.
Proof.
  intros Hm. unfold Aknet_On_Tcp_Sent. apply keeps_gets. cbv zeta.
  destruct (_ && _) eqn:E; [|apply keeps_ret]. bool_to_prop. apply keeps_good. intros Hg.
  apply keeps_Drain_Sock_Tx. destruct (id_ok_pos id e) as [Hi _]; [done|]. split_and!; [done..|].
  destruct (s_claimed _) eqn:Ec; [done|].
  destruct (so_none _ _ _ (gd_socks _ _ Hg (Z.to_nat id) Hi)) as (_ & _ & _ & Hn).
  - by rewrite Ec, andb_false_r.
  - rewrite Hm in Hn; [discriminate|done].
Qed.

Lemma keeps_on_callback fuel c e g :
  callback_ok (g_wins g) c -> keeps (on_callback fuel c) e g.
Proof.
  intros Hc. destruct c; cbn [on_callback callback_ok] in *;
    try (apply keeps_bind; [|intros; apply keeps_ret]).
  - by apply keeps_On_Udp_Rx.
  - apply keeps_On_Icmp_Rx.
  - apply keeps_On_Dns_Reply.
  - apply keeps_On_Tcp_Accept.
  - apply keeps_On_Tcp_Connected.
  - apply keeps_On_Tcp_Rx.
  - apply keeps_On_Tcp_Eof.
  - by apply keeps_On_Tcp_Sent.
  - apply keeps_On_Tcp_Err.
Qed.

Lemma keeps_serve fuel n r e g : keeps (serve fuel n r) e g.
Proof.
  revert r e. induction n as [|n IH]; intros r e; [done|]. cbn [serve].
  apply keeps_io; [done..|]. intros [c|] Hc; [|apply keeps_ret].
  apply keeps_bind; [by apply keeps_on_callback|]. intros. apply IH.
Qed.

Lemma keeps_glue_cb fuel op e g : keeps (glue_cb fuel op) e g.
Proof.
  apply keeps_glue. intros rc. apply keeps_bind; [apply keeps_serve|]. intros. apply keeps_ret.
Qed.

Lemma keeps_Retry_Tcp fuel i e g :
  (0 < i)%nat -> s_used (sk e i) = true -> keeps (Retry_Tcp fuel i) e g.
Proof.
  intros Hi Hu. unfold Retry_Tcp. apply keeps_get_sk. destruct (s_claimed _) eqn:Ec; [|apply keeps_ret].
  cbn [negb]. apply keeps_bind.
  { destruct (_ && _); [apply keeps_glue_cb|apply keeps_ret]. }
  intros _ e1 Hk. apply keeps_get_sk. destruct (s_pend_eof _); [|apply keeps_ret].
  eapply keeps_run.
  - intros Hg. apply (live_rx _ _ _ _ i e1); [apply confined_Enqueue_Eof| |done].
    by apply (live_kept _ e).
  - intros [] _; [|apply keeps_ret]. apply keeps_upd; [done|sock_fields..].
Qed.

(** ** The driver's ring *)

Lemma drv_mapped w e va n :
  good w e -> Drv_Ring_VA <= va -> va + n <= Drv_Ring_VA + Drv_Ring_Bytes -> mapped w va n.
Proof. intros Hg H1 H2. exists Drv_Ring_VA, Drv_Ring_Bytes. by rewrite (gd_drv _ _ Hg). Qed.

Lemma keeps_ring_round fuel e g : keeps (ring_round fuel) e g.
Proof.
  unfold ring_round. assert (Hb : Drv_Ring_Bytes = 20480) by done.
  assert (Hd : forall e' o n, 0 <= o -> o + n <= 20480 -> good (g_wins g) e' ->
            mapped (g_wins g) (Drv_Ring_VA + o) n)
    by (intros e' o n H1 H2 Hg; apply (drv_mapped _ e'); [done|lia|lia]).
  apply keeps_io; [done|intros Hg; rewrite <- (Z.add_0_r Drv_Ring_VA); apply (Hd e); [lia..|done]|].
  intros head _. apply keeps_io; [done|intros Hg; apply (Hd e); [lia..|done]|]. intros tail _.
  destruct (_ =? _); [apply keeps_ret|]. apply keeps_io; [done..|]. intros _ _. apply keeps_gets.
  cbv zeta. apply keeps_good. intros Hg. pose proof (gd_slots _ _ Hg) as Hs.
  pose proof (Z.mod_pos_bound tail (e_ring_slots e) ltac:(lia)) as Hm.
  set (o := 4096 + _ * 2048). assert (Ho : 4096 <= o <= 18432) by (subst o; lia). clearbody o.
  destruct (_ <=? _) eqn:El; bool_to_prop; [lia|].
  apply keeps_io; [done|intros; apply (Hd e); [lia..|done]|]. intros a Ha.
  apply keeps_io; [done|intros; rewrite <- Z.add_assoc; apply (Hd e); [lia..|done]|]. intros b Hb'.
  apply keeps_bind.
  - destruct (_ && _) eqn:E; [|apply keeps_ret]. bool_to_prop.
    eapply keeps_run; [|intros; apply keeps_glue_cb]. intros _.
    apply (silent_collect _ _ _ _ _ _ _ (fun _ => True)). intros j Hj.
    apply silent_act; [done| |done]. cbn. rewrite <- !Z.add_assoc. apply (Hd e); [lia..|done].
  - intros _ e' Hk. apply keeps_io; [done|intros Hg'; apply (Hd e'); [lia..|done]|].
    intros. apply keeps_ret.
Qed.

Lemma keeps_Drain_Ring fuel e g : keeps (Drain_Ring fuel) e g.
Proof. apply keeps_iterE. intros. apply keeps_ring_round. Qed.

Lemma keeps_Free_Pcb proto pcb i e g : keeps (Free_Pcb proto pcb i) e g.
Proof.
  unfold Free_Pcb. destruct (_ =? 0); [apply keeps_ret|].
  do 2 (destruct (_ =? _); [apply keeps_glue; intros; apply keeps_ret|]). apply keeps_ret.
Qed.

Lemma keeps_Poll_Dhcp e g : keeps Poll_Dhcp e g.
Proof.
  unfold Poll_Dhcp. apply keeps_gets. destruct (negb _); [apply keeps_ret|].
  apply keeps_glue. intros b. apply keeps_gets. cbv zeta. destruct (eqb _ _); [apply keeps_ret|].
  apply keeps_io; [done..|]. intros a _. apply keeps_modify; [by intros []|by split].
Qed.

(** ** The tick *)

(** [c] keeps the invariant and reaches [P]. *)
Definition keeps_to {A} (c : EM A) (e : eng) (g : ghost) (P : eng -> Prop) : Prop :=
  good (g_wins g) e ->
  ewp c e g (fun _ e' g' => g' = g /\ good (g_wins g) e' /\ kept e e' /\ P e').

Lemma keeps_to_bind {A B} (c : EM A) (f : A -> EM B) e g (P Q : eng -> Prop) :
  keeps_to c e g P -> (forall a e', kept e e' -> P e' -> keeps_to (f a) e' g Q) ->
  keeps_to (c ≫= f) e g Q.
Proof.
  intros Hc Hf Hg. apply ewp_bind. eapply ewp_mono; [apply Hc, Hg|].
  intros a e' g' (-> & Hg' & Hk & HP). eapply ewp_mono; [by apply Hf|].
  intros b e2 g2 (-> & Hg2 & Hk2 & HQ). split_and!; [done..| |done]. by transitivity e'.
Qed.

Lemma keeps_to_stable {A} (c : EM A) e g (P : eng -> Prop) :
  keeps c e g -> (forall e', kept e e' -> P e') -> keeps_to c e g P.
Proof.
  intros Hc HP Hg. eapply ewp_mono; [by apply Hc|]. intros a e' g' (-> & Hg' & Hk). auto.
Qed.

Lemma keeps_to_good {A} (c : EM A) e g P :
  (good (g_wins g) e -> keeps_to c e g P) -> keeps_to c e g P.
Proof. intros H Hg. by apply H. Qed.

Lemma keeps_to_gets {A B} (f : eng -> A) (k : A -> EM B) e g P :
  keeps_to (k (f e)) e g P -> keeps_to (gets f ≫= k) e g P.
Proof. done. Qed.

Lemma keeps_to_get_sk {B} i (k : Sock_State -> EM B) e g P :
  keeps_to (k (sk e i)) e g P -> keeps_to (get_sk i ≫= k) e g P.
Proof. done. Qed.

(** No connect under way is past its deadline. *)
Definition timely (i : nat) (e : eng) : Prop :=
  s_conn_state (sk e i) = Conn_Connecting -> now <= s_conn_deadline (sk e i).

Lemma timely_kept i e e' : kept e e' -> timely i e -> timely i e'.
Proof.
  intros Hk Ht Hc. destruct (sp_conn _ _ (kp_socks _ _ Hk i) Hc) as [Hc' ->]. by apply Ht.
Qed.

Lemma keeps_to_upd i f e g (P : eng -> Prop) :
  keeps (upd_sk i f) e g -> P (put_sk i f e) -> keeps_to (upd_sk i f) e g P.
Proof. intros Hc HP Hg. destruct (Hc Hg) as (Hg1 & Hg2 & Hk). by split_and!. Qed.

Definition time_out (s : Sock_State) : Sock_State :=
  with_conn_fail Err_Cx_Timeout (with_conn Conn_Failed (with_pcb 0 s)).

Lemma keeps_time_out i e g : (0 < i)%nat -> keeps_to (upd_sk i time_out) e g (timely i).
Proof.
  intros Hi. apply keeps_to_upd.
  - apply keeps_upd; [done| |].
    + intros [H1' H2' H3' H4' H5']; split; cbn; auto; [|done].
      intros _. unfold Conn_Connecting, Conn_Failed. lia.
    + split; cbn; auto; done.
  - unfold timely. destruct (decide (length (e_socks e) < i)%nat) as [Ho|Ho].
    + by rewrite put_outside, sk_outside.
    + rewrite sk_put, Nat.eqb_refl by lia. done.
Qed.

Lemma keeps_expire_connect i e g : (0 < i)%nat -> keeps_to (expire_connect i) e g (timely i).
Proof.
  intros Hi. unfold expire_connect. intros Hg. apply ewp_bind, ewp_gets.
  destruct (_ =? _) eqn:E; bool_to_prop.
  2: { apply ewp_ret. split_and!; [done..|]. intros Hc. by destruct E. }
  apply ewp_bind, ewp_io; [done|]. intros t Ht. cbn in Ht. rewrite charge_unlisted by done.
  destruct (_ <? _) eqn:El; bool_to_prop.
  2: { apply ewp_ret. split_and!; [done..|]. intros _. lia. }
  apply (keeps_to_bind _ (fun _ => upd_sk i time_out) _ _ (fun _ => True) (timely i)); [| |done].
  - apply keeps_to_stable; [apply keeps_Free_Pcb|done].
  - intros _ e1 _ _. by apply keeps_time_out.
Qed.

Lemma keeps_tick_sock fuel i e g : (0 < i)%nat -> keeps_to (tick_sock fuel i) e g (timely i).
Proof.
  intros Hi. apply keeps_to_good. intros Hg. unfold tick_sock.
  apply (keeps_to_get_sk i). destruct (_ && _) eqn:E; bool_to_prop.
  - eapply keeps_to_bind; [by apply keeps_expire_connect|]. intros _ e1 Hk1 Ht1.
    eapply (keeps_to_bind _ _ _ _ (timely i)).
    + apply keeps_to_stable; [|intros; by apply (timely_kept _ e1)].
      apply keeps_Retry_Tcp; [done|]. by apply (kp_socks _ _ Hk1).
    + intros _ e2 Hk2 Ht2. apply (keeps_to_get_sk i). apply keeps_to_stable; [|intros; by apply (timely_kept _ e2)].
      destruct (_ && _) eqn:E2; [|apply keeps_ret]. bool_to_prop.
      apply keeps_Drain_Sock_Tx. split_and!; [done| |done].
      by apply (kp_socks _ _ Hk2), (kp_socks _ _ Hk1).
  - apply keeps_to_stable; [apply keeps_ret|]. intros e' Hk. apply (timely_kept _ e); [done|].
    intros Hc. destruct (so_conn _ _ _ (gd_socks _ _ Hg i Hi) Hc) as [Hu Hp].
    rewrite Hu, Hp in E. done.
Qed.

Lemma keeps_Tick_Tcp fuel e g :
  keeps_to (Tick_Tcp fuel) e g (fun e' => forall i, (0 < i)%nat -> timely i e').
Proof.
  unfold Tick_Tcp. apply keeps_to_gets.
  assert (H : forall n i e0, (0 < i)%nat -> (forall j, (0 < j < i)%nat -> timely j e0) ->
    keeps_to (for_each n i (tick_sock fuel)) e0 g (fun e' => forall j, (0 < j < i + n)%nat -> timely j e')).
  { induction n as [|n IH]; intros i e0 Hi Hd; cbn [for_each].
    - apply keeps_to_stable; [apply keeps_ret|]. intros e' Hk j Hj. apply (timely_kept _ e0); [done|].
      apply Hd. lia.
    - eapply keeps_to_bind; [by apply keeps_tick_sock|]. intros _ e1 Hk1 Ht.
      replace (i + S n)%nat with (S i + n)%nat by lia. apply IH; [lia|]. intros j Hj.
      destruct (decide (j = i)) as [->|]; [done|]. apply (timely_kept _ e0); [done|]. apply Hd. lia. }
  intros Hg. eapply ewp_mono; [apply H; [lia|intros; lia|done]|].
  intros a e' g' (-> & Hg' & Hk & Ht). split_and!; [done..|]. intros i Hi.
  destruct (decide (i <= length (e_socks e))%nat); [apply Ht; lia|].
  apply (timely_kept _ e); [done|]. unfold timely. by rewrite sk_outside by lia.
Qed.

End keep.
