(* ===== verification/EngineLedger.v ===== *)
(** * The books of the engine

    What the engine owes ([owing]: the reply handles it has parked) and what
    it holds ([holding]: the capabilities of its sockets), and a specification
    of subprograms in terms of both: [settles c e g n k] says that [c] takes
    in [n] reply handles and [k] capabilities, and accounts for every one:
    answered or parked, deleted or held. *)
From S2P Require Import Prelude CInt Prog Ring RingInv RingSafe SockBridge SockBridgeSpec Engine EngineLogic EngineInv EngineKeep.

Definition owing (e : eng) : list Z :=
  (s_reply_stash <$> e_socks e) ++ (r_reply <$> e_resolves e) ++ [e_ping_reply e].
Definition holding (e : eng) : list Z :=
  (s_ring_cap <$> e_socks e) ++ (s_ntfn_cap <$> e_socks e).

(** ** Counting *)

Lemma tally_app c l1 l2 : tally c (l1 ++ l2) = tally c l1 + tally c l2.
Proof. induction l1 as [|x l IH]; cbn [app]; [done|]. rewrite !tally_cons, IH. lia. Qed.

Lemma one_0 c : c <> 0 -> one 0 c = 0.
Proof. intros H. unfold one. destruct (Z.eqb_spec 0 c); [lia|done]. Qed.

Lemma tally_ext c l1 l2 :
  c <> 0 -> (forall i, nth i l1 0 = nth i l2 0) -> tally c l1 = tally c l2.
Proof.
  intros Hc. revert l2. induction l1 as [|x l1 IH]; intros l2 H.
  - induction l2 as [|y l2 IH2]; [done|]. rewrite tally_cons. specialize (H 0%nat) as H0. cbn in H0. subst y.
    rewrite <- IH2, one_0; [done|done|]. intros i. specialize (H (S i)). cbn in *. by destruct i.
  - destruct l2 as [|y l2].
    + rewrite tally_cons, (IH []); [|intros i; specialize (H (S i)); cbn in *; by destruct i].
      specialize (H 0%nat). cbn in H. subst x. rewrite one_0 by done. done.
    + rewrite !tally_cons, (IH l2); [|intros i; apply (H (S i))]. specialize (H 0%nat). cbn in H. by subst.
Qed.

Lemma tally_alter {A} c (f : A -> Z) g l i x :
  l !! i = Some x ->
  tally c (f <$> alter g i l) = tally c (f <$> l) - one (f x) c + one (f (g x)) c.
Proof.
  revert i. induction l as [|y l IH]; intros [|i] H; try discriminate.
  - injection H as ->. cbn [alter list_alter fmap list_fmap]. rewrite !tally_cons. lia.
  - cbn [alter list_alter fmap list_fmap]. rewrite !tally_cons. rewrite (IH i) by done. lia.
Qed.

(** ** The books after an update *)

Section books.
Context (hnd cap : Z) (Hhnd : hnd <> 0) (Hcap : cap <> 0).

Definition owed (e : eng) : Z := tally hnd (owing e).
Definition held_caps (e : eng) : Z := tally cap (holding e).

Definition caps_of (s : Sock_State) : Z := one (s_ring_cap s) cap + one (s_ntfn_cap s) cap.

Lemma nth_field (f : Sock_State -> Z) e i : f zero_state = 0 ->
  nth i (f <$> e_socks e) 0 = f (sk e (S i)).
Proof.
  intros Hf. unfold sk. cbn. rewrite Nat.sub_0_r, !nth_lookup, list_lookup_fmap.
  by destruct (e_socks e !! i).
Qed.

Lemma owed_kept e e' : kept e e' -> owed e' = owed e.
Proof.
  intros [Hs _ Hr _ Hp]. unfold owed, owing. rewrite !tally_app, Hr, Hp. f_equal.
  apply tally_ext; [done|]. intros i. rewrite !nth_field by done. apply Hs.
Qed.

Lemma held_kept e e' : kept e e' -> held_caps e' = held_caps e.
Proof.
  intros [Hs _ _ _ _]. unfold held_caps, holding. rewrite !tally_app.
  f_equal; (apply tally_ext; [done|]); intros i; rewrite !nth_field by done; apply Hs.
Qed.

Lemma sk_lookup e i : (0 < i <= length (e_socks e))%nat -> e_socks e !! (i - 1)%nat = Some (sk e i).
Proof.
  intros Hi. unfold sk. rewrite nth_lookup.
  destruct (lookup_lt_is_Some_2 (e_socks e) (i - 1)) as [s ->]; [lia|done].
Qed.

Lemma owed_put i f e : (0 < i <= length (e_socks e))%nat ->
  owed (put_sk i f e) = owed e - one (s_reply_stash (sk e i)) hnd + one (s_reply_stash (f (sk e i))) hnd.
Proof.
  intros Hi. unfold owed, owing, put_sk, set_socks; cbn [e_socks e_resolves e_ping_reply]. rewrite !tally_app.
  rewrite (tally_alter _ _ _ _ _ (sk e i)) by (by apply sk_lookup). lia.
Qed.

Lemma held_put i f e : (0 < i <= length (e_socks e))%nat ->
  held_caps (put_sk i f e) = held_caps e - caps_of (sk e i) + caps_of (f (sk e i)).
Proof.
  intros Hi. unfold held_caps, holding, put_sk, set_socks, caps_of; cbn [e_socks]. rewrite !tally_app.
  rewrite !(tally_alter _ _ _ _ _ (sk e i)) by (by apply sk_lookup). lia.
Qed.

(** ** Subprograms that settle *)

Context (now : Z).
#[local] Notation keeps := (keeps hnd cap now).
#[local] Notation ewp := (ewp hnd cap now).

(** From [e] and the ledger [g], [n] handles and [k] capabilities more are
    accounted for. *)
Definition balanced (e : eng) (g : ghost) (n k : Z) (e' : eng) (g' : ghost) : Prop :=
  good (g_wins g') e' /\
  owed e' + g_replied g' = owed e + g_replied g + n /\
  held_caps e' + g_deleted g' = held_caps e + g_deleted g + k.

Definition settles {A} (c : EM A) (e : eng) (g : ghost) (n k : Z) : Prop :=
  good (g_wins g) e -> ewp c e g (fun _ e' g' => balanced e g n k e' g').

Lemma ewp_settles {A} (c : EM A) e g n k Q :
  settles c e g n k -> good (g_wins g) e ->
  (forall a e' g', balanced e g n k e' g' -> Q a e' g') -> ewp c e g Q.
Proof. intros Hc Hg HQ. eapply ewp_mono; [by apply Hc|done]. Qed.

Lemma balanced_kept e e1 g n k e' g' :
  kept e e1 -> balanced e1 g n k e' g' -> balanced e g n k e' g'.
Proof. intros Hk. unfold balanced. by rewrite (owed_kept _ _ Hk), (held_kept _ _ Hk). Qed.

Lemma settles_keep {A B} (c : EM A) (f : A -> EM B) e g n k :
  keeps c e g -> (forall a e', kept e e' -> settles (f a) e' g n k) -> settles (c ≫= f) e g n k.
Proof.
  intros Hc Hf Hg. apply ewp_bind. eapply ewp_mono; [by apply Hc|]. intros a e1 g1 (-> & Hg1 & Hk).
  eapply ewp_mono; [by apply Hf|]. intros b e2 g2. by apply balanced_kept.
Qed.

Lemma settles_bind {A B} (c : EM A) (f : A -> EM B) e g n1 k1 n2 k2 :
  settles c e g n1 k1 -> (forall a e' g', settles (f a) e' g' n2 k2) ->
  settles (c ≫= f) e g (n1 + n2) (k1 + k2).
Proof.
  intros Hc Hf Hg. apply ewp_bind. eapply ewp_mono; [by apply Hc|]. intros a e1 g1 (Hg1 & H1 & H2).
  eapply ewp_mono; [by apply Hf|]. intros b e2 g2 (Hg2 & H3 & H4). split_and!; [done|lia..].
Qed.

Lemma settles_keeps {A} (c : EM A) e g : keeps c e g -> settles c e g 0 0.
Proof.
  intros Hc Hg. eapply ewp_mono; [by apply Hc|]. intros a e1 g1 (-> & Hg1 & Hk).
  split_and!; [done|rewrite (owed_kept _ _ Hk); lia|rewrite (held_kept _ _ Hk); lia].
Qed.

Lemma settles_gets {A B} (f : eng -> A) (k : A -> EM B) e g n m :
  settles (k (f e)) e g n m -> settles (gets f ≫= k) e g n m.
Proof. done. Qed.

Lemma settles_get_sk {B} i (k : Sock_State -> EM B) e g n m :
  settles (k (sk e i)) e g n m -> settles (get_sk i ≫= k) e g n m.
Proof. done. Qed.

Lemma settles_glue {B} op (k : Z -> EM B) e g n m :
  (forall r, settles (k r) e g n m) -> settles (glue_call op ≫= k) e g n m.
Proof. intros Hk Hg. apply ewp_bind, ewp_glue. intros r. by apply Hk. Qed.

Lemma settles_io {X B} (v : ev X) (k : X -> EM B) e g n m :
  unlisted v = true -> (good (g_wins g) e -> permitted (g_wins g) v) ->
  (forall x, allowed now (g_wins g) v x -> settles (k x) e g n m) -> settles (io v ≫= k) e g n m.
Proof.
  intros Hu Hp Hk Hg. apply ewp_bind, ewp_io; [auto|]. intros x Hx.
  rewrite charge_unlisted by done. by apply Hk.
Qed.

(** An answer to the handle [c]. *)
Definition replied (c : Z) (g : ghost) : ghost :=
  Ghost (g_replied g + one c hnd) (g_deleted g) (g_wins g).

Lemma ewp_Reply_To c st a e g Q : Q tt e (replied c g) -> ewp (Reply_To c st a) e g Q.
Proof.
  intros H. apply ewp_bind, ewp_io; [done|]. intros x _. apply ewp_ret.
  unfold charge; cbn. by rewrite Z.add_0_r.
Qed.

Lemma settles_Reply st a e g h :
  e_reply_h e = h -> settles (Reply st a) e g (one h hnd) 0.
Proof.
  intros <- Hg. apply ewp_bind, ewp_gets, ewp_Reply_To. split_and!; cbn; [done|lia..].
Qed.

Lemma settles_Reply4 st a b c e g h :
  e_reply_h e = h -> settles (Reply4 st a b c) e g (one h hnd) 0.
Proof.
  intros <- Hg. apply ewp_bind, ewp_gets, ewp_bind, ewp_io; [done|]. intros x _. apply ewp_ret.
  split_and!; cbn; [done|lia..].
Qed.

Lemma settles_reply_if_owed st e g h :
  e_reply_h e = h -> settles (reply_if_owed st) e g (one h hnd) 0.
Proof.
  intros Hh. apply settles_gets. rewrite Hh. destruct (Z.eqb_spec h 0) as [->|].
  - intros Hg. apply ewp_ret. rewrite one_0 by done. split_and!; [done|lia..].
  - by apply settles_Reply.
Qed.

Definition deleted (l : list Z) (g : ghost) : ghost :=
  Ghost (g_replied g) (g_deleted g + tally cap l) (g_wins g).

Lemma ewp_Cap_Delete c e g Q : Q tt e (deleted [c] g) -> ewp (Cap_Delete' c) e g Q.
Proof.
  intros H. apply ewp_bind, ewp_io; [done|]. intros x _. apply ewp_ret.
  unfold charge, deleted in *; cbn in *. by rewrite !Z.add_0_r in *.
Qed.

Lemma deleted_nil g : deleted [] g = g.
Proof. destruct g. unfold deleted; cbn. by rewrite Z.add_0_r. Qed.

Lemma deleted_app l1 l2 g : deleted l2 (deleted l1 g) = deleted (l1 ++ l2) g.
Proof. unfold deleted; cbn. rewrite tally_app. f_equal. lia. Qed.

Lemma ewp_drop_caps ring ntf e g Q :
  Q tt e (deleted [ring; ntf] g) -> ewp (drop_caps ring ntf) e g Q.
Proof.
  intros H. assert (H0 : forall g, deleted [0] g = g).
  { intros g0. unfold deleted; cbn. rewrite one_0 by done. destruct g0; cbn. f_equal; lia. }
  rewrite <- (deleted_app [ring] [ntf]) in H. apply ewp_bind.
  destruct (Z.eqb_spec ring 0) as [->|]; [rewrite H0 in H; apply ewp_ret|apply ewp_Cap_Delete];
    (destruct (Z.eqb_spec ntf 0) as [->|]; [rewrite H0 in H; by apply ewp_ret|by apply ewp_Cap_Delete]).
Qed.

(** Both capabilities are given up and the request is refused. *)
Lemma settles_refuse ring ntf st a e g h :
  e_reply_h e = h ->
  settles (drop_caps ring ntf ≫= fun _ => Reply st a) e g (one h hnd) (tally cap [ring; ntf]).
Proof.
  intros Hh Hg. apply ewp_bind, ewp_drop_caps. eapply ewp_mono; [by apply settles_Reply|].
  intros b e' g' (H1 & H2 & H3). cbn in *. split_and!; [done|lia..].
Qed.
End books.
