(* ===== verification/EngineOps.v ===== *)
(** * The engine's operations balance the books

    Each operation on the service endpoint answers its request or parks its
    reply handle, and takes charge of the capabilities it was sent: they end
    up with a socket or are deleted, on every exit. *)
From S2P Require Import Prelude CInt Prog Ring RingInv RingSafe SockBridge SockBridgeSpec Engine EngineLogic EngineInv EngineKeep EngineLedger.

(** ** Windows *)

Lemma Sock_VA_inj i j : (0 < i)%nat -> (0 < j)%nat -> Sock_VA i = Sock_VA j -> i = j.
Proof. unfold Sock_VA, Sock_VA_Stride. lia. Qed.

Lemma Sock_VA_drv i : Sock_VA i <> Drv_Ring_VA.
Proof. unfold Sock_VA, Sock_VA_Base, Sock_VA_Stride, Drv_Ring_VA. lia. Qed.

Lemma buffer_unmapped w e : good w e -> w !! Buf_Win_VA = None.
Proof.
  intros Hg. change Buf_Win_VA with (Sock_VA (S (Z.to_nat Max_Sock_Ids))).
  assert (Hi : (0 < S (Z.to_nat Max_Sock_Ids))%nat) by lia.
  destruct (so_none _ _ _ (gd_socks _ _ Hg _ Hi)) as (_ & _ & _ & H); [|done].
  rewrite sk_outside; [done|]. pose proof (gd_len _ _ Hg). lia.
Qed.

Lemma sock_ok_elsewhere w i j s v :
  (0 < i)%nat -> (0 < j)%nat -> i <> j -> sock_ok w j s -> sock_ok (partial_alter v (Sock_VA i) w) j s.
Proof.
  intros Hi Hj Hne [H1 H2 H3 H4 H5].
  assert (Hl : partial_alter v (Sock_VA i) w !! Sock_VA j = w !! Sock_VA j).
  { apply lookup_partial_alter_ne. intros H. by apply Hne, Sock_VA_inj. }
  split; rewrite ?Hl; auto.
Qed.

(** A socket's window changes together with its entry. *)
Lemma put_window_good w i f e v :
  good w e -> (0 < i <= length (e_socks e))%nat ->
  sock_ok (partial_alter v (Sock_VA i) w) i (f (sk e i)) ->
  good (partial_alter v (Sock_VA i) w) (put_sk i f e).
Proof.
  intros [Hs Hl Hr Hn Hd] Hi Hf. split; [|by cbn; rewrite length_alter|done|done|].
  - intros j Hj. rewrite sk_put by lia. destruct (Nat.eqb_spec j i) as [->|]; [done|].
    apply sock_ok_elsewhere; [lia|lia|lia|auto].
  - rewrite lookup_partial_alter_ne; [done|]. apply Sock_VA_drv.
Qed.

(** [e] and [e'] differ in fields the invariant and the books do not read. *)
Record same_books (e e' : eng) : Prop := {
  sb_socks : e_socks e' = e_socks e;
  sb_res : e_resolves e' = e_resolves e;
  sb_slots : e_ring_slots e' = e_ring_slots e }.

Lemma same_good w e e' : same_books e e' -> good w e -> good w e'.
Proof.
  intros [H1 H2 H3] [Hs Hl Hr Hn Hd]. split; rewrite ?H1, ?H2, ?H3; try done.
  intros i Hi. unfold sk. rewrite H1. by apply Hs.
Qed.

Lemma put_good' w i f e :
  good w e -> (0 < i)%nat -> sock_ok w i (f (sk e i)) -> good w (put_sk i f e).
Proof. intros Hg Hi Hf. by apply put_good. Qed.

Section ops.
Context (hnd cap now : Z) (Hhnd : hnd <> 0) (Hcap : cap <> 0).
#[local] Notation keeps := (keeps hnd cap now).
#[local] Notation silent := (silent hnd cap now).
#[local] Notation ewp := (ewp hnd cap now).
#[local] Notation settles := (settles hnd cap now).
#[local] Notation owed := (owed hnd).
#[local] Notation held_caps := (held_caps cap).
#[local] Notation one_h h := (one h hnd).

(** ** Bind *)

Lemma keeps_bind_pcb i port e g : (0 < i)%nat -> keeps (bind_pcb i port) e g.
Proof.
  intros Hi. unfold bind_pcb. apply keeps_get_sk. apply keeps_bind.
  { destruct (_ =? _); apply keeps_glue_last. }
  intros rc e1 _. destruct (_ =? _); [|apply keeps_ret].
  apply keeps_bind; [apply keeps_upd; [done|sock_fields..]|]. intros. apply keeps_ret.
Qed.

Lemma keeps_Bind_Ephemeral i e g : (0 < i)%nat -> keeps (Bind_Ephemeral i) e g.
Proof.
  intros Hi. unfold Bind_Ephemeral. apply keeps_gets. destruct (find_port _ _ _ _ _); [|apply keeps_ret].
  apply keeps_bind; [apply keeps_modify; [by intros []|by split]|]. intros. by apply keeps_bind_pcb.
Qed.

Lemma settles_Bind m i e g h :
  (0 < i)%nat -> e_reply_h e = h -> settles (Handle_Sock_Bind m i) e g (one_h h) 0.
Proof.
  intros Hi Hh. unfold Handle_Sock_Bind. cbv zeta. apply settles_get_sk.
  destruct (_ || _); [by apply settles_Reply|]. destruct (_ =? 0).
  - apply settles_keep; [done|done|by apply keeps_Bind_Ephemeral|]. intros [] e1 Hk; [apply settles_get_sk|];
      apply settles_Reply; by rewrite (kp_reply _ _ Hk).
  - apply settles_gets. destruct (Port_In_Use _ _ _ _); [by apply settles_Reply|].
    apply settles_keep; [done|done|by apply keeps_bind_pcb|]. intros [] e1 Hk;
      apply settles_Reply; by rewrite (kp_reply _ _ Hk).
Qed.

(** ** Connect *)

Definition connecting (ip port t : Z) (s : Sock_State) : Sock_State :=
  with_deadline t (with_conn Conn_Connecting (with_conn_fail 0 (with_peer ip port s))).

Lemma put_put i f f' e : put_sk i f (put_sk i f' e) = put_sk i (fun s => f (f' s)) e.
Proof.
  unfold put_sk, set_socks; cbn [e_socks]. f_equal. apply list_eq. intros j.
  destruct (decide (j = i - 1)%nat) as [->|].
  - rewrite !list_lookup_alter_eq. by destruct (e_socks e !! _).
  - by rewrite !list_lookup_alter_ne.
Qed.

Lemma put_books w i f e :
  good w e -> (0 < i <= length (e_socks e))%nat -> sock_ok w i (f (sk e i)) ->
  caps_of cap (f (sk e i)) = caps_of cap (sk e i) ->
  good w (put_sk i f e) /\
  owed (put_sk i f e) = owed e - one_h (s_reply_stash (sk e i)) + one_h (s_reply_stash (f (sk e i))) /\
  held_caps (put_sk i f e) = held_caps e.
Proof.
  intros Hg Hi Hf Hc. split_and!; [apply put_good'; [done|lia|done]|by apply owed_put|].
  rewrite held_put by done. lia.
Qed.

Lemma settles_start_connect i ip port e g h :
  live i e -> s_proto (sk e i) = Proto_Tcp -> s_reply_stash (sk e i) = 0 ->
  (i <= length (e_socks e))%nat -> e_reply_h e = h ->
  settles (start_connect i ip port) e g (one_h h) 0.
Proof.
  intros (Hi & Hu & Hc) Hp Hst Hle Hh Hg. unfold start_connect.
  apply ewp_bind, ewp_modify, ewp_bind, ewp_io; [done|]. intros t _. rewrite charge_unlisted by done.
  apply ewp_bind, ewp_modify, ewp_bind, ewp_gets, ewp_bind, ewp_glue. intros rc.
  set (d := u64 (t + Tcp_Cx_Timeout)). set (e1 := set_socks _ _).
  assert (He : e1 = put_sk i (connecting ip port d) e) by apply (put_put i (with_deadline d)).
  clearbody e1. subst e1.
  pose proof (gd_socks _ _ Hg i Hi) as [O1 O2 O3 O4 O5]. destruct (negb _).
  - apply ewp_bind, ewp_modify. change (set_socks _ _) with (put_sk i (with_conn Conn_Idle) (put_sk i (connecting ip port d) e)).
    rewrite put_put. destruct (put_books (g_wins g) i (fun s => with_conn Conn_Idle (connecting ip port d s)) e)
      as (K1 & K2 & K3); [done|lia|split; cbn; auto; by rewrite Hst|done|].
    eapply ewp_mono; [by apply (settles_Reply hnd cap now _ _ _ _ h)|]. intros a e' g' (H1 & H2 & H3).
    cbn [s_reply_stash with_stash with_conn connecting with_deadline with_conn_fail with_peer] in K2. split_and!; [done|lia..].
  - apply ewp_bind, ewp_gets, ewp_bind, ewp_modify, ewp_modify. cbn [e_reply_h put_sk set_socks]. rewrite Hh.
    change (set_socks _ _) with (put_sk i (with_stash h) (put_sk i (connecting ip port d) e)). rewrite put_put.
    destruct (put_books (g_wins g) i (fun s => with_stash h (connecting ip port d s)) e)
      as (K1 & K2 & K3); [done|lia| |done|].
    + split; cbn; auto; [by rewrite Hu, Hc|]. intros _. unfold Conn_Connecting, Conn_Failed. lia.
    + cbn [s_reply_stash with_stash with_conn connecting with_deadline with_conn_fail with_peer] in K2. rewrite Hst, (one_0 hnd) in K2 by done.
      set (e2 := put_sk _ _ _) in *. split_and!; [by apply (same_good _ e2)| |].
      * change (owed (set_reply_h 0 e2)) with (owed e2). lia.
      * change (held_caps (set_reply_h 0 e2)) with (held_caps e2). lia.
Qed.

Lemma used_range e i : s_used (sk e i) = true -> (i <= length (e_socks e))%nat.
Proof.
  intros Hu. destruct (decide (i <= length (e_socks e))%nat); [done|].
  rewrite sk_outside in Hu by lia. done.
Qed.

(** The TCP socket [i] can start to connect: it is live and owes no reply. *)
Record idle_tcp (i : nat) (e : eng) : Prop := {
  it_live : live i e;
  it_proto : s_proto (sk e i) = Proto_Tcp;
  it_stash : s_reply_stash (sk e i) = 0 }.

Lemma idle_tcp_kept i e e' : kept e e' -> idle_tcp i e -> idle_tcp i e'.
Proof.
  intros Hk [Hl Hp Hs]. pose proof (kp_socks _ _ Hk i) as Hki. pose proof Hl as (_ & Hu & _).
  split; [by eapply live_kept|by rewrite (sp_proto _ _ Hki)|by rewrite (sp_stash _ _ Hki)].
Qed.

Lemma settles_start i ip port e g h :
  idle_tcp i e -> e_reply_h e = h -> settles (start_connect i ip port) e g (one_h h) 0.
Proof.
  intros [Hl Hp Hs] Hh. apply settles_start_connect; try done. by apply used_range, Hl.
Qed.

Lemma settles_connect_tcp i ip port e g h :
  idle_tcp i e -> e_reply_h e = h -> settles (connect_tcp i ip port) e g (one_h h) 0.
Proof.
  intros Ht Hh. destruct (it_live _ _ Ht) as [Hi _]. unfold connect_tcp. apply settles_get_sk.
  destruct (_ || _); [by apply settles_Reply|].
  apply settles_keep; [done|done|destruct (s_bound _); [apply keeps_ret|by apply keeps_Bind_Ephemeral]|].
  intros ok e1 Hk1. pose proof (kp_reply _ _ Hk1) as Hr1. pose proof (idle_tcp_kept _ _ _ Hk1 Ht) as Ht1.
  destruct (negb ok); [apply settles_Reply; congruence|].
  destruct (negb _); [apply settles_start; [done|congruence]|].
  apply settles_glue. intros pcb.
  apply settles_keep; [done|done|apply keeps_upd; [done|sock_fields..]|]. intros _ e2 Hk2.
  pose proof (kp_reply _ _ Hk2) as Hr2. destruct (_ =? 0); [apply settles_Reply; congruence|].
  apply settles_get_sk, settles_glue. intros rc.
  destruct (negb _); [apply settles_Reply; congruence|].
  apply settles_start; [by eapply idle_tcp_kept|congruence].
Qed.

(** At the start of a round only a connect under way is owed. *)
Definition quiet (e : eng) : Prop :=
  (forall i, (0 < i)%nat -> s_reply_stash (sk e i) <> 0 -> s_conn_state (sk e i) = Conn_Connecting) /\
  (e_ping_reply e <> 0 -> e_ping_pending e = true).

Lemma settles_Connect m i e g h :
  live i e -> quiet e -> e_reply_h e = h -> settles (Handle_Sock_Connect m i) e g (one_h h) 0.
Proof.
  intros Hl [Hq _] Hh. destruct Hl as (Hi & Hu & Hc). unfold Handle_Sock_Connect. cbv zeta.
  apply settles_get_sk. destruct (_ || _); [by apply settles_Reply|].
  destruct (_ =? Proto_Tcp) eqn:Ep; bool_to_prop.
  - destruct (decide (s_reply_stash (sk e i) = 0)) as [Hs|Hs].
    + by apply settles_connect_tcp.
    + unfold connect_tcp. apply settles_get_sk. rewrite (Hq i Hi Hs).
      destruct (s_listening _); by apply settles_Reply.
  - apply settles_keep; [done|done|destruct (_ =? _); [apply keeps_glue_last|apply keeps_ret]|].
    intros rc e1 Hk1. pose proof (kp_reply _ _ Hk1) as Hr1.
    destruct (negb _); [apply settles_Reply; congruence|].
    apply settles_keep; [done|done|apply keeps_upd; [done|sock_fields..]|]. intros _ e2 Hk2.
    pose proof (kp_reply _ _ Hk2) as Hr2. apply settles_Reply; congruence.
Qed.

Lemma settles_Listen i e g h :
  (0 < i)%nat -> e_reply_h e = h -> settles (Handle_Sock_Listen i) e g (one_h h) 0.
Proof.
  intros Hi Hh. unfold Handle_Sock_Listen. apply settles_get_sk.
  destruct (_ || _); [by apply settles_Reply|]. apply settles_io; [done..|]. intros r _.
  destruct (negb _); [by apply settles_Reply|].
  apply settles_keep; [done|done|apply keeps_upd; [done|sock_fields..]|]. intros _ e2 Hk2.
  pose proof (kp_reply _ _ Hk2) as Hr2. apply settles_Reply; congruence.
Qed.

Lemma settles_Poll fuel i e g h :
  live i e -> e_reply_h e = h -> settles (Handle_Sock_Poll fuel i) e g (one_h h) 0.
Proof.
  intros Hl Hh. pose proof Hl as (Hi & Hu & _). unfold Handle_Sock_Poll. apply settles_get_sk.
  destruct (s_listening _); [apply settles_gets; by apply settles_Reply4|].
  apply settles_keep; [done|done|by apply keeps_Retry_Tcp|]. intros _ e1 Hk.
  assert (Hl1 : live i e1) by (by eapply live_kept).
  assert (Hr : forall o, 0 <= o <= Ring_Bytes - 8 -> good (g_wins g) e1 ->
    permitted (g_wins g) (Ld64 (Sock_VA i + o))) by (intros; by apply (live_ld64 i e1)).
  cbv zeta. change (Ring_Bytes - 8) with 8184 in Hr. unfold Page_Size.
  apply settles_io; [done|rewrite <- (Z.add_0_r (Sock_VA i)); apply Hr; lia|]. intros h0 _.
  apply settles_io; [done|apply Hr; lia|]. intros t0 _.
  apply settles_io; [done|apply Hr; lia|]. intros h1 _.
  apply settles_io; [done|rewrite <- Z.add_assoc; apply Hr; lia|]. intros t1 _.
  apply settles_get_sk. apply settles_Reply4. by rewrite (kp_reply _ _ Hk).
Qed.

(** ** Rings that arrive and go *)

Definition rings_mapped (i : nat) (g : ghost) : Prop := g_wins g !! Sock_VA i = Some Ring_Bytes.

Lemma silent_forP n j body g :
  (forall k, j <= k < j + Z.of_nat n -> silent (body k) g (fun _ => True)) ->
  silent (forP n j body) g (fun _ => True).
Proof.
  revert j. induction n as [|n IH]; intros j Hb; [done|]. cbn [forP].
  eapply silent_bind; [apply Hb; lia|]. intros _ _. apply IH. intros k Hk. apply Hb. lia.
Qed.

Lemma silent_reset_rings i g :
  rings_mapped i g -> silent (reset_rings (Sock_VA i)) g (fun _ => True).
Proof.
  intros Hm. assert (Hst : forall o v, 0 <= o <= 8184 -> silent (act (St64 (Sock_VA i + o) v)) g (fun _ => True)).
  { intros o v Ho. apply silent_act; [done| |done]. cbn. exists (Sock_VA i), Ring_Bytes.
    change Ring_Bytes with 8192. split_and!; [done|lia..]. }
  eapply silent_bind; [|intros _ _]; apply silent_forP; intros k Hk; [|rewrite <- Z.add_assoc];
    apply Hst; unfold Page_Size; lia.
Qed.

(** The ledger after a system call that maps. *)
Definition mapped_at (va len r : Z) (g : ghost) : ghost :=
  Ghost (g_replied g) (g_deleted g) (if r =? 0 then <[va := len]> (g_wins g) else g_wins g).

Lemma ewp_Mem_Map c va off len fl e g Q :
  (forall r, Q r e (mapped_at va len r g)) -> ewp (io (Mem_Map c va off len fl)) e g Q.
Proof.
  intros H. apply ewp_io; [done|]. intros r _. unfold charge; cbn. rewrite !Z.add_0_r. apply H.
Qed.

Lemma mapped_at_fail va len r g : r <> 0 -> mapped_at va len r g = g.
Proof. intros H. unfold mapped_at. destruct (Z.eqb_spec r 0); [done|by destruct g]. Qed.

(** A socket entry that takes the mapped rings in charge. *)
Lemma claim_books w i f e :
  good w e -> (0 < i <= length (e_socks e))%nat ->
  s_used (sk e i) && s_claimed (sk e i) = false ->
  sock_ok (<[Sock_VA i := Ring_Bytes]> w) i (f (sk e i)) ->
  s_reply_stash (f (sk e i)) = 0 ->
  good (<[Sock_VA i := Ring_Bytes]> w) (put_sk i f e) /\
  owed (put_sk i f e) = owed e /\
  held_caps (put_sk i f e) = held_caps e + caps_of cap (f (sk e i)).
Proof.
  intros Hg Hi Hn Hf Hs. pose proof (gd_socks _ _ Hg i ltac:(lia)) as Ho.
  destruct (so_none _ _ _ Ho Hn) as (N1 & N2 & N3 & _).
  split_and!; [by apply put_window_good|..].
  - rewrite owed_put by done. rewrite N1, Hs. lia.
  - rewrite held_put by done. unfold caps_of at 1. rewrite N2, N3, !(one_0 cap) by done. lia.
Qed.

Lemma balanced_claimed e e1 g g1 n k e' g' :
  owed e1 = owed e -> held_caps e1 = held_caps e + k -> g_replied g1 = g_replied g ->
  g_deleted g1 = g_deleted g ->
  balanced hnd cap e1 g1 n 0 e' g' -> balanced hnd cap e g n k e' g'.
Proof. intros H1 H2 H3 H4 (B1 & B2 & B3). split_and!; [done|lia..]. Qed.
End ops.
