(* ===== verification/EngineTable.v ===== *)
(** * Sockets opened, accepted and closed, pings and lookups

    The operations that take capabilities in charge or give them up, and the
    two other operations that may park their reply. *)
From S2P Require Import Prelude CInt Prog Ring RingInv RingSafe SockBridge SockBridgeSpec Engine EngineLogic EngineInv EngineKeep EngineLedger EngineOps.

Section table.
Context (hnd cap now : Z) (Hhnd : hnd <> 0) (Hcap : cap <> 0).
#[local] Notation keeps := (keeps hnd cap now).
#[local] Notation silent := (silent hnd cap now).
#[local] Notation ewp := (ewp hnd cap now).
#[local] Notation settles := (settles hnd cap now).
#[local] Notation owed := (owed hnd).
#[local] Notation held_caps := (held_caps cap).
#[local] Notation one_h h := (one h hnd).

(** ** Accept *)

Lemma parked_child e i :
  first_index (parked i) (e_socks e) <> 0%nat ->
  let c := first_index (parked i) (e_socks e) in
  (0 < c <= length (e_socks e))%nat /\ s_used (sk e c) = true /\ s_claimed (sk e c) = false.
Proof.
  intros Hne. destruct (first_index_S _ _ _ zero_state eq_refl Hne) as (Hl & Hf & _).
  unfold parked in Hf at 1. bool_to_prop. split_and!; [lia|lia|done|done].
Qed.

(** What follows once the child's rings are mapped. *)
Lemma ewp_adopt fuel c ring ntf e g h Q :
  good (g_wins g) e -> (0 < c <= length (e_socks e))%nat -> s_used (sk e c) = true ->
  s_claimed (sk e c) = false -> e_reply_h e = h ->
  (forall e' g', balanced hnd cap e g (one_h h) (tally cap [ring; ntf]) e' g' -> Q tt e' g') ->
  ewp (_ ← upd_sk c (with_claim ring ntf);
      s ← get_sk c;
      peer ← io (Glue (Tcp_Peer (s_pcb s)));
      _ ← (if peer.1 =? 0 then upd_sk c (with_peer peer.2.1 peer.2.2) else mret tt);
      _ ← Retry_Tcp fuel c;
      s ← get_sk c;
      Reply4 Status_Ok (Z.of_nat c) (s_peer_ip s) (s_peer_port s)) e
    (mapped_at (Sock_VA c) Ring_Bytes 0 g) Q.
Proof.
  intros Hg Hc Hu Hcl Hh HQ. pose proof (gd_socks _ _ Hg c ltac:(lia)) as [O1 O2 O3 O4 O5].
  assert (Hn : s_used (sk e c) && s_claimed (sk e c) = false) by (by rewrite Hcl, andb_false_r).
  destruct (O3 Hn) as (N1 & N2 & N3 & N4).
  destruct (claim_books hnd cap Hcap (g_wins g) c (with_claim ring ntf) e) as (K1 & K2 & K3); [done..| |done|].
  { split; cbn; [by rewrite lookup_insert_eq|done|by rewrite Hu|done|done]. }
  apply ewp_bind, ewp_modify. set (e1 := set_socks _ _). change e1 with (put_sk c (with_claim ring ntf) e).
  assert (Hu1 : s_used (sk (put_sk c (with_claim ring ntf) e) c) = true)
    by (by rewrite sk_put, Nat.eqb_refl by lia).
  eapply (ewp_settles _ _ _ _ _ _ (one_h h) 0); [|exact K1|].
  2: { intros [] e' g' Hb. apply HQ. eapply balanced_claimed; [exact K2| |done|done|exact Hb].
       rewrite K3. unfold caps_of. cbn. lia. }
  apply settles_get_sk, settles_io; [done..|]. intros peer _.
  apply settles_keep; [done|done| |].
  { destruct (_ =? 0); [|apply keeps_ret]. apply keeps_upd; [lia|sock_fields..]. }
  intros _ e2 Hk2. apply settles_keep; [done|done| |].
  { apply keeps_Retry_Tcp; [lia|]. by apply (kp_socks _ _ Hk2). }
  intros _ e3 Hk3. apply settles_get_sk, settles_Reply4.
  by rewrite (kp_reply _ _ Hk3), (kp_reply _ _ Hk2).
Qed.

Lemma settles_Accept fuel m i e g h :
  e_reply_h e = h ->
  settles (Handle_Sock_Accept fuel m i) e g (one_h h) (tally cap [nth 0 (m_caps m) 0; nth 1 (m_caps m) 0]).
Proof.
  intros Hh. unfold Handle_Sock_Accept. cbv zeta. apply settles_get_sk.
  destruct (_ || _); [by apply settles_refuse|]. apply settles_gets.
  destruct (Nat.eqb_spec (first_index (parked i) (e_socks e)) 0) as [_|Hne]; [by apply settles_refuse|].
  destruct (parked_child e i Hne) as (Hc & Hu & Hcl). set (c := first_index _ _) in *. clearbody c.
  intros Hg. apply ewp_bind, ewp_Mem_Map. intros r. destruct (Z.eqb_spec r 0) as [->|Hr]; cbn [negb].
  - apply ewp_bind, ewp_run. eapply wpp_mono; [apply silent_reset_rings; unfold rings_mapped; cbn; by rewrite lookup_insert_eq|].
    intros a g' [-> _]. by apply (ewp_adopt fuel c _ _ e g h).
  - rewrite mapped_at_fail by done. by apply settles_refuse.
Qed.

(** ** Open *)

Lemma settles_Reply_deleted st a l e g h :
  e_reply_h e = h -> good (g_wins g) e ->
  ewp (Reply st a) e (deleted cap l g) (fun _ e' g' => balanced hnd cap e g (one_h h) (tally cap l) e' g').
Proof.
  intros Hh Hg. eapply ewp_settles; [by apply settles_Reply|done|].
  intros b e' g' (H1 & H2 & H3). cbn in *. split_and!; [done|lia..].
Qed.

(** What follows once the rings of the fresh entry are mapped. *)
Lemma ewp_install i pro ring ntf pcb e g h :
  good (g_wins g) e -> (0 < i <= length (e_socks e))%nat -> s_used (sk e i) = false ->
  e_reply_h e = h -> pro <> 0 ->
  ewp (_ ← Scrub_Pending i;
      _ ← upd_sk i (fun _ => SockState true pro false false 0 0 0 0 ring ntf pcb
                               false true Conn_Idle 0 0 0 0 false false);
      Reply Status_Ok (Z.of_nat i)) e (mapped_at (Sock_VA i) Ring_Bytes 0 g)
    (fun _ e' g' => balanced hnd cap e g (one_h h) (tally cap [ring; ntf]) e' g').
Proof.
  intros Hg Hi Hu Hh Hp. apply ewp_bind, ewp_modify. set (e1 := set_pend _ e).
  assert (Hg1 : good (g_wins g) e1) by (by apply (same_good _ e)).
  apply ewp_bind, ewp_modify. set (f := fun _ : Sock_State => SockState _ _ _ _ _ _ _ _ _ _ _ _ _ _ _ _ _ _ _ _).
  change (set_socks _ _) with (put_sk i f e1).
  destruct (claim_books hnd cap Hcap (g_wins g) i f e1) as (K1 & K2 & K3); [done|done| | |done|].
  { change (sk e1 i) with (sk e i). by rewrite Hu. }
  { split; cbn; try done. by rewrite lookup_insert_eq. }
  eapply (ewp_settles _ _ _ _ _ _ (one_h h) 0); [by apply settles_Reply|exact K1|].
  intros a e' g' Hb. eapply balanced_claimed; [exact K2| |done|done|exact Hb].
  rewrite K3. change (held_caps e1) with (held_caps e). unfold caps_of. cbn. lia.
Qed.

Lemma settles_Open m e g h :
  e_reply_h e = h ->
  settles (Handle_Sock_Open m) e g (one_h h) (tally cap [nth 0 (m_caps m) 0; nth 1 (m_caps m) 0]).
Proof.
  intros Hh. unfold Handle_Sock_Open. cbv zeta.
  set (ring := nth 0 (m_caps m) 0). set (ntf := nth 1 (m_caps m) 0). set (pro := word m 2).
  destruct (_ || _ || (ring =? 0)) eqn:E0; [by apply settles_refuse|]. cbn [orb].
  destruct (ntf =? 0); [by apply settles_refuse|].
  assert (Hp : pro <> 0).
  { intros Hp. rewrite Hp in E0. cbn in E0. rewrite !andb_false_r in E0. by rewrite orb_true_r in E0. }
  intros Hg. apply ewp_bind. eapply ewp_mono; [by apply ewp_Alloc_Sock|].
  intros i e1 g1 (-> & Hg1 & Hk1 & _ & Hi). eapply ewp_settles; [|exact Hg1|intros a e' g'; by apply balanced_kept].
  assert (Hh1 : e_reply_h e1 = h) by (by rewrite (kp_reply _ _ Hk1)). clear Hk1 Hh Hg Hg1 e.
  destruct (Nat.eqb_spec i 0) as [_|Hne]; [by apply settles_refuse|]. destruct (Hi Hne) as [Hr Hu].
  intros Hg1. apply ewp_bind.
  assert (Hrest : forall pcb, ewp (if ((pro =? Proto_Udp) || (pro =? Proto_Tcp)) && (pcb =? 0)
    then _ ← drop_caps ring ntf; Reply Status_Not_Ready 0
    else
      r ← map_ring ring i;
      if negb (r =? 0) then
        _ ← Free_Pcb pro pcb i; _ ← drop_caps ring ntf; Reply Status_Not_Ready 0
      else
        _ ← run (reset_rings (Sock_VA i));
        _ ← Scrub_Pending i;
        _ ← upd_sk i (fun _ => SockState true pro false false 0 0 0 0 ring ntf pcb
                                    false true Conn_Idle 0 0 0 0 false false);
        Reply Status_Ok (Z.of_nat i)) e1 g
    (fun _ e' g' => balanced hnd cap e1 g (one_h h) (tally cap [ring; ntf]) e' g')).
  { intros pcb. clear E0.
    destruct (((pro =? Proto_Udp) || (pro =? Proto_Tcp)) && (pcb =? 0)); [by apply settles_refuse|].
    apply ewp_bind, ewp_Mem_Map. intros r. destruct (Z.eqb_spec r 0) as [->|Hr0]; cbn [negb].
    - apply ewp_bind, ewp_run. eapply wpp_mono; [apply silent_reset_rings; unfold rings_mapped; cbn; by rewrite lookup_insert_eq|].
      intros a g' [-> _]. by apply ewp_install.
    - rewrite mapped_at_fail by done. revert Hg1. apply settles_keep; [done|done|apply keeps_Free_Pcb|].
      intros _ e2 Hk2. apply settles_refuse; [done|]. by rewrite (kp_reply _ _ Hk2). }
  destruct (pro =? Proto_Udp); [apply ewp_glue, Hrest|].
  destruct (pro =? Proto_Tcp); [apply ewp_glue, Hrest|apply ewp_ret, Hrest].
Qed.
(** ** Close *)

Lemma ewp_Free_Pcb proto pcb i e g Q : Q tt e g -> ewp (Free_Pcb proto pcb i) e g Q.
Proof.
  intros H. unfold Free_Pcb. destruct (_ =? 0); [by apply ewp_ret|].
  do 2 (destruct (_ =? _); [apply ewp_bind, ewp_glue; intros r; by apply ewp_ret|]). by apply ewp_ret.
Qed.

Lemma ewp_for_each n i (body : nat -> EM unit) e g (I : nat -> eng -> ghost -> Prop) :
  (0 < i)%nat -> I i e g ->
  (forall j e g, (0 < j)%nat -> I j e g -> ewp (body j) e g (fun _ e' g' => I (S j) e' g')) ->
  ewp (for_each n i body) e g (fun _ e' g' => I (i + n)%nat e' g').
Proof.
  intros Hi HI Hb. revert i e g Hi HI. induction n as [|n IH]; intros i e g Hi HI; cbn [for_each].
  - apply ewp_ret. by rewrite Nat.add_0_r.
  - apply ewp_bind. eapply ewp_mono; [by apply Hb|]. intros [] e1 g1 H1.
    replace (i + S n)%nat with (S i + n)%nat by lia. apply IH; [lia|done].
Qed.

(** While socket [id] is being closed: the books of [e0], and [id] still
    there with no reply owed. *)
Record closing (id : nat) (h : Z) (e0 : eng) (g0 : ghost) (e : eng) (g : ghost) : Prop := {
  cl_books : balanced hnd cap e0 g0 0 0 e g;
  cl_wins : g_wins g = g_wins g0;
  cl_reply : e_reply_h e = h;
  cl_live : live id e;
  cl_stash : s_reply_stash (sk e id) = 0 }.

Lemma ewp_release_child id i h e0 g0 e g :
  (0 < i)%nat -> closing id h e0 g0 e g ->
  ewp (release_child id i) e g (fun _ e' g' => closing id h e0 g0 e' g').
Proof.
  intros Hi [(Hg & B2 & B3) Hw Hr Hl Hs]. pose proof Hl as (Hid & Hlu & Hlc). unfold release_child.
  apply ewp_bind, ewp_gets. destruct (_ && _) eqn:E; [|by apply ewp_ret]. bool_to_prop.
  destruct (s_claimed (sk e i)) eqn:Ec.
  - assert (Hk : keeps (upd_sk i (with_parent 0)) e g) by (apply keeps_upd; [done|sock_fields..]).
    eapply ewp_mono; [by apply Hk|]. intros _ e1 g1 (-> & Hg1 & Hk1).
    split; [|done|by rewrite (kp_reply _ _ Hk1)|by eapply live_kept|
      by rewrite (sp_stash _ _ (kp_socks _ _ Hk1 id))].
    split_and!; [done|rewrite (owed_kept hnd Hhnd _ _ Hk1); lia|rewrite (held_kept cap Hcap _ _ Hk1); lia].
  - apply ewp_bind, ewp_Free_Pcb, ewp_modify. change (set_socks _ _) with (put_sk i (fun _ => idle_sock) e).
    assert (Hne : id <> i) by congruence.
    pose proof (gd_socks _ _ Hg i Hi) as Hok. destruct (so_none _ _ _ Hok) as (N1 & N2 & N3 & N4);
      [by rewrite Ec, andb_false_r|].
    assert (Hle : (i <= length (e_socks e))%nat) by (by apply used_range).
    assert (Hsk : sk (put_sk i (fun _ => idle_sock) e) id = sk e id)
      by (rewrite sk_put by lia; destruct (Nat.eqb_spec id i); congruence).
    destruct (put_books hnd cap (g_wins g) i (fun _ => idle_sock) e) as (K1 & K2 & K3);
      [done|lia|by split| |]. { unfold caps_of. cbn. by rewrite N2, N3. }
    cbn [s_reply_stash idle_sock] in K2. rewrite N1 in K2.
    split; [|done|done|unfold live; by rewrite Hsk|by rewrite Hsk]. split_and!; [done|lia..].
Qed.

(** The last steps: the window, the capabilities and the entry go. *)
Lemma ewp_remove i h e0 g0 e g :
  closing i h e0 g0 e g ->
  ewp (s ← get_sk i;
      _ ← Free_Pcb (s_proto s) (s_pcb s) i;
      _ ← Scrub_Pending i;
      _ ← (if s_claimed s then _ ← io (Mem_Unmap (Sock_VA i) Ring_Bytes); mret tt else mret tt);
      _ ← drop_caps (s_ring_cap s) (s_ntfn_cap s);
      _ ← upd_sk i (fun _ => idle_sock);
      Reply Status_Ok 0) e g (fun _ e' g' => balanced hnd cap e0 g0 (one_h h) 0 e' g').
Proof.
  intros [(Hg & B2 & B3) Hw Hr (Hi & Hu & Hc) Hs]. apply ewp_bind, ewp_gets, ewp_bind, ewp_Free_Pcb.
  apply ewp_bind, ewp_modify. set (e1 := set_pend _ e).
  assert (Hg1 : good (g_wins g) e1) by (by apply (same_good _ e)). rewrite Hc.
  apply ewp_bind, ewp_bind, ewp_io; [done|]. intros r _. apply ewp_ret.
  apply ewp_bind, ewp_drop_caps; [done|]. apply ewp_bind, ewp_modify.
  change (set_socks _ _) with (put_sk i (fun _ => idle_sock) e1).
  assert (Hle : (0 < i <= length (e_socks e1))%nat) by (split; [done|by apply (used_range e)]).
  assert (Hd : good (delete (Sock_VA i) (g_wins g)) (put_sk i (fun _ => idle_sock) e1)).
  { apply (put_window_good (g_wins g) i (fun _ => idle_sock) e1 (fun _ => None)); [done|done|].
    split; cbn; try done. intros _. split_and!; [done..|]. apply lookup_partial_alter_eq. }
  eapply ewp_settles; [by apply (settles_Reply _ _ _ _ _ _ _ h)|exact Hd|].
  intros a e' g' (H1 & H2 & H3).
  rewrite (owed_put hnd) in H2 by done. rewrite (held_put cap) in H3 by done.
  change (sk e1 i) with (sk e i) in H2, H3. change (owed e1) with (owed e) in H2.
  change (held_caps e1) with (held_caps e) in H3. rewrite Hs in H2.
  cbn [s_reply_stash idle_sock] in H2. unfold caps_of in H3. cbn in H2, H3.
  rewrite !(one_0 cap) in H3 by done. split_and!; [done|lia..].
Qed.

Lemma settles_Close i e g h :
  live i e -> e_reply_h e = h -> settles (Handle_Sock_Close i) e g (one_h h) 0.
Proof.
  intros Hl Hh Hg. pose proof Hl as (Hi & Hu & Hc). unfold Handle_Sock_Close.
  apply ewp_bind, ewp_gets. apply ewp_bind.
  assert (Hstart : ewp (if s_reply_stash (sk e i) =? 0 then mret tt
    else _ ← Reply_To (s_reply_stash (sk e i)) Err_Reset 0; upd_sk i (with_stash 0)) e g
    (fun _ e' g' => closing i h e g e' g')).
  { destruct (_ =? 0) eqn:Es; bool_to_prop.
    - apply ewp_ret. split; try done. split_and!; [done|lia..].
    - apply ewp_bind, ewp_Reply_To, ewp_modify. change (set_socks _ _) with (put_sk i (with_stash 0) e).
      pose proof (gd_socks _ _ Hg i Hi) as [O1 O2 O3 O4 O5].
      pose proof (used_range e i Hu) as Hle.
      assert (Hsk : sk (put_sk i (with_stash 0) e) i = with_stash 0 (sk e i))
        by (by rewrite sk_put, Nat.eqb_refl by lia).
      destruct (put_books hnd cap (g_wins g) i (with_stash 0) e) as (K1 & K2 & K3); [done|lia| |done|].
      { split; cbn; auto. by rewrite Hu, Hc. }
      cbn [s_reply_stash with_stash] in K2. rewrite (one_0 hnd) in K2 by done.
      split; [|done|done|unfold live; by rewrite Hsk|by rewrite Hsk]. split_and!; cbn [replied g_replied g_deleted g_wins]; [done|lia..]. }
  eapply ewp_mono; [exact Hstart|]. clear Hstart. intros [] e1 g1 H1. apply ewp_bind.
  eapply ewp_mono; [|intros b e' g' H'; by apply ewp_remove, H'].
  destruct (s_listening _); [|by apply ewp_ret]. apply ewp_bind, ewp_gets.
  apply (ewp_for_each _ _ _ _ _ (fun _ => closing i h e g)); [lia|done|].
  intros j e2 g2 Hj H2. by apply ewp_release_child.
Qed.
End table.
