(* ===== verification/EngineRound.v ===== *)
(** * A round of the service loop

    Pings and lookups, the completions at the end of a round, and the round
    as a whole: it balances the books and leaves every parked reply with an
    operation that is still under way. *)
From S2P Require Import Prelude CInt Prog Ring RingInv RingSafe SockBridge SockBridgeSpec Engine EngineLogic EngineInv EngineKeep EngineLedger EngineOps EngineTable.

Definition put_res (i : nat) (f : Resolve_Rec -> Resolve_Rec) (e : eng) : eng :=
  set_resolves (alter f (i - 1)%nat (e_resolves e)) e.
Definition res (e : eng) (i : nat) : Resolve_Rec := nth (i - 1) (e_resolves e) no_resolve.

Lemma res_lookup e i :
  (0 < i <= length (e_resolves e))%nat -> e_resolves e !! (i - 1)%nat = Some (res e i).
Proof.
  intros Hi. unfold res. rewrite nth_lookup.
  destruct (lookup_lt_is_Some_2 (e_resolves e) (i - 1)) as [r ->]; [lia|done].
Qed.

Lemma put_res_good w i f e :
  good w e -> res_ok (f (res e i)) -> good w (put_res i f e).
Proof.
  intros [Hs Hl Hr Hn Hd] Hf. split; try done. cbn. apply Forall_lookup. intros j r Hj.
  destruct (decide (j = i - 1)%nat) as [->|].
  - change (alter f (i - 1)%nat (e_resolves e) !! (i - 1)%nat = Some r) in Hj.
    rewrite list_lookup_alter_eq in Hj. destruct (e_resolves e !! (i - 1)%nat) as [r0|] eqn:E; [|done].
    injection Hj as <-. assert (Hr0 : res e i = r0) by (unfold res; by rewrite nth_lookup, E).
    by rewrite <- Hr0.
  - change (alter f (i - 1)%nat (e_resolves e) !! j = Some r) in Hj.
    rewrite list_lookup_alter_ne in Hj by done. by eapply Forall_lookup_1.
Qed.

Lemma res_put i f e :
  (0 < i <= length (e_resolves e))%nat -> res (put_res i f e) i = f (res e i).
Proof.
  intros Hi. unfold res at 1, put_res, set_resolves. cbn [e_resolves].
  by rewrite nth_lookup, list_lookup_alter_eq, res_lookup.
Qed.

Section round.
Context (hnd cap now : Z) (Hhnd : hnd <> 0) (Hcap : cap <> 0).
#[local] Notation keeps := (keeps hnd cap now).
#[local] Notation silent := (silent hnd cap now).
#[local] Notation ewp := (ewp hnd cap now).
#[local] Notation settles := (settles hnd cap now).
#[local] Notation owed := (owed hnd).
#[local] Notation held_caps := (held_caps cap).
#[local] Notation one_h h := (one h hnd).

Lemma owed_put_res i f e : (0 < i <= length (e_resolves e))%nat ->
  owed (put_res i f e) = owed e - one_h (r_reply (res e i)) + one_h (r_reply (f (res e i))).
Proof.
  intros Hi. unfold owed, owing, put_res, set_resolves; cbn [e_socks e_resolves e_ping_reply].
  rewrite !tally_app, (tally_alter _ _ _ _ _ (res e i)) by (by apply res_lookup). lia.
Qed.

Lemma owed_ping p s t t0 r x l e :
  owed (set_ping p s t t0 r x l e) = owed e - one_h (e_ping_reply e) + one_h x.
Proof.
  unfold owed, owing, set_ping; cbn [e_socks e_resolves e_ping_reply]. rewrite !tally_app. cbn. lia.
Qed.

Lemma ping_good w p s t t0 r x l e : good w e -> good w (set_ping p s t t0 r x l e).
Proof. intros [? ? ? ? ?]. by split. Qed.

(** ** Ping *)

Lemma settles_Ping m e g h :
  quiet e -> e_reply_h e = h -> settles (Handle_Ping m) e g (one_h h) 0.
Proof.
  intros [_ Hq] Hh. unfold Handle_Ping. cbv zeta. destruct (_ || _); [by apply settles_Reply|].
  apply settles_gets. destruct (_ =? _); [by apply settles_Reply|].
  destruct (e_ping_pending e) eqn:Ep; [by apply settles_Reply|].
  assert (Hr : e_ping_reply e = 0).
  { destruct (decide (e_ping_reply e = 0)) as [|Hn]; [done|]. specialize (Hq Hn). congruence. }
  intros Hg. apply ewp_bind, ewp_io; [done|]. intros t _. rewrite charge_unlisted by done.
  apply ewp_bind, ewp_modify, ewp_bind, ewp_glue. intros rc. set (e1 := set_ping _ _ _ _ _ _ _ e).
  assert (H1 : owed e1 = owed e) by (unfold e1; rewrite owed_ping; lia).
  assert (Hg1 : good (g_wins g) e1) by (by apply ping_good). destruct (negb _).
  - apply ewp_bind, ewp_modify. set (e2 := set_ping _ _ _ _ _ _ _ e1).
    assert (H2 : owed e2 = owed e1) by (unfold e2; rewrite owed_ping; lia).
    eapply ewp_settles; [by apply (settles_Reply _ _ _ _ _ _ _ h)|by apply ping_good|].
    intros a e' g' (B1 & B2 & B3). change (held_caps e2) with (held_caps e) in B3.
    split_and!; [done|lia..].
  - apply ewp_bind, ewp_modify, ewp_modify. set (e2 := set_ping _ _ _ _ _ _ _ e1).
    assert (H2 : owed e2 = owed e1 + one_h h).
    { unfold e2. rewrite owed_ping. change (e_ping_reply e1) with (e_ping_reply e).
      change (e_reply_h e1) with (e_reply_h e). rewrite Hr, Hh, (one_0 hnd) by done. lia. }
    change (balanced hnd cap e g (one_h h) 0 (set_reply_h 0 e2) g). split_and!.
    + apply (same_good _ e2); [done|by apply ping_good].
    + change (owed (set_reply_h 0 e2)) with (owed e2). lia.
    + change (held_caps (set_reply_h 0 e2)) with (held_caps e). lia.
Qed.

(** ** Resolve *)

Lemma ewp_alloc_resolve e g :
  good (g_wins g) e ->
  ewp alloc_resolve e g (fun i e' g' => g' = g /\ good (g_wins g) e' /\
    owed e' = owed e /\ held_caps e' = held_caps e /\ e_reply_h e' = e_reply_h e /\
    (i <> 0%nat -> (0 < i <= length (e_resolves e'))%nat /\ r_reply (res e' i) = 0)).
Proof.
  intros Hg. unfold alloc_resolve. apply ewp_bind, ewp_gets. destruct (first_index _ _) as [|n] eqn:Ei.
  - apply ewp_bind, ewp_io; [done|]. intros [] _; rewrite charge_unlisted by done; [|by apply ewp_ret; split_and!].
    apply ewp_bind, ewp_modify, ewp_ret. set (e1 := set_resolves _ e).
    assert (Hl : length (e_resolves e1) = S (length (e_resolves e)))
      by (cbn; rewrite length_app; cbn; lia).
    split_and!; [done| | |done|done|].
    + destruct Hg as [Hs Hl' Hr Hn Hd]. split; try done. cbn. apply Forall_app. split; [done|].
      by apply Forall_singleton.
    + unfold owed, owing, e1, set_resolves; cbn [e_socks e_resolves e_ping_reply].
      rewrite fmap_app, !tally_app. cbn. rewrite (one_0 hnd) by done. lia.
    + intros _. split; [lia|]. unfold res, e1, set_resolves; cbn [e_resolves].
      by rewrite app_nth2, Nat.sub_1_r, Nat.sub_diag by (cbn; lia).
  - apply ewp_ret. split_and!; [done..|]. intros _.
    destruct (first_index_S _ _ _ no_resolve Ei) as (Hl & Hf & _); [done|]. bool_to_prop.
    split; [lia|]. pose proof (gd_res _ _ Hg) as Hr. rewrite Forall_lookup in Hr.
    apply (Hr (S n - 1)%nat (res e (S n))); [|done]. apply res_lookup. lia.
Qed.

Lemma settles_put_res {A} i f (k : EM A) e g n m :
  (0 < i <= length (e_resolves e))%nat -> res_ok (f (res e i)) ->
  r_reply (f (res e i)) = r_reply (res e i) ->
  settles k (put_res i f e) g n m -> settles (put_resolve i f ≫= fun _ => k) e g n m.
Proof.
  intros Hi Hf Hr Hk Hg. apply ewp_bind, ewp_modify.
  apply (ewp_settles _ _ _ _ (put_res i f e) g n m); [exact Hk|by apply put_res_good|].
  intros a e' g' (B1 & B2 & B3).
  rewrite owed_put_res in B2 by done. rewrite Hr in B2.
  change (held_caps (put_res i f e)) with (held_caps e) in B3. split_and!; [done|lia..].
Qed.

(** The three exits once the query is with lwIP. *)
Lemma settles_query i name e g h :
  (0 < i <= length (e_resolves e))%nat -> r_reply (res e i) = 0 -> e_reply_h e = h ->
  settles (_ ← put_resolve i (fun _ => ResolveRec true false 0 0);
    rc ← io (Glue (Dns_Resolve name (Z.of_nat i)));
    if 0 <? rc.1 then
      _ ← put_resolve i (fun r => ResolveRec false (r_done r) (r_reply r) (r_result r));
      Reply Status_Ok rc.2.1
    else if rc.1 =? 0 then
      h ← gets e_reply_h;
      _ ← put_resolve i (fun r => ResolveRec (r_used r) (r_done r) h (r_result r));
      modify (set_reply_h 0)
    else
      _ ← put_resolve i (fun r => ResolveRec false (r_done r) (r_reply r) (r_result r));
      Reply Status_Not_Ready 0) e g (one_h h) 0.
Proof.
  intros Hi Hr Hh. apply settles_put_res; [done|done|by rewrite Hr|]. set (e1 := put_res i _ e).
  assert (Hi1 : (0 < i <= length (e_resolves e1))%nat) by (cbn; by rewrite length_alter).
  assert (Hr1 : res e1 i = ResolveRec true false 0 0) by (unfold e1; by rewrite res_put).
  apply settles_io; [done..|]. intros rc _. destruct (0 <? _); [|destruct (_ =? 0)].
  - apply settles_put_res; [done|by rewrite Hr1|by rewrite Hr1|]. by apply settles_Reply.
  - apply settles_gets. change (e_reply_h e1) with (e_reply_h e). rewrite Hh. intros Hg.
    apply ewp_bind, ewp_modify, ewp_modify.
    change (balanced hnd cap e1 g (one_h h) 0 (set_reply_h 0 (put_res i (fun r => ResolveRec (r_used r) (r_done r) h (r_result r)) e1)) g).
    set (f := fun r => ResolveRec (r_used r) (r_done r) h (r_result r)). split_and!.
    + apply (same_good _ (put_res i f e1)); [by split|]. apply put_res_good; [done|by rewrite Hr1].
    + change (owed (set_reply_h 0 (put_res i f e1))) with (owed (put_res i f e1)).
      rewrite owed_put_res, Hr1 by done. unfold f; cbn [r_reply]. rewrite (one_0 hnd) by done. lia.
    + change (held_caps (set_reply_h 0 (put_res i f e1))) with (held_caps e1). lia.
  - apply settles_put_res; [done|by rewrite Hr1|by rewrite Hr1|]. by apply settles_Reply.
Qed.

Lemma silent_name g n :
  n <= Page_Size -> g_wins g !! Buf_Win_VA = Some Page_Size ->
  silent (load_bytes Buf_Win_VA n) g (fun _ => True).
Proof.
  intros Hn Hm. apply (silent_collect _ _ _ _ _ _ _ (fun _ => True)). intros j Hj.
  apply silent_act; [done| |done]. exists Buf_Win_VA, Page_Size. split_and!; [done|lia..].
Qed.

Lemma settles_Resolve m e g h :
  e_reply_h e = h -> settles (Handle_Resolve m) e g (one_h h) (tally cap [nth 0 (m_caps m) 0]).
Proof.
  intros Hh. unfold Handle_Resolve. cbv zeta. set (buf := nth 0 (m_caps m) 0).
  assert (Hdrop : forall st e', e_reply_h e' = h -> settles (Cap_Delete' buf ≫= fun _ => Reply st 0) e' g (one_h h) (tally cap [buf])).
  { intros st e' Hh' Hg. apply ewp_bind, ewp_Cap_Delete. by apply settles_Reply_deleted. }
  destruct (_ || _ || _) eqn:E0.
  { destruct (Z.eqb_spec buf 0) as [->|]; [|by apply Hdrop].
    intros Hg. apply ewp_bind, ewp_ret. cbn. rewrite (one_0 cap) by done. by apply settles_Reply. }
  bool_to_prop. intros Hg. apply ewp_bind. eapply ewp_mono; [by apply ewp_alloc_resolve|].
  intros i e1 g1 (-> & Hg1 & Ho & Hd & Hr & Hi).
  assert (Hup : forall e' g', balanced hnd cap e1 g (one_h h) (tally cap [buf]) e' g' ->
            balanced hnd cap e g (one_h h) (tally cap [buf]) e' g').
  { intros e' g' (B1 & B2 & B3). split_and!; [done|lia..]. }
  eapply ewp_mono; [|intros a e' g'; apply Hup]. clear Hup. rewrite Hh in Hr.
  destruct (Nat.eqb_spec i 0) as [_|Hne]; [by apply Hdrop|]. destruct (Hi Hne) as [Hin Hr0].
  apply ewp_bind, ewp_Mem_Map. intros r. destruct (Z.eqb_spec r 0) as [->|Hn]; cbn [negb].
  2: { rewrite mapped_at_fail by done. by apply Hdrop. }
  apply ewp_bind, ewp_run. eapply wpp_mono.
  { apply silent_name; [unfold Page_Size; lia|]. cbn. by rewrite lookup_insert_eq. }
  intros name g' [-> _]. apply ewp_bind, ewp_io; [done|]. intros r _.
  assert (Hw : charge hnd cap (Mem_Unmap Buf_Win_VA Page_Size) r (mapped_at Buf_Win_VA Page_Size 0 g) = g).
  { unfold charge; cbn. rewrite delete_insert_id by (by apply (buffer_unmapped _ e1)).
    destruct g; cbn. by rewrite !Z.add_0_r. }
  rewrite Hw. apply ewp_bind, ewp_Cap_Delete.
  eapply ewp_settles; [by apply (settles_query i name e1 _ h)|done|].
  intros a e' g' (B1 & B2 & B3). cbn in B2, B3. split_and!; [done|cbn; lia..].
Qed.
(** ** Completions *)

(** The books of [e0] are kept, no connect changes its state, and pings and
    the sockets below [j] owe only what is under way. *)
Record finishing (e0 : eng) (g0 : ghost) (j : nat) (e : eng) (g : ghost) : Prop := {
  fi_books : balanced hnd cap e0 g0 0 0 e g;
  fi_wins : g_wins g = g_wins g0;
  fi_len : length (e_socks e) = length (e_socks e0);
  fi_conn : forall i, (0 < i)%nat -> s_conn_state (sk e i) = s_conn_state (sk e0 i) /\
    s_conn_deadline (sk e i) = s_conn_deadline (sk e0 i);
  fi_ping : e_ping_reply e <> 0 -> e_ping_pending e = true;
  fi_socks : forall i, (0 < i < j)%nat -> s_reply_stash (sk e i) <> 0 ->
    s_conn_state (sk e i) = Conn_Connecting }.

Lemma finish_ping p e g :
  good (g_wins g) e ->
  finishing e g 1 (set_ping p (e_ping_seq e) (e_ping_target e) (e_ping_t0 e) (e_ping_rtt e) 0
                     (e_ping_limit e) e) (replied hnd (e_ping_reply e) g).
Proof.
  intros Hg. split; try done; [|intros; lia].
  split_and!; [by apply ping_good|rewrite owed_ping, (one_0 hnd) by done; cbn [replied g_replied]; lia|].
  cbn [replied g_deleted]. change (held_caps (set_ping _ _ _ _ _ _ _ e)) with (held_caps e). lia.
Qed.

Lemma finish_nothing e g :
  good (g_wins g) e -> (e_ping_reply e <> 0 -> e_ping_pending e = true) -> finishing e g 1 e g.
Proof. intros Hg Hp. split; try done; [split_and!; [done|lia..]|intros; lia]. Qed.

Lemma ewp_complete_ping e g :
  good (g_wins g) e -> ewp complete_ping e g (fun _ e' g' => finishing e g 1 e' g').
Proof.
  intros Hg. unfold complete_ping. apply ewp_bind, ewp_gets.
  destruct (_ =? 0) eqn:E0; bool_to_prop; [apply ewp_ret; by apply finish_nothing|]. cbv zeta.
  destruct (e_ping_pending e) eqn:Ep; cbn [negb].
  - apply ewp_bind, ewp_io; [done|]. intros t _. rewrite charge_unlisted by done. destruct (_ <? _).
    + apply ewp_bind, ewp_Reply_To, ewp_modify. by apply finish_ping.
    + apply ewp_ret. by apply finish_nothing.
  - apply ewp_bind, ewp_Reply_To, ewp_modify. by apply finish_ping.
Qed.

Lemma finish_connect e0 g0 j e g :
  (0 < j)%nat -> finishing e0 g0 j e g -> s_used (sk e j) = true ->
  finishing e0 g0 (S j) (put_sk j (with_stash 0) e) (replied hnd (s_reply_stash (sk e j)) g).
Proof.
  intros Hj [(Hg & B2 & B3) Hw Hl Hc Hp Hs] Hu. pose proof (used_range e j Hu) as Hle.
  pose proof (gd_socks _ _ Hg j Hj) as [O1 O2 O3 O4 O5].
  destruct (put_books hnd cap (g_wins g) j (with_stash 0) e) as (K1 & K2 & K3); [done|lia| |done|].
  { split; cbn; auto; try done. intros Hn. by destruct (O3 Hn) as (_ & Hr). }
  cbn [s_reply_stash with_stash] in K2. rewrite (one_0 hnd) in K2 by done.
  split; try done.
  - split_and!; cbn [replied g_replied g_deleted g_wins]; [done|lia..].
  - cbn. by rewrite length_alter.
  - intros i Hi. rewrite sk_put by lia. destruct (Nat.eqb_spec i j) as [->|]; [|by apply Hc].
    cbn. by apply Hc.
  - intros i Hi. rewrite sk_put by lia. destruct (Nat.eqb_spec i j) as [->|]; [done|].
    intros Hn. apply Hs; [lia|done].
Qed.

Lemma ewp_complete_connect e0 g0 j e g :
  (0 < j)%nat -> finishing e0 g0 j e g ->
  ewp (complete_connect j) e g (fun _ e' g' => finishing e0 g0 (S j) e' g').
Proof.
  intros Hj Hf. unfold complete_connect. apply ewp_bind, ewp_gets.
  pose proof (gd_socks _ _ (proj1 (fi_books _ _ _ _ _ Hf)) j Hj) as [O1 O2 O3 O4 O5].
  assert (Hstay : (s_reply_stash (sk e j) <> 0 -> s_conn_state (sk e j) = Conn_Connecting) ->
            finishing e0 g0 (S j) e g).
  { intros Hs. destruct Hf as [F1 F2 F3 F4 F5 F6]. split; try done. intros i Hi Hn.
    destruct (decide (i = j)) as [->|]; [by apply Hs|apply F6; [lia|done]]. }
  destruct (s_used (sk e j) && negb _) eqn:E; bool_to_prop.
  - destruct (_ =? Conn_Up) eqn:Eu; [|destruct (_ =? Conn_Failed) eqn:Ef]; bool_to_prop.
    + apply ewp_bind, ewp_Reply_To, ewp_modify. by apply finish_connect.
    + apply ewp_bind, ewp_Reply_To, ewp_modify. by apply finish_connect.
    + apply ewp_ret, Hstay. intros Hn. specialize (O4 Hn).
      unfold Conn_Connecting, Conn_Failed, Conn_Up in *. lia.
  - apply ewp_ret, Hstay. intros Hn. exfalso. apply andb_false_iff in E as [E|E].
    + by apply Hn, O3; rewrite E.
    + bool_to_prop. by apply Hn.
Qed.

Lemma ewp_complete_resolve e0 g0 n j e g :
  (0 < j)%nat -> finishing e0 g0 n e g ->
  ewp (complete_resolve j) e g (fun _ e' g' => finishing e0 g0 n e' g').
Proof.
  intros Hj [(Hg & B2 & B3) Hw Hl Hc Hp Hs]. unfold complete_resolve. apply ewp_bind, ewp_gets.
  change (nth _ _ _) with (res e j). destruct (_ && _) eqn:E; bool_to_prop.
  2: { by apply ewp_ret. }
  assert (Hr : (0 < j <= length (e_resolves e))%nat).
  { destruct (decide (j <= length (e_resolves e))%nat); [lia|]. exfalso.
    assert (Hn : res e j = no_resolve) by (apply nth_overflow; lia). by rewrite Hn in *. }
  set (f := fun r => ResolveRec false (r_done r) 0 (r_result r)).
  assert (Hfin : finishing e0 g0 n (put_res j f e) (replied hnd (r_reply (res e j)) g)).
  { split; try done. split_and!; cbn [replied g_replied g_deleted g_wins]; [by apply put_res_good| |].
    - rewrite owed_put_res by done. cbn [f r_reply]. rewrite (one_0 hnd) by done. lia.
    - change (held_caps (put_res j f e)) with (held_caps e). lia. }
  apply ewp_bind. destruct (negb _); apply ewp_Reply_To, ewp_modify, Hfin.
Qed.

(** The round ends with nothing owed but what is under way. *)
Lemma ewp_completions e g :
  good (g_wins g) e ->
  ewp completions e g (fun _ e' g' => quiet e' /\ finishing e g (S (length (e_socks e))) e' g').
Proof.
  intros Hg. unfold completions. apply ewp_bind. eapply ewp_mono; [by apply ewp_complete_ping|].
  intros [] e1 g1 H1. apply ewp_bind, ewp_gets, ewp_bind.
  eapply ewp_mono; [apply (ewp_for_each _ _ _ _ _ _ _ _ (finishing e g)); [lia|exact H1|]|].
  { intros. by apply ewp_complete_connect. }
  intros [] e2 g2 H2. apply ewp_bind, ewp_gets. rewrite (fi_len _ _ _ _ _ H1) in H2. cbn in H2.
  eapply ewp_mono; [apply (ewp_for_each _ _ _ _ _ _ _ _ (fun _ => finishing e g (S (length (e_socks e)))));
    [lia|exact H2|]|].
  { intros. by apply ewp_complete_resolve. }
  intros [] e3 g3 H3. split; [|done]. destruct H3 as [F1 F2 F3 F4 F5 F6]. split; [|done].
  intros i Hi Hn. destruct (decide (i <= length (e_socks e))%nat); [apply F6; [lia|done]|].
  by rewrite sk_outside in Hn by lia.
Qed.

(** ** Dispatch *)

Lemma keeps_notified fuel bits e g : keeps (notified fuel bits) e g.
Proof.
  unfold notified. apply keeps_bind; [destruct (negb _); [apply keeps_Drain_Ring|apply keeps_ret]|].
  intros _ e1 _. destruct (negb _); [|apply keeps_ret].
  apply keeps_bind; [apply keeps_glue_cb|]. intros _ e2 _.
  apply keeps_bind; [apply keeps_Check_Pending|]. intros _ e3 _.
  apply keeps_bind; [|intros; apply keeps_Poll_Dhcp].
  intros Hg. eapply ewp_mono; [by apply keeps_Tick_Tcp|]. by intros a e4 g4 (-> & Hg4 & Hk & _).
Qed.

Lemma keeps_tick fuel bits e g :
  negb (Z.land bits Signal_Tick =? 0) = true ->
  keeps_to hnd cap now (notified fuel bits) e g (fun e' => forall i, (0 < i)%nat -> timely now i e').
Proof.
  intros Hb. unfold notified. rewrite Hb. clear Hb.
  assert (Hmap : forall A (c : EM A) e0, keeps c e0 g -> keeps_to hnd cap now c e0 g (fun _ => True))
    by (intros; by apply keeps_to_stable).
  eapply keeps_to_bind; [apply Hmap; destruct (negb _); [apply keeps_Drain_Ring|apply keeps_ret]|].
  intros _ e1 _ _. eapply keeps_to_bind; [apply Hmap, keeps_glue_cb|]. intros _ e2 _ _.
  eapply keeps_to_bind; [apply Hmap, keeps_Check_Pending|]. intros _ e3 _ _.
  eapply keeps_to_bind; [apply keeps_Tick_Tcp|]. intros _ e4 _ Ht.
  apply keeps_to_stable; [apply keeps_Poll_Dhcp|]. intros e5 Hk i Hi. by apply (timely_kept _ _ e4), Ht.
Qed.
Context (fuel : nat) (file_op : msg -> EM unit).

Lemma settles_eq {A} (c : EM A) e g n k n' k' :
  settles c e g n k -> n = n' -> k = k' -> settles c e g n' k'.
Proof. by intros ? -> ->. Qed.

Lemma settles_sock_op m i e g h :
  live i e -> quiet e -> e_reply_h e = h ->
  settles (sock_op fuel m i) e g (one_h h)
    (if m_label m =? Op_Accept then tally cap [nth 0 (m_caps m) 0; nth 1 (m_caps m) 0] else 0).
Proof.
  intros Hl Hq Hh. pose proof Hl as (Hi & Hu & _). unfold sock_op.
  destruct (Z.eqb_spec (m_label m) Op_Bind) as [->|]; [by apply settles_Bind|].
  destruct (Z.eqb_spec (m_label m) Op_Connect) as [->|]; [by apply settles_Connect|].
  destruct (Z.eqb_spec (m_label m) Op_Kick) as [->|].
  { apply settles_keep; [done|done|by apply keeps_Drain_Sock_Tx|]. intros _ e1 Hk1.
    apply settles_keep; [done|done|apply keeps_glue_cb|]. intros _ e2 Hk2.
    apply settles_reply_if_owed; [done|]. by rewrite (kp_reply _ _ Hk2), (kp_reply _ _ Hk1). }
  destruct (Z.eqb_spec (m_label m) Op_Poll) as [->|]; [by apply settles_Poll|].
  destruct (Z.eqb_spec (m_label m) Op_Listen) as [->|]; [by apply settles_Listen|].
  destruct (Z.eqb_spec (m_label m) Op_Accept) as [_|_]; [by apply settles_Accept|by apply settles_Close].
Qed.
End round.

(** ** What is asked of a request *)

(** It is not an operation on the Net: volume; a notification carries no
    reply handle; and the badge of a socket operation names no parked child,
    whose number no client has been told. *)
Record honest (q : request) (e : eng) : Prop := {
  hn_label : 18 < m_label (rq_msg q);
  hn_note : m_label (rq_msg q) = Notification_Label -> rq_reply q = 0;
  hn_badge : badge_used (rq_badge q) e = true -> s_claimed (sk e (Z.to_nat (rq_badge q))) = true }.

(** The capabilities that the handler of a request takes over: none when the
    dispatcher rejects it. *)
Definition cap_args (q : request) (e : eng) : list Z :=
  let l := m_label (rq_msg q) in
  let c i := nth i (m_caps (rq_msg q)) 0 in
  if (l =? Op_Socket) && (rq_badge q =? 0) || (l =? Op_Accept) && badge_used (rq_badge q) e
  then [c 0%nat; c 1%nat]
  else if (l =? Op_Resolve) && (rq_badge q =? 0) then [c 0%nat] else [].

(** The other ones that came with it; nothing looks at them. *)
Definition left_caps (q : request) (e : eng) : list Z := drop (length (cap_args q e)) (m_caps (rq_msg q)).

Lemma caps_split cap q e : cap <> 0 -> tally cap (cap_args q e) + tally cap (left_caps q e) = tally cap (m_caps (rq_msg q)).
Proof.
  intros Hc. pose proof (one_0 cap Hc) as H0. unfold left_caps, cap_args. cbv zeta.
  destruct (_ || _); [|destruct (_ && _)]; destruct (m_caps (rq_msg q)) as [|a [|b l]]; cbn [length nth drop]; rewrite ?tally_cons, ?H0;
    try change (tally cap []) with 0; rewrite ?drop_0; lia.
Qed.

Section dispatch.
Context (hnd cap now : Z) (Hhnd : hnd <> 0) (Hcap : cap <> 0).
Context (fuel : nat) (file_op : msg -> EM unit).
#[local] Notation ewp := (ewp hnd cap now).
#[local] Notation settles := (settles hnd cap now).

Lemma badge_live q e :
  honest q e -> badge_used (rq_badge q) e = true -> live (Z.to_nat (rq_badge q)) e.
Proof.
  intros Hn Hb. pose proof (hn_badge _ _ Hn Hb) as Hc. unfold badge_used in Hb.
  apply andb_true_iff in Hb as [Hi Hu]. split_and!; [|done..]. by eapply id_ok_pos.
Qed.

Lemma settles_dispatch q e g :
  honest q e -> quiet e -> e_reply_h e = rq_reply q ->
  settles (dispatch fuel file_op q) e g (one (rq_reply q) hnd) (tally cap (cap_args q e)).
Proof.
  intros Hn Hq Hh. pose proof (hn_label _ _ Hn) as H18. unfold dispatch. cbv zeta.
  destruct (Z.eqb_spec (m_label (rq_msg q)) Notification_Label) as [El|_].
  { unfold cap_args. rewrite El, (hn_note _ _ Hn El), (one_0 hnd) by done. cbn.
    by apply settles_keeps, keeps_notified. }
  replace (m_label (rq_msg q) <=? 18) with false by (symmetry; apply Z.leb_gt; lia).
  destruct ((_ =? Op_Ping) && _) eqn:E1.
  { bool_to_prop. eapply settles_eq; [by apply settles_Ping|done|]. unfold cap_args.
    replace (m_label (rq_msg q)) with Op_Ping by done. done. }
  destruct ((_ =? Op_Socket) && _) eqn:E2.
  { unfold cap_args. rewrite E2. by apply settles_Open. }
  destruct ((_ =? Op_Resolve) && _) eqn:E3.
  { eapply settles_eq; [by apply settles_Resolve|done|]. unfold cap_args. rewrite E2, E3.
    bool_to_prop. replace (m_label (rq_msg q)) with Op_Resolve by done. done. }
  apply settles_gets. destruct (_ && badge_used _ _) eqn:E4.
  - apply andb_true_iff in E4 as [_ Hb]. eapply settles_eq.
    + apply settles_sock_op; [done|done|by apply badge_live|done|exact Hh].
    + done.
    + unfold cap_args. rewrite E2, E3, Hb, andb_true_r. cbn [orb]. by destruct (_ =? Op_Accept).
  - eapply settles_eq; [by apply settles_reply_if_owed|done|]. unfold cap_args. rewrite E2, E3.
    destruct (Z.eqb_spec (m_label (rq_msg q)) Op_Accept) as [Ea|]; [|done]. rewrite Ea in E4. cbn in E4.
    by rewrite E4.
Qed.

Lemma ewp_service_round q e g :
  good (g_wins g) e -> quiet e -> honest q e ->
  ewp (service_round fuel file_op q) e g (fun _ e' g' => quiet e' /\
    balanced hnd cap e g (one (rq_reply q) hnd) (tally cap (cap_args q e)) e' g').
Proof.
  intros Hg Hq Hn. unfold service_round. apply ewp_bind, ewp_modify.
  set (e1 := set_reply_h _ e). assert (Hg1 : good (g_wins g) e1) by (by apply (same_good _ e)).
  assert (Hn1 : honest q e1) by (by destruct Hn). apply ewp_bind.
  eapply ewp_settles; [by apply settles_dispatch|done|]. intros [] e2 g2 (D1 & D2 & D3).
  apply ewp_bind. eapply ewp_mono; [by apply keeps_glue_cb|]. intros r e3 g3 (-> & Hg3 & Hk3).
  eapply ewp_mono; [by apply ewp_completions|]. intros [] e4 g4 (Hq4 & Hf4). split; [done|].
  destruct (fi_books _ _ _ _ _ _ _ Hf4) as (B1 & B2 & B3).
  rewrite (owed_kept hnd Hhnd _ _ Hk3) in B2. rewrite (held_kept cap Hcap _ _ Hk3) in B3.
  change (owed hnd e1) with (owed hnd e) in D2. change (held_caps cap e1) with (held_caps cap e) in D3.
  change (cap_args q e1) with (cap_args q e) in D3. split_and!; [done|lia..].
Qed.

Lemma ewp_notified_round q e g :
  good (g_wins g) e -> m_label (rq_msg q) = Notification_Label ->
  ewp (service_round fuel file_op q) e g (fun _ _ _ => True).
Proof.
  intros Hg Hl. unfold service_round. apply ewp_bind, ewp_modify.
  set (e1 := set_reply_h _ e). assert (Hg1 : good (g_wins g) e1) by (by apply (same_good _ e)).
  unfold dispatch. cbv zeta. rewrite Hl. cbn [Z.eqb]. rewrite Z.eqb_refl. apply ewp_bind.
  eapply ewp_mono; [by apply keeps_notified|]. intros [] e2 g2 (-> & Hg2 & _).
  apply ewp_bind. eapply ewp_mono; [by apply keeps_glue_cb|]. intros r e3 g3 (-> & Hg3 & Hk3).
  by eapply ewp_mono; [apply ewp_completions|].
Qed.

Lemma ewp_tick_round q e g :
  good (g_wins g) e -> m_label (rq_msg q) = Notification_Label ->
  negb (Z.land (word (rq_msg q) 0) Signal_Tick =? 0) = true ->
  ewp (service_round fuel file_op q) e g (fun _ e' g' => quiet e' /\
    forall i, (0 < i)%nat -> timely now i e').
Proof.
  intros Hg Hl Hb. unfold service_round. apply ewp_bind, ewp_modify.
  set (e1 := set_reply_h _ e). assert (Hg1 : good (g_wins g) e1) by (by apply (same_good _ e)).
  unfold dispatch. cbv zeta. rewrite Hl. cbn [Z.eqb]. rewrite Z.eqb_refl. apply ewp_bind.
  eapply ewp_mono; [by apply keeps_tick|]. intros [] e2 g2 (-> & Hg2 & _ & Ht2).
  apply ewp_bind. eapply ewp_mono; [by apply keeps_glue_cb|]. intros r e3 g3 (-> & Hg3 & Hk3).
  eapply ewp_mono; [by apply ewp_completions|]. intros [] e4 g4 (Hq4 & Hf4). split; [done|].
  intros i Hi Hc. destruct (fi_conn _ _ _ _ _ _ _ Hf4 i Hi) as [E1 E2].
  rewrite E2. apply (timely_kept _ _ e2 e3 Hk3); [by apply Ht2|]. by rewrite <- E1.
Qed.
End dispatch.
