(* ===== verification/EngineSpec.v ===== *)
(** * netserv serves its clients

    The claims about the engine, over every history of the service loop: any
    series of requests, any answers of the kernel, lwIP and the clients'
    memory, any callbacks ([served]).

    - every request is answered exactly once, or its reply is parked with an
      operation that is still under way;
    - every capability that comes with a request ends up with a socket, is
      deleted, or is one that no handler takes, which stays behind;
    - accesses leave the windows that are mapped, and checks fail, only on
      empty datagrams and on badges of parked children;
    - a connect that is past its deadline does not survive a tick;
    - a badge that names a parked child makes the server fault. *)
From S2P Require Import Prelude CInt Prog Ring RingInv RingSafe SockBridge SockBridgeSpec Engine EngineLogic EngineInv EngineKeep EngineLedger EngineOps EngineTable EngineRound.

(** ** Lists of handles *)

Definition nonzero (l : list Z) : list Z := filter (fun x => x <> 0) l.

Lemma tally_count c l : tally c l = Z.of_nat (count_occ Z.eq_dec l c).
Proof.
  induction l as [|x l IH]; [done|]. rewrite tally_cons, IH. unfold one. cbn.
  destruct (Z.eqb_spec x c), (Z.eq_dec x c); lia.
Qed.

Lemma count_nonzero c l : c <> 0 -> count_occ Z.eq_dec (nonzero l) c = count_occ Z.eq_dec l c.
Proof.
  intros Hc. induction l as [|x l IH]; [done|]. unfold nonzero in *. rewrite filter_cons. cbn.
  destruct (decide (x <> 0)); cbn; destruct (Z.eq_dec x c); lia.
Qed.

Lemma nonzero_perm l1 l2 :
  (forall c, c <> 0 -> tally c l1 = tally c l2) -> nonzero l1 ≡ₚ nonzero l2.
Proof.
  intros H. apply (Permutation_count_occ Z.eq_dec). intros c. destruct (decide (c = 0)) as [->|Hc].
  - transitivity 0%nat; [|symmetry]; apply count_occ_not_In; rewrite <- list_elem_of_In;
      unfold nonzero; rewrite list_elem_of_filter; naive_solver.
  - rewrite !count_nonzero by done. specialize (H c Hc). rewrite !tally_count in H. lia.
Qed.

Lemma nonzero_app l1 l2 : nonzero (l1 ++ l2) = nonzero l1 ++ nonzero l2.
Proof. apply filter_app. Qed.

(** ** Histories *)

(** The number of slots the driver answers to [Op_Set_Rx] for a ring object
    of that many bytes. *)
Definition Ring_Slot_Count (ring_bytes : Z) : Z := (ring_bytes - 4096) / 2048.

(** The engine as it enters its service loop. *)
Record started (e : eng) : Prop := {
  st_socks : e_socks e = [];
  st_resolves : e_resolves e = [];
  st_ping : e_ping_reply e = 0;
  st_slots : e_ring_slots e = Ring_Slot_Count Drv_Ring_Bytes }.

Definition start_windows : gmap Z Z := {[Drv_Ring_VA := Drv_Ring_Bytes]}.

Section served.
Context (fuel : nat) (file_op : msg -> EM unit).

(** [served w e hs cs tr w' e']: from the engine [e] with the windows [w],
    rounds that received the reply handles [hs] and the capabilities [cs],
    [ls] of which no handler takes, and took the actions [tr] lead to [e'] and
    [w']. *)
Inductive served : gmap Z Z -> eng -> list Z -> list Z -> list Z -> list event -> gmap Z Z -> eng -> Prop :=
  | served_none w e : served w e [] [] [] [] w e
  | served_round now w e q tr e1 hs cs ls tr' w' e' :
      honest q e -> steps (service_round fuel file_op q e) tr (Ret (tt, e1)) -> legal now w tr ->
      served (windows w tr) e1 hs cs ls tr' w' e' ->
      served w e (rq_reply q :: hs) (m_caps (rq_msg q) ++ cs) (left_caps q e ++ ls) (tr ++ tr') w' e'.

(** The invariant between rounds. *)
Definition steady (w : gmap Z Z) (e : eng) : Prop := good w e /\ quiet e.

Lemma start_steady e : started e -> steady start_windows e.
Proof.
  intros [Hs Hr Hp Hn]. assert (Hsk : forall i, sk e i = zero_state).
  { intros i. unfold sk. rewrite Hs. by destruct (i - 1)%nat. }
  split; [split|split].
  - intros i Hi. rewrite Hsk. split; try done. intros _. split_and!; [done..|].
    unfold start_windows. apply lookup_singleton_None. intros Heq. by apply (Sock_VA_drv i).
  - rewrite Hs. done.
  - by rewrite Hr.
  - by rewrite Hn.
  - apply lookup_singleton_Some. done.
  - intros i _. by rewrite Hsk.
  - done.
Qed.

(** One round, with its ledger for a handle and a capability. *)
Lemma round_ledger hnd cap now w e q tr e1 :
  hnd <> 0 -> cap <> 0 -> steady w e -> honest q e ->
  steps (service_round fuel file_op q e) tr (Ret (tt, e1)) -> legal now w tr ->
  steady (windows w tr) e1 /\
  owed hnd e1 + tally hnd (replies tr) = owed hnd e + one (rq_reply q) hnd /\
  held_caps cap e1 + tally cap (deletes tr) = held_caps cap e + tally cap (cap_args q e).
Proof.
  intros Hh Hc [Hg Hq] Hn Hs Hl.
  pose proof (ewp_service_round hnd cap now Hh Hc fuel file_op q e (Ghost 0 0 w) Hg Hq Hn) as Hw.
  apply (wpp_steps hnd cap now _ _ _ _ _ Hs) in Hw; [|done].
  destruct Hw as (Hq1 & Hg1 & B1 & B2). cbn in *. split; [done|]. lia.
Qed.

Lemma replies_app tr1 tr2 : replies (tr1 ++ tr2) = replies tr1 ++ replies tr2.
Proof. apply omap_app. Qed.
Lemma deletes_app tr1 tr2 : deletes (tr1 ++ tr2) = deletes tr1 ++ deletes tr2.
Proof. apply omap_app. Qed.

Lemma served_steady w e hs cs ls tr w' e' :
  served w e hs cs ls tr w' e' -> steady w e -> steady w' e'.
Proof.
  induction 1 as [|now w e q tr e1 hs cs ls tr' w' e' Hn Hs Hl _ IH]; [done|]. intros Hst.
  apply IH. by eapply (round_ledger 1 1).
Qed.

Lemma served_ledger hnd cap w e hs cs ls tr w' e' :
  hnd <> 0 -> cap <> 0 -> served w e hs cs ls tr w' e' -> steady w e ->
  owed hnd e' + tally hnd (replies tr) = owed hnd e + tally hnd hs /\
  held_caps cap e' + tally cap (deletes tr) + tally cap ls = held_caps cap e + tally cap cs.
Proof.
  intros Hh Hc. induction 1 as [|now w e q tr e1 hs cs ls tr' w' e' Hn Hs Hl _ IH]; intros Hst.
  - cbn. lia.
  - destruct (round_ledger hnd cap now w e q tr e1) as (Hst1 & R1 & R2); [done..|].
    destruct (IH Hst1) as [I1 I2].
    pose proof (caps_split cap q e Hc). rewrite replies_app, deletes_app, !tally_app, tally_cons. lia.
Qed.

Lemma start_empty hnd cap e : started e -> hnd <> 0 -> owed hnd e = 0 /\ held_caps cap e = 0.
Proof.
  intros [Hs Hr Hp _] Hh. unfold owed, owing, held_caps, holding. rewrite Hs, Hr, Hp. cbn.
  rewrite one_0 by done. done.
Qed.
End served.

(** ** Requests are answered *)

(** C2. Every request is answered exactly once.  After any history of the
    service loop, the reply handles received so far are, each once, the ones
    answered and the ones parked; and a parked one belongs to a socket whose
    connect is under way, to the ping that is awaited, or to a lookup. *)
Theorem requests_answered fuel file_op e0 hs cs ls tr w e :
  started e0 -> served fuel file_op start_windows e0 hs cs ls tr w e ->
  nonzero (replies tr) ++ nonzero (owing e) ≡ₚ nonzero hs /\
  (forall i, (0 < i)%nat -> s_reply_stash (sk e i) <> 0 ->
     s_used (sk e i) = true /\ s_conn_state (sk e i) = Conn_Connecting) /\
  (e_ping_reply e <> 0 -> e_ping_pending e = true).
Proof.
  intros H0 Hs. pose proof (start_steady _ H0) as Hst.
  destruct (served_steady _ _ _ _ _ _ _ _ _ _ Hs Hst) as [Hg [Hq1 Hq2]]. split_and!.
  - rewrite <- nonzero_app. apply nonzero_perm. intros c Hc.
    destruct (served_ledger _ _ c 1 _ _ _ _ _ _ _ _ Hc ltac:(done) Hs Hst) as [H1 _].
    destruct (start_empty c 1 e0 H0 Hc) as [H2 _]. rewrite tally_app. unfold owed in *. lia.
  - intros i Hi Hn. pose proof (Hq1 i Hi Hn) as Hc. split; [|done].
    by apply (so_conn _ _ _ (gd_socks _ _ Hg i Hi)).
  - done.
Qed.

(** C15. What becomes of the capabilities.  After any history, the
    capabilities that came with the requests are, each once, the ones deleted,
    the ones of the sockets, and the ones that no handler takes: all those of
    a request that the dispatcher rejects or whose operation takes none, and
    those beyond the ring and the notification of [Op_Socket] and [Op_Accept]
    or the buffer of [Op_Resolve].  The last are neither deleted nor held, so
    that they stay in the server's table.  Only sockets in use and claimed
    hold capabilities, and exactly their windows are mapped. *)
Theorem server_caps_accounted fuel file_op e0 hs cs ls tr w e :
  started e0 -> served fuel file_op start_windows e0 hs cs ls tr w e ->
  nonzero (deletes tr) ++ nonzero (holding e) ++ nonzero ls ≡ₚ nonzero cs /\
  forall i, (0 < i)%nat ->
    if s_used (sk e i) && s_claimed (sk e i)
    then w !! Sock_VA i = Some Ring_Bytes
    else w !! Sock_VA i = None /\ s_ring_cap (sk e i) = 0 /\ s_ntfn_cap (sk e i) = 0.
Proof.
  intros H0 Hs. pose proof (start_steady _ H0) as Hst.
  destruct (served_steady _ _ _ _ _ _ _ _ _ _ Hs Hst) as [Hg _]. split.
  - rewrite <- !nonzero_app. apply nonzero_perm. intros c Hc.
    destruct (served_ledger _ _ 1 c _ _ _ _ _ _ _ _ ltac:(done) Hc Hs Hst) as [_ H1].
    destruct (start_empty 1 c e0 H0) as [_ H2]; [done|]. rewrite !tally_app. unfold held_caps in *. lia.
  - intros i Hi. pose proof (gd_socks _ _ Hg i Hi) as [O1 O2 O3 O4 O5].
    destruct (_ && _) eqn:E; [by bool_to_prop; apply O1|].
    destruct (O3 eq_refl) as (_ & N2 & N3 & N4). done.
Qed.

(** ** Faults *)

(** A byte that is read is a byte. *)
Definition byte_event (v : event) : Prop :=
  match v with
  | Event e x => match e in ev X return X -> Prop with Ld8 _ => fun b => 0 <= b < 256 | _ => fun _ => True end x
  end.

(** A callback the engine is not prepared for: an empty datagram, or data
    reported as sent for a socket that has no rings. *)
Definition bad_callback (w : gmap Z Z) (c : callback) : Prop :=
  match c with
  | On_Udp_Rx _ _ _ _ len => len <= 0
  | On_Tcp_Sent id len => 0 < len /\ w !! Sock_VA (Z.to_nat id) <> Some Ring_Bytes
  | _ => False
  end.

Lemma callback_good_or_bad w c : callback_ok w c \/ bad_callback w c.
Proof.
  destruct c as [? ? ? ? len| | | | | | |id len|]; cbn; try by left.
  - destruct (Z.lt_ge_cases 0 len); [by left|by right].
  - destruct (Z.lt_ge_cases 0 len); [|left; lia]. destruct (decide (w !! Sock_VA (Z.to_nat id) = Some Ring_Bytes)); [by left|by right].
Qed.

Lemma legal_mono now now' w tr : now' <= now -> legal now w tr -> legal now' w tr.
Proof.
  intros Hle. revert w. induction tr as [|[X e x] tr IH]; intros w; [done|]. cbn. intros [Ha Hl]. split; [|by apply IH].
  destruct e; cbn in *; try done. lia.
Qed.

Lemma legal_or_bad w tr : Forall byte_event tr ->
  (exists now, legal now w tr) \/
  exists tr1 n c tr2, tr = tr1 ++ Event (Next_Callback n) (Some c) :: tr2 /\ bad_callback (windows w tr1) c.
Proof.
  revert w. induction tr as [|[X e x] tr IH]; intros w Hb; [by left; exists 0|].
  apply Forall_cons in Hb as [Hb Hbs]. destruct (IH (windows_after e x w) Hbs) as [[now Hl]|(tr1 & n & c & tr2 & -> & Hc)].
  2: { right. exists (Event e x :: tr1), n, c, tr2. by split. }
  assert ((exists now', allowed now' w e x) \/ exists n c, Event e x = Event (Next_Callback n) (Some c) /\ bad_callback w c)
    as [[now' Ha]|(n & c & E & Hc)].
  { destruct e; cbn in *; try by left; exists 0.
    - left. by exists x.
    - destruct x as [c|]; [|by left; exists 0]. destruct (callback_good_or_bad w c); [by left; exists 0|right; by eexists _, c]. }
  - left. exists (Z.min now now'). cbn. split; [|eapply legal_mono; [|exact Hl]; lia].
    destruct e; cbn in *; try done. lia.
  - right. rewrite E. by exists [], n, c, tr.
Qed.

(** C6. The server faults only where it trusts its clients and its network.
    After any history, if at some point of the next round the engine is about
    to access memory outside the windows that are mapped or a check has
    failed, whatever the request, whatever the clients and the driver wrote
    into the rings and whatever lwIP calls back, then the round serves an
    operation on the Net: volume, or the badge of the request names a child
    that no client has accepted, or lwIP has passed an empty datagram or
    reported data as sent for a socket that has no rings. *)
Theorem server_faults_only fuel file_op e0 hs cs ls tr w e q tr' p :
  started e0 -> served fuel file_op start_windows e0 hs cs ls tr w e ->
  steps (service_round fuel file_op q e) tr' p -> Forall byte_event tr' -> faulty_in (windows w tr') p ->
  m_label (rq_msg q) <= 18 \/
  (badge_used (rq_badge q) e = true /\ s_claimed (sk e (Z.to_nat (rq_badge q))) = false) \/
  exists tr1 n c tr2, tr' = tr1 ++ Event (Next_Callback n) (Some c) :: tr2 /\ bad_callback (windows w tr1) c.
Proof.
  intros H0 Hs Hp Hb Hf.
  destruct (served_steady _ _ _ _ _ _ _ _ _ _ Hs (start_steady _ H0)) as [Hg Hq].
  destruct (legal_or_bad w tr' Hb) as [[now Hl]|Hbad]; [|by right; right].
  destruct (Z.le_gt_cases (m_label (rq_msg q)) 18) as [?|Hlab]; [by left|].
  destruct (decide (m_label (rq_msg q) = Notification_Label)) as [En|En].
  - pose proof (ewp_notified_round 1 1 now ltac:(done) fuel file_op q e (Ghost 0 0 w) Hg En) as Hw.
    apply (wpp_steps 1 1 now _ _ _ _ _ Hp) in Hw; [|done]. by apply wpp_safe in Hw.
  - destruct (badge_used (rq_badge q) e) eqn:Eb; [destruct (s_claimed _) eqn:Ec|].
    2: { right. by left. }
    all: assert (honest q e) as Hn by (split; [lia|done|congruence]).
    all: pose proof (ewp_service_round 1 1 now ltac:(done) ltac:(done) fuel file_op q e (Ghost 0 0 w) Hg Hq Hn) as Hw.
    all: apply (wpp_steps 1 1 now _ _ _ _ _ Hp) in Hw; [|done]; by apply wpp_safe in Hw.
Qed.

(** C16. Connects time out.  After a round for a tick of the 50 ms timer, with
    every reading of the clock in it at [now] or later, each reply that is
    still parked at a socket belongs to a connect whose deadline has not
    passed: the other ones were answered. *)
Theorem connects_time_out fuel file_op e0 hs cs ls tr w e now q tr' e' :
  started e0 -> served fuel file_op start_windows e0 hs cs ls tr w e ->
  m_label (rq_msg q) = Notification_Label ->
  negb (Z.land (word (rq_msg q) 0) Signal_Tick =? 0) = true ->
  steps (service_round fuel file_op q e) tr' (Ret (tt, e')) -> legal now w tr' ->
  forall i, (0 < i)%nat -> s_reply_stash (sk e' i) <> 0 -> now <= s_conn_deadline (sk e' i).
Proof.
  intros H0 Hs Hlab Hb Hp Hl i Hi Hn.
  destruct (served_steady _ _ _ _ _ _ _ _ _ _ Hs (start_steady _ H0)) as [Hg Hq].
  pose proof (ewp_tick_round 1 1 now ltac:(done) fuel file_op q e (Ghost 0 0 w) Hg Hlab Hb) as Hw.
  apply (wpp_steps 1 1 now _ _ _ _ _ Hp) in Hw; [|done]. destruct Hw as [[Hq1 _] Ht].
  apply Ht; [done|]. by apply Hq1.
Qed.

(** ** Ephemeral ports *)




(** ** A history *)

(** A run against given answers, with its trace. *)
Fixpoint drive {S A} (o : forall X, ev X -> S -> X * S) (p : prog A) (s : S)
    : list event * prog A :=
  match p with
  | Vis v k =>
      let '(x, s') := o _ v s in
      let '(tr, p') := drive o (k x) s' in (Event v x :: tr, p')
  | _ => ([], p)
  end.

Lemma drive_steps {S A} (o : forall X, ev X -> S -> X * S) (p : prog A) s :
  steps p (drive o p s).1 (drive o p s).2.
Proof.
  revert s. induction p as [a|X v k IH| |]; intros s; cbn; try constructor.
  destruct (o X v s) as [x s']. specialize (IH x s'). destruct (drive o (k x) s') as [tr p'].
  by constructor.
Qed.

(** Answers: a clock at [t], callbacks [cbs], lwIP and the kernel oblige. *)
Definition oblige (t : Z) : forall X, ev X -> list callback -> X * list callback := fun X v =>
  match v in ev X return list callback -> X * list callback with
  | Ld8 _ | Ld64 _ => fun c => (0, c)
  | St8 _ _ | St64 _ _ | Fence => fun c => (tt, c)
  | Read_Time => fun c => (t, c)
  | Sleep_Until _ | Mem_Alloc _ | Ntfn_Create | Ntfn_Signal _ _ | Mem_Map _ _ _ _ _
  | Mem_Unmap _ _ | Cap_Mint _ _ _ | Cap_Delete _ | IPC_Reply _ _ => fun c => (0, c)
  | IPC_Call _ _ => fun c => ((0, Msg 0 [] []), c)
  | Tab_Append => fun c => (true, c)
  | Glue g => fun c =>
      (match g with Tcp_New _ => (1000, (0, 0)) | Tcp_Listen _ _ => (0, (1001, 0)) | _ => (0, (0, 0)) end, c)
  | Next_Callback _ => fun c =>
      match c with [] => (None, []) | x :: c' => (Some x, c') end
  end.

Definition no_file_op (m : msg) : EM unit := mret tt.

Definition demo_eng : eng :=
  Eng [] [] [] 49152 0x0A00020F 0x0A000202 500 0 false 0 0 0 0 0 0 false false 8.

Definition demo_round (t : Z) (cbs : list callback) (q : request) (e : eng) : list event * prog (unit * eng) :=
  drive (oblige t) (service_round 8 no_file_op q e) cbs.

Definition after_round (t : Z) (cbs : list callback) (q : request) (e : eng) : eng :=
  match (demo_round t cbs q e).2 with Ret (_, e') => e' | _ => e end.

(** A client opens a stream socket and connects; the peer does not answer;
    six seconds later the tick ends the attempt. *)
Definition ask_socket : request := Request (Msg Op_Socket [AF_INET; SOCK_STREAM; Proto_Tcp] [31; 32]) 0 101.
Definition ask_connect : request := Request (Msg Op_Connect [0x0A000202; 80] []) 1 102.
Definition tick : request := Request (Msg Notification_Label [Signal_Tick] []) 0 0.

Definition demo_e1 : eng := Eval vm_compute in after_round 5 [] ask_socket demo_eng.
Definition demo_e2 : eng := Eval vm_compute in after_round 5 [] ask_connect demo_e1.
Definition demo_e3 : eng := Eval vm_compute in after_round (6 * Tick_Hz) [] tick demo_e2.
Definition demo_tr (t : Z) (q : request) (e : eng) : list event := (demo_round t [] q e).1.

Lemma demo_step t cbs q e e1 :
  (demo_round t cbs q e).2 = Ret (tt, e1) ->
  steps (service_round 8 no_file_op q e) (demo_round t cbs q e).1 (Ret (tt, e1)).
Proof. intros <-. apply drive_steps. Qed.

Ltac check_legal := vm_compute; repeat split; intros; try discriminate; try exact I.
Ltac check_honest := split; [vm_compute; reflexivity|vm_compute; congruence|vm_compute; congruence].

Lemma demo_served2 :
  served 8 no_file_op start_windows demo_eng [101; 102] [31; 32] []
    (demo_tr 5 ask_socket demo_eng ++ demo_tr 5 ask_connect demo_e1 ++ [])
    (windows (windows start_windows (demo_tr 5 ask_socket demo_eng)) (demo_tr 5 ask_connect demo_e1)) demo_e2.
Proof.
  apply (served_round 8 no_file_op 0 _ _ ask_socket _ demo_e1 [102] [] []); [check_honest| | |].
  - apply (demo_step 5 []). vm_compute. reflexivity.
  - check_legal.
  - apply (served_round 8 no_file_op 0 _ _ ask_connect _ demo_e2 [] [] []); [check_honest| | |constructor].
    + apply (demo_step 5 []). vm_compute. reflexivity.
    + check_legal.
Qed.

Lemma demo_started : started demo_eng.
Proof. split; vm_compute; (done || lia || split; discriminate). Qed.

Lemma requests_answered_witness :
  replies (demo_tr 5 ask_socket demo_eng ++ demo_tr 5 ask_connect demo_e1 ++ []) = [101] /\
  nonzero (owing demo_e2) = [102] /\
  nonzero (replies (demo_tr 5 ask_socket demo_eng ++ demo_tr 5 ask_connect demo_e1 ++ []))
    ++ nonzero (owing demo_e2) ≡ₚ nonzero [101; 102].
Proof.
  split; [vm_compute; reflexivity|]. split; [vm_compute; reflexivity|].
  exact (proj1 (requests_answered _ _ _ _ _ _ _ _ _ demo_started demo_served2)).
Defined.

(** An operation there is none of, with two capabilities. *)
Definition ask_nothing : request := Request (Msg 99 [] [41; 42]) 0 106.

Lemma demo_served3 :
  served 8 no_file_op start_windows demo_eng [101; 106] [31; 32; 41; 42] [41; 42]
    (demo_tr 5 ask_socket demo_eng ++ demo_tr 5 ask_nothing demo_e1 ++ [])
    (windows (windows start_windows (demo_tr 5 ask_socket demo_eng)) (demo_tr 5 ask_nothing demo_e1)) (after_round 5 [] ask_nothing demo_e1).
Proof.
  apply (served_round 8 no_file_op 0 _ _ ask_socket _ demo_e1 [106] [41; 42] [41; 42]); [check_honest| | |].
  - apply (demo_step 5 []). vm_compute. reflexivity.
  - check_legal.
  - apply (served_round 8 no_file_op 0 _ _ ask_nothing _ (after_round 5 [] ask_nothing demo_e1) [] [] []); [check_honest| | |constructor].
    + apply (demo_step 5 []). vm_compute. reflexivity.
    + check_legal.
Qed.

(** The socket has its two capabilities; those of the rejected request stay. *)
Lemma server_caps_accounted_witness :
  nonzero (holding (after_round 5 [] ask_nothing demo_e1)) = [31; 32] /\
  replies (demo_tr 5 ask_nothing demo_e1) = [106] /\
  nonzero (deletes (demo_tr 5 ask_socket demo_eng ++ demo_tr 5 ask_nothing demo_e1 ++ []))
    ++ nonzero (holding (after_round 5 [] ask_nothing demo_e1)) ++ nonzero [41; 42] ≡ₚ nonzero [31; 32; 41; 42].
Proof.
  split; [vm_compute; reflexivity|]. split; [vm_compute; reflexivity|].
  exact (proj1 (server_caps_accounted _ _ _ _ _ _ _ _ _ demo_started demo_served3)).
Defined.

(** The connect was parked with a deadline of five seconds; at the tick its
    handle is answered with the timeout. *)
Lemma connects_time_out_witness :
  s_reply_stash (sk demo_e2 1) = 102 /\ s_conn_deadline (sk demo_e2 1) < 6 * Tick_Hz /\
  replies (demo_tr (6 * Tick_Hz) tick demo_e2) = [102] /\
  (s_reply_stash (sk demo_e3 1) <> 0 -> 6 * Tick_Hz <= s_conn_deadline (sk demo_e3 1)).
Proof.
  split; [vm_compute; reflexivity|]. split; [vm_compute; reflexivity|]. split; [vm_compute; reflexivity|].
  apply (connects_time_out 8 no_file_op demo_eng [101; 102] [31; 32] [] _ _ demo_e2 (6 * Tick_Hz) tick
    (demo_tr (6 * Tick_Hz) tick demo_e2) demo_e3 demo_started demo_served2).
  - reflexivity.
  - vm_compute. reflexivity.
  - apply (demo_step (6 * Tick_Hz) []). vm_compute. reflexivity.
  - check_legal.
  - lia.
Defined.


(** ** A badge that was not given out *)

(** A listener on port 80 with a parked child: a tick brings the accept
    callback. *)
Definition ask_bind : request := Request (Msg Op_Bind [80] []) 1 103.
Definition ask_listen : request := Request (Msg Op_Listen [4] []) 1 104.
Definition demo_l1 : eng := Eval vm_compute in after_round 5 [] ask_bind demo_e1.
Definition demo_l2 : eng := Eval vm_compute in after_round 5 [] ask_listen demo_l1.
Definition demo_l3 : eng := Eval vm_compute in after_round 5 [On_Tcp_Accept 1 2000] tick demo_l2.

Definition forged_poll : request := Request (Msg Op_Poll [] []) 2 105.

Definition demo_lw : gmap Z Z := <[Sock_VA 1 := Ring_Bytes]> start_windows.

Lemma forged_served : exists hs cs ls tr, served 8 no_file_op start_windows demo_eng hs cs ls tr demo_lw demo_l3.
Proof.
  do 4 eexists. apply (served_round 8 no_file_op 0 _ _ ask_socket (demo_round 5 [] ask_socket demo_eng).1 demo_e1);
    [check_honest|apply demo_step; vm_compute; reflexivity|check_legal|].
  apply (served_round 8 no_file_op 0 _ _ ask_bind (demo_round 5 [] ask_bind demo_e1).1 demo_l1);
    [check_honest|apply demo_step; vm_compute; reflexivity|check_legal|].
  apply (served_round 8 no_file_op 0 _ _ ask_listen (demo_round 5 [] ask_listen demo_l1).1 demo_l2);
    [check_honest|apply demo_step; vm_compute; reflexivity|check_legal|].
  apply (served_round 8 no_file_op 0 _ _ tick (demo_round 5 [On_Tcp_Accept 1 2000] tick demo_l2).1 demo_l3);
    [check_honest|apply demo_step; vm_compute; reflexivity|check_legal|].
  match goal with |- served _ _ ?w _ _ _ _ _ _ _ => assert (Hw : w = demo_lw) by (vm_compute; reflexivity); rewrite Hw end.
  constructor.
Qed.

Lemma forged_faulty : faulty_in demo_lw (service_round 8 no_file_op forged_poll demo_l3).
Proof.
  change (~ mapped demo_lw 0x54210000 8).
  intros (base & len & Hb & H1 & H2). unfold demo_lw, start_windows in Hb.
  apply lookup_insert_Some in Hb as [[<- <-]|[_ Hb]].
  + change (Sock_VA 1 + Ring_Bytes) with 0x54202000 in *. lia.
  + apply lookup_singleton_Some in Hb as [<- <-].
    change (Drv_Ring_VA + Drv_Ring_Bytes) with 0x54005000 in *. lia.
Qed.

(** C30. Badges are not authority, and the server trusts them: any holder of
    the net capability can mint the badge of a parked child, and polling it
    makes the server read the ring page of a socket that has none.  The state
    is reached by four ordinary rounds. *)
Theorem forged_poll_faults :
  (exists hs cs ls tr, served 8 no_file_op start_windows demo_eng hs cs ls tr demo_lw demo_l3) /\
  exists p, steps (service_round 8 no_file_op forged_poll demo_l3) [] p /\ faulty_in demo_lw p.
Proof.
  split; [exact forged_served|]. eexists. split; [apply steps_nil|exact forged_faulty].
Qed.

(** The poll of a parked child does fault, and its badge is the reason. *)
Lemma server_faults_only_witness :
  faulty_in demo_lw (service_round 8 no_file_op forged_poll demo_l3) /\
  badge_used (rq_badge forged_poll) demo_l3 = true /\ s_claimed (sk demo_l3 (Z.to_nat (rq_badge forged_poll))) = false.
Proof.
  split; [exact forged_faulty|]. destruct forged_served as (hs & cs & ls & tr & Hs).
  destruct (server_faults_only 8 no_file_op demo_eng hs cs ls tr demo_lw demo_l3 forged_poll []
    (service_round 8 no_file_op forged_poll demo_l3) demo_started Hs) as [H|[H|(tr1 & n & c & tr2 & E & _)]].
  - apply steps_nil.
  - constructor.
  - exact forged_faulty.
  - exfalso. revert H. vm_compute. congruence.
  - exact H.
  - by destruct tr1.
Defined.
