(* ===== verification/KPmm.v ===== *)
(** * The kernel's physical memory

    [kernel-physical_memory.adb]: frames of 4 KiB are taken from a list of
    freed frames, which is threaded through the frames themselves, and else
    from the end of what was handed out so far, past the reserved ranges.

    A frame holds a link of the free list ([Free_Link]) or whatever its owner keeps
    there ([Owned]); reading a link where none was written has no defined
    result.  The walk along the free list may take one round per frame of the
    memory: a longer walk is in a cycle and does not end. *)
From S2P Require Import Prelude CInt.

Definition Frame_Size : Z := 4096.
Definition Max_Reserved : nat := 8.

Inductive pm_status : Type :=
  | PM_Ok | Out_Of_Memory | Invalid_Range | Not_Initialized | Too_Many_Ranges.
#[export] Instance pm_status_eq : EqDecision pm_status.
Proof. solve_decision. Defined.

Inductive content (D : Type) : Type :=
  | Free_Link (next : Z)
  | Owned (d : D).
Arguments Free_Link {D} next.
Arguments Owned {D} d.

(** The variables of the package, and the frames behind them.  [Reserved]
    lists the ranges recorded so far, the end of each exclusive. *)
Record pmm (D : Type) := Pmm {
  Base_Frame : Z; Next_Frame : Z; Limit : Z;
  Free_List_Head : Z; Free_List_Count : Z;
  Is_Ready : bool;
  Reserved : list (Z * Z);
  frames : gmap Z (content D) }.
Arguments Pmm {D}.
Arguments Base_Frame {D}. Arguments Next_Frame {D}. Arguments Limit {D}.
Arguments Free_List_Head {D}. Arguments Free_List_Count {D}. Arguments Is_Ready {D}.
Arguments Reserved {D}. Arguments frames {D}.

Section pmm.
Context {D : Type}.

Definition set_next (v : Z) (s : pmm D) : pmm D := Pmm (Base_Frame s) v (Limit s) (Free_List_Head s) (Free_List_Count s)
  (Is_Ready s) (Reserved s) (frames s).
Definition set_free (head count : Z) (s : pmm D) : pmm D := Pmm (Base_Frame s) (Next_Frame s) (Limit s) head count
  (Is_Ready s) (Reserved s) (frames s).
Definition set_frames (m : gmap Z (content D)) (s : pmm D) : pmm D := Pmm (Base_Frame s) (Next_Frame s) (Limit s) (Free_List_Head s)
  (Free_List_Count s) (Is_Ready s) (Reserved s) m.

Definition Align_Up (v a : Z) : Z := u64 (u64 (u64 (v + a) - 1) / a * a).

(** [Link_At (F).all], read and written. *)
Definition get_link (f : Z) : M (pmm D) Z := fun s =>
  match frames s !! f with Some (Free_Link n) => Done n s | _ => Blocked s end.
Definition put_link (f n : Z) : M (pmm D) unit :=
  modifyM (fun s => set_frames (<[f := Free_Link n]> (frames s)) s).

Definition Valid_Frame (f : Z) (s : pmm D) : bool :=
  (Base_Frame s <=? f) && (f <? Next_Frame s) && (f mod Frame_Size =? 0).

Definition walk_round (f cur : Z) : M (pmm D) (Z + bool) :=
  if cur =? 0 then retM (inr false)
  else if cur =? f then retM (inr true)
  else let* n := get_link cur in retM (inl n).

Definition Is_In_Free_List (f : Z) : M (pmm D) bool := fun s =>
  iterM (S (size (frames s))) (walk_round f) (Free_List_Head s) s.

Definition Initialize (first_free last_byte : Z) : M (pmm D) pm_status := fun s =>
  let base := Align_Up first_free Frame_Size in
  let limit := last_byte - last_byte mod Frame_Size in
  let ready := base <? limit in
  Done (if ready then PM_Ok else Invalid_Range)
       (Pmm base base limit 0 0 ready (Reserved s) (frames s)).

Definition Reserve (base len : Z) : M (pmm D) pm_status := fun s =>
  if len =? 0 then Done PM_Ok s
  else if (length (Reserved s) =? Max_Reserved)%nat then Done Too_Many_Ranges s
  else Done PM_Ok (Pmm (Base_Frame s) (Next_Frame s) (Limit s) (Free_List_Head s)
         (Free_List_Count s) (Is_Ready s)
         (Reserved s ++ [(base - base mod Frame_Size, Align_Up (u64 (base + len)) Frame_Size)])
         (frames s)).

(** The end of the first range that overlaps [cand .. last). *)
Fixpoint first_overlap (rs : list (Z * Z)) (cand last : Z) : option Z :=
  match rs with
  | [] => None
  | (b, l) :: rs' => if (cand <? l) && (b <? last) then Some l else first_overlap rs' cand last
  end.

Fixpoint skip_loop (n : nat) (rs : list (Z * Z)) (cand pages : Z) : option Z :=
  match n with
  | O => None
  | S n' => match first_overlap rs cand (u64 (cand + pages * Frame_Size)) with
            | Some l => skip_loop n' rs l pages
            | None => Some cand
            end
  end.

(** Each restart leaves a range behind for good, so that one round per range
    and one more are enough ([skip_ends]). *)
Definition Skip_Reserved (rs : list (Z * Z)) (cand pages : Z) : option Z :=
  skip_loop (S (length rs)) rs cand pages.

(** The end of the frames handed out moves past the reserved ranges, and by
    the run itself if that fits. *)
Definition take_run (pages : Z) : M (pmm D) (pm_status * Z) := fun s =>
  match Skip_Reserved (Reserved s) (Next_Frame s) pages with
  | None => Blocked s
  | Some n =>
      if Limit s <? u64 (n + pages * Frame_Size)
      then Done (Out_Of_Memory, 0) (set_next n s)
      else Done (PM_Ok, n) (set_next (u64 (n + pages * Frame_Size)) s)
  end.

Definition Allocate_Frame : M (pmm D) (pm_status * Z) := fun s =>
  if negb (Is_Ready s) then Done (Not_Initialized, 0) s
  else if negb (Free_List_Head s =? 0) then
    (let f := Free_List_Head s in
     let* n := get_link f in
     modifyM (fun s => set_free n (u64 (Free_List_Count s - 1)) s) ;;
     put_link f 0 ;; retM (PM_Ok, f)) s
  else take_run 1 s.

Definition Allocate_Contiguous (pages : Z) : M (pmm D) (pm_status * Z) := fun s =>
  if negb (Is_Ready s) then Done (Not_Initialized, 0) s else take_run pages s.

Definition Deallocate_Frame (f : Z) : M (pmm D) pm_status := fun s =>
  if negb (Is_Ready s) then Done Not_Initialized s
  else
    (let* bad := if negb (Valid_Frame f s) then retM true else Is_In_Free_List f in
     if bad : bool then retM Invalid_Range
     else if u64 (f + Frame_Size) =? Next_Frame s
     then modifyM (set_next f) ;; retM PM_Ok
     else
       put_link f (Free_List_Head s) ;;
       modifyM (fun s => set_free f (u64 (Free_List_Count s + 1)) s) ;; retM PM_Ok) s.

Definition Mark (s : pmm D) : Z := Next_Frame s.

(** One frame of the old list: kept, in front of the new list, if it is below
    [to], else cut off.  The accumulator is the old head, the new head and
    the new count. *)
Definition rewind_round (to : Z) (acc : Z * (Z * Z)) : M (pmm D) (Z * (Z * Z) + Z * Z) :=
  let '(old, (head, count)) := acc in
  if old =? 0 then retM (inr (head, count))
  else
    let* n := get_link old in
    if old <? to
    then put_link old head ;; retM (inl (n, (old, u64 (count + 1))))
    else put_link old 0 ;; retM (inl (n, (head, count))).

Definition Rewind (to : Z) : M (pmm D) pm_status := fun s =>
  if negb (Is_Ready s) then Done Not_Initialized s
  else if (Next_Frame s <? to) || negb (to mod Frame_Size =? 0) then Done Invalid_Range s
  else
    (let* r := iterM (S (size (frames s))) (rewind_round to) (Free_List_Head s, (0, 0)) in
     modifyM (fun s => set_next to (set_free r.1 r.2 s)) ;; retM PM_Ok) s.

Definition Free_Bytes (s : pmm D) : Z :=
  if negb (Is_Ready s) then 0
  else
    u64 ((if Next_Frame s <? Limit s then Limit s - Next_Frame s else 0)
         + u64 (Free_List_Count s * Frame_Size)).

Definition Free_Frame_Count (s : pmm D) : Z :=
  if negb (Is_Ready s) then 0 else Free_Bytes s / Frame_Size.

Definition Next_Free_Frame (s : pmm D) : Z :=
  if negb (Free_List_Head s =? 0) then Free_List_Head s else Next_Frame s.

End pmm.
