(* ===== verification/KPmmSpec.v ===== *)
(** * Frames have one owner

    The invariant [pmm_ok] of the frame allocator: who owns a frame, which
    frames are on the free list, and that all of them are whole frames of the
    memory outside the reserved ranges.  Every operation keeps it and leaves
    the contents of all owned frames alone. *)
From S2P Require Import Prelude CInt KPmm.

Section spec.
Context {D : Type}.
Implicit Types (s : pmm D) (m : gmap Z (content D)) (o : gset Z).

(** ** The free list *)

(** The frames [l], linked from [h] on. *)
Fixpoint linked m (h : Z) (l : list Z) : Prop :=
  match l with
  | [] => h = 0
  | f :: l' => h = f /\ f <> 0 /\ exists n, m !! f = Some (Free_Link n) /\ linked m n l'
  end.

Lemma linked_ext m m' h l :
  (forall f, f ∈ l -> m' !! f = m !! f) -> linked m h l -> linked m' h l.
Proof.
  revert h. induction l as [|f l IH]; intros h Hm; [done|]. cbn.
  intros (-> & H0 & n & Hf & Hl). split_and!; [done..|]. exists n.
  rewrite Hm by set_solver. split; [done|]. apply IH; [|done]. set_solver.
Qed.

Lemma linked_insert m h l f c : f ∉ l -> linked m h l -> linked (<[f := c]> m) h l.
Proof. intros Hf. apply linked_ext. intros x Hx. rewrite lookup_insert_ne; [done|]. by intros ->. Qed.

Lemma linked_in_map m h l f : linked m h l -> f ∈ l -> exists n, m !! f = Some (Free_Link n).
Proof.
  revert h. induction l as [|x l IH]; intros h; [set_solver|]. intros (-> & _ & n & Hx & Hl) Hf.
  apply elem_of_cons in Hf as [->|Hf]; [by exists n|by eapply IH].
Qed.

Lemma linked_size m h l : NoDup l -> linked m h l -> (length l <= size m)%nat.
Proof.
  intros Hn Hl. rewrite <- size_dom, <- (size_list_to_set (C := gset Z) l) by done.
  apply subseteq_size. intros f Hf%elem_of_list_to_set.
  destruct (linked_in_map _ _ _ _ Hl Hf) as [n Hm]. by apply elem_of_dom.
Qed.

(** The walk finds what is on the list. *)
Lemma walk_finds f n h l s :
  linked (frames s) h l -> (length l < n)%nat ->
  iterM n (walk_round f) h s = Done (bool_decide (f ∈ l)) s.
Proof.
  revert n h. induction l as [|x l IH]; intros [|n] h Hl Hn; cbn in Hn; try lia; cbn [iterM];
    unfold walk_round at 1.
  - cbn in Hl. by rewrite Hl.
  - destruct Hl as (-> & H0 & nx & Hx & Hl). rewrite (proj2 (Z.eqb_neq x 0)) by done.
    destruct (Z.eqb_spec x f) as [->|Hne].
    + unfold_m. by rewrite bool_decide_eq_true_2 by set_solver.
    + unfold bindM, get_link, retM. rewrite Hx. rewrite IH by (done || lia).
      do 2 f_equal. apply bool_decide_ext. set_solver.
Qed.

(** ** Reserved ranges *)

(** The run of [k] frames at [f] meets no range. *)
Definition clear (rs : list (Z * Z)) (f k : Z) : Prop :=
  Forall (fun r => r.2 <= f \/ f + k * Frame_Size <= r.1) rs.

Definition ahead (rs : list (Z * Z)) (c : Z) : nat := length (filter (fun r => c < r.2) rs).

Lemma ahead_cons r rs c :
  ahead (r :: rs) c = ((if decide (c < r.2)%Z then 1 else 0) + ahead rs c)%nat.
Proof. unfold ahead. rewrite filter_cons. by case_decide. Qed.

Lemma ahead_mono rs c c' : c <= c' -> (ahead rs c' <= ahead rs c)%nat.
Proof.
  intros Hc. induction rs as [|r rs IH]; [done|]. rewrite !ahead_cons.
  destruct (decide (c' < r.2)), (decide (c < r.2)); lia.
Qed.

Lemma overlap_ahead rs c last l :
  first_overlap rs c last = Some l -> c < l /\ (ahead rs l < ahead rs c)%nat.
Proof.
  induction rs as [|[b x] rs IH]; [done|]. cbn [first_overlap]. rewrite !ahead_cons. cbn [snd].
  destruct (_ && _) eqn:E; bool_to_prop.
  - intros [= ->]. split; [done|]. pose proof (ahead_mono rs c l ltac:(lia)).
    rewrite decide_False, decide_True by lia. lia.
  - intros H. destruct (IH H) as (H1 & H3). split; [done|].
    destruct (decide (l < x)), (decide (c < x)); lia.
Qed.

Lemma overlap_range rs c last l :
  first_overlap rs c last = Some l -> exists r, l = r.2 /\ r ∈ rs /\ r.1 < last.
Proof.
  induction rs as [|[b x] rs IH]; [done|]. cbn [first_overlap]. destruct (_ && _) eqn:E; bool_to_prop.
  - intros [= ->]. exists (b, l). split_and!; [done|by left|done].
  - intros (r & -> & Hr & Hb)%IH. exists r. split_and!; [done|by right|done].
Qed.

Lemma overlap_none rs c last :
  first_overlap rs c last = None -> Forall (fun r => r.2 <= c \/ last <= r.1) rs.
Proof.
  induction rs as [|[b x] rs IH]; [done|]. cbn [first_overlap].
  destruct (_ && _) eqn:E; [done|]. intros H. constructor; [|by apply IH].
  cbn. apply andb_false_iff in E as [E|E]; bool_to_prop; auto.
Qed.

(** The room found is the first there is. *)
Lemma skip_loop_ends n rs c k :
  (ahead rs c < n)%nat ->
  exists f, skip_loop n rs c k = Some f /\ c <= f /\ (f = c \/ f ∈ rs.*2) /\
    first_overlap rs f (u64 (f + k * Frame_Size)) = None /\
    (0 < k <= 2 ^ 31 -> 0 <= c <= 2 ^ 63 -> Forall (fun r => r.2 <= 2 ^ 63) rs ->
     forall x, c <= x -> clear rs x k -> f <= x).
Proof.
  revert c. induction n as [|n IH]; intros c Hn; [lia|]. cbn [skip_loop].
  destruct (first_overlap _ _ _) as [l|] eqn:E.
  - destruct (overlap_ahead _ _ _ _ E) as (H1 & H3).
    destruct (overlap_range _ _ _ _ E) as (r & -> & Hr & Hb).
    destruct (IH r.2 ltac:(lia)) as (f & -> & Hf & Hin & Ho & Hmin). exists f.
    split_and!; [done|lia| |done|].
    + right. destruct Hin as [->|]; [|done]. apply list_elem_of_fmap. by exists r.
    + intros Hk Hc Hrs x Hx Hcl. rewrite Forall_forall in Hrs. pose proof (Hrs r Hr).
      apply Hmin; [done|lia|by apply Forall_forall| |done].
      unfold clear in Hcl. rewrite Forall_forall in Hcl. destruct (Hcl r Hr) as [|Hcl']; [done|].
      exfalso. unfold Frame_Size in *. rewrite u64_id in Hb by int_lia. lia.
  - exists c. split_and!; [done|lia|by left|done|done].
Qed.

(** The search for room always ends. *)
Lemma skip_ends rs c k :
  exists f, Skip_Reserved rs c k = Some f /\ c <= f /\ (f = c \/ f ∈ rs.*2) /\
    first_overlap rs f (u64 (f + k * Frame_Size)) = None /\
    (0 < k <= 2 ^ 31 -> 0 <= c <= 2 ^ 63 -> Forall (fun r => r.2 <= 2 ^ 63) rs ->
     forall x, c <= x -> clear rs x k -> f <= x).
Proof.
  apply skip_loop_ends. unfold ahead. pose proof (length_filter (fun r => c < r.2) rs). lia.
Qed.

(** ** The invariant *)

(** A whole frame of the memory that may be handed out. *)
Definition managed s (f : Z) : Prop :=
  Base_Frame s <= f < Next_Frame s /\ f mod Frame_Size = 0 /\
  f + Frame_Size <= Limit s /\ clear (Reserved s) f 1.

(** The frames [o] are owned, the frames [fl] are on the free list. *)
Record pmm_ok s o (fl : list Z) : Prop := {
  po_ready : Is_Ready s = true;
  po_base : 0 < Base_Frame s <= Next_Frame s;
  po_next : Next_Frame s mod Frame_Size = 0 /\ Next_Frame s <= 2 ^ 63;
  po_limit : Limit s <= 2 ^ 63;
  po_reserved : Forall (fun r => r.2 mod Frame_Size = 0 /\ r.2 <= 2 ^ 63) (Reserved s);
  po_list : linked (frames s) (Free_List_Head s) fl;
  po_nodup : NoDup fl;
  po_count : Free_List_Count s = u64 (Z.of_nat (length fl));
  po_free : forall f, f ∈ fl -> managed s f;
  po_owned : forall f, f ∈ o -> managed s f;
  po_apart : forall f, f ∈ o -> f ∉ fl }.

(** What an operation leaves alone: the configuration, and the contents of
    the frames [o]. *)
Record undisturbed o s s' : Prop := {
  un_base : Base_Frame s' = Base_Frame s;
  un_limit : Limit s' = Limit s;
  un_reserved : Reserved s' = Reserved s;
  un_frames : forall f, f ∈ o -> frames s' !! f = frames s !! f }.

#[export] Instance undisturbed_preorder o : PreOrder (undisturbed o).
Proof.
  split; [by split|]. intros s1 s2 s3 [A1 B1 C1 F1] [A2 B2 C2 F2].
  split; [congruence..|]. intros f Hf. by rewrite F2, F1.
Qed.

Lemma undisturbed_mono o o' s s' : o' ⊆ o -> undisturbed o s s' -> undisturbed o' s s'.
Proof. intros Ho [A B C F]. split; [done..|]. intros f Hf. apply F. set_solver. Qed.

Lemma managed_next s s' f :
  Base_Frame s' = Base_Frame s -> Limit s' = Limit s -> Reserved s' = Reserved s ->
  f < Next_Frame s' -> managed s f -> managed s' f.
Proof. intros Hb Hl Hr Hn (H1 & H2 & H3 & H4). unfold managed. rewrite Hb, Hl, Hr. split_and!; [lia|lia|done..]. Qed.

Lemma managed_pos s o fl f : pmm_ok s o fl -> managed s f -> f <> 0.
Proof. intros H (H1 & _). pose proof (po_base _ _ _ H). lia. Qed.

Lemma pmm_ok_mono s o o' fl : o' ⊆ o -> pmm_ok s o fl -> pmm_ok s o' fl.
Proof. intros Ho []. split; try done; set_solver. Qed.

(** An owner's writes. *)
Lemma pmm_ok_write s o fl f c :
  f ∈ o -> pmm_ok s o fl -> pmm_ok (set_frames (<[f := c]> (frames s)) s) o fl.
Proof.
  intros Hf []. split; try done. cbn. apply linked_insert; [auto|done].
Qed.

(** ** Runs of fresh frames *)

Definition run_frames (n k : Z) : list Z :=
  (fun i => n + Z.of_nat i * Frame_Size) <$> seq 0 (Z.to_nat k).

Lemma elem_of_run n k f :
  f ∈ run_frames n k <-> exists i, 0 <= i < k /\ f = n + i * Frame_Size.
Proof.
  unfold run_frames. rewrite list_elem_of_fmap. setoid_rewrite elem_of_seq. split.
  - intros (i & -> & Hi). exists (Z.of_nat i). lia.
  - intros (i & Hi & ->). exists (Z.to_nat i). rewrite Z2Nat.id by lia. split; [done|lia].
Qed.

Lemma take_run_spec k s o fl :
  pmm_ok s o fl -> 0 < k <= 2 ^ 31 ->
  exists r s', take_run k s = Done r s' /\ undisturbed (o ∪ list_to_set fl) s s' /\
    frames s' = frames s /\
    match r.1 with
    | PM_Ok => pmm_ok s' (list_to_set (run_frames r.2 k) ∪ o) fl /\
        forall f, f ∈ run_frames r.2 k -> Next_Frame s <= f
    | st => st = Out_Of_Memory /\ pmm_ok s' o fl /\
        forall n, Next_Frame s <= n -> n + k * Frame_Size <= Limit s -> ~ clear (Reserved s) n k
    end.
Proof.
  intros Hok Hk. pose proof Hok as [R1 R2 [R3 R3'] R4 R5 R6 R7 R8 R9 R10 R11]. unfold take_run.
  destruct (skip_ends (Reserved s) (Next_Frame s) k) as (n & -> & Hn & Hin & Ho & Hmin).
  rewrite Forall_forall in R5.
  assert (Hn2 : n mod Frame_Size = 0 /\ n <= 2 ^ 63).
  { destruct Hin as [->|(r & -> & Hr)%list_elem_of_fmap]; [done|]. by apply R5. }
  assert (Hu : u64 (n + k * Frame_Size) = n + k * Frame_Size) by (unfold Frame_Size in *; int_lia).
  rewrite Hu in *. apply overlap_none in Ho. destruct (_ <? _) eqn:E; bool_to_prop.
  - exists (Out_Of_Memory, 0), (set_next n s). split_and!; [done|by split|done|]. cbn [fst].
    split_and!; [done| |].
    + split; cbn; try done; [lia|by apply Forall_forall|intros f Hf..].
      all: eapply managed_next; cbn; eauto; (destruct (R9 f Hf) || destruct (R10 f Hf)); lia.
    + intros x Hx Hl Hc. specialize (Hmin Hk ltac:(lia)). specialize (Hmin ltac:(apply Forall_forall; naive_solver) x Hx Hc). lia.
  - exists (PM_Ok, n), (set_next (n + k * Frame_Size) s). split_and!; [done|by split|done|]. cbn [fst snd].
    assert (Hrun : forall f, f ∈ run_frames n k ->
      managed (set_next (n + k * Frame_Size) s) f /\ Next_Frame s <= f).
    { intros f (i & Hi & ->)%elem_of_run. split; [|unfold Frame_Size in *; lia].
      unfold managed, Frame_Size in *. cbn [Base_Frame Next_Frame Limit Reserved set_next].
      split_and!; [lia|lia|zlia|lia|]. rewrite Forall_forall in Ho. apply Forall_forall. intros r Hr.
      destruct (Ho r Hr); unfold Frame_Size; [left|right]; lia. }
    assert (Hold : forall f, managed s f -> managed (set_next (n + k * Frame_Size) s) f).
    { intros f Hf. eapply managed_next; cbn; eauto. destruct Hf. unfold Frame_Size. lia. }
    split.
    + assert (Hm : (n + k * Frame_Size) mod Frame_Size = 0) by (rewrite Z_mod_plus_full; tauto).
      assert (Hk0 : 0 < k * Frame_Size) by (unfold Frame_Size; lia).
      split; cbn [Is_Ready Base_Frame Next_Frame Limit Reserved frames Free_List_Head Free_List_Count set_next];
        try done; [lia|split; [done|lia]|by apply Forall_forall|auto| |].
      * intros f [Hf%elem_of_list_to_set|Hf]%elem_of_union; [by apply Hrun|auto].
      * intros f [Hf%elem_of_list_to_set|Hf]%elem_of_union; [|auto]. intros Hin'.
        destruct (Hrun f Hf). destruct (R9 f Hin'). lia.
    + intros f Hf. by apply Hrun.
Qed.

(** ** The operations *)

Lemma alloc_spec s o fl :
  pmm_ok s o fl ->
  exists r s', Allocate_Frame s = Done r s' /\ undisturbed o s s' /\
    match r.1 with
    | PM_Ok => r.2 ∉ o /\ exists fl', pmm_ok s' ({[r.2]} ∪ o) fl'
    | st => st = Out_Of_Memory /\ fl = [] /\ pmm_ok s' o [] /\
        forall n, Next_Frame s <= n -> n + Frame_Size <= Limit s -> ~ clear (Reserved s) n 1
    end.
Proof.
  intros Hok. pose proof Hok as [R1 R2 R3 R4 R5 R6 R7 R8 R9 R10 R11].
  unfold Allocate_Frame. rewrite R1. cbn [negb]. destruct fl as [|f fl].
  - cbn in R6. rewrite R6. cbn [negb Z.eqb].
    destruct (take_run_spec 1 s o [] Hok ltac:(lia)) as (r & s' & -> & Hu & _ & Hr).
    exists r, s'. split_and!; [done|by eapply undisturbed_mono; [|done]; set_solver|].
    destruct r as [[] f]; cbn [fst snd] in *; try (destruct Hr as (Hst & _); discriminate).
    + destruct Hr as [Hr1 Hr2].
      replace (run_frames f 1) with [f] in * by (unfold run_frames; simpl; by rewrite Z.add_0_r).
      cbn [list_to_set foldr] in Hr1. split.
      * intros Hf. destruct (R10 f Hf) as (H1 & _). specialize (Hr2 f ltac:(set_solver)). lia.
      * exists []. eapply pmm_ok_mono; [|exact Hr1]. set_solver.
    + destruct Hr as (_ & H1 & H2). split_and!; [done..|]. intros n Hn Hl. apply H2; [done|lia].
  - destruct R6 as (Hh & H0 & n & Hm & Hl). rewrite Hh, (proj2 (Z.eqb_neq f 0)) by done. cbn [negb].
    unfold bindM, get_link, modifyM, put_link, retM. rewrite Hm. cbn [fst snd].
    apply NoDup_cons in R7 as [Hnf Hnd].
    assert (Hfo : f ∉ o) by (intros Hf; apply (R11 f Hf); by left).
    do 2 eexists. split; [reflexivity|]. cbn [fst snd]. split.
    + split; try done. cbn. intros x Hx. rewrite lookup_insert_ne; [done|]. by intros ->.
    + split; [done|]. exists fl. split; cbn; try done.
      * by apply linked_insert.
      * rewrite R8. cbn [length]. clear. int_lia.
      * intros x Hx. apply R9. by right.
      * intros x [->%elem_of_singleton|Hx]%elem_of_union; [apply R9; by left|by apply R10].
      * intros x [->%elem_of_singleton|Hx]%elem_of_union; [done|]. intros Hin. apply (R11 x Hx). by right.
Qed.

Lemma contiguous_spec k s o fl :
  pmm_ok s o fl -> 0 < k <= 2 ^ 31 ->
  exists r s', Allocate_Contiguous k s = Done r s' /\ undisturbed o s s' /\
    match r.1 with
    | PM_Ok => pmm_ok s' (list_to_set (run_frames r.2 k) ∪ o) fl /\
        forall f, f ∈ run_frames r.2 k -> f ∉ o
    | st => st = Out_Of_Memory /\ pmm_ok s' o fl
    end.
Proof.
  intros Hok Hk. unfold Allocate_Contiguous. rewrite (po_ready _ _ _ Hok). cbn [negb].
  destruct (take_run_spec k s o fl Hok Hk) as (r & s' & -> & Hu & _ & Hr). exists r, s'.
  split_and!; [done|by eapply undisturbed_mono; [|done]; set_solver|].
  destruct (r.1); try (destruct Hr as (Hst & _); discriminate).
  - destruct Hr as [H1 H2]. split; [done|]. intros f Hf Hfo.
    destruct (po_owned _ _ _ Hok f Hfo) as (H3 & _). specialize (H2 f Hf). lia.
  - by destruct Hr as (H1 & H2 & _).
Qed.

Lemma walk_spec f s o fl :
  pmm_ok s o fl -> Is_In_Free_List f s = Done (bool_decide (f ∈ fl)) s.
Proof.
  intros Hok. apply walk_finds; [by apply po_list with o|].
  pose proof (linked_size _ _ _ (po_nodup _ _ _ Hok) (po_list _ _ _ Hok)). lia.
Qed.

(** Freeing what is not handed out is refused. *)
Lemma dealloc_refused f s o fl :
  pmm_ok s o fl -> Valid_Frame f s = false \/ f ∈ fl ->
  Deallocate_Frame f s = Done Invalid_Range s.
Proof.
  intros Hok Hf. unfold Deallocate_Frame. rewrite (po_ready _ _ _ Hok). cbn [negb].
  unfold bindM. destruct (Valid_Frame f s); [|done]. cbn [negb].
  rewrite (walk_spec f s o fl Hok), bool_decide_eq_true_2; [done|]. by destruct Hf.
Qed.

(** Only that is. *)
Lemma dealloc_refused_iff f s o fl :
  pmm_ok s o fl ->
  Deallocate_Frame f s = Done Invalid_Range s <->
  f ∈ fl \/ f < Base_Frame s \/ Next_Frame s <= f \/ f mod Frame_Size <> 0.
Proof.
  intros Hok. assert (Valid_Frame f s = false <-> f < Base_Frame s \/ Next_Frame s <= f \/ f mod Frame_Size <> 0) as Hv.
  { unfold Valid_Frame. rewrite !andb_false_iff, Z.leb_gt, Z.ltb_ge, Z.eqb_neq. tauto. }
  rewrite <- Hv. split; [|intros [Hf|Hf]; eapply dealloc_refused; eauto].
  intros E. destruct (Valid_Frame f s) eqn:Ev; [left|by right]. unfold Deallocate_Frame in E. rewrite (po_ready _ _ _ Hok), Ev in E.
  cbn [negb] in E. unfold bindM at 1 in E. rewrite (walk_spec f s o fl Hok) in E. case_bool_decide; [done|].
  unfold bindM, modifyM, put_link, retM in E. by case_match.
Qed.

Lemma managed_valid s f : managed s f -> Valid_Frame f s = true.
Proof.
  intros (H1 & H2 & _). unfold Valid_Frame. rewrite !andb_true_iff, Z.leb_le, Z.ltb_lt, Z.eqb_eq. lia.
Qed.

Lemma dealloc_spec f s o fl :
  pmm_ok s o fl -> f ∈ o ->
  exists s' fl', Deallocate_Frame f s = Done PM_Ok s' /\ undisturbed (o ∖ {[f]}) s s' /\
    pmm_ok s' (o ∖ {[f]}) fl'.
Proof.
  intros Hok Hf. pose proof Hok as [R1 R2 R3 R4 R5 R6 R7 R8 R9 R10 R11].
  pose proof (R10 f Hf) as Hm. pose proof Hm as (M1 & M2 & M3 & M4). pose proof (R11 f Hf) as Hfl.
  unfold Deallocate_Frame. rewrite R1, (managed_valid _ _ Hm). cbn [negb].
  unfold bindM at 1. rewrite (walk_spec f s o fl Hok), bool_decide_eq_false_2 by done.
  assert (Hu : u64 (f + Frame_Size) = f + Frame_Size) by (unfold Frame_Size in *; int_lia). rewrite Hu.
  destruct (Z.eqb_spec (f + Frame_Size) (Next_Frame s)) as [He|He]; unfold bindM, modifyM, put_link, retM.
  - exists (set_next f s), fl. split_and!; [done|by split|].
    assert (Hold : forall x, managed s x -> x <> f -> managed (set_next f s) x).
    { intros x Hx Hne. apply (managed_next s); try done. destruct Hx as (X1 & X2 & _). cbn [Next_Frame set_next].
      clear - X1 X2 M2 He Hne. unfold Frame_Size in *. zlia. }
    split; cbn; try done; [lia|lia| | |].
    + intros x Hx. apply Hold; [auto|]. by intros ->.
    + intros x Hx. apply Hold; set_solver.
    + set_solver.
  - eexists _, (f :: fl). split; [reflexivity|]. split.
    + split; try done. cbn. intros x Hx. rewrite lookup_insert_ne; [done|]. set_solver.
    + split; cbn; try done.
      * split_and!; [done|by eapply managed_pos|]. exists (Free_List_Head s). rewrite lookup_insert_eq.
        split; [done|]. by apply linked_insert.
      * by apply NoDup_cons.
      * rewrite R8. clear. int_lia.
      * intros x [->|Hx]%elem_of_cons; [exact Hm|by apply R9].
      * intros x Hx. apply R10. set_solver.
      * intros x Hx [->|Hin]%elem_of_cons; [set_solver|]. apply (R11 x); set_solver.
Qed.

(** *** Rewind *)

(** The configuration and the end of the frames handed out stay. *)
Definition same_config s s' : Prop :=
  Base_Frame s' = Base_Frame s /\ Next_Frame s' = Next_Frame s /\ Limit s' = Limit s /\
  Is_Ready s' = Is_Ready s /\ Reserved s' = Reserved s.

Definition below (to : Z) (l : list Z) : list Z := filter (fun f => f < to) l.

Lemma rewind_loop to l : forall n old head acc s,
  linked (frames s) old l -> linked (frames s) head acc -> NoDup (l ++ acc) -> (length l < n)%nat ->
  exists h s', iterM n (rewind_round to) (old, (head, u64 (Z.of_nat (length acc)))) s =
      Done (h, u64 (Z.of_nat (length (rev (below to l) ++ acc)))) s' /\
    linked (frames s') h (rev (below to l) ++ acc) /\ same_config s s' /\
    forall f, f ∉ l -> frames s' !! f = frames s !! f.
Proof.
  induction l as [|x l IH]; intros [|n] old head acc s Hl Ha Hnd Hn; cbn in Hn; try lia;
    cbn [iterM]; unfold rewind_round at 1.
  - cbn in Hl. subst old. exists head, s. by split_and!.
  - destruct Hl as (-> & H0 & nx & Hx & Hl). rewrite (proj2 (Z.eqb_neq x 0)) by done.
    cbn [app] in Hnd. apply NoDup_cons in Hnd as [Hxn Hnd]. rewrite elem_of_app in Hxn.
    unfold bindM at 1 2, get_link. rewrite Hx. unfold below. rewrite filter_cons.
    destruct (Z.ltb_spec x to) as [Hlt|Hge].
    + rewrite decide_True by done. unfold bindM, put_link, modifyM, retM at 1.
      set (s1 := set_frames _ s). rewrite <- (Z.add_comm 1).
      replace (u64 (1 + u64 (Z.of_nat (length acc)))) with (u64 (Z.of_nat (length (x :: acc))))
        by (cbn [length]; clear; int_lia).
      destruct (IH n nx x (x :: acc) s1) as (h & s' & E & L & C & F).
      * apply linked_insert; tauto.
      * cbn. split_and!; [done..|]. exists head. rewrite lookup_insert_eq. split; [done|].
        apply linked_insert; tauto.
      * rewrite <- Permutation_middle. apply NoDup_cons. split; [by rewrite elem_of_app|done].
      * lia.
      * exists h, s'. cbn [rev]. rewrite <- !app_assoc. cbn [app]. split_and!; [exact E|exact L| |].
        { destruct C as (? & ? & ? & ? & ?). by split_and!. }
        intros f Hf. rewrite F by set_solver. cbn. rewrite lookup_insert_ne; [done|]. set_solver.
    + rewrite decide_False by lia. unfold bindM, put_link, modifyM, retM at 1.
      set (s1 := set_frames _ s).
      destruct (IH n nx head acc s1) as (h & s' & E & L & C & F); [..|lia|].
      * apply linked_insert; tauto.
      * apply linked_insert; tauto.
      * done.
      * exists h, s'. split_and!; [exact E|exact L| |].
        { destruct C as (? & ? & ? & ? & ?). by split_and!. }
        intros f Hf. rewrite F by set_solver. cbn. rewrite lookup_insert_ne; [done|]. set_solver.
Qed.

Lemma rewind_spec to s o fl :
  pmm_ok s o fl -> Base_Frame s <= to <= Next_Frame s -> to mod Frame_Size = 0 ->
  (forall f, f ∈ o -> f < to) ->
  exists s', Rewind to s = Done PM_Ok s' /\ undisturbed o s s' /\ pmm_ok s' o (rev (below to fl)).
Proof.
  intros Hok Hto Hm Ho. pose proof Hok as [R1 R2 R3 R4 R5 R6 R7 R8 R9 R10 R11].
  unfold Rewind. rewrite R1, Hm. cbn [negb]. replace (_ <? to) with false by (symmetry; apply Z.ltb_ge; lia).
  cbn [orb negb Z.eqb]. pose proof (linked_size _ _ _ R7 R6).
  destruct (rewind_loop to fl (S (size (frames s))) (Free_List_Head s) 0 [] s)
    as (h & s1 & E & L & (C1 & C2 & C3 & C4 & C5) & F); [done|done|by rewrite app_nil_r|lia|].
  rewrite app_nil_r in *. unfold bindM. change (u64 (Z.of_nat (length []))) with 0 in E. rewrite E.
  unfold modifyM, retM. eexists. split; [reflexivity|].
  assert (Hin : forall f, f ∈ rev (below to fl) <-> f < to /\ f ∈ fl).
  { intros f. rewrite list_elem_of_In, <- in_rev, <- list_elem_of_In. unfold below. by rewrite list_elem_of_filter. }
  assert (Hman : forall f, managed s f -> f < to -> managed (set_next to (set_free h (u64 (Z.of_nat (length (rev (below to fl))))) s1)) f).
  { intros f Hf Hlt. by apply (managed_next s). }
  split.
  - split; cbn; [done..|]. intros f Hf. apply F. by apply R11.
  - split; cbn; try done; [congruence|lia|split; [done|lia]|congruence|by rewrite C5|..].
    + apply NoDup_ListNoDup, List.NoDup_rev, NoDup_ListNoDup. by apply NoDup_filter.
    + intros f [Hlt Hf]%Hin. apply Hman; auto.
    + intros f Hf. apply Hman; auto.
    + intros f Hf [_ Hf2]%Hin. by apply (R11 f).
Qed.

(** ** Start-up *)

Fixpoint reserve_all (rs : list (Z * Z)) : M (pmm D) unit :=
  match rs with
  | [] => retM tt
  | (b, l) :: rs' => Reserve b l ;; reserve_all rs'
  end.

(** The memory up to [last], with the ranges [rs] (base and length) taken
    out. *)
Definition boot (first last : Z) (rs : list (Z * Z)) : M (pmm D) pm_status :=
  let* st := Initialize first last in reserve_all rs ;; retM st.

Definition off_limits (rs : list (Z * Z)) (f : Z) : Prop :=
  exists r, r ∈ rs /\ r.1 < f + Frame_Size /\ f < r.1 + r.2.

Lemma Align_Up_spec v : 0 <= v <= 2 ^ 62 -> v <= Align_Up v Frame_Size < v + Frame_Size /\
  Align_Up v Frame_Size mod Frame_Size = 0.
Proof. intros Hv. unfold Align_Up, Frame_Size. int_lia. Qed.

(** The ranges recorded are those asked for, rounded out. *)
Definition rounded (r : Z * Z) : Z * Z :=
  (r.1 - r.1 mod Frame_Size, Align_Up (u64 (r.1 + r.2)) Frame_Size).

Lemma reserve_all_spec rs s :
  (length (Reserved s) + length rs <= Max_Reserved)%nat ->
  Forall (fun r => 0 < r.2) rs ->
  reserve_all rs s = Done tt (Pmm (Base_Frame s) (Next_Frame s) (Limit s) (Free_List_Head s)
    (Free_List_Count s) (Is_Ready s) (Reserved s ++ (rounded <$> rs)) (frames s)).
Proof.
  revert s. induction rs as [|[b l] rs IH]; intros s Hn Hl; cbn [reserve_all fmap list_fmap].
  - rewrite app_nil_r. by destruct s.
  - apply Forall_cons in Hl as [Hl0 Hl]. cbn in Hl0, Hn. unfold bindM, Reserve.
    replace (l =? 0) with false by (symmetry; apply Z.eqb_neq; lia).
    replace (_ =? Max_Reserved)%nat with false by (symmetry; apply Nat.eqb_neq; lia).
    rewrite IH; cbn [Reserved Base_Frame Next_Frame Limit Free_List_Head Free_List_Count Is_Ready frames];
      [by rewrite <- app_assoc|rewrite length_app; cbn [length]; lia|done].
Qed.

Lemma boot_spec first last rs s s1 :
  Reserved s = [] -> 0 < first <= 2 ^ 62 -> 0 <= last <= 2 ^ 63 ->
  (length rs <= Max_Reserved)%nat -> Forall (fun r => 0 <= r.1 /\ 0 < r.2 /\ r.1 + r.2 <= 2 ^ 62) rs ->
  boot first last rs s = Done PM_Ok s1 ->
  pmm_ok s1 ∅ [] /\ first <= Base_Frame s1 /\ Limit s1 <= last /\ Reserved s1 = (rounded <$> rs).
Proof.
  intros Hs Hf Hl Hn Hr. unfold boot, bindM, Initialize.
  pose proof (Align_Up_spec first ltac:(lia)) as [HA HA2].
  assert (Hr0 : Forall (fun r => 0 < r.2) rs) by (eapply Forall_impl; [exact Hr|naive_solver]).
  rewrite reserve_all_spec by (done || by cbn [Reserved]; rewrite Hs).
  destruct (Align_Up first Frame_Size <? _) eqn:E; bool_to_prop; [|intros [=]].
  intros [= <-]. cbn [Base_Frame Limit Reserved]. rewrite Hs. cbn [app].
  assert (Hlast : last - last mod Frame_Size <= last) by (unfold Frame_Size; zlia).
  split_and!; [|lia|lia|done]. split; cbn; try done; [lia|split; [done|lia]|lia| |by constructor|set_solver..].
  rewrite Forall_forall in Hr |- *. intros x (r & -> & Hin)%list_elem_of_fmap. cbn [rounded snd].
  destruct (Hr r Hin) as (H1 & H2 & H3). rewrite u64_id by int_lia.
  pose proof (Align_Up_spec (r.1 + r.2) ltac:(lia)). unfold Frame_Size in *. lia.
Qed.

Lemma clear_rounded rs f :
  Forall (fun r => 0 <= r.1 /\ 0 < r.2 /\ r.1 + r.2 <= 2 ^ 62) rs ->
  clear (rounded <$> rs) f 1 -> ~ off_limits rs f.
Proof.
  intros Hr Hc ([b l] & Hin & H1 & H2). cbn in H1, H2. unfold clear in Hc. rewrite Forall_forall in Hr, Hc.
  destruct (Hr _ Hin) as (B1 & B2 & B3). cbn in B1, B2, B3.
  destruct (Hc (rounded (b, l))) as [Hc'|Hc']; [apply list_elem_of_fmap; by exists (b, l)|..];
    cbn [rounded fst snd] in Hc'.
  - rewrite u64_id in Hc' by int_lia. pose proof (Align_Up_spec (b + l) ltac:(lia)). lia.
  - unfold Frame_Size in *. zlia.
Qed.

(** ** Histories *)

(** One use of the allocator by the rest of the kernel, with the list of
    frames that are owned: a frame or a run is taken, an owned frame is
    written or given back, or the end is moved back behind all owned frames. *)
Inductive pm_use : pmm D * list Z -> pmm D * list Z -> Prop :=
  | use_take s (o : list Z) r s' :
      Allocate_Frame s = Done r s' ->
      pm_use (s, o) (s', if decide (r.1 = PM_Ok) then r.2 :: o else o)
  | use_run k s (o : list Z) r s' :
      0 < k <= 2 ^ 31 -> Allocate_Contiguous k s = Done r s' ->
      pm_use (s, o) (s', if decide (r.1 = PM_Ok) then run_frames r.2 k ++ o else o)
  | use_write f c s (o : list Z) :
      f ∈ o -> pm_use (s, o) (set_frames (<[f := c]> (frames s)) s, o)
  | use_give f s (o o' : list Z) st s' :
      o ≡ₚ f :: o' -> Deallocate_Frame f s = Done st s' -> pm_use (s, o) (s', o')
  | use_rewind to s (o : list Z) st s' :
      (forall f, f ∈ o -> f < to) -> Base_Frame s <= to -> Rewind to s = Done st s' ->
      pm_use (s, o) (s', o).

Lemma run_nodup n k : NoDup (run_frames n k).
Proof.
  apply NoDup_fmap; [|apply NoDup_seq]. intros i j H. unfold Frame_Size in H. lia.
Qed.

(** What every use keeps. *)
Definition accounted (c : pmm D * list Z) : Prop :=
  NoDup c.2 /\ exists fl, pmm_ok c.1 (list_to_set c.2) fl.

Lemma use_accounted c c' :
  pm_use c c' -> accounted c ->
  accounted c' /\ Base_Frame c'.1 = Base_Frame c.1 /\ Limit c'.1 = Limit c.1 /\ Reserved c'.1 = Reserved c.1.
Proof.
  intros Hu (Hnd & fl & Hok). destruct Hu as [s o r s' E|k s o r s' Hk E|f x s o Hf|f s o o' st s' Ho E|to s o st s' Ho Hb E];
    cbn [fst snd] in *.
  - destruct (alloc_spec s _ _ Hok) as (r' & s1 & E' & [U1 U2 U3 _] & Hr). rewrite E in E'.
    injection E' as <- <-. split; [|done]. case_decide as Hst.
    + rewrite Hst in Hr. destruct Hr as [Hr (fl' & Hok')]. split; cbn [fst snd].
      * apply NoDup_cons. split; [|done]. by rewrite elem_of_list_to_set in Hr.
      * exists fl'. exact Hok'.
    + destruct (r.1); try done; destruct Hr as (_ & _ & Hr & _); (split; [done|]); by exists [].
  - destruct (contiguous_spec k s _ _ Hok Hk) as (r' & s1 & E' & [U1 U2 U3 _] & Hr). rewrite E in E'.
    injection E' as <- <-. split; [|done]. case_decide as Hst.
    + rewrite Hst in Hr. destruct Hr as [Hok' Hr]. split; cbn [fst snd].
      * apply NoDup_app. split_and!; [apply run_nodup| |done]. intros f Hf. specialize (Hr f Hf).
        by rewrite elem_of_list_to_set in Hr.
      * exists fl. by rewrite list_to_set_app_L.
    + destruct (r.1); try done; destruct Hr as (_ & Hr); (split; [done|]); by exists fl.
  - split; [|done]. split; [done|]. exists fl. apply pmm_ok_write; [|done]. by apply elem_of_list_to_set.
  - assert (Hf : f ∈ (list_to_set o : gset Z)) by (rewrite elem_of_list_to_set, Ho; by left).
    destruct (dealloc_spec f s _ _ Hok Hf) as (s1 & fl' & E' & [U1 U2 U3 _] & Hok').
    rewrite E in E'. injection E' as -> <-. split; [|done]. rewrite Ho in Hnd.
    apply NoDup_cons in Hnd as [Hnf Hnd]. split; [done|]. exists fl'. cbn [fst snd].
    eapply pmm_ok_mono; [|exact Hok']. intros x Hx%elem_of_list_to_set.
    apply elem_of_difference. rewrite elem_of_list_to_set, Ho. split; [by right|]. set_solver.
  - destruct ((Next_Frame s <? to) || negb (to mod Frame_Size =? 0)) eqn:Eg.
    + unfold Rewind in E. rewrite (po_ready _ _ _ Hok), Eg in E. cbn [negb] in E.
      injection E as <- <-. split; [|done]. split; [done|]. by exists fl.
    + bool_to_prop. destruct (rewind_spec to s _ _ Hok) as (s1 & E' & [U1 U2 U3 _] & Hok'); [lia|done|set_solver|].
      rewrite E in E'. injection E' as -> <-. split; [|done]. split; [done|]. by eexists.
Qed.

Lemma uses_accounted c c' :
  rtc pm_use c c' -> accounted c ->
  accounted c' /\ Base_Frame c'.1 = Base_Frame c.1 /\ Limit c'.1 = Limit c.1 /\ Reserved c'.1 = Reserved c.1.
Proof.
  induction 1 as [c|c c1 c2 H1 _ IH]; intros Hc; [done|].
  destruct (use_accounted _ _ H1 Hc) as (Hc1 & B & L & R). destruct (IH Hc1) as (Hc2 & B2 & L2 & R2).
  split_and!; [done|congruence..].
Qed.

(** C11. A frame has one owner.  From the start of the kernel, whatever frames
    and runs were taken, written and given back since: the frames that are
    owned are distinct, whole, within the memory and outside every reserved
    range; the next allocation delivers a frame that nobody owns, or fails
    because no frame is left, and changes no owned frame.  A frame is refused
    when it is given back exactly if it is on the free list, below the first
    frame, at or behind the end of what was handed out so far, or not the
    address of a frame; an owned frame is accepted. *)
Theorem frames_exclusive first last rs s0 s1 s (o : list Z) :
  Reserved s0 = [] -> 0 < first <= 2 ^ 62 -> 0 <= last <= 2 ^ 63 ->
  (length rs <= Max_Reserved)%nat -> Forall (fun r => 0 <= r.1 /\ 0 < r.2 /\ r.1 + r.2 <= 2 ^ 62) rs ->
  boot first last rs s0 = Done PM_Ok s1 -> rtc pm_use (s1, []) (s, o) ->
  NoDup o /\
  (forall f, f ∈ o -> first <= f /\ f + Frame_Size <= last /\ f mod Frame_Size = 0 /\ ~ off_limits rs f) /\
  exists fl r s',
    Allocate_Frame s = Done r s' /\ (forall f, f ∈ o -> frames s' !! f = frames s !! f) /\
    (r.1 = PM_Ok /\ r.2 ∉ o \/ r.1 = Out_Of_Memory /\ fl = [] /\
       forall n, Next_Frame s <= n -> n + Frame_Size <= Limit s -> ~ clear (Reserved s) n 1) /\
    linked (frames s) (Free_List_Head s) fl /\ (forall f, f ∈ fl -> f ∉ o) /\
    (forall f, Deallocate_Frame f s = Done Invalid_Range s <->
       f ∈ fl \/ f < Base_Frame s \/ Next_Frame s <= f \/ f mod Frame_Size <> 0) /\
    (forall f, f ∈ o -> exists s'', Deallocate_Frame f s = Done PM_Ok s'').
Proof.
  intros H0 Hf Hl Hn Hr Hb Hu. destruct (boot_spec _ _ _ _ _ H0 Hf Hl Hn Hr Hb) as (Hok & B & L & R).
  destruct (uses_accounted _ _ Hu) as ((Hnd & fl & Hok') & B' & L' & R'); [split; [constructor|by exists []]|].
  cbn [fst snd] in *. split; [done|]. split.
  - intros f Hin. destruct (po_owned _ _ _ Hok' f) as (M1 & M2 & M3 & M4); [by apply elem_of_list_to_set|].
    split_and!; [lia|lia|done|]. apply clear_rounded; [done|]. by rewrite <- R, <- R'.
  - destruct (alloc_spec s _ _ Hok') as (r & s' & E & U & Hr'). exists fl, r, s'. split_and!; [done| | | | | |].
    + intros f Hin. apply (un_frames _ _ _ U). by apply elem_of_list_to_set.
    + destruct (r.1); try (destruct Hr' as (Hst & _); discriminate).
      * left. split; [done|]. destruct Hr' as [Hr' _]. by rewrite elem_of_list_to_set in Hr'.
      * right. destruct Hr' as (_ & -> & _ & Hr'). done.
    + apply Hok'.
    + intros f Hin Ho. apply (po_apart _ _ _ Hok' f); [by apply elem_of_list_to_set|done].
    + intros f. by apply (dealloc_refused_iff f s (list_to_set o) fl).
    + intros f Hin. destruct (dealloc_spec f s _ _ Hok') as (s2 & _ & E2 & _); [by apply elem_of_list_to_set|]. by exists s2.
Qed.
End spec.

(** ** An example *)

(** 48 KiB of memory with one reserved range; two frames are taken, the first
    is given back and is the next to be handed out. *)
Definition demo_pm0 : pmm unit := Pmm 0 0 0 0 0 false [] ∅.
Definition demo_pm1 : pmm unit := Eval vm_compute in out_state (boot 1000 50000 [(8292, 50)] demo_pm0).
Definition demo_pm2 : pmm unit := Eval vm_compute in out_state (Allocate_Frame demo_pm1).
Definition demo_pm3 : pmm unit := Eval vm_compute in out_state (Allocate_Frame demo_pm2).
Definition demo_pm4 : pmm unit := Eval vm_compute in out_state (Deallocate_Frame 4096 demo_pm3).

Lemma demo_uses : rtc pm_use (demo_pm1, []) (demo_pm4, [12288]).
Proof.
  apply rtc_l with (demo_pm2, [4096]).
  { apply (use_take demo_pm1 [] (PM_Ok, 4096) demo_pm2). vm_compute. reflexivity. }
  apply rtc_l with (demo_pm3, [12288; 4096]).
  { apply (use_take demo_pm2 [4096] (PM_Ok, 12288) demo_pm3). vm_compute. reflexivity. }
  apply rtc_once. apply (use_give 4096 demo_pm3 _ _ PM_Ok); [apply perm_swap|].
  vm_compute. reflexivity.
Qed.

Lemma frames_exclusive_witness :
  Allocate_Frame demo_pm4 = Done (PM_Ok, 4096) (out_state (Allocate_Frame demo_pm4)) /\
  ~ off_limits [(8292, 50)] 12288 /\
  Deallocate_Frame 16384 demo_pm4 = Done Invalid_Range demo_pm4.
Proof.
  split; [vm_compute; reflexivity|].
  destruct (frames_exclusive 1000 50000 [(8292, 50)] demo_pm0 demo_pm1 demo_pm4 [12288])
    as (_ & H1 & fl & r & s' & _ & _ & _ & _ & _ & H2 & _).
  - reflexivity.
  - lia.
  - lia.
  - unfold Max_Reserved. cbn [length]. lia.
  - repeat constructor; cbn; lia.
  - vm_compute. reflexivity.
  - exact demo_uses.
  - split; [apply (H1 12288); by left|]. apply H2. right. right. left. vm_compute. discriminate.
Defined.
