(* ===== verification/KCap.v ===== *)
(** * Capability tables

    [kernel-capabilities.adb]: the table of a process has 16384 handles, kept
    in pages of 128 entries; a page is a frame of physical memory that is
    allocated when the first of its handles is used and given back when the
    last one is closed.  The operations run on the table and the frame
    allocator together ([M (Cap_Table * pmm)]); reading an entry from a frame
    that is no page of entries has no defined result, nor has a count that
    leaves its range. *)
From S2P Require Import Prelude CInt KPmm.

(** ** Rights *)

Record rights := Rights {
  rt_read : bool; rt_write : bool; rt_execute : bool; rt_map : bool; rt_send : bool;
  rt_receive : bool; rt_wait : bool; rt_ack : bool; rt_transfer : bool; rt_manage : bool }.
#[export] Instance rights_eq : EqDecision rights.
Proof. solve_decision. Defined.

Definition No_Rights : rights :=
  Rights false false false false false false false false false false.
Definition All_Rights : rights := Rights true true true true true true true true true true.
Definition Valid_Rights_Mask : Z := 0x3FF.

Definition Has_Rights (have need : rights) : bool :=
  (negb (rt_read need) || rt_read have) && (negb (rt_write need) || rt_write have) &&
  (negb (rt_execute need) || rt_execute have) && (negb (rt_map need) || rt_map have) &&
  (negb (rt_send need) || rt_send have) && (negb (rt_receive need) || rt_receive have) &&
  (negb (rt_wait need) || rt_wait have) && (negb (rt_ack need) || rt_ack have) &&
  (negb (rt_transfer need) || rt_transfer have) && (negb (rt_manage need) || rt_manage have).

Definition To_Rights (mask : Z) : rights :=
  let bit b := negb (Z.land mask b =? 0) in
  Rights (bit 1) (bit 2) (bit 4) (bit 8) (bit 16) (bit 32) (bit 64) (bit 128) (bit 256) (bit 512).

Definition To_Mask (r : rights) : Z :=
  let put (b : bool) v m := if b then Z.lor m v else m in
  put (rt_manage r) 512 (put (rt_transfer r) 256 (put (rt_ack r) 128 (put (rt_wait r) 64
    (put (rt_receive r) 32 (put (rt_send r) 16 (put (rt_map r) 8 (put (rt_execute r) 4
      (put (rt_write r) 2 (put (rt_read r) 1 0))))))))).

(** ** Entries and tables *)

Inductive Object_Kind : Type :=
  | Null_Object | Frame_Object | Address_Space_Object | Process_Object | Thread_Object
  | Endpoint_Object | Reply_Object | IRQ_Object | MMIO_Object | DMA_Object | Kernel_Object
  | Boot_File_Object | Memory_Object | Notification_Object | Admin_Object.
#[export] Instance Object_Kind_eq : EqDecision Object_Kind.
Proof. solve_decision. Defined.

Record Cap_Entry := CapEntry {
  c_valid : bool; c_kind : Object_Kind; c_object : Z; c_rights : rights; c_badge : Z }.

Definition Null_Cap : Cap_Entry := CapEntry false Null_Object 0 No_Rights 0.

Inductive cap_status : Type :=
  | Cap_Ok | Invalid_Cap | Invalid_Object | Rights_Denied | Table_Full | Slot_Occupied.
#[export] Instance cap_status_eq : EqDecision cap_status.
Proof. solve_decision. Defined.

Definition Max_Caps : Z := 16384.
Definition Invalid_Handle : Z := 0.
Definition Caps_Per_Page : Z := 128.
Definition Page_Count : Z := Max_Caps / Caps_Per_Page.

(** What the modelled code keeps in a frame it owns: a page of entries, or
    something it does not read through the frame. *)
Inductive frame_data : Type :=
  | Cap_Page (es : list Cap_Entry)
  | Plain.

Record Cap_Table := CapTable { Root : list Z; Count : list Z; Total : Z }.

Definition world : Type := Cap_Table * pmm frame_data.
Definition CM (A : Type) : Type := M world A.

Definition stuck {S A} : M S A := fun s => Blocked s.
Definition on_pmm {A} (c : M (pmm frame_data) A) : CM A := fun w =>
  match c w.2 with Done a p => Done a (w.1, p) | Blocked p => Blocked (w.1, p) end.

Definition Page_No (cap : Z) : Z := cap / Caps_Per_Page.
Definition Slot_No (cap : Z) : Z := cap mod Caps_Per_Page.

Definition root_of (t : Cap_Table) (page : Z) : Z := nth (Z.to_nat page) (Root t) 0.
Definition count_of (t : Cap_Table) (page : Z) : Z := nth (Z.to_nat page) (Count t) 0.
Definition set_root (page v : Z) : CM unit := modifyM (fun w =>
  (CapTable (<[Z.to_nat page := v]> (Root w.1)) (Count w.1) (Total w.1), w.2)).

(** [Page_At (PA) (Slot)] *)
Definition read_slot (pa slot : Z) : CM Cap_Entry := fun w =>
  match frames w.2 !! pa with
  | Some (Owned (Cap_Page es)) =>
      match es !! Z.to_nat slot with Some e => Done e w | None => Blocked w end
  | _ => Blocked w
  end.
Definition write_slot (pa slot : Z) (e : Cap_Entry) : CM unit := fun w =>
  match frames w.2 !! pa with
  | Some (Owned (Cap_Page es)) =>
      Done tt (w.1, set_frames (<[pa := Owned (Cap_Page (<[Z.to_nat slot := e]> es))]> (frames w.2)) w.2)
  | _ => Blocked w
  end.

(** A zeroed frame is a page of [Null_Cap]. *)
Definition Zero_Page (pa : Z) : CM unit := modifyM (fun w =>
  (w.1, set_frames (<[pa := Owned (Cap_Page (replicate (Z.to_nat Caps_Per_Page) Null_Cap))]> (frames w.2)) w.2)).

Definition Get (cap : Z) : CM Cap_Entry := fun w =>
  let pa := root_of w.1 (Page_No cap) in
  if pa =? 0 then Done Null_Cap w else read_slot pa (Slot_No cap) w.

Definition Put (cap : Z) (e : Cap_Entry) : CM unit := fun w =>
  write_slot (root_of w.1 (Page_No cap)) (Slot_No cap) e w.

Definition Ensure_Page (page : Z) : CM cap_status := fun w =>
  if negb (root_of w.1 page =? 0) then Done Cap_Ok w
  else
    (let* r := on_pmm Allocate_Frame in
     if negb (bool_decide (r.1 = PM_Ok)) then retM Table_Full
     else Zero_Page r.2 ;; set_root page r.2 ;; retM Cap_Ok) w.

Definition Release_Page (page : Z) : CM unit := fun w =>
  (let* st := on_pmm (Deallocate_Frame (root_of w.1 page)) in set_root page 0) w.

Definition empty_table : Cap_Table :=
  CapTable (replicate (Z.to_nat Page_Count) 0) (replicate (Z.to_nat Page_Count) 0) 0.
Definition Initialize_Table : CM unit := modifyM (fun w => (empty_table, w.2)).

(** [Table.Count (P)] and [Table.Total] by [d], both [Natural]. *)
Definition adjust (page d : Z) : CM unit := fun w =>
  let c := count_of w.1 page + d in
  let n := Total w.1 + d in
  if (0 <=? c) && (0 <=? n)
  then Done tt (CapTable (Root w.1) (<[Z.to_nat page := c]> (Count w.1)) n, w.2)
  else Blocked w.

(** ** Operations *)

(** The lowest handle from [cand] on that is not in use, among [n]. *)
Fixpoint find_free (n : nat) (cand : Z) : CM (option Z) :=
  match n with
  | O => retM None
  | S n' => let* e := Get cand in
            if c_valid e then find_free n' (cand + 1) else retM (Some cand)
  end.

(** The second half of [Insert] and [Insert_At]: the entry goes into a slot
    that is known to be free. *)
Definition fill (cap : Z) (e : Cap_Entry) : CM cap_status :=
  let* st := Ensure_Page (Page_No cap) in
  if negb (bool_decide (st = Cap_Ok)) then retM st
  else Put cap e ;; adjust (Page_No cap) 1 ;; retM Cap_Ok.

Definition no_object (k : Object_Kind) (o : Z) : bool := bool_decide (k = Null_Object) || (o =? 0).

Definition Insert (k : Object_Kind) (o : Z) (r : rights) (badge : Z) : CM (cap_status * Z) :=
  if no_object k o then retM (Invalid_Object, Invalid_Handle)
  else
    let* c := find_free (Z.to_nat (Max_Caps - 1)) 1 in
    match c with
    | None => retM (Table_Full, Invalid_Handle)
    | Some cand =>
        let* st := fill cand (CapEntry true k o r badge) in
        retM (if bool_decide (st = Cap_Ok) then (Cap_Ok, cand) else (st, Invalid_Handle))
    end.

Definition Insert_At (cap : Z) (k : Object_Kind) (o : Z) (r : rights) (badge : Z) : CM cap_status :=
  if cap =? Invalid_Handle then retM Invalid_Cap
  else if no_object k o then retM Invalid_Object
  else
    let* e := Get cap in
    if c_valid e then retM Slot_Occupied else fill cap (CapEntry true k o r badge).

Definition Lookup (cap : Z) : CM (cap_status * Cap_Entry) :=
  let* e := Get cap in
  retM (if (cap =? Invalid_Handle) || negb (c_valid e) then (Invalid_Cap, Null_Cap) else (Cap_Ok, e)).

Definition Duplicate (source : Z) (r : rights) (badge : Z) : CM (cap_status * Z) :=
  let* l := Lookup source in
  if negb (bool_decide (l.1 = Cap_Ok)) then retM (l.1, Invalid_Handle)
  else if negb (rt_transfer (c_rights l.2)) || negb (Has_Rights (c_rights l.2) r)
  then retM (Rights_Denied, Invalid_Handle)
  else Insert (c_kind l.2) (c_object l.2) r badge.

Definition Close_Slot (cap : Z) : CM cap_status :=
  let* free := if cap =? Invalid_Handle then retM true
               else let* e := Get cap in retM (negb (c_valid e)) in
  if free : bool then retM Invalid_Cap
  else
    Put cap Null_Cap ;;
    adjust (Page_No cap) (-1) ;;
    (fun w => if count_of w.1 (Page_No cap) =? 0 then Release_Page (Page_No cap) w else Done tt w) ;;
    retM Cap_Ok.

Fixpoint release_pages (n : nat) (page : Z) : CM unit :=
  match n with
  | O => retM tt
  | S n' =>
      (fun w => if negb (root_of w.1 page =? 0) then Release_Page page w else Done tt w) ;;
      release_pages n' (page + 1)
  end.

Definition Reset_Table : CM unit :=
  release_pages (Z.to_nat Page_Count) 0 ;;
  modifyM (fun w => (CapTable (Root w.1) (replicate (Z.to_nat Page_Count) 0) 0, w.2)).

Definition Used_Count (t : Cap_Table) : Z := Total t.
