(* ===== verification/KCapSpec.v ===== *)
(** * A capability table is a finite map

    [table_ok]: the pages of a table hold the entries of a finite map from
    handles to capabilities, a page is there exactly if one of its handles is
    in use, and the counts are right.  The operations refine those of the map,
    give every frame back that they do not need, and touch no frame of anybody
    else. *)
From S2P Require Import Prelude CInt KPmm KPmmSpec KCap.

(** ** Rights as masks *)

Definition right_bits (r : rights) : list bool :=
  [rt_read r; rt_write r; rt_execute r; rt_map r; rt_send r; rt_receive r; rt_wait r; rt_ack r;
   rt_transfer r; rt_manage r].
Definition bits_mask : list bool -> Z := foldr (fun b z => Z.b2z b + 2 * z) 0.

Lemma To_Mask_bits r : To_Mask r = bits_mask (right_bits r).
Proof.
  destruct r as [b0 b1 b2 b3 b4 b5 b6 b7 b8 b9].
  destruct b0, b1, b2, b3, b4, b5, b6, b7, b8, b9; reflexivity.
Qed.

Lemma Has_Rights_bits r1 r2 :
  Has_Rights r1 r2 = forallb (fun p : bool * bool => implb p.2 p.1) (zip (right_bits r1) (right_bits r2)).
Proof.
  destruct r1, r2. unfold Has_Rights; cbn. rewrite !andb_assoc, andb_true_r.
  repeat match goal with |- context [negb ?a || ?b] => change (negb a || b) with (implb a b) end.
  by rewrite <- !implb_orb.
Qed.

Lemma land_bit (a b : bool) x y :
  Z.land (Z.b2z a + 2 * x) (Z.b2z b + 2 * y) = Z.b2z (a && b) + 2 * Z.land x y.
Proof.
  rewrite !(Z.add_comm (Z.b2z _)).
  apply Z.bits_inj'. intros n Hn. rewrite Z.land_spec. destruct (decide (n = 0)) as [->|Hne].
  - by rewrite !Z.testbit_0_r.
  - replace n with (Z.succ (n - 1)) by lia. by rewrite !Z.testbit_succ_r, Z.land_spec by lia.
Qed.

Lemma subset_bits l1 l2 :
  length l1 = length l2 ->
  (Z.land (bits_mask l1) (bits_mask l2) =? bits_mask l2) =
  forallb (fun p : bool * bool => implb p.2 p.1) (zip l1 l2).
Proof.
  revert l2. induction l1 as [|a l1 IH]; intros [|b l2] Hl; try discriminate; [done|].
  cbn [bits_mask foldr zip zip_with forallb fst snd]. fold (bits_mask l1) (bits_mask l2). rewrite land_bit.
  rewrite <- IH by (cbn in Hl; lia).
  generalize (Z.land (bits_mask l1) (bits_mask l2)) (bits_mask l2). intros x y.
  destruct a, b; cbn [andb implb Z.b2z]; apply eq_true_iff_eq; rewrite ?andb_true_iff, !Z.eqb_eq; lia.
Qed.

(** A mask that sets no unknown bit, as a list of bits. *)
Lemma mask_bits m :
  0 <= m <= Valid_Rights_Mask -> m = bits_mask (right_bits (To_Rights m)).
Proof.
  intros Hm. unfold Valid_Rights_Mask in Hm.
  assert (H : forallb (fun n => bits_mask (right_bits (To_Rights (Z.of_nat n))) =? Z.of_nat n) (seq 0 1024) = true)
    by (vm_compute; reflexivity).
  rewrite forallb_forall in H. specialize (H (Z.to_nat m)). rewrite Z2Nat.id in H by lia.
  symmetry. apply Z.eqb_eq, H, in_seq. lia.
Qed.

Lemma To_Rights_Mask r : To_Rights (To_Mask r) = r.
Proof.
  destruct r as [b0 b1 b2 b3 b4 b5 b6 b7 b8 b9].
  destruct b0, b1, b2, b3, b4, b5, b6, b7, b8, b9; reflexivity.
Qed.

(** Rights masks are faithful.  Decoding a mask without unknown bits and
    encoding it again gives the mask, every set of rights comes back from its
    mask, and one set contains another exactly if its mask has all the bits of
    the other's: the check of grants by rights is the check of masks. *)
Theorem rights_masks have m :
  0 <= m <= Valid_Rights_Mask ->
  To_Mask (To_Rights m) = m /\ To_Rights (To_Mask have) = have /\
  Has_Rights have (To_Rights m) = (Z.land (To_Mask have) m =? m).
Proof.
  intros Hm. pose proof (mask_bits m Hm) as Hb. split_and!.
  - by rewrite To_Mask_bits.
  - apply To_Rights_Mask.
  - rewrite Has_Rights_bits, To_Mask_bits, <- subset_bits by done. by rewrite <- Hb.
Qed.

Lemma rights_masks_witness :
  Has_Rights (To_Rights 11) (To_Rights 9) = true /\ To_Mask (To_Rights 9) = 9.
Proof.
  split; [vm_compute; reflexivity|].
  exact (proj1 (rights_masks No_Rights 9 ltac:(vm_compute; split; discriminate))).
Defined.

(** ** The representation *)

Implicit Types (t : Cap_Table) (p : pmm frame_data) (A : gmap Z Cap_Entry) (fs R : gset Z).

Definition page_of (P : Z) A : gmap Z Cap_Entry := filter (fun kv => Page_No kv.1 = P) A.

(** [ex] is a page that may be there although it is empty; -1 for none. *)
Record table_ok (ex : Z) t p A fs : Prop := {
  to_lens : length (Root t) = Z.to_nat Page_Count /\ length (Count t) = Z.to_nat Page_Count;
  to_range : forall h e, A !! h = Some e -> 0 < h < Max_Caps /\ c_valid e = true;
  to_count : forall P, 0 <= P < Page_Count -> count_of t P = Z.of_nat (size (page_of P A));
  to_total : Total t = Z.of_nat (size A);
  to_absent : forall P, 0 <= P < Page_Count -> root_of t P = 0 -> page_of P A = ∅;
  to_needed : forall P, 0 <= P < Page_Count -> page_of P A = ∅ -> P <> ex -> root_of t P = 0;
  to_page : forall P, 0 <= P < Page_Count -> root_of t P <> 0 ->
    root_of t P ∈ fs /\ exists es, frames p !! root_of t P = Some (Owned (Cap_Page es)) /\
      length es = Z.to_nat Caps_Per_Page /\
      forall i, 0 <= i < Caps_Per_Page ->
        es !! Z.to_nat i = Some (default Null_Cap (A !! (P * Caps_Per_Page + i)));
  to_distinct : forall P Q, 0 <= P < Page_Count -> 0 <= Q < Page_Count ->
    root_of t P = root_of t Q -> root_of t P <> 0 -> P = Q;
  to_frames : forall f, f ∈ fs -> f <> 0 /\ exists P, 0 <= P < Page_Count /\ root_of t P = f }.

(** A table beside other owned frames [R]. *)
Definition world_ok_ex (ex : Z) R A (w : world) : Prop :=
  exists fs fl, table_ok ex w.1 w.2 A fs /\ pmm_ok w.2 (fs ∪ R) fl /\ fs ## R.
Definition world_ok : gset Z -> gmap Z Cap_Entry -> world -> Prop := world_ok_ex (-1).

Lemma page_no_range h : 0 <= h < Max_Caps -> 0 <= Page_No h < Page_Count.
Proof. unfold Page_No, Page_Count, Max_Caps, Caps_Per_Page. change (16384 / 128) with 128. zlia. Qed.

Lemma slot_no_range h : 0 <= Slot_No h < Caps_Per_Page.
Proof. unfold Slot_No, Caps_Per_Page. apply Z.mod_pos_bound. lia. Qed.

Lemma page_slot h : Page_No h * Caps_Per_Page + Slot_No h = h.
Proof. unfold Page_No, Slot_No, Caps_Per_Page. zlia. Qed.

Lemma page_slot_inj P i h :
  0 <= i < Caps_Per_Page -> P * Caps_Per_Page + i = h -> Page_No h = P /\ Slot_No h = i.
Proof. unfold Page_No, Slot_No, Caps_Per_Page. zlia. Qed.

Lemma page_of_empty P A h : page_of P A = ∅ -> Page_No h = P -> A !! h = None.
Proof.
  intros He Hh. destruct (A !! h) as [e|] eqn:E; [|done].
  assert (H : page_of P A !! h = Some e) by (by apply map_lookup_filter_Some).
  by rewrite He in H.
Qed.

Lemma page_of_insert P A h e :
  page_of P (<[h := e]> A) = if decide (Page_No h = P) then <[h := e]> (page_of P A) else page_of P (delete h A).
Proof.
  unfold page_of. case_decide as H.
  - by rewrite map_filter_insert_True.
  - by rewrite map_filter_insert_False.
Qed.

Lemma page_of_delete P A h : page_of P (delete h A) = delete h (page_of P A).
Proof. unfold page_of. by rewrite map_filter_delete. Qed.

Lemma page_of_other P A h : Page_No h <> P -> page_of P (delete h A) = page_of P A.
Proof.
  intros H. rewrite page_of_delete. apply delete_id. apply map_lookup_filter_None. right. by intros e _.
Qed.

(** ** Reading *)

Lemma Get_spec ex h t p A fs :
  table_ok ex t p A fs -> 0 <= h < Max_Caps ->
  Get h (t, p) = Done (default Null_Cap (A !! h)) (t, p).
Proof.
  intros Ht Hh. unfold Get. cbn [fst snd]. pose proof (page_no_range h Hh) as HP.
  destruct (Z.eqb_spec (root_of t (Page_No h)) 0) as [E|E].
  - by rewrite (page_of_empty _ _ _ (to_absent _ _ _ _ _ Ht _ HP E)).
  - destruct (to_page _ _ _ _ _ Ht _ HP E) as (_ & es & He & _ & Hi).
    unfold read_slot. cbn [snd]. rewrite He, (Hi (Slot_No h)), page_slot by apply slot_no_range. done.
Qed.

Lemma table_zero ex t p A fs : table_ok ex t p A fs -> A !! 0 = None.
Proof.
  intros Ht. destruct (A !! 0) as [e|] eqn:E; [|done]. destruct (to_range _ _ _ _ _ Ht _ _ E). lia.
Qed.

(** A capability that is there is valid, what is not there reads as null. *)
Lemma valid_iff ex t p A fs h :
  table_ok ex t p A fs -> c_valid (default Null_Cap (A !! h)) = bool_decide (is_Some (A !! h)).
Proof.
  intros Ht. destruct (A !! h) as [e|] eqn:E; cbn [from_option id].
  - rewrite bool_decide_eq_true_2 by done. by destruct (to_range _ _ _ _ _ Ht _ _ E).
  - symmetry. apply bool_decide_eq_false_2. by intros [? ?].
Qed.

Lemma find_free_spec ex t p A fs n : forall c,
  table_ok ex t p A fs -> 0 <= c -> c + Z.of_nat n <= Max_Caps ->
  exists r, find_free n c (t, p) = Done r (t, p) /\
    match r with
    | Some h => c <= h < c + Z.of_nat n /\ A !! h = None /\ forall j, c <= j < h -> is_Some (A !! j)
    | None => forall j, c <= j < c + Z.of_nat n -> is_Some (A !! j)
    end.
Proof.
  induction n as [|n IH]; intros c Ht Hc Hn; cbn [find_free].
  { exists None. split; [done|]. intros j Hj. lia. }
  unfold bindM. rewrite (Get_spec ex c t p A fs) by (done || lia).
  rewrite (valid_iff ex t p A fs) by done. case_bool_decide as Hv.
  - destruct (IH (c + 1) Ht) as (r & -> & Hr); [lia|lia|]. exists r. split; [done|].
    destruct r as [h|].
    + destruct Hr as (H1 & H2 & H3). split_and!; [lia|lia|done|]. intros j Hj.
      destruct (decide (j = c)) as [->|]; [done|]. apply H3. lia.
    + intros j Hj. destruct (decide (j = c)) as [->|]; [done|]. apply Hr. lia.
  - exists (Some c). split; [done|]. split_and!; [lia|lia| |intros j Hj; lia].
    by destruct (A !! c); [destruct Hv|].
Qed.

(** ** Roots and counts as arrays *)

Lemma nth_insert_Z (P Q v : Z) (l : list Z) (n : Z) :
  length l = Z.to_nat n -> 0 <= P < n -> 0 <= Q ->
  nth (Z.to_nat Q) (<[Z.to_nat P := v]> l) 0 = if decide (P = Q) then v else nth (Z.to_nat Q) l 0.
Proof.
  intros Hl HP HQ. rewrite !nth_lookup. case_decide as E.
  - subst Q. by rewrite list_lookup_insert_eq by lia.
  - by rewrite list_lookup_insert_ne by lia.
Qed.

Definition with_root (P v : Z) t : Cap_Table := CapTable (<[Z.to_nat P := v]> (Root t)) (Count t) (Total t).

Lemma root_with ex t p A fs P Q v :
  table_ok ex t p A fs -> 0 <= P < Page_Count -> 0 <= Q ->
  root_of (with_root P v t) Q = if decide (P = Q) then v else root_of t Q.
Proof. intros Ht HP HQ. apply (nth_insert_Z _ _ _ _ Page_Count); [apply (to_lens _ _ _ _ _ Ht)|done|done]. Qed.

(** ** Pages *)

(** A fresh frame becomes a page. *)
Lemma page_added R A t p fs fl f P :
  table_ok (-1) t p A fs -> 0 <= P < Page_Count -> root_of t P = 0 -> f ∉ fs ∪ R -> fs ## R -> f <> 0 ->
  pmm_ok p ({[f]} ∪ (fs ∪ R)) fl ->
  world_ok_ex P R A (with_root P f t,
    set_frames (<[f := Owned (Cap_Page (replicate (Z.to_nat Caps_Per_Page) Null_Cap))]> (frames p)) p).
Proof.
  intros Ht HP H0 Hf Hd Hf0 Hp. exists ({[f]} ∪ fs), fl. cbn [fst snd]. split_and!; [|..].
  - pose proof (fun Q => root_with _ _ _ _ _ P Q f Ht HP) as Hroot.
    assert (Hnf : forall Q, 0 <= Q < Page_Count -> root_of t Q <> f).
    { intros Q HQ E. apply Hf. apply elem_of_union. left. rewrite <- E. apply (to_page _ _ _ _ _ Ht); [done|congruence]. }
    destruct Ht as [T1 T2 T3 T4 T5 T6 T7 T8 T9]. split; try done.
    + cbn. by rewrite length_insert.
    + intros Q HQ. rewrite Hroot by lia. case_decide; [congruence|auto].
    + intros Q HQ He Hne. rewrite Hroot by lia. case_decide; [congruence|]. apply T6; [done..|lia].
    + intros Q HQ. rewrite Hroot by lia. case_decide as E.
      * intros _. split; [set_solver|]. eexists. cbn [frames set_frames]. rewrite lookup_insert_eq.
        split; [done|]. split; [by rewrite length_replicate|]. intros i Hi.
        rewrite lookup_replicate_2 by (unfold Caps_Per_Page in *; lia). f_equal.
        destruct (page_slot_inj Q i _ Hi eq_refl) as [Hpn _].
        by rewrite (page_of_empty Q A) by (try done; subst Q; by apply T5).
      * intros Hq. destruct (T7 Q HQ Hq) as (Hin & es & He & Hes). split; [set_solver|]. exists es.
        cbn [frames set_frames]. rewrite lookup_insert_ne; [done|]. intros E'. by apply (Hnf Q).
    + intros Q1 Q2 HQ1 HQ2. rewrite !Hroot by lia. repeat case_decide; subst; try done.
      * intros E' _. exfalso. by apply (Hnf Q2).
      * intros E' _. exfalso. by apply (Hnf Q1).
      * by apply T8.
    + intros x [->%elem_of_singleton|Hx]%elem_of_union.
      * split; [done|]. exists P. split; [done|]. rewrite Hroot by lia. by rewrite decide_True.
      * destruct (T9 x Hx) as (Hx0 & Q & HQ & <-). split; [done|]. exists Q. split; [done|].
        rewrite Hroot by lia. rewrite decide_False; [done|]. congruence.
  - apply pmm_ok_write; [set_solver|]. eapply pmm_ok_mono; [|exact Hp]. set_solver.
  - set_solver.
Qed.

(** Nothing left to allocate. *)
Definition exhausted p : Prop :=
  exists r p', Allocate_Frame p = Done r p' /\ r.1 = Out_Of_Memory.

Lemma table_frames ex t p p' A fs :
  (forall f, f ∈ fs -> frames p' !! f = frames p !! f) -> table_ok ex t p A fs -> table_ok ex t p' A fs.
Proof.
  intros Hf [T1 T2 T3 T4 T5 T6 T7 T8 T9]. split; try done. intros Q HQ Hq.
  destruct (T7 Q HQ Hq) as (Hin & es & He & Hes). split; [done|]. exists es. by rewrite Hf.
Qed.

Lemma Ensure_Page_spec R A t p P :
  world_ok R A (t, p) -> 0 <= P < Page_Count ->
  exists st w', Ensure_Page P (t, p) = Done st w' /\ undisturbed R p w'.2 /\
    (st = Cap_Ok /\ world_ok_ex P R A w' /\ root_of w'.1 P <> 0 \/
     st = Table_Full /\ world_ok R A w' /\ exhausted p).
Proof.
  intros (fs & fl & Ht & Hp & Hd) HP. cbn [fst snd] in *. unfold Ensure_Page. cbn [fst].
  destruct (Z.eqb_spec (root_of t P) 0) as [E|E]; cbn [negb].
  - unfold bindM, on_pmm. cbn [fst snd].
    destruct (alloc_spec p _ _ Hp) as ([st f] & p' & Ea & U & Hr). rewrite Ea. cbn [fst snd] in *.
    assert (UR : undisturbed R p p') by (eapply undisturbed_mono; [|exact U]; set_solver).
    destruct st; try (destruct Hr as (Hst & _); discriminate).
    + destruct Hr as [Hf (fl' & Hp')]. rewrite bool_decide_eq_true_2 by done. cbn [negb].
      unfold Zero_Page, set_root, modifyM, retM. cbn [fst snd]. do 2 eexists. split; [reflexivity|].
      cbn [snd]. split.
      { destruct UR as [U1 U2 U3 U4]. split; [done..|]. intros x Hx. cbn. rewrite lookup_insert_ne; [auto|].
        set_solver. }
      left. split; [done|]. split.
      * apply (page_added R A t p' fs fl' f P); [|done|done|done|done| |done].
        { eapply table_frames; [|exact Ht]. intros x Hx. apply (un_frames _ _ _ U). set_solver. }
        { eapply managed_pos; [exact Hp'|]. apply (po_owned _ _ _ Hp'). set_solver. }
      * change (root_of (with_root P f t) P <> 0). rewrite (root_with _ _ _ _ _ P P f Ht HP) by lia.
        rewrite decide_True by done. eapply managed_pos; [exact Hp'|]. apply (po_owned _ _ _ Hp'). set_solver.
    + rewrite bool_decide_eq_false_2 by done. cbn [negb]. do 2 eexists. split; [reflexivity|]. cbn [snd].
      split; [done|]. right. destruct Hr as (_ & -> & Hp' & _). split_and!; [done| |].
      * exists fs, []. split_and!; [|done|done]. cbn [fst snd].
        eapply table_frames; [|exact Ht]. intros x Hx. apply (un_frames _ _ _ U). set_solver.
      * by exists (Out_Of_Memory, f), p'.
  - do 2 eexists. split; [reflexivity|]. cbn [fst snd]. split; [done|]. left. split_and!; [done| |done].
    exists fs, fl. split_and!; [|done..]. destruct Ht as [T1 T2 T3 T4 T5 T6 T7 T8 T9].
    split; try done. intros Q HQ He Hne. apply T6; [done..|lia].
Qed.

(** ** Entries *)

(** The map changes at [h], by one in its page and in the whole. *)
Record changed_at (h : Z) (e : Cap_Entry) (d : Z) A A' : Prop := {
  ca_there : default Null_Cap (A' !! h) = e;
  ca_else : forall j, j <> h -> A' !! j = A !! j;
  ca_size : Z.of_nat (size A') = Z.of_nat (size A) + d;
  ca_page : Z.of_nat (size (page_of (Page_No h) A')) = Z.of_nat (size (page_of (Page_No h) A)) + d;
  ca_pages : forall P, P <> Page_No h -> page_of P A' = page_of P A;
  ca_range : forall j e, A' !! j = Some e -> 0 < j < Max_Caps /\ c_valid e = true }.

Lemma changed_insert ex h e t p A fs :
  table_ok ex t p A fs -> A !! h = None -> 0 < h < Max_Caps -> c_valid e = true ->
  changed_at h e 1 A (<[h := e]> A).
Proof.
  intros Ht Hn Hh Hv. split.
  - by rewrite lookup_insert_eq.
  - intros j Hj. by rewrite lookup_insert_ne.
  - rewrite map_size_insert_None by done. lia.
  - rewrite page_of_insert, decide_True by done. rewrite map_size_insert_None; [lia|].
    apply map_lookup_filter_None. by left.
  - intros P HP. rewrite page_of_insert, decide_False by done. by apply page_of_other.
  - intros j e'. destruct (decide (j = h)) as [->|Hj].
    + rewrite lookup_insert_eq. by intros [= <-].
    + rewrite lookup_insert_ne by done. apply (to_range _ _ _ _ _ Ht).
Qed.

Lemma changed_delete ex h t p A fs :
  table_ok ex t p A fs -> is_Some (A !! h) -> changed_at h Null_Cap (-1) A (delete h A).
Proof.
  intros Ht [e He]. assert (Hpos : (0 < size A)%nat).
  { apply Nat.neq_0_lt_0. intros H%map_size_empty_iff. by rewrite H in He. }
  assert (Hpe : page_of (Page_No h) A !! h = Some e) by (by apply map_lookup_filter_Some).
  assert (Hpp : (0 < size (page_of (Page_No h) A))%nat).
  { apply Nat.neq_0_lt_0. intros H%map_size_empty_iff. by rewrite H in Hpe. }
  split.
  - by rewrite lookup_delete_eq.
  - intros j Hj. by rewrite lookup_delete_ne.
  - rewrite map_size_delete_Some by done. lia.
  - rewrite page_of_delete, map_size_delete_Some by done. lia.
  - intros P HP. apply page_of_other. congruence.
  - intros j e' (_ & Hj)%lookup_delete_Some. by apply (to_range _ _ _ _ _ Ht _ _ Hj).
Qed.

Definition with_count (P c n : Z) t : Cap_Table := CapTable (Root t) (<[Z.to_nat P := c]> (Count t)) n.

(** [Put] and the counts together. *)
Lemma put_spec ex R A A' h e d t p :
  world_ok_ex ex R A (t, p) -> 0 <= h < Max_Caps -> root_of t (Page_No h) <> 0 ->
  changed_at h e d A A' -> (ex = -1 \/ ex = Page_No h) ->
  exists w', (Put h e ;; adjust (Page_No h) d) (t, p) = Done tt w' /\
    world_ok_ex (Page_No h) R A' w' /\ undisturbed R p w'.2 /\ root_of w'.1 (Page_No h) <> 0.
Proof.
  intros (fs & fl & Ht & Hp & Hd) Hh Hr [C1 C2 C3 C4 C5 C6] Hex. cbn [fst snd] in *.
  pose proof (page_no_range h Hh) as HP. set (P := Page_No h) in *.
  destruct (to_page _ _ _ _ _ Ht P HP Hr) as (Hin & es & He & Hlen & Hes).
  pose proof (to_count _ _ _ _ _ Ht P HP) as Hc. pose proof (to_total _ _ _ _ _ Ht) as Htot.
  pose proof (slot_no_range h) as Hs.
  unfold bindM, Put, write_slot, adjust. cbn [fst snd]. fold P. rewrite He. cbn [fst snd].
  change (count_of (t, _).1 P) with (count_of t P). rewrite Hc, Htot, <- C3, <- C4.
  replace (0 <=? _) with true by (symmetry; apply Z.leb_le; lia).
  replace (0 <=? _) with true by (symmetry; apply Z.leb_le; lia). cbn [andb].
  eexists. split; [reflexivity|]. set (es' := <[Z.to_nat (Slot_No h) := e]> es).
  change (root_of (_, _).1 P <> 0) with (root_of t P <> 0).
  split_and!; [|split; try done; cbn; intros x Hx; rewrite lookup_insert_ne; [done|set_solver]|done].
  exists fs, fl. cbn [fst snd]. split_and!; [|by apply pmm_ok_write; [set_solver|]|done].
  destruct Ht as [T1 T2 T3 T4 T5 T6 T7 T8 T9].
  assert (Hroot : forall Q, root_of (with_count P (Z.of_nat (size (page_of P A'))) (Z.of_nat (size A')) t) Q
            = root_of t Q) by done.
  split; try done.
  - cbn. by rewrite length_insert.
  - intros Q HQ. unfold count_of at 1. cbn [Count]. rewrite (nth_insert_Z _ _ _ _ Page_Count); [|apply T1|done|lia].
    case_decide; [by subst|]. rewrite C5 by done. by apply T3.
  - intros Q HQ HQ0. rewrite C5; [by apply T5|]. intros ->. done.
  - intros Q HQ HQe Hne. rewrite C5 in HQe by done. apply T6; [done..|]. destruct Hex as [->| ->]; [lia|done].
  - intros Q HQ HQr. destruct (T7 Q HQ HQr) as (Qin & eq & Qe & Ql & Qi). split; [done|].
    change (root_of (CapTable _ _ _) Q) with (root_of t Q). cbn [frames set_frames].
    destruct (decide (Q = P)) as [->|Hne].
    + exists es'. rewrite lookup_insert_eq. split; [done|]. split; [by unfold es'; rewrite length_insert|].
      intros i Hi. unfold es'. destruct (decide (i = Slot_No h)) as [->|Hi2].
      * rewrite list_lookup_insert_eq by lia. unfold P. by rewrite page_slot, C1.
      * rewrite list_lookup_insert_ne by lia. rewrite (Hes i Hi), C2; [done|]. intros E.
        by destruct (page_slot_inj P i h Hi E).
    + exists eq. rewrite lookup_insert_ne by (intros E; apply Hne; by apply T8). split; [done|].
      split; [done|]. intros i Hi. rewrite (Qi i Hi), C2; [done|]. intros E.
      by destruct (page_slot_inj Q i h Hi E).
Qed.

Lemma world_ok_used P R A w :
  world_ok_ex P R A w -> page_of P A <> ∅ -> world_ok R A w.
Proof.
  intros (fs & fl & [T1 T2 T3 T4 T5 T6 T7 T8 T9] & Hp & Hd) HP. exists fs, fl. split_and!; [|done..].
  split; try done. intros Q HQ He _. apply T6; [done..|]. by intros ->.
Qed.

Lemma world_table R A w : world_ok R A w -> exists fs, table_ok (-1) w.1 w.2 A fs.
Proof. intros (fs & fl & H & _). by exists fs. Qed.

(** What a free slot is filled with. *)
Lemma fill_spec R A w h e :
  world_ok R A w -> 0 < h < Max_Caps -> A !! h = None -> c_valid e = true ->
  exists st w', fill h e w = Done st w' /\ undisturbed R w.2 w'.2 /\
    (st = Cap_Ok /\ world_ok R (<[h := e]> A) w' \/
     st = Table_Full /\ world_ok R A w' /\ exhausted w.2).
Proof.
  intros Hw Hh Hn Hv. destruct w as [t p]. unfold fill. unfold bindM at 1.
  destruct (Ensure_Page_spec R A t p (Page_No h) Hw) as (st & [t1 p1] & -> & U & [(-> & Hw1 & Hr)|(-> & Hw1 & Hx)]);
    [by apply page_no_range; lia|..]; cbn [fst snd] in *.
  - rewrite bool_decide_eq_true_2 by done. cbn [negb].
    pose proof Hw1 as (fs & fl & Ht & _).
    destruct (put_spec (Page_No h) R A (<[h := e]> A) h e 1 t1 p1) as (w' & E & Hw' & U' & _);
      [done|lia|done|by eapply changed_insert|by right|].
    unfold bindM, retM in E |- *. destruct (Put h e (t1, p1)) as [[] w2|]; [|done].
    rewrite E. do 2 eexists. split; [reflexivity|]. split; [by transitivity p1|]. left. split; [done|].
    eapply world_ok_used; [exact Hw'|]. intros E'. apply (page_of_empty _ _ h) in E'; [|done].
    by rewrite lookup_insert_eq in E'.
  - rewrite bool_decide_eq_false_2 by done. do 2 eexists. split; [reflexivity|]. split; [done|]. by right.
Qed.

(** ** The operations on the map *)

(** The answers of [Insert] on the map. *)
Definition insert_answer A (k : Object_Kind) (o : Z) (r : rights) (b : Z) (full : Prop)
    (res : cap_status * Z) A' : Prop :=
  if no_object k o then res = (Invalid_Object, 0) /\ A' = A
  else
    (res.1 = Cap_Ok /\ 0 < res.2 < Max_Caps /\ A !! res.2 = None /\
       (forall j, 0 < j < res.2 -> is_Some (A !! j)) /\
       A' = <[res.2 := CapEntry true k o r b]> A) \/
    (res = (Table_Full, 0) /\ A' = A /\ ((forall j, 0 < j < Max_Caps -> is_Some (A !! j)) \/ full)).

Lemma Insert_spec R A w k o r b :
  world_ok R A w ->
  exists res A' w', Insert k o r b w = Done res w' /\ undisturbed R w.2 w'.2 /\ world_ok R A' w' /\
    insert_answer A k o r b (exhausted w.2) res A'.
Proof.
  intros Hw. unfold Insert, insert_answer. destruct (no_object k o) eqn:En.
  { exists (Invalid_Object, 0), A, w. by split_and!. }
  destruct (world_table _ _ _ Hw) as [fs Ht]. destruct w as [t p]. cbn [fst snd] in *. unfold bindM at 1.
  destruct (find_free_spec _ t p A fs (Z.to_nat (Max_Caps - 1)) 1 Ht) as (c & -> & Hc);
    [lia|unfold Max_Caps; lia|].
  replace (1 + Z.of_nat (Z.to_nat (Max_Caps - 1))) with Max_Caps in Hc by (unfold Max_Caps; lia).
  destruct c as [h|].
  - destruct Hc as (H1 & H2 & H3). unfold bindM at 1.
    destruct (fill_spec R A (t, p) h (CapEntry true k o r b) Hw) as (st & w' & -> & U & Hst); [lia|done|done|].
    cbn [fst snd] in *. destruct Hst as [(-> & Hw')|(-> & Hw' & Hx)].
    + rewrite bool_decide_eq_true_2 by done. do 3 eexists. split; [reflexivity|]. split_and!; [done|exact Hw'|].
      left. cbn [fst snd]. split_and!; try done; try lia. intros j Hj. apply H3. lia.
    + rewrite bool_decide_eq_false_2 by done. do 3 eexists. split; [reflexivity|]. split_and!; [done|exact Hw'|].
      right. split_and!; [done|done|by right].
  - do 3 eexists. split; [reflexivity|]. split_and!; [done|exact Hw|]. right. split_and!; [done|done|].
    left. intros j Hj. apply Hc. lia.
Qed.

Definition insert_at_answer A (h : Z) (k : Object_Kind) (o : Z) (r : rights) (b : Z) (full : Prop)
    (st : cap_status) A' : Prop :=
  if h =? 0 then st = Invalid_Cap /\ A' = A
  else if no_object k o then st = Invalid_Object /\ A' = A
  else if bool_decide (is_Some (A !! h)) then st = Slot_Occupied /\ A' = A
  else (st = Cap_Ok /\ A' = <[h := CapEntry true k o r b]> A) \/ (st = Table_Full /\ A' = A /\ full).

Lemma Insert_At_spec R A w h k o r b :
  world_ok R A w -> 0 <= h < Max_Caps ->
  exists st A' w', Insert_At h k o r b w = Done st w' /\ undisturbed R w.2 w'.2 /\ world_ok R A' w' /\
    insert_at_answer A h k o r b (exhausted w.2) st A'.
Proof.
  intros Hw Hh. unfold Insert_At, insert_at_answer, Invalid_Handle.
  destruct (Z.eqb_spec h 0); [by exists Invalid_Cap, A, w|].
  destruct (no_object k o); [by exists Invalid_Object, A, w|].
  destruct (world_table _ _ _ Hw) as [fs Ht]. destruct w as [t p]. cbn [fst snd] in *. unfold bindM.
  rewrite (Get_spec _ h t p A fs) by done. rewrite (valid_iff _ t p A fs) by done.
  case_bool_decide as Hv; [by exists Slot_Occupied, A, (t, p)|].
  destruct (fill_spec R A (t, p) h (CapEntry true k o r b) Hw) as (st & w' & -> & U & Hst);
    [lia|by destruct (A !! h); [destruct Hv|]|done|].
  destruct Hst as [(-> & Hw')|(-> & Hw' & Hx)].
  - do 3 eexists. split; [reflexivity|]. split_and!; [done|exact Hw'|]. by left.
  - do 3 eexists. split; [reflexivity|]. split_and!; [done|exact Hw'|]. by right.
Qed.

Definition lookup_answer A (h : Z) : cap_status * Cap_Entry :=
  match A !! h with Some e => (Cap_Ok, e) | None => (Invalid_Cap, Null_Cap) end.

Lemma Lookup_spec R A w h :
  world_ok R A w -> 0 <= h < Max_Caps -> Lookup h w = Done (lookup_answer A h) w.
Proof.
  intros Hw Hh. destruct (world_table _ _ _ Hw) as [fs Ht]. destruct w as [t p]. cbn [fst snd] in *.
  unfold Lookup, bindM, Invalid_Handle, retM, lookup_answer. rewrite (Get_spec _ h t p A fs) by done.
  rewrite (valid_iff _ t p A fs) by done. destruct (A !! h) as [e|] eqn:E.
  - destruct (to_range _ _ _ _ _ Ht _ _ E) as [Hr _]. replace (h =? 0) with false by (symmetry; apply Z.eqb_neq; lia).
    rewrite bool_decide_eq_true_2 by done. done.
  - rewrite bool_decide_eq_false_2 by (by intros [? ?]). by rewrite orb_true_r.
Qed.

(** A copy has no more rights than its source, and needs the right to
    transfer. *)
Definition duplicate_answer A (s : Z) (r : rights) (b : Z) (full : Prop) (res : cap_status * Z) A' : Prop :=
  match A !! s with
  | None => res = (Invalid_Cap, 0) /\ A' = A
  | Some e =>
      if rt_transfer (c_rights e) && Has_Rights (c_rights e) r
      then insert_answer A (c_kind e) (c_object e) r b full res A'
      else res = (Rights_Denied, 0) /\ A' = A
  end.

Lemma Duplicate_spec R A w s r b :
  world_ok R A w -> 0 <= s < Max_Caps ->
  exists res A' w', Duplicate s r b w = Done res w' /\ undisturbed R w.2 w'.2 /\ world_ok R A' w' /\
    duplicate_answer A s r b (exhausted w.2) res A'.
Proof.
  intros Hw Hs. unfold Duplicate, duplicate_answer, bindM. rewrite (Lookup_spec R A w s) by done.
  unfold lookup_answer. destruct (A !! s) as [e|]; cbn [fst snd].
  - rewrite bool_decide_eq_true_2 by done. cbn [negb]. rewrite <- negb_andb.
    destruct (_ && _); cbn [negb]; [by apply Insert_spec|]. by exists (Rights_Denied, 0), A, w.
  - rewrite bool_decide_eq_false_2 by done. by exists (Invalid_Cap, 0), A, w.
Qed.

(** ** Giving pages back *)

(** The roots are the frames [fs], each once. *)
Record roots_ok t fs : Prop := {
  ro_len : length (Root t) = Z.to_nat Page_Count;
  ro_in : forall P, 0 <= P < Page_Count -> root_of t P <> 0 -> root_of t P ∈ fs;
  ro_distinct : forall P Q, 0 <= P < Page_Count -> 0 <= Q < Page_Count ->
    root_of t P = root_of t Q -> root_of t P <> 0 -> P = Q;
  ro_frames : forall f, f ∈ fs -> f <> 0 /\ exists P, 0 <= P < Page_Count /\ root_of t P = f }.

Lemma table_roots ex t p A fs : table_ok ex t p A fs -> roots_ok t fs.
Proof.
  intros [T1 T2 T3 T4 T5 T6 T7 T8 T9]. split; [apply T1| |done|done].
  intros P HP H0. by apply T7.
Qed.

Lemma root_with_ok t fs P Q v :
  roots_ok t fs -> 0 <= P < Page_Count -> 0 <= Q ->
  root_of (with_root P v t) Q = if decide (P = Q) then v else root_of t Q.
Proof. intros Ht HP HQ. apply (nth_insert_Z _ _ _ _ Page_Count); [apply (ro_len _ _ Ht)|done|done]. Qed.

Lemma Release_Page_spec R t p fs fl P :
  roots_ok t fs -> pmm_ok p (fs ∪ R) fl -> fs ## R -> 0 <= P < Page_Count -> root_of t P <> 0 ->
  let fs' := fs ∖ {[root_of t P]} in
  exists p' fl', Release_Page P (t, p) = Done tt (with_root P 0 t, p') /\
    roots_ok (with_root P 0 t) fs' /\ pmm_ok p' (fs' ∪ R) fl' /\ undisturbed (fs' ∪ R) p p'.
Proof.
  intros Hr Hp Hd HP H0 fs'. pose proof (ro_in _ _ Hr P HP H0) as Hin.
  assert (Hset : (fs ∪ R) ∖ {[root_of t P]} = fs' ∪ R) by (unfold fs'; set_solver).
  destruct (dealloc_spec (root_of t P) p (fs ∪ R) fl Hp) as (p' & fl' & E & U & Hp'); [set_solver|].
  rewrite Hset in *. unfold Release_Page, bindM, on_pmm. cbn [fst snd]. rewrite E. exists p', fl'.
  split_and!; [done| |done|done]. pose proof (fun Q => root_with_ok t fs P Q 0 Hr HP) as Hroot.
  destruct Hr as [R1 R2 R3 R4]. split.
  - cbn. by rewrite length_insert.
  - intros Q HQ. rewrite Hroot by lia. case_decide; [done|]. intros Hq. apply elem_of_difference.
    split; [auto|]. intros E'%elem_of_singleton. subst. apply H. symmetry. by apply R3.
  - intros Q1 Q2 HQ1 HQ2. rewrite !Hroot by lia. repeat case_decide; subst; try done. by apply R3.
  - intros f [Hf Hne]%elem_of_difference. destruct (R4 f Hf) as (Hf0 & Q & HQ & <-). split; [done|].
    exists Q. split; [done|]. rewrite Hroot by lia. rewrite decide_False; [done|]. intros ->. set_solver.
Qed.

Definition close_answer A (h : Z) : cap_status * gmap Z Cap_Entry :=
  match A !! h with Some _ => (Cap_Ok, delete h A) | None => (Invalid_Cap, A) end.

Lemma Close_spec R A w h :
  world_ok R A w -> 0 <= h < Max_Caps ->
  exists w', Close_Slot h w = Done (close_answer A h).1 w' /\ undisturbed R w.2 w'.2 /\
    world_ok R (close_answer A h).2 w'.
Proof.
  intros Hw Hh. destruct (world_table _ _ _ Hw) as [fs Ht]. destruct w as [t p]. cbn [fst snd] in *.
  unfold Close_Slot, close_answer, Invalid_Handle. unfold bindM at 1.
  destruct (Z.eqb_spec h 0) as [->|Hh0].
  { rewrite (table_zero _ _ _ _ _ Ht). cbn. by eexists. }
  unfold bindM at 1. rewrite (Get_spec _ h t p A fs) by done. unfold retM at 1.
  rewrite (valid_iff _ t p A fs) by done. destruct (A !! h) as [e|] eqn:E.
  2: { rewrite bool_decide_eq_false_2 by (by intros [? ?]). cbn. by eexists. }
  rewrite bool_decide_eq_true_2 by done. cbn [negb fst snd].
  pose proof (page_no_range h Hh) as HP.
  assert (Hr : root_of t (Page_No h) <> 0).
  { intros H0. apply (to_absent _ _ _ _ _ Ht) in H0; [|done]. apply (page_of_empty _ _ h) in H0; congruence. }
  destruct (put_spec (-1) R A (delete h A) h Null_Cap (-1) t p) as ([t1 p1] & E1 & Hw1 & U1 & Hr1);
    [done|done|done|by eapply changed_delete|by left|]. cbn [fst snd] in *.
  unfold bindM in E1 |- *. destruct (Put h Null_Cap (t, p)) as [[] w2|]; [|done]. rewrite E1. cbn [fst snd].
  pose proof Hw1 as (fs1 & fl1 & Ht1 & Hp1 & Hd1). cbn [fst snd] in *.
  rewrite (to_count _ _ _ _ _ Ht1 _ HP).
  destruct (Z.eqb_spec (Z.of_nat (size (page_of (Page_No h) (delete h A)))) 0) as [Hz|Hz].
  - assert (Hpe : page_of (Page_No h) (delete h A) = ∅) by (apply map_size_empty_iff; lia).
    destruct (Release_Page_spec R t1 p1 fs1 fl1 (Page_No h)) as (p' & fl' & -> & Hro & Hp' & U');
      [by eapply table_roots|done|done|done|done|].
    eexists. split; [reflexivity|]. cbn [snd]. split.
    { transitivity p1; [done|]. eapply undisturbed_mono; [|exact U']. set_solver. }
    exists (fs1 ∖ {[root_of t1 (Page_No h)]}), fl'. cbn [fst snd]. split_and!; [|done|set_solver].
    pose proof (fun Q => root_with_ok t1 fs1 (Page_No h) Q 0 (table_roots _ _ _ _ _ Ht1) HP) as Hroot.
    destruct Ht1 as [T1 T2 T3 T4 T5 T6 T7 T8 T9]. destruct Hro as [R1 R2 R3 R4]. split; try done.
    + by split; [|apply T1].
    + intros Q HQ. rewrite Hroot by lia. case_decide; [by subst|auto].
    + intros Q HQ He _. rewrite Hroot by lia. case_decide; [done|]. by apply T6; [..|congruence].
    + intros Q HQ HQ0. split; [by apply R2|]. revert HQ0. rewrite Hroot by lia. case_decide; [done|].
      intros HQ0. destruct (T7 Q HQ HQ0) as (Hin & es & He & Hes). exists es.
      rewrite (un_frames _ _ _ U'); [done|]. apply elem_of_union_l, elem_of_difference. split; [done|].
      intros E'%elem_of_singleton. apply H. symmetry. by apply T8.
  - eexists. split; [reflexivity|]. split; [done|]. eapply world_ok_used; [exact Hw1|].
    intros He. apply Hz. by rewrite He.
Qed.

(** The first pages of a table that is being emptied. *)
Lemma release_pages_spec R n : forall P t p fs fl,
  roots_ok t fs -> pmm_ok p (fs ∪ R) fl -> fs ## R -> 0 <= P -> P + Z.of_nat n <= Page_Count ->
  (forall Q, 0 <= Q < P -> root_of t Q = 0) ->
  exists t' p' fs' fl', release_pages n P (t, p) = Done tt (t', p') /\ roots_ok t' fs' /\
    pmm_ok p' (fs' ∪ R) fl' /\ fs' ## R /\ undisturbed R p p' /\
    (forall Q, 0 <= Q < P + Z.of_nat n -> root_of t' Q = 0).
Proof.
  induction n as [|n IH]; intros P t p fs fl Hr Hp Hd HP Hn Hz; cbn [release_pages].
  { exists t, p, fs, fl. split_and!; try done. intros Q HQ. apply Hz. lia. }
  unfold bindM. cbn [fst]. destruct (Z.eqb_spec (root_of t P) 0) as [E|E]; cbn [negb].
  - destruct (IH (P + 1) t p fs fl) as (t' & p' & fs' & fl' & H1 & H2 & H3 & H4 & H5 & H6); try done; try lia.
    { intros Q HQ. destruct (decide (Q = P)) as [->|]; [done|]. apply Hz. lia. }
    exists t', p', fs', fl'. split_and!; try done. intros Q HQ. apply H6. lia.
  - destruct (Release_Page_spec R t p fs fl P Hr Hp Hd) as (p1 & fl1 & -> & Hr1 & Hp1 & U1); [lia|done|].
    destruct (IH (P + 1) (with_root P 0 t) p1 (fs ∖ {[root_of t P]}) fl1)
      as (t' & p' & fs' & fl' & H1 & H2 & H3 & H4 & H5 & H6); try done; try lia; [set_solver| |].
    { intros Q HQ. rewrite (root_with_ok t fs) by (done || lia). case_decide; [done|]. apply Hz. lia. }
    exists t', p', fs', fl'. split_and!; try done.
    + transitivity p1; [|done]. eapply undisturbed_mono; [|exact U1]. set_solver.
    + intros Q HQ. apply H6. lia.
Qed.

Lemma nth_replicate_0 n i : nth i (replicate n 0) 0 = 0.
Proof. rewrite nth_lookup. destruct (replicate n 0 !! i) as [x|] eqn:E; [|done]. by apply lookup_replicate in E as [-> _]. Qed.

(** A table without roots is the empty map. *)
Lemma empty_ok t p :
  length (Root t) = Z.to_nat Page_Count -> (forall Q, 0 <= Q < Page_Count -> root_of t Q = 0) ->
  table_ok (-1) (CapTable (Root t) (replicate (Z.to_nat Page_Count) 0) 0) p ∅ ∅.
Proof.
  intros Hl Hz. assert (Hz' : forall Q, 0 <= Q < Page_Count ->
    root_of (CapTable (Root t) (replicate (Z.to_nat Page_Count) 0) 0) Q = 0) by exact Hz.
  assert (Hp : forall P, page_of P ∅ = ∅) by (intros P; apply map_filter_empty). split.
  - split; [done|]. apply length_replicate.
  - intros h e H. by rewrite lookup_empty in H.
  - intros P HP. rewrite Hp. apply nth_replicate_0.
  - done.
  - done.
  - intros P HP _ _. by apply Hz'.
  - intros P HP H. by rewrite Hz' in H.
  - intros P Q HP HQ _ H. by rewrite Hz' in H.
  - set_solver.
Qed.

Lemma Reset_spec R A w :
  world_ok R A w ->
  exists w' fl, Reset_Table w = Done tt w' /\ undisturbed R w.2 w'.2 /\ world_ok R ∅ w' /\ pmm_ok w'.2 R fl.
Proof.
  intros (fs & fl & Ht & Hp & Hd). destruct w as [t p]. cbn [fst snd] in *. unfold Reset_Table, bindM.
  destruct (release_pages_spec R (Z.to_nat Page_Count) 0 t p fs fl)
    as (t' & p' & fs' & fl' & -> & Hr & Hp' & Hd' & U & Hz);
    [by eapply table_roots|done|done|lia|by rewrite Z2Nat.id|intros; lia|].
  replace (0 + Z.of_nat (Z.to_nat Page_Count)) with Page_Count in Hz by done.
  assert (Hfs : fs' = ∅).
  { apply set_eq. intros f. split; [|set_solver]. intros Hf. exfalso.
    destruct (ro_frames _ _ Hr f Hf) as (Hf0 & P & HP & E). rewrite Hz in E; lia. }
  rewrite Hfs in Hp'.
  eexists _, fl'. split; [reflexivity|]. cbn [fst snd]. split_and!; [done| |].
  - exists ∅, fl'. split_and!; [by apply empty_ok; [apply (ro_len _ _ Hr)|]|done|set_solver].
  - eapply pmm_ok_mono; [|exact Hp']. set_solver.
Qed.

(** ** Histories of a table *)

Inductive table_op : Type :=
  | T_Insert (k : Object_Kind) (o : Z) (r : rights) (b : Z)
  | T_Insert_At (h : Z) (k : Object_Kind) (o : Z) (r : rights) (b : Z)
  | T_Lookup (h : Z)
  | T_Duplicate (s : Z) (r : rights) (b : Z)
  | T_Close (h : Z)
  | T_Reset.

(** The handles an operation is called with are handles. *)
Definition handles_ok (op : table_op) : Prop :=
  match op with
  | T_Insert_At h _ _ _ _ | T_Lookup h | T_Duplicate h _ _ | T_Close h => 0 <= h < Max_Caps
  | _ => True
  end.

Record table_result := TableResult { tr_status : cap_status; tr_handle : Z; tr_entry : Cap_Entry }.

Definition run_table (op : table_op) : CM table_result :=
  match op with
  | T_Insert k o r b => let* x := Insert k o r b in retM (TableResult x.1 x.2 Null_Cap)
  | T_Insert_At h k o r b => let* x := Insert_At h k o r b in retM (TableResult x 0 Null_Cap)
  | T_Lookup h => let* x := Lookup h in retM (TableResult x.1 0 x.2)
  | T_Duplicate s r b => let* x := Duplicate s r b in retM (TableResult x.1 x.2 Null_Cap)
  | T_Close h => let* x := Close_Slot h in retM (TableResult x 0 Null_Cap)
  | T_Reset => Reset_Table ;; retM (TableResult Cap_Ok 0 Null_Cap)
  end.

(** What the map answers; [full]: no frame is left. *)
Definition map_answers (op : table_op) (full : Prop) A (res : table_result) A' : Prop :=
  match op with
  | T_Insert k o r b => insert_answer A k o r b full (tr_status res, tr_handle res) A'
  | T_Insert_At h k o r b => insert_at_answer A h k o r b full (tr_status res) A'
  | T_Lookup h => (tr_status res, tr_entry res) = lookup_answer A h /\ A' = A
  | T_Duplicate s r b => duplicate_answer A s r b full (tr_status res, tr_handle res) A'
  | T_Close h => (tr_status res, A') = close_answer A h
  | T_Reset => tr_status res = Cap_Ok /\ A' = ∅
  end.

Lemma run_table_spec R A w op :
  world_ok R A w -> handles_ok op ->
  exists res A' w', run_table op w = Done res w' /\ undisturbed R w.2 w'.2 /\ world_ok R A' w' /\
    map_answers op (exhausted w.2) A res A'.
Proof.
  intros Hw Hh. destruct op; cbn in Hh; unfold run_table, bindM.
  - destruct (Insert_spec R A w k o r b Hw) as ([st h] & A' & w' & -> & U & Hw' & Ha). by do 3 eexists.
  - destruct (Insert_At_spec R A w h k o r b Hw Hh) as (st & A' & w' & -> & U & Hw' & Ha). by do 3 eexists.
  - rewrite (Lookup_spec R A w h Hw Hh). do 3 eexists. split_and!; [done|done|exact Hw|]. cbn.
    by destruct (lookup_answer A h).
  - destruct (Duplicate_spec R A w s r b Hw Hh) as ([st h] & A' & w' & -> & U & Hw' & Ha). by do 3 eexists.
  - destruct (Close_spec R A w h Hw Hh) as (w' & -> & U & Hw'). do 3 eexists.
    split_and!; [done|done|exact Hw'|]. cbn. by destruct (close_answer A h).
  - destruct (Reset_spec R A w Hw) as (w' & fl & -> & U & Hw' & _). do 3 eexists.
    by split_and!; [done|done|exact Hw'|].
Qed.

Fixpoint run_tables (ops : list table_op) : CM (list table_result) :=
  match ops with
  | [] => retM []
  | op :: ops' => let* x := run_table op in let* xs := run_tables ops' in retM (x :: xs)
  end.

(** A run of the table beside a run of the map: each answer is the one the map
    gives, and is refused for want of memory only if the allocator has no frame
    at that point. *)
Fixpoint map_run (ops : list table_op) A (w : Cap_Table * pmm frame_data) (res : list table_result) A' w' : Prop :=
  match ops, res with
  | [], [] => A' = A /\ w' = w
  | op :: ops', x :: res' => exists A1 w1,
      run_table op w = Done x w1 /\ map_answers op (exhausted w.2) A x A1 /\ map_run ops' A1 w1 res' A' w'
  | _, _ => False
  end.

Lemma run_tables_spec R ops : forall A w,
  world_ok R A w -> Forall handles_ok ops ->
  exists res A' w', run_tables ops w = Done res w' /\ undisturbed R w.2 w'.2 /\ world_ok R A' w' /\
    map_run ops A w res A' w'.
Proof.
  induction ops as [|op ops IH]; intros A w Hw Hh; cbn [run_tables].
  { by exists [], A, w. }
  apply Forall_cons in Hh as [Hh1 Hh]. destruct (run_table_spec R A w op Hw Hh1) as (x & A1 & w1 & E & U & Hw1 & Ha).
  destruct (IH A1 w1 Hw1 Hh) as (xs & A2 & w2 & E2 & U2 & Hw2 & Hr). unfold bindM. rewrite E, E2.
  exists (x :: xs), A2, w2. split_and!; [done|by transitivity w1.2|done|]. by exists A1, w1.
Qed.

Lemma world_empty R w : world_ok R ∅ w -> exists fl, pmm_ok w.2 R fl.
Proof.
  intros (fs & fl & Ht & Hp & _). exists fl. eapply pmm_ok_mono; [|exact Hp]. set_solver.
Qed.

(** C7. A capability table is a finite map from handles to capabilities.  Any
    series of operations on a table that represents a map [A], in a memory
    with other owned frames [R], returns; its answers are those of the map
    (the lowest free handle for an insertion, which is refused only if every
    handle is taken or if the frame allocator, as it is at that point, has no
    frame left; for a copy no right that the source has not);
    afterwards the table represents the map that results.  The frames [R]
    keep their contents, so that every other table represents the map it did;
    and a table whose map is empty holds no frame. *)
Theorem cap_table_refines R A w ops :
  world_ok R A w -> Forall handles_ok ops ->
  exists res A' w', run_tables ops w = Done res w' /\ map_run ops A w res A' w' /\ world_ok R A' w' /\
    (forall f, f ∈ R -> frames w'.2 !! f = frames w.2 !! f) /\
    (forall t B fs, fs ⊆ R -> table_ok (-1) t w.2 B fs -> table_ok (-1) t w'.2 B fs) /\
    (A' = ∅ -> exists fl, pmm_ok w'.2 R fl) /\
    Used_Count w'.1 = Z.of_nat (size A').
Proof.
  intros Hw Hh. destruct (run_tables_spec R ops A w Hw Hh) as (res & A' & w' & E & U & Hw' & Hr).
  exists res, A', w'. pose proof (un_frames _ _ _ U) as Hf. split_and!; try done.
  - intros t B fs Hfs. apply table_frames. intros f Hin. apply Hf. set_solver.
  - intros ->. by apply world_empty.
  - destruct (world_table _ _ _ Hw') as [fs Ht]. apply (to_total _ _ _ _ _ Ht).
Qed.

(** *** An example *)

Definition demo_frames : pmm frame_data := Pmm 4096 4096 1048576 0 0 true [] ∅.
Definition demo_ops : list table_op :=
  [T_Insert Endpoint_Object 64 All_Rights 0; T_Duplicate 1 (To_Rights 16) 7; T_Lookup 2; T_Close 1;
   T_Insert Memory_Object 128 No_Rights 0; T_Close 5; T_Reset].

Lemma demo_world : world_ok ∅ ∅ (empty_table, demo_frames).
Proof.
  exists ∅, []. cbn [fst snd]. split_and!; [|split; cbn; try done; try constructor; try lia; set_solver|set_solver].
  apply (empty_ok empty_table demo_frames); [apply length_replicate|]. intros Q HQ. apply nth_replicate_0.
Qed.

Lemma cap_table_refines_witness :
  (exists w', run_tables demo_ops (empty_table, demo_frames) =
     Done [TableResult Cap_Ok 1 Null_Cap; TableResult Cap_Ok 2 Null_Cap;
           TableResult Cap_Ok 0 (CapEntry true Endpoint_Object 64 (To_Rights 16) 7);
           TableResult Cap_Ok 0 Null_Cap; TableResult Cap_Ok 1 Null_Cap;
           TableResult Invalid_Cap 0 Null_Cap; TableResult Cap_Ok 0 Null_Cap] w') /\
  exists res A' w', run_tables demo_ops (empty_table, demo_frames) = Done res w' /\
    map_run demo_ops ∅ (empty_table, demo_frames) res A' w' /\ Used_Count w'.1 = Z.of_nat (size A').
Proof.
  split; [eexists; vm_compute; reflexivity|].
  destruct (cap_table_refines ∅ ∅ (empty_table, demo_frames) demo_ops demo_world)
    as (res & A' & w' & H1 & H2 & _ & _ & _ & _ & H3).
  - repeat constructor; cbn; try lia; vm_compute; reflexivity.
  - exists res, A', w'. exact (conj H1 (conj H2 H3)).
Defined.
