(* ===== verification/KSched.v ===== *)
(** * The scheduler

    [kernel-scheduler.adb] and what it uses of [kernel-tasks.adb] and
    [kernel-cpus.adb]: one ready queue for all harts, a doubly linked list
    through the thread control blocks, from which the best thread is taken
    (priority, then the boost of a thread that was just woken, then the
    position); a queue of sleepers, ordered by deadline; and the thread each
    hart runs.  Threads are named by their addresses and 0 is null; following
    a null access has no defined result.  The fields of a thread the scheduler
    does not touch are a parameter [X] of the model.

    A walk along a queue may take one round per thread: a longer one is in a
    cycle and does not end. *)
From S2P Require Import Prelude CInt.

Inductive Thread_State : Type :=
  | Ready | Running | Blocked_Send | Blocked_Receive | Blocked_IRQ | Blocked_Notification
  | Blocked_Sleeping | Blocked_Thread_Wait | Dead.
#[export] Instance Thread_State_eq : EqDecision Thread_State.
Proof. solve_decision. Defined.

Inductive sched_status : Type := Sched_Ok | Queue_Empty | Invalid_Task | No_Current_Task.
#[export] Instance sched_status_eq : EqDecision sched_status.
Proof. solve_decision. Defined.

Definition Quantum_Interval : Z := 500000.
Definition Max_CPUs : nat := 64.

(** [Thread_Control_Block]: the scheduler's fields, and the others. *)
Record tcb (X : Type) := Tcb {
  Status : Thread_State; Priority : Z; Boosted : bool; Sleep_Deadline : Z; Kernel_Stack_Top : Z;
  Queued : bool; Rdy_Next : Z; Rdy_Prev : Z; Slp_Next : Z; Slp_Prev : Z;
  others : X }.
Arguments Tcb {X}.
Arguments Status {X}. Arguments Priority {X}. Arguments Boosted {X}. Arguments Sleep_Deadline {X}. Arguments Kernel_Stack_Top {X}.
Arguments Queued {X}. Arguments Rdy_Next {X}. Arguments Rdy_Prev {X}. Arguments Slp_Next {X}.
Arguments Slp_Prev {X}. Arguments others {X}.

(** The variables of the package; [cpus] are the hart ids and whether the
    hart was started, [ipis] the masks of the interrupts sent, newest first,
    and [timer] the last deadline given to the timer. *)
Record sched (X : Type) := Sched {
  threads : gmap Z (tcb X);
  Ready_Head : Z; Ready_Tail : Z; Ready_N : Z; Sleep_Head : Z;
  Current_TCBS : list Z;
  Configured : nat; cpus : list (Z * bool);
  ipis : list Z; timer : Z }.
Arguments Sched {X}.
Arguments threads {X}. Arguments Ready_Head {X}. Arguments Ready_Tail {X}. Arguments Ready_N {X}.
Arguments Sleep_Head {X}. Arguments Current_TCBS {X}. Arguments Configured {X}. Arguments cpus {X}.
Arguments ipis {X}. Arguments timer {X}.

Section sched.
Context {X : Type}.
Implicit Types (c : tcb X) (s : sched X) (h : nat) (t : Z).

(** ** Fields *)

Definition set_status v c : tcb X :=
  Tcb v (Priority c) (Boosted c) (Sleep_Deadline c) (Kernel_Stack_Top c) (Queued c) (Rdy_Next c) (Rdy_Prev c) (Slp_Next c) (Slp_Prev c) (others c).
Definition set_priority v c : tcb X :=
  Tcb (Status c) v (Boosted c) (Sleep_Deadline c) (Kernel_Stack_Top c) (Queued c) (Rdy_Next c) (Rdy_Prev c) (Slp_Next c) (Slp_Prev c) (others c).
Definition set_boosted v c : tcb X :=
  Tcb (Status c) (Priority c) v (Sleep_Deadline c) (Kernel_Stack_Top c) (Queued c) (Rdy_Next c) (Rdy_Prev c) (Slp_Next c) (Slp_Prev c) (others c).
Definition set_deadline v c : tcb X :=
  Tcb (Status c) (Priority c) (Boosted c) v (Kernel_Stack_Top c) (Queued c) (Rdy_Next c) (Rdy_Prev c) (Slp_Next c) (Slp_Prev c) (others c).
Definition set_stack v c : tcb X :=
  Tcb (Status c) (Priority c) (Boosted c) (Sleep_Deadline c) v (Queued c) (Rdy_Next c) (Rdy_Prev c) (Slp_Next c) (Slp_Prev c) (others c).
Definition set_queued v c : tcb X :=
  Tcb (Status c) (Priority c) (Boosted c) (Sleep_Deadline c) (Kernel_Stack_Top c) v (Rdy_Next c) (Rdy_Prev c) (Slp_Next c) (Slp_Prev c) (others c).
Definition set_rdy_next v c : tcb X :=
  Tcb (Status c) (Priority c) (Boosted c) (Sleep_Deadline c) (Kernel_Stack_Top c) (Queued c) v (Rdy_Prev c) (Slp_Next c) (Slp_Prev c) (others c).
Definition set_rdy_prev v c : tcb X :=
  Tcb (Status c) (Priority c) (Boosted c) (Sleep_Deadline c) (Kernel_Stack_Top c) (Queued c) (Rdy_Next c) v (Slp_Next c) (Slp_Prev c) (others c).
Definition set_slp_next v c : tcb X :=
  Tcb (Status c) (Priority c) (Boosted c) (Sleep_Deadline c) (Kernel_Stack_Top c) (Queued c) (Rdy_Next c) (Rdy_Prev c) v (Slp_Prev c) (others c).
Definition set_slp_prev v c : tcb X :=
  Tcb (Status c) (Priority c) (Boosted c) (Sleep_Deadline c) (Kernel_Stack_Top c) (Queued c) (Rdy_Next c) (Rdy_Prev c) (Slp_Next c) v (others c).

Definition set_threads v s : sched X :=
  Sched v (Ready_Head s) (Ready_Tail s) (Ready_N s) (Sleep_Head s) (Current_TCBS s) (Configured s) (cpus s) (ipis s) (timer s).
Definition set_head v s : sched X :=
  Sched (threads s) v (Ready_Tail s) (Ready_N s) (Sleep_Head s) (Current_TCBS s) (Configured s) (cpus s) (ipis s) (timer s).
Definition set_tail v s : sched X :=
  Sched (threads s) (Ready_Head s) v (Ready_N s) (Sleep_Head s) (Current_TCBS s) (Configured s) (cpus s) (ipis s) (timer s).
Definition set_count v s : sched X :=
  Sched (threads s) (Ready_Head s) (Ready_Tail s) v (Sleep_Head s) (Current_TCBS s) (Configured s) (cpus s) (ipis s) (timer s).
Definition set_sleep v s : sched X :=
  Sched (threads s) (Ready_Head s) (Ready_Tail s) (Ready_N s) v (Current_TCBS s) (Configured s) (cpus s) (ipis s) (timer s).
Definition set_currents v s : sched X :=
  Sched (threads s) (Ready_Head s) (Ready_Tail s) (Ready_N s) (Sleep_Head s) v (Configured s) (cpus s) (ipis s) (timer s).
Definition set_ipis v s : sched X :=
  Sched (threads s) (Ready_Head s) (Ready_Tail s) (Ready_N s) (Sleep_Head s) (Current_TCBS s) (Configured s) (cpus s) v (timer s).
Definition set_timer v s : sched X :=
  Sched (threads s) (Ready_Head s) (Ready_Tail s) (Ready_N s) (Sleep_Head s) (Current_TCBS s) (Configured s) (cpus s) (ipis s) v.

(** [T.all], read and written. *)
Definition tcb_of t : M (sched X) (tcb X) := fun s =>
  match threads s !! t with Some c => Done c s | None => Blocked s end.
Definition upd_tcb t (f : tcb X -> tcb X) : M (sched X) unit := fun s =>
  match threads s !! t with
  | Some c => Done tt (set_threads (<[t := f c]> (threads s)) s)
  | None => Blocked s
  end.
Definition upd_unless_null t (f : tcb X -> tcb X) (other : M (sched X) unit) : M (sched X) unit :=
  if negb (t =? 0) then upd_tcb t f else other.

(** ** Harts *)

Definition current_of s h : Z := nth h (Current_TCBS s) 0.
Definition Set_My_Current h t : M (sched X) unit :=
  modifyM (fun s => set_currents (<[h := t]> (Current_TCBS s)) s).

Definition ipi_mask s h : Z :=
  fold_left (fun mask cpu =>
      let p := nth cpu (cpus s) (0, false) in
      if negb (cpu =? h)%nat && p.2 then Z.lor mask (u64 (Z.shiftl 1 p.1)) else mask)
    (seq 0 (Configured s)) 0.

Definition Notify_Work h : M (sched X) unit := fun s =>
  if (Configured s <=? 1)%nat then Done tt s
  else let mask := ipi_mask s h in
       if negb (mask =? 0) then Done tt (set_ipis (mask :: ipis s) s) else Done tt s.

(** ** The ready queue *)

Definition Better (cand best : tcb X) : bool :=
  (Priority best <? Priority cand)
  || ((Priority cand =? Priority best) && Boosted cand && negb (Boosted best)).

Fixpoint outranks_some (c : tcb X) (curs : list Z) : M (sched X) bool :=
  match curs with
  | [] => retM false
  | t :: curs' =>
      if t =? 0 then outranks_some c curs'
      else let* r := tcb_of t in
           if bool_decide (Status r = Running) && (Priority r <? Priority c)
           then retM true else outranks_some c curs'
  end.
Definition Outranks_Running (c : tcb X) : M (sched X) bool := fun s =>
  outranks_some c (Current_TCBS s) s.

Definition count_down : M (sched X) unit := fun s =>
  if 1 <=? Ready_N s then Done tt (set_count (Ready_N s - 1) s) else Blocked s.

Definition Unlink_Ready t : M (sched X) unit :=
  let* c := tcb_of t in
  let p := Rdy_Prev c in
  let n := Rdy_Next c in
  upd_unless_null p (set_rdy_next n) (modifyM (set_head n)) ;;
  upd_unless_null n (set_rdy_prev p) (modifyM (set_tail p)) ;;
  upd_tcb t (set_rdy_next 0) ;;
  upd_tcb t (set_rdy_prev 0) ;;
  upd_tcb t (set_queued false) ;;
  count_down.

Definition Push h t (notify boost : bool) : M (sched X) sched_status := fun s =>
  let was_empty := Ready_Head s =? 0 in
  if t =? 0 then Done Invalid_Task s
  else
    (let* c := tcb_of t in
     if bool_decide (Status c = Dead) then retM Invalid_Task
     else if Queued c then retM Sched_Ok
     else
       (if boost then
          upd_tcb t (set_rdy_prev 0) ;;
          upd_tcb t (set_rdy_next (Ready_Head s)) ;;
          upd_unless_null (Ready_Head s) (set_rdy_prev t) (modifyM (set_tail t)) ;;
          modifyM (set_head t)
        else
          upd_tcb t (set_rdy_next 0) ;;
          upd_tcb t (set_rdy_prev (Ready_Tail s)) ;;
          upd_unless_null (Ready_Tail s) (set_rdy_next t) (modifyM (set_head t)) ;;
          modifyM (set_tail t)) ;;
       upd_tcb t (set_queued true) ;;
       modifyM (fun s => set_count (Ready_N s + 1) s) ;;
       let* c := tcb_of t in
       let* ring := if negb notify then retM false
                    else if was_empty then retM true else Outranks_Running c in
       (if ring : bool then Notify_Work h else retM tt) ;;
       retM Sched_Ok) s.

(** One thread of the queue: a dead one is taken out, a better one than the
    best so far replaces it. *)
Definition pop_round (acc : Z * Z) : M (sched X) (Z * Z + Z) :=
  let '(best, cand) := acc in
  if cand =? 0 then retM (inr best)
  else
    let* c := tcb_of cand in
    let n := Rdy_Next c in
    if bool_decide (Status c = Dead) then Unlink_Ready cand ;; retM (inl (best, n))
    else if best =? 0 then retM (inl (cand, n))
    else let* b := tcb_of best in
         retM (inl (if Better c b then cand else best, n)).

Definition Pop : M (sched X) (Z * sched_status) := fun s =>
  (let* best := iterM (S (size (threads s))) pop_round (0, Ready_Head s) in
   if best =? 0 then retM (0, Queue_Empty)
   else
     Unlink_Ready best ;;
     upd_tcb best (set_boosted false) ;;
     retM (best, Sched_Ok)) s.

(** ** The sleep queue *)

Definition after_round (deadline : Z) (acc : Z * Z) : M (sched X) (Z * Z + Z * Z) :=
  let '(prev, cur) := acc in
  if cur =? 0 then retM (inr (prev, cur))
  else let* c := tcb_of cur in
       if Sleep_Deadline c <=? deadline then retM (inl (cur, Slp_Next c)) else retM (inr (prev, cur)).

Definition Insert_Sleeper t : M (sched X) unit := fun s =>
  (let* c := tcb_of t in
   let* pc := iterM (S (size (threads s))) (after_round (Sleep_Deadline c)) (0, Sleep_Head s) in
   upd_tcb t (set_slp_prev pc.1) ;;
   upd_tcb t (set_slp_next pc.2) ;;
   upd_unless_null pc.1 (set_slp_next t) (modifyM (set_sleep t)) ;;
   upd_unless_null pc.2 (set_slp_prev t) (retM tt)) s.

Definition remove_round t (acc : Z * Z) : M (sched X) (Z * Z + unit) :=
  let '(prev, cur) := acc in
  if cur =? 0 then retM (inr tt)
  else
    let* c := tcb_of cur in
    let n := Slp_Next c in
    if cur =? t then
      upd_unless_null prev (set_slp_next n) (modifyM (set_sleep n)) ;;
      upd_unless_null n (set_slp_prev prev) (retM tt) ;;
      upd_tcb cur (set_slp_next 0) ;;
      upd_tcb cur (set_slp_prev 0) ;;
      retM (inr tt)
    else retM (inl (cur, n)).

Definition Remove_Sleeper t : M (sched X) unit := fun s =>
  iterM (S (size (threads s))) (remove_round t) (0, Sleep_Head s) s.

(** ** Operations *)

Definition Sched_Initialize : M (sched X) unit :=
  modifyM (fun s => Sched (threads s) 0 0 0 0 (replicate Max_CPUs 0) (Configured s) (cpus s) (ipis s) (timer s)).

Definition Add_Task h t : M (sched X) sched_status :=
  if t =? 0 then retM Invalid_Task
  else upd_tcb t (set_status Ready) ;; Push h t true false.

Definition Set_Current h t : M (sched X) sched_status :=
  if t =? 0 then retM Invalid_Task
  else Set_My_Current h t ;; upd_tcb t (set_queued false) ;; upd_tcb t (set_status Running) ;; retM Sched_Ok.

Fixpoint cpu_of (n : nat) (curs : list Z) t : option nat :=
  match curs with
  | [] => None
  | u :: curs' => if u =? t then Some n else cpu_of (S n) curs' t
  end.
Definition Current_CPU_Of t s : bool * nat :=
  match cpu_of 0 (Current_TCBS s) t with Some n => (true, n) | None => (false, 0%nat) end.

Definition preempt_round (wins : tcb X -> bool) (cand : Z) : M (sched X) (Z + bool) :=
  if cand =? 0 then retM (inr false)
  else let* c := tcb_of cand in
       if negb (bool_decide (Status c = Dead)) && wins c then retM (inr true) else retM (inl (Rdy_Next c)).

Definition Should_Preempt h : M (sched X) bool := fun s =>
  if current_of s h =? 0 then Done false s
  else (let* cur := tcb_of (current_of s h) in
        if negb (bool_decide (Status cur = Running)) then retM false
        else iterM (S (size (threads s))) (preempt_round (fun c => Priority cur <? Priority c)) (Ready_Head s)) s.

Definition Should_Boost_Preempt h : M (sched X) bool := fun s =>
  if current_of s h =? 0 then Done false s
  else (let* cur := tcb_of (current_of s h) in
        if negb (bool_decide (Status cur = Running)) || Boosted cur then retM false
        else iterM (S (size (threads s)))
               (preempt_round (fun c => Boosted c && (Priority cur <=? Priority c))) (Ready_Head s)) s.

(** [My_Current /= null and then State (My_Current.all) = Running] *)
Definition is_running h : M (sched X) bool := fun s =>
  if current_of s h =? 0 then Done false s
  else (let* c := tcb_of (current_of s h) in retM (bool_decide (Status c = Running))) s.

Definition Yield h : M (sched X) sched_status := fun s =>
  (let* r := is_running h in
   let* st := if r : bool then upd_tcb (current_of s h) (set_status Ready) ;; Push h (current_of s h) false false
              else retM Sched_Ok in
   if negb (bool_decide (st = Sched_Ok)) then retM st
   else
     let* nr := Pop in
     if bool_decide (nr.2 = Queue_Empty) then
       let* r := is_running h in
       if r : bool then retM Sched_Ok else Set_My_Current h 0 ;; retM Queue_Empty
     else if negb (bool_decide (nr.2 = Sched_Ok)) then retM nr.2
     else
       Set_My_Current h nr.1 ;;
       upd_tcb nr.1 (set_queued false) ;;
       upd_tcb nr.1 (set_status Running) ;;
       retM Sched_Ok) s.

Definition Block_Current h (st : Thread_State) : M (sched X) sched_status := fun s =>
  if current_of s h =? 0 then Done No_Current_Task s
  else
    (upd_tcb (current_of s h) (set_status st) ;;
     upd_tcb (current_of s h) (set_boosted false) ;;
     Set_My_Current h 0 ;; retM Sched_Ok) s.

Definition Exit_Current h : M (sched X) sched_status := fun s =>
  if current_of s h =? 0 then Done No_Current_Task s
  else
    (Remove_Sleeper (current_of s h) ;;
     upd_tcb (current_of s h) (set_status Dead) ;;
     upd_tcb (current_of s h) (set_queued false) ;;
     Set_My_Current h 0 ;; retM Sched_Ok) s.

Definition Wake h t : M (sched X) sched_status :=
  if t =? 0 then retM Invalid_Task
  else
    let* c := tcb_of t in
    if bool_decide (Status c = Dead) then retM Invalid_Task
    else if bool_decide (Status c = Running) || bool_decide (Status c = Ready) then retM Sched_Ok
    else
      (if bool_decide (Status c = Blocked_Sleeping) then Remove_Sleeper t else retM tt) ;;
      upd_tcb t (set_status Ready) ;;
      upd_tcb t (set_boosted true) ;;
      Push h t true true.

(** The loop of [Check_Sleepers]; its result is the head's deadline. *)
Definition sleeper_round h (now : Z) (_ : unit) : M (sched X) (unit + Z) := fun s =>
  if Sleep_Head s =? 0 then Done (inr (2 ^ 64 - 1)) s
  else
    (let* c := tcb_of (Sleep_Head s) in
     if Sleep_Deadline c <=? now
     then Remove_Sleeper (Sleep_Head s) ;; let* _ := Wake h (Sleep_Head s) in retM (inl tt)
     else retM (inr (Sleep_Deadline c))) s.

Definition Check_Sleepers h (now : Z) : M (sched X) Z := fun s =>
  iterM (S (size (threads s))) (sleeper_round h now) tt s.

Definition Next_Timer_Deadline h (now : Z) : M (sched X) Z :=
  let* next := Check_Sleepers h now in retM (Z.min (u64 (now + Quantum_Interval)) next).

Definition Sleep_Until h (deadline now : Z) : M (sched X) sched_status := fun s =>
  if current_of s h =? 0 then Done No_Current_Task s
  else if deadline <=? now then Done Sched_Ok s
  else
    (upd_tcb (current_of s h) (set_deadline deadline) ;;
     Insert_Sleeper (current_of s h) ;;
     let* d := Next_Timer_Deadline h now in
     modifyM (set_timer d) ;;
     Block_Current h Blocked_Sleeping) s.

Definition Remove_Thread t : M (sched X) sched_status :=
  if t =? 0 then retM Invalid_Task
  else
    modifyM (fun s => set_currents ((fun u => if u =? t then 0 else u) <$> Current_TCBS s) s) ;;
    Remove_Sleeper t ;;
    let* c := tcb_of t in
    (if Queued c then Unlink_Ready t else retM tt) ;;
    retM Sched_Ok.

Definition Ready_Count s : Z := Ready_N s.

End sched.
