(* ===== verification/KSchedSpec.v ===== *)
(** * The scheduler's queues

    What the scheduler is without its links: [asched] has the threads, the
    ready queue and the sleep queue as lists and the thread of each hart, and
    one function per operation.  [rep] relates the linked state to it, and
    every operation of [KSched] is shown to do what the function says. *)
From S2P Require Import Prelude CInt KSched.

(** ** Doubly linked segments *)

Section segments.
Context {X : Type} (nx pv : tcb X -> Z).
Implicit Types (m : gmap Z (tcb X)) (l : list Z).

(** [l] is linked, its first element back to [p], its last on to [q]. *)
Fixpoint seg m (p : Z) l (q : Z) : Prop :=
  match l with
  | [] => True
  | t :: l' => (exists c, m !! t = Some c /\ pv c = p /\ nx c = hd q l') /\ seg m t l' q
  end.

Lemma last_cons_default (t : Z) l p : List.last (t :: l) p = List.last l t.
Proof.
  revert t p. induction l as [|u l IH]; intros t p; [done|].
  change (List.last (u :: l) p = List.last (u :: l) t). by rewrite !IH.
Qed.

Lemma seg_app m p l1 l2 q :
  seg m p (l1 ++ l2) q <-> seg m p l1 (hd q l2) /\ seg m (List.last l1 p) l2 q.
Proof.
  revert p. induction l1 as [|t l1 IH]; intros p; [cbn; tauto|].
  cbn [app seg]. rewrite IH.
  assert (hd q (l1 ++ l2) = hd (hd q l2) l1) as -> by by destruct l1.
  rewrite last_cons_default. tauto.
Qed.

Lemma seg_frame m m' p l q :
  (forall t c, t ∈ l -> m !! t = Some c -> exists c', m' !! t = Some c' /\ nx c' = nx c /\ pv c' = pv c) ->
  seg m p l q -> seg m' p l q.
Proof.
  revert p. induction l as [|t l IH]; intros p Hm; [done|]. intros [(c & Hc & Hp & Hn) Hl]. split.
  - destruct (Hm t c) as (c' & Hc' & En & Ep); [set_solver|done|]. exists c'. by rewrite En, Ep.
  - apply IH; [|done]. intros u c' Hu. apply Hm. set_solver.
Qed.

Lemma seg_in_map m p l q t : seg m p l q -> t ∈ l -> is_Some (m !! t).
Proof.
  revert p. induction l as [|u l IH]; intros p; [set_solver|]. intros [(c & Hc & _) Hl] Ht.
  apply elem_of_cons in Ht as [->|Ht]; [by exists c|by eapply IH].
Qed.

Lemma seg_size m p l q : NoDup l -> seg m p l q -> (length l <= size m)%nat.
Proof.
  intros Hn Hl. rewrite <- size_dom, <- (size_list_to_set (C := gset Z) l) by done.
  apply subseteq_size. intros t Ht%elem_of_list_to_set.
  apply elem_of_dom. by eapply seg_in_map.
Qed.

(** Updates of a thread off the segment, and of its ends. *)
Lemma seg_alter_off m p l q t f : t ∉ l -> seg m p l q -> seg (alter f t m) p l q.
Proof.
  intros Ht. apply seg_frame. intros u c Hu Hc. exists c. split; [|done].
  rewrite lookup_alter_ne; [done|]. by intros ->.
Qed.

Lemma seg_alter_same m p l q t f :
  (forall c, nx (f c) = nx c) -> (forall c, pv (f c) = pv c) -> seg m p l q -> seg (alter f t m) p l q.
Proof.
  intros Hn Hp. apply seg_frame. intros u c Hu Hc. destruct (decide (u = t)) as [->|Hne].
  - exists (f c). by rewrite lookup_alter_eq, Hc, Hn, Hp.
  - exists c. by rewrite lookup_alter_ne by done.
Qed.

Lemma last_in (l : list Z) d : l <> [] -> List.last l d ∈ l.
Proof.
  intros Hl. destruct l as [|t l _] using rev_ind; [done|]. rewrite List.last_last. set_solver.
Qed.

(** [T.all := f (T.all)] unless [T] is null. *)
Definition touch (t : Z) (f : tcb X -> tcb X) m : gmap Z (tcb X) :=
  if t =? 0 then m else alter f t m.

Lemma seg_touch_last m p l q q' f :
  0 ∉ l -> NoDup l -> (forall c, nx (f c) = q') -> (forall c, pv (f c) = pv c) ->
  seg m p l q -> seg (touch (List.last l 0) f m) p l q'.
Proof.
  intros H0 Hn Hf Hp. destruct l as [|u l _] using rev_ind; [done|].
  rewrite List.last_last. intros [H1 H2]%seg_app. unfold touch.
  rewrite (proj2 (Z.eqb_neq u 0)) by set_solver. apply NoDup_app in Hn as (Hn & Hd & _).
  apply seg_app. split.
  - apply seg_alter_off; [set_solver|]. done.
  - cbn [seg hd] in *. destruct H2 as [(c & Hc & Hpc & _) _]. split; [|done].
    exists (f c). by rewrite lookup_alter_eq, Hc, Hf, Hp.
Qed.

Lemma seg_touch_first m p p' l q f :
  0 ∉ l -> NoDup l -> (forall c, pv (f c) = p') -> (forall c, nx (f c) = nx c) ->
  seg m p l q -> seg (touch (hd 0 l) f m) p' l q.
Proof.
  intros H0 Hn Hf Hp. destruct l as [|u l]; [done|]. intros [(c & Hc & _ & Hnc) Hl]. unfold touch.
  cbn [hd]. rewrite (proj2 (Z.eqb_neq u 0)) by set_solver. apply NoDup_cons in Hn as [Hu Hn]. split.
  - exists (f c). by rewrite lookup_alter_eq, Hc, Hf, Hp.
  - by apply seg_alter_off.
Qed.

Lemma seg_touch_off m p l q t f : t ∉ l -> seg m p l q -> seg (touch t f m) p l q.
Proof. unfold touch. destruct (t =? 0); [done|]. apply seg_alter_off. Qed.

Lemma hd_off (l1 l2 : list Z) : 0 ∉ l1 -> NoDup (l1 ++ l2) -> hd 0 l2 ∉ l1.
Proof. intros H0 (_ & Hd & _)%NoDup_app. destruct l2 as [|u l2]; [done|]. cbn. set_solver. Qed.

Lemma last_off (l1 l2 : list Z) : 0 ∉ l2 -> NoDup (l1 ++ l2) -> List.last l1 0 ∉ l2.
Proof.
  intros H0 (_ & Hd & _)%NoDup_app. destruct l1 as [|u l1 _] using rev_ind; [done|].
  rewrite List.last_last. set_solver.
Qed.

(** Taking a thread out joins its neighbours. *)
Lemma seg_unlink m l1 t l2 fn fp :
  0 ∉ l1 ++ l2 -> NoDup (l1 ++ l2) ->
  (forall c, nx (fn c) = hd 0 l2) -> (forall c, pv (fn c) = pv c) ->
  (forall c, pv (fp c) = List.last l1 0) -> (forall c, nx (fp c) = nx c) ->
  seg m 0 (l1 ++ t :: l2) 0 ->
  seg (touch (hd 0 l2) fp (touch (List.last l1 0) fn m)) 0 (l1 ++ l2) 0.
Proof.
  intros H0 Hn A1 A2 B1 B2 [H1 [_ H2]]%seg_app. pose proof (proj1 (NoDup_app _ _) Hn) as (N1 & _ & N2).
  apply seg_app. split.
  - apply seg_touch_off; [apply hd_off; [set_solver|done]|].
    eapply seg_touch_last; [set_solver|done..|exact H1].
  - eapply seg_touch_first; [set_solver|done..|]. apply seg_touch_off; [apply last_off; [set_solver|done]|].
    exact H2.
Qed.

(** Putting one in between two segments. *)
Lemma seg_link m l1 t l2 ft fn fp :
  0 ∉ l1 ++ l2 -> NoDup (l1 ++ l2) -> t ∉ l1 ++ l2 -> t <> 0 -> is_Some (m !! t) ->
  (forall c, nx (fn c) = t) -> (forall c, pv (fn c) = pv c) ->
  (forall c, pv (fp c) = t) -> (forall c, nx (fp c) = nx c) ->
  (forall c, pv (ft c) = List.last l1 0) -> (forall c, nx (ft c) = hd 0 l2) ->
  seg m 0 (l1 ++ l2) 0 ->
  seg (touch (hd 0 l2) fp (touch (List.last l1 0) fn (alter ft t m))) 0 (l1 ++ t :: l2) 0.
Proof.
  intros H0 Hn Ht Ht0 [c Hc] A1 A2 B1 B2 Cp Cn [H1 H2]%seg_app.
  pose proof (proj1 (NoDup_app _ _) Hn) as (N1 & _ & N2). apply seg_app. split.
  - apply seg_touch_off; [apply hd_off; [set_solver|done]|].
    eapply seg_touch_last; [set_solver|done..|]. apply seg_alter_off; [set_solver|]. exact H1.
  - assert (List.last l1 0 <> t) as Hl.
    { destruct (decide (l1 = [])) as [->|Hne]; [cbn; congruence|]. pose proof (last_in l1 0 Hne). set_solver. }
    assert (hd 0 l2 <> t) as Hh by (destruct l2; cbn; set_solver).
    split.
    + exists (ft c). split_and!; [|done..]. unfold touch.
      repeat case_match; rewrite ?lookup_alter_ne by done; by rewrite lookup_alter_eq, Hc.
    + eapply seg_touch_first; [set_solver|done..|].
      apply seg_touch_off; [apply last_off; [set_solver|done]|]. apply seg_alter_off; [set_solver|].
      exact H2.
Qed.

Lemma seg_touch_same m p l q t f :
  (forall c, nx (f c) = nx c) -> (forall c, pv (f c) = pv c) -> seg m p l q -> seg (touch t f m) p l q.
Proof. intros Hn Hp. unfold touch. destruct (t =? 0); [done|]. by apply seg_alter_same. Qed.

End segments.

Lemma fmap_alter_same {X B} (g : tcb X -> B) f t (m : gmap Z (tcb X)) :
  (forall c, g (f c) = g c) -> g <$> alter f t m = g <$> m.
Proof.
  intros Hg. apply map_eq. intros u. rewrite !lookup_fmap. destruct (decide (u = t)) as [->|Hne].
  - rewrite lookup_alter_eq. destruct (m !! t); cbn; [by rewrite Hg|done].
  - by rewrite lookup_alter_ne by done.
Qed.

Lemma fmap_touch_same {X B} (g : tcb X -> B) f t (m : gmap Z (tcb X)) :
  (forall c, g (f c) = g c) -> g <$> touch t f m = g <$> m.
Proof. intros Hg. unfold touch. destruct (t =? 0); [done|]. by apply fmap_alter_same. Qed.

Lemma is_Some_alter {X} f t u (m : gmap Z (tcb X)) : is_Some (alter f t m !! u) <-> is_Some (m !! u).
Proof.
  destruct (decide (u = t)) as [->|Hne]; [|by rewrite lookup_alter_ne].
  rewrite lookup_alter_eq. apply fmap_is_Some.
Qed.

Lemma is_Some_touch {X} f t u (m : gmap Z (tcb X)) : is_Some (touch t f m !! u) <-> is_Some (m !! u).
Proof. unfold touch. destruct (t =? 0); [done|]. apply is_Some_alter. Qed.

(** ** The scheduler without links *)

Record info (X : Type) := Info {
  i_status : Thread_State; i_priority : Z; i_boosted : bool; i_deadline : Z; i_stack : Z; i_others : X }.
Arguments Info {X}. Arguments i_status {X}. Arguments i_priority {X}. Arguments i_boosted {X}.
Arguments i_deadline {X}. Arguments i_stack {X}. Arguments i_others {X}.

Record asched (X : Type) := ASched {
  a_info : gmap Z (info X); a_ready : list Z; a_sleep : list Z; a_cur : list Z }.
Arguments ASched {X}. Arguments a_info {X}. Arguments a_ready {X}. Arguments a_sleep {X}. Arguments a_cur {X}.

Section spec.
Context {X : Type}.
Implicit Types (c : tcb X) (i : info X) (s : sched X) (a : asched X) (t : Z) (h : nat) (m : gmap Z (tcb X)).

Definition core c : info X :=
  Info (Status c) (Priority c) (Boosted c) (Sleep_Deadline c) (Kernel_Stack_Top c) (others c).

Record rep s a : Prop := {
  rep_info : core <$> threads s = a_info a;
  rep_null : threads s !! 0 = None;
  rep_nodup : NoDup (a_ready a);
  rep_ready : seg Rdy_Next Rdy_Prev (threads s) 0 (a_ready a) 0;
  rep_head : Ready_Head s = hd 0 (a_ready a);
  rep_tail : Ready_Tail s = List.last (a_ready a) 0;
  rep_count : Ready_N s = Z.of_nat (length (a_ready a));
  rep_queued : forall t c, threads s !! t = Some c ->
    Queued c = bool_decide (t ∈ a_ready a) && negb (bool_decide (Status c = Dead));
  rep_nodup_sleep : NoDup (a_sleep a);
  rep_sleep : seg Slp_Next Slp_Prev (threads s) 0 (a_sleep a) 0;
  rep_sleep_head : Sleep_Head s = hd 0 (a_sleep a);
  rep_cur : Current_TCBS s = a_cur a }.

(** [op] does in every state that represents [a] what takes [a] to [a'], and
    returns [r]. *)
Definition sim {A} (op : M (sched X) A) a (r : A) a' : Prop :=
  forall s, rep s a -> exists s', op s = Done r s' /\ rep s' a'.

Lemma sim_ret {A} (r : A) a : sim (retM r) a r a.
Proof. intros s Hs. by exists s. Qed.

Lemma sim_bind {A B} (op : M (sched X) A) (k : A -> M (sched X) B) a r a1 r2 a2 :
  sim op a r a1 -> sim (k r) a1 r2 a2 -> sim (bindM op k) a r2 a2.
Proof.
  intros H1 H2 s Hs. destruct (H1 s Hs) as (s1 & E1 & Hs1). destruct (H2 s1 Hs1) as (s2 & E2 & Hs2).
  exists s2. unfold bindM. by rewrite E1.
Qed.

Lemma sim_read {A B} (g : sched X -> B) (op : B -> M (sched X) A) a b r a' :
  (forall s, rep s a -> g s = b) -> sim (op b) a r a' -> sim (fun s => op (g s) s) a r a'.
Proof. intros Hg Ho s Hs. rewrite (Hg s Hs). by apply Ho. Qed.

Lemma rep_lookup s a t i :
  rep s a -> a_info a !! t = Some i -> exists c, threads s !! t = Some c /\ core c = i.
Proof. intros Hs. rewrite <- (rep_info _ _ Hs), lookup_fmap. intros (c & Hc & E)%fmap_Some. by exists c. Qed.

Lemma rep_ready_nz s a : rep s a -> 0 ∉ a_ready a.
Proof. intros Hs H0. destruct (seg_in_map _ _ _ _ _ _ _ (rep_ready _ _ Hs) H0) as [c Hc]. by rewrite (rep_null _ _ Hs) in Hc. Qed.
Lemma rep_sleep_nz s a : rep s a -> 0 ∉ a_sleep a.
Proof. intros Hs H0. destruct (seg_in_map _ _ _ _ _ _ _ (rep_sleep _ _ Hs) H0) as [c Hc]. by rewrite (rep_null _ _ Hs) in Hc. Qed.

Lemma rep_known s a t : rep s a -> t ∈ a_ready a \/ t ∈ a_sleep a -> is_Some (a_info a !! t).
Proof.
  intros Hs Ht. rewrite <- (rep_info _ _ Hs), lookup_fmap. apply fmap_is_Some.
  destruct Ht as [Ht|Ht]; (eapply seg_in_map; [|exact Ht]); [apply (rep_ready _ _ Hs)|apply (rep_sleep _ _ Hs)].
Qed.

(** ** Steps on the threads *)

Lemma upd_alter s t f :
  is_Some (threads s !! t) -> upd_tcb t f s = Done tt (set_threads (alter f t (threads s)) s).
Proof.
  intros [c Hc]. unfold upd_tcb. rewrite Hc. do 2 f_equal. apply map_eq. intros u.
  destruct (decide (u = t)) as [->|Hne].
  - by rewrite lookup_insert_eq, lookup_alter_eq, Hc.
  - by rewrite lookup_insert_ne, lookup_alter_ne.
Qed.

Lemma upd_touch s t f g :
  t = 0 \/ is_Some (threads s !! t) ->
  upd_unless_null t f (modifyM g) s
  = Done tt (let s' := set_threads (touch t f (threads s)) s in if t =? 0 then g s' else s').
Proof.
  intros Ht. unfold upd_unless_null, touch. destruct (Z.eqb_spec t 0) as [->|Hne]; cbn.
  - unfold modifyM. by destruct s.
  - rewrite upd_alter; [done|]. by destruct Ht.
Qed.

Lemma rep_tcb s a t i : rep s a -> a_info a !! t = Some i -> exists c, tcb_of t s = Done c s /\ threads s !! t = Some c /\ core c = i.
Proof. intros Hs Hi. destruct (rep_lookup _ _ _ _ Hs Hi) as (c & Hc & E). exists c. unfold tcb_of. by rewrite Hc. Qed.

Lemma sim_with_tcb {A} t i a (k : tcb X -> M (sched X) A) r a' :
  a_info a !! t = Some i -> (forall c, core c = i -> sim (k c) a r a') -> sim (let* c := tcb_of t in k c) a r a'.
Proof.
  intros Hi Hk s Hs. destruct (rep_tcb _ _ _ _ Hs Hi) as (c & Hc & _ & E).
  destruct (Hk c E s Hs) as (s' & Es' & Hs'). exists s'. unfold bindM. by rewrite Hc.
Qed.

Definition set_info t (g : info X -> info X) a : asched X :=
  ASched (alter g t (a_info a)) (a_ready a) (a_sleep a) (a_cur a).
Definition with_ready (l : list Z) a : asched X := ASched (a_info a) l (a_sleep a) (a_cur a).
Definition with_sleep (l : list Z) a : asched X := ASched (a_info a) (a_ready a) l (a_cur a).
Definition with_cur (l : list Z) a : asched X := ASched (a_info a) (a_ready a) (a_sleep a) l.

Definition i_set_status v i : info X := Info v (i_priority i) (i_boosted i) (i_deadline i) (i_stack i) (i_others i).
Definition i_set_priority v i : info X := Info (i_status i) v (i_boosted i) (i_deadline i) (i_stack i) (i_others i).
Definition i_set_boosted v i : info X := Info (i_status i) (i_priority i) v (i_deadline i) (i_stack i) (i_others i).
Definition i_set_deadline v i : info X := Info (i_status i) (i_priority i) (i_boosted i) v (i_stack i) (i_others i).
Definition i_set_stack v i : info X := Info (i_status i) (i_priority i) (i_boosted i) (i_deadline i) v (i_others i).

Lemma core_alter f g t m :
  (forall c, core (f c) = g (core c)) -> core <$> alter f t m = alter g t (core <$> m).
Proof.
  intros Hf. apply map_eq. intros u. rewrite lookup_fmap. destruct (decide (u = t)) as [->|Hne].
  - rewrite !lookup_alter_eq, lookup_fmap. destruct (m !! t); cbn; [by rewrite Hf|done].
  - by rewrite !lookup_alter_ne, lookup_fmap by done.
Qed.

(** An update that leaves the links alone. *)
Lemma sim_upd t f g a :
  is_Some (a_info a !! t) -> (forall c, core (f c) = g (core c)) ->
  (forall c, (Rdy_Next (f c), Rdy_Prev (f c), Slp_Next (f c), Slp_Prev (f c), Queued (f c))
             = (Rdy_Next c, Rdy_Prev c, Slp_Next c, Slp_Prev c, Queued c)) ->
  t ∉ a_ready a \/ (forall c, Status (f c) = Status c) ->
  sim (upd_tcb t f) a tt (set_info t g a).
Proof.
  intros [i Hi] Hc Hl Hq s Hs. destruct (rep_lookup _ _ _ _ Hs Hi) as (c & Hcm & _).
  eexists. split; [by apply upd_alter; exists c|].
  assert (forall c, Rdy_Next (f c) = Rdy_Next c /\ Rdy_Prev (f c) = Rdy_Prev c /\ Slp_Next (f c) = Slp_Next c /\
    Slp_Prev (f c) = Slp_Prev c /\ Queued (f c) = Queued c) as Hl' by (intros d; specialize (Hl d); naive_solver).
  destruct Hs. split; cbn [threads Ready_Head Ready_Tail Ready_N Sleep_Head Current_TCBS set_threads set_info a_info a_ready a_sleep a_cur]; try done.
  - rewrite <- rep_info0. by apply core_alter.
  - rewrite lookup_alter_ne; [done|]. intros ->. congruence.
  - apply seg_alter_same; [apply Hl'..|done].
  - intros u d. destruct (decide (u = t)) as [->|Hne]; [|rewrite lookup_alter_ne by done; apply rep_queued0].
    rewrite lookup_alter_eq, Hcm. intros [= <-]. destruct (Hl' c) as (_ & _ & _ & _ & ->).
    rewrite (rep_queued0 t c Hcm). destruct Hq as [Hq| ->]; [|done].
    by rewrite bool_decide_eq_false_2.
  - apply seg_alter_same; [apply Hl'..|done].
Qed.

(** ** The ready queue *)

Lemma nodup_mid (l1 l2 : list Z) t : NoDup (l1 ++ t :: l2) -> NoDup (l1 ++ l2) /\ t ∉ l1 ++ l2.
Proof.
  intros (N1 & Hd & [Ht N2]%NoDup_cons)%NoDup_app. split; [apply NoDup_app; set_solver|].
  rewrite elem_of_app. intros [H|H]; [|done]. by apply (Hd t H); left.
Qed.

Lemma last_zero (l : list Z) : 0 ∉ l -> (List.last l 0 =? 0) = bool_decide (l = []).
Proof.
  intros H0. destruct l as [|u l _] using rev_ind; [done|]. rewrite List.last_last.
  rewrite bool_decide_eq_false_2 by by destruct l. apply Z.eqb_neq. set_solver.
Qed.

Lemma hd_zero (l : list Z) : 0 ∉ l -> (hd 0 l =? 0) = bool_decide (l = []).
Proof. intros H0. destruct l; [done|]. rewrite bool_decide_eq_false_2 by done. apply Z.eqb_neq. set_solver. Qed.

Lemma last_known m nx pv (l1 : list Z) p q : seg nx pv m p l1 q -> List.last l1 0 = 0 \/ is_Some (m !! List.last l1 0).
Proof.
  intros Hl. destruct (decide (l1 = [])) as [->|Hne]; [by left|]. right. eapply seg_in_map; [exact Hl|]. by apply last_in.
Qed.
Lemma hd_known m nx pv (l1 : list Z) p q : seg nx pv m p l1 q -> hd 0 l1 = 0 \/ is_Some (m !! hd 0 l1).
Proof. intros Hl. destruct l1; [by left|]. right. eapply seg_in_map; [exact Hl|]. cbn. set_solver. Qed.

Ltac fields := cbn [threads Ready_Head Ready_Tail Ready_N Sleep_Head Current_TCBS set_threads set_head set_tail set_count set_sleep
   set_currents set_ipis set_timer set_info with_ready with_sleep with_cur a_info a_ready a_sleep a_cur] in *.

Lemma Unlink_Ready_sim t l1 l2 a :
  a_ready a = l1 ++ t :: l2 -> sim (Unlink_Ready t) a tt (with_ready (l1 ++ l2) a).
Proof.
  intros Ha s Hs. pose proof (rep_ready_nz _ _ Hs) as H0. rewrite Ha in H0.
  pose proof (rep_nodup _ _ Hs) as Hn. rewrite Ha in Hn. destruct (nodup_mid _ _ _ Hn) as [Hn' Ht].
  pose proof (rep_ready _ _ Hs) as Hseg. rewrite Ha in Hseg. pose proof Hseg as [S1 [(c & Hc & Hp & Hx) S2]]%seg_app.
  assert (0 ∉ l1 ++ l2) as H0' by set_solver.
  unfold Unlink_Ready, tcb_of at 1. unfold bindM at 1. rewrite Hc, Hp, Hx.
  unfold bindM at 1. rewrite upd_touch by (eapply last_known; exact S1). cbv zeta.
  set (s1 := if List.last l1 0 =? 0 then _ else _).
  assert (threads s1 = touch (List.last l1 0) (set_rdy_next (hd 0 l2)) (threads s)) as E1 by (unfold s1; by destruct (List.last l1 0 =? 0)).
  unfold bindM at 1. rewrite upd_touch.
  2: { rewrite E1. destruct (hd_known _ _ _ _ _ _ S2) as [?|?]; [by left|right]. by apply is_Some_touch. }
  cbv zeta. set (s2 := if hd 0 l2 =? 0 then _ else _).
  assert (threads s2 = touch (hd 0 l2) (set_rdy_prev (List.last l1 0)) (threads s1)) as E2 by (unfold s2; by destruct (hd 0 l2 =? 0)).
  assert (Ready_Head s2 = hd 0 (l1 ++ l2)) as Hh.
  { transitivity (Ready_Head s1); [unfold s2; by destruct (hd 0 l2 =? 0)|]. unfold s1. rewrite last_zero by set_solver.
    case_bool_decide as Hl; [by subst|]. fields. rewrite (rep_head _ _ Hs), Ha. by destruct l1. }
  assert (Ready_Tail s2 = List.last (l1 ++ l2) 0) as Htl.
  { unfold s2. rewrite hd_zero by set_solver. case_bool_decide as Hl.
    - subst. by rewrite app_nil_r.
    - transitivity (Ready_Tail s1); [done|]. transitivity (Ready_Tail s); [unfold s1; by destruct (List.last l1 0 =? 0)|].
      rewrite (rep_tail _ _ Hs), Ha. destruct l2 as [|u l2 _] using rev_ind; [done|].
      by rewrite app_comm_cons, !app_assoc, !List.last_last. }
  assert (Ready_N s2 = Ready_N s /\ Sleep_Head s2 = Sleep_Head s /\ Current_TCBS s2 = Current_TCBS s) as (Hk & Hsl & Hcu).
  { split_and!; unfold s2, s1; destruct (hd 0 l2 =? 0), (List.last l1 0 =? 0); done. }
  assert (is_Some (threads s2 !! t)) as H2 by (rewrite E2, E1; apply is_Some_touch, is_Some_touch; by exists c).
  clearbody s2. clearbody s1.
  unfold bindM at 1. rewrite upd_alter by done. fields.
  unfold bindM at 1. rewrite upd_alter by (fields; by rewrite is_Some_alter). fields.
  unfold bindM at 1. rewrite upd_alter by (fields; by rewrite !is_Some_alter). fields.
  unfold count_down. fields. rewrite (rep_count _ _ Hs), Ha in Hk. rewrite length_app in Hk. cbn [length] in Hk.
  rewrite (proj2 (Z.leb_le 1 _)) by lia. eexists. split; [done|].
  destruct Hs. split; fields; try done.
  - rewrite !fmap_alter_same by done. rewrite E2, fmap_touch_same by done. rewrite E1, fmap_touch_same by done. done.
  - apply eq_None_not_Some. rewrite !is_Some_alter. rewrite E2, is_Some_touch, E1, is_Some_touch. by apply eq_None_not_Some.
  - do 3 (apply seg_alter_off; [done|]). rewrite E2, E1. by eapply (seg_unlink _ _ _ l1 t l2).
  - rewrite Hk, length_app. lia.
  - intros u d Hd. destruct (decide (u = t)) as [->|Hne].
    + rewrite !lookup_alter_eq in Hd. apply fmap_Some in Hd as (d1 & Hd & ->). cbn.
      by rewrite bool_decide_eq_false_2.
    + rewrite !lookup_alter_ne in Hd by done.
      assert ((fun c => (Queued c, Status c)) <$> threads s2 = (fun c => (Queued c, Status c)) <$> threads s) as Eq.
      { rewrite E2, fmap_touch_same by done. by rewrite E1, fmap_touch_same by done. }
      assert (Some (Queued d, Status d) = (fun c => (Queued c, Status c)) <$> (threads s !! u)) as Hu.
      { rewrite <- lookup_fmap, <- Eq, lookup_fmap, Hd. done. }
      destruct (threads s !! u) as [e|] eqn:He; [|done]. injection Hu as -> ->.
      rewrite (rep_queued0 u e He), Ha. f_equal. apply bool_decide_ext. set_solver.
  - do 3 (apply seg_alter_same; [done..|]). rewrite E2, E1. by do 2 (apply seg_touch_same; [done..|]).
  - by rewrite Hsl.
  - by rewrite Hcu.
Qed.

Definition known_cur a : Prop := forall t, t ∈ a_cur a -> t = 0 \/ is_Some (a_info a !! t).

Lemma outranks_total c curs s a :
  rep s a -> (forall t, t ∈ curs -> t = 0 \/ is_Some (a_info a !! t)) ->
  exists b, outranks_some c curs s = Done b s.
Proof.
  intros Hs. induction curs as [|t curs IH]; intros Hk; [by exists false|]. cbn [outranks_some].
  destruct IH as [b Hb]; [intros u Hu; apply Hk; set_solver|].
  destruct (Z.eqb_spec t 0) as [->|Ht]; [by exists b|].
  destruct (Hk t) as [?|[i Hi]]; [set_solver|done|].
  destruct (rep_tcb _ _ _ _ Hs Hi) as (d & Hd & _). unfold bindM. rewrite Hd. case_match; [by exists true|by exists b].
Qed.

Lemma Notify_Work_sim h a : sim (Notify_Work h) a tt a.
Proof.
  intros s Hs. unfold Notify_Work. case_match; [by exists s|]. cbv zeta. case_match; [|by exists s].
  eexists. split; [done|]. destruct Hs. by split.
Qed.

Definition enqueue (boost : bool) t (l : list Z) : list Z := if boost then t :: l else l ++ [t].

(** Linking a thread in: its own two links, one neighbour's, and the ends. *)
Lemma link_run t f1 f2 u f3 g g' s :
  is_Some (threads s !! t) -> u = 0 \/ is_Some (threads s !! u) ->
  (upd_tcb t f1 ;; upd_tcb t f2 ;; upd_unless_null u f3 (modifyM g) ;; modifyM g') s
  = Done tt (g' (let s1 := set_threads (touch u f3 (alter (f2 ∘ f1) t (threads s))) s in
                 if u =? 0 then g s1 else s1)).
Proof.
  intros Ht Hu. unfold bindM. rewrite upd_alter by done. rewrite upd_alter by (fields; by apply is_Some_alter).
  fields. rewrite upd_touch by (fields; by rewrite !is_Some_alter). cbv zeta. unfold modifyM. fields.
  by rewrite alter_alter_eq.
Qed.

(** The links of a push, before the flag and the count. *)
Definition push_links t (boost : bool) s : M (sched X) unit :=
  if boost then
    upd_tcb t (set_rdy_prev 0) ;;
    upd_tcb t (set_rdy_next (Ready_Head s)) ;;
    upd_unless_null (Ready_Head s) (set_rdy_prev t) (modifyM (set_tail t)) ;;
    modifyM (set_head t)
  else
    upd_tcb t (set_rdy_next 0) ;;
    upd_tcb t (set_rdy_prev (Ready_Tail s)) ;;
    upd_unless_null (Ready_Tail s) (set_rdy_next t) (modifyM (set_head t)) ;;
    modifyM (set_tail t).

Definition push_map t (boost : bool) (l : list Z) m : gmap Z (tcb X) :=
  if boost then touch (hd 0 l) (set_rdy_prev t) (alter (set_rdy_next (hd 0 l) ∘ set_rdy_prev 0) t m)
  else touch (List.last l 0) (set_rdy_next t) (alter (set_rdy_prev (List.last l 0) ∘ set_rdy_next 0) t m).

Lemma push_links_run t boost s a i :
  rep s a -> a_info a !! t = Some i ->
  exists s', push_links t boost s s = Done tt s' /\ threads s' = push_map t boost (a_ready a) (threads s) /\
    Ready_Head s' = hd 0 (enqueue boost t (a_ready a)) /\ Ready_Tail s' = List.last (enqueue boost t (a_ready a)) 0 /\
    Ready_N s' = Ready_N s /\ Sleep_Head s' = Sleep_Head s /\ Current_TCBS s' = Current_TCBS s.
Proof.
  intros Hs Hi. destruct (rep_lookup _ _ _ _ Hs Hi) as (c & Hc & _).
  pose proof (rep_ready_nz _ _ Hs) as H0. pose proof (rep_ready _ _ Hs) as Hseg.
  unfold push_links, push_map. rewrite (rep_head _ _ Hs), (rep_tail _ _ Hs). destruct boost; cbn [enqueue].
  - rewrite link_run by (by exists c) || (by eapply hd_known). eexists. split; [done|]. cbv zeta.
    rewrite hd_zero by done. case_bool_decide as E; fields; split_and!; try done; rewrite ?E; try done.
    rewrite (rep_tail _ _ Hs), last_cons_default. destruct (a_ready a); [done|]. by rewrite !last_cons_default.
  - rewrite link_run by (by exists c) || (by eapply last_known). eexists. split; [done|]. cbv zeta.
    rewrite last_zero, List.last_last by done. case_bool_decide as E; fields; split_and!; try done; rewrite ?E; try done.
    rewrite (rep_head _ _ Hs). by destruct (a_ready a).
Qed.

Lemma push_map_seg t boost l m :
  0 ∉ l -> NoDup l -> t ∉ l -> t <> 0 -> is_Some (m !! t) -> seg Rdy_Next Rdy_Prev m 0 l 0 ->
  seg Rdy_Next Rdy_Prev (push_map t boost l m) 0 (enqueue boost t l) 0.
Proof.
  intros H0 Hn Ht Ht0 Hm Hl. destruct boost; cbn [enqueue push_map].
  - by apply (seg_link _ _ _ [] t l _ (set_rdy_next t)).
  - apply (seg_link _ _ _ l t [] _ _ (set_rdy_prev t)); by rewrite ?app_nil_r.
Qed.

Lemma push_map_same {B} (g : tcb X -> B) t boost l m :
  (forall c v, g (set_rdy_next v c) = g c) -> (forall c v, g (set_rdy_prev v c) = g c) ->
  g <$> push_map t boost l m = g <$> m.
Proof.
  intros Hn Hp. unfold push_map. destruct boost; rewrite fmap_touch_same by done; apply fmap_alter_same;
    intros c; unfold compose; by rewrite ?Hn, ?Hp, ?Hn.
Qed.

Lemma push_map_sleep t boost l m p l' q :
  seg Slp_Next Slp_Prev m p l' q -> seg Slp_Next Slp_Prev (push_map t boost l m) p l' q.
Proof. intros Hl. unfold push_map. destruct boost; apply seg_touch_same; try done; by apply seg_alter_same. Qed.

Lemma rep_fmap {B} (g : tcb X -> B) m m' t c' :
  g <$> m' = g <$> m -> m' !! t = Some c' -> exists c, m !! t = Some c /\ g c = g c'.
Proof.
  intros E Hc. assert (g <$> m !! t = Some (g c')) as Hm by (by rewrite <- lookup_fmap, <- E, lookup_fmap, Hc).
  apply fmap_Some in Hm as (c & Hm & Eg). by exists c.
Qed.

Lemma elem_of_enqueue boost t u l : u ∈ enqueue boost t l <-> u = t \/ u ∈ l.
Proof. destruct boost; cbn; set_solver. Qed.

Lemma NoDup_enqueue boost t l : NoDup l -> t ∉ l -> NoDup (enqueue boost t l).
Proof. intros Hl Ht. destruct boost; cbn; [by constructor|]. apply NoDup_app. split_and!; [done|set_solver|apply NoDup_singleton]. Qed.

Lemma length_enqueue boost t l : length (enqueue boost t l) = S (length l).
Proof. destruct boost; cbn; [done|]. rewrite length_app. cbn. lia. Qed.

Lemma Push_sim h t notify boost a i :
  a_info a !! t = Some i -> i_status i <> Dead -> t ∉ a_ready a -> known_cur a ->
  sim (Push h t notify boost) a Sched_Ok (with_ready (enqueue boost t (a_ready a)) a).
Proof.
  intros Hi Hd Ht Hk s Hs. destruct (rep_lookup _ _ _ _ Hs Hi) as (c & Hc & Ec).
  assert (t <> 0) as Ht0 by (intros ->; by rewrite (rep_null _ _ Hs) in Hc).
  assert (Status c <> Dead) as Hd' by (subst i; done).
  assert (Queued c = false) as Hq by (rewrite (rep_queued _ _ Hs t c Hc); by rewrite bool_decide_eq_false_2).
  destruct (push_links_run t boost s a i Hs Hi) as (s1 & R1 & E1 & Hh & Htl & Hn1 & Hsl & Hcu).
  unfold Push. rewrite (proj2 (Z.eqb_neq t 0)) by done. cbv zeta. unfold bindM at 1. unfold tcb_of at 1. rewrite Hc.
  rewrite bool_decide_eq_false_2 by done. rewrite Hq. fold (push_links t boost s). unfold bindM at 1. rewrite R1.
  assert (is_Some (threads s1 !! t)) as Hs1.
  { rewrite E1. unfold push_map. destruct boost; rewrite is_Some_touch, is_Some_alter; by exists c. }
  unfold bindM at 1. rewrite upd_alter by done. unfold bindM at 1. unfold modifyM at 1. fields.
  set (s2 := set_count _ _).
  assert (rep s2 (with_ready (enqueue boost t (a_ready a)) a)) as H2.
  { pose proof (rep_ready_nz _ _ Hs) as H0. destruct Hs. split; unfold s2; fields; try done.
    - rewrite fmap_alter_same, E1, push_map_same by done. done.
    - apply eq_None_not_Some. rewrite is_Some_alter, E1. unfold push_map.
      destruct boost; rewrite is_Some_touch, is_Some_alter; by apply eq_None_not_Some.
    - by apply NoDup_enqueue.
    - apply seg_alter_same; [done..|]. rewrite E1. by apply push_map_seg.
    - rewrite Hn1, rep_count0, length_enqueue. lia.
    - intros u d Hu. destruct (decide (u = t)) as [->|Hne].
      + rewrite lookup_alter_eq in Hu. apply fmap_Some in Hu as (d1 & Hu & ->). cbn.
        assert (Status <$> threads s1 = Status <$> threads s) as E2 by (rewrite E1; by apply push_map_same).
        destruct (rep_fmap _ _ _ _ _ E2 Hu) as (c1 & Hc1 & E).
        rewrite Hc in Hc1. injection Hc1 as <-. rewrite <- E.
        rewrite bool_decide_eq_true_2 by (apply elem_of_enqueue; by left). by rewrite bool_decide_eq_false_2.
      + rewrite lookup_alter_ne in Hu by done.
        assert ((fun c => (Queued c, Status c)) <$> threads s1 = (fun c => (Queued c, Status c)) <$> threads s) as E2
          by (rewrite E1; by apply push_map_same).
        destruct (rep_fmap _ _ _ _ _ E2 Hu) as (c1 & Hc1 & [= E E']).
        rewrite <- E, <- E', (rep_queued0 u c1 Hc1). f_equal. apply bool_decide_ext. rewrite elem_of_enqueue. tauto.
    - apply seg_alter_same; [done..|]. rewrite E1. by apply push_map_sleep.
    - by rewrite Hsl.
    - by rewrite Hcu. }
  destruct (rep_tcb _ _ t i H2 Hi) as (c2 & Hc2 & _). unfold bindM at 1. rewrite Hc2.
  assert (exists b, (if negb notify then retM false else if Ready_Head s =? 0 then retM true else Outranks_Running c2) s2 = Done b s2) as [b Hb].
  { destruct notify; cbn [negb]; [|by exists false]. destruct (_ =? _); [by exists true|].
    apply (outranks_total _ _ _ _ H2). rewrite (rep_cur _ _ H2). exact Hk. }
  unfold bindM at 1. rewrite Hb. destruct b.
  - destruct (Notify_Work_sim h _ s2 H2) as (s3 & E3 & H3). unfold bindM. rewrite E3. by exists s3.
  - unfold bindM, retM. by exists s2.
Qed.

(** *** The best thread *)

Definition status_of a t : option Thread_State := i_status <$> a_info a !! t.
Definition is_dead a t : Prop := status_of a t = Some Dead.
#[export] Instance is_dead_dec a t : Decision (is_dead a t).
Proof. unfold is_dead. apply _. Defined.
Definition alive a (l : list Z) : list Z := filter (fun t => ~ is_dead a t) l.

Definition i_better (cand best : info X) : bool :=
  (i_priority best <? i_priority cand)
  || ((i_priority cand =? i_priority best) && i_boosted cand && negb (i_boosted best)).
Definition better a t b : bool :=
  match a_info a !! t, a_info a !! b with Some i, Some j => i_better i j | _, _ => false end.

(** The best of [l] and of [b], where [b = 0] stands for no thread. *)
Fixpoint choose a (b : Z) (l : list Z) : Z :=
  match l with
  | [] => b
  | t :: l' => choose a (if b =? 0 then t else if better a t b then t else b) l'
  end.

Definition without t (l : list Z) : list Z := filter (fun u => u <> t) l.

Lemma without_off t l : t ∉ l -> without t l = l.
Proof.
  intros Ht. induction l as [|u l IH]; [done|]. unfold without. rewrite filter_cons_True by set_solver.
  fold (without t l). rewrite IH by set_solver. done.
Qed.

Lemma without_split t l1 l2 : t ∉ l1 ++ l2 -> without t (l1 ++ t :: l2) = l1 ++ l2.
Proof.
  intros Ht. unfold without. rewrite filter_app, filter_cons_False by auto. fold (without t l1) (without t l2).
  rewrite !without_off by set_solver. done.
Qed.

Lemma choose_in a b l : choose a b l = b \/ choose a b l ∈ l.
Proof.
  revert b. induction l as [|t l IH]; intros b; [by left|]. cbn [choose].
  destruct (IH (if b =? 0 then t else if better a t b then t else b)) as [E|H]; [rewrite E|right; set_solver].
  repeat case_match; set_solver.
Qed.

Lemma pop_loop a rest : forall s k n best,
  rep s (with_ready (k ++ rest) a) -> best = 0 \/ best ∈ k -> (length rest < n)%nat ->
  exists s', iterM n pop_round (best, hd 0 rest) s = Done (choose a best (alive a rest)) s' /\
    rep s' (with_ready (k ++ alive a rest) a).
Proof.
  induction rest as [|t rest IH]; intros s k n best Hs Hb Hn; (destruct n as [|n]; [cbn in Hn; lia|]); cbn [iterM].
  - unfold pop_round at 1. cbn [hd Z.eqb]. unfold bindM, retM. by exists s.
  - assert (t <> 0) as Ht0 by (pose proof (rep_ready_nz _ _ Hs); fields; set_solver).
    destruct (rep_known _ _ t Hs) as [i Hi]; [left; fields; set_solver|]. fields.
    destruct (rep_tcb _ _ t i Hs Hi) as (c & Hc & Hm & Ec).
    assert (Rdy_Next c = hd 0 rest) as Hnx.
    { pose proof (rep_ready _ _ Hs) as [_ [(d & Hd & _ & ?) _]]%seg_app. congruence. }
    unfold pop_round at 1. cbn [hd]. rewrite (proj2 (Z.eqb_neq t 0)) by done. unfold bindM at 1 2. rewrite Hc, Hnx.
    assert (i_status i = Status c) as Est by by subst i.
    destruct (decide (is_dead a t)) as [Hdead|Hlive].
    + rewrite bool_decide_eq_true_2 by (rewrite <- Est; unfold is_dead, status_of in Hdead; rewrite Hi in Hdead; by injection Hdead).
      destruct (Unlink_Ready_sim t k rest (with_ready (k ++ t :: rest) a) eq_refl s Hs) as (s1 & E1 & H1).
      unfold alive. rewrite filter_cons_False by tauto. fold (alive a rest).
      unfold bindM at 1. rewrite E1. unfold retM at 1. apply IH; [exact H1|done|cbn in Hn; lia].
    + rewrite bool_decide_eq_false_2.
      2: { rewrite <- Est. intros E. apply Hlive. unfold is_dead, status_of. by rewrite Hi, <- E. }
      unfold alive. rewrite filter_cons_True by done. fold (alive a rest). cbn [choose].
      rewrite (cons_middle t k rest) in Hs. rewrite (cons_middle t k (alive a rest)). rewrite app_assoc in Hs |- *.
      destruct (Z.eqb_spec best 0) as [->|Hbest].
      * unfold retM at 1. apply IH; [done|right; set_solver|cbn in Hn; lia].
      * destruct (rep_known _ _ best Hs) as [j Hj]; [left; fields; set_solver|]. fields.
        destruct (rep_tcb _ _ best j Hs Hj) as (d & Hd & _ & Ed).
        unfold bindM at 1. rewrite Hd. unfold retM at 1.
        assert (Better c d = better a t best) as -> by (unfold better; rewrite Hi, Hj; by subst i j).
        apply IH; [done|right; case_match; set_solver|cbn in Hn; lia].
Qed.

Definition a_pop a : Z * asched X :=
  let l := alive a (a_ready a) in
  let b := choose a 0 l in
  (b, if b =? 0 then with_ready l a else set_info b (i_set_boosted false) (with_ready (without b l) a)).

Lemma choose_zero a l : 0 ∉ l -> choose a 0 l = 0 -> l = [].
Proof.
  destruct l as [|t l]; [done|]. cbn. intros H0 E. destruct (choose_in a t l) as [E'|E']; rewrite E in E'; set_solver.
Qed.

Lemma Pop_sim a :
  sim Pop a ((a_pop a).1, if (a_pop a).1 =? 0 then Queue_Empty else Sched_Ok) (a_pop a).2.
Proof.
  intros s Hs. unfold Pop.
  destruct (pop_loop a (a_ready a) s [] (S (size (threads s))) 0) as (s1 & E1 & H1).
  { cbn [app]. by destruct a. } { by left. }
  { pose proof (seg_size _ _ _ _ _ _ (rep_nodup _ _ Hs) (rep_ready _ _ Hs)). lia. }
  cbn [app] in H1. rewrite (rep_head _ _ Hs). unfold bindM at 1. rewrite E1. unfold a_pop. cbv zeta. cbn [fst snd].
  set (l := alive a (a_ready a)) in *. destruct (Z.eqb_spec (choose a 0 l) 0) as [E|E].
  - unfold retM. rewrite E. exists s1. done.
  - assert (choose a 0 l ∈ l) as Hin by (destruct (choose_in a 0 l); [congruence|done]).
    set (b := choose a 0 l) in *. clearbody b. apply list_elem_of_split in Hin as (l1 & l2 & El).
    assert (b ∉ l1 ++ l2) as Hoff.
    { pose proof (rep_nodup _ _ H1) as Hn. fields. rewrite El in Hn. by apply nodup_mid in Hn as [_ ?]. }
    destruct (Unlink_Ready_sim b l1 l2 (with_ready l a) El s1 H1) as (s2 & E2 & H2).
    unfold bindM at 1. rewrite E2. rewrite El, without_split by done.
    destruct (sim_upd b (set_boosted false) (i_set_boosted false) (with_ready (l1 ++ l2) a)) with (s := s2) as (s3 & E3 & H3).
    + apply (rep_known _ _ b H1). left. fields. rewrite El. set_solver.
    + done.
    + done.
    + by left.
    + exact H2.
    + unfold bindM. rewrite E3. unfold retM. by exists s3.
Qed.

End spec.
