(* ===== verification/KSchedOps.v ===== *)
(** * The scheduler's operations

    The sleep queue and the operations of [KSched], each as the function on
    [asched] it implements. *)
From S2P Require Import Prelude CInt KSched KSchedSpec.

Ltac fields := cbn [threads Ready_Head Ready_Tail Ready_N Sleep_Head Current_TCBS set_threads set_head set_tail set_count set_sleep
   set_currents set_ipis set_timer set_info with_ready with_sleep with_cur a_info a_ready a_sleep a_cur] in *.

Section ops.
Context {X : Type}.
Implicit Types (c : tcb X) (i : info X) (s : sched X) (a : asched X) (t : Z) (h : nat) (m : gmap Z (tcb X)).

(** ** The sleep queue *)

Definition deadline_of a t : Z := match a_info a !! t with Some i => i_deadline i | None => 0 end.

(** The sleepers due at [d] or before, as far as they come first, and the others. *)
Fixpoint early a (d : Z) (l : list Z) : list Z :=
  match l with [] => [] | u :: l' => if deadline_of a u <=? d then u :: early a d l' else [] end.
Fixpoint late a (d : Z) (l : list Z) : list Z :=
  match l with [] => [] | u :: l' => if deadline_of a u <=? d then late a d l' else l end.

Lemma early_late a d l : early a d l ++ late a d l = l.
Proof. induction l as [|u l IH]; [done|]. cbn. case_match; [|done]. cbn. by rewrite IH. Qed.

Lemma after_loop a d : forall rest k n s,
  rep s a -> a_sleep a = k ++ rest -> (length rest < n)%nat ->
  iterM n (after_round d) (List.last k 0, hd 0 rest) s
  = Done (List.last (k ++ early a d rest) 0, hd 0 (late a d rest)) s.
Proof.
  induction rest as [|u rest IH]; intros k [|n] s Hs Ha Hn; cbn in Hn; try lia; cbn [iterM].
  - unfold after_round at 1. cbn. by rewrite app_nil_r.
  - assert (u <> 0) as Hu by (pose proof (rep_sleep_nz _ _ Hs) as H0; rewrite Ha in H0; set_solver).
    destruct (rep_known _ _ u Hs) as [i Hi]; [right; rewrite Ha; set_solver|].
    destruct (rep_tcb _ _ u i Hs Hi) as (c & Hc & Hm & Ec).
    assert (Slp_Next c = hd 0 rest) as Hnx.
    { pose proof (rep_sleep _ _ Hs) as Hq. rewrite Ha in Hq. apply seg_app in Hq as [_ [(e & He & _ & ?) _]]. congruence. }
    unfold after_round at 1. cbn [hd]. rewrite (proj2 (Z.eqb_neq u 0)) by done.
    unfold bindM at 1 2. rewrite Hc, Hnx. cbn [early late].
    assert (deadline_of a u = Sleep_Deadline c) as -> by (unfold deadline_of; rewrite Hi; by subst i).
    destruct (Sleep_Deadline c <=? d); [|unfold retM; by rewrite app_nil_r].
    unfold retM at 1. specialize (IH (k ++ [u]) n s Hs). rewrite List.last_last in IH. rewrite IH by (rewrite <- ?app_assoc; done || lia).
    by rewrite <- app_assoc.
Qed.

Lemma rep_sleep_upd s a m l :
  rep s a -> core <$> m = core <$> threads s -> Queued <$> m = Queued <$> threads s ->
  (fun c => (Rdy_Next c, Rdy_Prev c)) <$> m = (fun c => (Rdy_Next c, Rdy_Prev c)) <$> threads s ->
  NoDup l -> seg Slp_Next Slp_Prev m 0 l 0 ->
  rep (set_sleep (hd 0 l) (set_threads m s)) (with_sleep l a).
Proof.
  intros Hs Ec Eq El Hn Hseg. destruct Hs. split; fields; try done.
  - by rewrite Ec.
  - apply eq_None_not_Some. intros [c Hc]. destruct (rep_fmap _ _ _ _ _ Eq Hc) as (d & Hd & _). congruence.
  - eapply seg_frame; [|exact rep_ready]. intros t c _ Hc. symmetry in El.
    destruct (rep_fmap _ _ _ _ _ El Hc) as (d & Hd & [= E1 E2]). by exists d.
  - intros t c Hc. destruct (rep_fmap (fun c => (Queued c, Status c)) (threads s) m t c) as (d & Hd & [= E1 E2]); [|done|].
    { apply map_eq. intros u. rewrite !lookup_fmap.
      assert (Queued <$> m !! u = Queued <$> threads s !! u) as E1 by by rewrite <- !lookup_fmap, Eq.
      assert (core <$> m !! u = core <$> threads s !! u) as E2 by by rewrite <- !lookup_fmap, Ec.
      destruct (m !! u), (threads s !! u); try done. cbn in *. injection E1 as ->. injection E2 as ->. congruence. }
    rewrite <- E1, <- E2. by apply rep_queued.
Qed.

Lemma Insert_Sleeper_sim t i a :
  a_info a !! t = Some i -> t ∉ a_sleep a ->
  sim (Insert_Sleeper t) a tt
      (with_sleep (early a (i_deadline i) (a_sleep a) ++ t :: late a (i_deadline i) (a_sleep a)) a).
Proof.
  intros Hi Ht s Hs. destruct (rep_tcb _ _ t i Hs Hi) as (c & Hc & Hm & Ec).
  assert (t <> 0) as Ht0 by (intros ->; by rewrite (rep_null _ _ Hs) in Hm).
  assert (Sleep_Deadline c = i_deadline i) as Ed by by subst i.
  set (d := i_deadline i) in *. set (l1 := early a d (a_sleep a)). set (l2 := late a d (a_sleep a)).
  assert (l1 ++ l2 = a_sleep a) as El by apply early_late.
  pose proof (rep_sleep _ _ Hs) as Hseg. pose proof (rep_sleep_nz _ _ Hs) as H0. pose proof (rep_nodup_sleep _ _ Hs) as Hn.
  unfold Insert_Sleeper. unfold bindM at 1. rewrite Hc, Ed, (rep_sleep_head _ _ Hs). unfold bindM at 1.
  pose proof (after_loop a d (a_sleep a) [] (S (size (threads s))) s Hs eq_refl) as HL. cbn [app List.last] in HL.
  rewrite HL. 2: { pose proof (seg_size _ _ _ _ _ _ Hn Hseg). lia. }
  cbn [fst snd]. fold l1 l2. rewrite <- El in Hseg, H0, Hn, Ht. pose proof Hseg as [S1 S2]%seg_app.
  unfold bindM at 1. rewrite upd_alter by by exists c.
  unfold bindM at 1. rewrite upd_alter by (fields; apply is_Some_alter; by exists c). fields.
  unfold bindM at 1. rewrite upd_touch.
  2: { fields. rewrite !is_Some_alter. by eapply last_known. }
  cbv zeta. fields. rewrite alter_alter_eq. set (s1 := if List.last l1 0 =? 0 then _ else _).
  assert (s1 = set_sleep (if List.last l1 0 =? 0 then t else Sleep_Head s)
             (set_threads (touch (List.last l1 0) (set_slp_next t) (alter (set_slp_next (hd 0 l2) ∘ set_slp_prev (List.last l1 0)) t (threads s))) s)) as Es1.
  { unfold s1. destruct (List.last l1 0 =? 0); fields; by destruct s. }
  assert (exists s2, upd_unless_null (hd 0 l2) (set_slp_prev t) (retM tt) s1 = Done tt s2 /\
    s2 = set_threads (touch (hd 0 l2) (set_slp_prev t) (threads s1)) s1) as (s2 & R2 & Es2).
  { unfold upd_unless_null, touch. destruct (Z.eqb_spec (hd 0 l2) 0) as [E|E]; cbn [negb].
    - eexists. split; [done|]. by destruct s1.
    - eexists. split; [|done]. apply upd_alter. rewrite Es1. fields. rewrite is_Some_touch, is_Some_alter.
      destruct (hd_known _ _ _ _ _ _ S2); done. }
  rewrite R2. exists s2. split; [done|]. rewrite Es2, Es1. fields.
  set (m' := touch (hd 0 l2) _ _).
  replace (set_threads m' _) with (set_sleep (hd 0 (l1 ++ t :: l2)) (set_threads m' s)).
  2: { unfold set_threads, set_sleep. fields. f_equal. rewrite last_zero by set_solver.
       rewrite (rep_sleep_head _ _ Hs), <- El. case_bool_decide as E; [by rewrite E|]. by destruct l1. }
  apply rep_sleep_upd; try done.
  1-3: unfold m'; rewrite !fmap_touch_same by done; by apply fmap_alter_same.
  - apply NoDup_app in Hn as (N1 & Hd & N2). apply NoDup_app. split_and!; [done| |constructor; set_solver]. set_solver.
  - unfold m'. by apply (seg_link _ _ _ l1 t l2).
Qed.

Lemma remove_loop t a : forall rest k n s,
  rep s a -> a_sleep a = k ++ rest -> t ∉ k -> (length rest < n)%nat ->
  exists s', iterM n (remove_round t) (List.last k 0, hd 0 rest) s = Done tt s' /\
    rep s' (with_sleep (without t (a_sleep a)) a).
Proof.
  induction rest as [|u rest IH]; intros k [|n] s Hs Ha Hk Hn; cbn in Hn; try lia; cbn [iterM].
  - unfold remove_round at 1. cbn. exists s. split; [done|]. rewrite without_off by (rewrite Ha, app_nil_r; done).
    by destruct a.
  - assert (u <> 0) as Hu by (pose proof (rep_sleep_nz _ _ Hs) as H0; rewrite Ha in H0; set_solver).
    destruct (rep_known _ _ u Hs) as [i Hi]; [right; rewrite Ha; set_solver|].
    destruct (rep_tcb _ _ u i Hs Hi) as (c & Hc & Hm & Ec).
    pose proof (rep_sleep _ _ Hs) as Hseg. rewrite Ha in Hseg. pose proof Hseg as [S1 [(e & He & _ & Hnx) S2]]%seg_app.
    rewrite Hm in He. injection He as <-.
    unfold remove_round at 1. cbn [hd]. rewrite (proj2 (Z.eqb_neq u 0)) by done.
    unfold bindM at 1 2. rewrite Hc, Hnx. destruct (Z.eqb_spec u t) as [->|Hut].
    2: { unfold retM at 1. specialize (IH (k ++ [u]) n s Hs). rewrite List.last_last in IH.
         apply IH; [by rewrite <- app_assoc|set_solver|lia]. }
    pose proof (rep_nodup_sleep _ _ Hs) as Hnd. rewrite Ha in Hnd. destruct (nodup_mid _ _ _ Hnd) as [Hn' Ht].
    assert (0 ∉ k ++ rest) as H0 by (pose proof (rep_sleep_nz _ _ Hs) as H0; rewrite Ha in H0; set_solver).
    unfold bindM at 1. rewrite upd_touch by (eapply last_known; exact S1). cbv zeta.
    set (s1 := if List.last k 0 =? 0 then _ else _).
    assert (s1 = set_sleep (if List.last k 0 =? 0 then hd 0 rest else Sleep_Head s)
               (set_threads (touch (List.last k 0) (set_slp_next (hd 0 rest)) (threads s)) s)) as Es1.
    { unfold s1. destruct (List.last k 0 =? 0); fields; by destruct s. }
    assert (exists s2, upd_unless_null (hd 0 rest) (set_slp_prev (List.last k 0)) (retM tt) s1 = Done tt s2 /\
      s2 = set_threads (touch (hd 0 rest) (set_slp_prev (List.last k 0)) (threads s1)) s1) as (s2 & R2 & Es2).
    { unfold upd_unless_null, touch. destruct (Z.eqb_spec (hd 0 rest) 0) as [E|E]; cbn [negb].
      - eexists. split; [done|]. by destruct s1.
      - eexists. split; [|done]. apply upd_alter. rewrite Es1. fields. rewrite is_Some_touch.
        destruct (hd_known _ _ _ _ _ _ S2); done. }
    unfold bindM at 1. rewrite R2. subst s2. clearbody s1. subst s1. fields.
    assert (is_Some (threads s !! t)) as Hst by by exists c.
    unfold bindM at 1. rewrite upd_alter by (fields; by rewrite !is_Some_touch). fields.
    unfold bindM at 1. rewrite upd_alter by (fields; by rewrite is_Some_alter, !is_Some_touch). fields.
    unfold retM. eexists. split; [done|]. rewrite Ha, without_split by done.
    set (m' := alter (set_slp_prev 0) t _).
    replace (set_threads m' _) with (set_sleep (hd 0 (k ++ rest)) (set_threads m' s)).
    2: { unfold set_threads, set_sleep. fields. f_equal. rewrite last_zero by set_solver.
         rewrite (rep_sleep_head _ _ Hs), Ha. case_bool_decide as E; [by rewrite E|]. by destruct k. }
    apply rep_sleep_upd; try done.
    1-3: unfold m'; rewrite !fmap_alter_same by done; by rewrite !fmap_touch_same by done.
    unfold m'. do 2 (apply seg_alter_off; [done|]). by apply (seg_unlink _ _ _ k t rest).
Qed.

Lemma Remove_Sleeper_sim t a : sim (Remove_Sleeper t) a tt (with_sleep (without t (a_sleep a)) a).
Proof.
  intros s Hs. unfold Remove_Sleeper. rewrite (rep_sleep_head _ _ Hs).
  apply (remove_loop t a (a_sleep a) []); [done|done|set_solver|].
  pose proof (seg_size _ _ _ _ _ _ (rep_nodup_sleep _ _ Hs) (rep_sleep _ _ Hs)). lia.
Qed.

(** ** Small steps *)

Definition cur a h : Z := nth h (a_cur a) 0.
Definition set_cur h t a : asched X := with_cur (<[h := t]> (a_cur a)) a.

Lemma rep_current s a h : rep s a -> current_of s h = cur a h.
Proof. intros Hs. unfold current_of, cur. by rewrite (rep_cur _ _ Hs). Qed.

Lemma Set_My_Current_sim h t a : sim (Set_My_Current h t) a tt (set_cur h t a).
Proof. intros s Hs. eexists. split; [done|]. destruct Hs. split; fields; try done. unfold set_cur. fields. by rewrite rep_cur. Qed.

Lemma status_known a t st : status_of a t = Some st -> is_Some (a_info a !! t).
Proof. unfold status_of. intros (i & Hi & _)%fmap_Some. by exists i. Qed.

Lemma upd_status_sim t st a :
  is_Some (a_info a !! t) -> t ∉ a_ready a -> sim (upd_tcb t (set_status st)) a tt (set_info t (i_set_status st) a).
Proof. intros Hi Ht. apply sim_upd; try done. by left. Qed.
Lemma upd_boosted_sim t b a :
  is_Some (a_info a !! t) -> sim (upd_tcb t (set_boosted b)) a tt (set_info t (i_set_boosted b) a).
Proof. intros Hi. apply sim_upd; try done. by right. Qed.
Lemma upd_deadline_sim t d a :
  is_Some (a_info a !! t) -> sim (upd_tcb t (set_deadline d)) a tt (set_info t (i_set_deadline d) a).
Proof. intros Hi. apply sim_upd; try done. by right. Qed.
Lemma upd_priority_sim t p a :
  is_Some (a_info a !! t) -> sim (upd_tcb t (set_priority p)) a tt (set_info t (i_set_priority p) a).
Proof. intros Hi. apply sim_upd; try done. by right. Qed.
Lemma upd_stack_sim t v a :
  is_Some (a_info a !! t) -> sim (upd_tcb t (set_stack v)) a tt (set_info t (i_set_stack v) a).
Proof. intros Hi. apply sim_upd; try done. by right. Qed.

(** Clearing the flag of a thread that is not in the queue changes nothing. *)
Lemma unqueue_sim t a : is_Some (a_info a !! t) -> t ∉ a_ready a -> sim (upd_tcb t (set_queued false)) a tt a.
Proof.
  intros [i Hi] Ht s Hs. destruct (rep_tcb _ _ t i Hs Hi) as (c & Hc & Hm & Ec).
  eexists. split; [apply upd_alter; by exists c|]. destruct Hs. split; fields; try done.
  - by rewrite fmap_alter_same.
  - rewrite lookup_alter_ne; [done|]. intros ->. congruence.
  - by apply seg_alter_same.
  - intros u d. destruct (decide (u = t)) as [->|Hne]; [|rewrite lookup_alter_ne by done; apply rep_queued].
    rewrite lookup_alter_eq, Hm. intros [= <-]. cbn. by rewrite bool_decide_eq_false_2.
  - by apply seg_alter_same.
Qed.

(** [Set_State (T, Dead); Set_Queued (T, False)], wherever the thread is. *)
Lemma kill_sim t a :
  is_Some (a_info a !! t) ->
  sim (upd_tcb t (set_status Dead) ;; upd_tcb t (set_queued false)) a tt (set_info t (i_set_status Dead) a).
Proof.
  intros [i Hi] s Hs. destruct (rep_tcb _ _ t i Hs Hi) as (c & Hc & Hm & Ec).
  unfold bindM. rewrite upd_alter by by exists c. rewrite upd_alter by (fields; apply is_Some_alter; by exists c).
  fields. rewrite alter_alter_eq. eexists. split; [done|]. destruct Hs. split; fields; try done.
  - rewrite <- rep_info. by apply core_alter.
  - rewrite lookup_alter_ne; [done|]. intros ->. congruence.
  - by apply seg_alter_same.
  - intros u d. destruct (decide (u = t)) as [->|Hne]; [|rewrite lookup_alter_ne by done; apply rep_queued].
    rewrite lookup_alter_eq, Hm. intros [= <-]. cbn. by rewrite andb_false_r.
  - by apply seg_alter_same.
Qed.

(** ** Operations *)

Definition blocked (st : Thread_State) : bool :=
  match st with Dead | Running | Ready => false | _ => true end.

(** [Wake]: a blocked thread leaves the sleep queue, is ready and boosted and
    goes to the front. *)
Definition a_wake t a : asched X :=
  match status_of a t with
  | Some st =>
      if blocked st then
        with_ready (t :: a_ready a) (set_info t (i_set_boosted true) (set_info t (i_set_status Ready)
          (if bool_decide (st = Blocked_Sleeping) then with_sleep (without t (a_sleep a)) a else a)))
      else a
  | None => a
  end.

Definition wake_result a t : sched_status :=
  match status_of a t with Some Dead => Invalid_Task | _ => Sched_Ok end.

Lemma known_cur_info a g t : known_cur a -> known_cur (set_info t g a).
Proof.
  intros Hk u Hu. destruct (Hk u Hu) as [?|[i Hi]]; [by left|right]. fields.
  destruct (decide (u = t)) as [->|Hne]; [rewrite lookup_alter_eq, Hi; by eexists|by rewrite lookup_alter_ne; eauto].
Qed.

Lemma is_Some_set_info a t u g : is_Some (a_info (set_info u g a) !! t) <-> is_Some (a_info a !! t).
Proof.
  fields. destruct (decide (t = u)) as [->|Hne]; [|by rewrite lookup_alter_ne].
  rewrite lookup_alter_eq. apply fmap_is_Some.
Qed.

Lemma Wake_sim h t a st :
  t <> 0 -> status_of a t = Some st -> known_cur a -> (blocked st = true -> t ∉ a_ready a) ->
  sim (Wake h t) a (wake_result a t) (a_wake t a).
Proof.
  intros Ht Hst Hk Hb. pose proof (status_known _ _ _ Hst) as [i Hi].
  assert (i_status i = st) as Ei by (unfold status_of in Hst; rewrite Hi in Hst; by injection Hst).
  unfold Wake, wake_result, a_wake. rewrite (proj2 (Z.eqb_neq t 0)) by done. rewrite Hst.
  apply (sim_with_tcb t i); [done|]. intros c Hc. assert (Status c = st) as -> by by subst i.
  destruct (blocked st) eqn:Est; [|destruct st; try discriminate; apply sim_ret].
  assert (st <> Dead /\ st <> Running /\ st <> Ready) as (N1 & N2 & N3) by (destruct st; done).
  replace (match st with Dead => Invalid_Task | _ => Sched_Ok end) with Sched_Ok by (by destruct st).
  rewrite (bool_decide_eq_false_2 (st = Dead)), (bool_decide_eq_false_2 (st = Running)),
    (bool_decide_eq_false_2 (st = Ready)) by done. cbn [orb].
  set (a1 := if bool_decide (st = Blocked_Sleeping) then with_sleep (without t (a_sleep a)) a else a).
  assert (a_info a1 = a_info a /\ a_ready a1 = a_ready a /\ a_cur a1 = a_cur a) as (E1 & E2 & E3).
  { unfold a1. by case_bool_decide. }
  change (t :: a_ready a) with (enqueue true t (a_ready a)). rewrite <- E2.
  eapply sim_bind with (r := tt) (a1 := a1).
  { unfold a1. case_bool_decide; [apply Remove_Sleeper_sim|apply sim_ret]. }
  eapply sim_bind. { apply upd_status_sim; [rewrite E1; by exists i|rewrite E2; by apply Hb]. }
  eapply sim_bind. { apply upd_boosted_sim. rewrite is_Some_set_info, E1. by exists i. }
  eapply (Push_sim h t true true (set_info t (i_set_boosted true) (set_info t (i_set_status Ready) a1))).
  - fields. rewrite !lookup_alter_eq, E1, Hi. done.
  - done.
  - fields. rewrite E2. by apply Hb.
  - do 2 apply known_cur_info. intros u. rewrite E1, E3. apply Hk.
Qed.

(** [Yield]: the running thread goes to the end of the queue and the best one
    is taken. *)
Definition runs a h : bool := negb (cur a h =? 0) && bool_decide (status_of a (cur a h) = Some Running).
Definition requeue h a : asched X :=
  if runs a h then
    let t := cur a h in with_ready (a_ready a ++ [t]) (set_info t (i_set_status Ready) a)
  else a.
Definition a_yield h a : asched X :=
  let p := a_pop (requeue h a) in
  if p.1 =? 0 then set_cur h 0 p.2 else set_info p.1 (i_set_status Running) (set_cur h p.1 p.2).

Definition yield_result h a : sched_status := if (a_pop (requeue h a)).1 =? 0 then Queue_Empty else Sched_Ok.

(** The thread of hart [h] is known, and not in the queue if it runs. *)
Definition hart_ok a h : Prop :=
  (cur a h <> 0 -> is_Some (a_info a !! cur a h)) /\ (runs a h = true -> cur a h ∉ a_ready a).

Lemma is_running_sim h a : hart_ok a h -> sim (is_running h) a (runs a h) a.
Proof.
  intros [Hk _] s Hs. unfold is_running, runs. rewrite (rep_current s a h Hs).
  destruct (Z.eqb_spec (cur a h) 0) as [E|E]; cbn [negb andb]; [by exists s|].
  destruct (Hk E) as [i Hi]. destruct (rep_tcb _ _ _ _ Hs Hi) as (c & Hc & _ & Ec).
  unfold bindM. rewrite Hc. unfold retM. exists s. split; [|done]. do 2 f_equal. apply bool_decide_ext.
  unfold status_of. rewrite Hi. subst i. cbn. split; congruence.
Qed.

Lemma a_pop_shape a : 0 ∉ a_ready a ->
  a_cur (a_pop a).2 = a_cur a /\ a_sleep (a_pop a).2 = a_sleep a /\
  (forall u, is_Some (a_info (a_pop a).2 !! u) <-> is_Some (a_info a !! u)) /\
  ((a_pop a).1 = 0 \/ (a_pop a).1 ∈ a_ready a) /\ (a_pop a).1 ∉ a_ready (a_pop a).2.
Proof.
  intros H0. unfold a_pop. cbv zeta. cbn [fst snd]. set (l := alive a (a_ready a)). set (b := choose a 0 l).
  assert (forall u, u ∈ l -> u ∈ a_ready a) as Hl by (intros u Hu; unfold l, alive in Hu; by apply list_elem_of_filter in Hu as [_ ?]).
  assert (b = 0 \/ b ∈ a_ready a) as Hb by (destruct (choose_in a 0 l) as [H|H]; [by left|right; by apply Hl]).
  destruct (Z.eqb_spec b 0) as [E|E]; split_and!; fields; try done.
  - rewrite E. intros H. by apply H0, Hl.
  - intros u. apply (is_Some_set_info a u b).
  - unfold without. rewrite list_elem_of_filter. tauto.
Qed.

Lemma is_Some_requeue a h u : is_Some (a_info (requeue h a) !! u) <-> is_Some (a_info a !! u).
Proof. unfold requeue. case_match; [|done]. cbv zeta. apply (is_Some_set_info a u (cur a h)). Qed.

Lemma requeue_cur a h : a_cur (requeue h a) = a_cur a.
Proof. unfold requeue. by case_match. Qed.

Lemma requeue_sim h a :
  hart_ok a h -> known_cur a -> runs a h = true ->
  sim (upd_tcb (cur a h) (set_status Ready) ;; Push h (cur a h) false false) a Sched_Ok (requeue h a).
Proof.
  intros [Hk Hq] Hkc Hr. specialize (Hq Hr). unfold requeue. rewrite Hr. cbv zeta.
  destruct (Hk) as [i Hi]; [intros E; unfold runs in Hr; by rewrite E in Hr|].
  eapply sim_bind; [apply upd_status_sim; [by exists i|done]|].
  eapply (Push_sim h (cur a h) false false (set_info (cur a h) (i_set_status Ready) a)).
  - fields. by rewrite lookup_alter_eq, Hi.
  - done.
  - done.
  - by apply known_cur_info.
Qed.

Lemma sim_with_rep {A} (op : M (sched X) A) a r a' :
  (forall s, rep s a -> sim op a r a') -> sim op a r a'.
Proof. intros H s Hs. by apply (H s Hs). Qed.

Lemma sim_at {A} (op : M (sched X) A) a r a' s :
  sim op a r a' -> rep s a -> exists s', op s = Done r s' /\ rep s' a'.
Proof. intros H. apply H. Qed.

(** With nothing to take there was nothing running. *)
Lemma pop_empty_idle h a :
  0 ∉ a_ready (requeue h a) -> (a_pop (requeue h a)).1 = 0 -> runs a h = false /\ runs (a_pop (requeue h a)).2 h = false.
Proof.
  intros H0 E. destruct (runs a h) eqn:Hr.
  - exfalso. assert (alive (requeue h a) (a_ready (requeue h a)) = []) as El.
    { apply (choose_zero (requeue h a)); [|exact E]. unfold alive. rewrite list_elem_of_filter. tauto. }
    assert (cur a h ∈ []) as H; [|by apply elem_of_nil in H]. rewrite <- El. apply list_elem_of_filter.
    unfold requeue. rewrite Hr. cbv zeta. fields. split; [|set_solver].
    unfold is_dead, status_of. fields. rewrite lookup_alter_eq. by destruct (a_info a !! cur a h).
  - split; [done|]. unfold a_pop in *. cbv zeta in *. cbn [fst snd] in *. rewrite E, Z.eqb_refl.
    unfold requeue. rewrite Hr. exact Hr.
Qed.

Lemma Yield_sim h a : hart_ok a h -> known_cur a -> sim (Yield h) a (yield_result h a) (a_yield h a).
Proof.
  intros Hh Hk. unfold Yield. apply (sim_read (fun s => current_of s h) (fun t =>
    let* r := is_running h in
    let* st := if r : bool then upd_tcb t (set_status Ready) ;; Push h t false false else retM Sched_Ok in _)
    a (cur a h)); [intros s Hs; by apply rep_current|].
  eapply sim_bind; [by apply is_running_sim|].
  eapply sim_bind with (r := Sched_Ok) (a1 := requeue h a).
  { destruct (runs a h) eqn:Hr; [by apply requeue_sim|]. unfold requeue. rewrite Hr. apply sim_ret. }
  rewrite bool_decide_eq_true_2 by done. cbn [negb].
  apply sim_with_rep. intros s Hs. pose proof (rep_ready_nz _ _ Hs) as H0.
  pose proof (a_pop_shape _ H0) as (C1 & C2 & C3 & C4 & C5).
  eapply sim_bind; [apply Pop_sim|]. cbn [fst snd]. unfold yield_result, a_yield. cbv zeta.
  destruct (Z.eqb_spec (a_pop (requeue h a)).1 0) as [E|E].
  - rewrite bool_decide_eq_true_2 by done. destruct (pop_empty_idle h a H0 E) as [Hr Hr2].
    eapply sim_bind; [apply is_running_sim|].
    + assert (cur (a_pop (requeue h a)).2 h = cur a h) as Ec by (unfold cur; by rewrite C1, requeue_cur).
      split; [rewrite Ec, C3, is_Some_requeue; apply Hh|]. by rewrite Hr2.
    + rewrite Hr2. eapply sim_bind; [apply Set_My_Current_sim|apply sim_ret].
  - rewrite (bool_decide_eq_false_2 (Sched_Ok = Queue_Empty)), bool_decide_eq_true_2 by done. cbn [negb].
    assert (is_Some (a_info (a_pop (requeue h a)).2 !! (a_pop (requeue h a)).1)) as Hi.
    { apply C3. destruct C4 as [?|Hin]; [done|]. apply (rep_known _ _ _ Hs). by left. }
    eapply sim_bind; [apply Set_My_Current_sim|].
    eapply sim_bind; [by apply unqueue_sim|].
    eapply sim_bind; [by apply upd_status_sim|apply sim_ret].
Qed.

(** The other operations. *)

Definition a_block h (st : Thread_State) a : asched X :=
  set_cur h 0 (set_info (cur a h) (i_set_boosted false) (set_info (cur a h) (i_set_status st) a)).

Lemma Block_Current_sim h st a :
  cur a h <> 0 -> is_Some (a_info a !! cur a h) -> cur a h ∉ a_ready a ->
  sim (Block_Current h st) a Sched_Ok (a_block h st a).
Proof.
  intros H0 Hi Hq s Hs. unfold Block_Current. rewrite !(rep_current s a h Hs), (proj2 (Z.eqb_neq _ 0)) by done.
  eapply sim_at; [|exact Hs]. eapply sim_bind; [by apply upd_status_sim|]. eapply sim_bind; [apply upd_boosted_sim; by rewrite is_Some_set_info|].
  eapply sim_bind; [apply Set_My_Current_sim|]. apply sim_ret.
Qed.

Definition a_remove t a : asched X :=
  with_sleep (without t (a_sleep a)) (with_cur ((fun u => if u =? t then 0 else u) <$> a_cur a) a).

Lemma Remove_Thread_sim t a :
  t <> 0 -> is_dead a t -> sim (Remove_Thread t) a Sched_Ok (a_remove t a).
Proof.
  intros H0 Hd. unfold Remove_Thread. rewrite (proj2 (Z.eqb_neq t 0)) by done.
  eapply sim_bind with (a1 := with_cur ((fun u => if u =? t then 0 else u) <$> a_cur a) a).
  { intros s Hs. eexists. split; [done|]. destruct Hs. split; fields; try done. by rewrite rep_cur. }
  eapply sim_bind; [apply Remove_Sleeper_sim|]. intros s Hs.
  destruct (status_known _ _ _ Hd) as [i Hi]. destruct (rep_tcb _ _ t i Hs Hi) as (c & Hc & Hm & Ec).
  unfold bindM. rewrite Hc. rewrite (rep_queued _ _ Hs t c Hm).
  rewrite (bool_decide_eq_true_2 (Status c = Dead)), andb_false_r.
  2: { unfold is_dead, status_of in Hd. rewrite Hi in Hd. subst i. by injection Hd. }
  unfold retM. by exists s.
Qed.

Definition a_exit h a : asched X :=
  let t := cur a h in
  set_cur h 0 (set_info t (i_set_status Dead) (with_sleep (without t (a_sleep a)) a)).

Lemma Exit_Current_sim h a :
  cur a h <> 0 -> is_Some (a_info a !! cur a h) -> sim (Exit_Current h) a Sched_Ok (a_exit h a).
Proof.
  intros H0 Hi s Hs. unfold Exit_Current. rewrite !(rep_current s a h Hs), (proj2 (Z.eqb_neq _ 0)) by done.
  eapply sim_at; [|exact Hs]. clear s Hs. eapply sim_bind; [apply Remove_Sleeper_sim|].
  intros s Hs. pose proof (kill_sim (cur a h) (with_sleep (without (cur a h) (a_sleep a)) a) Hi s Hs) as (s1 & E1 & H1).
  rewrite <- bindM_assoc. unfold bindM at 1. rewrite E1.
  destruct (Set_My_Current_sim h 0 _ s1 H1) as (s2 & E2 & H2). unfold bindM. rewrite E2. by exists s2.
Qed.

(** ** Sleepers whose time has come *)

Fixpoint a_checks (now : Z) (l : list Z) a : asched X :=
  match l with
  | [] => a
  | t :: l' => if deadline_of a t <=? now then a_checks now l' (a_wake t (with_sleep l' a)) else a
  end.
Definition a_check now a : asched X := a_checks now (a_sleep a) a.

Definition next_deadline a : Z :=
  match a_sleep a with [] => 2 ^ 64 - 1 | t :: _ => deadline_of a t end.

(** The sleepers that are due sleep, and are not in the ready queue. *)
Definition due_ok now a : Prop :=
  forall t, t ∈ a_sleep a -> deadline_of a t <= now -> status_of a t = Some Blocked_Sleeping /\ t ∉ a_ready a.

Lemma info_set_info a t g u :
  a_info (set_info t g a) !! u = if decide (u = t) then g <$> a_info a !! u else a_info a !! u.
Proof. fields. case_decide as E; [subst; by rewrite lookup_alter_eq|by rewrite lookup_alter_ne]. Qed.

Lemma a_wake_info t a u :
  a_info (a_wake t a) !! u
  = match status_of a t with
    | Some st => if blocked st then if decide (u = t) then i_set_boosted true ∘ i_set_status Ready <$> a_info a !! u else a_info a !! u
                 else a_info a !! u
    | None => a_info a !! u
    end.
Proof.
  unfold a_wake. destruct (status_of a t) as [st|]; [|done]. destruct (blocked st); [|done].
  change (a_info (with_ready ?l ?b)) with (a_info b).
  rewrite !info_set_info. case_decide; case_bool_decide; fields; by destruct (a_info a !! u).
Qed.

Lemma a_wake_deadline t a u : deadline_of (a_wake t a) u = deadline_of a u.
Proof. unfold deadline_of. rewrite a_wake_info. repeat case_match; simplify_eq/=; try done; by destruct (a_info a !! u); simplify_eq/=. Qed.

Lemma a_wake_status t a u : u <> t -> status_of (a_wake t a) u = status_of a u.
Proof. intros Hu. unfold status_of. rewrite a_wake_info. by repeat case_match. Qed.

Lemma a_wake_cur t a : a_cur (a_wake t a) = a_cur a.
Proof. unfold a_wake. by repeat case_match. Qed.

Lemma a_wake_known t a u : is_Some (a_info (a_wake t a) !! u) <-> is_Some (a_info a !! u).
Proof. rewrite a_wake_info. repeat case_match; try done. apply fmap_is_Some. Qed.

Lemma a_wake_known_cur t a : known_cur a -> known_cur (a_wake t a).
Proof. intros Hk u. rewrite a_wake_cur, a_wake_known. apply Hk. Qed.

Lemma a_wake_ready t a u : u <> t -> u ∈ a_ready (a_wake t a) <-> u ∈ a_ready a.
Proof. intros Hu. unfold a_wake. repeat case_match; try done; cbn; set_solver. Qed.

(** One sleeper woken from the head. *)
Lemma a_wake_sleeper t l a :
  status_of a t = Some Blocked_Sleeping -> t ∉ l -> a_sleep (a_wake t (with_sleep l a)) = l.
Proof.
  intros Hst Hl. unfold a_wake. change (status_of (with_sleep l a) t) with (status_of a t). rewrite Hst. cbn [blocked].
  rewrite bool_decide_eq_true_2 by done. cbn. by apply without_off.
Qed.

Lemma check_loop h now : forall n a,
  NoDup (a_sleep a) -> 0 ∉ a_sleep a -> known_cur a -> due_ok now a -> (length (a_sleep a) < n)%nat ->
  sim (iterM n (sleeper_round h now) tt) a (next_deadline (a_check now a)) (a_check now a).
Proof.
  unfold a_check. induction n as [|n IH]; intros a Hnd H0 Hk Hd Hn; [lia|]. cbn [iterM].
  destruct (a_sleep a) as [|t l] eqn:El.
  - cbn [a_checks]. unfold next_deadline. rewrite El. intros s Hs. exists s. unfold bindM, sleeper_round.
    rewrite (rep_sleep_head _ _ Hs), El. done.
  - apply NoDup_cons in Hnd as [Htl Hnd]. cbn [a_checks]. assert (t <> 0) as Ht0 by set_solver.
    destruct (Z.leb_spec (deadline_of a t) now) as [Hle|Hgt].
    + destruct (Hd t) as [Hst Hr]; [rewrite El; set_solver|done|].
      set (a1 := a_wake t (with_sleep l a)). assert (a_sleep a1 = l) as El1 by by apply a_wake_sleeper.
      assert (sim (sleeper_round h now tt) a (inl tt) a1) as Hround.
      { intros s Hs. destruct (status_known _ _ _ Hst) as [i Hi]. destruct (rep_tcb _ _ t i Hs Hi) as (c & Hc & _ & Ec).
        unfold sleeper_round. rewrite (rep_sleep_head _ _ Hs), El. cbn [hd]. rewrite (proj2 (Z.eqb_neq t 0)) by done.
        assert (Sleep_Deadline c <=? now = true) as Hc2 by (apply Z.leb_le; unfold deadline_of in Hle; rewrite Hi in Hle; by subst i).
        unfold bindM at 1. rewrite Hc, Hc2. eapply sim_at; [|exact Hs].
        eapply sim_bind; [apply Remove_Sleeper_sim|].
        assert (without t (a_sleep a) = l) as ->.
        { rewrite El. apply (without_split t [] l). done. }
        eapply sim_bind; [|apply sim_ret]. unfold a1. eapply Wake_sim; [done|exact Hst|exact Hk|done]. }
      eapply sim_bind; [exact Hround|]. cbn beta iota.
      specialize (IH a1). rewrite El1 in IH. apply IH; [done|set_solver|by apply a_wake_known_cur| |cbn in Hn; lia].
      intros u Hu. rewrite El1 in Hu. assert (u <> t) as Hut by set_solver. unfold a1.
      rewrite a_wake_deadline, a_wake_status, a_wake_ready by done. apply (Hd u). rewrite El. set_solver.
    + unfold next_deadline. rewrite El. intros s Hs. exists s. split; [|done].
      destruct (rep_known _ _ t Hs) as [i Hi]; [right; rewrite El; set_solver|].
      destruct (rep_tcb _ _ t i Hs Hi) as (c & Hc & _ & Ec).
      assert (deadline_of a t = Sleep_Deadline c) as Ed by (unfold deadline_of; rewrite Hi; by subst i).
      unfold bindM at 1, sleeper_round. rewrite (rep_sleep_head _ _ Hs), El. cbn [hd]. rewrite (proj2 (Z.eqb_neq t 0)) by done.
      unfold bindM. rewrite Hc, <- Ed. rewrite (proj2 (Z.leb_gt _ _)) by lia. done.
Qed.

Lemma Check_Sleepers_sim h now a :
  known_cur a -> due_ok now a -> sim (Check_Sleepers h now) a (next_deadline (a_check now a)) (a_check now a).
Proof.
  intros Hk Hd s Hs. unfold Check_Sleepers. apply check_loop; try done.
  - apply (rep_nodup_sleep _ _ Hs).
  - apply (rep_sleep_nz _ _ Hs).
  - pose proof (seg_size _ _ _ _ _ _ (rep_nodup_sleep _ _ Hs) (rep_sleep _ _ Hs)). lia.
Qed.

Lemma Next_Timer_Deadline_sim h now a :
  known_cur a -> due_ok now a ->
  sim (Next_Timer_Deadline h now) a (Z.min (u64 (now + Quantum_Interval)) (next_deadline (a_check now a))) (a_check now a).
Proof. intros Hk Hd. eapply sim_bind; [by apply Check_Sleepers_sim|apply sim_ret]. Qed.

Lemma timer_sim v a : sim (modifyM (set_timer v)) a tt a.
Proof. intros s Hs. eexists. split; [done|]. destruct Hs. by split. Qed.

Definition insert_sleeper t a : asched X :=
  with_sleep (early a (deadline_of a t) (a_sleep a) ++ t :: late a (deadline_of a t) (a_sleep a)) a.

Definition a_sleep_until h (deadline now : Z) a : asched X :=
  if deadline <=? now then a
  else
    let t := cur a h in
    a_block h Blocked_Sleeping (a_check now (insert_sleeper t (set_info t (i_set_deadline deadline) a))).

Lemma a_checks_cur now l : forall a, a_cur (a_checks now l a) = a_cur a.
Proof. induction l as [|t l IH]; intros a; [done|]. cbn. case_match; [|done]. by rewrite IH, a_wake_cur. Qed.

Lemma a_checks_known now l : forall a u, is_Some (a_info (a_checks now l a) !! u) <-> is_Some (a_info a !! u).
Proof. induction l as [|t l IH]; intros a u; [done|]. cbn. case_match; [|done]. rewrite IH, a_wake_known. done. Qed.

(** A check leaves the threads alone that do not sleep or are not due. *)
Lemma a_checks_other now l : forall a u,
  (u ∈ l -> now < deadline_of a u) ->
  a_info (a_checks now l a) !! u = a_info a !! u /\ (u ∈ a_ready (a_checks now l a) <-> u ∈ a_ready a).
Proof.
  induction l as [|t l IH]; intros a u Hu; [done|]. cbn. destruct (Z.leb_spec (deadline_of a t) now) as [Hle|Hgt]; [|done].
  assert (u <> t) as Hne by (intros ->; specialize (Hu ltac:(set_solver)); lia).
  destruct (IH (a_wake t (with_sleep l a)) u) as [E1 E2].
  { intros H. rewrite a_wake_deadline. apply Hu. set_solver. }
  rewrite E1, E2, a_wake_ready, a_wake_info by done. split; [|done]. by repeat case_match.
Qed.

Lemma elem_of_insert_sleeper t a u : u ∈ a_sleep (insert_sleeper t a) <-> u = t \/ u ∈ a_sleep a.
Proof.
  unfold insert_sleeper. fields. rewrite <- (early_late a (deadline_of a t) (a_sleep a)) at 3.
  set_solver.
Qed.

Lemma Sleep_Until_sim h deadline now a :
  cur a h <> 0 -> is_Some (a_info a !! cur a h) -> cur a h ∉ a_ready a -> cur a h ∉ a_sleep a ->
  known_cur a -> due_ok now a ->
  sim (Sleep_Until h deadline now) a Sched_Ok (a_sleep_until h deadline now a).
Proof.
  intros H0 [i Hi] Hr Hsl Hk Hd s Hs. unfold Sleep_Until, a_sleep_until. rewrite !(rep_current s a h Hs), (proj2 (Z.eqb_neq _ 0)) by done.
  destruct (Z.leb_spec deadline now) as [Hle|Hgt]; [by exists s|]. cbv zeta. eapply sim_at; [|exact Hs]. clear s Hs.
  set (t := cur a h) in *. set (a1 := set_info t (i_set_deadline deadline) a).
  eapply sim_bind; [apply upd_deadline_sim; by exists i|]. fold a1.
  assert (a_info a1 !! t = Some (i_set_deadline deadline i)) as Hi1 by (unfold a1; fields; by rewrite lookup_alter_eq, Hi).
  assert (deadline_of a1 t = deadline) as Ed by (unfold deadline_of; by rewrite Hi1).
  assert (forall u, u <> t -> deadline_of a1 u = deadline_of a u /\ status_of a1 u = status_of a u) as Hoth.
  { intros u Hu. unfold deadline_of, status_of, a1. fields. by rewrite lookup_alter_ne. }
  eapply sim_bind with (r := tt) (a1 := insert_sleeper t a1).
  { unfold insert_sleeper. rewrite Ed. by apply (Insert_Sleeper_sim t (i_set_deadline deadline i) a1). }
  assert (known_cur (insert_sleeper t a1)) as Hk1 by by apply (known_cur_info a).
  assert (due_ok now (insert_sleeper t a1)) as Hd1.
  { intros u Hu Hdl. apply elem_of_insert_sleeper in Hu. change (deadline_of (insert_sleeper t a1) u) with (deadline_of a1 u) in Hdl.
    change (status_of (insert_sleeper t a1) u) with (status_of a1 u). change (a_ready (insert_sleeper t a1)) with (a_ready a).
    assert (u <> t) as Hut by (intros ->; lia). destruct (Hoth u Hut) as [E1 E2]. rewrite E2. apply Hd; [|lia]. by destruct Hu. }
  eapply sim_bind; [by apply Next_Timer_Deadline_sim|]. eapply sim_bind; [apply timer_sim|].
  set (a2 := a_check now (insert_sleeper t a1)).
  destruct (a_checks_other now (a_sleep (insert_sleeper t a1)) (insert_sleeper t a1) t) as [E1 E2].
  { intros _. change (deadline_of (insert_sleeper t a1) t) with (deadline_of a1 t). lia. }
  fold (a_check now (insert_sleeper t a1)) in E1, E2. fold a2 in E1, E2.
  assert (cur a2 h = t) as Ec by (unfold cur, a2, a_check; by rewrite a_checks_cur).
  rewrite <- Ec in H0. apply Block_Current_sim; rewrite ?Ec.
  - by rewrite Ec in H0.
  - rewrite E1. by eexists.
  - rewrite E2. exact Hr.
Qed.

Definition a_add t a : asched X := with_ready (a_ready a ++ [t]) (set_info t (i_set_status Ready) a).

Lemma Add_Task_sim h t a :
  t <> 0 -> is_Some (a_info a !! t) -> t ∉ a_ready a -> known_cur a -> sim (Add_Task h t) a Sched_Ok (a_add t a).
Proof.
  intros H0 [i Hi] Hr Hk. unfold Add_Task. rewrite (proj2 (Z.eqb_neq t 0)) by done.
  eapply sim_bind; [apply upd_status_sim; [by exists i|done]|].
  eapply (Push_sim h t true false (set_info t (i_set_status Ready) a)); [fields; by rewrite lookup_alter_eq, Hi|done|done|].
  by apply known_cur_info.
Qed.

(** ** Preemption *)

Definition queued_wins (w : info X -> bool) a : bool :=
  existsb (fun t => match a_info a !! t with Some i => negb (bool_decide (i_status i = Dead)) && w i | None => false end) (a_ready a).

Lemma preempt_loop (wins : tcb X -> bool) (w : info X -> bool) a s : (forall c, wins c = w (core c)) -> rep s a ->
  forall rest k n, a_ready a = k ++ rest -> (length rest < n)%nat ->
  iterM n (preempt_round wins) (hd 0 rest) s = Done (queued_wins w (with_ready rest a)) s.
Proof.
  intros Hw Hs. induction rest as [|u rest IH]; intros k [|n] Ha Hn; cbn in Hn; try lia; cbn [iterM]; [done|].
  assert (u <> 0) as Hu by (pose proof (rep_ready_nz _ _ Hs) as H0; rewrite Ha in H0; set_solver).
  destruct (rep_known _ _ u Hs) as [i Hi]; [left; rewrite Ha; set_solver|].
  destruct (rep_tcb _ _ u i Hs Hi) as (c & Hc & Hm & Ec).
  assert (Rdy_Next c = hd 0 rest) as Hnx.
  { pose proof (rep_ready _ _ Hs) as Hq. rewrite Ha in Hq. apply seg_app in Hq as [_ [(e & He & _ & ?) _]]. congruence. }
  unfold preempt_round at 1. cbn [hd]. rewrite (proj2 (Z.eqb_neq u 0)) by done.
  unfold bindM at 1 2. rewrite Hc, Hnx, Hw, Ec. unfold queued_wins. fields. cbn [existsb]. rewrite Hi.
  assert (Status c = i_status i) as -> by by subst i. destruct (negb _ && w i); [done|].
  cbn [orb]. unfold retM at 1. apply (IH (k ++ [u])); [by rewrite <- app_assoc|lia].
Qed.

Definition a_should_preempt h a : bool :=
  runs a h && match a_info a !! cur a h with Some j => queued_wins (fun i => i_priority j <? i_priority i) a | None => false end.
Definition a_should_boost_preempt h a : bool :=
  runs a h && match a_info a !! cur a h with
              | Some j => negb (i_boosted j) && queued_wins (fun i => i_boosted i && (i_priority j <=? i_priority i)) a
              | None => false end.

Lemma preempt_walk (wins : tcb X -> bool) (w : info X -> bool) a s :
  (forall c, wins c = w (core c)) -> rep s a ->
  iterM (S (size (threads s))) (preempt_round wins) (Ready_Head s) s = Done (queued_wins w a) s.
Proof.
  intros Hw Hs. rewrite (rep_head _ _ Hs), (preempt_loop wins w a s Hw Hs (a_ready a) []); [by destruct a|done|].
  pose proof (seg_size _ _ _ _ _ _ (rep_nodup _ _ Hs) (rep_ready _ _ Hs)). lia.
Qed.

Lemma Should_Preempt_sim h a : hart_ok a h -> sim (Should_Preempt h) a (a_should_preempt h a) a.
Proof.
  intros [Hk _] s Hs. exists s. split; [|done]. unfold Should_Preempt, a_should_preempt, runs. rewrite !(rep_current s a h Hs).
  destruct (Z.eqb_spec (cur a h) 0) as [E|E]; cbn [negb andb]; [done|].
  destruct (Hk E) as [i Hi]. destruct (rep_tcb _ _ _ _ Hs Hi) as (c & Hc & _ & Ec). rewrite Hi.
  assert (bool_decide (Status c = Running) = bool_decide (status_of a (cur a h) = Some Running)) as <-.
  { apply bool_decide_ext. unfold status_of. rewrite Hi. subst i. cbn. split; congruence. }
  unfold bindM. rewrite Hc. case_bool_decide; cbn [negb andb]; [|done].
  apply preempt_walk; [|done]. intros d. by subst i.
Qed.

Lemma Should_Boost_Preempt_sim h a : hart_ok a h -> sim (Should_Boost_Preempt h) a (a_should_boost_preempt h a) a.
Proof.
  intros [Hk _] s Hs. exists s. split; [|done]. unfold Should_Boost_Preempt, a_should_boost_preempt, runs. rewrite !(rep_current s a h Hs).
  destruct (Z.eqb_spec (cur a h) 0) as [E|E]; cbn [negb andb]; [done|].
  destruct (Hk E) as [i Hi]. destruct (rep_tcb _ _ _ _ Hs Hi) as (c & Hc & _ & Ec). rewrite Hi.
  assert (bool_decide (Status c = Running) = bool_decide (status_of a (cur a h) = Some Running)) as <-.
  { apply bool_decide_ext. unfold status_of. rewrite Hi. subst i. cbn. split; congruence. }
  assert (Boosted c = i_boosted i) as Eb by by subst i.
  unfold bindM. rewrite Hc, Eb. case_bool_decide; cbn [negb andb orb]; [|done]. destruct (i_boosted i); cbn [negb andb]; [done|].
  apply preempt_walk; [|done]. intros d. by subst i.
Qed.

End ops.
