(* ===== verification/KTrap.v ===== *)
(** * Traps and the scheduler

    How the trap handler ([arch-traps.adb]) and the ends of threads
    ([kernel-processes.adb]) drive the scheduler.  Every trap runs under the
    kernel lock from its entry to its return, so that a trap is one step.

    [resumes] is the thread into whose context each hart returns at the end of
    its trap, 0 for a hart in [Idle_Loop].  What a system call does besides
    scheduling is here only as the list of threads it wakes. *)
From S2P Require Import Prelude CInt KSched.

Record machine (X : Type) := Machine { ksched : sched X; resumes : list Z }.
Arguments Machine {X}. Arguments ksched {X}. Arguments resumes {X}.

Section trap.
Context {X : Type}.
Implicit Types (h : nat) (t : Z).

Definition on_sched {A} (op : M (sched X) A) : M (machine X) A := fun m =>
  match op (ksched m) with
  | Done r s => Done r (Machine s (resumes m))
  | Blocked s => Blocked (Machine s (resumes m))
  end.
Definition resume h t : M (machine X) unit :=
  modifyM (fun m => Machine (ksched m) (<[h := t]> (resumes m))).
Definition resumed (m : machine X) h : Z := nth h (resumes m) 0.
Definition current (m : machine X) h : Z := current_of (ksched m) h.

(** ** Returning from a trap *)

Definition Restore_Scheduled_Context h (result : sched_status) : M (machine X) unit := fun m =>
  if bool_decide (result = Sched_Ok) && negb (current m h =? 0) then
    (let* c := on_sched (tcb_of (current m h)) in
     if negb (Kernel_Stack_Top c =? 0) then resume h (current m h) else retM tt) m
  else Done tt m.

Definition Schedule_Saved_Context h : M (machine X) unit :=
  let* result := on_sched (Yield h) in
  fun m =>
    if negb (bool_decide (result = Queue_Empty))
       && (negb (bool_decide (result = Sched_Ok)) || negb (current m h =? 0))
    then Restore_Scheduled_Context h result m
    else resume h 0 m.

(** [SPP] is set when the trap came from the idle loop. *)
Definition Handle_Preemption h : M (machine X) unit := fun m =>
  if (current m h =? 0) || (resumed m h =? 0) then Done tt m else Schedule_Saved_Context h m.

Definition set_next_timer h (now : Z) : M (machine X) unit :=
  let* d := on_sched (Next_Timer_Deadline h now) in on_sched (modifyM (set_timer d)).

Fixpoint wake_all h (ws : list Z) : M (machine X) unit :=
  match ws with
  | [] => retM tt
  | t :: ws' => let* _ := on_sched (Wake h t) in wake_all h ws'
  end.

(** The idle loop looks for pending interrupts itself; the first hart handles
    a pending external one, which wakes [ws]. *)
Definition Poll_Pending_Interrupts h (ws : list Z) : M (machine X) unit :=
  if (h =? 0)%nat then wake_all h ws else retM tt.

(** One round of [Idle_Loop]; [ws] are the threads that a pending external
    interrupt wakes and [now] is the time at its end. *)
Definition idle_round h (ws : list Z) (now : Z) : M (machine X) unit :=
  let* result := on_sched (Yield h) in
  fun m =>
    if bool_decide (result = Sched_Ok) && negb (current m h =? 0) then
      (let* c := on_sched (tcb_of (current m h)) in
       if negb (Kernel_Stack_Top c =? 0) then resume h (current m h)
       else Poll_Pending_Interrupts h ws ;; set_next_timer h now) m
    else (Poll_Pending_Interrupts h ws ;; set_next_timer h now) m.

(** ** Interrupts *)

Definition timer_interrupt h (now : Z) : M (machine X) unit :=
  set_next_timer h now ;; Handle_Preemption h.

Definition software_interrupt h : M (machine X) unit :=
  let* p := on_sched (Should_Preempt h) in if p : bool then Handle_Preemption h else retM tt.

Definition external_interrupt h (ws : list Z) : M (machine X) unit :=
  wake_all h ws ;;
  let* p := on_sched (Should_Preempt h) in
  let* p := if p : bool then retM true
            else fun m => if (Configured (ksched m) <=? 1)%nat then on_sched (Should_Boost_Preempt h) m else Done false m in
  if p : bool then Handle_Preemption h else retM tt.

(** ** System calls *)

(** Every handler but that of [Sys_Yield] gives up when the hart has no
    current thread. *)
Definition with_caller h (op : Z -> M (machine X) unit) : M (machine X) unit := fun m =>
  if current m h =? 0 then Done tt m else op (current m h) m.

(** The tail of [Handle_Syscall], after a call that did not reschedule. *)
Definition syscall_tail h (entering : Z) : M (machine X) unit := fun m =>
  if current m h =? entering then
    (let* p := on_sched (Should_Preempt h) in if p : bool then Schedule_Saved_Context h else retM tt) m
  else Done tt m.

(** A call that wakes [ws] and returns. *)
Definition plain_call h (ws : list Z) : M (machine X) unit :=
  with_caller h (fun t => wake_all h ws ;; syscall_tail h t).

(** The calls that return without the tail: [Handle_IPC_Send],
    [Handle_IPC_Recv] and [Handle_IPC_Call] when they do not block. *)
Definition early_call h (ws : list Z) : M (machine X) unit :=
  with_caller h (fun _ => wake_all h ws).

Definition yield_call h : M (machine X) unit := Schedule_Saved_Context h.

(** A call that blocks: [Handle_IPC_Call], [Handle_IPC_Send],
    [Handle_IPC_Recv], [Handle_IRQ_Wait], [Handle_Ntfn_Wait]. *)
Definition blocking_call h (ws : list Z) (st : Thread_State) : M (machine X) unit :=
  with_caller h (fun t =>
    wake_all h ws ;;
    on_sched (upd_tcb t (set_status st)) ;;
    on_sched (upd_tcb t (set_boosted false)) ;;
    Schedule_Saved_Context h).

(** [Handle_Thread_Wait] on a thread that has not exited. *)
Definition wait_call h : M (machine X) unit :=
  with_caller h (fun _ => let* _ := on_sched (Block_Current h Blocked_Thread_Wait) in Schedule_Saved_Context h).

(** [Handle_Sleep_Until]; the clock is read twice. *)
Definition sleep_call h (deadline now1 now2 : Z) : M (machine X) unit :=
  with_caller h (fun _ =>
    if deadline <=? now1 then retM tt
    else let* _ := on_sched (Sleep_Until h deadline now2) in Schedule_Saved_Context h).

(** [Handle_Set_Priority], of the caller itself or of the first thread of
    another process. *)
Definition priority_call h (target : option Z) (p : Z) : M (machine X) unit :=
  with_caller h (fun c =>
    match target with
    | None => on_sched (upd_tcb c (set_priority p))
    | Some t => on_sched (upd_tcb t (set_priority p)) ;; on_sched (Notify_Work h)
    end ;;
    syscall_tail h c).

(** ** Threads begin and end *)

(** [Initialize_Thread], with the stack and the priority set after it; the
    deadline is whatever the block held. *)
Definition new_thread (p stack d : Z) (x : X) : tcb X :=
  Tcb Ready p false d stack false 0 0 0 0 x.

Definition create_call h t (p stack d : Z) (x : X) : M (machine X) unit :=
  with_caller h (fun c =>
    on_sched (modifyM (fun s => set_threads (<[t := new_thread p stack d x]> (threads s)) s)) ;;
    let* _ := on_sched (Add_Task h t) in
    syscall_tail h c).

(** A thread of the exiting process, in [Mark_Exited]: its stack is given up,
    tearing it down wakes [ws], it is marked dead and, unless it is the
    caller, taken from the scheduler. *)
Definition exit_thread h (self : Z) (e : Z * list Z) : M (machine X) unit :=
  on_sched (upd_tcb e.1 (set_stack 0)) ;;
  wake_all h e.2 ;;
  on_sched (upd_tcb e.1 (set_status Dead) ;; upd_tcb e.1 (set_queued false)) ;;
  (if negb (e.1 =? self) then let* _ := on_sched (Remove_Thread e.1) in retM tt else retM tt).

Fixpoint exit_threads h (self : Z) (es : list (Z * list Z)) : M (machine X) unit :=
  match es with
  | [] => retM tt
  | e :: es' => exit_thread h self e ;; exit_threads h self es'
  end.

(** [Handle_Exit]: the threads of the process, and the threads woken when its
    capabilities are closed. *)
Definition exit_call h (es : list (Z * list Z)) (ws : list Z) : M (machine X) unit :=
  with_caller h (fun c =>
    exit_threads h c es ;;
    wake_all h ws ;;
    let* r := on_sched (Exit_Current h) in
    if negb (bool_decide (r = Sched_Ok)) then retM tt else Schedule_Saved_Context h).

(** [Handle_Thread_Exit] *)
Definition thread_exit_call h (ws : list Z) : M (machine X) unit :=
  with_caller h (fun c =>
    on_sched (upd_tcb c (set_stack 0)) ;;
    wake_all h ws ;;
    on_sched (upd_tcb c (set_status Dead) ;; upd_tcb c (set_queued false)) ;;
    let* _ := on_sched (Remove_Thread c) in
    Schedule_Saved_Context h).

(** ** Steps *)

Inductive trap : Type :=
  | Timer (now : Z)
  | Software
  | External (ws : list Z)
  | Plain_Call (ws : list Z)
  | Early_Call (ws : list Z)
  | Yield_Call
  | Blocking_Call (ws : list Z) (st : Thread_State)
  | Wait_Call
  | Sleep_Call (deadline now1 now2 : Z)
  | Priority_Call (target : option Z) (p : Z)
  | Create_Call (t p stack d : Z) (x : X)
  | Exit_Call (es : list (Z * list Z)) (ws : list Z)
  | Thread_Exit_Call (ws : list Z)
  | Idle (ws : list Z) (now : Z).

Definition take_trap h (e : trap) : M (machine X) unit :=
  match e with
  | Timer now => timer_interrupt h now
  | Software => software_interrupt h
  | External ws => external_interrupt h ws
  | Plain_Call ws => plain_call h ws
  | Early_Call ws => early_call h ws
  | Yield_Call => yield_call h
  | Blocking_Call ws st => blocking_call h ws st
  | Wait_Call => wait_call h
  | Sleep_Call d n1 n2 => sleep_call h d n1 n2
  | Priority_Call t p => priority_call h t p
  | Create_Call t p stack d x => create_call h t p stack d x
  | Exit_Call es ws => exit_call h es ws
  | Thread_Exit_Call ws => thread_exit_call h ws
  | Idle ws now => idle_round h ws now
  end.

Fixpoint take_traps (es : list (nat * trap)) : M (machine X) unit :=
  match es with
  | [] => retM tt
  | e :: es' => take_trap e.1 e.2 ;; take_traps es'
  end.

(** ** Histories *)

(** What holds of a trap when it happens: interrupts and calls come from a
    hart that returned into a thread and [Idle] from one that did not; the
    threads a call names exist, and a new thread takes a control block that is
    not in use. *)
Definition known (m : machine X) t : bool := bool_decide (is_Some (threads (ksched m) !! t)).
Definition unused (m : machine X) t : bool :=
  match threads (ksched m) !! t with None => true | Some c => bool_decide (Status c = Dead) end.
Definition may_block (st : Thread_State) : bool :=
  match st with Ready | Running | Dead | Blocked_Sleeping => false | _ => true end.

Definition legal h (e : trap) (m : machine X) : bool :=
  (h <? Max_CPUs)%nat &&
  match e with Idle _ _ => resumed m h =? 0 | _ => negb (resumed m h =? 0) end &&
  match e with
  | External ws | Plain_Call ws | Early_Call ws | Thread_Exit_Call ws | Idle ws _ => forallb (known m) ws
  | Blocking_Call ws st => forallb (known m) ws && may_block st
  | Priority_Call (Some t) _ => known m t
  | Create_Call t _ stack _ _ => negb (t =? 0) && negb (stack =? 0) && unused m t
  | Exit_Call es ws => forallb (fun e => known m e.1 && forallb (known m) e.2) es && forallb (known m) ws
  | _ => true
  end.

(** Something holds at each trap of a history. *)
Fixpoint at_each (P : nat -> trap -> machine X -> bool) (es : list (nat * trap)) (m : machine X) : bool :=
  match es with
  | [] => true
  | e :: es' => P e.1 e.2 m &&
                match take_trap e.1 e.2 m with Done _ m' => at_each P es' m' | Blocked _ => true end
  end.
Definition legal_run : list (nat * trap) -> machine X -> bool := at_each legal.

(** No process exits on one hart while another hart runs one of its threads. *)
Definition only_on (m : machine X) h t : bool :=
  forallb (fun k => (k =? h)%nat || negb (nth k (Current_TCBS (ksched m)) 0 =? t))
          (seq 0 (length (Current_TCBS (ksched m)))).
Definition orderly h (e : trap) (m : machine X) : bool :=
  match e with Exit_Call es _ => forallb (fun e => only_on m h e.1) es | _ => true end.
Definition orderly_run : list (nat * trap) -> machine X -> bool := at_each orderly.

(** The machine when the first thread is entered: [Initialize] and
    [Set_Current] of the scheduler, then the first hart in the thread and the
    others in their idle loops. *)
Definition boot_sched t (p stack d : Z) (x : X) (n : nat) (ids : list (Z * bool)) : sched X :=
  Sched {[t := new_thread p stack d x]} 0 0 0 0 [] n ids [] 0.
Definition boot t (p stack d : Z) (x : X) (n : nat) (ids : list (Z * bool)) : outcome (machine X) unit :=
  (on_sched Sched_Initialize ;;
   let* _ := on_sched (Set_Current 0 t) in
   modifyM (fun m => Machine (ksched m) (<[0%nat := t]> (replicate Max_CPUs 0))))
  (Machine (boot_sched t p stack d x n ids) []).

End trap.
Arguments trap : clear implicits.
