(* ===== verification/KTrapSpec.v ===== *)
(** * Every thread is somewhere

    The invariant of the scheduler between traps: [ok] says where a thread is
    from its state, [loose] the same in the middle of a trap of hart [h],
    whose own thread may already be blocked or dead and whose dead threads may
    still be linked in the ready queue. *)
From Stdlib Require Import Sorted.
From S2P Require Import Prelude CInt KSched KSchedSpec KSchedOps KTrap.

Section spec.
Context {X : Type}.
Implicit Types (i : info X) (a : asched X) (t : Z) (h : nat) (ds es : list Z) (Q : Thread_State -> Prop).

Definition by_deadline a : relation Z := fun t u => deadline_of a t <= deadline_of a u.

(** The thread of [h] is in a state of [Q]; the threads [ds] have given up
    their stack; the threads [es] are in the sleep queue and still running. *)
Record loose h ds es Q a : Prop := {
  l_null : a_info a !! 0 = None;
  l_ready : forall t, status_of a t = Some Ready -> t ∈ a_ready a;
  l_queue : forall t, t ∈ a_ready a -> status_of a t = Some Ready \/ status_of a t = Some Dead;
  l_runs : forall t, status_of a t = Some Running -> exists k, a_cur a !! k = Some t;
  l_other : forall k t, a_cur a !! k = Some t -> t <> 0 -> k <> h -> status_of a t = Some Running;
  l_mine : forall t, a_cur a !! h = Some t -> t <> 0 -> exists st, status_of a t = Some st /\ Q st;
  l_once : forall k k' t, a_cur a !! k = Some t -> a_cur a !! k' = Some t -> t <> 0 -> k = k';
  l_sleep : forall t, t ∈ a_sleep a <-> status_of a t = Some Blocked_Sleeping \/ t ∈ es;
  l_sorted : StronglySorted (by_deadline a) (a_sleep a);
  l_stack : forall t i, a_info a !! t = Some i -> i_status i <> Dead -> t ∉ ds -> i_stack i <> 0;
  l_fresh : forall t i, a_info a !! t = Some i -> i_status i = Running -> i_boosted i = false;
  l_harts : length (a_cur a) = Max_CPUs }.

Record ok a : Prop := {
  ok_null : a_info a !! 0 = None;
  ok_ready : forall t, t ∈ a_ready a <-> status_of a t = Some Ready;
  ok_runs : forall t, status_of a t = Some Running <-> t <> 0 /\ t ∈ a_cur a;
  ok_once : forall k k' t, a_cur a !! k = Some t -> a_cur a !! k' = Some t -> t <> 0 -> k = k';
  ok_sleep : forall t, t ∈ a_sleep a <-> status_of a t = Some Blocked_Sleeping;
  ok_sorted : StronglySorted (by_deadline a) (a_sleep a);
  ok_stack : forall t i, a_info a !! t = Some i -> i_status i <> Dead -> i_stack i <> 0;
  ok_fresh : forall t i, a_info a !! t = Some i -> i_status i = Running -> i_boosted i = false;
  ok_harts : length (a_cur a) = Max_CPUs }.

Definition awake (st : Thread_State) : Prop := st = Running \/ st = Dead.

Lemma ok_loose h a : ok a -> loose h [] [] awake a.
Proof.
  intros [H1 H2 H3 H4 H5 H6 H7 H8 H9]. split; try done.
  - intros t Ht. by apply H2.
  - intros t Ht. left. by apply H2.
  - intros t [_ Ht]%H3. by apply list_elem_of_lookup in Ht.
  - intros k t Hk Ht _. apply H3. split; [done|]. by apply list_elem_of_lookup_2 in Hk.
  - intros t Hk Ht. exists Running. split; [|by left]. apply H3. split; [done|]. by apply list_elem_of_lookup_2 in Hk.
  - intros t. rewrite H5. set_solver.
  - intros t i Hi Hs _. by apply (H7 t i).
Qed.

Lemma loose_weaken h ds es Q Q' a : (forall st, Q st -> Q' st) -> loose h ds es Q a -> loose h ds es Q' a.
Proof. intros HQ []. split; try done. intros t Ht H0. destruct (l_mine0 t Ht H0) as (st & Hs & Hq). eauto. Qed.

Lemma loose_not_mine h ds es Q a t st :
  loose h ds es Q a -> status_of a t = Some st -> (forall st, Q st -> blocked st = false) -> blocked st = true ->
  forall k, a_cur a !! k <> Some t.
Proof.
  intros HL Hst HQ Hb k Hk.
  assert (t <> 0) as Ht0 by (intros ->; unfold status_of in Hst; by rewrite (l_null _ _ _ _ _ HL) in Hst).
  destruct (decide (k = h)) as [->|Hne].
  - destruct (l_mine _ _ _ _ _ HL t Hk Ht0) as (st' & Hst' & Hq). apply HQ in Hq. congruence.
  - pose proof (l_other _ _ _ _ _ HL k t Hk Ht0 Hne) as E. rewrite Hst in E. injection E as ->. done.
Qed.

(** ** Changes that keep the order of the sleepers *)

Lemma sorted_ext a a' l :
  (forall t, t ∈ l -> deadline_of a' t = deadline_of a t) -> StronglySorted (by_deadline a) l -> StronglySorted (by_deadline a') l.
Proof.
  intros Hd. induction 1 as [|t l Hl IH Hf]; [constructor|]. constructor.
  - apply IH. intros u Hu. apply Hd. set_solver.
  - rewrite Forall_forall in Hf |- *. intros u Hu. unfold by_deadline. rewrite !Hd by set_solver. by apply Hf.
Qed.

Lemma sorted_without a t l : StronglySorted (by_deadline a) l -> StronglySorted (by_deadline a) (without t l).
Proof.
  induction 1 as [|u l Hl IH Hf]; [constructor|]. unfold without. rewrite filter_cons. fold (without t l).
  case_decide; [|done]. constructor; [done|]. rewrite Forall_forall in Hf |- *. intros v Hv. apply Hf.
  unfold without in Hv. by apply list_elem_of_filter in Hv as [_ ?].
Qed.

Lemma elem_of_without t u l : u ∈ without t l <-> u <> t /\ u ∈ l.
Proof. unfold without. by rewrite list_elem_of_filter. Qed.

Lemma status_set_info a t g u :
  status_of (set_info t g a) u = if decide (u = t) then (fun i => i_status (g i)) <$> a_info a !! u else status_of a u.
Proof. unfold status_of. rewrite info_set_info. case_decide; [|done]. by destruct (a_info a !! u). Qed.

Lemma deadline_set_info a t g u : (forall i, i_deadline (g i) = i_deadline i) -> deadline_of (set_info t g a) u = deadline_of a u.
Proof. intros Hg. unfold deadline_of. rewrite info_set_info. case_decide; [|done]. destruct (a_info a !! u); cbn; [by rewrite Hg|done]. Qed.

(** ** Waking *)

Lemma wake_status t a u st :
  status_of a t = Some st -> blocked st = true ->
  status_of (a_wake t a) u = if decide (u = t) then Some Ready else status_of a u.
Proof.
  intros Hst Hb. unfold status_of at 1. rewrite a_wake_info, Hst, Hb. case_decide as E; [|done]. subst.
  unfold status_of in Hst. by destruct (a_info a !! t).
Qed.

Lemma wake_loose h ds es Q a t :
  (forall st, Q st -> blocked st = false) -> (forall u, u ∈ es -> status_of a u = Some Running) -> loose h ds es Q a -> loose h ds es Q (a_wake t a).
Proof.
  intros HQ Hes HL. destruct (status_of a t) as [st|] eqn:Hst; [|by unfold a_wake; rewrite Hst].
  destruct (blocked st) eqn:Hb; [|by unfold a_wake; rewrite Hst, Hb].
  pose proof (loose_not_mine h ds es Q a t st HL Hst HQ Hb) as Hnc.
  assert (Hs : forall u, status_of (a_wake t a) u = if decide (u = t) then Some Ready else status_of a u)
    by (intros u; by eapply wake_status).
  assert (Hr : a_ready (a_wake t a) = t :: a_ready a) by (unfold a_wake; by rewrite Hst, Hb).
  assert (Hsl : a_sleep (a_wake t a) = without t (a_sleep a)).
  { unfold a_wake. rewrite Hst, Hb. cbn. case_bool_decide as E; [done|]. symmetry. apply without_off.
    rewrite (l_sleep _ _ _ _ _ HL). intros [?|H%Hes]; [congruence|]. rewrite Hst in H. injection H as ->. done. }
  assert (Hi : forall u i, a_info (a_wake t a) !! u = Some i -> u <> t -> a_info a !! u = Some i).
  { intros u i H Hu. rewrite a_wake_info, Hst, Hb in H. by rewrite decide_False in H. }
  destruct HL. split; rewrite ?a_wake_cur, ?Hr, ?Hsl; try done.
  - apply eq_None_not_Some. rewrite a_wake_known. by rewrite <- eq_None_not_Some.
  - intros u Hu. rewrite Hs in Hu. case_decide; [subst; set_solver|]. right. by apply l_ready0.
  - intros u Hu. rewrite Hs. case_decide; [by left|]. apply l_queue0. set_solver.
  - intros u Hu. rewrite Hs in Hu. case_decide; [done|]. by apply l_runs0.
  - intros k u Hk H0 Hne. rewrite Hs. case_decide; [subst; by apply Hnc in Hk|]. by eapply l_other0.
  - intros u Hk H0. rewrite Hs. case_decide; [subst; by apply Hnc in Hk|]. by apply l_mine0.
  - intros u. rewrite elem_of_without, l_sleep0, Hs. case_decide as E; [|naive_solver]. subst u. split; [naive_solver|].
    intros [?|Hu]; [done|]. apply Hes in Hu. rewrite Hst in Hu. by injection Hu as ->.
  - apply sorted_without. eapply sorted_ext; [|exact l_sorted0]. intros u _. apply a_wake_deadline.
  - intros u i H Hd Hds. destruct (decide (u = t)) as [->|Hne].
    + rewrite a_wake_info, Hst, Hb, decide_True in H by done. apply fmap_Some in H as (j & Hj & ->). cbn.
      apply (l_stack0 t j); [done| |done]. unfold status_of in Hst. rewrite Hj in Hst. injection Hst as <-. by destruct (i_status j).
    + apply (l_stack0 u i); [by apply Hi|done|done].
  - intros u i H Hrun. destruct (decide (u = t)) as [->|Hne].
    + rewrite a_wake_info, Hst, Hb, decide_True in H by done. apply fmap_Some in H as (j & Hj & ->). done.
    + apply (l_fresh0 u i); [by apply Hi|done].
Qed.

Definition a_wakes (ws : list Z) a : asched X := fold_left (fun a t => a_wake t a) ws a.

Lemma wakes_loose h ds Q ws : (forall st, Q st -> blocked st = false) -> forall a, loose h ds [] Q a -> loose h ds [] Q (a_wakes ws a).
Proof. intros HQ. induction ws as [|t ws IH]; intros a Ha; [done|]. apply IH. apply wake_loose; [done| |done]. set_solver. Qed.

Lemma awake_not_blocked st : awake st -> blocked st = false.
Proof. by intros [->| ->]. Qed.

(** ** Sleepers *)

Lemma wake_head t l a :
  a_sleep a = t :: l -> t ∉ l -> status_of a t = Some Blocked_Sleeping -> a_wake t (with_sleep l a) = a_wake t a.
Proof.
  intros El Hl Hst. unfold a_wake. change (status_of (with_sleep l a) t) with (status_of a t). rewrite Hst. cbn [blocked].
  rewrite bool_decide_eq_true_2 by done. rewrite El. unfold without. rewrite filter_cons_False by auto. done.
Qed.

Lemma check_loose h ds es Q now a :
  (forall st, Q st -> blocked st = false) -> NoDup (a_sleep a) ->
  (forall u, u ∈ es -> status_of a u = Some Running /\ now < deadline_of a u) ->
  loose h ds es Q a -> loose h ds es Q (a_check now a).
Proof.
  intros HQ. unfold a_check. remember (a_sleep a) as l eqn:El. revert a El.
  induction l as [|t l IH]; intros a El Hn Hes HL; [done|]. cbn [a_checks].
  destruct (Z.leb_spec (deadline_of a t) now) as [Hle|_]; [|done]. apply NoDup_cons in Hn as [Ht Hn].
  assert (t ∉ es) as Hte by (intros [_ H]%Hes; lia).
  assert (status_of a t = Some Blocked_Sleeping) as Hst.
  { destruct (proj1 (l_sleep _ _ _ _ _ HL t)) as [?|?]; [rewrite <- El; set_solver|done..]. }
  apply IH; [symmetry; by apply a_wake_sleeper|done| |]; rewrite (wake_head t l a) by done.
  - intros u Hu. destruct (Hes u Hu). rewrite a_wake_deadline, a_wake_status; [done|]. by intros ->.
  - apply wake_loose; [done| |done]. intros u Hu. by apply Hes.
Qed.

Lemma check_late now a : StronglySorted (by_deadline a) (a_sleep a) -> NoDup (a_sleep a) ->
  (forall t, t ∈ a_sleep a -> status_of a t = Some Blocked_Sleeping) ->
  forall t, t ∈ a_sleep (a_check now a) -> now < deadline_of (a_check now a) t.
Proof.
  unfold a_check. remember (a_sleep a) as l eqn:El. revert a El.
  induction l as [|t l IH]; intros a El Hs Hn Hst u; cbn [a_checks]; [rewrite <- El; set_solver|].
  inversion Hs as [|? ? Hsl Hf]; subst. apply NoDup_cons in Hn as [Ht Hn].
  destruct (Z.leb_spec (deadline_of a t) now) as [Hle|Hgt].
  - apply IH.
    + symmetry. apply a_wake_sleeper; [apply Hst; set_solver|done].
    + eapply sorted_ext; [|exact Hsl]. intros v _. rewrite a_wake_deadline. done.
    + done.
    + intros v Hv. rewrite a_wake_status by set_solver. apply Hst. set_solver.
  - rewrite <- El. intros Hu. apply elem_of_cons in Hu as [->|Hu]; [lia|].
    rewrite Forall_forall in Hf. specialize (Hf u Hu). unfold by_deadline in Hf. lia.
Qed.

Lemma loose_known_cur h ds es Q a : loose h ds es Q a -> known_cur a.
Proof.
  intros HL t Ht. destruct (decide (t = 0)) as [->|H0]; [by left|right]. apply list_elem_of_lookup in Ht as [k Hk].
  destruct (decide (k = h)) as [->|Hne].
  - destruct (l_mine _ _ _ _ _ HL t Hk H0) as (st & Hst & _). by eapply status_known.
  - eapply status_known, (l_other _ _ _ _ _ HL); done.
Qed.

Lemma loose_due_ok h ds Q a now : loose h ds [] Q a -> due_ok now a.
Proof.
  intros HL t Ht _. apply (l_sleep _ _ _ _ _ HL) in Ht as [Ht|Ht]; [|set_solver]. split; [done|]. intros Hr.
  destruct (l_queue _ _ _ _ _ HL t Hr); congruence.
Qed.

Lemma cur_lookup a h : cur a h <> 0 -> a_cur a !! h = Some (cur a h).
Proof.
  unfold cur. intros H. destruct (a_cur a !! h) as [t|] eqn:E.
  - by rewrite (nth_lookup_Some _ _ _ _ E).
  - exfalso. apply H. by rewrite nth_lookup, E.
Qed.

Lemma runs_iff a h : runs a h = true <-> cur a h <> 0 /\ status_of a (cur a h) = Some Running.
Proof.
  unfold runs. rewrite andb_true_iff, negb_true_iff, bool_decide_eq_true. by rewrite Z.eqb_neq.
Qed.

Lemma loose_hart_ok h k ds es Q a : loose h ds es Q a -> hart_ok a k.
Proof.
  intros HL. split.
  - intros H0. destruct (loose_known_cur _ _ _ _ _ HL (cur a k)); [|done..].
    apply cur_lookup in H0. by apply list_elem_of_lookup_2 in H0.
  - intros [H0 Hr]%runs_iff Hq. destruct (l_queue _ _ _ _ _ HL _ Hq); congruence.
Qed.

(** ** Scheduling *)

(** Hart [h] has no thread yet. *)
Record vacant h a : Prop := {
  v_null : a_info a !! 0 = None;
  v_ready : forall t, status_of a t = Some Ready -> t ∈ a_ready a;
  v_queue : forall t, t ∈ a_ready a -> status_of a t = Some Ready \/ status_of a t = Some Dead;
  v_runs : forall t, status_of a t = Some Running -> exists k, a_cur a !! k = Some t /\ k <> h;
  v_other : forall k t, a_cur a !! k = Some t -> t <> 0 -> k <> h -> status_of a t = Some Running;
  v_once : forall k k' t, a_cur a !! k = Some t -> a_cur a !! k' = Some t -> t <> 0 -> k = k';
  v_sleep : forall t, t ∈ a_sleep a <-> status_of a t = Some Blocked_Sleeping;
  v_sorted : StronglySorted (by_deadline a) (a_sleep a);
  v_stack : forall t i, a_info a !! t = Some i -> i_status i <> Dead -> i_stack i <> 0;
  v_fresh : forall t i, a_info a !! t = Some i -> i_status i = Running -> i_boosted i = false;
  v_harts : length (a_cur a) = Max_CPUs }.

Lemma info_status a t i : a_info a !! t = Some i -> status_of a t = Some (i_status i).
Proof. intros Hi. unfold status_of. by rewrite Hi. Qed.

Lemma requeue_vacant h a : loose h [] [] (fun st => st <> Ready) a -> vacant h (requeue h a).
Proof.
  intros HL. unfold requeue. destruct (runs a h) eqn:Hr.
  - apply runs_iff in Hr as [H0 Hr]. cbv zeta. set (t := cur a h) in *.
    assert (a_cur a !! h = Some t) as Hc by by apply cur_lookup.
    clearbody t.
    assert (Hs : forall u, status_of (set_info t (i_set_status Ready) a) u = if decide (u = t) then Some Ready else status_of a u).
    { intros u. rewrite status_set_info. case_decide as E; [|done]. rewrite E. unfold status_of in Hr. by destruct (a_info a !! t). }
    destruct HL. split; try change (status_of (with_ready _ ?b)) with (status_of b); try change (a_info (with_ready _ ?b)) with (a_info b); cbn [with_ready a_ready a_cur a_sleep set_info].
    + apply eq_None_not_Some. rewrite (is_Some_set_info a 0 t). by rewrite <- eq_None_not_Some.
    + intros u. rewrite Hs. case_decide; [subst; set_solver|]. intros Hu%l_ready0. set_solver.
    + intros u Hu. rewrite Hs. case_decide; [by left|]. apply l_queue0. set_solver.
    + intros u. rewrite Hs. case_decide; [done|]. intros Hu. destruct (l_runs0 u Hu) as [k Hk]. exists k. split; [done|].
      intros ->. congruence.
    + intros k u Hk Hu Hne. rewrite Hs. case_decide; [|by eapply l_other0]. subst. exfalso. apply Hne. by eapply l_once0.
    + done.
    + intros u. rewrite l_sleep0, Hs. case_decide; [subst u; rewrite Hr; set_solver|set_solver].
    + eapply sorted_ext; [|exact l_sorted0]. intros u _. apply (deadline_set_info a t). done.
    + intros u i Hi Hd. rewrite info_set_info in Hi. case_decide; [|eapply l_stack0; [exact Hi|done|set_solver]].
      subst. apply fmap_Some in Hi as (j & Hj & ->). cbn. apply (l_stack0 t j Hj); [|set_solver].
      apply info_status in Hj. congruence.
    + intros u i Hi Hd. rewrite info_set_info in Hi. case_decide; [|by eapply l_fresh0].
      apply fmap_Some in Hi as (j & Hj & ->). done.
    + done.
  - destruct HL. split; try done.
    + intros u Hu. destruct (l_runs0 u Hu) as [k Hk]. exists k. split; [done|]. intros ->.
      assert (u <> 0) as Hu0 by (intros ->; unfold status_of in Hu; by rewrite l_null0 in Hu).
      assert (cur a h = u) as Ec by (unfold cur; by rewrite (nth_lookup_Some _ _ _ _ Hk)).
      assert (runs a h = true) as E by (apply runs_iff; by rewrite Ec). congruence.
    + intros u. rewrite l_sleep0. set_solver.
    + intros u i Hi Hd. eapply l_stack0; [exact Hi|done|set_solver].
Qed.

Lemma vacant_nz h a : vacant h a -> 0 ∉ a_ready a.
Proof. intros HV H0. destruct (v_queue _ _ HV 0 H0) as [E|E]; unfold status_of in E; by rewrite (v_null _ _ HV) in E. Qed.

(** The best thread is dispatched, or the hart idles. *)
Definition dispatch h a : asched X :=
  let p := a_pop a in
  if p.1 =? 0 then set_cur h 0 p.2 else set_info p.1 (i_set_status Running) (set_cur h p.1 p.2).

Lemma elem_of_alive a t l : t ∈ alive a l <-> ~ is_dead a t /\ t ∈ l.
Proof. unfold alive. by rewrite list_elem_of_filter. Qed.

Lemma vacant_alive h a t : vacant h a -> t ∈ alive a (a_ready a) <-> status_of a t = Some Ready.
Proof.
  intros HV. rewrite elem_of_alive. unfold is_dead. split.
  - intros [Hd Hq]. destruct (v_queue _ _ HV t Hq); [done|congruence].
  - intros Hs. split; [congruence|]. by apply (v_ready _ _ HV).
Qed.

Lemma lookup_set_cur h (l : list Z) v k t : (h < length l)%nat ->
  <[h := v]> l !! k = Some t <-> (k = h /\ t = v) \/ (k <> h /\ l !! k = Some t).
Proof.
  intros Hl. destruct (decide (k = h)) as [->|Hne].
  - rewrite list_lookup_insert_eq by done. naive_solver.
  - rewrite list_lookup_insert_ne by done. naive_solver.
Qed.

Lemma dispatch_none h a : vacant h a -> (h < Max_CPUs)%nat -> (a_pop a).1 = 0 -> ok (dispatch h a).
Proof.
  intros HV Hh E. unfold dispatch. cbv zeta. rewrite (proj2 (Z.eqb_eq _ _) E).
  assert (alive a (a_ready a) = []) as El.
  { apply (choose_zero a); [|exact E]. rewrite elem_of_alive. intros [_ H]. by apply (vacant_nz h a HV). }
  assert ((a_pop a).2 = with_ready [] a) as Ep.
  { unfold a_pop in *. cbv zeta in *. cbn [fst snd] in *. by rewrite E, El. }
  rewrite Ep. pose proof (vacant_alive h a) as Ha. rewrite El in Ha.
  destruct HV. rewrite <- v_harts0 in Hh. unfold set_cur.
  split; cbn [with_cur with_ready a_info a_ready a_sleep a_cur]; try change (status_of (with_cur _ _)) with (status_of a); try done.
  - intros t. rewrite <- Ha; [done|]. by split.
  - intros t. rewrite list_elem_of_lookup. setoid_rewrite lookup_set_cur; [|done]. split.
    + intros Hs. destruct (v_runs0 t Hs) as (k & Hk & Hne). split; [|eauto]. intros ->. unfold status_of in Hs. by rewrite v_null0 in Hs.
    + intros (H0 & k & [[_ ->]|[Hne Hk]]); [done|]. by eapply v_other0.
  - intros k k' t Hk Hk' H0. apply lookup_set_cur in Hk, Hk'; [|done..]. destruct Hk as [[_ ->]|[_ Hk]]; [done|].
    destruct Hk' as [[_ ->]|[_ Hk']]; [done|]. by eapply v_once0.
  - by rewrite length_insert.
Qed.

Lemma dispatch_some h a b : vacant h a -> (h < Max_CPUs)%nat -> (a_pop a).1 = b -> b <> 0 ->
  status_of a b = Some Ready /\ ok (dispatch h a).
Proof.
  intros HV Hh E H0.
  assert (b ∈ alive a (a_ready a)) as Hb.
  { destruct (choose_in a 0 (alive a (a_ready a))) as [E'|E']; unfold a_pop in E; cbv zeta in E; cbn [fst] in E; congruence. }
  assert (status_of a b = Some Ready) as Hst by by apply (vacant_alive h a).
  split; [done|]. unfold dispatch. cbv zeta. rewrite E. rewrite (proj2 (Z.eqb_neq _ _) H0).
  assert ((a_pop a).2 = set_info b (i_set_boosted false) (with_ready (without b (alive a (a_ready a))) a)) as Ep.
  { unfold a_pop in *. cbv zeta in *. cbn [fst snd] in *. rewrite E. by rewrite (proj2 (Z.eqb_neq _ _) H0). }
  rewrite Ep. set (a' := set_info b (i_set_status Running) _).
  assert (Hinf : forall u, a_info a' !! u = if decide (u = b) then i_set_status Running ∘ i_set_boosted false <$> a_info a !! u else a_info a !! u).
  { intros u. unfold a'. rewrite info_set_info. unfold set_cur. cbn [with_cur a_info]. rewrite info_set_info. case_decide; [|done].
    cbn [with_ready a_info]. by destruct (a_info a !! u). }
  assert (Hs : forall u, status_of a' u = if decide (u = b) then Some Running else status_of a u).
  { intros u. unfold status_of at 1. rewrite Hinf. case_decide as Eu; [|done]. rewrite Eu. unfold status_of in Hst. by destruct (a_info a !! b). }
  assert (a_ready a' = without b (alive a (a_ready a)) /\ a_sleep a' = a_sleep a /\ a_cur a' = <[h := b]> (a_cur a)) as (E1 & E2 & E3) by done.
  assert (forall k, a_cur a !! k = Some b -> k = h) as Hnb.
  { intros k Hk. destruct (decide (k = h)); [done|]. pose proof (v_other _ _ HV k b Hk H0 ltac:(done)). congruence. }
  pose proof (vacant_alive h a) as Ha. clearbody a'. destruct HV. rewrite <- v_harts0 in Hh.
  split; rewrite ?E1, ?E2, ?E3.
  - rewrite Hinf. case_decide; [congruence|done].
  - intros u. rewrite elem_of_without, Hs. rewrite Ha by (by split). case_decide; naive_solver.
  - intros u. rewrite Hs, list_elem_of_lookup. setoid_rewrite lookup_set_cur; [|done]. case_decide as Eu.
    + subst u. split; [|done]. intros _. split; [done|]. exists h. by left.
    + split.
      * intros Hu. destruct (v_runs0 u Hu) as (k & Hk & Hne). split; [|eauto]. intros ->. unfold status_of in Hu. by rewrite v_null0 in Hu.
      * intros (Hu0 & k & [[_ ->]|[Hne Hk]]); [done|]. by eapply v_other0.
  - intros k k' u Hk Hk' Hu. apply lookup_set_cur in Hk, Hk'; [|done..].
    destruct Hk as [[-> ->]|[Hk1 Hk]], Hk' as [[-> E']|[Hk1' Hk']]; try done.
    + by apply Hnb in Hk'.
    + subst. by apply Hnb in Hk.
    + by eapply v_once0.
  - intros u. rewrite v_sleep0, Hs. case_decide; [|done]. subst. split; congruence.
  - eapply sorted_ext; [|exact v_sorted0]. intros u _. unfold deadline_of. rewrite Hinf. case_decide; [|done]. by destruct (a_info a !! u).
  - intros u i Hi Hd. rewrite Hinf in Hi. case_decide; [|by eapply v_stack0]. apply fmap_Some in Hi as (j & Hj & ->). cbn.
    apply (v_stack0 u j Hj). apply info_status in Hj. congruence.
  - intros u i Hi Hd. rewrite Hinf in Hi. case_decide; [|by eapply v_fresh0]. by apply fmap_Some in Hi as (j & Hj & ->).
  - by rewrite length_insert.
Qed.

Lemma yield_ok h a : loose h [] [] (fun st => st <> Ready) a -> (h < Max_CPUs)%nat -> ok (a_yield h a).
Proof.
  intros HL Hh. pose proof (requeue_vacant h a HL) as HV. change (a_yield h a) with (dispatch h (requeue h a)).
  destruct (decide ((a_pop (requeue h a)).1 = 0)) as [E|E]; [by apply dispatch_none|].
  by apply (dispatch_some h _ _ HV Hh eq_refl).
Qed.

(** ** Threads block, begin and end *)

Lemma block_loose h ds es a st t :
  loose h ds es awake a -> a_cur a !! h = Some t -> status_of a t = Some Running -> blocked st = true ->
  es = (if bool_decide (st = Blocked_Sleeping) then [t] else []) ->
  loose h ds [] (fun st => st <> Ready) (set_info t (i_set_boosted false) (set_info t (i_set_status st) a)).
Proof.
  intros HL Hc Hr Hb. set (a' := set_info t (i_set_boosted false) (set_info t (i_set_status st) a)).
  assert (Hinf : forall u, a_info a' !! u = if decide (u = t) then i_set_boosted false ∘ i_set_status st <$> a_info a !! u else a_info a !! u).
  { intros u. unfold a'. rewrite info_set_info, info_set_info. destruct (decide (u = t)); [|done]. by destruct (a_info a !! u). }
  assert (Hs : forall u, status_of a' u = if decide (u = t) then Some st else status_of a u).
  { intros u. unfold status_of at 1. rewrite Hinf. destruct (decide (u = t)) as [Eu|]; [|done]. rewrite Eu. unfold status_of in Hr. by destruct (a_info a !! t). }
  assert (a_ready a' = a_ready a /\ a_sleep a' = a_sleep a /\ a_cur a' = a_cur a) as (E1 & E2 & E3) by done.
  clearbody a'. assert (st <> Ready /\ st <> Running /\ st <> Dead) as (N1 & N2 & N3) by (destruct st; done).
  intros Hns. destruct HL. split; rewrite ?E1, ?E2, ?E3; try done.
  - rewrite Hinf. destruct (decide (0 = t)); [by rewrite l_null0|done].
  - intros u. rewrite Hs. destruct (decide (u = t)); [congruence|apply l_ready0].
  - intros u Hu. rewrite Hs. destruct (decide (u = t)); [subst; destruct (l_queue0 t Hu); congruence|by apply l_queue0].
  - intros u. rewrite Hs. destruct (decide (u = t)); [congruence|apply l_runs0].
  - intros k u Hk Hu Hne. rewrite Hs. destruct (decide (u = t)); [subst; exfalso; apply Hne; by eapply l_once0|by eapply l_other0].
  - intros u Hk Hu. rewrite Hs. destruct (decide (u = t)); [by eexists|]. congruence.
  - intros u. rewrite l_sleep0, Hs, Hns. case_bool_decide; destruct (decide (u = t)); subst; set_solver.
  - eapply sorted_ext; [|exact l_sorted0]. intros u _. unfold deadline_of. rewrite Hinf. destruct (decide (u = t)); [|done]. by destruct (a_info a !! u).
  - intros u i Hi Hd Hds. rewrite Hinf in Hi. destruct (decide (u = t)); [|by eapply l_stack0]. apply fmap_Some in Hi as (j & Hj & ->). cbn.
    apply (l_stack0 u j Hj); [|done]. apply info_status in Hj. congruence.
  - intros u i Hi Hd. rewrite Hinf in Hi. destruct (decide (u = t)); [|by eapply l_fresh0]. by apply fmap_Some in Hi as (j & Hj & ->).
Qed.

(** The hart gives up a thread that does not run any more. *)
Lemma drop_cur h ds es Q a Q' :
  loose h ds es Q a -> (h < Max_CPUs)%nat -> (forall t, a_cur a !! h = Some t -> t <> 0 -> status_of a t <> Some Running) ->
  loose h ds es Q' (set_cur h 0 a).
Proof.
  intros HL Hh Hn. destruct HL. rewrite <- l_harts0 in Hh.
  split; unfold set_cur; cbn [with_cur a_info a_ready a_sleep a_cur]; try change (status_of (with_cur _ _)) with (status_of a); try done.
  - intros u Hu. destruct (l_runs0 u Hu) as [k Hk]. exists k. apply lookup_set_cur; [done|]. right. split; [|done].
    intros ->. apply (Hn u Hk); [|done]. intros ->. unfold status_of in Hu. by rewrite l_null0 in Hu.
  - intros k u Hk H0 Hne. apply lookup_set_cur in Hk; [|done]. destruct Hk as [[-> _]|[_ Hk]]; [done|]. by eapply l_other0.
  - intros u Hk H0. apply lookup_set_cur in Hk; [|done]. destruct Hk as [[_ ->]|[Hn' _]]; [done|by destruct Hn'].
  - intros k k' u Hk Hk' H0. apply lookup_set_cur in Hk, Hk'; [|done..]. destruct Hk as [[_ ->]|[_ Hk]]; [done|].
    destruct Hk' as [[_ ->]|[_ Hk']]; [done|]. by eapply l_once0.
  - by rewrite length_insert.
Qed.

(** *** Going to sleep *)

Lemma sorted_app_inv (R : relation Z) l1 l2 :
  StronglySorted R (l1 ++ l2) -> StronglySorted R l1 /\ StronglySorted R l2 /\ (forall t u, t ∈ l1 -> u ∈ l2 -> R t u).
Proof.
  induction l1 as [|x l1 IH]; intros H; [split_and!; [constructor|done|set_solver]|].
  inversion H as [|? ? Hs Hf]; subst. destruct (IH Hs) as (H1 & H2 & H3). rewrite Forall_forall in Hf. split_and!; [|done|].
  - constructor; [done|]. rewrite Forall_forall. intros u Hu. apply Hf. set_solver.
  - intros t u [->|Ht]%elem_of_cons Hu; [apply Hf; set_solver|by apply H3].
Qed.

Lemma sorted_app (R : relation Z) l1 l2 :
  StronglySorted R l1 -> StronglySorted R l2 -> (forall t u, t ∈ l1 -> u ∈ l2 -> R t u) -> StronglySorted R (l1 ++ l2).
Proof.
  induction 1 as [|x l1 Hs IH Hf]; intros H2 H; [done|]. rewrite Forall_forall in Hf. cbn. constructor.
  - apply IH; [done|]. intros t u Ht. apply H. set_solver.
  - rewrite Forall_forall. intros u [Hu|Hu]%elem_of_app; [by apply Hf|apply H; set_solver].
Qed.

Lemma early_due a d l u : u ∈ early a d l -> deadline_of a u <= d.
Proof. induction l as [|v l IH]; cbn; [set_solver|]. destruct (Z.leb_spec (deadline_of a v) d); set_solver. Qed.

Lemma late_first a d l : StronglySorted (by_deadline a) l -> forall u, u ∈ late a d l -> d < deadline_of a u.
Proof.
  induction 1 as [|v l Hs IH Hf]; cbn; [set_solver|]. destruct (Z.leb_spec (deadline_of a v) d); [done|].
  intros u [->|Hu]%elem_of_cons; [lia|]. rewrite Forall_forall in Hf. specialize (Hf u Hu). unfold by_deadline in Hf. lia.
Qed.

Lemma insert_sorted a t : StronglySorted (by_deadline a) (a_sleep a) -> StronglySorted (by_deadline a) (a_sleep (insert_sleeper t a)).
Proof.
  intros Hs. unfold insert_sleeper. cbn [with_sleep a_sleep]. set (d := deadline_of a t).
  pose proof (late_first a d _ Hs) as Hl. rewrite <- (early_late a d (a_sleep a)) in Hs.
  apply sorted_app_inv in Hs as (S1 & S2 & S3). apply sorted_app; [done| |].
  - constructor; [done|]. rewrite Forall_forall. intros u Hu. apply Hl in Hu. unfold by_deadline. fold d. lia.
  - intros u v Hu [->|Hv]%elem_of_cons; [by apply early_due in Hu|by apply S3].
Qed.

Lemma insert_loose h a t deadline :
  loose h [] [] awake a -> status_of a t = Some Running ->
  loose h [] [t] awake (insert_sleeper t (set_info t (i_set_deadline deadline) a)).
Proof.
  intros HL Hr. set (a1 := set_info t (i_set_deadline deadline) a).
  assert (Hinf : forall u, a_info a1 !! u = if decide (u = t) then i_set_deadline deadline <$> a_info a !! u else a_info a !! u)
    by (intros u; apply info_set_info).
  assert (Hs : forall u, status_of a1 u = status_of a u).
  { intros u. unfold status_of. rewrite Hinf. case_decide; [|done]. by destruct (a_info a !! u). }
  assert (t ∉ a_sleep a) as Hts by (rewrite (l_sleep _ _ _ _ _ HL), Hr; set_solver).
  assert (StronglySorted (by_deadline a1) (a_sleep a1)) as Hso.
  { eapply sorted_ext; [|exact (l_sorted _ _ _ _ _ HL)]. intros u Hu. unfold deadline_of. rewrite Hinf.
    rewrite decide_False; [done|]. by intros ->. }
  destruct HL. split; try change (status_of (insert_sleeper t a1)) with (status_of a1);
    try change (a_info (insert_sleeper t a1)) with (a_info a1);
    try change (a_ready (insert_sleeper t a1)) with (a_ready a); try change (a_cur (insert_sleeper t a1)) with (a_cur a); try done.
  - rewrite Hinf. case_decide; [by rewrite l_null0|done].
  - intros u. rewrite Hs. apply l_ready0.
  - intros u. rewrite Hs. apply l_queue0.
  - intros u. rewrite Hs. apply l_runs0.
  - intros k u. rewrite Hs. apply l_other0.
  - intros u. rewrite Hs. apply l_mine0.
  - intros u. rewrite elem_of_insert_sleeper. change (a_sleep a1) with (a_sleep a). rewrite l_sleep0, Hs. set_solver.
  - exact (insert_sorted a1 t Hso).
  - intros u i Hi Hd _. rewrite Hinf in Hi. case_decide; [|eapply l_stack0; [done..|set_solver]].
    apply fmap_Some in Hi as (j & Hj & ->). apply (l_stack0 u j Hj); [done|set_solver].
  - intros u i Hi Hd. rewrite Hinf in Hi. case_decide; [|by eapply l_fresh0].
    apply fmap_Some in Hi as (j & Hj & ->). by apply (l_fresh0 u j Hj).
Qed.

Lemma sleep_loose h a t deadline now :
  loose h [] [] awake a -> (h < Max_CPUs)%nat -> a_cur a !! h = Some t -> status_of a t = Some Running -> now < deadline -> NoDup (a_sleep a) ->
  loose h [] [] (fun st => st <> Ready) (a_sleep_until h deadline now a).
Proof.
  intros HL Hh Hc Hr Hlt Hnd. unfold a_sleep_until. rewrite (proj2 (Z.leb_gt _ _)) by lia. cbv zeta.
  assert (cur a h = t) as Ec by (unfold cur; by rewrite (nth_lookup_Some _ _ _ _ Hc)). rewrite Ec.
  pose proof (insert_loose h a t deadline HL Hr) as H1. set (a1 := insert_sleeper t _) in *.
  assert (status_of a1 t = Some Running /\ deadline_of a1 t = deadline) as [Hr1 Hd1].
  { unfold status_of, deadline_of. change (a_info a1) with (a_info (set_info t (i_set_deadline deadline) a)).
    rewrite info_set_info, decide_True by done. unfold status_of in Hr. destruct (a_info a !! t) as [i|]; [|done]. cbn in *. by injection Hr as ->. }
  assert (t ∉ a_sleep a) as Hts by (rewrite (l_sleep _ _ _ _ _ HL), Hr; set_solver).
  assert (NoDup (a_sleep a1)) as Hn1.
  { unfold a1, insert_sleeper. cbn [with_sleep a_sleep set_info]. set (b := set_info _ _ _). set (d := deadline_of b t).
    rewrite <- (early_late b d (a_sleep a)) in Hnd, Hts. apply NoDup_app in Hnd as (N1 & N2 & N3).
    apply NoDup_app. split_and!; [done|set_solver|constructor; set_solver]. }
  assert (H2 : loose h [] [t] awake (a_check now a1)).
  { apply check_loose; [apply awake_not_blocked|done| |done]. intros u ->%list_elem_of_singleton. split; [done|lia]. }
  assert (status_of (a_check now a1) t = Some Running) as Hr2.
  { unfold status_of, a_check. destruct (a_checks_other now (a_sleep a1) a1 t) as [-> _]; [lia|done]. }
  assert (a_cur (a_check now a1) !! h = Some t) as Hc2 by (unfold a_check; by rewrite a_checks_cur).
  assert (cur (a_check now a1) h = t) as Ec2 by (unfold cur; by rewrite (nth_lookup_Some _ _ _ _ Hc2)).
  unfold a_block. rewrite Ec2. eapply drop_cur; [by eapply block_loose|done|].
  intros u Hu _. cbn [set_info a_cur] in Hu. assert (u = t) as -> by congruence.
  rewrite !status_set_info. rewrite decide_True by done. rewrite info_set_info, decide_True by done.
  destruct (a_info (a_check now a1) !! t); done.
Qed.

End spec.
