(* ===== verification/KTrapOps.v ===== *)
(** * Traps keep every thread somewhere

    Each trap of [KTrap] on the linked state, as a step of [asched]; from a
    state that is [ok] it leads to one that is. *)
From Stdlib Require Import Sorted.
From S2P Require Import Prelude CInt KSched KSchedSpec KSchedOps KTrap KTrapSpec.

Section ops.
Context {X : Type}.
Implicit Types (i : info X) (a : asched X) (t : Z) (h : nat) (R : list Z).

(** ** Threads end *)

Lemma stack_loose h a t : loose h [] [] awake a -> loose h [t] [] awake (set_info t (i_set_stack 0) a).
Proof.
  intros HL.
  assert (Hs : forall u, status_of (set_info t (i_set_stack 0) a) u = status_of a u).
  { intros u. rewrite status_set_info. case_decide; [|done]. unfold status_of. by destruct (a_info a !! u). }
  assert (Hi : forall u i, a_info (set_info t (i_set_stack 0) a) !! u = Some i -> exists j, a_info a !! u = Some j /\
    i_status i = i_status j /\ i_boosted i = i_boosted j /\ (u <> t -> i = j)).
  { intros u i. rewrite info_set_info. case_decide; [|naive_solver]. intros (j & Hj & ->)%fmap_Some. exists j. naive_solver. }
  destruct HL. split; cbn [set_info a_ready a_sleep a_cur]; try done; try (intros *; rewrite ?Hs; eauto; fail).
  - apply eq_None_not_Some. rewrite (is_Some_set_info a 0 t). by rewrite <- eq_None_not_Some.
  - eapply sorted_ext; [|exact l_sorted]. intros u _. by apply deadline_set_info.
  - intros u i Hu Hd Ht. destruct (Hi u i Hu) as (j & Hj & E1 & _ & E2). rewrite E2 by set_solver.
    apply (l_stack u j Hj); [congruence|set_solver].
  - intros u i Hu Hr. destruct (Hi u i Hu) as (j & Hj & E1 & E2 & _). rewrite E2. apply (l_fresh u j Hj). congruence.
Qed.

Definition a_kill t a : asched X := with_sleep (without t (a_sleep a)) (set_info t (i_set_status Dead) a).

Lemma kill_loose h a t :
  loose h [t] [] awake a -> is_Some (a_info a !! t) -> (forall k, a_cur a !! k = Some t -> k = h) ->
  loose h [] [] awake (a_kill t a).
Proof.
  intros HL [i0 Hi0] Hk. unfold a_kill.
  assert (Hs : forall u, status_of (set_info t (i_set_status Dead) a) u = if decide (u = t) then Some Dead else status_of a u).
  { intros u. rewrite status_set_info. case_decide as E; [|done]. by rewrite E, Hi0. }
  assert (t <> 0) as Ht0 by (intros ->; by rewrite (l_null _ _ _ _ _ HL) in Hi0).
  destruct HL. split; cbn [with_sleep set_info a_ready a_sleep a_cur]; try done;
    try change (status_of (with_sleep _ ?b)) with (status_of b).
  - change (a_info (with_sleep _ ?b)) with (a_info b). rewrite info_set_info, decide_False by done. done.
  - intros u. rewrite Hs. case_decide; [done|apply l_ready].
  - intros u Hu. rewrite Hs. case_decide; [by right|by apply l_queue].
  - intros u. rewrite Hs. case_decide; [done|apply l_runs].
  - intros k u Hku H0 Hne. rewrite Hs. case_decide; [subst; by apply Hk in Hku|by eapply l_other].
  - intros u Hku H0. rewrite Hs. case_decide; [exists Dead; split; [done|by right]|by apply l_mine].
  - intros u. rewrite elem_of_without, l_sleep, Hs. case_decide; [|set_solver]. subst. set_solver.
  - apply sorted_without. eapply sorted_ext; [|exact l_sorted]. intros u _. apply (deadline_set_info a t). done.
  - intros u i. change (a_info (with_sleep _ ?b)) with (a_info b). rewrite info_set_info. case_decide as E.
    + intros (j & Hj & ->)%fmap_Some. done.
    + intros Hu Hd _. apply (l_stack u i Hu Hd). set_solver.
  - intros u i. change (a_info (with_sleep _ ?b)) with (a_info b). rewrite info_set_info. case_decide as E.
    + intros (j & Hj & ->)%fmap_Some. done.
    + apply l_fresh.
Qed.

Definition a_exit_thread (self : Z) (e : Z * list Z) a : asched X :=
  let a2 := set_info e.1 (i_set_status Dead) (a_wakes e.2 (set_info e.1 (i_set_stack 0) a)) in
  if negb (e.1 =? self) then a_remove e.1 a2 else a2.

Lemma a_wakes_known ws : forall a u, is_Some (a_info (a_wakes ws a) !! u) <-> is_Some (a_info a !! u).
Proof. induction ws as [|t ws IH]; intros a u; [done|]. cbn. unfold a_wakes in IH. by rewrite IH, a_wake_known. Qed.
Lemma a_wakes_cur ws : forall a, a_cur (a_wakes ws a) = a_cur a.
Proof. induction ws as [|t ws IH]; intros a; [done|]. cbn. unfold a_wakes in IH. by rewrite IH, a_wake_cur. Qed.

Lemma cur_without (l : list Z) t : t ∉ l -> (fun u => if u =? t then 0 else u) <$> l = l.
Proof.
  induction l as [|u l IH]; intros Ht; [done|]. cbn. rewrite IH by set_solver.
  destruct (Z.eqb_spec u t); [set_solver|done].
Qed.

Lemma exit_thread_known self e a u : is_Some (a_info (a_exit_thread self e a) !! u) <-> is_Some (a_info a !! u).
Proof.
  unfold a_exit_thread. cbv zeta. case_match; unfold a_remove; cbn [with_sleep with_cur a_info].
  all: by rewrite (is_Some_set_info _ u e.1), a_wakes_known, (is_Some_set_info a u e.1).
Qed.

Lemma exit_thread_loose h self e a :
  loose h [] [] awake a -> a_cur a !! h = Some self -> is_Some (a_info a !! e.1) ->
  (forall k, a_cur a !! k = Some e.1 -> k = h) ->
  loose h [] [] awake (a_exit_thread self e a) /\ a_cur (a_exit_thread self e a) = a_cur a.
Proof.
  intros HL Hc [i Hi] Hk. set (t := e.1) in *.
  assert (t <> 0) as Ht0 by (intros E; rewrite E in Hi; by rewrite (l_null _ _ _ _ _ HL) in Hi).
  pose proof (stack_loose h a t HL) as H1. apply (wakes_loose h [t] awake e.2 awake_not_blocked) in H1.
  set (a1 := a_wakes e.2 _) in *.
  assert (a_cur a1 = a_cur a) as E1 by (unfold a1; by rewrite a_wakes_cur).
  assert (is_Some (a_info a1 !! t)) as Hi1 by (unfold a1; rewrite a_wakes_known, (is_Some_set_info a t t); by exists i).
  rewrite <- E1 in Hk, Hc. pose proof (kill_loose h a1 t H1 Hi1 Hk) as H2.
  unfold a_exit_thread. cbv zeta. fold t a1. destruct (Z.eqb_spec t self) as [E|E]; cbn [negb].
  - replace (set_info t (i_set_status Dead) a1) with (a_kill t a1); [by split|].
    unfold a_kill. rewrite without_off; [by destruct a1|]. rewrite (l_sleep _ _ _ _ _ H1).
    destruct (l_mine _ _ _ _ _ H1 t) as (st & -> & Hst); [congruence|done|]. destruct Hst as [->| ->]; set_solver.
  - replace (a_remove t (set_info t (i_set_status Dead) a1)) with (a_kill t a1); [by split|].
    unfold a_remove, a_kill. f_equal. rewrite cur_without; [by destruct a1|].
    cbn [set_info a_cur]. intros H%list_elem_of_lookup. destruct H as [k Hk']. pose proof (Hk k Hk') as ->. congruence.
Qed.

(** ** Threads begin *)

Definition a_new t (p stack d : Z) (x : X) a : asched X :=
  ASched (<[t := Info Ready p false d stack x]> (a_info a)) (a_ready a) (a_sleep a) (a_cur a).

Lemma new_sim t p stack d x a :
  t <> 0 -> t ∉ a_ready a -> t ∉ a_sleep a ->
  sim (modifyM (fun s => set_threads (<[t := new_thread p stack d x]> (threads s)) s)) a tt (a_new t p stack d x a).
Proof.
  intros Ht Hr Hs s H. eexists. split; [done|]. destruct H. split; cbn [threads Ready_Head Ready_Tail Ready_N Sleep_Head Current_TCBS set_threads a_new a_info a_ready a_sleep a_cur]; try done.
  - by rewrite fmap_insert, rep_info.
  - by rewrite lookup_insert_ne.
  - eapply seg_frame; [|exact rep_ready]. intros u c Hu Hc. exists c. rewrite lookup_insert_ne; [done|]. by intros ->.
  - intros u c. destruct (decide (u = t)) as [->|Hne]; [|rewrite lookup_insert_ne by done; apply rep_queued].
    rewrite lookup_insert_eq. intros [= <-]. cbn. by rewrite bool_decide_eq_false_2.
  - eapply seg_frame; [|exact rep_sleep]. intros u c Hu Hc. exists c. rewrite lookup_insert_ne; [done|]. by intros ->.
Qed.

Definition a_create t p stack d x a : asched X := a_add t (a_new t p stack d x a).

Lemma create_ok t p stack d x a :
  ok a -> t <> 0 -> stack <> 0 -> a_info a !! t = None \/ status_of a t = Some Dead -> ok (a_create t p stack d x a).
Proof.
  intros [] Ht Hst Hn. set (a' := a_create t p stack d x a).
  assert (Hinf : forall u, a_info a' !! u = if decide (u = t) then Some (Info Ready p false d stack x) else a_info a !! u).
  { intros u. unfold a', a_create, a_add. cbn [with_ready set_info a_info a_new]. case_decide as E.
    - subst. by rewrite lookup_alter_eq, lookup_insert_eq.
    - by rewrite lookup_alter_ne, lookup_insert_ne. }
  assert (Hs : forall u, status_of a' u = if decide (u = t) then Some Ready else status_of a u).
  { intros u. unfold status_of at 1. rewrite Hinf. by case_decide. }
  assert (status_of a t = None \/ status_of a t = Some Dead) as Hn' by (destruct Hn; [left; unfold status_of; by rewrite H|by right]).
  assert (a_ready a' = a_ready a ++ [t] /\ a_sleep a' = a_sleep a /\ a_cur a' = a_cur a) as (E1 & E2 & E3) by done.
  clearbody a'. split; rewrite ?E1, ?E2, ?E3; try done.
  - rewrite Hinf, decide_False; done.
  - intros u. rewrite elem_of_app, ok_ready, Hs. case_decide; set_solver.
  - intros u. rewrite Hs. case_decide; [|apply ok_runs]. subst. rewrite <- ok_runs. destruct Hn' as [->| ->]; done.
  - intros u. rewrite ok_sleep, Hs. case_decide; [|done]. subst. destruct Hn' as [->| ->]; done.
  - eapply sorted_ext; [|exact ok_sorted]. intros u Hu. unfold deadline_of. rewrite Hinf, decide_False; [done|].
    intros ->. apply ok_sleep in Hu. destruct Hn'; congruence.
  - intros u i. rewrite Hinf. case_decide; [by intros [= <-]|apply ok_stack].
  - intros u i. rewrite Hinf. case_decide; [by intros [= <-]|apply ok_fresh].
Qed.

Lemma priority_ok t p a : ok a -> ok (set_info t (i_set_priority p) a).
Proof.
  intros [].
  assert (Hs : forall u, status_of (set_info t (i_set_priority p) a) u = status_of a u).
  { intros u. rewrite status_set_info. case_decide; [|done]. unfold status_of. by destruct (a_info a !! u). }
  split; cbn [set_info a_ready a_sleep a_cur]; try done; try (intros u; rewrite Hs; apply ok_ready || apply ok_runs || apply ok_sleep; fail).
  - apply eq_None_not_Some. rewrite (is_Some_set_info a 0 t). by rewrite <- eq_None_not_Some.
  - eapply sorted_ext; [|exact ok_sorted]. intros u _. by apply deadline_set_info.
  - intros u i. rewrite info_set_info. case_decide; [|apply ok_stack]. intros (j & Hj & ->)%fmap_Some. apply (ok_stack u j Hj).
  - intros u i. rewrite info_set_info. case_decide; [|apply ok_fresh]. intros (j & Hj & ->)%fmap_Some. apply (ok_fresh u j Hj).
Qed.

(** Waking from an [ok] state leads to one. *)
Lemma loose_ok h a : loose h [] [] awake a -> (forall t, t ∈ a_ready a -> ~ is_dead a t) ->
  (forall t, a_cur a !! h = Some t -> t <> 0 -> ~ is_dead a t) -> ok a.
Proof.
  intros [] Hr Hc. split; try done.
  - intros t. split; [|apply l_ready]. intros Ht. destruct (l_queue t Ht) as [?|Hd]; [done|]. by apply Hr in Ht.
  - intros t. split.
    + intros Ht. destruct (l_runs t Ht) as [k Hk]. split; [|by apply list_elem_of_lookup_2 in Hk].
      intros ->. unfold status_of in Ht. by rewrite l_null in Ht.
    + intros [H0 [k Hk]%list_elem_of_lookup]. destruct (decide (k = h)) as [->|Hne]; [|by eapply l_other].
      destruct (l_mine t Hk H0) as (st & Hst & [->| ->]); [done|]. by apply Hc in Hk.
  - intros t. rewrite l_sleep. set_solver.
  - intros t i Hi Hd. apply (l_stack t i Hi Hd). set_solver.
Qed.

Lemma wake_ok t a : ok a -> ok (a_wake t a).
Proof.
  intros Hok. pose proof (ok_loose 0 a Hok) as HL.
  apply (wake_loose 0 [] [] awake a t awake_not_blocked) in HL; [|set_solver].
  assert (forall u, is_dead (a_wake t a) u -> is_dead a u) as Hd.
  { intros u. unfold is_dead. destruct (decide (u = t)) as [->|Hne]; [|by rewrite a_wake_status].
    destruct (status_of a t) as [st|] eqn:E; [destruct (blocked st) eqn:Eb|].
    - rewrite (wake_status t a t st E Eb), decide_True by done. done.
    - unfold a_wake. rewrite E, Eb. congruence.
    - unfold a_wake. rewrite E. congruence. }
  apply (loose_ok 0); [done|..].
  - intros u Hu Hdu. pose proof (Hd u Hdu) as E. unfold is_dead in Hdu. destruct (l_queue _ _ _ _ _ HL u Hu) as [E2|_]; [congruence|].
    destruct (decide (u = t)) as [->|Hne].
    + destruct (blocked Dead) eqn:Eb; [done|]. unfold a_wake in Hu. unfold is_dead in E. rewrite E in Hu. cbn in Hu.
      apply (ok_ready _ Hok) in Hu. congruence.
    + apply a_wake_ready in Hu; [|done]. apply (ok_ready _ Hok) in Hu. unfold is_dead in E. congruence.
  - intros u Hc H0 Hdu%Hd. rewrite a_wake_cur in Hc. unfold is_dead in Hdu.
    assert (status_of a u = Some Running) by (apply (ok_runs _ Hok); split; [done|by apply list_elem_of_lookup_2 in Hc]). congruence.
Qed.

Lemma wakes_ok ws : forall a, ok a -> ok (a_wakes ws a).
Proof. induction ws as [|t ws IH]; intros a Ha; [done|]. cbn. apply IH. by apply wake_ok. Qed.

Lemma check_ok now a : NoDup (a_sleep a) -> ok a -> ok (a_check now a).
Proof.
  unfold a_check. remember (a_sleep a) as l eqn:El. revert a El.
  induction l as [|t l IH]; intros a El Hn Hok; [done|]. cbn [a_checks]. case_match; [|done]. apply NoDup_cons in Hn as [Ht Hn].
  assert (status_of a t = Some Blocked_Sleeping) as Hst by (apply (ok_sleep _ Hok); rewrite <- El; set_solver).
  apply IH; [symmetry; by apply a_wake_sleeper|done|]. rewrite (wake_head t l a) by done. by apply wake_ok.
Qed.

(** ** The machine *)

(** From a machine that represents [a] and resumes [R], [op] returns and leads
    to one that represents [a'] and resumes [R']. *)
Definition msim {A} (op : M (machine X) A) a R (r : A) a' R' : Prop :=
  forall m, rep (ksched m) a -> resumes m = R ->
  exists m', op m = Done r m' /\ rep (ksched m') a' /\ resumes m' = R'.

Lemma msim_ret {A} (r : A) a R : msim (retM r) a R r a R.
Proof. intros m Hm HR. by exists m. Qed.

Lemma msim_bind {A B} (op : M (machine X) A) (k : A -> M (machine X) B) a R r a1 R1 r2 a2 R2 :
  msim op a R r a1 R1 -> msim (k r) a1 R1 r2 a2 R2 -> msim (bindM op k) a R r2 a2 R2.
Proof.
  intros H1 H2 m Hm HR. destruct (H1 m Hm HR) as (m1 & E1 & Hm1 & HR1). destruct (H2 m1 Hm1 HR1) as (m2 & E2 & H).
  exists m2. unfold bindM. by rewrite E1.
Qed.

Lemma msim_sched {A} (op : M (sched X) A) a R r a' : sim op a r a' -> msim (on_sched op) a R r a' R.
Proof.
  intros H m Hm HR. destruct (H (ksched m) Hm) as (s' & E & Hs'). exists (Machine s' (resumes m)).
  unfold on_sched. by rewrite E.
Qed.

Lemma msim_at {A} (op : M (machine X) A) a R r a' R' m :
  msim op a R r a' R' -> rep (ksched m) a -> resumes m = R ->
  exists m', op m = Done r m' /\ rep (ksched m') a' /\ resumes m' = R'.
Proof. intros H. apply H. Qed.

Lemma msim_resume h t a R : msim (resume h t) a R tt a (<[h := t]> R).
Proof. intros m Hm HR. eexists. split; [done|]. split; [done|]. cbn. by rewrite HR. Qed.

Lemma current_rep (m : machine X) a h : rep (ksched m) a -> current m h = cur a h.
Proof. apply rep_current. Qed.

Lemma msim_tcb {A} t i a R (k : tcb X -> M (machine X) A) r a' R' :
  a_info a !! t = Some i -> (forall c, core c = i -> msim (k c) a R r a' R') ->
  msim (let* c := on_sched (tcb_of t) in k c) a R r a' R'.
Proof.
  intros Hi Hk m Hm HR. destruct (rep_tcb _ _ t i Hm Hi) as (c & Hc & _ & Ec).
  destruct (Hk c Ec m Hm HR) as (m' & E & H). exists m'. unfold bindM, on_sched. rewrite Hc. by destruct m.
Qed.

Lemma wake_all_sim h R ws : forall a, ok a \/ (exists k ds, loose k ds [] awake a) -> (forall t, t ∈ ws -> is_Some (a_info a !! t)) ->
  msim (wake_all h ws) a R tt (a_wakes ws a) R.
Proof.
  induction ws as [|t ws IH]; intros a Ha Hk; [apply msim_ret|]. cbn [wake_all].
  destruct (Hk t) as [i Hi]; [set_solver|].
  assert (exists k ds, loose k ds [] awake a) as (k & ds & HL) by (destruct Ha as [Ha|]; [exists 0%nat, []; by apply ok_loose|done]).
  assert (t <> 0) as Ht by (intros ->; by rewrite (l_null _ _ _ _ _ HL) in Hi).
  eapply msim_bind; [apply msim_sched; eapply Wake_sim; [done|by apply info_status|by eapply loose_known_cur|]|].
  - intros Hb Hq. destruct (l_queue _ _ _ _ _ HL t Hq) as [E|E]; rewrite (info_status _ _ _ Hi) in E; injection E as E; by rewrite E in Hb.
  - cbn beta. apply (IH (a_wake t a)).
    + right. exists k, ds. apply wake_loose; [apply awake_not_blocked|set_solver|done].
    + intros u Hu. rewrite a_wake_known. apply Hk. set_solver.
Qed.

Lemma yield_cur h a :
  loose h [] [] (fun st => st <> Ready) a -> (h < Max_CPUs)%nat -> cur (a_yield h a) h = (a_pop (requeue h a)).1.
Proof.
  intros HL Hh.
  assert (h < length (a_cur (a_pop (requeue h a)).2))%nat as Hlen.
  { pose proof (a_pop_shape _ (vacant_nz h _ (requeue_vacant h a HL))) as (-> & _). by rewrite requeue_cur, (l_harts _ _ _ _ _ HL). }
  unfold a_yield. cbv zeta. destruct (Z.eqb_spec (a_pop (requeue h a)).1 0) as [E|E].
  - rewrite E. unfold cur, set_cur. cbn [with_cur a_cur]. by rewrite nth_lookup, list_lookup_insert_eq.
  - unfold cur, set_cur. cbn [set_info with_cur a_cur]. by rewrite nth_lookup, list_lookup_insert_eq.
Qed.

Lemma Schedule_sim h a R :
  loose h [] [] (fun st => st <> Ready) a -> (h < Max_CPUs)%nat ->
  msim (Schedule_Saved_Context h) a R tt (a_yield h a) (<[h := cur (a_yield h a) h]> R).
Proof.
  intros HL Hh. pose proof (yield_ok h a HL Hh) as Hok.
  unfold Schedule_Saved_Context. eapply msim_bind.
  { apply msim_sched, Yield_sim; [by eapply loose_hart_ok|by eapply loose_known_cur]. }
  pose proof (yield_cur h a HL Hh) as Ec.
  intros m Hm HR. unfold yield_result. rewrite <- Ec. rewrite (current_rep m _ h Hm).
  destruct (Z.eqb_spec (cur (a_yield h a) h) 0) as [E|E].
  - rewrite E. cbn. eapply msim_at; [apply msim_resume|done..].
  - cbn [bool_decide decide negb orb andb]. rewrite bool_decide_eq_false_2 by done. rewrite bool_decide_eq_true_2 by done. cbn [negb orb andb].
    unfold Restore_Scheduled_Context. rewrite (current_rep m _ h Hm), (proj2 (Z.eqb_neq _ _) E).
    rewrite bool_decide_eq_true_2 by done. cbn [negb andb].
    assert (status_of (a_yield h a) (cur (a_yield h a) h) = Some Running) as Hr.
    { apply (ok_runs _ Hok). split; [done|]. pose proof (cur_lookup _ _ E) as Hl. by apply list_elem_of_lookup_2 in Hl. }
    destruct (status_known _ _ _ Hr) as [i Hi]. eapply msim_at; [|done..]. apply (msim_tcb _ i); [done|]. intros c Hc.
    assert (Kernel_Stack_Top c <> 0) as Hst.
    { assert (i_stack i = Kernel_Stack_Top c) as <- by by subst i. apply (ok_stack _ Hok _ i Hi).
      rewrite (info_status _ _ _ Hi) in Hr. injection Hr as ->. done. }
    rewrite (proj2 (Z.eqb_neq _ _) Hst). cbn [negb]. apply msim_resume.
Qed.

Definition not_ready (st : Thread_State) : Prop := st <> Ready.
Lemma awake_not_ready st : awake st -> st <> Ready.
Proof. by intros [->| ->]. Qed.

(** ** Where the harts return *)

Lemma yield_curs h a : (h < Max_CPUs)%nat -> loose h [] [] not_ready a ->
  a_cur (a_yield h a) = <[h := cur (a_yield h a) h]> (a_cur a).
Proof.
  intros Hh HL. pose proof (l_harts _ _ _ _ _ HL) as Hl.
  assert (exists v, a_cur (a_yield h a) = <[h := v]> (a_cur a)) as [v Ev].
  { unfold a_yield. cbv zeta. pose proof (a_pop_shape _ (vacant_nz h _ (requeue_vacant h a HL))) as (E & _).
    destruct (_ =? 0); unfold set_cur; cbn [set_info with_cur a_cur]; rewrite E, requeue_cur; eauto. }
  unfold cur. by rewrite Ev, nth_lookup, list_lookup_insert_eq by lia.
Qed.

(** A scheduling trap brings [resumes] in line with the harts' threads. *)
Lemma agree_insert h a R : (h < length R)%nat -> (forall k, k <> h -> R !! k = a_cur a !! k) -> length R = length (a_cur a) ->
  loose h [] [] not_ready a -> <[h := cur (a_yield h a) h]> R = a_cur (a_yield h a).
Proof.
  intros Hl Hag Hlen HL. pose proof (l_harts _ _ _ _ _ HL). rewrite yield_curs by (done || lia). apply list_eq. intros k.
  destruct (decide (k = h)) as [->|Hne]; [by rewrite !list_lookup_insert_eq by lia|].
  rewrite !list_lookup_insert_ne by done. by apply Hag.
Qed.

(** A hart with current thread [c] returns into [r]: into its current thread
    or, with [z], into any when it has no current thread. *)
Definition link (z : bool) (c r : Z) : Prop := r = c \/ (z = true /\ c = 0).
#[global] Instance link_refl z : Reflexive (link z).
Proof. intros c. by left. Qed.
Definition linked (z : bool) a R : Prop := Forall2 (link z) (a_cur a) R.
Definition linked_but (z : bool) h a R : Prop :=
  length R = Max_CPUs /\ forall k c, k <> h -> a_cur a !! k = Some c -> exists r, R !! k = Some r /\ link z c r.

Lemma linked_lookup z a R k c : linked z a R -> a_cur a !! k = Some c -> exists r, R !! k = Some r /\ link z c r.
Proof. intros H Hc. destruct (Forall2_lookup_l _ _ _ _ _ H Hc) as (r & Hr & Hl). by exists r. Qed.

Lemma linked_except z h a R : ok a -> linked z a R -> linked_but z h a R.
Proof.
  intros Ha H. split; [by rewrite <- (Forall2_length _ _ _ H), (ok_harts _ Ha)|]. intros k c _. by apply linked_lookup.
Qed.

Lemma linked_false a R : linked false a R <-> R = a_cur a.
Proof.
  unfold linked. split; [|by intros ->].
  induction 1 as [|c r l R' [->|[? _]] _ ->]; done.
Qed.

Lemma linked_yield z h a R : (h < Max_CPUs)%nat -> loose h [] [] not_ready a -> linked_but z h a R ->
  linked z (a_yield h a) (<[h := cur (a_yield h a) h]> R).
Proof.
  intros Hh HL [Hl HR]. pose proof (l_harts _ _ _ _ _ HL) as Hc. unfold linked. rewrite (yield_curs h a Hh HL).
  apply Forall2_same_length_lookup. rewrite !length_insert. split; [lia|]. intros k c r.
  destruct (decide (k = h)) as [->|Hne].
  - rewrite !list_lookup_insert_eq by lia. intros [= <-] [= <-]. by left.
  - rewrite !list_lookup_insert_ne by done. intros Hk Hr. destruct (HR k c Hne Hk) as (r' & Hr' & ?). congruence.
Qed.

Lemma Preempt_sim z h a R : ok a -> (h < Max_CPUs)%nat -> linked z a R ->
  exists a' R', msim (Handle_Preemption h) a R tt a' R' /\ ok a' /\ linked z a' R'.
Proof.
  intros Hok Hh HR. pose proof (loose_weaken h [] [] _ _ a awake_not_ready (ok_loose h a Hok)) as HL.
  destruct (decide (cur a h = 0)) as [E|E].
  - exists a, R. split_and!; [|done|done]. intros m Hm Hm2. unfold Handle_Preemption. rewrite (current_rep m a h Hm), (proj2 (Z.eqb_eq _ _) E).
    cbn [orb]. by exists m.
  - exists (a_yield h a), (<[h := cur (a_yield h a) h]> R).
    split_and!; [|by apply yield_ok|by apply linked_yield, linked_except].
    intros m Hm Hm2. unfold Handle_Preemption, resumed. rewrite (current_rep m a h Hm), Hm2.
    destruct (linked_lookup z a R h _ HR (cur_lookup _ _ E)) as (r & Hr & [->|[_ ?]]); [|done].
    rewrite (nth_lookup_Some _ _ _ _ Hr), (proj2 (Z.eqb_neq _ _) E). cbn [orb]. eapply msim_at; [by apply Schedule_sim|done..].
Qed.

(** ** Every trap *)

(** A machine between traps. *)
Definition settled_as (m : machine X) a : Prop := rep (ksched m) a /\ ok a /\ resumes m = a_cur a.
Definition settled (m : machine X) : Prop := exists a, settled_as m a.

(** The same, but with [z] a hart that has no current thread may return into
    any thread. *)
Definition covered_as (z : bool) (m : machine X) a : Prop := rep (ksched m) a /\ ok a /\ linked z a (resumes m).
Definition covered (z : bool) (m : machine X) : Prop := exists a, covered_as z m a.

Lemma covered_settled_as m a : covered_as false m a <-> settled_as m a.
Proof. unfold covered_as, settled_as. by rewrite linked_false. Qed.
Lemma covered_settled m : covered false m <-> settled m.
Proof. unfold covered, settled. by setoid_rewrite covered_settled_as. Qed.
Lemma covered_weaken z m : covered false m -> covered z m.
Proof. intros (a & H1 & H2 & E%linked_false). exists a. split_and!; [done|done|]. unfold linked. by rewrite E. Qed.

Lemma covered_intro z (op : M (machine X) unit) m a a' R' :
  msim op a (resumes m) tt a' R' -> rep (ksched m) a -> ok a' -> linked z a' R' -> exists m', op m = Done tt m' /\ covered z m'.
Proof. intros H Hm Hok HR. destruct (H m Hm eq_refl) as (m' & E & H1 & <-). exists m'. split; [done|]. by exists a'. Qed.

Lemma known_iff m a t : rep (ksched m) a -> known m t = true <-> is_Some (a_info a !! t).
Proof.
  intros Hm. unfold known. rewrite bool_decide_eq_true, <- (rep_info _ _ Hm), lookup_fmap. by rewrite fmap_is_Some.
Qed.
Lemma all_known m a ws : rep (ksched m) a -> forallb (known m) ws = true -> forall t, t ∈ ws -> is_Some (a_info a !! t).
Proof. intros Hm Hw t Ht. apply (known_iff m a t Hm). rewrite forallb_forall in Hw. apply Hw. by apply list_elem_of_In. Qed.
Lemma unused_iff m a t : rep (ksched m) a -> unused m t = true -> a_info a !! t = None \/ status_of a t = Some Dead.
Proof.
  intros Hm. unfold unused, status_of. rewrite <- (rep_info _ _ Hm), lookup_fmap. destruct (threads (ksched m) !! t) as [c|]; [|by left].
  intros E%bool_decide_eq_true. right. cbn. by rewrite E.
Qed.
Lemma only_on_iff m a h t : rep (ksched m) a -> only_on m h t = true -> forall k, a_cur a !! k = Some t -> k = h.
Proof.
  intros Hm Ho k Hk. unfold only_on in Ho. rewrite (rep_cur _ _ Hm), forallb_forall in Ho.
  specialize (Ho k). rewrite in_seq, (nth_lookup_Some _ _ _ _ Hk), Z.eqb_refl, orb_false_r in Ho.
  apply Nat.eqb_eq, Ho. apply lookup_lt_Some in Hk. lia.
Qed.

Lemma my_loose h a : ok a -> loose h [] [] awake a.
Proof. apply ok_loose. Qed.
Lemma my_loose' h a : ok a -> loose h [] [] not_ready a.
Proof. intros Ha. eapply loose_weaken; [|by apply my_loose]. apply awake_not_ready. Qed.

End ops.
