(* ===== verification/KTrapInv.v ===== *)
(** * Any trap leads to a machine whose threads are accounted for

    One lemma per trap of [KTrap]: from a machine that is [covered z], and
    with what [legal] asks, it returns and the machine is covered again.  With
    [z = false] that is [settled], which a process that exits while another
    hart runs one of its threads does not keep. *)
From Stdlib Require Import Sorted.
From S2P Require Import Prelude CInt KSched KSchedSpec KSchedOps KTrap KTrapSpec KTrapOps.

Section traps.
Context {X : Type} (z : bool).
Implicit Types (a : asched X) (h : nat) (t : Z) (m : machine X) (R : list Z).

Definition settles (op : M (machine X) unit) a : Prop :=
  forall m, covered_as z m a -> exists m', op m = Done tt m' /\ covered z m'.

Lemma settles_ret a : settles (retM tt) a.
Proof. intros m Hm. exists m. split; [done|by exists a]. Qed.

Lemma settles_at (op : M (machine X) unit) a m : settles op a -> covered_as z m a -> exists m', op m = Done tt m' /\ covered z m'.
Proof. intros H. apply H. Qed.

Lemma trap_settles_bind {A} (op : M (machine X) A) (k : A -> M (machine X) unit) a r a1 :
  (forall R, msim op a R r a1 R) -> a_cur a1 = a_cur a -> (ok a -> ok a1) -> settles (k r) a1 -> settles (bindM op k) a.
Proof.
  intros Hop E Hok Hk m (Hm & Ha & HR). destruct (Hop _ m Hm eq_refl) as (m1 & E1 & Hm1 & HR1).
  destruct (Hk m1) as (m2 & E2 & H2); [split_and!; [done|by apply Hok|unfold linked; by rewrite E, HR1]|].
  exists m2. unfold bindM. by rewrite E1.
Qed.

Lemma settles_given (op : M (machine X) unit) a :
  (ok a -> NoDup (a_sleep a) -> settles op a) -> settles op a.
Proof. intros H m Hm. pose proof Hm as (Hr & Ha & _). apply H; [done|by apply (rep_nodup_sleep _ _ Hr)|done]. Qed.

Lemma settles_current (op : Z -> M (machine X) unit) h a : settles (op (cur a h)) a -> settles (fun m => op (current m h) m) a.
Proof. intros H m Hm. rewrite (current_rep m a h); [by apply H|apply Hm]. Qed.

(** A call does nothing on a hart without a current thread. *)
Lemma settles_caller h (op : Z -> M (machine X) unit) a :
  (cur a h <> 0 -> settles (op (cur a h)) a) -> settles (with_caller h op) a.
Proof.
  intros H m Hm. unfold with_caller. rewrite (current_rep m a h) by apply Hm. destruct (Z.eqb_spec (cur a h) 0) as [E|E].
  - exists m. split; [done|by exists a].
  - by apply H.
Qed.

Lemma settles_sched {A} (op : M (sched X) A) (k : A -> M (machine X) unit) a r a1 :
  (ok a -> sim op a r a1) -> a_cur a1 = a_cur a -> (ok a -> ok a1) -> settles (k r) a1 -> settles (bindM (on_sched op) k) a.
Proof. intros Hop E Hok Hk. apply settles_given. intros Ha _. eapply trap_settles_bind; [intros R; apply msim_sched; by apply Hop|done..]. Qed.

Lemma settles_preempt h a : (h < Max_CPUs)%nat -> settles (Handle_Preemption h) a.
Proof.
  intros Hh m (Hm & Ha & HR). destruct (Preempt_sim z h a _ Ha Hh HR) as (a2 & R2 & Hs & H2 & HR2). by eapply covered_intro.
Qed.

Lemma settles_schedule_now h a : (h < Max_CPUs)%nat -> settles (Schedule_Saved_Context h) a.
Proof.
  intros Hh m (Hm & Ha & HR). pose proof (my_loose' h a Ha) as HL.
  eapply covered_intro; [by apply Schedule_sim|done|by apply (yield_ok h a HL)|by apply linked_yield, linked_except].
Qed.

Lemma ok_hart_ok h a : ok a -> hart_ok a h.
Proof. intros Ha. by eapply (loose_hart_ok h), my_loose. Qed.
Lemma ok_known_cur a : ok a -> known_cur a.
Proof. intros Ha. by eapply (loose_known_cur 0), my_loose. Qed.
Lemma ok_due_ok now a : ok a -> due_ok now a.
Proof. intros Ha. by eapply (loose_due_ok 0), my_loose. Qed.

Lemma settles_tail h entering a : (h < Max_CPUs)%nat -> settles (syscall_tail h entering) a.
Proof.
  intros Hh. unfold syscall_tail. apply (settles_current (fun t m => if t =? entering then _ m else Done tt m)).
  intros m Hm. destruct (_ =? _); [|exists m; split; [done|by exists a]]. eapply settles_at; [|exact Hm].
  eapply settles_sched; [intros Ha; by apply Should_Preempt_sim, ok_hart_ok|done..|].
  destruct (a_should_preempt h a); [by apply settles_schedule_now|apply settles_ret].
Qed.

Lemma settles_wakes h ws k a :
  (forall t, t ∈ ws -> is_Some (a_info a !! t)) -> settles k (a_wakes ws a) -> settles (wake_all h ws ;; k) a.
Proof.
  intros Hw Hk. apply settles_given. intros Ha _. eapply trap_settles_bind; [intros R; apply wake_all_sim; [by left|done]|apply a_wakes_cur|by intros _; apply wakes_ok|done].
Qed.

Lemma settles_timer h now k a : settles k (a_check now a) -> settles (set_next_timer h now ;; k) a.
Proof.
  intros Hk. apply settles_given. intros Ha Hn. eapply trap_settles_bind; [|apply a_checks_cur|intros _; by apply check_ok|exact Hk].
  intros R. eapply msim_bind; [apply msim_sched, Next_Timer_Deadline_sim; [by apply ok_known_cur|by apply ok_due_ok]|].
  apply msim_sched, timer_sim.
Qed.

Lemma settles_last (op : M (machine X) unit) a : settles (op ;; retM tt) a -> settles op a.
Proof.
  intros H m Hm. destruct (H m Hm) as (m' & E & Hm'). exists m'. unfold bindM in E. destruct (op m) as [[] ?|?]; [|done]. by split.
Qed.

(** ** The traps *)

Lemma timer_settles h now a : (h < Max_CPUs)%nat -> settles (timer_interrupt h now) a.
Proof. intros Hh. apply settles_timer. by apply settles_preempt. Qed.

Lemma software_settles h a : (h < Max_CPUs)%nat -> settles (software_interrupt h) a.
Proof.
  intros Hh. eapply settles_sched; [intros Ha; by apply Should_Preempt_sim, ok_hart_ok|done..|].
  destruct (a_should_preempt h a); [by apply settles_preempt|apply settles_ret].
Qed.

Lemma external_settles h ws a :
  (h < Max_CPUs)%nat -> (forall t, t ∈ ws -> is_Some (a_info a !! t)) -> settles (external_interrupt h ws) a.
Proof.
  intros Hh Hw. apply settles_wakes; [done|]. set (a1 := a_wakes ws a).
  eapply settles_sched; [intros Ha; by apply Should_Preempt_sim, ok_hart_ok|done..|].
  apply settles_given. intros Ha _.
  intros m Hm. unfold bindM. destruct (a_should_preempt h a1).
  - by apply (settles_preempt h a1 Hh m Hm).
  - destruct (_ <=? 1)%nat; [|exists m; split; [done|by exists a1]].
    destruct Hm as (Hr & _ & HR). pose proof (msim_sched _ a1 (resumes m) _ a1 (Should_Boost_Preempt_sim h a1 (ok_hart_ok h a1 Ha)) m Hr eq_refl) as (m1 & E1 & Hm1 & HR1).
    rewrite E1. rewrite <- HR1 in HR. destruct (a_should_boost_preempt h a1).
    + by apply (settles_preempt h a1 Hh m1).
    + exists m1. split; [done|]. by exists a1.
Qed.

Lemma plain_settles h ws a :
  (h < Max_CPUs)%nat -> (forall t, t ∈ ws -> is_Some (a_info a !! t)) -> settles (plain_call h ws) a.
Proof.
  intros Hh Hw. apply settles_caller. intros _. apply settles_wakes; [done|]. by apply settles_tail.
Qed.

Lemma early_settles h ws a : (forall t, t ∈ ws -> is_Some (a_info a !! t)) -> settles (early_call h ws) a.
Proof.
  intros Hw. apply settles_caller. intros _. apply settles_last, settles_wakes; [done|]. apply settles_ret.
Qed.

(** The thread a hart runs. *)
Lemma my_thread h a : ok a -> cur a h <> 0 -> a_cur a !! h = Some (cur a h) /\ status_of a (cur a h) = Some Running.
Proof.
  intros Ha H0. pose proof (cur_lookup _ _ H0) as Hc. split; [done|]. apply (ok_runs _ Ha). split; [done|].
  by apply list_elem_of_lookup_2 in Hc.
Qed.

Lemma awake_running_after h ds a ws t :
  loose h ds [] awake a -> status_of a t = Some Running -> status_of (a_wakes ws a) t = Some Running.
Proof.
  revert a. induction ws as [|u ws IH]; intros a HL Hr; [done|]. cbn. apply IH; [apply wake_loose; [apply awake_not_blocked|set_solver|done]|].
  destruct (decide (t = u)) as [->|Hne]; [|by rewrite a_wake_status]. unfold a_wake. by rewrite Hr.
Qed.

(** Steps that end in scheduling, from a state between. *)
Definition ends (op : M (machine X) unit) a (R : list Z) : Prop :=
  forall m, rep (ksched m) a -> resumes m = R -> exists m', op m = Done tt m' /\ covered z m'.

Lemma trap_ends_bind {A} (op : M (machine X) A) (k : A -> M (machine X) unit) a R r a1 R1 :
  msim op a R r a1 R1 -> ends (k r) a1 R1 -> ends (bindM op k) a R.
Proof.
  intros H1 H2 m Hm HR. destruct (H1 m Hm HR) as (m1 & E1 & Hm1 & HR1). destruct (H2 m1 Hm1 HR1) as (m2 & E2 & H).
  exists m2. unfold bindM. by rewrite E1.
Qed.

Lemma ends_sched {A} (op : M (sched X) A) (k : A -> M (machine X) unit) a R r a1 :
  sim op a r a1 -> ends (k r) a1 R -> ends (bindM (on_sched op) k) a R.
Proof. intros H. apply trap_ends_bind. by apply msim_sched. Qed.

Lemma ends_schedule h a R :
  (h < Max_CPUs)%nat -> loose h [] [] not_ready a -> linked_but z h a R -> ends (Schedule_Saved_Context h) a R.
Proof.
  intros Hh HL HR m Hm <-. eapply covered_intro; [by apply Schedule_sim|done|by apply (yield_ok h a HL)|by apply linked_yield].
Qed.

Lemma settles_ends (op : M (machine X) unit) a : (forall R, ok a -> NoDup (a_sleep a) -> linked z a R -> ends op a R) -> settles op a.
Proof. intros H m (Hm & Ha & HR). by apply (H _ Ha (rep_nodup_sleep _ _ Hm) HR). Qed.

(** Only the current thread of the hart itself is given up. *)
Lemma linked_own h a a1 R : ok a -> linked z a R -> (forall k, k <> h -> a_cur a1 !! k = a_cur a !! k) -> linked_but z h a1 R.
Proof. intros Ha HR Hag. destruct (linked_except z h a R Ha HR) as [Hl H]. split; [done|]. intros k c Hk. rewrite Hag by done. by apply H. Qed.

Lemma blocking_settles h ws st a :
  (h < Max_CPUs)%nat -> (forall t, t ∈ ws -> is_Some (a_info a !! t)) -> may_block st = true ->
  settles (blocking_call h ws st) a.
Proof.
  intros Hh Hw Hst. apply settles_caller. intros H0.
  apply settles_wakes; [done|]. set (a1 := a_wakes ws a). apply settles_ends. intros R Ha1 _ HR.
  assert (cur a1 h = cur a h) as Ec by (unfold cur, a1; by rewrite a_wakes_cur). rewrite <- Ec in *.
  destruct (my_thread h a1 Ha1 H0) as [Hc Hr]. pose proof (status_known _ _ _ Hr) as Hi.
  assert (cur a1 h ∉ a_ready a1) as Hq by (rewrite (ok_ready _ Ha1); congruence).
  eapply ends_sched; [by apply upd_status_sim|]. eapply ends_sched; [apply upd_boosted_sim; by rewrite is_Some_set_info|].
  apply ends_schedule; [done| |by apply (linked_own h a1)].
  apply (block_loose h [] [] a1 st); [by apply my_loose|done|done|by destruct st|by destruct st].
Qed.

Lemma wait_settles h a : (h < Max_CPUs)%nat -> settles (wait_call h) a.
Proof.
  intros Hh. apply settles_caller. intros H0. apply settles_ends. intros R Ha _ HR. destruct (my_thread h a Ha H0) as [Hc Hr]. pose proof (status_known _ _ _ Hr) as Hi.
  assert (cur a h ∉ a_ready a) as Hq by (rewrite (ok_ready _ Ha); congruence).
  eapply ends_sched; [by apply Block_Current_sim|]. apply ends_schedule; [done| |apply (linked_own h a); [done..|]].
  - eapply drop_cur; [by apply (block_loose h [] [] a Blocked_Thread_Wait); [apply my_loose|..]|done|].
    intros u Hu _. cbn [set_info a_cur] in Hu. assert (u = cur a h) as -> by congruence.
    rewrite status_set_info, decide_True by done. rewrite info_set_info, decide_True by done. by destruct (a_info a !! cur a h).
  - intros k Hk. unfold a_block, set_cur. cbn [with_cur a_cur set_info]. by rewrite list_lookup_insert_ne.
Qed.

Lemma sleep_settles h d n1 n2 a : (h < Max_CPUs)%nat -> settles (sleep_call h d n1 n2) a.
Proof.
  intros Hh. apply settles_caller. intros H0. destruct (d <=? n1); [apply settles_ret|]. apply settles_ends. intros R Ha Hn HR.
  destruct (my_thread h a Ha H0) as [Hc Hr]. pose proof (status_known _ _ _ Hr) as Hi.
  assert (cur a h ∉ a_ready a) as Hq by (rewrite (ok_ready _ Ha); congruence).
  assert (cur a h ∉ a_sleep a) as Hq2 by (rewrite (ok_sleep _ Ha); congruence).
  eapply ends_sched; [apply Sleep_Until_sim; try done; [by apply ok_known_cur|by apply ok_due_ok]|].
  destruct (decide (d <= n2)) as [Hle|Hgt].
  - unfold a_sleep_until. rewrite (proj2 (Z.leb_le _ _) Hle). apply ends_schedule; [done|by apply my_loose'|by apply linked_except].
  - apply ends_schedule; [done| |apply (linked_own h a); [done..|]].
    + eapply sleep_loose; [by apply my_loose|done|exact Hc|done|lia|done].
    + intros k Hk. unfold a_sleep_until. rewrite (proj2 (Z.leb_gt _ _)) by lia. unfold a_block, set_cur. cbn [with_cur a_cur set_info].
      rewrite list_lookup_insert_ne by done. unfold a_check. by rewrite a_checks_cur.
Qed.

Lemma priority_settles h target p a :
  (h < Max_CPUs)%nat -> (forall t, target = Some t -> is_Some (a_info a !! t)) -> settles (priority_call h target p) a.
Proof.
  intros Hh Ht. apply settles_caller. intros H0. apply settles_given. intros Ha _.
  destruct (my_thread h a Ha H0) as [Hc Hr]. pose proof (status_known _ _ _ Hr) as Hi. destruct target as [t|].
  - eapply trap_settles_bind; [intros R; eapply msim_bind; [apply msim_sched, upd_priority_sim; by apply Ht|apply msim_sched, Notify_Work_sim]|done| |by apply settles_tail].
    intros _. by apply priority_ok.
  - eapply settles_sched; [intros _; by apply upd_priority_sim|done| |by apply settles_tail]. intros _. by apply priority_ok.
Qed.

Lemma create_settles h t p stack d x a :
  (h < Max_CPUs)%nat -> t <> 0 -> stack <> 0 -> a_info a !! t = None \/ status_of a t = Some Dead -> settles (create_call h t p stack d x) a.
Proof.
  intros Hh Ht Hst Hn. apply settles_caller. intros _. apply settles_given. intros Ha _.
  assert (forall st, status_of a t = Some st -> st = Dead) as Hd.
  { intros st Hst'. destruct Hn as [Hn|Hn]; [unfold status_of in Hst'; by rewrite Hn in Hst'|congruence]. }
  assert (t ∉ a_ready a) as Hr by (rewrite (ok_ready _ Ha); intros E%Hd; done).
  assert (t ∉ a_sleep a) as Hs by (rewrite (ok_sleep _ Ha); intros E%Hd; done).
  intros m Hm. unfold bindM at 1. pose proof Hm as (Hrep & _ & HR).
  destruct (msim_sched _ a (resumes m) _ _ (new_sim t p stack d x a Ht Hr Hs) m Hrep eq_refl) as (m1 & E1 & Hm1 & HR1). rewrite E1.
  assert (known_cur (a_new t p stack d x a)) as Hk.
  { intros u Hu. destruct (ok_known_cur a Ha u Hu) as [?|[i Hi]]; [by left|right]. cbn [a_new a_info].
    destruct (decide (u = t)) as [->|Hne]; [rewrite lookup_insert_eq; by eexists|rewrite lookup_insert_ne by done; by exists i]. }
  destruct (msim_sched _ _ (resumes m) _ _ (Add_Task_sim h t (a_new t p stack d x a) Ht ltac:(cbn [a_new a_info]; rewrite lookup_insert_eq; by eexists) Hr Hk) m1 Hm1 HR1) as (m2 & E2 & Hm2 & HR2).
  unfold bindM. rewrite E2. eapply settles_at; [by apply settles_tail|]. split_and!; [exact Hm2| |by rewrite HR2].
  by apply (create_ok t p stack d x a).
Qed.

Lemma exit_thread_sim h self e a R :
  loose h [] [] awake a -> is_Some (a_info a !! e.1) -> (forall t, t ∈ e.2 -> is_Some (a_info a !! t)) ->
  msim (exit_thread h self e) a R tt (a_exit_thread self e a) R.
Proof.
  intros HL Hi Hw. unfold exit_thread, a_exit_thread. cbv zeta. set (t := e.1) in *.
  assert (t <> 0) as Ht0 by (intros E; rewrite E in Hi; rewrite (l_null _ _ _ _ _ HL) in Hi; by apply is_Some_None in Hi).
  pose proof (stack_loose h a t HL) as H1.
  eapply msim_bind; [by apply msim_sched, upd_stack_sim|].
  eapply msim_bind. { apply wake_all_sim; [right; by exists h, [t]|]. intros u Hu. apply (is_Some_set_info a u t). by apply Hw. }
  set (a1 := a_wakes e.2 _).
  assert (is_Some (a_info a1 !! t)) as Hi1 by (unfold a1; by rewrite a_wakes_known, (is_Some_set_info a t t)).
  eapply msim_bind; [by apply msim_sched, kill_sim|]. destruct (negb (t =? self)); [|apply msim_ret].
  eapply msim_bind; [|apply msim_ret]. apply msim_sched, Remove_Thread_sim; [done|].
  unfold is_dead. rewrite status_set_info, decide_True by done. by destruct Hi1 as [j ->].
Qed.

Definition a_exit_threads (self : Z) (es : list (Z * list Z)) a : asched X := fold_left (fun a e => a_exit_thread self e a) es a.

(** Taking a thread from whichever hart runs it. *)
Lemma lookup_cleared (l : list Z) t k u :
  u <> 0 -> ((fun v => if v =? t then 0 else v) <$> l) !! k = Some u <-> l !! k = Some u /\ u <> t.
Proof.
  intros Hu. rewrite list_lookup_fmap. destruct (l !! k) as [v|]; cbn; [|naive_solver].
  destruct (Z.eqb_spec v t); naive_solver.
Qed.

Lemma remove_loose h a t :
  loose h [t] [] awake a -> is_Some (a_info a !! t) -> a_cur a !! h <> Some t ->
  loose h [] [] awake (a_remove t (set_info t (i_set_status Dead) a)).
Proof.
  intros HL [i0 Hi0] Hh. set (a' := a_remove t (set_info t (i_set_status Dead) a)).
  assert (t <> 0) as Ht0 by (intros ->; by rewrite (l_null _ _ _ _ _ HL) in Hi0).
  assert (Hinf : forall u, a_info a' !! u = if decide (u = t) then i_set_status Dead <$> a_info a !! u else a_info a !! u)
    by (intros u; apply info_set_info).
  assert (Hs : forall u, status_of a' u = if decide (u = t) then Some Dead else status_of a u).
  { intros u. unfold status_of at 1. rewrite Hinf. case_decide as E; [|done]. by rewrite E, Hi0. }
  assert (a_ready a' = a_ready a /\ a_sleep a' = without t (a_sleep a) /\
    a_cur a' = (fun v => if v =? t then 0 else v) <$> a_cur a) as (E1 & E2 & E3) by done.
  clearbody a'. destruct HL. split; rewrite ?E1, ?E2, ?E3.
  - rewrite Hinf, decide_False; done.
  - intros u. rewrite Hs. case_decide; [done|apply l_ready].
  - intros u Hu. rewrite Hs. case_decide; [by right|by apply l_queue].
  - intros u. rewrite Hs. case_decide; [done|]. intros Hu. destruct (l_runs u Hu) as [k Hk]. exists k.
    apply lookup_cleared; [|done]. intros ->. unfold status_of in Hu. by rewrite l_null in Hu.
  - intros k u Hk Hu Hne. apply lookup_cleared in Hk as [Hk Hut]; [|done]. rewrite Hs, decide_False by done. by eapply l_other.
  - intros u Hk Hu. apply lookup_cleared in Hk as [Hk Hut]; [|done]. rewrite Hs, decide_False by done. by apply l_mine.
  - intros k k' u Hk Hk' Hu. apply lookup_cleared in Hk as [Hk _]; [|done]. apply lookup_cleared in Hk' as [Hk' _]; [|done]. by eapply l_once.
  - intros u. rewrite elem_of_without, l_sleep, Hs. case_decide; [subst; set_solver|set_solver].
  - apply sorted_without. eapply sorted_ext; [|exact l_sorted]. intros u _. unfold deadline_of. rewrite Hinf.
    case_decide; [|done]. by destruct (a_info a !! u).
  - intros u i. rewrite Hinf. case_decide; [intros (j & Hj & ->)%fmap_Some; done|]. intros Hi Hd _. apply (l_stack u i Hi Hd). set_solver.
  - intros u i. rewrite Hinf. case_decide; [intros (j & Hj & ->)%fmap_Some; done|apply l_fresh].
  - by rewrite length_fmap.
Qed.

Lemma exit_any_loose h self e a :
  loose h [] [] awake a -> a_cur a !! h = Some self -> self <> 0 -> is_Some (a_info a !! e.1) ->
  loose h [] [] awake (a_exit_thread self e a) /\ a_cur (a_exit_thread self e a) !! h = Some self.
Proof.
  intros HL Hc Hs0 Hi. destruct (decide (e.1 = self)) as [E|E].
  - destruct (exit_thread_loose h self e a HL Hc Hi) as [H1 H2].
    { intros k Hk. eapply (l_once _ _ _ _ _ HL); [exact Hk|by rewrite E|congruence]. }
    by rewrite H2.
  - pose proof (stack_loose h a e.1 HL) as H1. apply (wakes_loose h [e.1] awake e.2 awake_not_blocked) in H1.
    unfold a_exit_thread. cbv zeta. rewrite (proj2 (Z.eqb_neq _ _) E). cbn [negb]. set (a1 := a_wakes e.2 _) in *.
    assert (a_cur a1 = a_cur a) as Ec by (unfold a1; by rewrite a_wakes_cur).
    assert (is_Some (a_info a1 !! e.1)) as Hi1 by (unfold a1; by rewrite a_wakes_known, (is_Some_set_info a e.1 e.1)).
    split; [apply remove_loose; [done|done|rewrite Ec, Hc; congruence]|].
    unfold a_remove. cbn [with_sleep with_cur a_cur set_info]. apply lookup_cleared; [done|]. by rewrite Ec.
Qed.

(** A thread that is dead stays dead, a hart without a thread stays so. *)
Lemma dead_wakes ws t : forall a, is_dead a t -> is_dead (a_wakes ws a) t.
Proof.
  induction ws as [|u ws IH]; intros a Hd; [done|]. cbn. apply IH. unfold is_dead in *.
  destruct (decide (t = u)) as [->|Hne]; [|by rewrite a_wake_status]. unfold a_wake. by rewrite Hd.
Qed.

Lemma dead_set_info a t u g : is_dead a t -> (u = t -> forall i, i_status i = Dead -> i_status (g i) = Dead) -> is_dead (set_info u g a) t.
Proof.
  unfold is_dead. intros Hd Hg. rewrite status_set_info. case_decide; [|done]. subst. destruct (status_known _ _ _ Hd) as [i Hi].
  rewrite Hi. cbn. rewrite Hg; [done|done|]. rewrite (info_status _ _ _ Hi) in Hd. congruence.
Qed.

Lemma exit_thread_dead self e a t : is_dead a t \/ (t = e.1 /\ is_Some (a_info a !! t)) -> is_dead (a_exit_thread self e a) t.
Proof.
  intros Hd. unfold a_exit_thread. cbv zeta. set (a1 := a_wakes e.2 _).
  assert (is_dead (set_info e.1 (i_set_status Dead) a1) t) as H; [|by case_match].
  destruct Hd as [Hd|[-> Hi]].
  - apply dead_set_info; [|done]. apply dead_wakes. by apply dead_set_info.
  - unfold is_dead. rewrite status_set_info, decide_True by done.
    assert (is_Some (a_info a1 !! e.1)) as [j ->] by (unfold a1; by rewrite a_wakes_known, (is_Some_set_info a e.1 e.1)). done.
Qed.

Lemma exit_thread_idle self e a k : a_cur a !! k = Some 0 \/ (a_cur a !! k = Some e.1 /\ e.1 <> self) -> a_cur (a_exit_thread self e a) !! k = Some 0.
Proof.
  intros Hk. unfold a_exit_thread. cbv zeta. case_match eqn:E.
  - unfold a_remove. cbn [with_sleep with_cur a_cur set_info]. rewrite a_wakes_cur. cbn [set_info a_cur].
    rewrite list_lookup_fmap. destruct Hk as [->|[-> _]]; cbn; [by case_match|by rewrite Z.eqb_refl].
  - cbn [set_info a_cur]. rewrite a_wakes_cur. cbn. destruct Hk as [?|[_ ?]]; [done|]. by apply negb_false_iff, Z.eqb_eq in E.
Qed.

Lemma exit_thread_curs self e a k t : a_cur a !! k = Some t ->
  a_cur (a_exit_thread self e a) !! k = Some t \/ (a_cur (a_exit_thread self e a) !! k = Some 0 /\ t = e.1).
Proof.
  intros Hk. unfold a_exit_thread. cbv zeta. case_match.
  - unfold a_remove. cbn [with_sleep with_cur a_cur set_info]. rewrite a_wakes_cur. cbn [set_info a_cur].
    rewrite list_lookup_fmap, Hk. cbn. destruct (Z.eqb_spec t e.1); [by right|by left].
  - cbn [set_info a_cur]. rewrite a_wakes_cur. by left.
Qed.

Lemma exit_all_sim h self R es : forall a,
  loose h [] [] awake a -> a_cur a !! h = Some self -> self <> 0 ->
  (forall e, e ∈ es -> is_Some (a_info a !! e.1) /\ (forall t, t ∈ e.2 -> is_Some (a_info a !! t))) ->
  let a' := a_exit_threads self es a in
  msim (exit_threads h self es) a R tt a' R /\ loose h [] [] awake a' /\ a_cur a' !! h = Some self /\
  (forall t, is_Some (a_info a' !! t) <-> is_Some (a_info a !! t)) /\
  (forall t, is_dead a t \/ (is_Some (a_info a !! t) /\ t ∈ es.*1) -> is_dead a' t) /\
  (forall k t, a_cur a !! k = Some t -> t = 0 \/ (t ∈ es.*1 /\ t <> self) -> a_cur a' !! k = Some 0) /\
  (forall k t, a_cur a !! k = Some t -> a_cur a' !! k = Some t \/ (a_cur a' !! k = Some 0 /\ t ∈ es.*1)).
Proof.
  induction es as [|e es IH]; intros a HL Hc Hs0 He; cbv zeta.
  - split_and!; [apply msim_ret|done|done|done|naive_solver set_solver| |by left]. intros k t Hk [->|[? _]]; [done|set_solver].
  - destruct (He e) as (H1 & H2); [set_solver|]. destruct (exit_any_loose h self e a HL Hc Hs0 H1) as [HL1 Hc1].
    destruct (IH (a_exit_thread self e a) HL1 Hc1 Hs0) as (I1 & I2 & I3 & I4 & I5 & I6 & I7).
    { intros e' He'. destruct (He e') as (J1 & J2); [set_solver|]. split; [by rewrite exit_thread_known|].
      intros t Ht. rewrite exit_thread_known. by apply J2. }
    unfold a_exit_threads in *. cbn [fold_left fmap list_fmap]. split_and!; [|done|done| | | |].
    + cbn [exit_threads]. eapply msim_bind; [by apply exit_thread_sim|exact I1].
    + intros t. by rewrite I4, exit_thread_known.
    + intros t [Hd|[Hi Ht]]; apply I5; [left; apply exit_thread_dead; by left|].
      apply elem_of_cons in Ht as [->|Ht]; [left; apply exit_thread_dead; by right|right]. by rewrite exit_thread_known.
    + intros k t Hk Ht. destruct (decide (t = 0 \/ (t = e.1 /\ t <> self))) as [Hd|Hd].
      * apply (I6 k 0); [|by left]. apply exit_thread_idle. destruct Hd as [->|[-> ?]]; [by left|right; done].
      * destruct Ht as [->|[Ht Hts]]; [exfalso; tauto|]. assert (t ∈ es.*1) as Ht' by (apply elem_of_cons in Ht as [->|Ht]; [exfalso; tauto|done]).
        apply (I6 k t); [|by right]. unfold a_exit_thread. cbv zeta. case_match.
        -- unfold a_remove. cbn [with_sleep with_cur a_cur set_info]. apply lookup_cleared; [tauto|]. rewrite a_wakes_cur. cbn [set_info a_cur].
           split; [done|]. intros ->. tauto.
        -- cbn [set_info a_cur]. by rewrite a_wakes_cur.
    + intros k t Hk. destruct (exit_thread_curs self e a k t Hk) as [E|[E ->]].
      * destruct (I7 k t E) as [?|[? ?]]; [by left|right]. split; [done|]. cbn. set_solver.
      * right. split; [apply (I6 k 0); [done|by left]|cbn; set_solver].
Qed.

(** The last steps of an exit: the threads of the process are dead. *)
Lemma exit_current_loose h self a : (h < Max_CPUs)%nat -> self <> 0 ->
  loose h [] [] awake a -> a_cur a !! h = Some self -> is_Some (a_info a !! self) -> loose h [] [] not_ready (a_exit h a).
Proof.
  intros Hh H0 HL Hc Hi. assert (cur a h = self) as Es by (unfold cur; by rewrite (nth_lookup_Some _ _ _ _ Hc)).
  assert (a_exit h a = set_cur h 0 (a_kill self a)) as -> by (unfold a_exit; by rewrite Es).
  eapply drop_cur; [apply (kill_loose h a self)|done|].
  - destruct HL. split; try done. intros u i Hu Hd _. apply (l_stack u i Hu Hd). set_solver.
  - done.
  - intros k Hk. by eapply (l_once _ _ _ _ _ HL).
  - intros u Hu _. cbn [a_kill with_sleep set_info a_cur] in Hu. rewrite Hc in Hu. injection Hu as <-.
    change (status_of (a_kill self a)) with (status_of (set_info self (i_set_status Dead) a)).
    rewrite status_set_info, decide_True by done. by destruct Hi as [j ->].
Qed.

Lemma exit_settles h es ws a :
  (h < Max_CPUs)%nat ->
  (forall e, e ∈ es -> is_Some (a_info a !! e.1) /\ (forall t, t ∈ e.2 -> is_Some (a_info a !! t))) ->
  z = true \/ (forall e k, e ∈ es -> a_cur a !! k = Some e.1 -> k = h) ->
  (forall t, t ∈ ws -> is_Some (a_info a !! t)) -> settles (exit_call h es ws) a.
Proof.
  intros Hh He Hz Hw. apply settles_caller. intros H0. apply settles_ends. intros R Ha _ HR.
  destruct (my_thread h a Ha H0) as [Hc Hr]. set (self := cur a h) in *.
  destruct (exit_all_sim h self R es a (my_loose h a Ha) Hc H0 He) as (I1 & I2 & I3 & I4 & _ & _ & I7).
  eapply trap_ends_bind; [exact I1|]. set (a1 := a_exit_threads self es a) in *.
  eapply trap_ends_bind. { apply wake_all_sim; [right; by exists h, []|]. intros t Ht. rewrite I4. by apply Hw. }
  apply (wakes_loose h [] awake ws awake_not_blocked) in I2. set (a2 := a_wakes ws a1) in *.
  assert (a_cur a2 = a_cur a1) as Ec2 by (unfold a2; by rewrite a_wakes_cur).
  assert (cur a2 h = self) as Es by (unfold cur; by rewrite Ec2, (nth_lookup_Some _ _ _ _ I3)).
  assert (is_Some (a_info a2 !! self)) as Hi2 by (unfold a2; rewrite a_wakes_known, I4; by eapply status_known).
  eapply ends_sched; [apply Exit_Current_sim; by rewrite Es|]. rewrite bool_decide_eq_true_2 by done. cbn [negb].
  apply ends_schedule; [done|by apply (exit_current_loose h self); rewrite ?Ec2|].
  destruct (linked_except z h a R Ha HR) as [Hl HRk]. split; [done|]. intros k c Hk. unfold a_exit. rewrite Es. unfold set_cur.
  cbn [with_cur a_cur set_info with_sleep]. rewrite list_lookup_insert_ne by done. rewrite Ec2. intros Hkc.
  destruct (lookup_lt_is_Some_2 (a_cur a) k) as [t Ht].
  { apply lookup_lt_Some in Hkc. rewrite <- Ec2, (l_harts _ _ _ _ _ I2) in Hkc. by rewrite (ok_harts _ Ha). }
  destruct (HRk k t Hk Ht) as (r & Hr' & Hlr). exists r. split; [done|].
  destruct (I7 k t Ht) as [E|[E (e & -> & Hin)%list_elem_of_fmap]]; rewrite E in Hkc; injection Hkc as <-; [done|].
  destruct Hz as [->|Hz]; [by right|]. by apply (Hz e k) in Ht.
Qed.

Lemma thread_exit_settles h ws a :
  (h < Max_CPUs)%nat -> (forall t, t ∈ ws -> is_Some (a_info a !! t)) -> settles (thread_exit_call h ws) a.
Proof.
  intros Hh Hw. apply settles_caller. intros H0. apply settles_ends. intros R Ha _ HR. destruct (my_thread h a Ha H0) as [Hc Hr]. set (self := cur a h) in *.
  pose proof (my_loose h a Ha) as HL. pose proof (stack_loose h a self HL) as H1.
  eapply ends_sched; [apply upd_stack_sim; by eapply status_known|].
  eapply trap_ends_bind. { apply wake_all_sim; [right; by exists h, [self]|]. intros u Hu. apply (is_Some_set_info a u self). by apply Hw. }
  apply (wakes_loose h [self] awake ws awake_not_blocked) in H1. set (a1 := a_wakes ws _) in *.
  assert (a_cur a1 = a_cur a) as Ec by (unfold a1; by rewrite a_wakes_cur).
  assert (is_Some (a_info a1 !! self)) as Hi1 by (unfold a1; rewrite a_wakes_known, (is_Some_set_info a self self); by eapply status_known).
  eapply ends_sched; [by apply kill_sim|].
  assert (status_of (set_info self (i_set_status Dead) a1) self = Some Dead) as Hd
    by (rewrite status_set_info, decide_True by done; by destruct Hi1 as [j ->]).
  eapply ends_sched; [by apply Remove_Thread_sim|].
  assert (forall k, a_cur a1 !! k = Some self -> k = h) as Honly by (intros k Hk; rewrite Ec in Hk; by eapply (ok_once _ Ha)).
  assert (a_remove self (set_info self (i_set_status Dead) a1) = set_cur h 0 (a_kill self a1)) as Er.
  { unfold a_remove, set_cur, a_kill, with_sleep, with_cur. cbn [a_info a_ready a_sleep a_cur set_info]. f_equal.
    apply list_eq. intros k. rewrite list_lookup_fmap. destruct (decide (k = h)) as [->|Hne].
    - rewrite Ec, Hc. cbn. rewrite Z.eqb_refl, list_lookup_insert_eq; [done|]. by apply lookup_lt_Some in Hc.
    - rewrite list_lookup_insert_ne by done. destruct (a_cur a1 !! k) as [u|] eqn:Hu; [|done]. cbn.
      destruct (Z.eqb_spec u self) as [->|]; [by apply Honly in Hu|done]. }
  rewrite Er. apply ends_schedule; [done| |apply (linked_own h a); [done..|]].
  - eapply drop_cur; [by apply (kill_loose h a1 self)|done|]. intros t Ht _. cbn [a_kill with_sleep set_info a_cur] in Ht.
    rewrite Ec, Hc in Ht. injection Ht as <-.
    change (status_of (a_kill self a1)) with (status_of (set_info self (i_set_status Dead) a1)). by rewrite Hd.
  - intros k Hk. unfold set_cur, a_kill. cbn [with_cur with_sleep a_cur set_info]. by rewrite list_lookup_insert_ne, Ec.
Qed.

Lemma poll_settles h ws now a : (forall t, t ∈ ws -> is_Some (a_info a !! t)) -> settles (Poll_Pending_Interrupts h ws ;; set_next_timer h now) a.
Proof.
  intros Hw. unfold Poll_Pending_Interrupts. destruct (h =? 0)%nat.
  - apply settles_wakes; [done|]. apply settles_last, settles_timer, settles_ret.
  - apply (settles_wakes h []); [set_solver|]. apply settles_last, settles_timer, settles_ret.
Qed.

Lemma yield_known h a t : is_Some (a_info (a_yield h a) !! t) <-> is_Some (a_info a !! t).
Proof.
  assert (is_Some (a_info (requeue h a) !! t) <-> is_Some (a_info a !! t)) as Hq.
  { unfold requeue. destruct (runs a h); [|done]. cbv zeta. change (a_info (with_ready ?l ?b)) with (a_info b). by rewrite (is_Some_set_info a t (cur a h)). }
  rewrite <- Hq. unfold a_yield. cbv zeta. set (b := requeue h a).
  assert (is_Some (a_info (a_pop b).2 !! t) <-> is_Some (a_info b !! t)) as Hp.
  { unfold a_pop. cbv zeta. cbn [snd]. case_match; [done|]. by rewrite (is_Some_set_info _ t). }
  rewrite <- Hp. case_match; [done|]. by rewrite (is_Some_set_info _ t).
Qed.

Lemma idle_settles h ws now a : (h < Max_CPUs)%nat -> cur a h = 0 -> (forall t, t ∈ ws -> is_Some (a_info a !! t)) ->
  forall m, covered_as z m a -> resumed m h = 0 -> exists m', idle_round h ws now m = Done tt m' /\ covered z m'.
Proof.
  intros Hh H0 Hw m (Hm & Ha & HR) Hres. pose proof (my_loose' h a Ha) as HL. pose proof (yield_ok h a HL Hh) as Hok.
  unfold idle_round, bindM at 1.
  destruct (msim_sched _ a (resumes m) _ _ (Yield_sim h a (ok_hart_ok h a Ha) (ok_known_cur a Ha)) m Hm eq_refl) as (m1 & E1 & Hm1 & HR1).
  rewrite E1. rewrite (current_rep m1 _ h Hm1).
  pose proof (linked_yield z h a (resumes m) Hh HL (linked_except z h a _ Ha HR)) as Hlk.
  assert (forall t, t ∈ ws -> is_Some (a_info (a_yield h a) !! t)) as Hw1 by (intros t Ht; by apply yield_known, Hw).
  set (a1 := a_yield h a) in *. destruct (Z.eqb_spec (cur a1 h) 0) as [E|E].
  - rewrite andb_false_r. apply (poll_settles h ws now a1 Hw1). split_and!; [done..|]. rewrite HR1. rewrite E in Hlk.
    rewrite list_insert_id in Hlk; [done|]. pose proof (Forall2_length _ _ _ HR) as Hl. pose proof (ok_harts _ Ha).
    destruct (lookup_lt_is_Some_2 (resumes m) h) as [v Hv]; [lia|]. unfold resumed in Hres. by rewrite Hv, <- Hres, (nth_lookup_Some _ _ _ _ Hv).
  - assert (yield_result h a = Sched_Ok) as ->.
    { unfold yield_result. rewrite <- (yield_cur h a HL Hh). fold a1. by rewrite (proj2 (Z.eqb_neq _ _) E). }
    rewrite bool_decide_eq_true_2 by done. cbn [negb andb].
    destruct (my_thread h a1 Hok E) as [Hc Hr]. destruct (status_known _ _ _ Hr) as [i Hi].
    eapply covered_intro; [|exact Hm1|exact Hok|exact Hlk]. rewrite HR1. apply (msim_tcb _ i); [done|]. intros c Hcc.
    assert (Kernel_Stack_Top c <> 0) as Hst.
    { assert (i_stack i = Kernel_Stack_Top c) as <- by by subst i. apply (ok_stack _ Hok _ i Hi).
      rewrite (info_status _ _ _ Hi) in Hr. injection Hr as ->. done. }
    rewrite (proj2 (Z.eqb_neq _ _) Hst). cbn [negb]. apply msim_resume.
Qed.

(** Any trap that may happen leads to a covered machine. *)
Lemma trap_settles h e m :
  covered z m -> legal h e m = true -> z = true \/ orderly h e m = true -> exists m', take_trap h e m = Done tt m' /\ covered z m'.
Proof.
  intros [a Hs] Hl Hz. pose proof Hs as (Hm & Ha & HR). unfold legal in Hl.
  apply andb_true_iff in Hl as [[Hh%Nat.ltb_lt Hcur]%andb_true_iff Hl].
  destruct e; cbn [take_trap]; repeat (apply andb_true_iff in Hl as [Hl ?]).
  - by apply (timer_settles h now a Hh).
  - by apply (software_settles h a Hh).
  - apply (external_settles h ws a Hh); [by apply (all_known m)|done].
  - apply (plain_settles h ws a Hh); [by apply (all_known m)|done].
  - apply (early_settles h ws a); [by apply (all_known m)|done].
  - by apply (settles_schedule_now h a Hh).
  - apply (blocking_settles h ws st a Hh); [by apply (all_known m)|done|done].
  - by apply (wait_settles h a Hh).
  - by apply (sleep_settles h deadline now1 now2 a Hh).
  - apply (priority_settles h target p a Hh); [|done]. intros t ->. by apply (known_iff m).
  - apply (create_settles h t p stack d x a Hh); [by apply Z.eqb_neq, negb_true_iff|by apply Z.eqb_neq, negb_true_iff|by apply (unused_iff m)|done].
  - apply (exit_settles h es ws a Hh); [| |by apply (all_known m)|done].
    + intros e He. rewrite forallb_forall in Hl. apply list_elem_of_In, Hl in He.
      apply andb_true_iff in He as [H1 H2]. split; [by apply (known_iff m)|by apply (all_known m)].
    + destruct Hz as [Hz|Hz]; [by left|right]. cbn [orderly] in Hz. rewrite forallb_forall in Hz. intros e k He.
      apply (only_on_iff m); [done|]. by apply Hz, list_elem_of_In.
  - apply (thread_exit_settles h ws a Hh); [by apply (all_known m)|done].
  - apply Z.eqb_eq in Hcur. apply (idle_settles h ws now a Hh); [|by apply (all_known m)|done..].
    destruct (lookup_lt_is_Some_2 (a_cur a) h) as [c Hc]; [by rewrite (ok_harts _ Ha)|].
    destruct (linked_lookup z a _ h c HR Hc) as (r & Hr & Hlr). unfold cur. rewrite (nth_lookup_Some _ _ _ _ Hc).
    unfold resumed in Hcur. rewrite (nth_lookup_Some _ _ _ _ Hr) in Hcur. destruct Hlr as [<-|[_ ?]]; done.
Qed.

Lemma traps_settle es : forall m,
  covered z m -> legal_run es m = true -> z = true \/ orderly_run es m = true -> exists m', take_traps es m = Done tt m' /\ covered z m'.
Proof.
  unfold legal_run, orderly_run. induction es as [|e es IH]; intros m Hm Hl Hz; [by exists m|]. cbn [at_each take_traps] in *.
  apply andb_true_iff in Hl as [Hl Hr].
  destruct (trap_settles e.1 e.2 m Hm Hl) as (m1 & E1 & H1); [destruct Hz as [?|[? _]%andb_true_iff]; tauto|]. rewrite E1 in Hr, Hz.
  destruct (IH m1 H1 Hr) as (m2 & E2 & H2); [destruct Hz as [?|[_ ?]%andb_true_iff]; tauto|]. exists m2. unfold bindM. by rewrite E1.
Qed.

End traps.

(** A history in which no process exits under a running thread settles. *)
Lemma orderly_settles {X : Type} es (m : machine X) :
  settled m -> legal_run es m = true -> orderly_run es m = true -> exists m', take_traps es m = Done tt m' /\ settled m'.
Proof.
  intros Hm Hl Ho. destruct (traps_settle false es m) as (m' & E & H); [by apply covered_settled|done|by right|].
  exists m'. split; [done|]. by apply covered_settled.
Qed.
