(* ===== verification/KTrapClaims.v ===== *)
(** * What the scheduler promises

    No thread is lost: after any history of traps every thread is where its
    state says, on the harts, in the ready queue or in the sleep queue.  The
    hart that schedules takes the best thread, the threads of a priority take
    turns, sleepers are woken in time; and what goes wrong when a process ends
    while another hart runs one of its threads. *)
From Stdlib Require Import Sorted.
From S2P Require Import Prelude CInt KSched KSchedSpec KSchedOps KTrap KTrapSpec KTrapOps KTrapInv.

Section claims.
Context {X : Type}.
Implicit Types (a : asched X) (h : nat) (t : Z) (m : machine X).

(** ** Boot *)

Definition a_boot t (p stack d : Z) (x : X) : asched X :=
  ASched {[t := Info Running p false d stack x]} [] [] (<[0%nat := t]> (replicate Max_CPUs 0)).

Lemma boot_settled t p stack d x n ids :
  t <> 0 -> stack <> 0 -> exists m, boot t p stack d x n ids = Done tt m /\ settled m.
Proof.
  intros Ht Hst. unfold boot, on_sched, Sched_Initialize, Set_Current, Set_My_Current, bindM, modifyM, retM, upd_tcb.
  rewrite (proj2 (Z.eqb_neq t 0)) by done. cbn [ksched threads Current_TCBS set_currents boot_sched].
  rewrite lookup_singleton_eq. cbn [threads set_threads]. rewrite insert_singleton_eq, lookup_singleton_eq.
  cbn [threads set_threads ksched resumes]. rewrite insert_singleton_eq.
  eexists. split; [done|]. exists (a_boot t p stack d x).
  assert (Hs : forall u, status_of (a_boot t p stack d x) u = if decide (u = t) then Some Running else None).
  { intros u. unfold status_of, a_boot. cbn [a_info]. case_decide as E; [subst; by rewrite lookup_singleton_eq|by rewrite lookup_singleton_ne]. }
  split_and!; [| |done].
  - split; cbn [ksched threads Ready_Head Ready_Tail Ready_N Sleep_Head Current_TCBS set_threads set_currents a_boot a_info a_ready a_sleep a_cur]; try done.
    + by rewrite map_fmap_singleton.
    + by rewrite lookup_singleton_ne.
    + constructor.
    + intros u c [<- <-]%lookup_singleton_Some. done.
    + constructor.
  - split; unfold a_boot; cbn [a_info a_ready a_sleep a_cur]; fold (a_boot t p stack d x); try done.
    + by rewrite lookup_singleton_ne.
    + intros u. rewrite Hs. case_decide; set_solver.
    + intros u. rewrite Hs, list_elem_of_lookup. setoid_rewrite (lookup_set_cur 0 (replicate Max_CPUs 0)); [|by vm_compute; lia]. split.
      * case_decide; [subst|done]. intros _. split; [done|]. exists 0%nat. by left.
      * intros (H0 & k & [[_ ->]|[_ [-> _]%lookup_replicate]]); [by rewrite decide_True|done].
    + intros k k' u. rewrite !(lookup_set_cur 0 (replicate Max_CPUs 0)) by (vm_compute; lia).
      intros [[-> ->]|[_ [-> _]%lookup_replicate]] [[-> _]|[_ [E _]%lookup_replicate]]; done.
    + intros u. rewrite Hs. case_decide; set_solver.
    + constructor.
    + intros u i [<- <-]%lookup_singleton_Some. done.
    + intros u i [<- <-]%lookup_singleton_Some. done.
Qed.

(** C3. No thread is lost.  After any history of interrupts, system calls and
    idle rounds on any harts, process exits while other harts run threads of
    the process among them, every trap returned and every thread is where its
    state says: the ready queue, forwards and backwards, holds exactly the
    ready threads, each once, and the sleep queue exactly the sleeping ones in
    the order of their deadlines; a thread runs exactly if it is the current
    thread of a hart, of one hart only, and a hart that has a current thread
    returns into it.  If moreover no process exits while another hart runs one
    of its threads, every hart returns into its current thread, and a hart
    without one into the idle loop. *)
Theorem threads_accounted t p stack d x n ids es m0 :
  t <> 0 -> stack <> 0 -> boot t p stack d x n ids = Done tt m0 -> @legal_run X es m0 = true ->
  exists m, take_traps es m0 = Done tt m /\ covered true m /\ (orderly_run es m0 = true -> settled m).
Proof.
  intros Ht Hst E Hl. destruct (boot_settled t p stack d x n ids Ht Hst) as (m1 & E1 & H1).
  assert (m1 = m0) as -> by congruence.
  destruct (traps_settle true es m0) as (m & Em & Hm); [by apply covered_weaken, covered_settled|done|by left|].
  exists m. split_and!; [done|done|]. intros Ho. destruct (orderly_settles es m0 H1 Hl Ho) as (m' & Em' & Hm'). congruence.
Qed.

(** ** Taking turns *)

(** The order of [Better] as a number. *)
Definition rank (i : info X) : Z := 2 * i_priority i + (if i_boosted i then 1 else 0).
Definition rank_of a t : Z := match a_info a !! t with Some i => rank i | None => 0 end.

Lemma better_rank i j : i_better i j = (rank j <? rank i).
Proof.
  unfold i_better, rank. apply eq_true_iff_eq. rewrite Z.ltb_lt, orb_true_iff, !andb_true_iff, Z.ltb_lt, Z.eqb_eq, negb_true_iff.
  destruct (i_boosted i), (i_boosted j); intuition (try lia; try discriminate).
Qed.

Definition all_known_in a (l : list Z) : Prop := forall t, t ∈ l -> is_Some (a_info a !! t).

(** The chosen thread is the first of the highest rank. *)
Lemma choose_first a l : forall b, b <> 0 -> is_Some (a_info a !! b) -> 0 ∉ l -> all_known_in a l ->
  let c := choose a b l in
  (c = b /\ (forall u, u ∈ l -> rank_of a u <= rank_of a b)) \/
  (exists l1 l2, l = l1 ++ c :: l2 /\ rank_of a b < rank_of a c /\
     (forall u, u ∈ l1 -> rank_of a u < rank_of a c) /\ (forall u, u ∈ l2 -> rank_of a u <= rank_of a c)).
Proof.
  induction l as [|t l IH]; intros b Hb Hkb H0 Hk; cbn [choose]; [left; split; [done|set_solver]|].
  rewrite (proj2 (Z.eqb_neq b 0)) by done.
  assert (better a t b = (rank_of a b <? rank_of a t)) as ->.
  { unfold better, rank_of. destruct (Hk t) as [i Hi]; [set_solver|]. destruct Hkb as [j Hj]. rewrite Hi, Hj. apply better_rank. }
  assert (t <> 0) as Ht by set_solver. assert (is_Some (a_info a !! t)) as Hkt by (apply Hk; set_solver).
  assert (0 ∉ l) as H0' by set_solver. assert (all_known_in a l) as Hk' by (intros u Hu; apply Hk; set_solver).
  destruct (Z.ltb_spec (rank_of a b) (rank_of a t)) as [Hlt|Hge].
  - destruct (IH t Ht Hkt H0' Hk') as [[E Hmax]|(l1 & l2 & El & H1 & H2 & H3)].
    + right. exists [], l. rewrite E. split_and!; [done|done|set_solver|done].
    + right. exists (t :: l1), l2. split_and!; [by rewrite El at 1|lia| |done]. intros u [->|Hu]%elem_of_cons; [lia|by apply H2].
  - destruct (IH b Hb Hkb H0' Hk') as [[E Hmax]|(l1 & l2 & El & H1 & H2 & H3)].
    + left. split; [done|]. intros u [->|Hu]%elem_of_cons; [lia|by apply Hmax].
    + right. exists (t :: l1), l2. split_and!; [by rewrite El at 1|lia| |done]. intros u [->|Hu]%elem_of_cons; [lia|by apply H2].
Qed.

Lemma choose_best a l : 0 ∉ l -> all_known_in a l -> l <> [] ->
  exists l1 l2, l = l1 ++ choose a 0 l :: l2 /\
    (forall u, u ∈ l1 -> rank_of a u < rank_of a (choose a 0 l)) /\ (forall u, u ∈ l2 -> rank_of a u <= rank_of a (choose a 0 l)).
Proof.
  destruct l as [|t l]; [done|]. intros H0 Hk _. cbn [choose Z.eqb].
  destruct (choose_first a l t) as [[E Hmax]|(l1 & l2 & El & H1 & H2 & H3)]; [set_solver|apply Hk; set_solver|set_solver|intros u Hu; apply Hk; set_solver| |].
  - rewrite E. exists [], l. split_and!; [done|set_solver|done].
  - exists (t :: l1), l2. split_and!; [by rewrite El at 1| |done]. intros u [->|Hu]%elem_of_cons; [lia|by apply H2].
Qed.

(** The threads of [l1 ++ t :: l2] that are taken before [t]. *)
Definition ahead a t (l1 l2 : list Z) : nat :=
  (length (filter (fun u => (rank_of a t <= rank_of a u)%Z) l1) + length (filter (fun u => (rank_of a t < rank_of a u)%Z) l2))%nat.

Lemma filter_without {P : Z -> Prop} `{forall u, Decision (P u)} b l :
  NoDup l -> b ∈ l -> P b -> S (length (filter P (without b l))) = length (filter P l).
Proof.
  intros Hn (l1 & l2 & ->)%list_elem_of_split Hb. apply nodup_mid in Hn as [_ Hn].
  rewrite without_split by done. rewrite !filter_app, filter_cons_True by done. rewrite !length_app. cbn. lia.
Qed.

Lemma split_unique (b : Z) (l1 : list Z) : forall l2 k1 k2, b ∉ l1 -> b ∉ k1 -> l1 ++ b :: l2 = k1 ++ b :: k2 -> l1 = k1.
Proof.
  induction l1 as [|x l1 IH]; intros l2 [|y k1] k2 H1 H2 E; simplify_eq/=; [done|set_solver..|].
  f_equal. apply (IH l2 k1 k2); [set_solver..|done].
Qed.

Lemma chosen_ahead a l t l1 l2 :
  l = l1 ++ t :: l2 -> 0 ∉ l -> all_known_in a l -> NoDup l -> choose a 0 l <> t ->
  S (ahead a t (without (choose a 0 l) l1) (without (choose a 0 l) l2)) = ahead a t l1 l2.
Proof.
  intros El H0 Hk Hn Hne. set (b := choose a 0 l) in *.
  destruct (choose_best a l H0 Hk) as (k1 & k2 & Ek & B1 & B2); [by rewrite El; destruct l1|]. fold b in Ek, B1, B2.
  assert (b ∉ k1) as Hbk by (rewrite Ek in Hn; apply nodup_mid in Hn as [_ Hn]; set_solver).
  assert (b ∈ l) as Hb by (rewrite Ek; set_solver).
  rewrite El in Hn, Hb. apply NoDup_app in Hn as (N1 & Nd & [Nt N2]%NoDup_cons).
  apply elem_of_app in Hb as [Hb|[?|Hb]%elem_of_cons]; [|done|]; unfold ahead.
  - rewrite (without_off b l2) by (intros H; apply (Nd b Hb); set_solver).
    rewrite <- (filter_without b l1 N1 Hb); [lia|].
    assert (t ∈ k1 ++ b :: k2) as Ht by (rewrite <- Ek, El; set_solver).
    apply elem_of_app in Ht as [Ht|[->|Ht]%elem_of_cons]; [specialize (B1 t Ht); lia|lia|by apply B2].
  - rewrite (without_off b l1) by (intros H; apply (Nd b H); set_solver).
    rewrite <- (filter_without b l2 N2 Hb); [lia|].
    apply list_elem_of_split_l in Hb as (r1 & r2 & Er & Hr1). apply B1.
    assert (l1 ++ t :: r1 = k1) as <-; [|set_solver].
    apply (split_unique b _ r2 k1 k2); [|done|by rewrite <- Ek, El, Er, <- app_assoc].
    rewrite elem_of_app, elem_of_cons. intros [H|[H|H]]; [|done|done]. apply (Nd b H). rewrite Er. set_solver.
Qed.

(** No thread that is ready or runs has a higher priority. *)
Definition top a t : Prop :=
  forall u i j, a_info a !! u = Some i -> a_info a !! t = Some j -> i_status i = Ready \/ i_status i = Running ->
  i_priority i <= i_priority j.

(** What a yield does to the threads' data: one is taken, one put back. *)
Lemma requeue_info h a u :
  exists f, a_info (requeue h a) !! u = f <$> a_info a !! u /\ (forall i, i_priority (f i) = i_priority i /\ i_boosted (f i) = i_boosted i) /\
    (u <> cur a h \/ runs a h = false -> forall i, f i = i).
Proof.
  unfold requeue. destruct (runs a h); [|exists id; split_and!; [by destruct (a_info a !! u)|done|done]]. cbv zeta.
  change (a_info (with_ready ?l ?b)) with (a_info b). rewrite info_set_info. case_decide.
  - exists (i_set_status Ready). split_and!; [done|done|]. by intros [?|?].
  - exists id. split_and!; [by destruct (a_info a !! u)|done|done].
Qed.

Lemma requeue_rank h a u : rank_of (requeue h a) u = rank_of a u.
Proof.
  unfold rank_of, rank. destruct (requeue_info h a u) as (f & -> & Hf & _). destruct (a_info a !! u) as [i|]; [|done].
  cbn. by destruct (Hf i) as [-> ->].
Qed.

Lemma filter_ext_in (P1 P2 : Z -> Prop) `{!forall x, Decision (P1 x), !forall x, Decision (P2 x)} (l : list Z) :
  (forall x, x ∈ l -> P1 x <-> P2 x) -> filter P1 l = filter P2 l.
Proof.
  intros Hl. induction l as [|x l IH]; [done|]. rewrite !filter_cons. rewrite IH by (intros y Hy; apply Hl; set_solver).
  destruct (Hl x) as [H1 H2]; [set_solver|]. destruct (decide (P1 x)), (decide (P2 x)); tauto.
Qed.

Lemma ahead_ext a a' t l1 l2 :
  (forall u, u = t \/ u ∈ l1 \/ u ∈ l2 -> rank_of a' u = rank_of a u) -> ahead a' t l1 l2 = ahead a t l1 l2.
Proof.
  intros He. unfold ahead. f_equal; f_equal; apply filter_ext_in; intros u Hu; by rewrite !He by set_solver.
Qed.

Lemma alive_all a l : (forall t, t ∈ l -> ~ is_dead a t) -> alive a l = l.
Proof.
  induction l as [|t l IH]; intros Hl; [done|]. unfold alive. rewrite filter_cons_True by (apply Hl; set_solver).
  fold (alive a l). rewrite IH; [done|]. intros u Hu. apply Hl. set_solver.
Qed.

Lemma requeue_split h a t l1 l2 :
  ok a -> NoDup (a_ready a) -> a_ready a = l1 ++ t :: l2 -> top a t ->
  exists l2', a_ready (requeue h a) = l1 ++ t :: l2' /\ NoDup (l1 ++ t :: l2') /\
    ahead (requeue h a) t l1 l2' = ahead a t l1 l2 /\ alive (requeue h a) (l1 ++ t :: l2') = l1 ++ t :: l2'.
Proof.
  intros Ha Hn El Htop.
  assert (Hst : status_of a t = Some Ready) by (apply (ok_ready _ Ha); rewrite El; set_solver).
  assert (Hext : forall l2', ahead (requeue h a) t l1 l2' = ahead a t l1 l2') by (intros l2'; apply ahead_ext; intros u _; apply requeue_rank).
  assert (Halive : a_ready (requeue h a) = alive (requeue h a) (a_ready (requeue h a))).
  { symmetry. apply alive_all. intros u Hu. pose proof (requeue_vacant h a (my_loose' h a Ha)) as HV.
    unfold requeue in *. destruct (runs a h) eqn:Hr; cbv zeta in *.
    - unfold is_dead. change (status_of (with_ready ?l ?b)) with (status_of b). rewrite status_set_info.
      cbn [with_ready a_ready set_info] in Hu. case_decide; [by destruct (a_info a !! u)|].
      assert (u ∈ a_ready a) as Hu' by set_solver. apply (ok_ready _ Ha) in Hu'. congruence.
    - apply (ok_ready _ Ha) in Hu. unfold is_dead. congruence. }
  destruct (runs a h) eqn:Hr.
  - exists (l2 ++ [cur a h]).
    assert (a_ready (requeue h a) = l1 ++ t :: l2 ++ [cur a h]) as E by (unfold requeue; rewrite Hr; cbn; by rewrite El, <- app_assoc).
    split_and!; [done| | |by rewrite <- E, <- Halive].
    + apply runs_iff in Hr as [H0 Hr]. assert (cur a h ∉ a_ready a) as Hc by (rewrite (ok_ready _ Ha); congruence).
      rewrite El in Hn, Hc. change (l1 ++ t :: l2 ++ [cur a h]) with (l1 ++ (t :: l2) ++ [cur a h]). rewrite app_assoc.
      apply NoDup_app. split_and!; [done|set_solver|apply NoDup_singleton].
    + rewrite Hext. unfold ahead. f_equal. rewrite filter_app, filter_cons_False, filter_nil, app_nil_r; [done|].
      apply runs_iff in Hr as [H0 Hr]. destruct (status_known _ _ _ Hr) as [i Hi]. destruct (status_known _ _ _ Hst) as [j Hj].
      assert (i_status i = Running) as Hri by (rewrite (info_status _ _ _ Hi) in Hr; congruence).
      pose proof (ok_fresh _ Ha _ i Hi Hri) as Hb. pose proof (Htop _ i j Hi Hj (or_intror Hri)).
      unfold rank_of, rank. rewrite Hi, Hj, Hb. destruct (i_boosted j); lia.
  - exists l2. assert (requeue h a = a) as E by (unfold requeue; by rewrite Hr). rewrite E in *.
    split_and!; [done|by rewrite <- El|done|by rewrite <- El, <- Halive].
Qed.

(** A yield takes [t] or one of the threads ahead of it. *)
Lemma yield_turn h a t l1 l2 :
  ok a -> (h < Max_CPUs)%nat -> NoDup (a_ready a) -> a_ready a = l1 ++ t :: l2 -> top a t ->
  cur (a_yield h a) h = t \/
  exists k1 k2, a_ready (a_yield h a) = k1 ++ t :: k2 /\ S (ahead (a_yield h a) t k1 k2) = ahead a t l1 l2 /\ top (a_yield h a) t.
Proof.
  intros Ha Hh Hn El Htop. pose proof (my_loose' h a Ha) as HL. pose proof (requeue_vacant h a HL) as HV.
  destruct (requeue_split h a t l1 l2 Ha Hn El Htop) as (l2' & E1 & N1 & A1 & L1). set (a1 := requeue h a) in *.
  pose proof (yield_cur h a HL Hh) as Ec. fold a1 in Ec.
  set (b := (a_pop a1).1) in *.
  assert (b = choose a1 0 (l1 ++ t :: l2')) as Eb by (unfold b, a_pop; cbv zeta; cbn [fst]; by rewrite E1, L1).
  destruct (decide (b = t)) as [Et|Et]; [by left; congruence|right].
  assert (0 ∉ l1 ++ t :: l2') as H0 by (rewrite <- E1; by eapply vacant_nz).
  assert (all_known_in a1 (l1 ++ t :: l2')) as Hk.
  { intros u Hu. rewrite <- E1 in Hu. destruct (v_queue _ _ HV u Hu) as [E|E]; by eapply status_known. }
  pose proof (chosen_ahead a1 _ t l1 l2' eq_refl H0 Hk N1 ltac:(congruence)) as Hah. rewrite <- Eb in Hah.
  assert (b <> 0) as Hb0.
  { destruct (choose_best a1 _ H0 Hk ltac:(by destruct l1)) as (k1 & k2 & Ek & _). rewrite <- Eb in Ek.
    intros E. apply H0. rewrite Ek, E. set_solver. }
  assert (Hinf : forall u, a_info (a_yield h a) !! u
     = if decide (u = b) then i_set_status Running ∘ i_set_boosted false <$> a_info a1 !! u else a_info a1 !! u).
  { intros u. unfold a_yield. cbv zeta. fold a1 b. rewrite (proj2 (Z.eqb_neq _ _) Hb0). rewrite info_set_info.
    unfold a_pop. cbv zeta. cbn [snd]. rewrite E1, L1, <- Eb, (proj2 (Z.eqb_neq _ _) Hb0).
    unfold set_cur. cbn [with_cur a_info]. rewrite info_set_info. cbn [with_ready a_info]. case_decide; [|done]. by destruct (a_info a1 !! u). }
  exists (without b l1), (without b l2'). split_and!.
  - unfold a_yield. cbv zeta. fold a1 b. rewrite (proj2 (Z.eqb_neq _ _) Hb0). unfold a_pop. cbv zeta. cbn [snd].
    rewrite E1, L1, <- Eb, (proj2 (Z.eqb_neq _ _) Hb0). unfold set_cur. cbn [set_info with_cur with_ready a_ready].
    unfold without. rewrite filter_app, filter_cons_True by done. done.
  - rewrite <- A1, <- Hah. f_equal. apply ahead_ext. intros u Hu. unfold rank_of. rewrite Hinf, decide_False; [done|].
    intros ->. unfold without in Hu. rewrite !list_elem_of_filter in Hu. naive_solver.
  - intros u i j Hi Hj Hs. rewrite Hinf in Hi, Hj. rewrite decide_False in Hj by done.
    destruct (requeue_info h a t) as (g & Eg & Hg & _). fold a1 in Eg. rewrite Eg in Hj. apply fmap_Some in Hj as (j0 & Hj0 & ->).
    rewrite (proj1 (Hg j0)). destruct (requeue_info h a u) as (f & Ef & Hf & Hfid). fold a1 in Ef.
    assert (exists i1, a_info a1 !! u = Some i1 /\ i_priority i = i_priority i1 /\ (i_status i1 = Ready \/ i_status i1 = Running)) as (i1 & Hi1 & Ep & Hs1).
    { case_decide as E; [|by exists i]. apply fmap_Some in Hi as (i1 & Hi1 & ->). exists i1. split_and!; [done|done|]. left.
      assert (status_of a1 b = Some Ready) as Hsb by (by apply (dispatch_some h a1 b)). subst u.
      rewrite (info_status _ _ _ Hi1) in Hsb. by injection Hsb. }
    rewrite Ep. rewrite Ef in Hi1. apply fmap_Some in Hi1 as (i0 & Hi0 & ->). rewrite (proj1 (Hf i0)). apply (Htop u i0 j0 Hi0 Hj0).
    destruct (decide (u = cur a h /\ runs a h = true)) as [[-> Hr]|Hno].
    + apply runs_iff in Hr as [_ Hr]. rewrite (info_status _ _ _ Hi0) in Hr. injection Hr as ->. by right.
    + rewrite Hfid in Hs1; [done|]. destruct (decide (u = cur a h)); [right|by left]. destruct (runs a h); tauto.
Qed.

Lemma schedule_as h m a : settled_as m a -> (h < Max_CPUs)%nat ->
  exists m', Schedule_Saved_Context h m = Done tt m' /\ settled_as m' (a_yield h a).
Proof.
  intros (Hm & Ha & HR) Hh. pose proof (my_loose' h a Ha) as HL.
  destruct (Schedule_sim h a (a_cur a) HL Hh m Hm HR) as (m' & E & Hm' & HR'). exists m'. split; [done|].
  split_and!; [done|by apply yield_ok|]. rewrite HR'. apply agree_insert; [rewrite (ok_harts _ Ha); done|done..].
Qed.

(** The harts [hs] yield, one after the other. *)
Definition yields (hs : list nat) : M (machine X) unit := take_traps ((fun h => (h, Yield_Call)) <$> hs).

Lemma turns_come t : forall hs m a l1 l2,
  settled_as m a -> a_ready a = l1 ++ t :: l2 -> top a t -> Forall (fun h => (h < Max_CPUs)%nat) hs -> (ahead a t l1 l2 < length hs)%nat ->
  exists k m' h, (k <= length hs)%nat /\ yields (take k hs) m = Done tt m' /\ current m' h = t.
Proof.
  induction hs as [|h hs IH]; intros m a l1 l2 Hs El Htop Hhs Hlen; [cbn in Hlen; lia|].
  apply Forall_cons in Hhs as [Hh Hhs]. pose proof Hs as (Hm & Ha & _).
  destruct (schedule_as h m a Hs Hh) as (m1 & E1 & H1). pose proof H1 as (Hm1 & _).
  destruct (yield_turn h a t l1 l2 Ha Hh (rep_nodup _ _ Hm) El Htop) as [Ec|(k1 & k2 & El' & Hah & Htop')].
  - exists 1%nat, m1, h. split_and!; [cbn; lia| |by rewrite (current_rep _ _ _ Hm1)].
    cbn. unfold bindM, yield_call. by rewrite E1.
  - destruct (IH m1 _ k1 k2 H1 El' Htop' Hhs) as (k & m' & h' & Hk & E & Hc); [cbn in Hlen; lia|].
    exists (S k), m', h'. split_and!; [cbn; lia| |done]. cbn. unfold bindM, yield_call. by rewrite E1.
Qed.

Lemma thread_info m a t c : rep (ksched m) a -> threads (ksched m) !! t = Some c -> a_info a !! t = Some (core c).
Proof. intros Hm Hc. by rewrite <- (rep_info _ _ Hm), lookup_fmap, Hc. Qed.

(** C18. The threads of the highest priority take turns.  A ready thread that
    no ready or running thread outranks runs on some hart after at most as
    many yields as there are threads in the ready queue, whichever harts make
    them: a yield takes a thread ahead of it or the thread itself, and what
    is put back goes behind it. *)
Theorem round_robin m t c hs :
  settled m -> threads (ksched m) !! t = Some c -> Status c = Ready ->
  (forall u d, threads (ksched m) !! u = Some d -> Status d = Ready \/ Status d = Running -> Priority d <= Priority c) ->
  Forall (fun h => (h < Max_CPUs)%nat) hs -> Ready_Count (ksched m) <= Z.of_nat (length hs) ->
  exists k m' h, (k <= length hs)%nat /\ yields (take k hs) m = Done tt m' /\ current m' h = t.
Proof.
  intros [a Hs] Hc Hst Htop Hhs Hlen. pose proof Hs as (Hm & Ha & _).
  assert (t ∈ a_ready a) as (l1 & l2 & El)%list_elem_of_split.
  { apply (ok_ready _ Ha). rewrite (info_status _ _ _ (thread_info _ _ _ _ Hm Hc)). cbn. by rewrite Hst. }
  eapply turns_come; [exact Hs|exact El| |done|].
  - intros u i j Hi Hj Hu. rewrite (thread_info _ _ _ _ Hm Hc) in Hj. injection Hj as <-.
    destruct (rep_lookup _ _ _ _ Hm Hi) as (d & Hd & <-). by apply (Htop u d Hd).
  - unfold Ready_Count in Hlen. rewrite (rep_count _ _ Hm), El, length_app in Hlen. cbn in Hlen. unfold ahead.
    pose proof (length_filter (fun u => rank_of a t <= rank_of a u) l1). pose proof (length_filter (fun u => rank_of a t < rank_of a u) l2). lia.
Qed.

(** ** Sleepers *)

Definition wake_due (now : Z) (i : info X) : info X :=
  if bool_decide (i_status i = Blocked_Sleeping /\ i_deadline i <= now) then i_set_boosted true (i_set_status Ready i) else i.

Lemma check_info now a : StronglySorted (by_deadline a) (a_sleep a) -> NoDup (a_sleep a) ->
  (forall t, t ∈ a_sleep a <-> status_of a t = Some Blocked_Sleeping) -> a_info (a_check now a) = wake_due now <$> a_info a.
Proof.
  unfold a_check. remember (a_sleep a) as l eqn:El. revert a El.
  induction l as [|t l IH]; intros a El Hs Hn Hst; cbn [a_checks].
  - apply map_eq. intros u. rewrite lookup_fmap. destruct (a_info a !! u) as [i|] eqn:Hi; [|done]. cbn. unfold wake_due.
    rewrite bool_decide_eq_false_2; [done|]. intros [E _]. rewrite <- E in Hst. apply info_status, Hst in Hi. set_solver.
  - inversion Hs as [|? ? Hsl Hf]; subst. apply NoDup_cons in Hn as [Ht Hn].
    assert (status_of a t = Some Blocked_Sleeping) as Hstt by (apply Hst; set_solver).
    destruct (Z.leb_spec (deadline_of a t) now) as [Hle|Hgt].
    + rewrite IH.
      * rewrite (wake_head t l a) by done. apply map_eq. intros u. rewrite !lookup_fmap, a_wake_info, Hstt. cbn [blocked].
        case_decide as E; [subst u|done]. destruct (status_known _ _ _ Hstt) as [i Hi]. unfold deadline_of in Hle. rewrite Hi in Hle |- *. cbn.
        rewrite (info_status _ _ _ Hi) in Hstt. injection Hstt as Hstt. unfold wake_due. rewrite bool_decide_eq_false_2 by (by intros [? _]).
        by rewrite bool_decide_eq_true_2.
      * symmetry. by apply a_wake_sleeper.
      * eapply sorted_ext; [|exact Hsl]. intros v _. by rewrite a_wake_deadline.
      * done.
      * intros u. rewrite (wake_head t l a) by done. destruct (decide (u = t)) as [->|Hne].
        -- rewrite (wake_status t a t _ Hstt), decide_True by done. set_solver.
        -- rewrite a_wake_status by done. rewrite <- Hst. set_solver.
    + apply map_eq. intros u. rewrite lookup_fmap. destruct (a_info a !! u) as [i|] eqn:Hi; [|done]. cbn. unfold wake_due.
      rewrite bool_decide_eq_false_2; [done|]. intros [E Hd]. pose proof (info_status _ _ _ Hi) as Hu. rewrite E in Hu. apply Hst in Hu.
      apply elem_of_cons in Hu as [->|Hu]; [unfold deadline_of in Hgt; rewrite Hi in Hgt; lia|].
      rewrite Forall_forall in Hf. specialize (Hf u Hu). unfold by_deadline, deadline_of in *. rewrite Hi in Hf. lia.
Qed.

(** C19. Sleepers are woken in time.  Setting the timer at [now], in the timer
    interrupt or in the idle loop, makes exactly the sleeping threads whose
    deadline is [now] or before ready, which puts them into the ready queue
    with the boost of a woken thread, and leaves the state, the deadline, the
    priority and the stack of every other thread as they were; no hart changes
    its thread; and the timer fires no later than the deadline of any thread
    that still sleeps and no later than the end of the quantum. *)
Theorem sleepers_woken h m now :
  settled m -> exists m', set_next_timer h now m = Done tt m' /\ settled m' /\
    core <$> threads (ksched m') = wake_due now <$> (core <$> threads (ksched m)) /\
    Current_TCBS (ksched m') = Current_TCBS (ksched m) /\ timer (ksched m') <= u64 (now + Quantum_Interval) /\
    forall t c, threads (ksched m') !! t = Some c -> Status c = Blocked_Sleeping ->
      now < Sleep_Deadline c /\ timer (ksched m') <= Sleep_Deadline c.
Proof.
  intros [a Hs]. pose proof Hs as (Hm & Ha & HR). unfold set_next_timer.
  destruct (msim_sched _ a (a_cur a) _ _ (Next_Timer_Deadline_sim h now a (ok_known_cur a Ha) (ok_due_ok now a Ha)) m Hm HR) as (m1 & E1 & Hm1 & HR1).
  pose proof (check_ok now a (rep_nodup_sleep _ _ Hm) Ha) as Ha1.
  pose proof (check_info now a (ok_sorted _ Ha) (rep_nodup_sleep _ _ Hm) (ok_sleep _ Ha)) as Hinf.
  assert (a_cur (a_check now a) = a_cur a) as Hcur by (unfold a_check; by rewrite a_checks_cur).
  set (a1 := a_check now a) in *. set (v := Z.min _ _) in *.
  destruct (timer_sim v a1 (ksched m1) Hm1) as (s2 & E2 & Hs2).
  assert (timer s2 = v) as Et by (unfold modifyM in E2; injection E2 as <-; done).
  exists (Machine s2 (resumes m1)). unfold bindM. rewrite E1. unfold on_sched. rewrite E2. cbn [ksched].
  split_and!; [done| | | |rewrite Et; unfold v; lia|].
  - exists a1. split_and!; [done|done|]. cbn. by rewrite HR1, Hcur.
  - by rewrite (rep_info _ _ Hs2), (rep_info _ _ Hm).
  - by rewrite (rep_cur _ _ Hs2), (rep_cur _ _ Hm).
  - intros t c Hc Hst. pose proof (thread_info (Machine s2 []) a1 t c Hs2 Hc) as Hi.
    assert (t ∈ a_sleep a1) as Hin by (apply (ok_sleep _ Ha1); rewrite (info_status _ _ _ Hi); cbn; by rewrite Hst).
    assert (deadline_of a1 t = Sleep_Deadline c) as Ed by (unfold deadline_of; by rewrite Hi). split.
    + rewrite <- Ed. apply check_late; [by apply (ok_sorted _ Ha)|by apply (rep_nodup_sleep _ _ Hm)| |done].
      intros u Hu. by apply (ok_sleep _ Ha).
    + rewrite Et, <- Ed. unfold v, next_deadline. pose proof (ok_sorted _ Ha1) as Hso. destruct (a_sleep a1) as [|u l]; [set_solver|].
      inversion Hso as [|? ? _ Hf]; subst. apply elem_of_cons in Hin as [->|Hin]; [lia|].
      rewrite Forall_forall in Hf. specialize (Hf t Hin). unfold by_deadline in Hf. lia.
Qed.

(** ** Two places where the order is not what is written *)

Lemma wake_front t a st : status_of a t = Some st -> blocked st = true ->
  a_ready (a_wake t a) = t :: a_ready a /\ exists i, a_info a !! t = Some i /\ a_info (a_wake t a) !! t = Some (i_set_boosted true (i_set_status Ready i)).
Proof.
  intros Hst Hb. split; [unfold a_wake; by rewrite Hst, Hb|]. destruct (status_known _ _ _ Hst) as [i Hi]. exists i.
  split; [done|]. by rewrite a_wake_info, Hst, Hb, decide_True, Hi.
Qed.

Lemma wake_priority (b : asched X) x w j : a_info (a_wake x b) !! w = Some j ->
  exists k, a_info b !! w = Some k /\ i_priority j = i_priority k /\ (i_status k = Dead -> i_status j = Dead).
Proof.
  intros H. rewrite a_wake_info in H. destruct (status_of b x) as [sx|] eqn:Sx; [|by exists j].
  destruct (blocked sx) eqn:Bx; [|by exists j]. case_decide; [|by exists j].
  apply fmap_Some in H as (k & Hk & ->). exists k. split_and!; [done|done|]. subst. rewrite (info_status _ _ _ Hk) in Sx.
  injection Sx as <-. intros Ek. by rewrite Ek in Bx.
Qed.

Lemma requeue_ready h (a : asched X) v i : a_info a !! v = Some i -> i_status i <> Running -> a_info (requeue h a) !! v = Some i.
Proof.
  intros Hi Hr. destruct (requeue_info h a v) as (f & Ef & _ & Hid). rewrite Ef, Hi. cbn. rewrite Hid; [done|].
  destruct (decide (v = cur a h)) as [->|]; [|by left]. right. destruct (runs a h) eqn:Hrun; [|done].
  apply runs_iff in Hrun as [_ E]. rewrite (info_status _ _ _ Hi) in E. congruence.
Qed.

(** A ready thread at the front of the queue that nothing outranks is the
    next to run. *)
Lemma front_runs h a v i l :
  ok a -> (h < Max_CPUs)%nat -> a_ready a = v :: l -> a_info a !! v = Some i -> i_status i = Ready ->
  (forall w j, a_info a !! w = Some j -> i_status j <> Dead -> rank_of a w <= rank_of a v) -> cur (a_yield h a) h = v.
Proof.
  intros Ha Hh El Hi Hst Htop. pose proof (my_loose' h a Ha) as HL. rewrite (yield_cur h a HL Hh).
  pose proof (requeue_vacant h a HL) as HV. assert (a_info (requeue h a) !! v = Some i) as Hv by (apply requeue_ready; congruence).
  assert (forall w, rank_of (requeue h a) w = rank_of a w) as Hrk by (intros; apply requeue_rank).
  assert (forall w j, a_info (requeue h a) !! w = Some j -> i_status j <> Dead -> exists k, a_info a !! w = Some k /\ i_status k <> Dead) as Hal.
  { intros w j Hj Hd. destruct (a_info a !! w) as [k|] eqn:Hk.
    - exists k. split; [done|]. intros Ek. rewrite (requeue_ready h a w k Hk) in Hj by congruence. congruence.
    - destruct (requeue_info h a w) as (f & Ef & _). by rewrite Ef, Hk in Hj. }
  assert (exists l', a_ready (requeue h a) = v :: l') as [l' El'].
  { unfold requeue. destruct (runs a h); cbn; rewrite El; by eexists. }
  set (b := requeue h a) in *. assert (status_of b v = Some Ready) as Sv by (rewrite (info_status _ _ _ Hv); congruence).
  unfold a_pop. cbv zeta. cbn [fst]. rewrite El'. unfold alive. rewrite filter_cons_True by (unfold is_dead; congruence). fold (alive b l').
  cbn [choose Z.eqb]. assert (forall w, w ∈ alive b l' -> w ∈ a_ready b /\ ~ is_dead b w) as Hin.
  { intros w Hw. apply elem_of_alive in Hw as [? ?]. split; [rewrite El'; set_solver|done]. }
  destruct (choose_first b (alive b l') v) as [[-> _]|(l1 & l2 & Ell & Hlt & _)].
  - intros ->. unfold status_of in Sv. by rewrite (v_null _ _ HV) in Sv.
  - by eexists.
  - intros H. by apply (vacant_nz h b HV), (Hin 0).
  - intros w Hw. destruct (v_queue _ _ HV w) as [E|E]; [by apply Hin|by eapply status_known..].
  - done.
  - exfalso. set (c := choose b v (alive b l')) in *. destruct (Hin c) as [Hc Hd]; [rewrite Ell; set_solver|].
    destruct (v_queue _ _ HV c Hc) as [Sc|Sc]; [|done]. destruct (status_known _ _ _ Sc) as [j Hj].
    rewrite (info_status _ _ _ Hj) in Sc. destruct (Hal c j Hj) as (k & Hk & Hkd); [congruence|].
    specialize (Htop c k Hk Hkd). rewrite !Hrk in Hlt. lia.
Qed.

(** Threads that were woken run in the reverse of the order they were woken
    in: of two blocked threads of the same, highest priority the second woken
    is taken first. *)
Theorem woken_last_runs_first h m u v cu cv :
  settled m -> (h < Max_CPUs)%nat -> u <> v ->
  threads (ksched m) !! u = Some cu -> threads (ksched m) !! v = Some cv ->
  blocked (Status cu) = true -> blocked (Status cv) = true -> Priority cu = Priority cv ->
  (forall w d, threads (ksched m) !! w = Some d -> Status d <> Dead -> Priority d <= Priority cv) ->
  exists m', (wake_all h [u; v] ;; yield_call h) m = Done tt m' /\ current m' h = v.
Proof.
  intros [a Hs] Hh Huv Hu Hv Bu Bv Ep Htop. pose proof Hs as (Hm & Ha & HR).
  pose proof (thread_info _ _ _ _ Hm Hu) as Iu. pose proof (thread_info _ _ _ _ Hm Hv) as Iv.
  destruct (wake_all_sim h (a_cur a) [u; v] a (or_introl Ha)) with (m := m) as (m1 & E1 & Hm1 & HR1); [|done|done|].
  { intros w Hw. apply elem_of_cons in Hw as [->|Hw]; [by eexists|]. apply list_elem_of_singleton in Hw as ->. by eexists. }
  pose proof (wakes_ok [u; v] a Ha) as Ha1.
  assert (status_of (a_wake u a) v = Some (Status cv)) as Sv by (rewrite a_wake_status by done; exact (info_status _ _ _ Iv)).
  destruct (wake_front v (a_wake u a) (Status cv) Sv Bv) as [Fv (i & Ii & Ji)].
  change (a_wakes [u; v] a) with (a_wake v (a_wake u a)) in *. set (a1 := a_wake v (a_wake u a)) in *.
  destruct (schedule_as h m1 a1) as (m2 & E2 & (Hm2 & _ & _)); [by split_and!; [done|done|rewrite HR1; unfold a1; rewrite !a_wake_cur]|done|].
  exists m2. unfold bindM, yield_call. rewrite E1, E2. split; [done|]. rewrite (current_rep _ _ _ Hm2).
  eapply front_runs; [done|done|exact Fv|exact Ji|done|]. intros w j Hj Hd.
  destruct (wake_priority _ _ _ _ Hj) as (j1 & Hj1 & P1 & D1). destruct (wake_priority _ _ _ _ Hj1) as (j2 & Hj2 & P2 & D2).
  destruct (rep_lookup _ _ _ _ Hm Hj2) as (d & Hd2 & Ed). destruct (wake_priority _ _ _ _ Ii) as (i1 & Hi1 & Q1 & _).
  assert (i1 = core cv) as -> by congruence.
  assert (i_priority j <= i_priority i) as Hle.
  { rewrite P1, P2, Q1, <- Ed. apply (Htop w d Hd2). intros E. apply Hd, D1, D2. by rewrite <- Ed. }
  unfold rank_of. rewrite Hj, Ji. unfold rank. cbn. destruct (i_boosted j); lia.
Qed.

(** A call that returns early wakes threads of any priority and goes on with
    the thread it has: no hart changes its thread. *)
Theorem early_call_keeps_running h m ws :
  settled m -> forallb (known m) ws = true ->
  exists m', early_call h ws m = Done tt m' /\ settled m' /\ resumes m' = resumes m /\ forall k, current m' k = current m k.
Proof.
  intros [a Hs] Hw. pose proof Hs as (Hm & Ha & HR). unfold early_call, with_caller.
  destruct (_ =? 0); [exists m; by split_and!; [|exists a|..]|].
  destruct (wake_all_sim h (a_cur a) ws a (or_introl Ha)) with (m := m) as (m1 & E1 & Hm1 & HR1); [by apply (all_known m)|done|done|].
  exists m1. split_and!; [done| |congruence|].
  - exists (a_wakes ws a). split_and!; [done|by apply wakes_ok|by rewrite a_wakes_cur].
  - intros k. rewrite (current_rep _ _ _ Hm1), (current_rep _ _ _ Hm). unfold cur. by rewrite a_wakes_cur.
Qed.

End claims.

(** ** A machine with two harts

    The first thread is 16; it makes thread 32, which the second hart takes
    from its idle loop, and 48. *)

Definition demo_boot : outcome (machine unit) unit := boot 16 0 8192 0 tt 2 [(0, true); (1, true)].

Definition demo_traps : list (nat * trap unit) :=
  [(0%nat, Create_Call 32 0 12288 0 tt); (1%nat, Idle [] 10); (0%nat, Create_Call 48 0 16384 0 tt)].

(** 32 and 48 sleep and 16 waits; both harts idle, and the first finds an
    interrupt that wakes 16. *)
Definition demo_sleep : list (nat * trap unit) :=
  demo_traps ++ [(1%nat, Sleep_Call 100 50 51); (1%nat, Sleep_Call 200 52 53); (0%nat, Blocking_Call [] Blocked_Receive); (0%nat, Idle [16] 60)].

Definition demo_more : list (nat * trap unit) :=
  demo_sleep ++ [(1%nat, Idle [] 90); (1%nat, Timer 120); (1%nat, Thread_Exit_Call [])].

(** The process exits on the first hart while the second runs 32; the second
    goes on in 32, whose calls do nothing, until it yields. *)
Definition demo_exit : list (nat * trap unit) :=
  demo_traps ++ [(0%nat, Exit_Call [(16, []); (32, []); (48, [])] []); (1%nat, Timer 20); (1%nat, Plain_Call []); (1%nat, Yield_Call); (1%nat, Idle [] 30)].

Definition demo_machine : machine unit := out_state (take_traps demo_traps (out_state demo_boot)).
Definition demo_asleep : machine unit := out_state (take_traps demo_sleep (out_state demo_boot)).

Lemma demo_settled_after es :
  legal_run es (out_state demo_boot) = true -> orderly_run es (out_state demo_boot) = true ->
  settled (out_state (take_traps es (out_state demo_boot))).
Proof.
  intros Hl Ho. destruct (boot_settled 16 0 8192 0 tt 2 [(0, true); (1, true)]) as (m0 & E0 & H0); [done..|].
  fold demo_boot in E0. assert (m0 = out_state demo_boot) as -> by by rewrite E0.
  destruct (orderly_settles es (out_state demo_boot) H0 Hl Ho) as (m & E & Hm). by rewrite E.
Qed.

Lemma demo_settled : settled demo_machine.
Proof. apply demo_settled_after; vm_compute; reflexivity. Qed.

Lemma threads_accounted_witness :
  (exists m, take_traps demo_more (out_state demo_boot) = Done tt m /\ settled m) /\
  orderly_run demo_exit (out_state demo_boot) = false /\
  (exists m, take_traps demo_exit (out_state demo_boot) = Done tt m /\ covered true m).
Proof.
  split; [|split; [vm_compute; reflexivity|]].
  - destruct (threads_accounted 16 0 8192 0 tt 2 [(0, true); (1, true)] demo_more (out_state demo_boot)) as (m & E & _ & H);
      [lia|lia|reflexivity|vm_compute; reflexivity|]. exists m. split; [exact E|]. apply H. vm_compute. reflexivity.
  - destruct (threads_accounted 16 0 8192 0 tt 2 [(0, true); (1, true)] demo_exit (out_state demo_boot)) as (m & E & H & _);
      [lia|lia|reflexivity|vm_compute; reflexivity|]. exists m. split; [exact E|exact H].
Defined.

Definition demo_thread : tcb unit := default (new_thread 0 0 0 tt) (threads (ksched demo_machine) !! 48).

Lemma demo_threads u d : threads (ksched demo_machine) !! u = Some d -> Priority d = 0.
Proof.
  intros Hu. assert (map_Forall (fun _ d => Priority d = 0) (threads (ksched demo_machine))) as H; [|exact (H u d Hu)].
  apply (bool_decide_unpack _). vm_compute. exact I.
Qed.

Lemma round_robin_witness :
  Status demo_thread = Ready /\
  exists k m' h, (k <= 1)%nat /\ yields (take k [1%nat]) demo_machine = Done tt m' /\ current m' h = 48.
Proof.
  split; [vm_compute; reflexivity|].
  apply (round_robin demo_machine 48 demo_thread [1%nat]).
  - exact demo_settled.
  - vm_compute. reflexivity.
  - vm_compute. reflexivity.
  - intros u d Hd _. rewrite (demo_threads u d Hd). vm_compute. discriminate.
  - repeat constructor.
  - vm_compute. discriminate.
Defined.

(** Thread 32 sleeps until 100 and 48 until 200. *)
Lemma sleepers_woken_witness :
  (Status <$> threads (ksched demo_asleep)) = list_to_map [(16, Ready); (32, Blocked_Sleeping); (48, Blocked_Sleeping)] /\
  exists m', set_next_timer 0 150 demo_asleep = Done tt m' /\ settled m' /\
    (i_status <$> (core <$> threads (ksched m'))) = list_to_map [(16, Ready); (32, Ready); (48, Blocked_Sleeping)].
Proof.
  split; [vm_compute; reflexivity|].
  destruct (sleepers_woken 0 demo_asleep 150) as (m' & E & H1 & H2 & _).
  - apply demo_settled_after; vm_compute; reflexivity.
  - exists m'. split; [exact E|]. split; [exact H1|]. rewrite H2. vm_compute. reflexivity.
Defined.
