(* ===== verification/KZombie.v ===== *)
(** * A thread that outlives its process

    [Mark_Exited] takes the threads of the process from the harts that run
    them, by clearing the harts' current threads.  The trap handler
    reschedules a hart only if it has a current thread, so that such a hart
    goes on with the dead thread. *)
From Stdlib Require Import Sorted.
From S2P Require Import Prelude CInt KSched KSchedSpec KSchedOps KTrap KTrapSpec KTrapOps KTrapInv KTrapClaims.

Section zombie.
Context {X : Type}.
Implicit Types (a : asched X) (h : nat) (t : Z) (m : machine X) (R : list Z).

Lemma dead_yield h a t : loose h [] [] not_ready a -> (h < Max_CPUs)%nat -> is_dead a t -> is_dead (a_yield h a) t.
Proof.
  intros HL Hh Hd. pose proof (requeue_vacant h a HL) as HV.
  assert (is_dead (requeue h a) t) as Hd1.
  { unfold requeue. destruct (runs a h) eqn:Hr; [|done]. cbv zeta. apply (dead_set_info a); [done|].
    intros E i Hi. exfalso. apply runs_iff in Hr as [_ Hr]. rewrite E in Hr. unfold is_dead in Hd. congruence. }
  unfold a_yield. cbv zeta. destruct (Z.eqb_spec (a_pop (requeue h a)).1 0) as [E|E].
  - unfold a_pop in *. cbv zeta in *. cbn [fst snd] in *. by rewrite (proj2 (Z.eqb_eq _ _) E).
  - destruct (dispatch_some h _ _ HV Hh eq_refl E) as [Hb _].
    assert ((a_pop (requeue h a)).1 <> t) as Hne by (intros Eb; rewrite Eb in Hb; unfold is_dead in Hd1; congruence).
    apply (dead_set_info (set_cur h _ _)); [|done]. change (is_dead (a_pop (requeue h a)).2 t). revert Hne. unfold a_pop. cbv zeta. cbn [fst snd].
    intros Hne. case_match; [done|]. by apply dead_set_info.
Qed.

Lemma dead_check now a t : is_dead a t -> is_dead (a_check now a) t.
Proof.
  unfold a_check. generalize (a_sleep a) as l. intros l. revert a.
  induction l as [|u l IH]; intros a Hd; [done|]. cbn. case_match; [|done]. apply IH.
  apply (dead_wakes [u] t (with_sleep l a)). done.
Qed.

(** Hart [h] has no current thread and returns into [t], which is dead. *)
Definition haunted m h t : Prop :=
  exists a, rep (ksched m) a /\ ok a /\ cur a h = 0 /\ is_dead a t /\ resumes m !! h = Some t.

Lemma haunted_timer m h t now : haunted m h t -> exists m', timer_interrupt h now m = Done tt m' /\ haunted m' h t.
Proof.
  intros (a & Hm & Ha & H0 & Hd & HR).
  assert (msim (set_next_timer h now) a (resumes m) tt (a_check now a) (resumes m)) as Ht.
  { eapply msim_bind; [apply msim_sched, Next_Timer_Deadline_sim; [by apply ok_known_cur|by apply ok_due_ok]|]. apply msim_sched, timer_sim. }
  destruct (Ht m Hm eq_refl) as (m1 & E1 & Hm1 & HR1).
  assert (cur (a_check now a) h = 0) as Hc by (unfold cur, a_check; by rewrite a_checks_cur).
  exists m1. unfold timer_interrupt, bindM. rewrite E1. unfold Handle_Preemption. rewrite (current_rep _ _ _ Hm1), Hc. cbn.
  split; [done|]. exists (a_check now a). split_and!; [done|by apply check_ok; [apply (rep_nodup_sleep _ _ Hm)|]|done|by apply dead_check|by rewrite HR1].
Qed.

Lemma haunted_software m h t : haunted m h t -> exists m', software_interrupt h m = Done tt m' /\ haunted m' h t.
Proof.
  intros (a & Hm & Ha & H0 & Hd & HR). exists m. split; [|by exists a].
  unfold software_interrupt, bindM, on_sched, Should_Preempt.
  change (current_of (ksched m) h) with (current m h). rewrite (current_rep _ _ _ Hm), H0. cbn. by destruct m.
Qed.

Definition interrupt (e : option Z) : trap X := match e with Some now => Timer now | None => Software end.

Lemma haunted_on h t es : forall m, haunted m h t ->
  exists m', take_traps ((fun e => (h, interrupt e)) <$> es) m = Done tt m' /\ haunted m' h t.
Proof.
  induction es as [|e es IH]; intros m Hm; [by exists m|]. cbn [fmap list_fmap take_traps fst snd].
  assert (exists m1, take_trap h (interrupt e) m = Done tt m1 /\ haunted m1 h t) as (m1 & E1 & H1).
  { destruct e as [now|]; [by apply haunted_timer|by apply haunted_software]. }
  destruct (IH m1 H1) as (m2 & E2 & H2). exists m2. unfold bindM. by rewrite E1.
Qed.

Lemma exit_haunts h k m es ws t :
  settled m -> (h < Max_CPUs)%nat -> k <> h -> current m h <> 0 -> current m k = t -> t <> 0 -> t ∈ es.*1 ->
  forallb (fun e => known m e.1 && forallb (known m) e.2) es = true -> forallb (known m) ws = true ->
  exists m', exit_call h es ws m = Done tt m' /\ haunted m' k t.
Proof.
  intros [a (Hm & Ha & HR)] Hh Hkh Hcur Hk Ht0 Hes He Hw. rewrite (current_rep _ _ h Hm) in Hcur. rewrite (current_rep _ _ k Hm) in Hk.
  destruct (my_thread h a Ha Hcur) as [Hc Hr]. set (self := cur a h) in *.
  assert (a_cur a !! k = Some t) as Hkt by (rewrite <- Hk; apply cur_lookup; congruence).
  assert (t <> self) as Hts by (intros E; apply Hkh; eapply (ok_once _ Ha); [exact Hkt|by rewrite E|done]).
  assert (is_Some (a_info a !! t)) as Hit.
  { eapply status_known, (ok_runs _ Ha). split; [done|]. by apply list_elem_of_lookup_2 in Hkt. }
  destruct (exit_all_sim h self (a_cur a) es a (my_loose h a Ha) Hc Hcur) as (I1 & I2 & I3 & I4 & I5 & I6 & _).
  { intros e Hin. rewrite forallb_forall in He. apply list_elem_of_In, He, andb_true_iff in Hin as [K1 K2].
    split; [by apply (known_iff m)|by apply (all_known m)]. }
  set (a1 := a_exit_threads self es a) in *.
  pose proof (wake_all_sim h (a_cur a) ws a1 (or_intror (ex_intro _ h (ex_intro _ [] I2)))) as W1.
  apply (wakes_loose h [] awake ws awake_not_blocked) in I2. set (a2 := a_wakes ws a1) in *.
  assert (a_cur a2 = a_cur a1) as Ec2 by (unfold a2; by rewrite a_wakes_cur).
  assert (cur a2 h = self) as Es by (unfold cur; rewrite Ec2; by rewrite (nth_lookup_Some _ _ _ _ I3)).
  assert (is_Some (a_info a2 !! self)) as Hi2 by (unfold a2; rewrite a_wakes_known, I4; by eapply status_known).
  assert (a_exit h a2 = set_cur h 0 (a_kill self a2)) as Ee by (unfold a_exit; by rewrite Es).
  assert (is_dead a2 t) as Hd2 by (apply dead_wakes, I5; by right).
  assert (loose h [] [] not_ready (a_exit h a2)) as HL3 by (apply (exit_current_loose h self); by rewrite ?Ec2).
  assert (msim (exit_call h es ws) a (a_cur a) tt (a_yield h (a_exit h a2)) (<[h := cur (a_yield h (a_exit h a2)) h]> (a_cur a))) as Hsim.
  { intros m0 Hm0 HR0. unfold exit_call, with_caller. rewrite (current_rep _ _ _ Hm0). fold self.
    rewrite (proj2 (Z.eqb_neq self 0)) by done. eapply msim_at; [|done..].
    eapply msim_bind; [exact I1|]. eapply msim_bind.
    { apply W1. intros u Hu. rewrite I4. by apply (all_known m _ ws Hm). }
    eapply msim_bind; [apply msim_sched, Exit_Current_sim; by rewrite Es|]. rewrite bool_decide_eq_true_2 by done. by apply Schedule_sim. }
  destruct (Hsim m Hm HR) as (m' & E & Hm' & HR'). exists m'. split; [done|]. exists (a_yield h (a_exit h a2)).
  split_and!; [done|by apply yield_ok| | |].
  - pose proof (agree_insert h (a_exit h a2) (a_cur (a_exit h a2)) ltac:(by rewrite (l_harts _ _ _ _ _ HL3)) ltac:(done) ltac:(done) HL3) as Eag.
    unfold cur. rewrite <- Eag, nth_lookup, list_lookup_insert_ne by done. rewrite Ee. unfold set_cur. cbn [with_cur a_cur a_kill with_sleep set_info].
    rewrite list_lookup_insert_ne by done. rewrite Ec2, (I6 k t Hkt); [done|by right].
  - apply dead_yield; [done|done|]. rewrite Ee. apply (dead_set_info a2); [done|]. done.
  - by rewrite HR', list_lookup_insert_ne.
Qed.

(** C20. A dead thread keeps its hart.  When a process exits on one hart while
    another hart [k] runs its thread [t], the thread is marked dead and taken
    from the scheduler, but hart [k] still returns into it, and after any
    series of timer and software interrupts it still does: the handler
    reschedules only a hart that has a current thread. *)
Theorem zombie_keeps_hart h k m es ws t :
  settled m -> (h < Max_CPUs)%nat -> k <> h -> current m h <> 0 -> current m k = t -> t <> 0 -> t ∈ es.*1 ->
  forallb (fun e => known m e.1 && forallb (known m) e.2) es = true -> forallb (known m) ws = true ->
  exists m1, exit_call h es ws m = Done tt m1 /\
    forall irqs, exists m2, take_traps ((fun e => (k, interrupt e)) <$> irqs) m1 = Done tt m2 /\
      resumed m2 k = t /\ exists c, threads (ksched m2) !! t = Some c /\ Status c = Dead.
Proof.
  intros Hs Hh Hkh Hcur Hk Ht0 Hes He Hw. destruct (exit_haunts h k m es ws t) as (m1 & E1 & H1); [done..|].
  exists m1. split; [done|]. intros irqs. destruct (haunted_on k t irqs m1 H1) as (m2 & E2 & a & Hm2 & _ & _ & Hd & HR).
  exists m2. split_and!; [done|unfold resumed; by rewrite nth_lookup, HR|].
  destruct (status_known _ _ _ Hd) as [i Hi]. destruct (rep_lookup _ _ _ _ Hm2 Hi) as (c & Hc & <-). exists c. split; [done|].
  unfold is_dead in Hd. rewrite (info_status _ _ _ Hi) in Hd. by injection Hd.
Qed.

End zombie.

(** The second hart runs thread 32 when the process of 16, 32 and 48 exits. *)
Lemma zombie_keeps_hart_witness :
  current demo_machine 1 = 32 /\
  exists m1, exit_call 0 [(16, []); (32, []); (48, [])] [] demo_machine = Done tt m1 /\
    forall irqs, exists m2, take_traps ((fun e => (1%nat, interrupt e)) <$> irqs) m1 = Done tt m2 /\
      resumed m2 1 = 32 /\ exists c, threads (ksched m2) !! 32 = Some c /\ Status c = Dead.
Proof.
  split; [vm_compute; reflexivity|].
  apply (zombie_keeps_hart 0 1 demo_machine [(16, []); (32, []); (48, [])] [] 32).
  - exact demo_settled.
  - vm_compute. lia.
  - discriminate.
  - vm_compute. discriminate.
  - vm_compute. reflexivity.
  - discriminate.
  - cbn. set_solver.
  - vm_compute. reflexivity.
  - reflexivity.
Defined.
