(* ===== verification/KIpc.v ===== *)
(** * Endpoints, notifications and messages

    Message passing: first the state and the operations of [kernel-ipc.adb]
    and [kernel-notifications.adb] that touch threads and objects only (the
    slabs, the caller queue of an endpoint, its waiting receiver, its queue of
    copied messages, reference counts, signals); then the rendezvous, [Call],
    [Send], [Receive] and [Reply] with the transfer of messages and
    capabilities, the capability operations of [kernel-tasks.adb] with the
    reference counts of [kernel-objects.adb], and the system calls of
    [arch-traps.adb] that use them.

    Objects are named by their addresses, 0 is null, and following a null
    access has no defined result.  An object that has never been used lies in
    a frame whose contents are arbitrary; of these the code reads only the
    flag [Stamp_Identity] of an endpoint, the parameter [raw_stamp].  The
    objects of the other kinds (memory, devices) are behind the class
    [Others].  A system call is given its registers and returns the registers
    the thread goes on with, [None] if the thread has blocked: its registers
    are then in its control block, where the thread that wakes it leaves the
    result. *)
From S2P Require Import Prelude CInt KPmm KCap KSched KTrap.

(** ** Threads *)

(** The fields of a control block message passing uses; [Saved_A0] and
    [Saved_A1] are the result registers of the saved context. *)
Record ipc_part := IpcPart {
  Process : Z; IPC_Buffer : Z; Awaiting_Reply : bool; Reply_Generation : Z; Reply_Wanted : bool;
  Queue_Next : Z; Call_Badge : Z; Bound_Ntfn : Z; Recv_EP : Z; Queued_On_EP : Z;
  Saved_A0 : Z; Saved_A1 : Z }.

Definition set_awaiting v x := IpcPart (Process x) (IPC_Buffer x) v (Reply_Generation x) (Reply_Wanted x)
  (Queue_Next x) (Call_Badge x) (Bound_Ntfn x) (Recv_EP x) (Queued_On_EP x) (Saved_A0 x) (Saved_A1 x).
Definition set_wanted v x := IpcPart (Process x) (IPC_Buffer x) (Awaiting_Reply x) (Reply_Generation x) v
  (Queue_Next x) (Call_Badge x) (Bound_Ntfn x) (Recv_EP x) (Queued_On_EP x) (Saved_A0 x) (Saved_A1 x).
Definition set_queue_next v x := IpcPart (Process x) (IPC_Buffer x) (Awaiting_Reply x) (Reply_Generation x) (Reply_Wanted x)
  v (Call_Badge x) (Bound_Ntfn x) (Recv_EP x) (Queued_On_EP x) (Saved_A0 x) (Saved_A1 x).
Definition set_call_badge v x := IpcPart (Process x) (IPC_Buffer x) (Awaiting_Reply x) (Reply_Generation x) (Reply_Wanted x)
  (Queue_Next x) v (Bound_Ntfn x) (Recv_EP x) (Queued_On_EP x) (Saved_A0 x) (Saved_A1 x).
Definition set_bound v x := IpcPart (Process x) (IPC_Buffer x) (Awaiting_Reply x) (Reply_Generation x) (Reply_Wanted x)
  (Queue_Next x) (Call_Badge x) v (Recv_EP x) (Queued_On_EP x) (Saved_A0 x) (Saved_A1 x).
Definition set_recv_ep v x := IpcPart (Process x) (IPC_Buffer x) (Awaiting_Reply x) (Reply_Generation x) (Reply_Wanted x)
  (Queue_Next x) (Call_Badge x) (Bound_Ntfn x) v (Queued_On_EP x) (Saved_A0 x) (Saved_A1 x).
Definition set_queued_on v x := IpcPart (Process x) (IPC_Buffer x) (Awaiting_Reply x) (Reply_Generation x) (Reply_Wanted x)
  (Queue_Next x) (Call_Badge x) (Bound_Ntfn x) (Recv_EP x) v (Saved_A0 x) (Saved_A1 x).
Definition set_saved_a0 v x := IpcPart (Process x) (IPC_Buffer x) (Awaiting_Reply x) (Reply_Generation x) (Reply_Wanted x)
  (Queue_Next x) (Call_Badge x) (Bound_Ntfn x) (Recv_EP x) (Queued_On_EP x) v (Saved_A1 x).
Definition set_saved_a1 v x := IpcPart (Process x) (IPC_Buffer x) (Awaiting_Reply x) (Reply_Generation x) (Reply_Wanted x)
  (Queue_Next x) (Call_Badge x) (Bound_Ntfn x) (Recv_EP x) (Queued_On_EP x) (Saved_A0 x) v.

(** ** Objects *)

Record endpoint := Endpoint {
  e_count : Z; Queue_Head : Z; Queue_Tail : Z; Waiting_Receiver : Z;
  Send_Queue_Head : Z; Send_Queue_Tail : Z; Failed : bool; Stamp_Identity : bool; e_next_free : Z }.

Definition set_ecount v e := Endpoint v (Queue_Head e) (Queue_Tail e) (Waiting_Receiver e) (Send_Queue_Head e) (Send_Queue_Tail e)
  (Failed e) (Stamp_Identity e) (e_next_free e).
Definition set_qhead v e := Endpoint (e_count e) v (Queue_Tail e) (Waiting_Receiver e) (Send_Queue_Head e) (Send_Queue_Tail e)
  (Failed e) (Stamp_Identity e) (e_next_free e).
Definition set_qtail v e := Endpoint (e_count e) (Queue_Head e) v (Waiting_Receiver e) (Send_Queue_Head e) (Send_Queue_Tail e)
  (Failed e) (Stamp_Identity e) (e_next_free e).
Definition set_receiver v e := Endpoint (e_count e) (Queue_Head e) (Queue_Tail e) v (Send_Queue_Head e) (Send_Queue_Tail e)
  (Failed e) (Stamp_Identity e) (e_next_free e).
Definition set_shead v e := Endpoint (e_count e) (Queue_Head e) (Queue_Tail e) (Waiting_Receiver e) v (Send_Queue_Tail e)
  (Failed e) (Stamp_Identity e) (e_next_free e).
Definition set_stail v e := Endpoint (e_count e) (Queue_Head e) (Queue_Tail e) (Waiting_Receiver e) (Send_Queue_Head e) v
  (Failed e) (Stamp_Identity e) (e_next_free e).
Definition set_failed v e := Endpoint (e_count e) (Queue_Head e) (Queue_Tail e) (Waiting_Receiver e) (Send_Queue_Head e)
  (Send_Queue_Tail e) v (Stamp_Identity e) (e_next_free e).
Definition set_stamp v e := Endpoint (e_count e) (Queue_Head e) (Queue_Tail e) (Waiting_Receiver e) (Send_Queue_Head e)
  (Send_Queue_Tail e) (Failed e) v (e_next_free e).
Definition set_enext v e := Endpoint (e_count e) (Queue_Head e) (Queue_Tail e) (Waiting_Receiver e) (Send_Queue_Head e)
  (Send_Queue_Tail e) (Failed e) (Stamp_Identity e) v.

(** A message: in the buffer page of a thread, or copied. *)
Record message := Message { m_label : Z; m_words : list Z; m_caps : list Z; m_badge : Z }.
Definition Max_Words : nat := 6.
Definition Msg_Caps : nat := 4.

Record queued_send := QueuedSend {
  q_label : Z; q_words : list Z; q_badge : Z; q_next : Z; q_in_use : bool; q_next_free : Z }.

Record notification := Notification {
  n_count : Z; n_bits : Z; Bound_Thread : Z; n_waiting : Z; n_in_use : bool; n_next_free : Z }.

Definition set_ncount v n := Notification v (n_bits n) (Bound_Thread n) (n_waiting n) (n_in_use n) (n_next_free n).
Definition set_bits v n := Notification (n_count n) v (Bound_Thread n) (n_waiting n) (n_in_use n) (n_next_free n).
Definition set_bound_thread v n := Notification (n_count n) (n_bits n) v (n_waiting n) (n_in_use n) (n_next_free n).
Definition set_waiting v n := Notification (n_count n) (n_bits n) (Bound_Thread n) v (n_in_use n) (n_next_free n).

(** A process: its id and its capabilities. *)
Record process := Proc { p_id : Z; p_caps : Cap_Table }.

(** Objects of the kinds that are not modelled here: what a new and a closed
    capability do to them. *)
Class Others (W : Type) := {
  other_retain : Object_Kind -> Z -> M (W * pmm frame_data) unit;
  other_release : Z -> Object_Kind -> Z -> M (W * pmm frame_data) unit }.

Record kern (W : Type) := Kern {
  k_mach : machine ipc_part;
  k_eps : gmap Z endpoint; k_ep_free : Z;
  k_sends : gmap Z queued_send; k_send_free : Z;
  k_ntfns : gmap Z notification; k_ntfn_frames : Z; k_ntfn_free : Z;
  k_bufs : gmap Z message;
  k_procs : gmap Z process; k_pmm : pmm frame_data; k_w : W }.
Arguments Kern {W}. Arguments k_mach {W}. Arguments k_eps {W}. Arguments k_ep_free {W}.
Arguments k_sends {W}. Arguments k_send_free {W}. Arguments k_ntfns {W}. Arguments k_ntfn_frames {W}.
Arguments k_ntfn_free {W}. Arguments k_bufs {W}. Arguments k_procs {W}. Arguments k_pmm {W}. Arguments k_w {W}.

(** ** Constants *)

Definition Physmap_Base : Z := 0xFFFFFFC000000000.
Definition Phys_To_Virt (pa : Z) : Z := u64 (Physmap_Base + pa).
Definition Pinned_Refcount : Z := 2147483647.

Definition Result_Ok : Z := 0.
Definition Result_Invalid : Z := 1.
Definition Result_Transfer_Failed : Z := 2.
Definition Result_Endpoint_Gone : Z := 3.
Definition Result_Reply_Gone : Z := 4.
Definition Notification_Label : Z := 2 ^ 64 - 1.
Definition U64_Last : Z := 2 ^ 64 - 1.

(** The records rounded up to 16 bytes: 64, 88 and 48 bytes on riscv64. *)
Definition EP_Slot_Bytes : Z := 64.
Definition Send_Slot_Bytes : Z := 96.
Definition Ntfn_Slot_Bytes : Z := 48.

Inductive ipc_status : Type :=
  | IS_Ok | IS_Invalid_Task | IS_Invalid_Cap | Wrong_Object | IS_Rights_Denied | Would_Block | Transfer_Failed
  | Endpoint_Gone | Reply_Missing | No_Endpoints.
#[export] Instance ipc_status_eq : EqDecision ipc_status.
Proof. solve_decision. Defined.

Inductive ntfn_status : Type := NS_Ok | No_Slot | Already_Bound | Already_Waiting.
#[export] Instance ntfn_status_eq : EqDecision ntfn_status.
Proof. solve_decision. Defined.

Section objects.
Context {W : Type} {OW : Others W} (raw_stamp : Z -> bool).
Implicit Types (h : nat) (t e : Z) (k : kern W).

Definition KM (A : Type) : Type := M (kern W) A.

Definition with_mach m k := Kern m (k_eps k) (k_ep_free k) (k_sends k) (k_send_free k) (k_ntfns k) (k_ntfn_frames k) (k_ntfn_free k)
  (k_bufs k) (k_procs k) (k_pmm k) (k_w k).
Definition with_eps v k := Kern (k_mach k) v (k_ep_free k) (k_sends k) (k_send_free k) (k_ntfns k) (k_ntfn_frames k) (k_ntfn_free k)
  (k_bufs k) (k_procs k) (k_pmm k) (k_w k).
Definition with_ep_free v k := Kern (k_mach k) (k_eps k) v (k_sends k) (k_send_free k) (k_ntfns k) (k_ntfn_frames k) (k_ntfn_free k)
  (k_bufs k) (k_procs k) (k_pmm k) (k_w k).
Definition with_sends v k := Kern (k_mach k) (k_eps k) (k_ep_free k) v (k_send_free k) (k_ntfns k) (k_ntfn_frames k) (k_ntfn_free k)
  (k_bufs k) (k_procs k) (k_pmm k) (k_w k).
Definition with_send_free v k := Kern (k_mach k) (k_eps k) (k_ep_free k) (k_sends k) v (k_ntfns k) (k_ntfn_frames k) (k_ntfn_free k)
  (k_bufs k) (k_procs k) (k_pmm k) (k_w k).
Definition with_ntfns v k := Kern (k_mach k) (k_eps k) (k_ep_free k) (k_sends k) (k_send_free k) v (k_ntfn_frames k) (k_ntfn_free k)
  (k_bufs k) (k_procs k) (k_pmm k) (k_w k).
Definition with_ntfn_heads f v k := Kern (k_mach k) (k_eps k) (k_ep_free k) (k_sends k) (k_send_free k) (k_ntfns k) f v
  (k_bufs k) (k_procs k) (k_pmm k) (k_w k).
Definition with_bufs v k := Kern (k_mach k) (k_eps k) (k_ep_free k) (k_sends k) (k_send_free k) (k_ntfns k) (k_ntfn_frames k) (k_ntfn_free k)
  v (k_procs k) (k_pmm k) (k_w k).
Definition with_procs v k := Kern (k_mach k) (k_eps k) (k_ep_free k) (k_sends k) (k_send_free k) (k_ntfns k) (k_ntfn_frames k) (k_ntfn_free k)
  (k_bufs k) v (k_pmm k) (k_w k).
Definition with_rest (w : W) p k := Kern (k_mach k) (k_eps k) (k_ep_free k) (k_sends k) (k_send_free k) (k_ntfns k) (k_ntfn_frames k) (k_ntfn_free k)
  (k_bufs k) (k_procs k) p w.

(** ** Access *)

Definition on_mach {A} (op : M (machine ipc_part) A) : KM A := fun k =>
  match op (k_mach k) with
  | Done r m => Done r (with_mach m k)
  | Blocked m => Blocked (with_mach m k)
  end.
Definition on_rest {A} (op : M (W * pmm frame_data) A) : KM A := fun k =>
  match op (k_w k, k_pmm k) with
  | Done r wp => Done r (with_rest wp.1 wp.2 k)
  | Blocked wp => Blocked (with_rest wp.1 wp.2 k)
  end.
Definition on_frames {A} (op : M (pmm frame_data) A) : KM A := fun k =>
  match op (k_pmm k) with
  | Done r p => Done r (with_rest (k_w k) p k)
  | Blocked p => Blocked (with_rest (k_w k) p k)
  end.

(** A thread's fields, read and written. *)
Definition thread t : KM (tcb ipc_part) := on_mach (on_sched (tcb_of t)).
Definition part t : KM ipc_part := let* c := thread t in retM (others c).
Definition set_others (f : ipc_part -> ipc_part) (c : tcb ipc_part) : tcb ipc_part :=
  Tcb (Status c) (Priority c) (Boosted c) (Sleep_Deadline c) (Kernel_Stack_Top c) (Queued c) (Rdy_Next c) (Rdy_Prev c)
    (Slp_Next c) (Slp_Prev c) (f (others c)).
Definition set_part t (f : ipc_part -> ipc_part) : KM unit := on_mach (on_sched (upd_tcb t (set_others f))).

Definition ep e : KM endpoint := fun k => match k_eps k !! e with Some o => Done o k | None => Blocked k end.
Definition upd_ep e (f : endpoint -> endpoint) : KM unit := fun k =>
  match k_eps k !! e with Some o => Done tt (with_eps (<[e := f o]> (k_eps k)) k) | None => Blocked k end.
Definition slot (a : Z) : KM queued_send := fun k => match k_sends k !! a with Some o => Done o k | None => Blocked k end.
Definition upd_slot (a : Z) (f : queued_send -> queued_send) : KM unit := fun k =>
  match k_sends k !! a with Some o => Done tt (with_sends (<[a := f o]> (k_sends k)) k) | None => Blocked k end.
Definition ntfn (a : Z) : KM notification := fun k => match k_ntfns k !! a with Some o => Done o k | None => Blocked k end.
Definition upd_ntfn (a : Z) (f : notification -> notification) : KM unit := fun k =>
  match k_ntfns k !! a with Some o => Done tt (with_ntfns (<[a := f o]> (k_ntfns k)) k) | None => Blocked k end.

(** ** Buffers *)

(** The physical address of a thread's message buffer, 0 for none. *)
Definition Buffer_Of t : KM Z := if t =? 0 then retM 0 else let* x := part t in retM (IPC_Buffer x).
Definition buf (pa : Z) : KM message := fun k => match k_bufs k !! pa with Some m => Done m k | None => Blocked k end.
Definition put_buf (pa : Z) (m : message) : KM unit := modifyM (fun k => with_bufs (<[pa := m]> (k_bufs k)) k).

(** ** Waking *)

Definition Is_Dead t : KM bool :=
  if t =? 0 then retM true else let* c := thread t in retM (bool_decide (Status c = Dead)).

Definition is_blocked (st : Thread_State) : bool :=
  match st with
  | Blocked_Send | Blocked_Receive | Blocked_IRQ | Blocked_Notification | Blocked_Sleeping | Blocked_Thread_Wait => true
  | _ => false
  end.

Definition Wake_With_Result h t (v : Z) : KM unit :=
  let* d := Is_Dead t in
  if d : bool then retM tt
  else
    let* c := thread t in
    if negb (is_blocked (Status c)) then retM tt
    else
      set_part t (set_saved_a0 v) ;;
      set_part t (set_awaiting false) ;;
      let* _ := on_mach (on_sched (Wake h t)) in retM tt.

(** ** Copied messages *)

Definition Free_Queued_Send (a : Z) : KM unit := fun k =>
  (upd_slot a (fun q => QueuedSend (q_label q) (q_words q) (q_badge q) 0 false (k_send_free k)) ;;
   modifyM (with_send_free a)) k.

(** A slot of a fresh frame. *)
Definition raw_send : queued_send := QueuedSend 0 [] 0 0 false 0.

Fixpoint free_sends (base : Z) (i : Z) (n : nat) : KM unit :=
  match n with
  | O => retM tt
  | S n' =>
      let a := u64 (base + i * Send_Slot_Bytes) in
      modifyM (fun k => with_sends (<[a := raw_send]> (k_sends k)) k) ;;
      Free_Queued_Send a ;; free_sends base (i + 1) n'
  end.

Definition Grow_Send_Pool : KM unit :=
  let* r := on_frames Allocate_Frame in
  if negb (bool_decide (r.1 = PM_Ok)) then retM tt
  else free_sends (Phys_To_Virt r.2) 0 (Z.to_nat (Frame_Size / Send_Slot_Bytes)).

Definition Alloc_Queued_Send : KM Z :=
  (fun k => if k_send_free k =? 0 then Grow_Send_Pool k else Done tt k) ;;
  fun k =>
    let a := k_send_free k in
    if a =? 0 then Done 0 k
    else (let* q := slot a in
          modifyM (with_send_free (q_next_free q)) ;;
          upd_slot a (fun q => QueuedSend (q_label q) (q_words q) (q_badge q) 0 true 0) ;; retM a) k.

Definition Queue_Send_Copy t (badge : Z) : KM Z :=
  let* pa := Buffer_Of t in
  let* a := Alloc_Queued_Send in
  if a =? 0 then retM 0
  else
    let* m := buf pa in
    upd_slot a (fun q => QueuedSend (m_label m) (m_words m) badge (q_next q) (q_in_use q) (q_next_free q)) ;; retM a.

(** ** Endpoints *)

Definition Free_Endpoint e : KM unit := fun k =>
  (upd_ep e (set_enext (k_ep_free k)) ;; modifyM (with_ep_free e)) k.

Definition raw_endpoint (a : Z) : endpoint := Endpoint 0 0 0 0 0 0 false (raw_stamp a) 0.

Fixpoint free_endpoints (base : Z) (i : Z) (n : nat) : KM unit :=
  match n with
  | O => retM tt
  | S n' =>
      let a := u64 (base + i * EP_Slot_Bytes) in
      modifyM (fun k => with_eps (<[a := raw_endpoint a]> (k_eps k)) k) ;;
      Free_Endpoint a ;; free_endpoints base (i + 1) n'
  end.

Definition Grow_Pool : KM ipc_status :=
  let* r := on_frames Allocate_Frame in
  if negb (bool_decide (r.1 = PM_Ok)) then retM No_Endpoints
  else free_endpoints (Phys_To_Virt r.2) 0 (Z.to_nat (Frame_Size / EP_Slot_Bytes)) ;; retM IS_Ok.

Definition Initialize_EP e (pinned : bool) : KM unit :=
  upd_ep e (fun o => Endpoint (if pinned then Pinned_Refcount else 0) 0 0 0 0 0 false (Stamp_Identity o) 0).

Definition Set_Stamp_Identity e (stamp : bool) : KM unit := if e =? 0 then retM tt else upd_ep e (set_stamp stamp).

Definition Create_Endpoint : KM (ipc_status * Z) :=
  let* st := fun k => if k_ep_free k =? 0 then Grow_Pool k else Done IS_Ok k in
  if negb (bool_decide (st = IS_Ok)) then retM (st, 0)
  else fun k =>
    let e := k_ep_free k in
    (let* o := ep e in
     modifyM (with_ep_free (e_next_free o)) ;;
     upd_ep e (set_enext 0) ;;
     Initialize_EP e false ;; retM (IS_Ok, e)) k.

Definition Discard e : KM unit := if e =? 0 then retM tt else Free_Endpoint e.

(** [Pinned_Refcount] is the last [Natural], so that the count stays one. *)
Definition Retain e : KM unit :=
  if e =? 0 then retM tt
  else let* o := ep e in
       if e_count o =? Pinned_Refcount then retM tt else upd_ep e (set_ecount (e_count o + 1)).

(** The callers an endpoint fails, in the order of the queue. *)
Definition fail_round h e (_ : unit) : KM (unit + unit) :=
  let* o := ep e in
  let t := Queue_Head o in
  if t =? 0 then retM (inr tt)
  else
    let* x := part t in
    upd_ep e (set_qhead (Queue_Next x)) ;;
    set_part t (set_queue_next 0) ;;
    set_part t (set_queued_on 0) ;;
    Wake_With_Result h t Result_Endpoint_Gone ;; retM (inl tt).

Definition drop_round (a : Z) : KM (Z + unit) :=
  if a =? 0 then retM (inr tt)
  else let* q := slot a in Free_Queued_Send a ;; retM (inl (q_next q)).

(** Each round takes a caller or a slot out, so that one round for every
    thread and slot is enough. *)
Definition Fail_Endpoint h e : KM unit :=
  if e =? 0 then retM tt
  else
    let* o := ep e in
    if Failed o then retM tt
    else
      upd_ep e (set_failed true) ;;
      (fun k => iterM (S (size (threads (ksched (k_mach k))))) (fail_round h e) tt k) ;;
      upd_ep e (set_qtail 0) ;;
      let* o := ep e in
      (fun k => iterM (S (size (k_sends k))) drop_round (Send_Queue_Head o) k) ;;
      upd_ep e (set_shead 0) ;;
      upd_ep e (set_stail 0) ;;
      let* o := ep e in
      Wake_With_Result h (Waiting_Receiver o) Result_Endpoint_Gone ;;
      upd_ep e (set_receiver 0).

Definition Release h e : KM bool :=
  if e =? 0 then retM false
  else
    let* o := ep e in
    if (e_count o =? Pinned_Refcount) || (e_count o =? 0) then retM false
    else
      upd_ep e (set_ecount (e_count o - 1)) ;;
      if negb (e_count o - 1 =? 0) then retM false
      else Fail_Endpoint h e ;; Free_Endpoint e ;; retM true.

(** ** The caller queue *)

Definition Max_Queue_Walk : nat := 512.

Fixpoint tail_walk (n : nat) e (scan : Z) : KM Z :=
  match n with
  | O => retM 0
  | S n' =>
      if scan =? 0 then retM 0
      else
        let* x := part scan in
        if negb (Queued_On_EP x =? e) then retM 0
        else if Queue_Next x =? 0 then retM scan else tail_walk n' e (Queue_Next x)
  end.

Definition Enqueue_Caller e t : KM unit :=
  set_part t (set_queue_next 0) ;;
  set_part t (set_queued_on e) ;;
  let* o := ep e in
  let tail := Queue_Tail o in
  let* suspect := if tail =? 0 then retM (negb (Queue_Head o =? 0))
                  else let* x := part tail in
                       retM (negb (Queued_On_EP x =? e) || negb (Queue_Next x =? 0)) in
  let* tail := if suspect : bool then
                 let* w := tail_walk Max_Queue_Walk e (Queue_Head o) in
                 (if w =? 0 then upd_ep e (set_qhead 0) else retM tt) ;; retM w
               else retM tail in
  (if tail =? 0 then upd_ep e (set_qhead t) else set_part tail (set_queue_next t)) ;;
  upd_ep e (set_qtail t).

Definition dequeue_round e (_ : unit) : KM (unit + Z) :=
  let* o := ep e in
  let t := Queue_Head o in
  if t =? 0 then retM (inr 0)
  else
    let* x := part t in
    upd_ep e (set_qhead (Queue_Next x)) ;;
    (if Queue_Next x =? 0 then upd_ep e (set_qtail 0) else retM tt) ;;
    set_part t (set_queue_next 0) ;;
    set_part t (set_queued_on 0) ;;
    let* d := Is_Dead t in
    retM (if d : bool then inl tt else inr t).

Definition Dequeue_Caller e : KM Z := fun k =>
  iterM (S (size (threads (ksched (k_mach k))))) (dequeue_round e) tt k.

Definition unlink_round e t (acc : Z * Z) : KM (Z * Z + unit) :=
  let '(previous, scan) := acc in
  if scan =? 0 then retM (inr tt)
  else if scan =? t then
    let* x := part scan in
    (if previous =? 0 then upd_ep e (set_qhead (Queue_Next x)) else set_part previous (set_queue_next (Queue_Next x))) ;;
    let* o := ep e in
    (if Queue_Tail o =? t then upd_ep e (set_qtail previous) else retM tt) ;;
    set_part t (set_queue_next 0) ;;
    set_part t (set_queued_on 0) ;;
    retM (inr tt)
  else let* x := part scan in retM (inl (scan, Queue_Next x)).

Definition Cleanup_Thread_Cap t e : KM unit :=
  if (t =? 0) || (e =? 0) then retM tt
  else
    let* o := ep e in
    (if Waiting_Receiver o =? t then upd_ep e (set_receiver 0) else retM tt) ;;
    set_part t (set_recv_ep 0) ;;
    (fun k => iterM (S (size (threads (ksched (k_mach k))))) (unlink_round e t) (0, Queue_Head o) k).

Definition Cancel_Receive t : KM unit :=
  if t =? 0 then retM tt
  else
    let* x := part t in
    if Recv_EP x =? 0 then retM tt
    else
      let* o := ep (Recv_EP x) in
      (if Waiting_Receiver o =? t then upd_ep (Recv_EP x) (set_receiver 0) else retM tt) ;;
      set_part t (set_recv_ep 0).

Definition Write_Notification_Message t (bits : Z) : KM unit :=
  let* pa := Buffer_Of t in
  if pa =? 0 then retM tt
  else
    let* m := buf pa in
    put_buf pa (Message Notification_Label (bits :: replicate (Max_Words - 1) 0) (replicate Msg_Caps 0) (m_badge m)).

Definition Fail_Reply_Target h t (badge : Z) : KM unit :=
  let* d := Is_Dead t in
  if d : bool then retM tt
  else
    let* x := part t in
    if negb (Awaiting_Reply x) || negb (badge =? Reply_Generation x) then retM tt
    else Wake_With_Result h t Result_Reply_Gone.

(** ** Notifications *)

Definition Free_Notification (a : Z) : KM unit := fun k =>
  (upd_ntfn a (fun n => Notification (n_count n) (n_bits n) (Bound_Thread n) 0 false (k_ntfn_free k)) ;;
   modifyM (fun k => with_ntfn_heads (k_ntfn_frames k) a k)) k.

Definition raw_ntfn : notification := Notification 0 0 0 0 false 0.

Fixpoint free_ntfns (base : Z) (i : Z) (n : nat) : KM unit :=
  match n with
  | O => retM tt
  | S n' =>
      let a := u64 (base + i * Ntfn_Slot_Bytes) in
      modifyM (fun k => with_ntfns (<[a := raw_ntfn]> (k_ntfns k)) k) ;;
      Free_Notification a ;; free_ntfns base (i + 1) n'
  end.

(** The first slot of a frame links the frames. *)
Definition Grow_Ntfns : KM ntfn_status :=
  let* r := on_frames Allocate_Frame in
  if negb (bool_decide (r.1 = PM_Ok)) then retM No_Slot
  else
    let base := Phys_To_Virt r.2 in
    modifyM (fun k => with_ntfns (<[base := Notification 0 0 0 0 false (k_ntfn_frames k)]> (k_ntfns k)) k) ;;
    modifyM (fun k => with_ntfn_heads base (k_ntfn_free k) k) ;;
    free_ntfns base 1 (Z.to_nat (Frame_Size / Ntfn_Slot_Bytes - 1)) ;; retM NS_Ok.

(** One frame: is [o] one of its slots? *)
Definition slot_round (o : Z) (frame : Z) : KM (Z + bool) :=
  if frame =? 0 then retM (inr false)
  else
    let diff := u64 (o - (frame + Ntfn_Slot_Bytes)) in
    if (diff mod Ntfn_Slot_Bytes =? 0) && (diff <? Frame_Size - Ntfn_Slot_Bytes) then retM (inr true)
    else let* n := ntfn frame in retM (inl (n_next_free n)).

(** Whether [o] is the address of a notification; then it is [o] itself. *)
Definition Slot_Access (o : Z) : KM bool := fun k =>
  iterM (S (size (k_ntfns k))) (slot_round o) (k_ntfn_frames k) k.

Definition Create_Ntfn : KM (ntfn_status * Z) :=
  let* st := fun k => if k_ntfn_free k =? 0 then Grow_Ntfns k else Done NS_Ok k in
  if negb (bool_decide (st = NS_Ok)) then retM (st, 0)
  else fun k =>
    let a := k_ntfn_free k in
    (let* n := ntfn a in
     modifyM (fun k => with_ntfn_heads (k_ntfn_frames k) (n_next_free n) k) ;;
     upd_ntfn a (fun _ => Notification 0 0 0 0 true 0) ;; retM (NS_Ok, a)) k.

Definition Discard_Ntfn (o : Z) : KM unit :=
  let* v := Slot_Access o in if v : bool then Free_Notification o else retM tt.

Definition Retain_Ntfn (o : Z) : KM unit :=
  let* v := Slot_Access o in
  if v : bool then let* n := ntfn o in upd_ntfn o (set_ncount (n_count n + 1)) else retM tt.

Definition Release_Ntfn h (o : Z) : KM bool :=
  let* v := Slot_Access o in
  if negb v then retM false
  else
    let* n := ntfn o in
    (if 0 <? n_count n then upd_ntfn o (set_ncount (n_count n - 1)) else retM tt) ;;
    let* n := ntfn o in
    if n_count n =? 0 then
      upd_ntfn o (set_bound_thread 0) ;;
      upd_ntfn o (set_bits 0) ;;
      (if negb (n_waiting n =? 0) then
         set_part (n_waiting n) (set_saved_a0 U64_Last) ;;
         let* _ := on_mach (on_sched (Wake h (n_waiting n))) in retM tt
       else retM tt) ;;
      Free_Notification o ;; retM true
    else retM false.

Definition Take (o : Z) : KM Z :=
  let* v := Slot_Access o in
  if v : bool then let* n := ntfn o in upd_ntfn o (set_bits 0) ;; retM (n_bits n) else retM 0.

Definition Signal h (o bits : Z) : KM unit :=
  let* v := Slot_Access o in
  if negb v then retM tt
  else
    let* n := ntfn o in
    upd_ntfn o (set_bits (Z.lor (n_bits n) bits)) ;;
    let* n := ntfn o in
    if negb (n_waiting n =? 0) then
      upd_ntfn o (set_waiting 0) ;;
      let* b := Take o in
      set_part (n_waiting n) (set_saved_a0 b) ;;
      let* _ := on_mach (on_sched (Wake h (n_waiting n))) in retM tt
    else
      let t := Bound_Thread n in
      if t =? 0 then retM tt
      else
        let* c := thread t in
        if bool_decide (Status c = Blocked_Notification) then
          let* b := Take o in
          set_part t (set_saved_a0 b) ;;
          let* _ := on_mach (on_sched (Wake h t)) in retM tt
        else if bool_decide (Status c = Blocked_Receive) then
          Cancel_Receive t ;;
          let* b := Take o in
          Write_Notification_Message t b ;;
          set_part t (set_saved_a0 Result_Ok) ;;
          let* _ := on_mach (on_sched (Wake h t)) in retM tt
        else retM tt.

Definition Record_Waiter (o t : Z) : KM ntfn_status :=
  let* v := Slot_Access o in
  if negb v || (t =? 0) then retM No_Slot
  else
    let* n := ntfn o in
    if negb (n_waiting n =? 0) && negb (n_waiting n =? t) then retM Already_Waiting
    else upd_ntfn o (set_waiting t) ;; retM NS_Ok.

Definition Clear_Waiter (o t : Z) : KM unit :=
  let* v := Slot_Access o in
  if negb v then retM tt
  else let* n := ntfn o in if n_waiting n =? t then upd_ntfn o (set_waiting 0) else retM tt.

Definition Bind_Thread (o t : Z) : KM ntfn_status :=
  let* v := Slot_Access o in
  if negb v || (t =? 0) then retM No_Slot
  else
    let* n := ntfn o in
    let* x := if negb (Bound_Thread n =? 0) then retM true
              else let* x := part t in retM (negb (Bound_Ntfn x =? 0)) in
    if x : bool then retM Already_Bound
    else upd_ntfn o (set_bound_thread t) ;; set_part t (set_bound o) ;; retM NS_Ok.

Definition Cleanup_Thread_Ntfn (t o : Z) (unbind : bool) : KM unit :=
  let* v := Slot_Access o in
  if negb unbind then retM tt
  else
    (if v : bool then
       let* n := ntfn o in
       (if Bound_Thread n =? t then upd_ntfn o (set_bound_thread 0) else retM tt) ;;
       let* n := ntfn o in
       if n_waiting n =? t then upd_ntfn o (set_waiting 0) else retM tt
     else retM tt) ;;
    if t =? 0 then retM tt
    else let* x := part t in if Bound_Ntfn x =? o then set_part t (set_bound 0) else retM tt.

Fixpoint forget_slots (base i : Z) (n : nat) (t : Z) : KM unit :=
  match n with
  | O => retM tt
  | S n' =>
      let a := u64 (base + i * Ntfn_Slot_Bytes) in
      let* o := ntfn a in
      (if n_in_use o && (n_waiting o =? t) then upd_ntfn a (set_waiting 0) else retM tt) ;;
      forget_slots base (i + 1) n' t
  end.

Definition forget_round t (frame : Z) : KM (Z + unit) :=
  if frame =? 0 then retM (inr tt)
  else
    forget_slots frame 1 (Z.to_nat (Frame_Size / Ntfn_Slot_Bytes - 1)) t ;;
    let* n := ntfn frame in retM (inl (n_next_free n)).

Definition Cleanup_Thread t : KM unit :=
  if t =? 0 then retM tt
  else
    let* x := part t in
    (if negb (Bound_Ntfn x =? 0) then
       let* v := Slot_Access (Bound_Ntfn x) in
       (if v : bool then
          let* n := ntfn (Bound_Ntfn x) in
          if Bound_Thread n =? t then upd_ntfn (Bound_Ntfn x) (set_bound_thread 0) else retM tt
        else retM tt) ;;
       set_part t (set_bound 0)
     else retM tt) ;;
    let* c := thread t in
    if bool_decide (Status c = Blocked_Notification) then
      fun k => iterM (S (size (k_ntfns k))) (forget_round t) (k_ntfn_frames k) k
    else retM tt.

End objects.

Section ipc.
Context {W : Type} {OW : Others W} (raw_stamp : Z -> bool).
Implicit Types (h : nat) (t e : Z) (k : kern W).
Notation KM := (KM (W := W)).

(** ** Capabilities *)

Definition on_table {A} (p : Z) (op : CM A) : KM A := fun k =>
  match k_procs k !! p with
  | None => Blocked k
  | Some pr =>
      match op (p_caps pr, k_pmm k) with
      | Done r w => Done r (with_rest (k_w k) w.2 (with_procs (<[p := Proc (p_id pr) w.1]> (k_procs k)) k))
      | Blocked w => Blocked k
      end
  end.

Definition Retain_Cap (c : Cap_Entry) : KM unit :=
  if negb (c_valid c) then retM tt
  else
    match c_kind c with
    | Endpoint_Object => Retain (c_object c)
    | Notification_Object => Retain_Ntfn (c_object c)
    | Memory_Object | MMIO_Object | IRQ_Object => on_rest (other_retain (c_kind c) (c_object c))
    | _ => retM tt
    end.

Definition Cleanup_Thread_Cap_Object h t (c : Cap_Entry) (dying : bool) : KM unit :=
  if (t =? 0) || negb (c_valid c) then retM tt
  else
    match c_kind c with
    | Endpoint_Object =>
        (if dying && rt_receive (c_rights c) then Fail_Endpoint h (c_object c) else retM tt) ;;
        Cleanup_Thread_Cap t (c_object c) ;;
        let* _ := Release h (c_object c) in retM tt
    | Reply_Object => Fail_Reply_Target h (c_object c) (c_badge c)
    | Notification_Object =>
        Cleanup_Thread_Ntfn t (c_object c) dying ;;
        let* _ := Release_Ntfn h (c_object c) in retM tt
    | IRQ_Object | MMIO_Object | Memory_Object => on_rest (other_release t (c_kind c) (c_object c))
    | _ => retM tt
    end.

Definition Insert_Process_Cap (p : Z) (kd : Object_Kind) (o : Z) (r : rights) (b : Z) : KM (cap_status * Z) :=
  let* x := on_table p (Insert kd o r b) in
  (if bool_decide (x.1 = Cap_Ok) then Retain_Cap (CapEntry true kd o r b) else retM tt) ;;
  retM x.

Definition Insert_Cap t (kd : Object_Kind) (o : Z) (r : rights) (b : Z) : KM (cap_status * Z) :=
  let* x := part t in
  if Process x =? 0 then retM (Invalid_Object, Invalid_Handle)
  else Insert_Process_Cap (Process x) kd o r b.

Definition Lookup_Cap t (cap : Z) : KM (cap_status * Cap_Entry) :=
  let* x := part t in
  if Process x =? 0 then retM (Invalid_Object, Null_Cap) else on_table (Process x) (Lookup cap).

Definition Close_Cap h t (cap : Z) (dying : bool) : KM cap_status :=
  let* x := part t in
  if Process x =? 0 then retM Invalid_Object
  else
    let* l := on_table (Process x) (Lookup cap) in
    if negb (bool_decide (l.1 = Cap_Ok)) then retM l.1
    else
      Cleanup_Thread_Cap_Object h t l.2 dying ;;
      on_table (Process x) (Close_Slot cap).

Definition Forget_Cap t (cap : Z) : KM cap_status :=
  let* x := part t in
  if Process x =? 0 then retM Invalid_Object else on_table (Process x) (Close_Slot cap).

(** ** Endpoints by capability *)

Definition Send_Right : rights := Rights false false false false true false false false false false.
Definition Receive_Right : rights := Rights false false false false false true false false false false.

(** The endpoint and the badge of the message. *)
Definition Resolve_Endpoint t (cap : Z) (needed : rights) : KM (ipc_status * (Z * Z)) :=
  let* d := Is_Dead t in
  if d : bool then retM (IS_Invalid_Task, (0, 0))
  else
    let* l := Lookup_Cap t cap in
    if negb (bool_decide (l.1 = Cap_Ok)) then retM (IS_Invalid_Cap, (0, 0))
    else if negb (bool_decide (c_kind l.2 = Endpoint_Object)) then retM (Wrong_Object, (0, 0))
    else if negb (Has_Rights (c_rights l.2) needed) then retM (IS_Rights_Denied, (0, 0))
    else if c_object l.2 =? 0 then retM (Wrong_Object, (0, 0))
    else
      let* o := ep (c_object l.2) in
      if (c_badge l.2 =? 0) && Stamp_Identity o then
        let* x := part t in
        fun k => match k_procs k !! Process x with
                 | Some pr => Done (IS_Ok, (c_object l.2, p_id pr)) k
                 | None => Blocked k
                 end
      else retM (IS_Ok, (c_object l.2, c_badge l.2)).

(** ** Transfer *)

(** The handles inserted so far are closed again. *)
Fixpoint rollback h t (handles : list Z) : KM unit :=
  match handles with
  | [] => retM tt
  | x :: l => (if negb (x =? 0) then let* _ := Close_Cap h t x false in retM tt else retM tt) ;; rollback h t l
  end.

(** The capabilities of the message, [done] those already inserted. *)
Fixpoint transfer_caps h (sender receiver : Z) (raws done : list Z) : KM (option (list Z)) :=
  match raws with
  | [] => retM (Some done)
  | raw :: l =>
      if raw =? 0 then transfer_caps h sender receiver l (done ++ [0])
      else if Max_Caps - 1 <? raw then rollback h receiver done ;; retM None
      else
        let* c := Lookup_Cap sender raw in
        if negb (bool_decide (c.1 = Cap_Ok)) || negb (rt_transfer (c_rights c.2))
           || bool_decide (c_kind c.2 = Reply_Object)
        then rollback h receiver done ;; retM None
        else
          let* n := Insert_Cap receiver (c_kind c.2) (c_object c.2) (c_rights c.2) (c_badge c.2) in
          if negb (bool_decide (n.1 = Cap_Ok)) then rollback h receiver done ;; retM None
          else transfer_caps h sender receiver l (done ++ [n.2])
  end.

Definition Transfer_Message h (sender receiver badge : Z) : KM ipc_status :=
  let* sb := Buffer_Of sender in
  let* rb := Buffer_Of receiver in
  if (sb =? 0) || (rb =? 0) then retM IS_Invalid_Task
  else
    let* m := buf sb in
    let* r := transfer_caps h sender receiver (m_caps m) [] in
    match r with
    | None => retM Transfer_Failed
    | Some caps =>
        let* m := buf sb in
        put_buf rb (Message (m_label m) (m_words m) caps badge) ;; retM IS_Ok
    end.

Definition Mint_Reply_Cap (receiver caller : Z) : KM (ipc_status * Z) :=
  let* x := part caller in
  let* n := Insert_Cap receiver Reply_Object caller No_Rights (Reply_Generation x) in
  if negb (bool_decide (n.1 = Cap_Ok)) then retM (Transfer_Failed, n.2)
  else set_part caller (set_awaiting true) ;; retM (IS_Ok, n.2).

(** ** The rendezvous *)

(** The receiver that waits in [Receive] on [e], if there is one. *)
Definition ready_receiver e : KM (option Z) :=
  let* o := ep e in
  let r := Waiting_Receiver o in
  if r =? 0 then retM None
  else
    let* d := Is_Dead r in
    if d : bool then retM None
    else
      let* c := thread r in
      retM (if bool_decide (Status c = Blocked_Receive) && (Recv_EP (others c) =? e) then Some r else None).

(** A recorded receiver that does not wait is forgotten. *)
Definition drop_receiver e : KM unit :=
  let* o := ep e in
  let r := Waiting_Receiver o in
  (if r =? 0 then retM tt
   else let* d := Is_Dead r in if d : bool then retM tt else set_part r (set_recv_ep 0)) ;;
  upd_ep e (set_receiver 0).

Definition Call h t (cap : Z) : KM ipc_status :=
  let* pa := Buffer_Of t in
  if pa =? 0 then retM IS_Invalid_Task
  else
    let* r := Resolve_Endpoint t cap Send_Right in
    if negb (bool_decide (r.1 = IS_Ok)) then retM r.1
    else
      let e := r.2.1 in
      let badge := r.2.2 in
      set_part t (set_wanted true) ;;
      let* o := ep e in
      if Failed o then retM Endpoint_Gone
      else
        let* rcv := ready_receiver e in
        match rcv with
        | Some rc =>
            upd_ep e (set_receiver 0) ;;
            let* st := Transfer_Message h t rc badge in
            if negb (bool_decide (st = IS_Ok)) then Wake_With_Result h rc Result_Transfer_Failed ;; retM st
            else
              let* m := Mint_Reply_Cap rc t in
              if negb (bool_decide (m.1 = IS_Ok)) then Wake_With_Result h rc Result_Transfer_Failed ;; retM m.1
              else
                set_part t (set_call_badge badge) ;;
                set_part rc (set_saved_a1 m.2) ;;
                Wake_With_Result h rc Result_Ok ;;
                retM Would_Block
        | None =>
            drop_receiver e ;;
            set_part t (set_call_badge badge) ;;
            Enqueue_Caller e t ;;
            retM Would_Block
        end.

Definition Send h t (cap : Z) : KM ipc_status :=
  let* pa := Buffer_Of t in
  if pa =? 0 then retM IS_Invalid_Task
  else
    let* r := Resolve_Endpoint t cap Send_Right in
    if negb (bool_decide (r.1 = IS_Ok)) then retM r.1
    else
      let e := r.2.1 in
      let badge := r.2.2 in
      set_part t (set_wanted false) ;;
      let* o := ep e in
      if Failed o then retM Endpoint_Gone
      else
        let* rcv := ready_receiver e in
        match rcv with
        | Some rc =>
            upd_ep e (set_receiver 0) ;;
            let* st := Transfer_Message h t rc badge in
            if negb (bool_decide (st = IS_Ok)) then Wake_With_Result h rc Result_Transfer_Failed ;; retM st
            else
              set_part rc (set_saved_a1 0) ;;
              Wake_With_Result h rc Result_Ok ;;
              retM IS_Ok
        | None =>
            drop_receiver e ;;
            let* m := buf pa in
            let* a := if forallb (fun x => x =? 0) (m_caps m) then Queue_Send_Copy t badge else retM 0 in
            if negb (a =? 0) then
              let* o := ep e in
              (if Send_Queue_Tail o =? 0 then upd_ep e (set_shead a)
               else upd_slot (Send_Queue_Tail o)
                      (fun q => QueuedSend (q_label q) (q_words q) (q_badge q) a (q_in_use q) (q_next_free q))) ;;
              upd_ep e (set_stail a) ;;
              retM IS_Ok
            else
              set_part t (set_call_badge badge) ;;
              Enqueue_Caller e t ;;
              retM Would_Block
        end.

(** The oldest copied message goes into the buffer of the receiver. *)
Definition take_copy e t : KM unit :=
  let* o := ep e in
  let a := Send_Queue_Head o in
  let* pa := Buffer_Of t in
  let* q := slot a in
  upd_ep e (set_shead (q_next q)) ;;
  (if q_next q =? 0 then upd_ep e (set_stail 0) else retM tt) ;;
  put_buf pa (Message (q_label q) (q_words q) (replicate Msg_Caps 0) (q_badge q)) ;;
  Free_Queued_Send a.

Definition Receive h t (cap : Z) : KM (ipc_status * Z) :=
  let* pa := Buffer_Of t in
  if pa =? 0 then retM (IS_Invalid_Task, 0)
  else
    let* r := Resolve_Endpoint t cap Receive_Right in
    if negb (bool_decide (r.1 = IS_Ok)) then retM (r.1, 0)
    else
      let e := r.2.1 in
      let* o := ep e in
      if Failed o then retM (Endpoint_Gone, 0)
      else
        let* caller := Dequeue_Caller e in
        if caller =? 0 then
          let* o := ep e in
          if negb (Send_Queue_Head o =? 0) then take_copy e t ;; retM (IS_Ok, 0)
          else
            let* other := if (Waiting_Receiver o =? 0) || (Waiting_Receiver o =? t) then retM false
                          else let* d := Is_Dead (Waiting_Receiver o) in retM (negb d) in
            if other : bool then retM (IS_Invalid_Task, 0)
            else
              upd_ep e (set_receiver t) ;;
              set_part t (set_recv_ep e) ;;
              retM (Would_Block, 0)
        else
          let* x := part caller in
          let* st := Transfer_Message h caller t (Call_Badge x) in
          if negb (bool_decide (st = IS_Ok)) then Wake_With_Result h caller Result_Transfer_Failed ;; retM (st, 0)
          else
            let* x := part caller in
            if negb (Reply_Wanted x) then Wake_With_Result h caller Result_Ok ;; retM (IS_Ok, 0)
            else
              let* m := Mint_Reply_Cap t caller in
              if negb (bool_decide (m.1 = IS_Ok)) then Wake_With_Result h caller Result_Transfer_Failed ;; retM (m.1, 0)
              else retM (IS_Ok, m.2).

Definition Reply h t (cap : Z) : KM ipc_status :=
  let* pa := Buffer_Of t in
  if (t =? 0) || (pa =? 0) then retM IS_Invalid_Task
  else
    let* l := Lookup_Cap t cap in
    if negb (bool_decide (l.1 = Cap_Ok)) || negb (bool_decide (c_kind l.2 = Reply_Object)) then retM Reply_Missing
    else
      let caller := c_object l.2 in
      let* d := Is_Dead caller in
      let* stale := if d : bool then retM true
                    else let* x := part caller in
                         retM (negb (Awaiting_Reply x) || negb (c_badge l.2 =? Reply_Generation x)) in
      if stale : bool then let* _ := Forget_Cap t cap in retM Reply_Missing
      else
        let* cb := Buffer_Of caller in
        if cb =? 0 then
          let* _ := Forget_Cap t cap in
          Wake_With_Result h caller Result_Reply_Gone ;; retM Reply_Missing
        else
          let* _ := Forget_Cap t cap in
          let* st := Transfer_Message h t caller 0 in
          if negb (bool_decide (st = IS_Ok)) then Wake_With_Result h caller Result_Transfer_Failed ;; retM IS_Ok
          else
            set_part caller (set_awaiting false) ;;
            set_part caller (set_saved_a0 Result_Ok) ;;
            let* _ := on_mach (on_sched (Wake h caller)) in retM IS_Ok.

(** ** System calls *)

(** The first two argument registers. *)
Definition regs : Type := Z * Z.

Definition running h : KM Z := getsM (fun k => current (k_mach k) h).
Definition Save_Current_Context t (r : regs) : KM unit :=
  set_part t (set_saved_a0 r.1) ;; set_part t (set_saved_a1 r.2).
Definition bad_handle (a0 : Z) : bool := Max_Caps - 1 <? a0.

Definition ipc_result (st : ipc_status) : Z :=
  match st with
  | IS_Ok => Result_Ok
  | Transfer_Failed => Result_Transfer_Failed
  | Endpoint_Gone => Result_Endpoint_Gone
  | _ => Result_Invalid
  end.

(** The thread blocks with [Ok] as its result until somebody wakes it. *)
Definition block h t (a1 : Z) (st : Thread_State) : KM (option regs) :=
  Save_Current_Context t (Result_Ok, a1) ;;
  on_mach (blocking_call h [] st) ;; retM None.

Definition Handle_IPC_Call h (r : regs) : KM (option regs) :=
  let* t := running h in
  if bad_handle r.1 || (t =? 0) then retM (Some (Result_Invalid, r.2))
  else
    let* st := Call h t r.1 in
    if bool_decide (st = Would_Block) then block h t r.2 Blocked_Send else retM (Some (ipc_result st, r.2)).

Definition Handle_IPC_Send h (r : regs) : KM (option regs) :=
  let* t := running h in
  if bad_handle r.1 || (t =? 0) then retM (Some (Result_Invalid, r.2))
  else
    let* st := Send h t r.1 in
    if bool_decide (st = Would_Block) then block h t r.2 Blocked_Send else retM (Some (ipc_result st, r.2)).

Definition Handle_IPC_Recv h (r : regs) : KM (option regs) :=
  let* t := running h in
  if t =? 0 then retM (Some (Result_Invalid, r.2))
  else
    let* x := part t in
    let* bits := if Bound_Ntfn x =? 0 then retM 0 else Take (Bound_Ntfn x) in
    if negb (bits =? 0) then Write_Notification_Message t bits ;; retM (Some (Result_Ok, 0))
    else if bad_handle r.1 then retM (Some (Result_Invalid, r.2))
    else
      let* st := Receive h t r.1 in
      if bool_decide (st.1 = Would_Block) then block h t r.2 Blocked_Receive
      else retM (Some (ipc_result st.1, if bool_decide (st.1 = IS_Ok) then st.2 else 0)).

Definition Handle_IPC_Reply h (r : regs) : KM regs :=
  let* t := running h in
  if (t =? 0) || bad_handle r.1 then retM (Result_Invalid, r.2)
  else let* st := Reply h t r.1 in retM (ipc_result st, r.2).

Definition Endpoint_Full_Rights : rights := Rights false false false false true true false false true true.
Definition Notification_Full_Rights : rights := Rights false true false false false false true false true true.

Definition Handle_EP_Create h (r : regs) : KM regs :=
  let* t := running h in
  if t =? 0 then retM (U64_Last, r.2)
  else
    let* c := Create_Endpoint raw_stamp in
    if negb (bool_decide (c.1 = IS_Ok)) then retM (U64_Last, r.2)
    else
      let* n := Insert_Cap t Endpoint_Object c.2 Endpoint_Full_Rights 0 in
      if negb (bool_decide (n.1 = Cap_Ok)) then Discard c.2 ;; retM (U64_Last, r.2)
      else retM (n.2, r.2).

Definition Handle_Ntfn_Create h (r : regs) : KM regs :=
  let* t := running h in
  if t =? 0 then retM (U64_Last, r.2)
  else
    let* c := Create_Ntfn in
    if negb (bool_decide (c.1 = NS_Ok)) then retM (U64_Last, r.2)
    else
      let* n := Insert_Cap t Notification_Object c.2 Notification_Full_Rights 0 in
      if negb (bool_decide (n.1 = Cap_Ok)) then Discard_Ntfn c.2 ;; retM (U64_Last, r.2)
      else retM (n.2, r.2).

(** The notification behind a handle, if it carries the right. *)
Definition Lookup_Ntfn_Cap t (a0 : Z) (right : rights -> bool) : KM (option Z) :=
  if bad_handle a0 || (t =? 0) then retM None
  else
    let* l := Lookup_Cap t a0 in
    retM (if bool_decide (l.1 = Cap_Ok) && bool_decide (c_kind l.2 = Notification_Object) && right (c_rights l.2)
          then Some (c_object l.2) else None).

Definition Handle_Ntfn_Wait h (r : regs) : KM (option regs) :=
  let* t := running h in
  let* o := Lookup_Ntfn_Cap t r.1 rt_wait in
  match o with
  | None => retM (Some (U64_Last, r.2))
  | Some o =>
      let* bits := Take o in
      if negb (bits =? 0) then retM (Some (bits, r.2))
      else
        Save_Current_Context t r ;;
        let* st := Record_Waiter o t in
        if negb (bool_decide (st = NS_Ok)) then retM (Some (U64_Last, r.2))
        else on_mach (blocking_call h [] Blocked_Notification) ;; retM None
  end.

Definition Handle_Ntfn_Signal h (r : regs) : KM regs :=
  let* t := running h in
  let* o := Lookup_Ntfn_Cap t r.1 rt_write in
  match o with
  | None => retM (1, r.2)
  | Some o => Signal h o r.2 ;; retM (0, r.2)
  end.

Definition Handle_Ntfn_Bind_Thread h (r : regs) : KM regs :=
  let* t := running h in
  let* o := Lookup_Ntfn_Cap t r.1 rt_manage in
  match o with
  | None => retM (1, r.2)
  | Some o => let* st := Bind_Thread o t in retM (if bool_decide (st = NS_Ok) then 0 else 1, r.2)
  end.

Definition Handle_Cap_Mint h (r : regs) (a2 : Z) : KM regs :=
  let* t := running h in
  if bad_handle r.1 || (t =? 0) || negb (Z.land r.2 (Z.lnot Valid_Rights_Mask) =? 0) then retM (U64_Last, r.2)
  else
    let* l := Lookup_Cap t r.1 in
    if negb (bool_decide (l.1 = Cap_Ok)) || bool_decide (c_kind l.2 = Reply_Object) then retM (U64_Last, r.2)
    else if negb (Has_Rights (c_rights l.2) (To_Rights r.2)) then retM (U64_Last, r.2)
    else
      let* n := Insert_Cap t (c_kind l.2) (c_object l.2) (To_Rights r.2) a2 in
      retM (if bool_decide (n.1 = Cap_Ok) then n.2 else U64_Last, r.2).

Definition Handle_Cap_Delete h (r : regs) : KM regs :=
  let* t := running h in
  if bad_handle r.1 || (t =? 0) then retM (U64_Last, r.2)
  else
    let* st := Close_Cap h t r.1 false in
    retM (if bool_decide (st = Cap_Ok) then 0 else U64_Last, r.2).

(** The end of [Handle_Syscall]: the thread may have to give way. *)
Definition finish h (entering : Z) (r : regs) : KM (option regs) :=
  let* t := running h in
  if negb (t =? entering) then retM (Some r)
  else
    let* p := on_mach (on_sched (Should_Preempt h)) in
    if p : bool then Save_Current_Context t r ;; on_mach (Schedule_Saved_Context h) ;; retM None
    else retM (Some r).

Inductive call_number : Type :=
  | Sys_EP_Create | Sys_IPC_Call | Sys_IPC_Send | Sys_IPC_Recv | Sys_IPC_Reply | Sys_Ntfn_Create | Sys_Ntfn_Wait
  | Sys_Ntfn_Signal | Sys_Ntfn_Bind_Thread | Sys_Cap_Delete | Sys_Cap_Mint.

Definition Handle_Syscall h (n : call_number) (r : regs) (a2 : Z) : KM (option regs) :=
  let* t := running h in
  let ret (c : KM regs) : KM (option regs) := let* x := c in finish h t x in
  match n with
  | Sys_EP_Create => ret (Handle_EP_Create h r)
  | Sys_IPC_Call => Handle_IPC_Call h r
  | Sys_IPC_Send => Handle_IPC_Send h r
  | Sys_IPC_Recv => Handle_IPC_Recv h r
  | Sys_IPC_Reply => ret (Handle_IPC_Reply h r)
  | Sys_Ntfn_Create => ret (Handle_Ntfn_Create h r)
  | Sys_Ntfn_Wait => Handle_Ntfn_Wait h r
  | Sys_Ntfn_Signal => ret (Handle_Ntfn_Signal h r)
  | Sys_Ntfn_Bind_Thread => ret (Handle_Ntfn_Bind_Thread h r)
  | Sys_Cap_Delete => ret (Handle_Cap_Delete h r)
  | Sys_Cap_Mint => ret (Handle_Cap_Mint h r a2)
  end.

End ipc.
