(* ===== verification/KIpcLog.v ===== *)
(** * A program logic for the kernel's objects

    [view]: what message passing needs to know of the kernel, without the
    links of the scheduler and the pages of the capability tables: the state
    and the fields of each thread, the objects, and all capabilities as one
    finite map from process and handle.  [seen] relates the kernel to its
    view; it includes that the scheduler is settled and that every table
    represents its part of the map.  [kwp c Q v]: in every kernel seen as [v]
    the operation [c] returns, and [Q] holds of its result and a view of the
    kernel after it. *)
From S2P Require Import Prelude CInt KPmm KPmmSpec KCap KCapSpec KSched KSchedSpec KSchedOps KTrap KTrapSpec KTrapOps KTrapInv KTrapClaims KIpc.

(** What the objects of the other kinds promise: they keep to the frames they
    own. *)
Class OthersLaws (W : Type) {OW : Others W} := {
  other_frames : W -> gset Z;
  other_retain_ok kd o w p R fl :
    pmm_ok p (other_frames w ∪ R) fl -> other_frames w ## R ->
    exists w' p' fl', other_retain kd o (w, p) = Done tt (w', p') /\ undisturbed R p p' /\
      pmm_ok p' (other_frames w' ∪ R) fl' /\ other_frames w' ## R;
  other_release_ok t kd o w p R fl :
    pmm_ok p (other_frames w ∪ R) fl -> other_frames w ## R ->
    exists w' p' fl', other_release t kd o (w, p) = Done tt (w', p') /\ undisturbed R p p' /\
      pmm_ok p' (other_frames w' ∪ R) fl' /\ other_frames w' ## R }.

Record view (W : Type) := View {
  v_threads : gmap Z (Thread_State * ipc_part); v_curs : list Z;
  v_eps : gmap Z endpoint; v_ep_free : Z;
  v_sends : gmap Z queued_send; v_send_free : Z;
  v_ntfns : gmap Z notification; v_nframes : Z; v_nfree : Z;
  v_bufs : gmap Z message;
  v_pids : gmap Z Z; v_caps : gmap (Z * Z) Cap_Entry;
  v_slabs : gset Z; v_w : W }.
Arguments View {W}. Arguments v_threads {W}. Arguments v_curs {W}. Arguments v_eps {W}. Arguments v_ep_free {W}.
Arguments v_sends {W}. Arguments v_send_free {W}. Arguments v_ntfns {W}. Arguments v_nframes {W}. Arguments v_nfree {W}.
Arguments v_bufs {W}. Arguments v_pids {W}. Arguments v_caps {W}. Arguments v_slabs {W}. Arguments v_w {W}.

Section logic.
Context {W : Type} {OW : Others W} {LW : OthersLaws W}.
Implicit Types (h : nat) (t e : Z) (k : kern W) (v : view W) (T : gmap Z (Thread_State * ipc_part)).
Notation KM := (KM (W := W)).

Definition vset_threads T v := View T (v_curs v) (v_eps v) (v_ep_free v) (v_sends v) (v_send_free v) (v_ntfns v) (v_nframes v)
  (v_nfree v) (v_bufs v) (v_pids v) (v_caps v) (v_slabs v) (v_w v).
Definition vset_sched T (l : list Z) v := View T l (v_eps v) (v_ep_free v) (v_sends v) (v_send_free v) (v_ntfns v) (v_nframes v)
  (v_nfree v) (v_bufs v) (v_pids v) (v_caps v) (v_slabs v) (v_w v).
Definition vset_eps m v := View (v_threads v) (v_curs v) m (v_ep_free v) (v_sends v) (v_send_free v) (v_ntfns v) (v_nframes v)
  (v_nfree v) (v_bufs v) (v_pids v) (v_caps v) (v_slabs v) (v_w v).
Definition vset_ep_free f v := View (v_threads v) (v_curs v) (v_eps v) f (v_sends v) (v_send_free v) (v_ntfns v) (v_nframes v)
  (v_nfree v) (v_bufs v) (v_pids v) (v_caps v) (v_slabs v) (v_w v).
Definition vset_sends m v := View (v_threads v) (v_curs v) (v_eps v) (v_ep_free v) m (v_send_free v) (v_ntfns v) (v_nframes v)
  (v_nfree v) (v_bufs v) (v_pids v) (v_caps v) (v_slabs v) (v_w v).
Definition vset_send_free f v := View (v_threads v) (v_curs v) (v_eps v) (v_ep_free v) (v_sends v) f (v_ntfns v) (v_nframes v)
  (v_nfree v) (v_bufs v) (v_pids v) (v_caps v) (v_slabs v) (v_w v).
Definition vset_bufs m v := View (v_threads v) (v_curs v) (v_eps v) (v_ep_free v) (v_sends v) (v_send_free v) (v_ntfns v) (v_nframes v)
  (v_nfree v) m (v_pids v) (v_caps v) (v_slabs v) (v_w v).
Definition vset_caps m v := View (v_threads v) (v_curs v) (v_eps v) (v_ep_free v) (v_sends v) (v_send_free v) (v_ntfns v) (v_nframes v)
  (v_nfree v) (v_bufs v) (v_pids v) m (v_slabs v) (v_w v).
Definition vset_slabs f v := View (v_threads v) (v_curs v) (v_eps v) (v_ep_free v) (v_sends v) (v_send_free v) (v_ntfns v) (v_nframes v)
  (v_nfree v) (v_bufs v) (v_pids v) (v_caps v) f (v_w v).
Definition vset_w (w : W) v := View (v_threads v) (v_curs v) (v_eps v) (v_ep_free v) (v_sends v) (v_send_free v) (v_ntfns v) (v_nframes v)
  (v_nfree v) (v_bufs v) (v_pids v) (v_caps v) (v_slabs v) w.

(** ** What is seen *)

Definition pairs (a : asched ipc_part) : gmap Z (Thread_State * ipc_part) := (fun i => (i_status i, i_others i)) <$> a_info a.

Record mem_ok (procs : gmap Z process) (p : pmm frame_data) v (F : Z -> gset Z) (own : gset Z) (fl : list Z) : Prop := {
  mo_pmm : pmm_ok p own fl;
  mo_limit : Limit p <= 2 ^ 38;
  mo_table : forall q pr, procs !! q = Some pr -> F q ⊆ own /\ F q ## v_slabs v /\ F q ## other_frames (v_w v) /\
    exists A, table_ok (-1) (p_caps pr) p A (F q) /\ forall j, A !! j = v_caps v !! (q, j);
  mo_apart : forall q q', q <> q' -> is_Some (procs !! q) -> is_Some (procs !! q') -> F q ## F q';
  mo_pids : p_id <$> procs = v_pids v;
  mo_caps : forall q j c, v_caps v !! (q, j) = Some c -> is_Some (procs !! q);
  mo_slabs : v_slabs v ⊆ own;
  mo_others : other_frames (v_w v) ⊆ own /\ v_slabs v ## other_frames (v_w v) }.

Record seen k v : Prop := {
  sn_mach : exists a, settled_as (k_mach k) a /\ pairs a = v_threads v /\ a_cur a = v_curs v;
  sn_objs : (k_eps k, k_ep_free k, k_sends k, k_send_free k, k_bufs k) = (v_eps v, v_ep_free v, v_sends v, v_send_free v, v_bufs v);
  sn_ntfns : (k_ntfns k, k_ntfn_frames k, k_ntfn_free k) = (v_ntfns v, v_nframes v, v_nfree v);
  sn_w : k_w k = v_w v;
  sn_mem : exists F own fl, mem_ok (k_procs k) (k_pmm k) v F own fl }.

Definition kwp {A} (c : KM A) (Q : A -> view W -> Prop) v : Prop :=
  forall k, seen k v -> exists r k' v', c k = Done r k' /\ seen k' v' /\ Q r v'.

Lemma kwp_ret {A} (r : A) (Q : A -> view W -> Prop) v : Q r v -> kwp (retM r) Q v.
Proof. intros HQ k Hk. by exists r, k, v. Qed.

Lemma kwp_bind {A B} (c : KM A) (f : A -> KM B) (Q : B -> view W -> Prop) v :
  kwp c (fun r v' => kwp (f r) Q v') v -> kwp (bindM c f) Q v.
Proof.
  intros H k Hk. destruct (H k Hk) as (r & k1 & v1 & E1 & Hk1 & H1). destruct (H1 k1 Hk1) as (r2 & k2 & v2 & E2 & Hk2 & H2).
  exists r2, k2, v2. unfold bindM. by rewrite E1.
Qed.

Lemma kwp_mono {A} (c : KM A) (Q Q' : A -> view W -> Prop) v : (forall r v', Q r v' -> Q' r v') -> kwp c Q v -> kwp c Q' v.
Proof. intros HQ H k Hk. destruct (H k Hk) as (r & k1 & v1 & E1 & Hk1 & H1). exists r, k1, v1. auto. Qed.

Lemma kwp_read {A B} (g : kern W -> B) (f : B -> KM A) b (Q : A -> view W -> Prop) v :
  (forall k, seen k v -> g k = b) -> kwp (f b) Q v -> kwp (fun k => f (g k) k) Q v.
Proof. intros Hg H k Hk. rewrite (Hg k Hk). by apply H. Qed.

(** ** Threads *)

Lemma pairs_lookup a t i : a_info a !! t = Some i -> pairs a !! t = Some (i_status i, i_others i).
Proof. intros Hi. unfold pairs. by rewrite lookup_fmap, Hi. Qed.

Lemma pairs_inv a t st x : pairs a !! t = Some (st, x) -> exists i, a_info a !! t = Some i /\ i_status i = st /\ i_others i = x.
Proof. unfold pairs. rewrite lookup_fmap. intros (i & Hi & E)%fmap_Some. exists i. by simplify_eq. Qed.

Lemma pairs_status a t st x : pairs a !! t = Some (st, x) -> status_of a t = Some st.
Proof. intros (i & Hi & <- & _)%pairs_inv. by apply info_status. Qed.

Lemma seen_mach k v m a :
  seen k v -> settled_as m a -> seen (with_mach m k) (vset_sched (pairs a) (a_cur a) v).
Proof.
  intros [H1 H2 H3 H4 (F & own & fl & H5)] Hm. split; try done; [by exists a|].
  exists F, own, fl. by destruct H5.
Qed.

Lemma vset_sched_same v T : vset_sched T (v_curs v) v = vset_threads T v.
Proof. done. Qed.

Lemma vset_sched_id v : vset_sched (v_threads v) (v_curs v) v = v.
Proof. by destruct v. Qed.

Lemma kwp_sched {A} (op : M (sched ipc_part) A) (Q : A -> view W -> Prop) v :
  (forall a, pairs a = v_threads v -> a_cur a = v_curs v -> ok a -> NoDup (a_sleep a) ->
     exists r a', sim op a r a' /\ ok a' /\ a_cur a' = a_cur a /\ Q r (vset_threads (pairs a') v)) ->
  kwp (on_mach (on_sched op)) Q v.
Proof.
  intros H k Hk. destruct (sn_mach _ _ Hk) as (a & (Hm & Ha & HR) & ET & EC).
  destruct (H a ET EC Ha (rep_nodup_sleep _ _ Hm)) as (r & a' & Hs & Ha' & Ec & HQ).
  destruct (msim_sched op a (resumes (k_mach k)) r a' Hs (k_mach k) Hm eq_refl) as (m' & E & Hm' & HR').
  unfold on_mach. rewrite E. exists r, (with_mach m' k), (vset_threads (pairs a') v). split_and!; [done| |done].
  rewrite <- (vset_sched_same v), <- EC, <- Ec. apply seen_mach; [done|]. split_and!; [done|done|]. by rewrite HR', HR.
Qed.

Lemma kwp_thread t st x (Q : tcb ipc_part -> view W -> Prop) v :
  v_threads v !! t = Some (st, x) -> (forall c, Status c = st -> others c = x -> Q c v) -> kwp (thread t) Q v.
Proof.
  intros Ht HQ k Hk. destruct (sn_mach _ _ Hk) as (a & (Hm & Ha & HR) & ET & EC).
  rewrite <- ET in Ht. apply pairs_inv in Ht as (i & Hi & Hst & Hx). destruct (rep_tcb _ _ _ _ Hm Hi) as (c & Hc & _ & Ec).
  exists c, k, v. unfold thread, on_mach, on_sched. rewrite Hc. destruct k as [m]. destruct m. cbn. split_and!; [done|done|].
  apply HQ; subst i; done.
Qed.

Lemma kwp_part t st x (Q : ipc_part -> view W -> Prop) v :
  v_threads v !! t = Some (st, x) -> Q x v -> kwp (part t) Q v.
Proof. intros Ht HQ. apply kwp_bind, (kwp_thread t st x); [done|]. intros c _ <-. by apply kwp_ret. Qed.

Definition put_part t (f : ipc_part -> ipc_part) v : view W :=
  vset_threads (alter (fun p => (p.1, f p.2)) t (v_threads v)) v.

Definition i_set_others (f : ipc_part -> ipc_part) (i : info ipc_part) : info ipc_part :=
  Info (i_status i) (i_priority i) (i_boosted i) (i_deadline i) (i_stack i) (f (i_others i)).

Lemma pairs_alter t f a : pairs (set_info t (i_set_others f) a) = alter (fun p => (p.1, f p.2)) t (pairs a).
Proof.
  unfold pairs, set_info. cbn. apply map_eq. intros u. rewrite lookup_fmap. destruct (decide (u = t)) as [->|].
  - rewrite !lookup_alter_eq, lookup_fmap. by destruct (a_info a !! t).
  - by rewrite !lookup_alter_ne, lookup_fmap.
Qed.

Lemma ok_set_others t f a : ok a -> ok (set_info t (i_set_others f) a).
Proof.
  intros Ha. set (a' := set_info t (i_set_others f) a).
  assert (forall u, status_of a' u = status_of a u) as Hs.
  { intros u. unfold a'. rewrite status_set_info. case_decide; [|done]. unfold status_of. subst. by destruct (a_info a !! t). }
  assert (forall u i, a_info a' !! u = Some i -> exists j, a_info a !! u = Some j /\ i_status i = i_status j /\ i_stack i = i_stack j /\
    i_boosted i = i_boosted j) as Hi.
  { intros u i. unfold a'. rewrite info_set_info. case_decide; [|by exists i]. intros (j & Hj & ->)%fmap_Some. by exists j. }
  assert (forall u, deadline_of a' u = deadline_of a u) as Hd.
  { intros u. unfold deadline_of, a'. rewrite info_set_info. case_decide; [|done]. by destruct (a_info a !! u). }
  destruct Ha. split; try done.
  - unfold a'. rewrite info_set_info. case_decide; [|done]. subst. by rewrite ok_null.
  - intros u. by rewrite Hs.
  - intros u. by rewrite Hs.
  - intros u. by rewrite Hs.
  - eapply sorted_ext; [|exact ok_sorted]. intros u _. by rewrite Hd.
  - intros u i Hu Hst. destruct (Hi u i Hu) as (j & Hj & E1 & E2 & _). rewrite E2. apply (ok_stack u j Hj). congruence.
  - intros u i Hu Hst. destruct (Hi u i Hu) as (j & Hj & E1 & _ & E3). rewrite E3. apply (ok_fresh u j Hj). congruence.
Qed.

Lemma kwp_set_part t f (Q : unit -> view W -> Prop) v :
  is_Some (v_threads v !! t) -> Q tt (put_part t f v) -> kwp (set_part t f) Q v.
Proof.
  intros [[st x] Ht] HQ. apply kwp_sched. intros a ET EC Ha _. exists tt, (set_info t (i_set_others f) a).
  rewrite <- ET in Ht. destruct (pairs_inv _ _ _ _ Ht) as (i & Hi & _ & _). split_and!.
  - apply sim_upd; [by exists i|done|done|by right].
  - by apply ok_set_others.
  - done.
  - rewrite pairs_alter, ET. exact HQ.
Qed.

(** A blocked thread becomes ready. *)
Definition wake_to t v : view W :=
  match v_threads v !! t with
  | Some (st, x) => if blocked st then vset_threads (<[t := (Ready, x)]> (v_threads v)) v else v
  | None => v
  end.

Lemma pairs_wake t a st x : pairs a !! t = Some (st, x) ->
  pairs (a_wake t a) = if blocked st then <[t := (Ready, x)]> (pairs a) else pairs a.
Proof.
  intros Ht. pose proof (pairs_status _ _ _ _ Ht) as Hs. apply pairs_inv in Ht as (i & Hi & Est & Ex).
  apply map_eq. intros u. unfold pairs at 1. rewrite lookup_fmap, a_wake_info, Hs. destruct (blocked st) eqn:B.
  - destruct (decide (u = t)) as [->|]; [by rewrite Hi, lookup_insert_eq; cbn; rewrite Ex|].
    rewrite lookup_insert_ne by done. unfold pairs. by rewrite lookup_fmap.
  - unfold pairs. by rewrite lookup_fmap.
Qed.

Lemma kwp_wake h t st x (Q : sched_status -> view W -> Prop) v :
  v_threads v !! t = Some (st, x) -> (forall r, Q r (wake_to t v)) -> kwp (on_mach (on_sched (Wake h t))) Q v.
Proof.
  intros Ht HQ. apply kwp_sched. intros a ET EC Ha _. exists (wake_result a t), (a_wake t a).
  rewrite <- ET in Ht. pose proof (pairs_status _ _ _ _ Ht) as Hs. split_and!.
  - eapply Wake_sim; [|done|by apply ok_known_cur|].
    + intros ->. unfold status_of in Hs. by rewrite (ok_null _ Ha) in Hs.
    + intros Hb. rewrite (ok_ready _ Ha). intros E. assert (st = Ready) as -> by congruence. done.
  - by apply wake_ok.
  - apply a_wake_cur.
  - rewrite (pairs_wake t a st x Ht). specialize (HQ (wake_result a t)). unfold wake_to in HQ. rewrite <- ET, Ht in HQ.
    destruct (blocked st); [by rewrite ET in *|]. rewrite ET. by destruct v.
Qed.

(** What [seen] says of the running threads. *)
Lemma seen_running k v h : seen k v -> current (k_mach k) h = nth h (v_curs v) 0.
Proof. intros Hk. destruct (sn_mach _ _ Hk) as (a & (Hm & Ha & HR) & ET & EC). by rewrite (current_rep _ _ _ Hm), <- EC. Qed.

Lemma kwp_running h (Q : Z -> view W -> Prop) v : Q (nth h (v_curs v) 0) v -> kwp (running h) Q v.
Proof. intros HQ k Hk. exists (current (k_mach k) h), k, v. split_and!; [done|done|]. by rewrite (seen_running _ _ _ Hk). Qed.

Lemma kwp_runs {A} (c : KM A) (Q : A -> view W -> Prop) v :
  ((forall t, t <> 0 /\ t ∈ v_curs v <-> exists x, v_threads v !! t = Some (Running, x)) -> v_threads v !! 0 = None ->
   length (v_curs v) = Max_CPUs -> kwp c Q v) -> kwp c Q v.
Proof.
  intros H k Hk. destruct (sn_mach _ _ Hk) as (a & (Hm & Ha & HR) & ET & EC). apply H; [| | |done].
  - intros t. rewrite <- ET, <- EC, <- (ok_runs _ Ha). split.
    + intros Hs. destruct (status_known _ _ _ Hs) as [i Hi]. exists (i_others i). rewrite (pairs_lookup _ _ _ Hi). rewrite (info_status _ _ _ Hi) in Hs. congruence.
    + intros [x Hx]. by apply pairs_status in Hx.
  - rewrite <- ET. unfold pairs. by rewrite lookup_fmap, (ok_null _ Ha).
  - rewrite <- EC. apply (ok_harts _ Ha).
Qed.

(** ** Objects *)

Lemma kwp_pure {A} (c : KM A) (f : kern W -> kern W) r (Q : A -> view W -> Prop) v v' :
  (forall k, seen k v -> c k = Done r (f k) /\ seen (f k) v') -> Q r v' -> kwp c Q v.
Proof. intros H HQ k Hk. destruct (H k Hk) as [E Hk']. by exists r, (f k), v'. Qed.

Lemma seen_objs k v : seen k v ->
  k_eps k = v_eps v /\ k_ep_free k = v_ep_free v /\ k_sends k = v_sends v /\ k_send_free k = v_send_free v /\ k_bufs k = v_bufs v.
Proof. intros Hk. injection (sn_objs _ _ Hk). done. Qed.

Ltac seen_set Hk :=
  destruct Hk as [S1 S2 S3 S4 (F & own & fl & S5)];
  split; cbn; [done|congruence|done|done|exists F, own, fl; by destruct S5].

Lemma kwp_ep e o (Q : endpoint -> view W -> Prop) v : v_eps v !! e = Some o -> Q o v -> kwp (ep e) Q v.
Proof.
  intros He. apply (kwp_pure _ id). intros k Hk. destruct (seen_objs _ _ Hk) as (E & _).
  unfold ep. by rewrite E, He.
Qed.
Lemma kwp_upd_ep e o f (Q : unit -> view W -> Prop) v :
  v_eps v !! e = Some o -> Q tt (vset_eps (<[e := f o]> (v_eps v)) v) -> kwp (upd_ep e f) Q v.
Proof.
  intros He. apply (kwp_pure _ (with_eps (<[e := f o]> (v_eps v)))). intros k Hk. destruct (seen_objs _ _ Hk) as (E & _).
  unfold upd_ep. rewrite E, He. split; [done|]. seen_set Hk.
Qed.
Lemma kwp_slot a q (Q : queued_send -> view W -> Prop) v : v_sends v !! a = Some q -> Q q v -> kwp (slot a) Q v.
Proof.
  intros Ha. apply (kwp_pure _ id). intros k Hk. destruct (seen_objs _ _ Hk) as (_ & _ & E & _).
  unfold slot. by rewrite E, Ha.
Qed.
Lemma kwp_upd_slot a q f (Q : unit -> view W -> Prop) v :
  v_sends v !! a = Some q -> Q tt (vset_sends (<[a := f q]> (v_sends v)) v) -> kwp (upd_slot a f) Q v.
Proof.
  intros Ha. apply (kwp_pure _ (with_sends (<[a := f q]> (v_sends v)))). intros k Hk. destruct (seen_objs _ _ Hk) as (_ & _ & E & _).
  unfold upd_slot. rewrite E, Ha. split; [done|]. seen_set Hk.
Qed.
Lemma kwp_buf pa m (Q : message -> view W -> Prop) v : v_bufs v !! pa = Some m -> Q m v -> kwp (buf pa) Q v.
Proof.
  intros Ha. apply (kwp_pure _ id). intros k Hk. destruct (seen_objs _ _ Hk) as (_ & _ & _ & _ & E).
  unfold buf. by rewrite E, Ha.
Qed.
Lemma kwp_put_buf pa m (Q : unit -> view W -> Prop) v :
  Q tt (vset_bufs (<[pa := m]> (v_bufs v)) v) -> kwp (put_buf pa m) Q v.
Proof.
  apply (kwp_pure _ (with_bufs (<[pa := m]> (v_bufs v)))). intros k Hk. destruct (seen_objs _ _ Hk) as (_ & _ & _ & _ & E).
  unfold put_buf, modifyM. rewrite E. split; [done|]. seen_set Hk.
Qed.

(** Writes of whole fields. *)
Lemma kwp_modify (f : kern W -> kern W) (g : view W -> view W) (Q : unit -> view W -> Prop) v :
  (forall k, seen k v -> seen (f k) (g v)) -> Q tt (g v) -> kwp (modifyM f) Q v.
Proof. intros H. apply (kwp_pure _ f). auto. Qed.

Lemma seen_with_eps k v m : seen k v -> seen (with_eps m k) (vset_eps m v).
Proof. intros Hk. seen_set Hk. Qed.
Lemma seen_with_ep_free k v f : seen k v -> seen (with_ep_free f k) (vset_ep_free f v).
Proof. intros Hk. seen_set Hk. Qed.
Lemma seen_with_sends k v m : seen k v -> seen (with_sends m k) (vset_sends m v).
Proof. intros Hk. seen_set Hk. Qed.
Lemma seen_with_send_free k v f : seen k v -> seen (with_send_free f k) (vset_send_free f v).
Proof. intros Hk. seen_set Hk. Qed.

Lemma kwp_new_ep e o (Q : unit -> view W -> Prop) v :
  Q tt (vset_eps (<[e := o]> (v_eps v)) v) -> kwp (modifyM (fun k => with_eps (<[e := o]> (k_eps k)) k)) Q v.
Proof. apply (kwp_modify _ (fun v => vset_eps (<[e := o]> (v_eps v)) v)). intros k Hk. destruct (seen_objs _ _ Hk) as (-> & _). by apply seen_with_eps. Qed.
Lemma kwp_new_slot a q (Q : unit -> view W -> Prop) v :
  Q tt (vset_sends (<[a := q]> (v_sends v)) v) -> kwp (modifyM (fun k => with_sends (<[a := q]> (k_sends k)) k)) Q v.
Proof. apply (kwp_modify _ (fun v => vset_sends (<[a := q]> (v_sends v)) v)). intros k Hk. destruct (seen_objs _ _ Hk) as (_ & _ & -> & _). by apply seen_with_sends. Qed.
Lemma kwp_set_ep_free f (Q : unit -> view W -> Prop) v : Q tt (vset_ep_free f v) -> kwp (modifyM (with_ep_free f)) Q v.
Proof. apply (kwp_modify _ (vset_ep_free f)). intros k Hk. by apply seen_with_ep_free. Qed.
Lemma kwp_set_send_free f (Q : unit -> view W -> Prop) v : Q tt (vset_send_free f v) -> kwp (modifyM (with_send_free f)) Q v.
Proof. apply (kwp_modify _ (vset_send_free f)). intros k Hk. by apply seen_with_send_free. Qed.

(** Fuel that is read from the kernel. *)
Lemma seen_threads k v : seen k v -> size (threads (ksched (k_mach k))) = size (v_threads v).
Proof.
  intros Hk. destruct (sn_mach _ _ Hk) as (a & (Hm & _) & <- & _). unfold pairs. rewrite map_size_fmap, <- (rep_info _ _ Hm).
  by rewrite map_size_fmap.
Qed.

Lemma kwp_fuel {A} (f : nat -> KM A) (Q : A -> view W -> Prop) v :
  kwp (f (S (size (v_threads v)))) Q v -> kwp (fun k => f (S (size (threads (ksched (k_mach k))))) k) Q v.
Proof. apply (kwp_read (fun k => S (size (threads (ksched (k_mach k)))))). intros k Hk. by rewrite (seen_threads _ _ Hk). Qed.

(** ** Memory *)

Lemma mem_ok_step procs procs' p p' v v' F own fl F' own' fl' :
  mem_ok procs p v F own fl ->
  pmm_ok p' own' fl' -> Limit p' = Limit p ->
  v_slabs v' ⊆ own' -> other_frames (v_w v') ⊆ own' -> v_slabs v' ## other_frames (v_w v') ->
  (forall q pr, procs' !! q = Some pr -> F' q ⊆ own' /\ F' q ## v_slabs v' /\ F' q ## other_frames (v_w v') /\
     exists A, table_ok (-1) (p_caps pr) p' A (F' q) /\ forall j, A !! j = v_caps v' !! (q, j)) ->
  (forall q q', q <> q' -> is_Some (procs' !! q) -> is_Some (procs' !! q') -> F' q ## F' q') ->
  p_id <$> procs' = v_pids v' ->
  (forall q j c, v_caps v' !! (q, j) = Some c -> is_Some (procs' !! q)) ->
  mem_ok procs' p' v' F' own' fl'.
Proof. intros [] **. split; try done. congruence. Qed.

(** A table of a process, with everything else that is owned as [R]. *)
Lemma mem_world procs p v F own fl q pr :
  mem_ok procs p v F own fl -> procs !! q = Some pr ->
  exists A, world_ok (own ∖ F q) A (p_caps pr, p) /\ forall j, A !! j = v_caps v !! (q, j).
Proof.
  intros Hm Hq. destruct (mo_table _ _ _ _ _ _ Hm q pr Hq) as (Hin & _ & _ & A & HA & Hc). exists A. split; [|done].
  exists (F q), fl. cbn. split_and!; [done| |set_solver].
  replace (F q ∪ own ∖ F q) with own; [apply (mo_pmm _ _ _ _ _ _ Hm)|]. apply set_eq. intros f. destruct (decide (f ∈ F q)); set_solver.
Qed.

Lemma kwp_table {A} q (op : CM A) (Q : A -> view W -> Prop) v :
  is_Some (v_pids v !! q) ->
  (forall R B w, world_ok R B w -> (forall j, B !! j = v_caps v !! (q, j)) ->
     exists r B' w' m, op w = Done r w' /\ undisturbed R w.2 w'.2 /\ world_ok R B' w' /\
       (forall j, B' !! j = m !! (q, j)) /\ (forall q' j, q' <> q -> m !! (q', j) = v_caps v !! (q', j)) /\ Q r (vset_caps m v)) ->
  kwp (on_table q op) Q v.
Proof.
  intros Hq H k Hk. destruct Hk as [S1 S2 S3 S4 (F & own & fl & S5)].
  rewrite <- (mo_pids _ _ _ _ _ _ S5), lookup_fmap in Hq. apply fmap_is_Some in Hq as [pr Hpr].
  destruct (mem_world _ _ _ _ _ _ q pr S5 Hpr) as (B & HB & HBc).
  destruct (H _ B _ HB HBc) as (r & B' & [t' p'] & m & E & U & (fs & fl' & Ht & Hp & Hd) & HB' & Hm & HQ). cbn [fst snd] in *.
  unfold on_table. rewrite Hpr, E. cbn [fst snd]. eexists r, _, (vset_caps m v). split_and!; [done| |done].
  destruct (mo_table _ _ _ _ _ _ S5 q pr Hpr) as (Hin & Hsl & Hot & _).
  split; cbn; try done. exists (fun q' => if decide (q' = q) then fs else F q'), (fs ∪ own ∖ F q), fl'.
  assert (Hproc : forall q', is_Some (<[q := Proc (p_id pr) t']> (k_procs k) !! q') <-> is_Some (k_procs k !! q')).
  { intros q'. destruct (decide (q' = q)) as [->|]; [rewrite lookup_insert_eq|by rewrite lookup_insert_ne]. split; intros _; by eexists. }
  destruct (mo_others _ _ _ _ _ _ S5) as [O1 O2]. pose proof (mo_slabs _ _ _ _ _ _ S5) as O3.
  eapply mem_ok_step; cbn; [exact S5|done|apply (un_limit _ _ _ U)|set_solver|set_solver|done| | | |].
  - intros q' pr' Hq'. destruct (decide (q' = q)) as [->|Hne].
    + rewrite lookup_insert_eq in Hq'. injection Hq' as <-. split_and!; [set_solver|set_solver|set_solver|]. by exists B'.
    + rewrite lookup_insert_ne in Hq' by done. destruct (mo_table _ _ _ _ _ _ S5 q' pr' Hq') as (T1 & T2 & T3 & A' & T4 & T5).
      pose proof (mo_apart _ _ _ _ _ _ S5 q' q Hne ltac:(by exists pr') ltac:(by exists pr)) as Hap.
      split_and!; [set_solver|done|done|]. exists A'. split; [|intros j; by rewrite Hm].
      eapply table_frames; [|exact T4]. intros f Hf. apply (un_frames _ _ _ U). set_solver.
  - intros q1 q2 Hne Hp1 Hp2. apply Hproc in Hp1, Hp2. pose proof (mo_apart _ _ _ _ _ _ S5 q1 q2 Hne Hp1 Hp2) as Hap.
    assert (forall q', q' <> q -> is_Some (k_procs k !! q') -> F q' ⊆ own ∖ F q) as Hsub.
    { intros q' Hq' [pr' Hpr']. destruct (mo_table _ _ _ _ _ _ S5 q' pr' Hpr') as (T1 & _).
      pose proof (mo_apart _ _ _ _ _ _ S5 q' q Hq' ltac:(by exists pr') ltac:(by exists pr)). set_solver. }
    case_decide; case_decide; subst; [done| | |done]; [specialize (Hsub q2 ltac:(done) Hp2)|specialize (Hsub q1 ltac:(done) Hp1)]; set_solver.
  - rewrite <- (mo_pids _ _ _ _ _ _ S5). apply map_eq. intros q'. rewrite !lookup_fmap.
    destruct (decide (q' = q)) as [->|]; [by rewrite lookup_insert_eq, Hpr|by rewrite lookup_insert_ne].
  - intros q' j c Hc. apply Hproc. destruct (decide (q' = q)) as [->|Hne]; [by exists pr|].
    rewrite Hm in Hc by done. by apply (mo_caps _ _ _ _ _ _ S5 q' j c).
Qed.

Lemma vset_caps_id v : vset_caps (v_caps v) v = v.
Proof. by destruct v. Qed.

Definition cap_answer v (q j : Z) : cap_status * Cap_Entry :=
  match v_caps v !! (q, j) with Some c => (Cap_Ok, c) | None => (Invalid_Cap, Null_Cap) end.

Lemma kwp_lookup q j (Q : cap_status * Cap_Entry -> view W -> Prop) v :
  is_Some (v_pids v !! q) -> 0 <= j < Max_Caps -> Q (cap_answer v q j) v -> kwp (on_table q (Lookup j)) Q v.
Proof.
  intros Hq Hj HQ. apply kwp_table; [done|]. intros R B w HB Hc. exists (cap_answer v q j), B, w, (v_caps v).
  rewrite (Lookup_spec R B w j HB Hj), vset_caps_id. split_and!; try done. unfold lookup_answer, cap_answer. by rewrite Hc.
Qed.

Lemma kwp_insert q kd o r b (Q : cap_status * Z -> view W -> Prop) v :
  is_Some (v_pids v !! q) -> no_object kd o = false ->
  (forall j, 0 < j < Max_Caps -> v_caps v !! (q, j) = None ->
     Q (Cap_Ok, j) (vset_caps (<[(q, j) := CapEntry true kd o r b]> (v_caps v)) v)) ->
  Q (Table_Full, 0) v -> kwp (on_table q (Insert kd o r b)) Q v.
Proof.
  intros Hq Ho H1 H2. apply kwp_table; [done|]. intros R B w HB Hc.
  destruct (Insert_spec R B w kd o r b HB) as (res & B' & w' & E & U & HB' & Ha). exists res, B', w'.
  unfold insert_answer in Ha. rewrite Ho in Ha. destruct Ha as [(E1 & E2 & E3 & _ & E4)|(E1 & E2 & _)].
  - destruct res as [st j]. cbn in *. subst. exists (<[(q, j) := CapEntry true kd o r b]> (v_caps v)). split_and!; try done.
    + intros i. destruct (decide (i = j)) as [->|]; [by rewrite !lookup_insert_eq|]. rewrite !lookup_insert_ne by congruence. apply Hc.
    + intros q' i Hne. by rewrite lookup_insert_ne by congruence.
    + apply H1; [done|]. by rewrite <- Hc.
  - exists (v_caps v). subst. rewrite vset_caps_id. split_and!; try done.
Qed.

Lemma kwp_close q j (Q : cap_status -> view W -> Prop) v :
  is_Some (v_pids v !! q) -> 0 <= j < Max_Caps ->
  Q (cap_answer v q j).1 (vset_caps (delete (q, j) (v_caps v)) v) -> kwp (on_table q (Close_Slot j)) Q v.
Proof.
  intros Hq Hj HQ. apply kwp_table; [done|]. intros R B w HB Hc.
  destruct (Close_spec R B w j HB Hj) as (w' & E & U & HB'). unfold close_answer, cap_answer in *. rewrite <- Hc in *.
  exists (match B !! j with Some _ => (Cap_Ok, delete j B) | None => (Invalid_Cap, B) end).1,
    (match B !! j with Some _ => (Cap_Ok, delete j B) | None => (Invalid_Cap, B) end).2, w', (delete (q, j) (v_caps v)).
  split_and!; [done|done|done| | |by destruct (B !! j)].
  - intros i. destruct (decide (i = j)) as [->|]; [rewrite lookup_delete_eq; destruct (B !! j) eqn:Eb; cbn; [by rewrite lookup_delete_eq|done]|].
    rewrite lookup_delete_ne by congruence. rewrite <- Hc. destruct (B !! j); cbn; [by rewrite lookup_delete_ne|done].
  - intros q' i Hne. by rewrite lookup_delete_ne by congruence.
Qed.

(** A fresh frame for a slab. *)
Lemma kwp_alloc (Q : pm_status * Z -> view W -> Prop) v :
  (forall f, f ∉ v_slabs v -> 0 < f -> f + Frame_Size <= 2 ^ 38 -> f mod Frame_Size = 0 -> Q (PM_Ok, f) (vset_slabs ({[f]} ∪ v_slabs v) v)) ->
  (forall f, Q (Out_Of_Memory, f) v) -> kwp (on_frames Allocate_Frame) Q v.
Proof.
  intros H1 H2 k Hk. destruct Hk as [S1 S2 S3 S4 (F & own & fl & S5)].
  destruct (alloc_spec _ _ _ (mo_pmm _ _ _ _ _ _ S5)) as (r & p' & E & U & Hr). unfold on_frames. rewrite E.
  assert (Htab : forall q pr, k_procs k !! q = Some pr -> F q ⊆ own /\ exists A, table_ok (-1) (p_caps pr) p' A (F q) /\ forall j, A !! j = v_caps v !! (q, j)).
  { intros q pr Hq. destruct (mo_table _ _ _ _ _ _ S5 q pr Hq) as (T1 & _ & _ & A & T4 & T5). split; [done|]. exists A. split; [|done].
    eapply table_frames; [|exact T4]. intros f Hf. apply (un_frames _ _ _ U). set_solver. }
  destruct (mo_others _ _ _ _ _ _ S5) as [O1 O2]. pose proof (mo_slabs _ _ _ _ _ _ S5) as O3.
  destruct r as [st f]. cbn [fst snd] in *. destruct st; try (destruct Hr as (Hst & _); discriminate).
  - destruct Hr as (Hf & fl' & Hp). eexists _, _, (vset_slabs ({[f]} ∪ v_slabs v) v). split_and!; [done| |].
    + split; cbn; try done. exists F, ({[f]} ∪ own), fl'.
      eapply mem_ok_step; cbn; [exact S5|done|apply (un_limit _ _ _ U)|set_solver|set_solver|set_solver| |apply (mo_apart _ _ _ _ _ _ S5)|
        apply (mo_pids _ _ _ _ _ _ S5)|apply (mo_caps _ _ _ _ _ _ S5)].
      intros q pr Hq. destruct (Htab q pr Hq) as (T1 & HA). destruct (mo_table _ _ _ _ _ _ S5 q pr Hq) as (_ & T2 & T3 & _).
      split_and!; [set_solver|set_solver|done|done].
    + destruct (po_owned _ _ _ Hp f) as (M1 & M2 & M3 & _); [set_solver|]. pose proof (po_base _ _ _ Hp). pose proof (mo_limit _ _ _ _ _ _ S5).
      rewrite (un_limit _ _ _ U) in M3. apply H1; [set_solver|lia|lia|done].
  - destruct Hr as (_ & _ & Hp & _). eexists _, _, v. split_and!; [done| |apply H2].
    destruct (mo_pmm _ _ _ _ _ _ S5). split; cbn; try done. exists F, own, [].
    eapply mem_ok_step; cbn; [exact S5|done|apply (un_limit _ _ _ U)|done|done|done| |apply (mo_apart _ _ _ _ _ _ S5)|
      apply (mo_pids _ _ _ _ _ _ S5)|apply (mo_caps _ _ _ _ _ _ S5)].
    intros q pr Hq. destruct (Htab q pr Hq) as (T1 & HA). destruct (mo_table _ _ _ _ _ _ S5 q pr Hq) as (_ & T2 & T3 & _). done.
Qed.

(** Objects of the other kinds. *)
Lemma kwp_others (op : M (W * pmm frame_data) unit) (Q : unit -> view W -> Prop) v :
  (forall w p R fl, pmm_ok p (other_frames w ∪ R) fl -> other_frames w ## R ->
    exists w' p' fl', op (w, p) = Done tt (w', p') /\ undisturbed R p p' /\
      pmm_ok p' (other_frames w' ∪ R) fl' /\ other_frames w' ## R) ->
  (forall w, Q tt (vset_w w v)) -> kwp (on_rest op) Q v.
Proof.
  intros Hop HQ k Hk. destruct Hk as [S1 S2 S3 S4 (F & own & fl & S5)]. destruct (mo_others _ _ _ _ _ _ S5) as [O1 O2].
  pose proof (mo_slabs _ _ _ _ _ _ S5) as O3. set (R := own ∖ other_frames (v_w v)).
  destruct (Hop (v_w v) (k_pmm k) R fl) as (w' & p' & fl' & E & U & Hp & Hd).
  { replace (other_frames (v_w v) ∪ R) with own; [apply (mo_pmm _ _ _ _ _ _ S5)|]. apply set_eq. intros f. unfold R. destruct (decide (f ∈ other_frames (v_w v))); set_solver. }
  { unfold R. set_solver. }
  unfold on_rest. rewrite S4, E. eexists _, _, (vset_w w' v). split_and!; [done| |apply HQ]. split; cbn; try done.
  exists F, (other_frames w' ∪ R), fl'.
  assert (forall q pr, k_procs k !! q = Some pr -> F q ⊆ R) as HFR.
  { intros q pr Hq. destruct (mo_table _ _ _ _ _ _ S5 q pr Hq) as (T1 & _ & T3 & _). unfold R. set_solver. }
  eapply mem_ok_step; cbn; [exact S5|done|apply (un_limit _ _ _ U)|unfold R; set_solver|set_solver|unfold R in Hd; set_solver| |apply (mo_apart _ _ _ _ _ _ S5)|
      apply (mo_pids _ _ _ _ _ _ S5)|apply (mo_caps _ _ _ _ _ _ S5)].
  intros q pr Hq. pose proof (HFR q pr Hq) as HF. destruct (mo_table _ _ _ _ _ _ S5 q pr Hq) as (T1 & T2 & T3 & A & T4 & T5).
  split_and!; [set_solver|done|set_solver|]. exists A. split; [|done]. eapply table_frames; [|exact T4].
  intros f Hf. apply (un_frames _ _ _ U). set_solver.
Qed.

(** ** Scheduling *)

Definition active (st : Thread_State) : bool := match st with Ready | Running => true | _ => false end.

(** Threads go on and off the harts; nothing else happens to them. *)
Definition resched T T' : Prop := forall t,
  match T !! t, T' !! t with
  | Some (st, x), Some (st', x') => x' = x /\ (st' = st \/ active st = true /\ active st' = true)
  | None, None => True
  | _, _ => False
  end.

#[export] Instance resched_preorder : PreOrder resched.
Proof.
  split.
  - intros T t. destruct (T !! t) as [[st x]|]; [|done]. split; [done|by left].
  - intros T1 T2 T3 H12 H23 t. specialize (H12 t). specialize (H23 t). destruct (T1 !! t) as [[s1 x1]|], (T2 !! t) as [[s2 x2]|], (T3 !! t) as [[s3 x3]|]; try done.
    destruct H12 as [-> H12], H23 as [-> H23]. split; [done|]. destruct H12 as [->|[? ?]], H23 as [->|[? ?]]; auto.
Qed.

Lemma resched_alter T t (f : Thread_State * ipc_part -> Thread_State * ipc_part) :
  (forall p, T !! t = Some p -> (f p).2 = p.2 /\ ((f p).1 = p.1 \/ active p.1 = true /\ active (f p).1 = true)) -> resched T (alter f t T).
Proof.
  intros Hf u. destruct (decide (u = t)) as [->|]; [|rewrite lookup_alter_ne by done; destruct (T !! u) as [[? ?]|]; [split; [done|by left]|done]].
  rewrite lookup_alter_eq. destruct (T !! t) as [[st x]|] eqn:E; [|done]. cbn. specialize (Hf _ eq_refl). destruct (f (st, x)). cbn in *. tauto.
Qed.

Lemma pairs_set_info t (g : info ipc_part -> info ipc_part) f a :
  (forall i, (i_status (g i), i_others (g i)) = f (i_status i, i_others i)) -> pairs (set_info t g a) = alter f t (pairs a).
Proof.
  intros Hg. unfold pairs, set_info. cbn. apply map_eq. intros u. rewrite lookup_fmap. destruct (decide (u = t)) as [->|].
  - rewrite !lookup_alter_eq, lookup_fmap. destruct (a_info a !! t); cbn; [by rewrite Hg|done].
  - by rewrite !lookup_alter_ne, lookup_fmap.
Qed.

Lemma yield_resched h a : loose h [] [] not_ready a -> (h < Max_CPUs)%nat -> resched (pairs a) (pairs (a_yield h a)).
Proof.
  intros HL Hh. pose proof (requeue_vacant h a HL) as HV. transitivity (pairs (requeue h a)).
  { unfold requeue. destruct (runs a h) eqn:Hr; [|done]. cbv zeta. apply runs_iff in Hr as [_ Hr].
    change (pairs (with_ready ?l ?b)) with (pairs b). rewrite (pairs_set_info _ _ (fun p => (Ready, p.2))) by done.
    apply resched_alter. intros [st x] Hp. split; [done|]. right. apply pairs_status in Hp. by simplify_eq/=. }
  set (b := requeue h a) in *. unfold a_yield. fold b. cbv zeta. destruct (Z.eqb_spec (a_pop b).1 0) as [E|E].
  { change (pairs (set_cur h 0 ?c)) with (pairs c). unfold a_pop in *. cbv zeta in *. cbn [fst snd] in *. by rewrite (proj2 (Z.eqb_eq _ _) E). }
  destruct (dispatch_some h b _ HV Hh eq_refl E) as [Hb _]. set (u := (a_pop b).1) in *.
  rewrite (pairs_set_info _ _ (fun p => (Running, p.2))) by done. change (pairs (set_cur h u ?c)) with (pairs c).
  assert (pairs (a_pop b).2 = pairs b) as ->.
  { revert E. subst u. unfold a_pop. cbv zeta. cbn [fst snd]. intros E. rewrite (proj2 (Z.eqb_neq _ _) E).
    rewrite (pairs_set_info _ _ id) by done. change (pairs (with_ready ?l ?c)) with (pairs c).
    apply map_eq. intros w. destruct (decide (w = choose b 0 (alive b (a_ready b)))) as [->|]; [rewrite lookup_alter_eq; by destruct (pairs b !! _)|by rewrite lookup_alter_ne]. }
  apply resched_alter. intros [st x] Hp. split; [done|]. right. apply pairs_status in Hp. by simplify_eq/=.
Qed.

Lemma kwp_schedule h (Q : unit -> view W -> Prop) v :
  (h < Max_CPUs)%nat -> (forall T l, resched (v_threads v) T -> Q tt (vset_sched T l v)) -> kwp (on_mach (Schedule_Saved_Context h)) Q v.
Proof.
  intros Hh HQ k Hk. destruct (sn_mach _ _ Hk) as (a & Hs & ET & EC). destruct (schedule_as h _ a Hs Hh) as (m' & E & Hs').
  unfold on_mach. rewrite E. eexists tt, _, _. split_and!; [done|by apply seen_mach|]. apply HQ. rewrite <- ET.
  apply yield_resched; [by apply my_loose', (proj1 (proj2 Hs))|done].
Qed.

(** The running thread [t] of hart [h] blocks. *)
Lemma kwp_blocking h t x st (Q : unit -> view W -> Prop) v :
  (h < Max_CPUs)%nat -> nth h (v_curs v) 0 = t -> t <> 0 -> v_threads v !! t = Some (Running, x) -> may_block st = true ->
  (forall T l, resched (<[t := (st, x)]> (v_threads v)) T -> Q tt (vset_sched T l v)) -> kwp (on_mach (blocking_call h [] st)) Q v.
Proof.
  intros Hh Hc H0 Ht Hst HQ k Hk. destruct (sn_mach _ _ Hk) as (a & (Hm & Ha & HR) & ET & EC).
  rewrite <- EC in Hc. change (cur a h = t) in Hc. subst t. destruct (my_thread h a Ha H0) as [Hcur Hr]. pose proof (status_known _ _ _ Hr) as Hi.
  assert (cur a h ∉ a_ready a) as Hq by (rewrite (ok_ready _ Ha); congruence).
  set (a1 := set_info (cur a h) (i_set_boosted false) (set_info (cur a h) (i_set_status st) a)).
  assert (loose h [] [] not_ready a1) as HL by (apply (block_loose h [] [] a st); [by apply ok_loose|done|done|by destruct st|by destruct st]).
  assert (msim (on_sched (upd_tcb (cur a h) (set_status st)) ;; on_sched (upd_tcb (cur a h) (set_boosted false)) ;; Schedule_Saved_Context h)
            a (resumes (k_mach k)) tt (a_yield h a1) (<[h := cur (a_yield h a1) h]> (resumes (k_mach k)))) as Hsim.
  { eapply msim_bind; [by apply msim_sched, upd_status_sim|]. eapply msim_bind; [apply msim_sched, upd_boosted_sim; by rewrite is_Some_set_info|].
    by apply Schedule_sim. }
  destruct (Hsim (k_mach k) Hm eq_refl) as (m' & E & Hm' & HR').
  assert (blocking_call h [] st (k_mach k) = Done tt m') as E'.
  { unfold blocking_call, with_caller. rewrite (current_rep _ _ _ Hm), (proj2 (Z.eqb_neq _ 0)) by done. exact E. }
  unfold on_mach. rewrite E'. eexists tt, _, _. split_and!; [done| |].
  - apply seen_mach; [done|]. split_and!; [done|by apply yield_ok|]. rewrite HR', HR. pose proof (ok_harts _ Ha) as Hl. apply agree_insert; [by rewrite Hl|done|done|done].
  - apply HQ. assert (pairs a1 = <[cur a h := (st, x)]> (v_threads v)) as <-; [|by apply yield_resched].
    unfold a1. rewrite (pairs_set_info _ _ id) by done. rewrite (pairs_set_info _ _ (fun p => (st, p.2))) by done. rewrite ET.
    apply map_eq. intros u. destruct (decide (u = cur a h)) as [->|].
    + by rewrite !lookup_alter_eq, Ht, lookup_insert_eq.
    + by rewrite !lookup_alter_ne, lookup_insert_ne.
Qed.

Lemma kwp_should_preempt h (Q : bool -> view W -> Prop) v : (forall b, Q b v) -> kwp (on_mach (on_sched (Should_Preempt h))) Q v.
Proof.
  intros HQ. apply kwp_sched. intros a ET EC Ha _. exists (a_should_preempt h a), a.
  split_and!; [by apply Should_Preempt_sim, ok_hart_ok|done|done|]. rewrite ET. specialize (HQ (a_should_preempt h a)). by destruct v.
Qed.

End logic.
