(* ===== verification/KIpcClaims.v ===== *)
(** * Message passing: what holds and what does not

    The queue that [kernel-ipc.adb] threads through the control blocks of the
    callers, with a head and a tail in the endpoint, a tag in each caller and
    a repair of a tail that looks wrong, is a list: [Enqueue_Caller] appends,
    [Dequeue_Caller] takes the first caller that is not dead and drops the
    dead ones before it, [Cleanup_Thread_Cap] takes a caller out of the middle
    and forgets a receiver, and [Fail_Endpoint] wakes every caller, in their
    order, and then the receiver, each with [Result_Endpoint_Gone].

    That is the theorem [caller_queues], over any series of operations on any
    kernel.  Three histories of system calls on a kernel with three harts
    follow it: a signal that wakes a thread out of a wait it is not in lets it
    queue twice, and a caller behind it is lost; a thread bound to a
    notification that is gone takes the signals of the one that has its slot;
    and a thread that blocked in [IPC_Recv] and is woken by a signal finds its
    own argument as the handle of the reply. *)
From S2P Require Import Prelude CInt KPmm KPmmSpec KCap KCapSpec KSched KSchedSpec KSchedOps KTrap KTrapSpec KTrapOps KTrapInv KTrapClaims KIpc KIpcLog.

(** ** Paths along a link *)

Section paths.
Implicit Types (nx : Z -> option Z) (p q a : Z) (l : list Z).

Fixpoint path nx p l q : Prop :=
  match l with
  | [] => p = q
  | a :: l' => p = a /\ a <> 0 /\ exists n, nx a = Some n /\ path nx n l' q
  end.

Lemma path_app nx l1 : forall p l2 q, path nx p (l1 ++ l2) q <-> exists n, path nx p l1 n /\ path nx n l2 q.
Proof.
  induction l1 as [|a l1 IH]; intros p l2 q; cbn.
  - split; [intros H; by exists p|by intros (n & -> & H)].
  - split.
    + intros (-> & H0 & n & Hn & H). apply IH in H as (n' & H1 & H2). exists n'. split; [|done]. split_and!; [done|done|by exists n].
    + intros (n' & (-> & H0 & n & Hn & H1) & H2). split_and!; [done|done|]. exists n. split; [done|]. apply IH. by exists n'.
Qed.

Lemma path_ext nx nx' l : forall p q, (forall a, a ∈ l -> nx' a = nx a) -> path nx p l q -> path nx' p l q.
Proof.
  induction l as [|a l IH]; intros p q H; cbn; [done|]. intros (-> & H0 & n & Hn & Hc). split_and!; [done|done|].
  exists n. rewrite H by set_solver. split; [done|]. apply IH; [set_solver|done].
Qed.

Lemma path_hd nx p l : path nx p l 0 -> p = hd 0 l.
Proof. destruct l; cbn; tauto. Qed.

Lemma path_in nx l : forall p q a, path nx p l q -> a ∈ l -> a <> 0 /\ is_Some (nx a).
Proof.
  induction l as [|b l IH]; intros p q a; [set_solver|]. cbn. intros (-> & H0 & n & Hn & Hc) [->|Ha]%elem_of_cons; [by split; [|exists n]|by eapply IH].
Qed.

(** The last element of a path is linked somewhere else. *)
Lemma path_relink nx nx' p l a q q' :
  path nx p (l ++ [a]) q -> (forall b, b ∈ l -> nx' b = nx b) -> nx' a = Some q' -> path nx' p (l ++ [a]) q'.
Proof.
  rewrite !path_app. intros (n & H1 & H2) Hl Ha. exists n. split; [by eapply path_ext|]. cbn in *. destruct H2 as (-> & H0 & _).
  split_and!; [done|done|by exists q'].
Qed.

Lemma path_last nx p l : path nx p l 0 -> l <> [] -> nx (List.last l 0) = Some 0.
Proof.
  destruct (decide (l = [])) as [->|Hne]; [done|]. destruct (exists_last Hne) as (l' & a & ->). rewrite last_last.
  rewrite path_app. intros (n & _ & -> & _ & m & Hm & E) _. cbn in E. by subst.
Qed.

End paths.

(** ** The abstract queues *)

Record aep := AEp { a_callers : list Z; a_receiver : Z; a_failed : bool }.

(** The endpoints, and the state and result register of every thread. *)
Record abs := Abs { b_eps : gmap Z aep; b_threads : gmap Z (Thread_State * Z) }.

Definition a_dead (T : gmap Z (Thread_State * Z)) (t : Z) : bool :=
  match T !! t with Some (st, _) => bool_decide (st = Dead) | None => false end.

(** The first that is not dead, 0 for none, and those behind it. *)
Fixpoint first_live (T : gmap Z (Thread_State * Z)) (l : list Z) : Z * list Z :=
  match l with [] => (0, []) | t :: l' => if a_dead T t then first_live T l' else (t, l') end.

Definition awake (r : Z) (T : gmap Z (Thread_State * Z)) (t : Z) : gmap Z (Thread_State * Z) :=
  match T !! t with Some (st, _) => if is_blocked st then <[t := (Ready, r)]> T else T | None => T end.

Inductive queue_op : Type := Enqueue (e t : Z) | Dequeue (e : Z) | Unlink (e t : Z) | Fail_EP (e : Z).

(** Its result and effect, on the endpoint [a] it is about. *)
Definition a_queue (o : queue_op) (a : aep) (T : gmap Z (Thread_State * Z)) : Z * (aep * gmap Z (Thread_State * Z)) :=
  match o with
  | Enqueue e t => (0, (AEp (a_callers a ++ [t]) (a_receiver a) (a_failed a), T))
  | Dequeue e => let r := first_live T (a_callers a) in (r.1, (AEp r.2 (a_receiver a) (a_failed a), T))
  | Unlink e t =>
      (0, (AEp (filter (fun u => u <> t) (a_callers a)) (if a_receiver a =? t then 0 else a_receiver a) (a_failed a), T))
  | Fail_EP e =>
      (0, if a_failed a then (a, T)
          else (AEp [] 0 true, awake Result_Endpoint_Gone (foldl (awake Result_Endpoint_Gone) T (a_callers a)) (a_receiver a)))
  end.

Definition op_ep (o : queue_op) : Z := match o with Enqueue e _ | Dequeue e | Unlink e _ | Fail_EP e => e end.

Definition a_step (o : queue_op) (A : abs) : Z * abs :=
  match b_eps A !! op_ep o with
  | None => (0, A)
  | Some a => let r := a_queue o a (b_threads A) in (r.1, Abs (<[op_ep o := r.2.1]> (b_eps A)) r.2.2)
  end.

(** A thread is queued once; the endpoint and the thread exist. *)
Definition enabled (o : queue_op) (A : abs) : bool :=
  bool_decide (is_Some (b_eps A !! op_ep o)) &&
  match o with
  | Enqueue e t => bool_decide (is_Some (b_threads A !! t)) && bool_decide (map_Forall (fun _ a => t ∉ a_callers a) (b_eps A))
  | Unlink e t => bool_decide (is_Some (b_threads A !! t))
  | _ => true
  end.

Fixpoint a_steps (l : list queue_op) (A : abs) : list Z * abs :=
  match l with
  | [] => ([], A)
  | o :: l' => let r := a_step o A in let s := a_steps l' r.2 in (r.1 :: s.1, s.2)
  end.
Fixpoint all_enabled (l : list queue_op) (A : abs) : bool :=
  match l with [] => true | o :: l' => enabled o A && all_enabled l' (a_step o A).2 end.

Section queues.
Context {W : Type} {OW : Others W} {LW : OthersLaws W}.
Implicit Types (h : nat) (t e u : Z) (v : view W) (l : list Z) (x : ipc_part) (a : aep) (A : abs) (SQ : gmap Z (list Z)).
Notation KM := (KM (W := W)).

Definition run_op h (o : queue_op) : KM Z :=
  match o with
  | Enqueue e t => Enqueue_Caller e t ;; retM 0
  | Dequeue e => Dequeue_Caller e
  | Unlink e t => Cleanup_Thread_Cap t e ;; retM 0
  | Fail_EP e => Fail_Endpoint h e ;; retM 0
  end.
Fixpoint run_ops h (l : list queue_op) : KM (list Z) :=
  match l with
  | [] => retM []
  | o :: l' => let* r := run_op h o in let* rs := run_ops h l' in retM (r :: rs)
  end.

Definition qnext v t : option Z := (fun p => Queue_Next p.2) <$> v_threads v !! t.
Definition qon v t : option Z := (fun p => Queued_On_EP p.2) <$> v_threads v !! t.
Definition snext v (s : Z) : option Z := q_next <$> v_sends v !! s.
Definition results v : gmap Z (Thread_State * Z) := (fun p => (p.1, Saved_A0 p.2)) <$> v_threads v.

(** The endpoint [e] of the view is [a], its copied messages the slots [ls].
    The tail of the endpoint [ex], which is being emptied, may be out of
    date. *)
Definition ep_shows (ex : Z) v e a (ls : list Z) : Prop :=
  exists o, v_eps v !! e = Some o /\ path (qnext v) (Queue_Head o) (a_callers a) 0 /\ NoDup (a_callers a) /\
    (e <> ex -> Queue_Tail o = List.last (a_callers a) 0) /\
    Waiting_Receiver o = a_receiver a /\ (a_receiver a = 0 \/ is_Some (v_threads v !! a_receiver a)) /\
    Failed o = a_failed a /\ path (snext v) (Send_Queue_Head o) ls 0 /\ NoDup ls.

Record shows (ex : Z) v A SQ : Prop := {
  so_ep : forall e a, b_eps A !! e = Some a -> exists ls, SQ !! e = Some ls /\ ep_shows ex v e a ls;
  so_on : forall t e, e <> 0 -> qon v t = Some e <-> exists a, b_eps A !! e = Some a /\ t ∈ a_callers a;
  so_apart : forall e e' l l' s, SQ !! e = Some l -> SQ !! e' = Some l' -> s ∈ l -> s ∈ l' -> e = e';
  so_null : b_eps A !! 0 = None;
  so_results : b_threads A = results v }.

(** An operation on the endpoint [e] leaves the others alone. *)
Lemma shows_step ex ex' v v' A SQ e a' ls ls' T :
  shows ex v A SQ -> is_Some (b_eps A !! e) -> SQ !! e = Some ls -> ls' ⊆ ls -> (ex = 0 \/ ex = e) ->
  (forall e', e' <> e -> v_eps v' !! e' = v_eps v !! e') ->
  (forall u e', e' <> e -> e' <> 0 -> qon v u = Some e' -> qnext v' u = qnext v u) ->
  (forall u e', e' <> e -> e' <> 0 -> qon v' u = Some e' <-> qon v u = Some e') ->
  (forall s, s ∉ ls -> snext v' s = snext v s) ->
  (forall u, is_Some (v_threads v !! u) -> is_Some (v_threads v' !! u)) ->
  ep_shows ex' v' e a' ls' -> (forall u, qon v' u = Some e <-> u ∈ a_callers a') -> results v' = T ->
  shows ex' v' (Abs (<[e := a']> (b_eps A)) T) (<[e := ls']> SQ).
Proof.
  intros [S1 S2 S3 S4 S5] He Hls Hsub Hex E1 E2 E3 E4 E5 E6 E7 E8. assert (e <> 0) as Hnz by (intros ->; rewrite S4 in He; by destruct He). split; cbn.
  - intros e' b. destruct (decide (e' = e)) as [->|Hne].
    + rewrite lookup_insert_eq. intros [= <-]. exists ls'. by rewrite lookup_insert_eq.
    + rewrite !lookup_insert_ne by done. intros Hb. assert (e' <> 0) as Hnz' by (intros ->; congruence). destruct (S1 e' b Hb) as (l & Hl & o & P1 & P2 & P3 & P4 & P5 & P6 & P7 & P8 & P9). exists l. split; [done|].
      exists o. rewrite E1 by done. split_and!; try done.
      * eapply path_ext; [|exact P2]. intros u Hu. apply (E2 u e'); [done|done|]. apply S2; [done|]. by exists b.
      * intros _. apply P4. destruct Hex; congruence.
      * destruct P6; [by left|right; by apply E5].
      * eapply path_ext; [|exact P8]. intros s Hs. apply E4. intros Hs'. by apply Hne, (S3 e' e l ls s).
  - intros t e' He'. destruct (decide (e' = e)) as [->|Hne].
    + rewrite E7, lookup_insert_eq. split; [intros H; by exists a'|by intros (b & [= <-] & H)].
    + rewrite E3 by done. by rewrite lookup_insert_ne, S2.
  - assert (forall e' l, <[e := ls']> SQ !! e' = Some l -> exists m, SQ !! e' = Some m /\ l ⊆ m) as Hin.
    { intros e' l. destruct (decide (e' = e)) as [->|Hne]; [rewrite lookup_insert_eq; intros [= <-]; by exists ls|].
      rewrite lookup_insert_ne by done. by exists l. }
    intros e1 e2 l1 l2 s H1 H2 M1 M2. destruct (Hin _ _ H1) as (m1 & H1' & C1), (Hin _ _ H2) as (m2 & H2' & C2).
    apply (S3 e1 e2 m1 m2 s); auto.
  - by rewrite lookup_insert_ne.
  - done.
Qed.

(** ** What a write does *)

Lemma put_lookup t f v u : v_threads (put_part t f v) !! u = if decide (u = t) then (fun p => (p.1, f p.2)) <$> v_threads v !! u else v_threads v !! u.
Proof. cbn. case_decide; [subst; by rewrite lookup_alter_eq|by rewrite lookup_alter_ne]. Qed.

Lemma put_known t f v u : is_Some (v_threads (put_part t f v) !! u) <-> is_Some (v_threads v !! u).
Proof. rewrite put_lookup. case_decide; [|done]. by rewrite fmap_is_Some. Qed.

Lemma put_results t f v : (forall x, Saved_A0 (f x) = Saved_A0 x) -> results (put_part t f v) = results v.
Proof.
  intros Hf. unfold results. apply map_eq. intros u. rewrite !lookup_fmap, put_lookup. case_decide; [|done].
  destruct (v_threads v !! u) as [[st x]|]; [|done]. cbn. by rewrite Hf.
Qed.

Lemma qnext_set t n v u : qnext (put_part t (set_queue_next n) v) u = if decide (u = t) then (fun _ => n) <$> qnext v u else qnext v u.
Proof. unfold qnext. rewrite put_lookup. case_decide; [|done]. by destruct (v_threads v !! u). Qed.
Lemma qnext_other t f v u : (forall x, Queue_Next (f x) = Queue_Next x) -> qnext (put_part t f v) u = qnext v u.
Proof. intros Hf. unfold qnext. rewrite put_lookup. case_decide; [|done]. destruct (v_threads v !! u); [|done]. cbn. by rewrite Hf. Qed.
Lemma qon_set t e v u : qon (put_part t (set_queued_on e) v) u = if decide (u = t) then (fun _ => e) <$> qon v u else qon v u.
Proof. unfold qon. rewrite put_lookup. case_decide; [|done]. by destruct (v_threads v !! u). Qed.
Lemma qon_other t f v u : (forall x, Queued_On_EP (f x) = Queued_On_EP x) -> qon (put_part t f v) u = qon v u.
Proof. intros Hf. unfold qon. rewrite put_lookup. case_decide; [|done]. destruct (v_threads v !! u); [|done]. cbn. by rewrite Hf. Qed.

Lemma known_qnext v u : is_Some (v_threads v !! u) <-> is_Some (qnext v u).
Proof. unfold qnext. by rewrite fmap_is_Some. Qed.
Lemma known_qon v u : is_Some (v_threads v !! u) <-> is_Some (qon v u).
Proof. unfold qon. by rewrite fmap_is_Some. Qed.
Lemma thread_fields v u n e : qnext v u = Some n -> qon v u = Some e ->
  exists st x, v_threads v !! u = Some (st, x) /\ Queue_Next x = n /\ Queued_On_EP x = e.
Proof. unfold qnext, qon. destruct (v_threads v !! u) as [[st x]|]; [|done]. intros [= <-] [= <-]. by exists st, x. Qed.

Definition shown (ex : Z) v A : Prop := exists SQ, shows ex v A SQ.

(** What an operation that writes links, tags and the endpoint [e] leaves
    as it was. *)
Record calm e v v' : Prop := {
  qt_eps : forall e', e' <> e -> v_eps v' !! e' = v_eps v !! e';
  qt_sends : v_sends v' = v_sends v;
  qt_known : forall u, is_Some (v_threads v !! u) -> is_Some (v_threads v' !! u);
  qt_results : results v' = results v }.

Lemma calm_trans e v1 v2 v3 : calm e v1 v2 -> calm e v2 v3 -> calm e v1 v3.
Proof. intros [A1 A2 A3 A4] [B1 B2 B3 B4]. split; try congruence; [intros; by rewrite B1, A1|auto]. Qed.
Lemma calm_refl e v : calm e v v.
Proof. by split. Qed.
Lemma calm_put e t f v : (forall x, Saved_A0 (f x) = Saved_A0 x) -> calm e v (put_part t f v).
Proof. intros Hf. split; [done|done|intros u; by rewrite put_known|by apply put_results]. Qed.
Lemma calm_ep e o v : calm e v (vset_eps (<[e := o]> (v_eps v)) v).
Proof. split; cbn; [|done|done|done]. intros e' Hne. by rewrite lookup_insert_ne. Qed.
Local Hint Resolve calm_refl : core.

(** The queue of [e] becomes [l]. *)
Lemma shows_requeue ex ex' v v' A SQ e a l rc o o' :
  shows ex v A SQ -> b_eps A !! e = Some a -> (ex = 0 \/ ex = e) -> calm e v v' ->
  (forall u e', e' <> e -> e' <> 0 -> qon v u = Some e' -> qnext v' u = qnext v u) ->
  (forall u e', e' <> e -> e' <> 0 -> qon v' u = Some e' <-> qon v u = Some e') ->
  (forall u, qon v' u = Some e <-> u ∈ l) ->
  v_eps v !! e = Some o -> v_eps v' !! e = Some o' -> Waiting_Receiver o' = rc -> (rc = 0 \/ rc = Waiting_Receiver o) ->
  Send_Queue_Head o' = Send_Queue_Head o ->
  path (qnext v') (Queue_Head o') l 0 -> NoDup l -> (e <> ex' -> Queue_Tail o' = List.last l 0) ->
  shown ex' v' (Abs (<[e := AEp l rc (Failed o')]> (b_eps A)) (b_threads A)).
Proof.
  intros Hs Ha Hex [Q1 Q2 Q3 Q4] E2 E3 E7 Ho Ho' R1 R2 R4 R5 R6 R7.
  destruct (so_ep _ _ _ _ Hs e a Ha) as (ls & Hls & o0 & P1 & P2 & P3 & P4 & P5 & P6 & P7 & P8 & P9). assert (o0 = o) as -> by congruence.
  assert (forall s, snext v' s = snext v s) as Hsn by (intros s; unfold snext; by rewrite Q2).
  exists (<[e := ls]> SQ). eapply (shows_step ex ex' v); try done; [|by rewrite Q4, (so_results _ _ _ _ Hs)].
  exists o'. cbn. split_and!; try done.
  - destruct R2 as [->| ->]; [by left|]. rewrite P5. destruct P6; [by left|right; by apply Q3].
  - rewrite R4. eapply path_ext; [|exact P8]. intros s _. apply Hsn.
Qed.

(** ** Appending *)

Lemma off_queue v A SQ t e : shows 0 v A SQ -> map_Forall (fun _ a => t ∉ a_callers a) (b_eps A) -> e <> 0 -> qon v t <> Some e.
Proof. intros Hs Hout He Hq. apply (so_on _ _ _ _ Hs) in Hq as (b & Hb & Hin); [|done]. exact (Hout e b Hb Hin). Qed.

Lemma on_queue ex v A SQ e a : shows ex v A SQ -> b_eps A !! e = Some a -> forall u, u ∈ a_callers a <-> qon v u = Some e.
Proof.
  intros Hs Ha u. assert (e <> 0) by (intros ->; rewrite (so_null _ _ _ _ Hs) in Ha; done). rewrite (so_on _ _ _ _ Hs) by done.
  split; [intros; by exists a|intros (b & Hb & ?); congruence].
Qed.

(** The links and tags with [t] at the end of the queue of [e]. *)
Lemma shows_append v v' A SQ e t a o o' :
  shows 0 v A SQ -> b_eps A !! e = Some a -> v_eps v !! e = Some o -> is_Some (v_threads v !! t) -> t <> 0 ->
  map_Forall (fun _ a => t ∉ a_callers a) (b_eps A) ->
  (forall u, qnext v' u = if decide (u = t) then Some 0
                          else if decide (u = List.last (a_callers a) 0 /\ a_callers a <> []) then Some t else qnext v u) ->
  (forall u, qon v' u = if decide (u = t) then Some e else qon v u) -> calm e v v' ->
  v_eps v' !! e = Some o' -> Queue_Head o' = hd 0 (a_callers a ++ [t]) -> Queue_Tail o' = t ->
  Waiting_Receiver o' = Waiting_Receiver o -> Send_Queue_Head o' = Send_Queue_Head o -> Failed o' = Failed o ->
  shown 0 v' (a_step (Enqueue e t) A).2.
Proof.
  intros Hs Ha Ho Ht Ht0 Hout Hn Hq HQ Ho' R1 R2 R3 R4 R5. specialize (Hout e a Ha) as Hta. cbn beta in Hta.
  pose proof (on_queue _ _ _ _ _ _ Hs Ha) as Hon. destruct (so_ep _ _ _ _ Hs e a Ha) as (ls & _ & o0 & P1 & P2 & P3 & P4 & P5 & P6 & P7 & _).
  assert (o0 = o) as -> by congruence. unfold a_step. cbn [op_ep]. rewrite Ha. cbn [a_queue fst snd]. rewrite <- P7, <- R5, <- P5.
  eapply (shows_requeue 0 0 v v'); try done; [by left| | | |by right| | |intros _; by rewrite last_last].
  - intros u e' H1 H2 Hu. rewrite Hn. case_decide; [subst; by destruct (off_queue _ _ _ _ _ Hs Hout H2)|].
    case_decide as E; [|done]. destruct E as [-> E]. pose proof (last_in _ 0 E) as Hl. apply Hon in Hl. congruence.
  - intros u e' H1 H2. rewrite Hq. case_decide; [|done]. subst. split; [congruence|]. intros Hu. by destruct (off_queue _ _ _ _ _ Hs Hout H2).
  - intros u. rewrite Hq, elem_of_app, list_elem_of_singleton, Hon. case_decide; [subst; tauto|tauto].
  - rewrite R1. apply path_hd in P2 as Hhd. rewrite Hhd in P2. apply path_app. exists t. split.
    + destruct (decide (a_callers a = [])) as [El|Hne]; [by rewrite El in *|]. destruct (exists_last Hne) as (l' & y & El).
      rewrite El in *. replace (hd 0 ((l' ++ [y]) ++ [t])) with (hd 0 (l' ++ [y])) by by destruct l'. rewrite last_last in Hn.
      assert (t <> y) as Hty by (intros ->; apply Hta; set_solver). eapply path_relink; [exact P2| |rewrite Hn, decide_False, decide_True; done].
      intros b Hb. rewrite Hn, !decide_False; [done| |intros ->; apply Hta; set_solver]. intros [-> _]. apply NoDup_app in P3 as (_ & Q & _). apply (Q y Hb). set_solver.
    + cbn. split_and!; [done|done|]. exists 0. by rewrite Hn, decide_True.
  - apply NoDup_app. split_and!; [done|set_solver|apply NoDup_singleton].
Qed.

Lemma put_off v t f u : u <> t -> v_threads (put_part t f v) !! u = v_threads v !! u.
Proof. intros H. by rewrite put_lookup, decide_False. Qed.

Lemma kwp_Enqueue e t v A :
  shown 0 v A -> enabled (Enqueue e t) A = true -> kwp (Enqueue_Caller e t) (fun _ v' => shown 0 v' (a_step (Enqueue e t) A).2) v.
Proof.
  intros [SQ Hs] Hen. apply andb_true_iff in Hen as [He Ht]. cbn [op_ep] in He. apply bool_decide_eq_true in He as [a Ha].
  apply andb_true_iff in Ht as [Ht Hout]. apply bool_decide_eq_true in Ht, Hout. rewrite (so_results _ _ _ _ Hs) in Ht. unfold results in Ht.
  rewrite lookup_fmap, fmap_is_Some in Ht. pose proof (on_queue _ _ _ _ _ _ Hs Ha) as Hon.
  destruct (so_ep _ _ _ _ Hs e a Ha) as (ls & Hls & o & P1 & P2 & P3 & P4 & _).
  assert (e <> 0) as He0 by (intros ->; rewrite (so_null _ _ _ _ Hs) in Ha; done). specialize (P4 He0).
  apply kwp_runs. intros _ Hnull _. assert (t <> 0) as Ht0 by (intros ->; rewrite Hnull in Ht; by destruct Ht).
  set (v2 := put_part t (set_queued_on e) (put_part t (set_queue_next 0) v)).
  apply kwp_bind, kwp_set_part; [done|]. apply kwp_bind, kwp_set_part; [by rewrite put_known|]. fold v2.
  assert (forall u, qnext v2 u = if decide (u = t) then Some 0 else qnext v u) as Hn2.
  { intros u. unfold v2. rewrite qnext_other by done. rewrite qnext_set. case_decide; [|done]. subst. by apply known_qnext in Ht as [? ->]. }
  assert (forall u, qon v2 u = if decide (u = t) then Some e else qon v u) as Ho2.
  { intros u. unfold v2. rewrite qon_set, qon_other by done. case_decide; [|done]. subst. by apply known_qon in Ht as [? ->]. }
  assert (calm e v v2) as HQ2 by (eapply calm_trans; by apply calm_put).
  apply kwp_bind, (kwp_ep _ o); [done|]. cbv zeta. rewrite P4. destruct (decide (a_callers a = [])) as [El|Hne].
  - rewrite El in *. cbn [List.last]. cbn in P2. rewrite P2. cbn [Z.eqb negb].
    apply kwp_bind, kwp_ret. apply kwp_bind, kwp_ret. cbn [Z.eqb].
    apply kwp_bind, (kwp_upd_ep _ o); [done|]. eapply kwp_upd_ep; [apply lookup_insert_eq|].
    eapply (shows_append v); [exact Hs|exact Ha|exact P1|done|done|done| | | |apply lookup_insert_eq|by rewrite El|done..].
    + intros u. change (qnext v2 u = if decide (u = t) then Some 0 else if decide (u = List.last (a_callers a) 0 /\ a_callers a <> []) then Some t else qnext v u).
      rewrite Hn2. case_decide; [done|]. rewrite El. rewrite decide_False; [done|]. tauto.
    + exact Ho2.
    + eapply calm_trans; [exact HQ2|]. eapply calm_trans; apply calm_ep.
  - pose proof (last_in (a_callers a) 0 Hne) as Hlast. set (tl := List.last (a_callers a) 0) in *.
    destruct (path_in _ _ _ _ _ P2 Hlast) as [Htl0 _]. rewrite (proj2 (Z.eqb_neq tl 0)) by done.
    assert (tl <> t) as Htt by (intros E; apply (Hout e a Ha); by rewrite <- E).
    destruct (thread_fields v2 tl 0 e) as (st & x & Hx & N1 & N2).
    { rewrite Hn2, decide_False by done. by apply (path_last _ _ _ P2). }
    { rewrite Ho2, decide_False by done. by apply Hon. }
    apply kwp_bind, kwp_bind, (kwp_part _ st x); [done|]. apply kwp_ret. rewrite N1, N2, Z.eqb_refl. cbn [negb orb Z.eqb].
    apply kwp_bind, kwp_ret. rewrite (proj2 (Z.eqb_neq tl 0)) by done.
    apply kwp_bind, kwp_set_part; [by eexists|]. eapply kwp_upd_ep; [exact P1|]. set (v3 := put_part tl (set_queue_next t) v2).
    eapply (shows_append v); [exact Hs|exact Ha|exact P1|done|done|done| | | |apply lookup_insert_eq| |done..].
    + intros u. change (qnext v3 u = if decide (u = t) then Some 0 else if decide (u = tl /\ a_callers a <> []) then Some t else qnext v u).
      unfold v3. rewrite qnext_set, Hn2. destruct (decide (u = tl)) as [->|].
      * rewrite !(decide_False (P := tl = t)) by done. rewrite decide_True by done. unfold tl. by rewrite (path_last _ _ _ P2).
      * case_decide; [done|]. by rewrite decide_False by tauto.
    + intros u. change (qon v3 u = if decide (u = t) then Some e else qon v u). unfold v3. by rewrite qon_other.
    + eapply calm_trans; [exact HQ2|]. eapply calm_trans; [by apply (calm_put e tl (set_queue_next t))|apply calm_ep].
    + cbn. rewrite (path_hd _ _ _ P2). by destruct (a_callers a).
Qed.

(** ** Taking out *)

(** The links and tags without [t]. *)
Lemma shows_remove ex ex' v v' A SQ e t a l1 l2 rc o o' :
  shows ex v A SQ -> (ex = 0 \/ ex = e) -> b_eps A !! e = Some a -> v_eps v !! e = Some o -> a_callers a = l1 ++ t :: l2 ->
  (forall u, qnext v' u = if decide (u = t) then Some 0
                          else if decide (u = List.last l1 0 /\ l1 <> []) then Some (hd 0 l2) else qnext v u) ->
  (forall u, qon v' u = if decide (u = t) then Some 0 else qon v u) -> calm e v v' ->
  v_eps v' !! e = Some o' -> Queue_Head o' = hd 0 (l1 ++ l2) -> (e <> ex' -> Queue_Tail o' = List.last (l1 ++ l2) 0) ->
  Waiting_Receiver o' = rc -> (rc = 0 \/ rc = Waiting_Receiver o) -> Send_Queue_Head o' = Send_Queue_Head o ->
  shown ex' v' (Abs (<[e := AEp (l1 ++ l2) rc (Failed o')]> (b_eps A)) (b_threads A)).
Proof.
  intros Hs Hex Ha Ho El Hn Hq HQ Ho' R1 R2 R3 R4 R5. pose proof (on_queue _ _ _ _ _ _ Hs Ha) as Hon. rewrite El in Hon.
  destruct (so_ep _ _ _ _ Hs e a Ha) as (ls & _ & o0 & P1 & P2 & P3 & _). assert (o0 = o) as -> by congruence. rewrite El in P2, P3.
  assert (e <> 0) as He0 by (intros ->; rewrite (so_null _ _ _ _ Hs) in Ha; done).
  assert (NoDup (l1 ++ l2) /\ t ∉ l1 ++ l2) as [Hnd Hout].
  { apply NoDup_app in P3 as (N1 & N2 & [N3 N4]%NoDup_cons). split; [apply NoDup_app; split_and!; [done|set_solver|done]|]. intros [Hi|Hi]%elem_of_app; [|done]. apply (N2 t Hi). set_solver. }
  assert (qon v t = Some e) as Hqt by (apply Hon; set_solver).
  eapply (shows_requeue ex ex' v v'); try done.
  - intros u e' H1 H2 Hu. rewrite Hn. case_decide; [congruence|]. case_decide as E; [|done]. destruct E as [-> E]. pose proof (last_in _ 0 E) as Hl.
    assert (qon v (List.last l1 0) = Some e) by (apply Hon; set_solver). congruence.
  - intros u e' H1 H2. rewrite Hq. case_decide; [|done]. subst. split; congruence.
  - intros u. rewrite Hq. case_decide as Eu; [subst; split; [congruence|done]|]. rewrite <- Hon. set_solver.
  - assert (forall b, b ∈ l2 -> qnext v' b = qnext v b) as Hb2.
    { intros b Hb. rewrite Hn, !decide_False; [done| |set_solver]. intros [-> E]. apply NoDup_app in Hnd as (_ & N & _). exact (N _ (last_in _ 0 E) Hb). }
    apply path_app in P2 as (n & Q1 & Q2). cbn in Q2. destruct Q2 as (-> & Ht0 & m & Hm & Q2). pose proof (path_hd _ _ _ Q2) as ->.
    rewrite R1. apply path_app. exists (hd 0 l2). split; [|by eapply path_ext].
    destruct (decide (l1 = [])) as [->|Hne]; [done|]. destruct (exists_last Hne) as (l' & y & ->). rewrite last_last in Hn.
    assert (Queue_Head o = hd 0 ((l' ++ [y]) ++ l2)) as <-.
    { destruct l'; cbn in Q1 |- *; tauto. }
    eapply path_relink; [exact Q1| |].
    + intros b Hb. rewrite Hn, !decide_False; [done| |set_solver]. intros [-> _]. apply NoDup_app in Hnd as ((_ & N & _)%NoDup_app & _). apply (N y Hb). set_solver.
    + rewrite Hn, decide_False, decide_True; [done|by destruct l'|set_solver].
Qed.

(** A known thread that is not queued loses nothing by being unlinked again. *)
Lemma unlink_fields e v t n : is_Some (v_threads v !! t) ->
  let v' := put_part t (set_queued_on 0) (put_part t (set_queue_next n) v) in
  (forall u, qnext v' u = if decide (u = t) then Some n else qnext v u) /\
  (forall u, qon v' u = if decide (u = t) then Some 0 else qon v u) /\ calm e v v'.
Proof.
  intros Ht v'. split_and!.
  - intros u. unfold v'. rewrite qnext_other by done. rewrite qnext_set. case_decide; [|done]. subst. by apply known_qnext in Ht as [? ->].
  - intros u. unfold v'. rewrite qon_set, qon_other by done. case_decide; [|done]. subst. by apply known_qon in Ht as [? ->].
  - eapply calm_trans; by apply calm_put.
Qed.

Lemma kwp_Is_Dead t v (Q : bool -> view W -> Prop) :
  t <> 0 -> is_Some (v_threads v !! t) -> Q (a_dead (results v) t) v -> kwp (Is_Dead t) Q v.
Proof.
  intros Ht [[st x] Hx] HQ. unfold Is_Dead. rewrite (proj2 (Z.eqb_neq t 0)) by done. apply kwp_bind, (kwp_thread _ st x); [done|].
  intros c <- _. apply kwp_ret. unfold a_dead, results in HQ. rewrite lookup_fmap, Hx in HQ. exact HQ.
Qed.

Lemma kwp_dequeue_loop e n v A a : shown 0 v A -> b_eps A !! e = Some a -> (length (a_callers a) < n)%nat ->
  kwp (iterM n (dequeue_round e) tt) (fun r v' => r = (first_live (b_threads A) (a_callers a)).1 /\
    shown 0 v' (Abs (<[e := AEp (first_live (b_threads A) (a_callers a)).2 (a_receiver a) (a_failed a)]> (b_eps A)) (b_threads A))) v.
Proof.
  revert v A a. induction n as [|n IH]; [lia|]. intros v A a [SQ Hs] Ha Hlen. cbn [iterM].
  pose proof (on_queue _ _ _ _ _ _ Hs Ha) as Hon. assert (e <> 0) as He0 by (intros ->; rewrite (so_null _ _ _ _ Hs) in Ha; done).
  destruct (so_ep _ _ _ _ Hs e a Ha) as (ls & _ & o & P1 & P2 & P3 & P4 & P5 & _ & P7 & _). specialize (P4 He0).
  apply kwp_bind. unfold dequeue_round at 1. apply kwp_bind, (kwp_ep _ o); [done|]. cbv zeta. destruct a as [[|t l] rc fa]; cbn [a_callers a_receiver a_failed] in *.
  { cbn in P2. rewrite P2. apply kwp_ret, kwp_ret. split; [done|]. exists SQ. cbn. rewrite insert_id by done. by destruct A. }
  cbn in P2. destruct P2 as (-> & Ht0 & m & Hm & P2). rewrite (proj2 (Z.eqb_neq _ 0)) by done. pose proof (path_hd _ _ _ P2) as ->.
  destruct (thread_fields v t (hd 0 l) e Hm) as (st & x & Hx & N1 & N2); [apply Hon; set_solver|].
  apply kwp_bind, (kwp_part _ st x); [done|]. rewrite N1. apply kwp_bind, (kwp_upd_ep _ o); [done|].
  set (o' := Endpoint (e_count o) (hd 0 l) (List.last l 0) (Waiting_Receiver o) (Send_Queue_Head o) (Send_Queue_Tail o) (Failed o) (Stamp_Identity o) (e_next_free o)).
  set (v1 := vset_eps (<[e := o']> (v_eps v)) v).
  assert (forall v0, v0 = vset_eps (<[e := set_qhead (hd 0 l) o]> (v_eps v)) v -> forall (Q : unit -> view W -> Prop),
     Q tt v1 -> kwp (if hd 0 l =? 0 then upd_ep e (set_qtail 0) else retM tt) Q v0) as Htail.
  { intros v0 -> Q HQ. destruct l as [|b l].
    - cbn [hd Z.eqb]. eapply kwp_upd_ep; [apply lookup_insert_eq|]. cbn [v_eps vset_eps]. by rewrite insert_insert_eq.
    - cbn in P2. destruct P2 as (_ & Hb & _). cbn [hd]. rewrite (proj2 (Z.eqb_neq b 0)) by done. apply kwp_ret.
      change (List.last (t :: b :: l) 0) with (List.last (b :: l) 0) in P4. unfold v1, o' in HQ. rewrite <- P4 in HQ. exact HQ. }
  apply kwp_bind, Htail; [done|]. clear Htail. assert (is_Some (v_threads v !! t)) as Ht by (by eexists).
  apply kwp_bind, kwp_set_part; [done|]. apply kwp_bind, kwp_set_part; [by rewrite put_known|].
  destruct (unlink_fields e v1 t 0 Ht) as (F1 & F2 & F3). set (v2 := put_part t (set_queued_on 0) (put_part t (set_queue_next 0) v1)) in *.
  assert (shown 0 v2 (Abs (<[e := AEp l rc fa]> (b_eps A)) (b_threads A))) as Hs2.
  { rewrite <- P7. change (Failed o) with (Failed o'). apply (shows_remove 0 0 v v2 A SQ e t (AEp (t :: l) rc fa) [] l rc o o'); try done; [by left| |eapply calm_trans; [apply calm_ep|exact F3]|apply lookup_insert_eq|by right].
    intros u. rewrite F1. case_decide; [done|]. rewrite decide_False; [done|]. tauto. }
  assert (results v2 = b_threads A) as Hr by (rewrite (so_results _ _ _ _ Hs); apply (qt_results _ _ _ F3)).
  apply kwp_bind, kwp_Is_Dead; [done|by apply (qt_known _ _ _ F3)|]. rewrite Hr. apply kwp_ret. cbn [first_live].
  destruct (a_dead (b_threads A) t) eqn:Ed.
  - cbn in Hlen. eapply kwp_mono; [|apply (IH v2 _ (AEp l rc fa) Hs2); [apply lookup_insert_eq|cbn; lia]].
    intros r v' [-> Hs']. cbn in Hs' |- *. by rewrite insert_insert_eq in Hs'.
  - by apply kwp_ret.
Qed.

Lemma callers_fit ex v A SQ e a : shows ex v A SQ -> b_eps A !! e = Some a -> (length (a_callers a) < S (size (v_threads v)))%nat.
Proof.
  intros Hs Ha. destruct (so_ep _ _ _ _ Hs e a Ha) as (ls & _ & o & P1 & P2 & P3 & _).
  rewrite <- (size_list_to_set (C := gset Z) _ P3), <- (size_dom (D := gset Z)). apply Nat.lt_succ_r, subseteq_size.
  intros u Hu. apply elem_of_list_to_set in Hu. apply elem_of_dom, known_qnext. by apply (path_in _ _ _ _ _ P2).
Qed.

Lemma kwp_Dequeue e v A : shown 0 v A -> enabled (Dequeue e) A = true ->
  kwp (Dequeue_Caller e) (fun r v' => r = (a_step (Dequeue e) A).1 /\ shown 0 v' (a_step (Dequeue e) A).2) v.
Proof.
  intros Hs Hen. apply andb_true_iff in Hen as [He _]. cbn [op_ep] in He. apply bool_decide_eq_true in He as [a Ha].
  unfold a_step. cbn [op_ep]. rewrite Ha. apply (kwp_fuel (fun n => iterM n (dequeue_round e) tt)). apply kwp_dequeue_loop; [done|done|].
  destruct Hs as [SQ Hs]. by eapply callers_fit.
Qed.

Lemma kwp_unlink_here e t v A a l1 l2 : shown 0 v A -> b_eps A !! e = Some a -> a_callers a = l1 ++ t :: l2 ->
  kwp (unlink_round e t (List.last l1 0, t)) (fun r v' => r = inr tt /\
    shown 0 v' (Abs (<[e := AEp (l1 ++ l2) (a_receiver a) (a_failed a)]> (b_eps A)) (b_threads A))) v.
Proof.
  intros [SQ Hs] Ha El. pose proof (on_queue _ _ _ _ _ _ Hs Ha) as Hon. assert (e <> 0) as He0 by (intros ->; rewrite (so_null _ _ _ _ Hs) in Ha; done).
  destruct (so_ep _ _ _ _ Hs e a Ha) as (ls & _ & o & P1 & P2 & P3 & P4 & P5 & _ & P7 & _). specialize (P4 He0). rewrite El in P2, P3, P4, Hon.
  pose proof P2 as Q2. apply path_app in Q2 as (n & Q1 & -> & Ht0 & m & Hm & Q2). pose proof (path_hd _ _ _ Q2) as ->.
  destruct (thread_fields v t (hd 0 l2) e Hm) as (st & x & Hx & N1 & N2); [apply Hon; set_solver|].
  unfold unlink_round. rewrite (proj2 (Z.eqb_neq t 0)), Z.eqb_refl by done. apply kwp_bind, (kwp_part _ st x); [done|]. rewrite N1.
  apply NoDup_app in P3 as (D1 & D2 & [D3 D4]%NoDup_cons).
  assert (t ∉ l1) as Ht1 by (intros Hi; apply (D2 t Hi); set_solver).
  set (o1 := if decide (l1 = []) then set_qhead (hd 0 l2) o else o).
  set (o2 := set_qtail (List.last (l1 ++ l2) 0) o1).
  assert (exists v1, (forall (Q : unit -> view W -> Prop), Q tt v1 ->
      kwp (if List.last l1 0 =? 0 then upd_ep e (set_qhead (hd 0 l2)) else set_part (List.last l1 0) (set_queue_next (hd 0 l2))) Q v) /\
      v_eps v1 !! e = Some o1 /\ calm e v v1 /\ is_Some (v_threads v1 !! t) /\
      (forall u, qon v1 u = qon v u) /\
      (forall u, qnext v1 u = if decide (u = List.last l1 0 /\ l1 <> []) then Some (hd 0 l2) else qnext v u)) as (v1 & H1 & E1 & Q1' & K1 & O1 & X1).
  { unfold o1. destruct (decide (l1 = [])) as [->|Hne].
    - eexists. split_and!; [intros Q HQ; cbn [List.last Z.eqb]; eapply kwp_upd_ep; [done|exact HQ]|apply lookup_insert_eq|apply calm_ep|by eexists|done|].
      intros u. rewrite decide_False by tauto. done.
    - pose proof (last_in l1 0 Hne) as Hl. assert (List.last l1 0 ∈ l1 ++ t :: l2) as Hin by set_solver. destruct (path_in _ _ _ _ _ P2 Hin) as [Hnz Hk].
      exists (put_part (List.last l1 0) (set_queue_next (hd 0 l2)) v). split_and!; [|done|by apply calm_put|by rewrite put_known; eexists|intros u; by apply qon_other|].
      + intros Q HQ. rewrite (proj2 (Z.eqb_neq _ 0)) by done. apply kwp_set_part; [by apply known_qnext|done].
      + intros u. rewrite qnext_set. case_decide as Eu; [|by rewrite decide_False by tauto]. subst u. rewrite decide_True by done. by destruct Hk as [? ->]. }
  apply kwp_bind, H1. apply kwp_bind, (kwp_ep _ o1); [done|].
  assert (forall (Q : unit -> view W -> Prop), Q tt (vset_eps (<[e := o2]> (v_eps v1)) v1) ->
    kwp (if Queue_Tail o1 =? t then upd_ep e (set_qtail (List.last l1 0)) else retM tt) Q v1) as H2.
  { intros Q HQ. assert (Queue_Tail o1 = List.last (l1 ++ t :: l2) 0) as -> by (unfold o1; by case_decide). destruct (decide (l2 = [])) as [->|Hne].
    - rewrite last_last, Z.eqb_refl. apply (kwp_upd_ep _ o1); [done|]. unfold o2 in HQ. by rewrite app_nil_r in HQ.
    - destruct (exists_last Hne) as (l' & y & ->). unfold o2 in HQ. rewrite (app_comm_cons l' [y] t), !app_assoc, !last_last in *.
      rewrite (proj2 (Z.eqb_neq y t)) by set_solver. apply kwp_ret. rewrite insert_id in HQ; [by destruct v1|]. rewrite E1. f_equal.
      assert (Queue_Tail o1 = y) as E by (unfold o1; by case_decide). rewrite <- E. by destruct o1. }
  apply kwp_bind, H2. apply kwp_bind, kwp_set_part; [done|]. apply kwp_bind, kwp_set_part; [by rewrite put_known|]. apply kwp_ret. split; [done|].
  destruct (unlink_fields e (vset_eps (<[e := o2]> (v_eps v1)) v1) t 0 K1) as (F1 & F2 & F3).
  assert (Failed o2 = a_failed a) as <- by (unfold o2, o1; case_decide; done).
  apply (shows_remove 0 0 v _ A SQ e t a l1 l2 (a_receiver a) o o2); try done; [by left| | | |apply lookup_insert_eq| | |by right|].
  - intros u. rewrite F1. case_decide; [done|]. apply X1.
  - intros u. rewrite F2. case_decide; [done|]. apply O1.
  - eapply calm_trans; [exact Q1'|]. eapply calm_trans; [apply calm_ep|exact F3].
  - unfold o2, o1. case_decide as E; [by subst|]. cbn. apply path_hd in P2. rewrite P2. by destruct l1.
  - unfold o2, o1. by case_decide.
  - unfold o2, o1. by case_decide.
Qed.

Lemma without_app t l1 l2 : t ∉ l1 -> t ∉ l2 -> filter (fun u => u <> t) (l1 ++ t :: l2) = l1 ++ l2.
Proof.
  assert (forall l, t ∉ l -> filter (fun u => u <> t) l = l) as H.
  { induction l as [|b l IH]; intros Hl; [done|]. rewrite filter_cons_True by set_solver. by rewrite IH by set_solver. }
  intros H1 H2. rewrite filter_app, filter_cons_False by tauto. by rewrite !H.
Qed.

Lemma kwp_unlink_loop e t n v A a l1 l2 :
  shown 0 v A -> b_eps A !! e = Some a -> a_callers a = l1 ++ l2 -> t ∉ l1 -> (length l2 < n)%nat ->
  kwp (iterM n (unlink_round e t) (List.last l1 0, hd 0 l2)) (fun _ v' =>
    shown 0 v' (Abs (<[e := AEp (filter (fun u => u <> t) (a_callers a)) (a_receiver a) (a_failed a)]> (b_eps A)) (b_threads A))) v.
Proof.
  revert l1 l2. induction n as [|n IH]; [lia|]. intros l1 l2 Hs Ha El Ht Hlen. cbn [iterM]. destruct l2 as [|b l2].
  - cbn [hd]. unfold unlink_round at 1. cbn [Z.eqb]. apply kwp_bind, kwp_ret, kwp_ret. rewrite app_nil_r in El. rewrite El.
    assert (filter (fun u => u <> t) l1 = l1) as ->.
    { clear El. induction l1 as [|c l1 IH']; [done|]. rewrite filter_cons_True by set_solver. by rewrite IH' by set_solver. }
    rewrite <- El. replace (<[e := _]> (b_eps A)) with (b_eps A) by (symmetry; apply insert_id; by rewrite Ha; destruct a). by destruct A.
  - cbn [hd]. destruct (decide (b = t)) as [->|Hne].
    + apply kwp_bind. eapply kwp_mono; [|by apply (kwp_unlink_here e t v A a l1 l2)]. intros r v' [-> Hs']. apply kwp_ret.
      destruct Hs as [SQ Hs]. destruct (so_ep _ _ _ _ Hs e a Ha) as (ls & _ & o & _ & _ & P3 & _). rewrite El in *.
      apply NoDup_app in P3 as (_ & _ & [P3 _]%NoDup_cons). by rewrite without_app.
    + destruct Hs as [SQ Hs]. destruct (so_ep _ _ _ _ Hs e a Ha) as (ls & _ & o & P1 & P2 & _). rewrite El in P2.
      apply path_app in P2 as (m & _ & -> & Hb & m' & Hm & P2). pose proof (path_hd _ _ _ P2) as ->.
      destruct (thread_fields v b (hd 0 l2) e Hm) as (st & x & Hx & N1 & _).
      { apply (on_queue _ _ _ _ _ _ Hs Ha). rewrite El. set_solver. }
      unfold unlink_round at 1. rewrite (proj2 (Z.eqb_neq b 0)), (proj2 (Z.eqb_neq b t)) by done.
      apply kwp_bind, kwp_bind, (kwp_part _ st x); [done|]. apply kwp_ret. rewrite N1. replace b with (List.last (l1 ++ [b]) 0) at 1 by apply last_last.
      apply IH; [by exists SQ|done|by rewrite <- app_assoc|set_solver|cbn in Hlen; lia].
Qed.

Lemma kwp_Unlink e t v A : shown 0 v A -> enabled (Unlink e t) A = true ->
  kwp (Cleanup_Thread_Cap t e) (fun _ v' => shown 0 v' (a_step (Unlink e t) A).2) v.
Proof.
  intros [SQ Hs] Hen. apply andb_true_iff in Hen as [He Ht]. cbn [op_ep] in He. apply bool_decide_eq_true in He as [a Ha].
  apply bool_decide_eq_true in Ht. rewrite (so_results _ _ _ _ Hs) in Ht. unfold results in Ht. rewrite lookup_fmap, fmap_is_Some in Ht.
  assert (e <> 0) as He0 by (intros ->; rewrite (so_null _ _ _ _ Hs) in Ha; done).
  destruct (so_ep _ _ _ _ Hs e a Ha) as (ls & Hls & o & P1 & P2 & P3 & P4 & P5 & P6 & P7 & _).
  apply kwp_runs. intros _ Hnull _. assert (t <> 0) as Ht0 by (intros ->; rewrite Hnull in Ht; by destruct Ht).
  unfold Cleanup_Thread_Cap. rewrite (proj2 (Z.eqb_neq t 0)), (proj2 (Z.eqb_neq e 0)) by done. cbn [orb].
  apply kwp_bind, (kwp_ep _ o); [done|]. set (rc := if a_receiver a =? t then 0 else a_receiver a). rewrite P5.
  assert (forall (Q : unit -> view W -> Prop), Q tt (vset_eps (<[e := set_receiver rc o]> (v_eps v)) v) ->
    kwp (if a_receiver a =? t then upd_ep e (set_receiver 0) else retM tt) Q v) as H1.
  { intros Q HQ. unfold rc in HQ. destruct (a_receiver a =? t); [by apply (kwp_upd_ep _ o)|]. apply kwp_ret. rewrite <- P5 in HQ.
    rewrite insert_id in HQ; [by destruct v|]. rewrite P1. by destruct o. }
  apply kwp_bind, H1. clear H1. apply kwp_bind, kwp_set_part; [done|]. set (v1 := put_part t (set_recv_ep 0) _).
  pose proof (on_queue _ _ _ _ _ _ Hs Ha) as Hon.
  assert (forall u, qnext v1 u = qnext v u) as Hn by (intros u; unfold v1; by rewrite qnext_other).
  assert (forall u, qon v1 u = qon v u) as Hq by (intros u; unfold v1; by rewrite qon_other).
  assert (shown 0 v1 (Abs (<[e := AEp (a_callers a) rc (Failed (set_receiver rc o))]> (b_eps A)) (b_threads A))) as Hs1.
  { apply (shows_requeue 0 0 v v1 A SQ e a (a_callers a) rc o (set_receiver rc o)); try done; [by left| | | |apply lookup_insert_eq| |].
    - eapply calm_trans; [apply calm_ep|by apply calm_put].
    - intros u e' _ _. by rewrite Hq.
    - intros u. by rewrite Hq, Hon.
    - unfold rc. destruct (a_receiver a =? t); [by left|by right].
    - eapply path_ext; [|exact P2]. intros u _. apply Hn. }
  apply (kwp_fuel (fun n => iterM n (unlink_round e t) (0, Queue_Head o))). rewrite (path_hd _ _ _ P2). change 0 with (List.last (@nil Z) 0) at 1.
  eapply kwp_mono; [|eapply (kwp_unlink_loop e t _ v1 _ _ [] (a_callers a) Hs1); [apply lookup_insert_eq|done|set_solver|]].
  - intros r v' Hs'. cbn in Hs'. rewrite insert_insert_eq in Hs'. unfold a_step. cbn [op_ep]. rewrite Ha. cbn. by rewrite <- P7.
  - destruct Hs1 as [SQ1 Hs1]. apply (callers_fit _ _ _ _ e (AEp (a_callers a) rc (Failed (set_receiver rc o))) Hs1). apply lookup_insert_eq.
Qed.

(** ** Waking *)

Definition woken t (r : Z) v : view W :=
  match v_threads v !! t with
  | Some (st, x) => if is_blocked st then vset_threads (<[t := (Ready, set_awaiting false (set_saved_a0 r x))]> (v_threads v)) v else v
  | None => v
  end.

Lemma kwp_wake_with h t r (Q : unit -> view W -> Prop) v :
  t = 0 \/ is_Some (v_threads v !! t) -> Q tt (woken t r v) -> kwp (Wake_With_Result h t r) Q v.
Proof.
  intros Ht HQ. apply kwp_runs. intros _ Hnull _. unfold Wake_With_Result. destruct (decide (t = 0)) as [->|Ht0].
  { apply kwp_bind, kwp_ret, kwp_ret. unfold woken in HQ. by rewrite Hnull in HQ. }
  destruct Ht as [|[[st x] Ht]]; [done|]. apply kwp_bind, kwp_Is_Dead; [done|by eexists|]. unfold woken in HQ. rewrite Ht in HQ.
  unfold a_dead, results. rewrite lookup_fmap, Ht. cbn [fmap option_fmap option_map fst]. case_bool_decide; [subst; by apply kwp_ret|].
  apply kwp_bind, (kwp_thread _ st x); [done|]. intros c -> _. destruct (is_blocked st) eqn:B; [|by apply kwp_ret]. cbn [negb].
  apply kwp_bind, kwp_set_part; [by eexists|]. apply kwp_bind, kwp_set_part; [by rewrite put_known; eexists|].
  apply kwp_bind. eapply kwp_wake; [rewrite !put_lookup, !decide_True by done; by rewrite Ht|]. intros s. apply kwp_ret.
  unfold wake_to. rewrite !put_lookup, !decide_True by done. rewrite Ht. cbn [fmap option_fmap option_map fst snd].
  replace (blocked st) with true by (by destruct st). cbn. replace (<[t:=_]> (alter _ t _)) with (<[t := (Ready, set_awaiting false (set_saved_a0 r x))]> (v_threads v)); [done|].
  apply map_eq. intros u. destruct (decide (u = t)) as [->|]; [by rewrite !lookup_insert_eq|]. by rewrite !lookup_insert_ne, !lookup_alter_ne.
Qed.

Lemma woken_fields t r v :
  v_eps (woken t r v) = v_eps v /\ v_sends (woken t r v) = v_sends v /\ (forall u, qnext (woken t r v) u = qnext v u) /\
  (forall u, qon (woken t r v) u = qon v u) /\ (forall u, is_Some (v_threads (woken t r v) !! u) <-> is_Some (v_threads v !! u)) /\
  results (woken t r v) = awake r (results v) t.
Proof.
  unfold woken, awake, results, qnext, qon. rewrite lookup_fmap. destruct (v_threads v !! t) as [[st x]|] eqn:Ht; [|done]. cbn.
  destruct (is_blocked st) eqn:B; [|done]. cbn. split_and!; [done|done| | | |].
  - intros u. destruct (decide (u = t)) as [->|]; [by rewrite lookup_insert_eq, Ht|by rewrite lookup_insert_ne].
  - intros u. destruct (decide (u = t)) as [->|]; [by rewrite lookup_insert_eq, Ht|by rewrite lookup_insert_ne].
  - intros u. destruct (decide (u = t)) as [->|]; [rewrite lookup_insert_eq, Ht; split; by eexists|by rewrite lookup_insert_ne].
  - by rewrite fmap_insert.
Qed.

Lemma shown_woken ex t r v A : shown ex v A -> shown ex (woken t r v) (Abs (b_eps A) (awake r (b_threads A) t)).
Proof.
  intros [SQ [S1 S2 S3 S4 S5]]. destruct (woken_fields t r v) as (F1 & F2 & F3 & F4 & F5 & F6). exists SQ. split; cbn; [|intros; rewrite F4; by apply S2|done|done|congruence].
  intros e a Ha. destruct (S1 e a Ha) as (ls & Hls & o & P1 & P2 & P3 & P4 & P5 & P6 & P7 & P8 & P9). exists ls. split; [done|].
  exists o. rewrite F1. split_and!; try done.
  - eapply path_ext; [|exact P2]. intros u _. apply F3.
  - destruct P6; [by left|right; by apply F5].
  - eapply path_ext; [|exact P8]. intros s _. unfold snext. by rewrite F2.
Qed.

(** ** Failing *)

Lemma kwp_fail_loop h e n v A a : shown e v A -> b_eps A !! e = Some a -> (length (a_callers a) < n)%nat ->
  kwp (iterM n (fail_round h e) tt) (fun _ v' => shown e v' (Abs (<[e := AEp [] (a_receiver a) (a_failed a)]> (b_eps A))
    (foldl (awake Result_Endpoint_Gone) (b_threads A) (a_callers a)))) v.
Proof.
  revert v A a. induction n as [|n IH]; [lia|]. intros v A a [SQ Hs] Ha Hlen. cbn [iterM].
  pose proof (on_queue _ _ _ _ _ _ Hs Ha) as Hon. destruct (so_ep _ _ _ _ Hs e a Ha) as (ls & _ & o & P1 & P2 & P3 & P4 & P5 & _ & P7 & _).
  apply kwp_bind. unfold fail_round at 1. apply kwp_bind, (kwp_ep _ o); [done|]. cbv zeta. destruct a as [[|t l] rc fa]; cbn [a_callers a_receiver a_failed] in *.
  { cbn in P2. rewrite P2. apply kwp_ret, kwp_ret. exists SQ. cbn. rewrite insert_id by done. by destruct A. }
  cbn in P2. destruct P2 as (-> & Ht0 & m & Hm & P2). rewrite (proj2 (Z.eqb_neq _ 0)) by done. pose proof (path_hd _ _ _ P2) as ->.
  destruct (thread_fields v t (hd 0 l) e Hm) as (st & x & Hx & N1 & N2); [apply Hon; set_solver|].
  assert (is_Some (v_threads v !! t)) as Ht by (by eexists).
  apply kwp_bind, (kwp_part _ st x); [done|]. rewrite N1. apply kwp_bind, (kwp_upd_ep _ o); [done|].
  apply kwp_bind, kwp_set_part; [done|]. apply kwp_bind, kwp_set_part; [by rewrite put_known|].
  set (v1 := vset_eps (<[e := set_qhead (hd 0 l) o]> (v_eps v)) v).
  destruct (unlink_fields e v1 t 0 Ht) as (F1 & F2 & F3). set (v2 := put_part t (set_queued_on 0) (put_part t (set_queue_next 0) v1)) in *.
  assert (shown e v2 (Abs (<[e := AEp l rc fa]> (b_eps A)) (b_threads A))) as Hs2.
  { rewrite <- P7. change (Failed o) with (Failed (set_qhead (hd 0 l) o)). apply (shows_remove e e v v2 A SQ e t (AEp (t :: l) rc fa) [] l rc o (set_qhead (hd 0 l) o)); try done; [by right| |eapply calm_trans; [apply calm_ep|exact F3]|apply lookup_insert_eq|by right].
    intros u. rewrite F1. case_decide; [done|]. rewrite decide_False; [done|]. tauto. }
  apply kwp_bind, kwp_wake_with; [right; by apply (qt_known _ _ _ F3)|]. apply kwp_ret. cbn in Hlen.
  eapply kwp_mono; [|apply (IH _ _ (AEp l rc fa) (shown_woken e t Result_Endpoint_Gone v2 _ Hs2)); [apply lookup_insert_eq|cbn; lia]].
  intros r v' Hs'. cbn in Hs' |- *. by rewrite insert_insert_eq in Hs'.
Qed.

(** The copied messages go back to the pool; nothing else changes. *)
Lemma kwp_drop_loop n p ls (Q : unit -> view W -> Prop) v :
  path (snext v) p ls 0 -> NoDup ls -> (length ls < n)%nat ->
  (forall m f, (forall s, s ∉ ls -> m !! s = v_sends v !! s) -> Q tt (vset_send_free f (vset_sends m v))) -> kwp (iterM n drop_round p) Q v.
Proof.
  revert p ls v. induction n as [|n IH]; [lia|]. intros p ls v Hp Hnd Hlen HQ. cbn [iterM]. destruct ls as [|s ls]; cbn in Hp.
  - subst p. unfold drop_round at 1. cbn [Z.eqb]. apply kwp_bind, kwp_ret, kwp_ret. specialize (HQ (v_sends v) (v_send_free v) (fun _ _ => eq_refl)). by destruct v.
  - destruct Hp as (-> & Hs0 & m & Hm & Hp). unfold snext in Hm. apply fmap_Some in Hm as (q & Hq & ->). apply NoDup_cons in Hnd as [Hns Hnd].
    unfold drop_round at 1. rewrite (proj2 (Z.eqb_neq s 0)) by done. apply kwp_bind, kwp_bind, (kwp_slot _ q); [done|]. apply kwp_bind. unfold Free_Queued_Send.
    apply (kwp_read k_send_free (fun f k => (upd_slot s (fun q => QueuedSend (q_label q) (q_words q) (q_badge q) 0 false f) ;; modifyM (with_send_free s)) k) (v_send_free v)).
    { intros k Hk. by destruct (seen_objs _ _ Hk) as (_ & _ & _ & ? & _). }
    apply kwp_bind, (kwp_upd_slot _ q); [done|]. apply kwp_set_send_free, kwp_ret. cbn in Hlen. apply (IH _ ls); [|done|lia|].
    + eapply path_ext; [|exact Hp]. intros b Hb. unfold snext. cbn. rewrite lookup_insert_ne; [done|]. intros ->. done.
    + intros m f Hmf. apply (HQ m f). intros b Hb. rewrite Hmf by set_solver. cbn. rewrite lookup_insert_ne; set_solver.
Qed.

(** The links do not change, the endpoint does. *)
Lemma shown_upd ex ex' v A e a rc o o' :
  shown ex v A -> b_eps A !! e = Some a -> (ex = 0 \/ ex = e) -> v_eps v !! e = Some o ->
  Queue_Head o' = Queue_Head o -> (e <> ex' -> Queue_Tail o' = List.last (a_callers a) 0) -> Send_Queue_Head o' = Send_Queue_Head o ->
  Waiting_Receiver o' = rc -> (rc = 0 \/ rc = Waiting_Receiver o) ->
  shown ex' (vset_eps (<[e := o']> (v_eps v)) v) (Abs (<[e := AEp (a_callers a) rc (Failed o')]> (b_eps A)) (b_threads A)).
Proof.
  intros [SQ Hs] Ha Hex Ho R1 R2 R3 R4 R5. destruct (so_ep _ _ _ _ Hs e a Ha) as (ls & _ & o0 & P1 & P2 & P3 & _). assert (o0 = o) as -> by congruence.
  eapply (shows_requeue ex ex' v); try done; [apply calm_ep|intros u; by rewrite (on_queue _ _ _ _ _ _ Hs Ha)|apply lookup_insert_eq|by rewrite R1].
Qed.

Definition drained (o : endpoint) : endpoint := set_stail 0 (set_shead 0 o).

(** The copied messages of [e] are gone. *)
Lemma kwp_drain_then {B} e v A a (c : KM B) (Q : B -> view W -> Prop) : shown 0 v A -> b_eps A !! e = Some a ->
  (forall v', shown 0 v' A -> kwp c Q v') ->
  kwp (let* o := ep e in
       (fun k => iterM (S (size (k_sends k))) drop_round (Send_Queue_Head o) k) ;; upd_ep e (set_shead 0) ;; upd_ep e (set_stail 0) ;; c) Q v.
Proof.
  intros [SQ Hs] Ha HQ. destruct (so_ep _ _ _ _ Hs e a Ha) as (ls & Hls & o & P1 & P2 & P3 & P4 & P5 & P6 & P7 & P8 & P9).
  apply kwp_bind, (kwp_ep _ o); [done|]. apply kwp_bind.
  apply (kwp_read (fun k => S (size (k_sends k))) (fun n => iterM n drop_round (Send_Queue_Head o)) (S (size (v_sends v)))).
  { intros k Hk. by destruct (seen_objs _ _ Hk) as (_ & _ & -> & _). }
  apply (kwp_drop_loop _ _ ls); [done|done| |].
  { rewrite <- (size_list_to_set (C := gset Z) _ P9), <- (size_dom (D := gset Z)). apply Nat.lt_succ_r, subseteq_size.
    intros s Hs'. apply elem_of_list_to_set in Hs'. apply elem_of_dom. destruct (path_in _ _ _ _ _ P8 Hs') as [_ K]. unfold snext in K. by rewrite fmap_is_Some in K. }
  intros m f Hm. apply kwp_bind, (kwp_upd_ep _ o); [done|]. eapply kwp_bind, kwp_upd_ep; [apply lookup_insert_eq|]. cbn [v_eps vset_eps vset_send_free vset_sends].
  rewrite insert_insert_eq. apply HQ. exists (<[e := []]> SQ). replace A with (Abs (<[e := a]> (b_eps A)) (b_threads A)) by (rewrite insert_id by done; by destruct A).
  eapply (shows_step 0 0 v _ A SQ e a ls []); try done; [set_solver|by left| | | | |by rewrite (so_results _ _ _ _ Hs)]; cbn.
  - intros e' Hne. by rewrite lookup_insert_ne.
  - intros s Hs'. unfold snext. cbn. by rewrite Hm.
  - exists (drained o). cbn. rewrite lookup_insert_eq. split_and!; try done. apply NoDup_nil_2.
  - intros u. symmetry. apply (on_queue _ _ _ _ _ _ Hs Ha).
Qed.

Lemma kwp_Fail h e v A : shown 0 v A -> enabled (Fail_EP e) A = true ->
  kwp (Fail_Endpoint h e) (fun _ v' => shown 0 v' (a_step (Fail_EP e) A).2) v.
Proof.
  intros Hs Hen. apply andb_true_iff in Hen as [He _]. cbn [op_ep] in He. apply bool_decide_eq_true in He as [a Ha].
  pose proof Hs as [SQ Hs0]. assert (e <> 0) as He0 by (intros ->; rewrite (so_null _ _ _ _ Hs0) in Ha; done).
  destruct (so_ep _ _ _ _ Hs0 e a Ha) as (ls & Hls & o & P1 & P2 & P3 & P4 & P5 & P6 & P7 & _).
  unfold Fail_Endpoint. rewrite (proj2 (Z.eqb_neq e 0)) by done. apply kwp_bind, (kwp_ep _ o); [done|]. rewrite P7.
  unfold a_step. cbn [op_ep]. rewrite Ha. cbn [a_queue fst snd]. destruct (a_failed a) eqn:Ef.
  { apply kwp_ret. cbn [fst snd]. rewrite insert_id by done. by destruct A. }
  cbn [fst snd]. apply kwp_bind, (kwp_upd_ep _ o); [done|].
  pose proof (shown_upd 0 e v A e a (a_receiver a) o (set_failed true o) Hs Ha (or_introl eq_refl) P1 eq_refl ltac:(done) eq_refl P5 ltac:(by right)) as H1.
  set (v1 := vset_eps _ v) in *. cbn [Failed set_failed] in H1. set (a1 := AEp (a_callers a) (a_receiver a) true) in *. set (A1 := Abs (<[e := a1]> (b_eps A)) (b_threads A)) in *.
  assert (b_eps A1 !! e = Some a1) as Ha1 by apply lookup_insert_eq.
  apply kwp_bind, (kwp_fuel (fun n => iterM n (fail_round h e) tt)). eapply kwp_mono; [|apply (kwp_fail_loop h e _ v1 A1 a1 H1 Ha1)].
  2: { destruct H1 as [SQ1 H1]. by eapply callers_fit. }
  intros r2 v2 H2. cbn in H2. rewrite insert_insert_eq in H2. set (T := foldl _ _ _) in *. set (A2 := Abs _ T) in *.
  assert (b_eps A2 !! e = Some (AEp [] (a_receiver a) true)) as Ha2 by apply lookup_insert_eq.
  pose proof H2 as [SQ2 H2']. destruct (so_ep _ _ _ _ H2' e _ Ha2) as (_ & _ & o2 & R1 & R2 & _ & _ & R5 & _ & R7 & _).
  apply kwp_bind, (kwp_upd_ep _ o2); [done|].
  pose proof (shown_upd e 0 v2 A2 e _ (a_receiver a) o2 (set_qtail 0 o2) H2 Ha2 (or_intror eq_refl) R1 eq_refl ltac:(done) eq_refl R5 ltac:(by right)) as H3.
  cbn [Failed set_qtail a_callers] in H3. rewrite R7 in H3. cbn in H3. rewrite insert_insert_eq in H3. fold A2 in H3. set (v3 := vset_eps _ v2) in *.
  eapply (kwp_drain_then e v3 A2 _ _ _ H3 Ha2). intros v4 H4. pose proof H4 as [SQ4 H4'].
  destruct (so_ep _ _ _ _ H4' e _ Ha2) as (_ & _ & o4 & U1 & U2 & _ & U4 & U5 & U6 & U7 & _). cbn in U5, U6, U7.
  apply kwp_bind, (kwp_ep _ o4); [done|]. rewrite U5. apply kwp_bind, kwp_wake_with; [done|].
  pose proof (shown_woken 0 (a_receiver a) Result_Endpoint_Gone v4 A2 H4) as H5. destruct (woken_fields (a_receiver a) Result_Endpoint_Gone v4) as (F1 & _).
  set (v5 := woken _ _ v4) in *. set (A5 := Abs (b_eps A2) _) in *. apply (kwp_upd_ep _ o4); [by rewrite F1|].
  pose proof (shown_upd 0 0 v5 A5 e (AEp [] (a_receiver a) true) 0 o4 (set_receiver 0 o4) H5 Ha2 (or_introl eq_refl) ltac:(by rewrite F1) eq_refl
     U4 eq_refl eq_refl (or_introl eq_refl)) as H6.
  cbn [Failed set_receiver a_callers] in H6. rewrite U7 in H6. cbn in H6. by rewrite insert_insert_eq in H6.
Qed.

End queues.

Section claims.
Context {W : Type} {OW : Others W} {LW : OthersLaws W}.

Lemma op_refines h o (v : view W) A : shown 0 v A -> enabled o A = true ->
  kwp (run_op h o) (fun r v' => r = (a_step o A).1 /\ shown 0 v' (a_step o A).2) v.
Proof.
  intros Hs Hen. destruct o; cbn [run_op].
  - apply kwp_bind. eapply kwp_mono; [|by apply kwp_Enqueue]. intros r v' Hs'. apply kwp_ret. split; [|done]. unfold a_step. by destruct (b_eps A !! _).
  - by apply kwp_Dequeue.
  - apply kwp_bind. eapply kwp_mono; [|by apply kwp_Unlink]. intros r v' Hs'. apply kwp_ret. split; [|done]. unfold a_step. by destruct (b_eps A !! _).
  - apply kwp_bind. eapply kwp_mono; [|by apply kwp_Fail]. intros r v' Hs'. apply kwp_ret. split; [|done]. unfold a_step. by destruct (b_eps A !! _).
Qed.

Lemma ops_refine h l : forall (v : view W) A, shown 0 v A -> all_enabled l A = true ->
  kwp (run_ops h l) (fun r v' => r = (a_steps l A).1 /\ shown 0 v' (a_steps l A).2) v.
Proof.
  induction l as [|o l IH]; intros v A Hs Hen; cbn [run_ops a_steps]; [by apply kwp_ret|].
  cbn [all_enabled] in Hen. apply andb_true_iff in Hen as [H1 H2].
  apply kwp_bind. eapply kwp_mono; [|by apply op_refines]. intros r v1 [-> Hs1].
  apply kwp_bind. eapply kwp_mono; [|by apply IH]. intros r v2 [-> Hs2]. by apply kwp_ret.
Qed.

(** C17.  The caller queue of an endpoint is a list.  The kernel keeps it as
    links through the control blocks of the callers, with a head and a tail in
    the endpoint.  On every kernel whose queues represent lists, any series of
    enqueues (of threads that are not queued), dequeues, removals and failures
    of endpoints returns, gives the results the lists give, and leaves queues
    that represent the resulting lists: a dequeue takes the oldest caller that
    is not dead, a removal takes one caller out of the middle, and a failing
    endpoint wakes all its callers and its receiver with the result that says
    so, and no others. *)
Theorem caller_queues h l (k : kern W) v A :
  seen k v -> shown 0 v A -> all_enabled l A = true ->
  exists k' v', run_ops h l k = Done (a_steps l A).1 k' /\ seen k' v' /\ shown 0 v' (a_steps l A).2.
Proof.
  intros Hk Hs Hen. destruct (ops_refine h l v A Hs Hen k Hk) as (r & k' & v' & E & Hk' & -> & Hs'). by exists k', v'.
Qed.

End claims.

(** ** A kernel with three harts

    Threads 16 and 32 of the process at 1000 and thread 48 of that at [q] each
    run on a hart; their message buffers are at 100, 200 and 300.  There are no
    objects of other kinds. *)

#[export] Instance no_others : Others unit := {| other_retain _ _ := retM tt; other_release _ _ _ := retM tt |}.
#[export] Instance no_others_laws : OthersLaws unit.
Proof.
  refine {| other_frames _ := ∅ |}.
  - intros kd o w p R fl Hp Hd. by exists w, p, fl.
  - intros t kd o w p R fl Hp Hd. by exists w, p, fl.
Defined.

Definition demo_part (q b : Z) : ipc_part := IpcPart q b false 1 false 0 0 0 0 0 0 0.
Definition three_boot : outcome (machine ipc_part) unit := boot 16 0 8192 0 (demo_part 1000 100) 3 [(0, true); (1, true); (2, true)].
Definition three_traps (q : Z) : list (nat * trap ipc_part) :=
  [(0%nat, Create_Call 32 0 12288 0 (demo_part 1000 200)); (1%nat, Idle [] 0); (0%nat, Create_Call 48 0 16384 0 (demo_part q 300)); (2%nat, Idle [] 0)].
Definition three (q : Z) : machine ipc_part := out_state (take_traps (three_traps q) (out_state three_boot)).
Definition demo_message : message := Message 7 [1; 2; 3; 4; 5; 6] [0; 0; 0; 0] 0.
Definition demo_frames : pmm frame_data := Pmm 4096 4096 1048576 0 0 true [] ∅.
Definition demo_bufs : gmap Z message := list_to_map [(100, demo_message); (200, demo_message); (300, demo_message)].
Definition demo_procs : gmap Z process := list_to_map [(1000, Proc 1 empty_table); (2000, Proc 2 empty_table)].
Definition demo_kern (m : machine ipc_part) (eps : gmap Z endpoint) procs : kern unit :=
  Kern m eps 0 ∅ 0 ∅ 0 0 demo_bufs procs demo_frames tt.

(** What became of a history. *)
Definition answers {A} (o : outcome (kern unit) A) : option A := match o with Done a _ => Some a | Blocked _ => None end.
Definition thread_now {A} (t : Z) (o : outcome (kern unit) A) : option (Thread_State * ipc_part) :=
  (fun c => (Status c, others c)) <$> threads (ksched (k_mach (out_state o))) !! t.
Definition queue_now {A} (e : Z) (o : outcome (kern unit) A) : option (Z * Z) :=
  (fun p => (Queue_Head p, Queue_Tail p)) <$> k_eps (out_state o) !! e.

Definition sys h n a0 a1 : KM (option regs) := Handle_Syscall (W := unit) (fun _ => false) h n (a0, a1) 0.
Definition back h : KM (W := unit) unit := on_mach (idle_round h [] 0).

(** ** The queue operations on it *)

Definition demo_ep : endpoint := Endpoint 1 0 0 0 0 0 false false 0.
Definition demo_queue_traps : list (nat * trap ipc_part) :=
  three_traps 1000 ++ [(0%nat, Blocking_Call [] Blocked_Send); (2%nat, Blocking_Call [] Blocked_Send)].
Definition waiting_machine : machine ipc_part := out_state (take_traps demo_queue_traps (out_state three_boot)).
Definition demo_view (m : machine ipc_part) (eps : gmap Z endpoint) : view unit :=
  View ((fun c => (Status c, others c)) <$> threads (ksched m)) (Current_TCBS (ksched m)) eps 0 ∅ 0 ∅ 0 0 demo_bufs ∅ ∅ ∅ tt.
Definition demo_abs (m : machine ipc_part) : abs :=
  Abs {[4096 := AEp [] 0 false]} (results (demo_view m {[4096 := demo_ep]})).
Definition demo_ops : list queue_op :=
  [Enqueue 4096 16; Enqueue 4096 32; Enqueue 4096 48; Unlink 4096 32; Dequeue 4096; Enqueue 4096 16; Fail_EP 4096; Dequeue 4096].

Lemma waiting_settled : settled waiting_machine.
Proof.
  destruct (boot_settled 16 0 8192 0 (demo_part 1000 100) 3 [(0, true); (1, true); (2, true)]) as (m0 & E0 & H0); [done..|].
  fold three_boot in E0. assert (m0 = out_state three_boot) as -> by by rewrite E0.
  destruct (orderly_settles demo_queue_traps (out_state three_boot) H0) as (m & E & Hm); [vm_compute; reflexivity..|].
  unfold waiting_machine. by rewrite E.
Qed.

Lemma demo_seen m eps : settled m -> seen (demo_kern m eps ∅) (demo_view m eps).
Proof.
  intros [a Ha]. pose proof Ha as (Hm & _ & _). split; cbn; try done.
  - exists a. split_and!; [done| |by rewrite (rep_cur _ _ Hm)]. unfold pairs. rewrite <- (rep_info _ _ Hm), <- map_fmap_compose. by apply map_fmap_ext.
  - exists (fun _ => ∅), ∅, []. split; cbn; try done.
    split; cbn; try done; try constructor; set_solver.
Qed.

Lemma demo_shown m : map_Forall (fun _ c => Queued_On_EP (others c) = 0) (threads (ksched m)) ->
  shown 0 (demo_view m {[4096 := demo_ep]}) (demo_abs m).
Proof.
  intros Hm. exists {[4096 := []]}. split; cbn; try done.
  - intros e a [<- <-]%lookup_singleton_Some. exists []. rewrite lookup_singleton_eq. split; [done|]. exists demo_ep. cbn. rewrite lookup_singleton_eq.
    split_and!; try done; [apply NoDup_nil_2|by left|apply NoDup_nil_2].
  - intros t e He. split.
    + unfold qon. cbn. rewrite lookup_fmap. destruct (threads (ksched m) !! t) as [c|] eqn:Hc; [|done]. cbn. rewrite (Hm t c Hc). congruence.
    + intros (a & [<- <-]%lookup_singleton_Some & Hin). set_solver.
  - intros e e' l l' s [<- <-]%lookup_singleton_Some [<- <-]%lookup_singleton_Some. done.
Qed.

Lemma caller_queues_witness :
  (a_steps demo_ops (demo_abs waiting_machine)).1 = [0; 0; 0; 0; 16; 0; 0; 0] /\
  exists k' v', run_ops 1 demo_ops (demo_kern waiting_machine {[4096 := demo_ep]} ∅) = Done (a_steps demo_ops (demo_abs waiting_machine)).1 k' /\
    seen k' v' /\ shown 0 v' (a_steps demo_ops (demo_abs waiting_machine)).2.
Proof.
  split; [vm_compute; reflexivity|].
  apply (caller_queues 1 demo_ops (demo_kern waiting_machine {[4096 := demo_ep]} ∅) (demo_view waiting_machine {[4096 := demo_ep]})).
  - apply demo_seen. exact waiting_settled.
  - apply demo_shown. apply (bool_decide_unpack _). vm_compute. exact I.
  - vm_compute. reflexivity.
Defined.

(** ** A caller is lost

    Thread 16 is bound to one notification and waits for another; a signal on
    the first wakes it and leaves it recorded as the waiter of the second.  It
    calls the endpoint and blocks, and thread 48 queues behind it; a signal on
    the second notification wakes 16 out of its call.  16 calls again. *)
Definition lost_caller_run : KM (W := unit) (option regs) :=
  let* _ := sys 0 Sys_EP_Create 0 0 in
  let* _ := sys 0 Sys_Ntfn_Create 0 0 in
  let* _ := sys 0 Sys_Ntfn_Create 0 0 in
  let* _ := sys 0 Sys_Ntfn_Bind_Thread 2 0 in
  let* _ := sys 0 Sys_Ntfn_Wait 3 0 in
  let* _ := sys 1 Sys_Ntfn_Signal 2 5 in
  back 0 ;;
  let* _ := sys 0 Sys_IPC_Call 1 0 in
  let* _ := sys 2 Sys_IPC_Call 1 0 in
  let* _ := sys 1 Sys_Ntfn_Signal 3 9 in
  back 0 ;;
  let* _ := sys 0 Sys_IPC_Call 1 0 in
  let* _ := sys 1 Sys_IPC_Recv 1 0 in
  sys 1 Sys_IPC_Recv 1 0.

Definition lost_caller : outcome (kern unit) (option regs) := lost_caller_run (demo_kern (three 1000) ∅ demo_procs).

(** The endpoint thread 48 is queued on has no callers, and thread 32 blocks
    in a receive on it. *)
Theorem signal_loses_caller :
  match thread_now 48 lost_caller, thread_now 32 lost_caller with
  | Some (st, x), Some (st', x') =>
      answers lost_caller = Some None /\ st = Blocked_Send /\ st' = Blocked_Receive /\ Queued_On_EP x <> 0 /\
      Recv_EP x' = Queued_On_EP x /\ queue_now (Queued_On_EP x) lost_caller = Some (0, 0)
  | _, _ => False
  end.
Proof. vm_compute. split_and!; done. Qed.

(** ** A signal is stolen

    Thread 16 binds itself to its notification and deletes the capability,
    the last one; the slot goes to the next notification, which thread 48 of
    another process creates and signals.  Thread 16 receives, with a handle
    that means nothing; then thread 48 waits for the signal. *)
Definition stolen_run : KM (W := unit) (option regs * option regs) :=
  let* _ := sys 0 Sys_Ntfn_Create 0 0 in
  let* _ := sys 0 Sys_Ntfn_Bind_Thread 1 0 in
  let* _ := sys 0 Sys_Cap_Delete 1 0 in
  let* _ := sys 2 Sys_Ntfn_Create 0 0 in
  let* _ := sys 2 Sys_Ntfn_Signal 1 9 in
  let* a := sys 0 Sys_IPC_Recv 77 0 in
  let* b := sys 2 Sys_Ntfn_Wait 1 0 in
  retM (a, b).

Definition stolen : outcome (kern unit) (option regs * option regs) := stolen_run (demo_kern (three 2000) ∅ demo_procs).

(** The receive succeeds with the bits of the other process, which blocks. *)
Theorem dead_binding_steals :
  answers stolen = Some (Some (Result_Ok, 0), None) /\
  m_words <$> k_bufs (out_state stolen) !! 100 = Some [9; 0; 0; 0; 0; 0] /\ fst <$> thread_now 48 stolen = Some Blocked_Notification.
Proof. vm_compute. split_and!; done. Qed.

(** ** A reply handle that is none

    A thread that blocks in [IPC_Recv] is woken by a signal of the notification
    it is bound to. *)
Definition stale_reply_run (a1 : Z) : KM (W := unit) (option regs) :=
  let* _ := sys 0 Sys_EP_Create 0 0 in
  let* _ := sys 0 Sys_Ntfn_Create 0 0 in
  let* _ := sys 0 Sys_Ntfn_Bind_Thread 2 0 in
  let* _ := sys 0 Sys_IPC_Recv 1 a1 in
  sys 1 Sys_Ntfn_Signal 2 5.

Definition stale_reply (a1 : Z) : outcome (kern unit) (option regs) := stale_reply_run a1 (demo_kern (three 1000) ∅ demo_procs).

(** The message says that it is a signal; the reply handle, which should be 0,
    is the register the thread called with. *)
Theorem signal_keeps_a1 :
  match thread_now 16 (stale_reply 0x40002000) with
  | Some (st, x) =>
      st = Ready /\ Saved_A0 x = Result_Ok /\ Saved_A1 x = 0x40002000 /\
      k_bufs (out_state (stale_reply 0x40002000)) !! IPC_Buffer x = Some (Message Notification_Label [5; 0; 0; 0; 0; 0] [0; 0; 0; 0] 0)
  | _ => False
  end.
Proof. vm_compute. split_and!; done. Qed.
